(* ===== verification/_CoqProject ===== *)
-Q . S2P
Prelude.v
PyText.v
Regex.v
Stamps.v
QueueRows.v
QueueOps.v
QueueInv.v
QueueClaim.v
QueueLife.v
QueueFate.v
QueueJournal.v
Messages.v
Spill.v
Microcompact.v
Summarize.v
MicroFacts.v
SummaryRecord.v
SummaryFacts.v
Compaction.v
CompactionFacts.v
Policy.v
Grants.v
GrantFacts.v
GrantClaims.v
GrantSync.v
PoolPause.v
PoolPauseFacts.v
PoolGates.v
PoolGatesFacts.v
PoolRun.v
PoolRunFacts.v
PoolSched.v
JsonCodec.v
Triage.v
Fleet.v
TriageFacts.v
TriageVerdict.v
TriageClasses.v
Drill.v
Meter.v
ToolCatalog.v
ToolCalls.v
Relief.v
Turn.v
Dispatch.v
TurnLoop.v
TurnLogic.v
TurnSamples.v
LoopFacts.v
BatchFacts.v
WireFacts.v
SpokenFacts.v
TurnUsage.v
Recorder.v
RecorderFacts.v
GateFacts.v
Binary64.v
PyValues.v
Utf8.v
Windows.v
DueRules.v
DueFacts.v
DueWaits.v
WindowFacts.v
TaskFiles.v
TaskModels.v
TaskLife.v
FileFacts.v
LifeFacts.v
SweepFacts.v
Evidence.v
EvidenceFacts.v
ServiceProbe.v
RunEvidence.v
TaskRun.v
RunFacts.v
RunVerdicts.v
TaskFeed.v
FeedFacts.v
TaskSamples.v
