(* ===== verification/Prelude.v ===== *)
(** * Lloyd: a verification development

    Lloyd is a personal assistant that runs on one machine: a chat server
    ([server.py], [app/]) whose turns go through a tool-calling harness
    ([app/harness/]), a pool of background workers ([workers/]) fed from a SQLite
    queue, and services around them. This development models the parts where a silent
    mistake loses somebody's work or lets something run that should not, and proves
    what they promise:

    - the WORKER QUEUE ([workers/queue.py]): who gets which item, how often it is
      retried, and what survives a crash;
    - the WORKER POOL ([workers/pool.py], [app/engine_pressure.py]): who may halt it,
      what a claim must skip, how a run is recorded and its row settled, when a source
      is asked for work;
    - POISON TRIAGE ([workers/maintenance.py]): what becomes of the items that failed
      too often, and of the drill that shares the seat;
    - TOOL GRANTS ([app/harness/policy.py]): whose authority an unattended turn
      borrows, for which call, how often and until when;
    - the TURN LOOP ([app/harness/loop.py] and what it calls): one agent turn, from the
      tool catalog it opens with to the result it yields;
    - the RECORD of a background run ([app/run_recorder.py], [app/turn_usage.py],
      [app/prefix_miss.py]): the transcript and the token figures a turn leaves;
    - the EVIDENCE a run gives for what it claims ([workers/evidence.py]): what the disk
      says of it, and how what it could not show reaches the next run;
    - TASK SCHEDULING ([app/autonomy.py], [workers/sources/scheduled_task.py],
      [workers/service_probe.py], the front-matter parser of [agent_mcp/_shared.py]): when
      a task file is due, how it reaches the queue, what a run of it is and what each way
      of ending makes of the file;
    - CONTEXT COMPACTION ([app/compaction.py], [app/compaction_state.py],
      [app/compaction_llm.py], [app/harness/microcompact.py],
      [app/harness/tool_result_spill.py], [app/prompt_layout.py]): what happens to a
      conversation that no longer fits the model's window.

    ** How the parts interact

    The pool's scheduler lets the sources enqueue; its slots claim and settle items
    through [WorkQueue] while no pause holds, skipping the sources its gates name
    ([worker_turn] composes [is_paused], [claim_holds], [claim_next], [mark_running],
    [record_run], [mark_completed] and [mark_failed] as [_worker_loop] does, and
    [pool_refines_queue] carries every invariant of the queue over to it). The same
    loop sweeps the rows those runs left poisoned ([maybe_sweep_poisoned], [sweep]): it
    sorts their errors and hands each to [revive] or [quarantine], and [Fleet] puts the
    workers' calls and the sweep's writes into one history. A run borrows the scope [grant_scope_for] names, and a tool call of it that can do harm passes
    [policy_pretool], which asks [check_grants]. A worker's turn is a session, and the
    history each turn starts from is what [load_and_compact_session] makes of the
    session file. [run_query] works on that history: it asks the engine, passes each
    tool call through its gates (the grant hook is one of its pre-tool callbacks), spills
    and microcompacts with the same functions the compaction stack uses, and yields
    events; [record_events] makes the session's rows of those events, and the next turn
    starts from them. [load_and_compact_session] runs the
    microcompaction pass (which saves results to the session's spill directory), then
    the persisted summary or a fresh one (which restores files from disk), then the
    drop-oldest truncation.

    Scheduled tasks close the circle. A tick of their source ([TaskFeed.enqueue_if_due])
    sweeps the task files, asks whether the primary answers, and calls [enqueue] for
    every task [get_due_tasks] names; an item a slot claims is [TaskFeed.execute], whose
    [run_task] writes grants with [sync_task_grants], hears the events of [run_query]
    ([hear]) and settles the file; the record it leaves is what [_already_ran_this_period]
    reads at the next tick; and a death before the verdict comes back to the file through
    the pool's [_death_meta].

    ** Files

    Foundations:
    - [Prelude]: boolean and case-analysis tactics, the outcome type for code that
      raises, tables as lists of rows ([sel] for SELECT, [upd] for UPDATE), least
      elements, code that threads a state and may raise ([st], [sbind]), the hint
      database [lloyd].
    - [PyText]: Python strings as lists of code points, with the string methods used.
    - [Regex]: the regular expressions of Python's [re] the source uses, matched by
      backtracking ([bt]), with the relation [matches] the matcher is sound and complete
      for; [PyUnicode] is the word characters and digits above ASCII.
    - [JsonCodec]: a JSON codec that reads back what it writes, for witnesses.
    - [Stamps]: the class [IsoStamps] of what the code relies on about ISO time
      stamps (their byte order is the order of instants, parsing inverts rendering),
      and its instance [iso_stamps], a renderer and parser of the actual format with
      the laws proved.

    Worker queue ([workers/queue.py]):
    - [QueueRows]: [qrow], [run] (the tables' columns), the retry ceiling
      ([valid_cap]), the age-adjusted ordering ([effective_priority], [claim_order]),
      [shorten_summary].
    - [QueueOps]: the state [db] and one definition per method of [WorkQueue] that
      writes, statement by statement: each SQL statement commits on its own, so an
      exception keeps the effect of what came before it. [claim_next_env] lets other
      processes act between the statements of a claim.
    - [QueueInv]: the invariant [wf] (unique ids, dedup keys of live rows unique,
      claims and attempts consistent with the state) and its preservation.
    - [QueueClaim]: what [claim_next] promises.
    - [QueueLife], [QueueFate]: the step relation [qstep], reachability, the state
      machine of a row, and the contracts of the other methods.
    - [QueueJournal]: the watermark store, the reads of the status endpoints, and the
      pause and claim-gate journals with their pairing rule.

    Worker pool ([workers/pool.py]):
    - [PoolPause]: [pause], the reload and reconciliation of a hold at start-up, the
      one read every surface shares, the boot announcement; [wdb] is the whole database.
    - [PoolPauseFacts]: a person's hold, and the refinement of one abstract hold.
    - [PoolGates]: the sampler's ring and its median ([app/engine_pressure.py]), the
      primary hold, the KV gate, the round hold with its bounded exemption, and
      [claim_holds], their union. [PyFloat] is Python's floats.
    - [PoolGatesFacts]: the median, the exact set of sources skipped, the gates' memory.
    - [PoolRun]: [normalize_result], the scopes, [run_item] (the arms of the loop's
      [try], statement by statement) and [worker_turn].
    - [PoolRunFacts]: the record's contract, the refinement of the queue's relation,
      what a turn starts and how a run settles.
    - [PoolSched]: [visit] and [scheduler_pass].

    Poison triage ([workers/maintenance.py], [_maybe_sweep_poisoned] of the pool):
    - [Triage]: [signature], [classify], the tally, [sweep] with others acting before
      each of its statements, [run_sweep], the note and the seat.
    - [Fleet]: the log of claims over a history ([work], [triaged], [fleet]).
    - [TriageFacts], [TriageVerdict], [TriageClasses]: a sweep among the others, a sweep
      left alone, and the errors.
    - [Drill]: [maybe_run_mitigation_drill] and its histories.

    Tool grants ([app/harness/policy.py], the grants table of [workers/queue.py]):
    - [Policy]: names, tiers, argument predicates, scopes and destinations.
    - [Grants]: the grants table and the dispatch ledger, [mint], [revoke],
      [check_grants], the hook [policy_pretool], the declarations of a task file and
      [sync_task_grants].
    - [GrantFacts], [GrantClaims]: the invariant of the store and what a check decides.
    - [GrantSync]: what a sync of a task's declarations leaves.

    Context compaction:
    - [Messages]: rows, content blocks, the token estimate, turns, truncation
      ([app/compaction.py]).
    - [Spill]: the spill file of a tool result and the notice that replaces it
      ([app/harness/tool_result_spill.py]), over the class [Disk].
    - [Microcompact], [MicroFacts]: the clearing pass, its sidecar and argument
      shrinking ([app/harness/microcompact.py]).
    - [Summarize]: the summariser's requests and replies, and the restore of recently
      used files ([app/compaction_llm.py]).
    - [SummaryRecord], [SummaryFacts]: the stored summary, its validation, chunking,
      folding and [/compact] ([app/compaction_state.py]).
    - [Compaction], [CompactionFacts]: the replay of injected context
      ([app/prompt_layout.py]) and the whole turn-start stack.

    The turn loop:
    - [Meter]: [_merge_usage], [_accumulate_iteration_usage] and the context meter
      ([app/harness/context_meter.py]).
    - [ToolCatalog]: the merged tool list, the summary parameter, the loaded set,
      ToolSearch and the catalog reminder ([app/harness/tool_schema.py],
      [tool_search.py], [tool_search_cache.py]).
    - [ToolCalls]: streamed calls assembled, parsed and committed, the assistant and tool
      rows, captions, which batches overlap, the order of a batch's rows, image caps
      ([app/harness/tool_images.py]).
    - [Relief]: the relief ladder and its latch, over [Microcompact] and [Spill].
    - [Turn]: the options, the events, the turn's and iteration's state, and [ask], the
      questions a run puts to everything outside it (the engine, the tools, the hooks, the
      observers, the consumer), which an [environment] answers, appending rows to the
      run's own list while a question is open.
    - [Dispatch]: [walk_hooks] ([app/harness/hooks.py]), [_pre_dispatch],
      [_execute_tool_call], [_dispatch_batch] with its calls in flight.
    - [TurnLoop]: [_prelude], [_stream_iteration] with each way a stream can end,
      [_end_without_tools], [_after_batch], the finalizer's decisions
      ([app/harness/finalizer.py]), [_close_turn], [_open_turn], [run_query].
    - [TurnLogic]: the rules by which the theorems step through the loop; [TurnSamples]: a
      concrete environment for the witnesses.
    - [LoopFacts], [BatchFacts], [WireFacts], [SpokenFacts], [GateFacts]: the end of a run,
      a batch, the shape of a request, the text, the gates.

    The record of a run:
    - [TurnUsage]: the token row, the telemetry's sums, the miss tracker.
    - [Recorder], [RecorderFacts]: the transcript's rows ([app/transcript_entries.py]) and
      [record_events].

    Evidence:
    - [Evidence]: the claims of a final response, the checks over a [view] of the disk,
      the bundle, the gap list and [_evidence_prompt] ([app/autonomy.py]).
    - [EvidenceFacts]: [truth], what the disk says of a claim read apart from the checks,
      and what a bundle and the next prompt hold.

    Task scheduling:
    - [Binary64]: floats as IEEE binary64 and durations in microseconds; [PyValues]:
      [str(v)] and the defaulting idioms; [Utf8]: text and its bytes.
    - [Windows]: the period and the hours a task file declares, the occurrences of its
      window, [_elapsed_due_at], [_next_run_after].
    - [DueRules]: cooldown, infra rest, dependency and bypass, run records, the catch-up
      of a lost window, [_is_task_due], [hold_reason], [get_due_tasks]. [DueFacts],
      [DueWaits], [WindowFacts]: their theorems.
    - [TaskFiles]: [_parse_task_file] with its graduated recovery, [_find_task_file],
      [_update_task_field], the board, the activity log.
    - [TaskModels]: the model a task names, its refusal and the endpoint probed for it
      ([app/config.py] too).
    - [TaskLife]: [_record_failure], the writes of a success, [recover_stuck_tasks]; a
      [vault] is the task files and the run records. [FileFacts], [LifeFacts],
      [SweepFacts]: their theorems.
    - [ServiceProbe]: the streaks of [workers/service_probe.py] and the outage the gate
      quotes.
    - [RunEvidence]: failure phrases, the declared deliverable, script alarms, and what
      [run_task] keeps of its events ([hearing]; [app/silent_sentinel.py] too).
    - [TaskRun]: [run_task] on every path, and [charge_death_without_verdict]. [RunFacts],
      [RunVerdicts]: their theorems.
    - [TaskFeed], [FeedFacts]: the source's tick, [execute], [_death_meta].
    - [TaskSamples]: a YAML reader of plain lines, files and dispatches for the witnesses.

    ** What the theorems show

    Forty of the theorems below are the properties of the manifest; the others carry them
    or stand beside them.

    - Claiming: a claim hands out an eligible row, the least in the age-adjusted
      order, and changes no other row except to poison one at its ceiling
      ([claim_next_sound], [claim_next_least]); it answers empty only when nothing is
      eligible ([claim_next_complete]), always returns ([claim_next_terminates]),
      respects the per-source quota ([claim_next_quota]), stays sound when other
      processes act between its statements ([claim_next_interference]), and a row old
      enough is not passed over by fresh ones ([claim_next_no_starvation]).
    - Life of a row: every reachable database is well formed ([reachable_wf]); a row is
      never lost, keeps what it was enqueued with, and completed and quarantined are
      final ([row_life]); a step moves rows along the arrows of the state machine
      ([step_evolves]); dedup, failure, deferral and crash recovery do what they say
      ([enqueue_dedup], [mark_failed_spec], [deferral_parks], [recover_claimed_sweeps],
      [recover_claimed_records]).
    - Journals: pauses and gate holds are paired and counted once
      ([pause_journal_counts_once], [hold_journal_pairs_gate]).
    - The pool drives the queue only along its protocol, whatever fails
      ([pool_refines_queue]); a slot starts only what the pauses, gates, quotas and the
      queue admit ([turn_starts_admitted]); a run appends one record and settles its row
      as its outcome says ([run_settles]); any return becomes a record within the
      contract ([normalize_result_contract]); a source is asked again exactly when its
      spacing has passed ([visit_spacing]).
    - A claim skips exactly what the gates name and the status page says so
      ([claim_holds_exact]), on the median of a fresh window ([gate_reading_median]).
    - Pool and rows are one hold with a kind, a start and a lease ([pauses_refine]); a
      person's hold stands until an operator lifts it ([person_hold_stands]).
    - Triage: an item is claimed at most [max_attempts] plus [max_revives] times over any
      history ([claims_bounded]), and a sweep among other processes makes only such a
      history ([sweep_refines_fleet]); left alone it decides every row it scans and never
      puts one work back twice ([sweep_decides]), so the pile drains ([sweeps_drain]); the
      pool's own timeouts are one transient cause ([timeouts_sort_together]); drills are
      spaced across restarts ([drills_spaced]).
    - Authority: an unattended harmful call is let through only on a live, unspent row
      that covers it ([check_grants_sound], [check_grants_exact],
      [destination_covers_exact]), and not at all when the gate fails
      ([hook_fails_closed]); no reachable store holds a worker's own grant or an
      overspent quota ([reachable_grants]); a sync renews nothing that was withdrawn and
      settles in one pass ([sync_never_renews], [sync_settles]).
    - Nothing is lost by compaction without a trace: a cleared result, fresh or spilled
      before, is on disk and the row names the file ([microcompact_recoverable]; a row
      that quotes the tag of a block aside, [quoted_tag_is_lost]), only stale rows change
      ([microcompact_shape], [shrink_confined]), the budget rule clears what it needs
      ([budget_selects_enough]), and what was reduced is replayed byte for byte
      ([record_reduced_roundtrip], [sidecar_replays], [microcompact_preview_idempotent]).
    - A stored summary stands for exactly the rows it was made from
      ([fresh_record_validates], [record_validates_only_same_past]), folding only
      moves forward ([fold_advances], [chunks_partition]), [/compact] keeps the recent
      turns ([manual_compact_keeps_recent]), a save is read back
      ([save_record_roundtrip]).
    - The history a turn starts from is the session's rows, in order, behind at most
      one summary, cut by whole turns ([load_session_history], [turns_partition],
      [split_for_summary_spec], [truncate_conversation_spec]), and while a summary is
      in force its prefix does not change ([reused_history_appends]); restored files
      are distinct, named, current and within their caps
      ([restore_recent_files_spec]).

    - A turn ends whatever it is answered, within a number of requests its options fix
      ([run_terminates]); no call reaches a tool past the allow-list, a denial, or a
      fail-closed gate that raised ([no_call_past_a_gate]); each call of a batch is
      announced and answered once, whatever order the calls land in
      ([batch_exactly_once]); every request is one the engine accepts, each assistant
      message's calls answered right behind it ([requests_well_formed]); and what a
      listener pieced together through retries and retractions is the response
      ([heard_is_answered]).
    - The meter accounts for the prompt and for what relief frees ([meter_accounts]); a
      turn's totals are peaks and sums of its requests ([usage_totals]); the misses are
      those a second look would find ([misses_exact]).
    - A background run leaves a whole transcript wherever it is cut
      ([killed_run_recorded]), and one that ends says what it said
      ([recorded_run_says]).

    - A claim is verified or refuted only as the disk has it ([verdict_exact]), a bundle
      accounts for each claim ([bundle_accounts]), a block that does not parse counts
      against the run ([unparsed_block_counts]), and the gap reaches the next run's prompt
      unless the stored list was cut ([gap_reaches_next_run]).

    - The scheduler and the board agree on what holds a task ([hold_agrees_with_due]); a
      success holds its task as its stamp says ([success_holds_its_period]) even when the
      task file loses it ([success_outlives_its_stamp]); a failed attempt cools
      for an exact time ([failed_attempt_cools]), whose end its file names unless it was
      an outage ([failure_names_its_retry]); a dependent has input or its own leave to go without
      ([dependent_has_input]); the slot a completion names is the one dispatch will use
      ([next_run_is_first_slot]).
    - A write to a task file is read back ([update_reads_back]); failures retire a task at
      its budget and only there ([failures_retire_exactly]), outages rest it
      ([infra_ceiling_rests]), and the sweep of the whole directory brings back exactly
      what is due, where each id names its own file ([sweep_recovers_exactly]).
    - A run that was made settles its task however it ends ([run_ends]), as a reference
      judge says ([run_verdict]); one whose grants cannot be read or written down strands
      it ([refused_grants_strand]); a death without a verdict is charged, once
      ([deaths_are_charged]).
    - A tick enqueues every due task once ([tick_feeds_due]), refuses the pins the engine
      refuses ([gate_refuses_as_engine]), and tells an outage once ([outage_told_once]).

    Lemmas that show a divergence between the code and its documentation are kept
    beside the part they concern: [recover_not_atomic] ([QueueFate]),
    [budget_pass_not_idempotent] and [quoted_tag_is_lost] ([MicroFacts]),
    [beat_takes_over_person_hold] and [failed_release_starts_free] ([PoolPauseFacts]),
    [lost_completion_strands] ([PoolRunFacts]), [connection_errors_structural]
    ([TriageClasses]), [search_raises] ([BatchFacts]: a ToolSearch for a bare plus ends
    the turn), [silent_end_doubles] ([RecorderFacts]), [odd_check_escapes]
    ([EvidenceFacts]: a check that raises takes the finished run down with it).

    ** Bounds and fuel

    [claim_next] loops: the model runs it with [claim_fuel] = 70 rounds, which is
    [CLAIM_RACE_RETRIES] (5) lost races plus [CLAIM_CAP_SCAN_LIMIT] (64) rows poisoned
    at the ceiling plus one; [claim_next_terminates] shows no run needs more. Decimal
    rendering has fuel from the size of the number; the removal of tagged blocks from a
    summary has the length of the text, and [remove_between_fuel] shows more changes
    nothing. A repetition of a pattern runs at most once per character left, since every
    round must consume, and a substitution once per character. A fold is bounded by the number of folds allowed. The turn
    loop has as much fuel as it is given, and [None] says it ran out: [run_terminates]
    shows that [request_bound], a sum over the options, is enough. A search for claim blocks looks at each place of the text once. A batch makes one round
    per call, since each round hands out one result ([batch_exactly_once]); a schema is
    walked to its depth. A run of window hours has at most 24 of them ([Windows.span]); the
    repair of tags takes one round per line ([fold_lines]), the search for script alarms one
    per character ([sentinels]), the date macro of a declared path one per character
    ([dated]). Integers are Python's,
    so unbounded; SQLite's columns are taken not to overflow.

    ** What is a parameter

    [IsoStamps] (proved for the actual format), [JsonText] and [PyJson] (Python's
    [json], [str] and [repr]), [Disk] (writes that may fail; [sound_disk] is one that
    does not), [Digest] (sha256), the clock, the change ledger, the summarising model
    ([summarizer]), the operator's configuration, and the moves of other processes.
    For the grants: [PyNumbers] (int, float comparison, [ip_address]), the tier of a
    shell command and the match of a durable external call, and a [world] that says
    which statements run and what others write before each. For the pool: [PyFloat]
    ([exact_floats] is rationals), and the worlds of a claim, a run, a turn and a visit
    ([claim_world], [run_world], [turn_world], [visit_world]): clocks, the engine's
    answer, how a source ended, what became of its evidence bundle, the statements that run. For
    the evidence: the [view] (paths resolved, entries, globs), [CheckTools] (a pattern's
    matches, the words of an error) and the instruction text. For the
    triage: [Sha1], [PyUnicode], [sweep_world], [drill_world], and the law
    [JsonReadBack] that a flat dict survives [json.dumps] and [json.loads]. For the turn:
    the [environment], [JsonDecoder] (the decoder a call's arguments go through),
    [str.lower], compact [json.dumps], sha1, the bytes of a screenshot; for the record:
    the clock, fresh ids, which appends land, and the row of a screenshot. For the tasks:
    [PyYaml] (load and dump), [FloatText] (the text of floats), [PyZone] (local time;
    [LawfulZone] says what a zone that steps by whole hours owes), [PyPatterns] (patterns
    a task declares), the [shelf] and the [disk] (run records, sizes and times of files,
    the hour on the wall), the [wording] of errors, which endpoints answer, the
    acceptance grade and what the change ledger adds to a record. [FalsyShown],
    [NullShown] and [PlainStamps] are what the proofs use of [str] and of stamps as text;
    [TaskSamples] instantiates them all.

    ** Modelling limits

    Telemetry and logging are left out, the texts of announcements too. In a turn timings
    and durations are left out, a call that runs beside others takes effect when it lands,
    a tool's content is text, one turn works on its session's loaded set at a time, and
    the miss fraction is a quotient of integers; a recorder reads the clock once a row. The checks of a claim look at one
    state of the disk. A decimal digit
    of a predicate is an ASCII one. A sync runs alone with the store. The pool's two
    clock reads for one row are one reading where nothing depends on the difference; a
    cancellation ends the slot after its [finally]; the cost trigger, which cannot fail
    a run, is one of the moves of others. A summariser call that raises is one that
    answers nothing; a save that fails is a boolean; imports do not fail; the
    microcompaction pass at turn start is taken not to raise. The stamps a sweep reads
    back carry an offset; one sweep runs at a time, as the one scheduler loop makes it. Session ids hold no
    slash. Rows that tie in an ORDER BY come in table order, as SQLite's rowid scan
    gives them. The shipped trigger and target fractions are integer quotients.
    Of the scheduler, warnings, alerts and the ledgers that keep them from repeating are
    left out; a scan and an ending read the clock once; a stamp of front matter is its
    text; the usage of a record lists its keys in key order; the probe's clock is in whole
    microseconds. Theorems that compute durations take periods of the named cadences and
    differences below 2^51 microseconds (some 71 years), within which no rounding shows.

    ** Not modelled

    The pool's start and stop and its watchdogs; the
    front-matter editing and the first-arm test of [app/harness/policy.py]; of
    [app/autonomy.py] the health rollups, the daily-note and Discord alerts with the
    fast-failure streak, the observer and ceiling settings of a run; the engine client,
    the MCP pool and the finalizer's own request, the command screens, memory services,
    the inner voice, routers, guardian services, the voice pipeline, the web client and
    the offline scripts: see the components of the manifest. Most of them are I/O around
    the parts above; what would come next is the health rollup of [app/autonomy.py], the
    command screens over [Regex] and the guardian's detectors. *)
From Stdlib Require Export ZArith Lia Bool.
From stdpp Require Export base numbers option gmap strings.
From stdpp Require Export list sorting.

#[export] Set Default Goal Selector "!".

Create HintDb lloyd.

Declare Scope lloyd_scope.
Delimit Scope lloyd_scope with lloyd.
Open Scope lloyd_scope.

(** ** Tactics *)

(** Split every boolean test of the goal or a hypothesis, recording the outcome
    as a proposition. *)
Ltac bool_simp :=
  repeat match goal with
  | H : context [ _ && _ = true ] |- _ => rewrite andb_true_iff in H
  | H : context [ _ || _ = true ] |- _ => rewrite orb_true_iff in H
  | H : context [ _ && _ = false ] |- _ => rewrite andb_false_iff in H
  | H : context [ _ || _ = false ] |- _ => rewrite orb_false_iff in H
  | H : context [ negb _ = true ] |- _ => rewrite negb_true_iff in H
  | H : context [ negb _ = false ] |- _ => rewrite negb_false_iff in H
  | H : (_ <=? _)%Z = true |- _ => apply Z.leb_le in H
  | H : (_ <=? _)%Z = false |- _ => apply Z.leb_gt in H
  | H : (_ <? _)%Z = true |- _ => apply Z.ltb_lt in H
  | H : (_ <? _)%Z = false |- _ => apply Z.ltb_ge in H
  | H : (_ =? _)%Z = true |- _ => apply Z.eqb_eq in H
  | H : (_ =? _)%Z = false |- _ => apply Z.eqb_neq in H
  | H : bool_decide _ = true |- _ => apply bool_decide_eq_true in H
  | H : bool_decide _ = false |- _ => apply bool_decide_eq_false in H
  | H : _ /\ _ |- _ => destruct H
  end.

(** Case analysis on the innermost test of the goal. *)
Ltac case_test :=
  match goal with
  | |- context [ if ?b then _ else _ ] =>
      let E := fresh "E" in destruct b eqn:E
  | |- context [ match ?o with _ => _ end ] =>
      let E := fresh "E" in destruct o eqn:E
  end.

Ltac case_tests := repeat (case_test; simpl in *; simplify_eq); bool_simp.

(** ** Outcomes of fallible code: a value, or the exception that was raised. *)
Inductive exn :=
| IntegrityError   (** a UNIQUE or PRIMARY KEY constraint of the database *)
| IndexError
| ValueError
| TypeError
| KeyError
| OverflowError
| AttributeError
| GrantError         (** a grant that cannot be understood *)
| DatabaseError      (** a statement the database would not run *)
| EngineError        (** a stream that broke, or a request the engine refused *)
| RuntimeError
| NotImplementedError
| ToolDiscoveryError. (** no tools, or two servers with one name *)

Inductive outcome (A : Type) :=
| Ok (a : A)
| Raise (e : exn).
Arguments Ok {A} _.
Arguments Raise {A} _.

Definition obind {A B} (m : outcome A) (k : A -> outcome B) : outcome B :=
  match m with Ok a => k a | Raise e => Raise e end.

Notation "x <-? m ;; k" := (obind m (fun x => k))
  (at level 100, m at next level, right associativity) : lloyd_scope.
Lemma obind_ok {A B} (m : outcome A) (k : A -> outcome B) b :
  obind m k = Ok b -> exists a, m = Ok a /\ k a = Ok b.
Proof. destruct m; simpl; [eauto | discriminate]. Qed.

(** ** Stateful code that may raise: what it answers or raises, and what it leaves. *)
Section Stateful.
Context {S : Type}.

Definition st (A : Type) : Type := S -> outcome A * S.
Definition sret {A} (a : A) : st A := fun s => (Ok a, s).
Definition sraise {A} (e : exn) : st A := fun s => (Raise e, s).
Definition sbind {A B} (m : st A) (k : A -> st B) : st B :=
  fun s => let '(o, s) := m s in match o with Ok a => k a s | Raise e => (Raise e, s) end.
Definition slift {A} (o : outcome A) : st A := fun s => (o, s).

Lemma sbind_ok {A B} (m : st A) (k : A -> st B) s b s' :
  sbind m k s = (Ok b, s') -> exists a s1, m s = (Ok a, s1) /\ k a s1 = (Ok b, s').
Proof. unfold sbind. destruct (m s) as [[a|e] s1]; [eauto|done]. Qed.

(** A relation that composes holds across a sequence when it holds across its parts. *)
Lemma sbind_rel {A B} (R : S -> S -> Prop) `{!Transitive R} (m : st A) (k : A -> st B) s o s' :
  sbind m k s = (o, s') -> (forall o s1, m s = (o, s1) -> R s s1) ->
  (forall a s1 o s2, m s = (Ok a, s1) -> k a s1 = (o, s2) -> R s1 s2) -> R s s'.
Proof.
  unfold sbind. destruct (m s) as [[a|e] s1] eqn:E; intros E' Hm Hk; [|simplify_eq; by eapply Hm].
  by transitivity s1; [eapply Hm|eapply Hk].
Qed.
End Stateful.
Arguments st : clear implicits.

Notation "x <-s m ;; k" := (sbind m (fun x => k))
  (at level 100, m at next level, right associativity) : lloyd_scope.


(** ** Tables: the rows of a SQL table in rowid order *)
Section Tables.
Context {R : Type}.
Implicit Types (p : R -> bool) (f : R -> R) (t : list R).

(** [SELECT * FROM t WHERE p]. *)
Fixpoint sel p t : list R :=
  match t with
  | [] => []
  | r :: t => if p r then r :: sel p t else sel p t
  end.

(** [UPDATE t SET f WHERE p]. *)
Definition upd p f t : list R := map (fun r => if p r then f r else r) t.

(** The row count of an [UPDATE] or a [SELECT COUNT] (on the same condition). *)
Definition rowcount p t : Z := Z.of_nat (length (sel p t)).

(** [SELECT ... LIMIT 1] without an order, [fetchone()]. *)
Definition sel1 p t : option R := head (sel p t).

Lemma elem_of_sel p t r : r ∈ sel p t <-> r ∈ t /\ p r = true.
Proof.
  induction t as [|a t IH]; simpl; [set_solver|].
  destruct (p a) eqn:E; rewrite ?elem_of_cons, ?IH; naive_solver congruence.
Qed.

Lemma elem_of_upd p f t r :
  r ∈ upd p f t <-> exists r0, r0 ∈ t /\ r = if p r0 then f r0 else r0.
Proof. unfold upd. rewrite list_elem_of_fmap. naive_solver. Qed.

Lemma sel1_Some p t r : sel1 p t = Some r -> r ∈ t /\ p r = true.
Proof.
  unfold sel1. intros H. apply head_Some_elem_of in H. by apply elem_of_sel in H.
Qed.

Lemma sel_nil_iff p t : sel p t = [] <-> forall r, r ∈ t -> p r = false.
Proof.
  induction t as [|a t IH]; simpl; [set_solver|].
  destruct (p a) eqn:E; split; intros H.
  - discriminate.
  - specialize (H a). rewrite H in E; [discriminate | set_solver].
  - intros r Hr. apply elem_of_cons in Hr as [->|Hr]; [done | by apply IH].
  - apply IH. intros r Hr. apply H. set_solver.
Qed.

Lemma sel1_None p t : sel1 p t = None <-> forall r, r ∈ t -> p r = false.
Proof. unfold sel1. rewrite head_None. apply sel_nil_iff. Qed.

Lemma length_upd p f t : length (upd p f t) = length t.
Proof. apply length_fmap. Qed.

Lemma upd_none p f t : (forall r, r ∈ t -> p r = false) -> upd p f t = t.
Proof.
  induction t as [|a t IH]; intros H; simpl; [done|].
  rewrite (H a) by set_solver. f_equal. apply IH. set_solver.
Qed.

Lemma sel_ext p q t : (forall r, r ∈ t -> p r = q r) -> sel p t = sel q t.
Proof.
  induction t as [|a t IH]; intros H; simpl; [done|].
  rewrite (H a) by set_solver. rewrite IH by set_solver. done.
Qed.

Lemma sel_app p t u : sel p (t ++ u) = sel p t ++ sel p u.
Proof. induction t as [|a t IH]; simpl; [done|]. destruct (p a); rewrite IH; done. Qed.

Lemma sel_length_le p t : length (sel p t) <= length t.
Proof. induction t as [|a t IH]; simpl; [lia|]. destruct (p a); simpl; lia. Qed.

Lemma sublist_sel p t : sublist (sel p t) t.
Proof. induction t as [|a t IH]; simpl; [constructor|]. destruct (p a); by constructor. Qed.

(** A projection that an update leaves alone. *)
Lemma map_upd_id {B} (g : R -> B) p f t :
  (forall r, r ∈ t -> p r = true -> g (f r) = g r) -> map g (upd p f t) = map g t.
Proof.
  induction t as [|a t IH]; intros H; simpl; [done|].
  f_equal; [destruct (p a) eqn:E; [apply H; [set_solver|done]|done] | apply IH; set_solver].
Qed.
End Tables.

Lemma sublist_map {A B} (f : A -> B) l k : l `sublist_of` k -> map f l `sublist_of` map f k.
Proof. induction 1; simpl; by constructor. Qed.

(** Composition of row-by-row relations. *)
Lemma Forall2_compose {A B C} (P : A -> B -> Prop) (Q : B -> C -> Prop) (R : A -> C -> Prop) l m n :
  (forall a b c, a ∈ l -> P a b -> Q b c -> R a c) ->
  Forall2 P l m -> Forall2 Q m n -> Forall2 R l n.
Proof.
  intros HR F. revert n. induction F as [|a b l m Hab _ IH]; intros n G; inversion G; subst;
    constructor; [eapply HR; eauto; by left | apply IH; [|done]]. intros; eapply HR; eauto; by right.
Qed.

Lemma Forall2_rowcount {A B} (p : A -> bool) (q : B -> bool) l m :
  Forall2 (fun a b => q b = p a) l m -> rowcount q m = rowcount p l.
Proof.
  unfold rowcount. induction 1 as [|a b l m E _ IH]; [done|]. cbn [sel]. rewrite E.
  destruct (p a); simpl; lia.
Qed.

(** ** Minima: [ORDER BY key ASC LIMIT 1] *)
Section Minima.
Context {R : Type} (le : R -> R -> bool).

(** The first row of the table that no later row strictly precedes. *)
Fixpoint min_by (t : list R) : option R :=
  match t with
  | [] => None
  | r :: t =>
      match min_by t with
      | None => Some r
      | Some m => Some (if le r m then r else m)
      end
  end.

Lemma min_by_elem t r : min_by t = Some r -> r ∈ t.
Proof.
  revert r. induction t as [|a t IH]; simpl; intros r H; [done|].
  destruct (min_by t) as [m|]; simplify_eq; [|set_solver].
  destruct (le a m); [set_solver|]. right. by apply IH.
Qed.

Lemma min_by_None t : min_by t = None <-> t = [].
Proof. destruct t; simpl; [done|]. destruct (min_by t); done. Qed.

Hypothesis le_total : forall a b, le a b = true \/ le b a = true.
Hypothesis le_trans : forall a b c, le a b = true -> le b c = true -> le a c = true.

Lemma min_by_least t r : min_by t = Some r -> forall x, x ∈ t -> le r x = true.
Proof.
  revert r. induction t as [|a t IH]; simpl; intros r H x Hx; [done|].
  destruct (min_by t) as [m|] eqn:E; simplify_eq.
  - apply elem_of_cons in Hx as [->|Hx].
    + destruct (le a m) eqn:Eam; [by destruct (le_total a a)|].
      destruct (le_total a m); [congruence|done].
    + specialize (IH m eq_refl x Hx). destruct (le a m) eqn:Eam; eauto.
  - apply min_by_None in E as ->. apply elem_of_cons in Hx as [->|Hx]; [|set_solver].
    by destruct (le_total r r).
Qed.
End Minima.

(** ** ORDER BY: a stable insertion sort *)
Section Sorting.
Context {R : Type} (le : R -> R -> bool).

Fixpoint insert_by (x : R) (t : list R) : list R :=
  match t with
  | [] => [x]
  | y :: t' => if le x y then x :: t else y :: insert_by x t'
  end.
Definition sort_by (t : list R) : list R := foldr insert_by [] t.

Lemma elem_of_insert_by x t r : r ∈ insert_by x t <-> r = x \/ r ∈ t.
Proof.
  induction t as [|y t IH]; simpl; [set_solver|]. destruct (le x y); [set_solver|].
  rewrite elem_of_cons, IH, elem_of_cons. tauto.
Qed.

Lemma elem_of_sort_by t r : r ∈ sort_by t <-> r ∈ t.
Proof. induction t as [|x t IH]; [done|]. simpl. rewrite elem_of_insert_by, IH, elem_of_cons. done. Qed.

Lemma insert_by_perm x t : insert_by x t ≡ₚ x :: t.
Proof.
  induction t as [|y t IH]; simpl; [done|]. destruct (le x y); [done|].
  rewrite IH. apply Permutation_swap.
Qed.

Lemma sort_by_perm t : sort_by t ≡ₚ t.
Proof. induction t as [|x t IH]; simpl; [done|]. by rewrite insert_by_perm, IH. Qed.

Lemma length_sort_by t : length (sort_by t) = length t.
Proof. by rewrite sort_by_perm. Qed.

Context (le_total : forall x y, le x y = true \/ le y x = true).
Context (le_trans : forall x y z, le x y = true -> le y z = true -> le x z = true).

Lemma insert_by_sorted x t : StronglySorted (fun a b => le a b = true) t -> StronglySorted (fun a b => le a b = true) (insert_by x t).
Proof.
  induction 1 as [|y t S IH F]; simpl; [by repeat constructor|]. destruct (le x y) eqn:E.
  - constructor; [by constructor|]. constructor; [done|]. eapply Forall_impl; [exact F|]. simpl. eauto.
  - constructor; [done|]. rewrite insert_by_perm. constructor; [|done]. destruct (le_total x y); congruence.
Qed.

Lemma sort_by_sorted t : StronglySorted (fun a b => le a b = true) (sort_by t).
Proof. induction t; simpl; [constructor|by apply insert_by_sorted]. Qed.

(** What is left of a rank, and what is right of it. *)
Lemma sorted_rank l k v :
  StronglySorted (fun a b => le a b = true) l -> l !! k = Some v ->
  (k < length (sel (fun x => le x v) l) /\ length l - k <= length (sel (fun x => le v x) l))%nat.
Proof.
  intros S. revert k. induction S as [|x l S IH F]; [done|]. assert (le x x = true) as Rx by (by destruct (le_total x x)).
  intros [|k] Hk; simpl in *.
  - injection Hk as ->. rewrite Rx. simpl. split; [lia|]. clear -F.
    induction F as [|y l Hy F IH]; simpl; [lia|]. rewrite Hy. simpl in *. lia.
  - destruct (IH k Hk) as [A B]. rewrite Forall_forall in F. rewrite (F v) by (by eapply list_elem_of_lookup_2).
    simpl. split; [lia|]. destruct (le v x); simpl; lia.
Qed.
End Sorting.

#[export] Hint Resolve sel1_Some elem_of_sel : lloyd.
#[export] Hint Rewrite @length_upd @elem_of_sel @elem_of_upd @elem_of_sort_by : lloyd.
