(* ===== verification/PyText.v ===== *)
(** * Python strings

    A Python [str] is the list of its code points, so that [len], slicing and the
    character classes of the source mean here what they mean there (a Rocq
    [string] is a list of bytes, and several markers of the source are not ASCII).
    Identifiers that the source only compares (sources, kinds, ids, time stamps)
    stay Rocq strings. *)
From Stdlib Require Import NArith Ascii String.
From S2P Require Import Prelude.

Abbreviation text := (list N).

Declare Scope text_scope.
Delimit Scope text_scope with text.

(** ** Literals *)

Section Utf8.
Local Open Scope N_scope.

(** Decode the bytes of a literal written in UTF-8. *)
Fixpoint utf8 (s : string) : text :=
  match s with
  | EmptyString => []
  | String a s1 =>
      let b := N_of_ascii a in
      if b <? 128 then b :: utf8 s1
      else match s1 with
      | EmptyString => [b]
      | String c s2 =>
          let c' := N_of_ascii c - 128 in
          if b <? 224 then ((b - 192) * 64 + c') :: utf8 s2
          else match s2 with
          | EmptyString => [b]
          | String d s3 =>
              let d' := N_of_ascii d - 128 in
              if b <? 240 then ((b - 224) * 4096 + c' * 64 + d') :: utf8 s3
              else match s3 with
              | EmptyString => [b]
              | String e s4 =>
                  let e' := N_of_ascii e - 128 in
                  ((b - 240) * 262144 + c' * 4096 + d' * 64 + e') :: utf8 s4
              end
          end
      end
  end.
End Utf8.

Notation "'u' s" := (utf8 s%string) (at level 9, s at level 8, only parsing) : text_scope.
Open Scope text_scope.

Example utf8_ascii : u "abc" = [97; 98; 99]%N.
Proof. reflexivity. Qed.
Example utf8_dash : u "—" = [8212]%N.
Proof. reflexivity. Qed.

(** The UTF-8 bytes of one code point, and of a text. *)
Definition utf8_bytes (c : N) : list N :=
  (if c <? 128 then [c]
   else if c <? 2048 then [192 + c / 64; 128 + c mod 64]
   else if c <? 65536 then [224 + c / 4096; 128 + (c / 64) mod 64; 128 + c mod 64]
   else [240 + c / 262144; 128 + (c / 4096) mod 64; 128 + (c / 64) mod 64; 128 + c mod 64])%N.

Definition encode (t : text) : string :=
  string_of_list_ascii (map ascii_of_N (concat (map utf8_bytes t))).

Example encode_ex : encode (u "a — é") = "a — é"%string.
Proof. reflexivity. Qed.

(** [len(s)] and [s[:n]], [s[n:]] for [0 <= n]. *)
Definition len (s : text) : Z := Z.of_nat (length s).
Definition upto (s : text) (n : Z) : text := take (Z.to_nat n) s.
Definition from (s : text) (n : Z) : text := drop (Z.to_nat n) s.

Lemma len_nonneg s : (0 <= len s)%Z.
Proof. unfold len; lia. Qed.

Lemma len_app s t : len (s ++ t) = (len s + len t)%Z.
Proof. unfold len. rewrite length_app. lia. Qed.

Lemma len_upto s n : (0 <= n)%Z -> len (upto s n) = Z.min n (len s).
Proof. unfold len, upto. rewrite length_take. lia. Qed.

Lemma len_upto_le s n : (0 <= n)%Z -> (len (upto s n) <= n)%Z.
Proof. intros. rewrite len_upto by lia. lia. Qed.

Lemma len_from s n : (0 <= n)%Z -> len (from s n) = Z.max 0 (len s - n).
Proof. unfold len, from. rewrite length_drop. lia. Qed.

Lemma upto_from s n : upto s n ++ from s n = s.
Proof. apply take_drop. Qed.

Lemma len_nil_iff s : len s = 0%Z <-> s = [].
Proof. unfold len. destruct s; simpl; split; intros; try done; lia. Qed.

(** ** Character classes *)

(** [str.isspace]: the code points whose bidirectional type or category makes
    them white space, as Python 3 lists them. *)
Definition isspace (c : N) : bool :=
  ((9 <=? c) && (c <=? 13) || (28 <=? c) && (c <=? 32) || (c =? 133) || (c =? 160)
   || (c =? 5760) || (8192 <=? c) && (c <=? 8202) || (c =? 8232) || (c =? 8233)
   || (c =? 8239) || (c =? 8287) || (c =? 12288))%N.

(** The line boundaries of [str.splitlines]. *)
Definition isline (c : N) : bool :=
  ((10 <=? c) && (c <=? 13) || (28 <=? c) && (c <=? 30) || (c =? 133)
   || (c =? 8232) || (c =? 8233))%N.

(** ** Stripping *)

Fixpoint lstrip (s : text) : text :=
  match s with
  | [] => []
  | c :: s' => if isspace c then lstrip s' else s
  end.

Fixpoint rstrip (s : text) : text :=
  match s with
  | [] => []
  | c :: s' => match rstrip s' with
               | [] => if isspace c then [] else [c]
               | r => c :: r
               end
  end.

Definition strip (s : text) : text := rstrip (lstrip s).

Lemma rstrip_prefix s : exists w, s = rstrip s ++ w /\ Forall (fun c => isspace c = true) w.
Proof.
  induction s as [|c s [w [Hw Hs]]]; simpl; [exists []; done|].
  destruct (rstrip s) as [|d r] eqn:E.
  - destruct (isspace c) eqn:Ec.
    + exists (c :: w). rewrite Hw. simpl. split; [done|]. by constructor.
    + exists w. rewrite Hw. done.
  - exists w. rewrite Hw. done.
Qed.

Lemma len_rstrip_le s : (len (rstrip s) <= len s)%Z.
Proof.
  destruct (rstrip_prefix s) as [w [Hw _]]. rewrite Hw at 2. rewrite len_app.
  pose proof (len_nonneg w). lia.
Qed.

Lemma rstrip_last s c : list.last (rstrip s) = Some c -> isspace c = false.
Proof.
  induction s as [|d s IH]; simpl; [done|].
  destruct (rstrip s) as [|e r] eqn:E; [|simpl in *; done].
  destruct (isspace d) eqn:Ed; simpl; intros; simplify_eq; done.
Qed.

(** ** Searching *)

(** [s.startswith(p)]. *)
Fixpoint startswith (p s : text) : bool :=
  match p, s with
  | [], _ => true
  | a :: p', b :: s' => (a =? b)%N && startswith p' s'
  | _ :: _, [] => false
  end.

Lemma startswith_spec p s : startswith p s = true <-> exists r, s = p ++ r.
Proof.
  revert s. induction p as [|a p IH]; simpl; intros s; [naive_solver|].
  destruct s as [|b s]; [split; [done | intros [r Hr]; done]|].
  rewrite andb_true_iff, N.eqb_eq, IH. naive_solver.
Qed.

(** [s.find(p)]: the first position, [None] for -1. *)
Fixpoint find (p s : text) : option nat :=
  if startswith p s then Some 0
  else match s with
       | [] => None
       | _ :: s' => S <$> find p s'
       end.

Definition contains (p s : text) : bool := bool_decide (is_Some (find p s)).

Lemma find_Some p s i : find p s = Some i -> exists l r, s = l ++ p ++ r /\ length l = i.
Proof.
  revert i. induction s as [|c s IH]; intros i H; simpl in H.
  - destruct (startswith p []) eqn:E; [|done]. simplify_eq.
    apply startswith_spec in E as [r Hr]. exists [], r. done.
  - destruct (startswith p (c :: s)) eqn:E.
    + simplify_eq. apply startswith_spec in E as [r Hr]. exists [], r. done.
    + apply fmap_Some in H as [j [Hj ->]]. destruct (IH j Hj) as (l & r & -> & Hl).
      exists (c :: l), r. simpl. rewrite Hl. done.
Qed.

Lemma find_app_is_Some p l r : is_Some (find p (l ++ p ++ r)).
Proof.
  induction l as [|c l IH]; simpl.
  - destruct p as [|a p]; [destruct r; simpl; eauto|].
    simpl. rewrite N.eqb_refl. simpl.
    assert (startswith p (p ++ r) = true) as -> by (apply startswith_spec; eauto). eauto.
  - destruct (startswith p (c :: l ++ p ++ r)); [eauto|].
    destruct IH as [i ->]. eauto.
Qed.

Lemma contains_spec p s : contains p s = true <-> exists l r, s = l ++ p ++ r.
Proof.
  unfold contains. rewrite bool_decide_eq_true. split.
  - intros [i Hi]. apply find_Some in Hi as (l & r & -> & _). eauto.
  - intros (l & r & ->). apply find_app_is_Some.
Qed.

(** ** Joining and splitting *)

(** [sep.join(parts)]. *)
Fixpoint join (sep : text) (parts : list text) : text :=
  match parts with
  | [] => []
  | [p] => p
  | p :: rest => p ++ sep ++ join sep rest
  end.

(** [s.split()]: the maximal runs of non-space characters. *)
Fixpoint split_ws_aux (cur s : text) : list text :=
  match s with
  | [] => match cur with [] => [] | _ => [cur] end
  | c :: s' =>
      if isspace c
      then match cur with [] => split_ws_aux [] s' | _ => cur :: split_ws_aux [] s' end
      else split_ws_aux (cur ++ [c]) s'
  end.
Definition split_ws (s : text) : list text := split_ws_aux [] s.

(** [s.splitlines()]: a carriage return and the line feed after it are one
    boundary ([cr] says the previous character was a carriage return), and a
    final boundary opens no empty line. *)
Fixpoint splitlines_aux (cr : bool) (cur s : text) : list text :=
  match s with
  | [] => match cur with [] => [] | _ => [cur] end
  | c :: s' =>
      if isline c then
        if cr && (c =? 10)%N then splitlines_aux false [] s'
        else cur :: splitlines_aux (c =? 13)%N [] s'
      else splitlines_aux false (cur ++ [c]) s'
  end.
Definition splitlines (s : text) : list text := splitlines_aux false [] s.

(** [s.split(c)] on one character. *)
Fixpoint split_char (c : N) (cur s : text) : list text :=
  match s with
  | [] => [rev cur]
  | x :: s => if (x =? c)%N then rev cur :: split_char c [] s else split_char c (x :: cur) s
  end.

Definition nl : text := [10%N].

(** ** Numbers *)

(** The decimal digits of a natural number, most significant first. *)
Fixpoint digits_fuel (fuel : nat) (n : N) (acc : text) : text :=
  match fuel with
  | O => acc
  | S fuel =>
      let acc := (48 + n mod 10)%N :: acc in
      if (n <? 10)%N then acc else digits_fuel fuel (n / 10)%N acc
  end.

Definition show_N (n : N) : text := digits_fuel (S (N.to_nat (N.size n))) n [].

(** [str(n)] of an integer. *)
Definition show (z : Z) : text :=
  match z with
  | Zneg p => 45%N :: show_N (Npos p)
  | _ => show_N (Z.to_N z)
  end.

(** [f"{n:,}"]: thousands separated by commas. *)
Fixpoint group3 (rev_digits : text) : text :=
  match rev_digits with
  | a :: b :: c :: ((_ :: _) as rest) => a :: b :: c :: 44%N :: group3 rest
  | ds => ds
  end.
Definition show_commas (z : Z) : text :=
  match z with
  | Zneg p => 45%N :: rev (group3 (rev (show_N (Npos p))))
  | _ => rev (group3 (rev (show_N (Z.to_N z))))
  end.

Example show_0 : show 0 = u "0". Proof. reflexivity. Qed.
Example show_1234 : show (-1234) = u "-1234". Proof. reflexivity. Qed.
Example show_commas_ex : show_commas 1234567 = u "1,234,567". Proof. reflexivity. Qed.
Example show_commas_ex2 : show_commas 123 = u "123". Proof. reflexivity. Qed.
Example split_ws_ex : split_ws (u "  a bc  d ") = [u "a"; u "bc"; u "d"]. Proof. reflexivity. Qed.
