(* ===== verification/Regex.v ===== *)
(** * Regular expressions

    The part of Python's [re] the development needs, over code points: classes,
    sequence, ordered choice, greedy repetition and the word boundary, matched the way
    [re] does - by backtracking, the first alternative that lets the rest match - with
    a declarative relation the matcher is sound and complete for. *)
From S2P Require Import Prelude PyText.

Local Open Scope N_scope.

(** The word characters and the decimal digits above ASCII. *)
Class PyUnicode := { wide_word : N -> bool; wide_digit : N -> bool }.
Definition ascii_only : PyUnicode := {| wide_word _ := false; wide_digit _ := false |}.

Inductive re :=
| Eps
| Chr (p : N -> bool)
| Seq (a b : re)
| Alt (a b : re)
| Star (a : re)
| Wb.

Section Classes.
Context `{PyUnicode}.

(** [\d], [\w] and [\s]. *)
Definition cdigit (c : N) : bool := if c <? 128 then (48 <=? c) && (c <=? 57) else wide_digit c.
Definition cword (c : N) : bool :=
  if c <? 128 then ((48 <=? c) && (c <=? 57) || (65 <=? c) && (c <=? 90) || (97 <=? c) && (c <=? 122) || (c =? 95))
  else wide_word c.

(** [\b]: between a word character and none. *)
Definition word_at (s : text) : bool := match s with c :: _ => cword c | [] => false end.
Definition boundary (prev : option N) (s : text) : bool :=
  xorb (match prev with Some c => cword c | None => false end) (word_at s).

(** ** The matcher *)

Fixpoint bt {A} (r : re) (prev : option N) (s : text) (k : option N -> text -> option A) : option A :=
  match r with
  | Eps => k prev s
  | Chr p => match s with
             | c :: s' => if p c then k (Some c) s' else None
             | [] => None
             end
  | Seq a b => bt a prev s (fun prev s => bt b prev s k)
  | Alt a b => match bt a prev s k with Some x => Some x | None => bt b prev s k end
  | Star a =>
      (fix loop (n : nat) (prev : option N) (s : text) : option A :=
         match n with
         | O => k prev s
         | S n => match bt a prev s (fun prev' s' => if (length s' <? length s)%nat then loop n prev' s' else None) with
                  | Some x => Some x
                  | None => k prev s
                  end
         end) (length s) prev s
  | Wb => if boundary prev s then k prev s else None
  end.

(** ** What it means *)

Inductive matches : re -> option N -> text -> option N -> text -> Prop :=
| M_eps prev s : matches Eps prev s prev s
| M_chr p prev c s : p c = true -> matches (Chr p) prev (c :: s) (Some c) s
| M_seq a b prev s prev1 s1 prev2 s2 :
    matches a prev s prev1 s1 -> matches b prev1 s1 prev2 s2 -> matches (Seq a b) prev s prev2 s2
| M_alt_l a b prev s prev' s' : matches a prev s prev' s' -> matches (Alt a b) prev s prev' s'
| M_alt_r a b prev s prev' s' : matches b prev s prev' s' -> matches (Alt a b) prev s prev' s'
| M_star_nil a prev s : matches (Star a) prev s prev s
| M_star_cons a prev s prev1 s1 prev2 s2 :
    matches a prev s prev1 s1 -> (length s1 < length s)%nat -> matches (Star a) prev1 s1 prev2 s2 ->
    matches (Star a) prev s prev2 s2
| M_wb prev s : boundary prev s = true -> matches Wb prev s prev s.

Lemma matches_suffix r prev s prev' s' : matches r prev s prev' s' -> exists w, s = w ++ s'.
Proof.
  induction 1 as [| |? ? ? ? ? ? ? ? _ [w1 ->] _ [w2 ->]|? ? ? ? ? ? _ [w ->]|? ? ? ? ? ? _ [w ->]|
                  |? ? ? ? ? ? ? _ [w1 ->] _ _ [w2 ->]|];
    try (by exists []); [by eexists [_]|exists (w1 ++ w2); by rewrite app_assoc|by exists w..|exists (w1 ++ w2); by rewrite app_assoc].
Qed.

(** The first continuation that succeeds comes after a match. *)
Lemma bt_sound {A} r prev s (k : option N -> text -> option A) x :
  bt r prev s k = Some x -> exists prev' s', matches r prev s prev' s' /\ k prev' s' = Some x.
Proof.
  revert A prev s k x. induction r as [|p|a IHa b IHb|a IHa b IHb|a IHa|]; intros A prev s k x; simpl.
  - intros E. by exists prev, s; split; [constructor|].
  - destruct s as [|c s]; [done|]. destruct (p c) eqn:P; [|done]. intros E. exists (Some c), s. split; [by constructor|done].
  - intros (p1 & s1 & M1 & (p2 & s2 & M2 & E)%IHb)%IHa. exists p2, s2. split; [by econstructor|done].
  - destruct (bt a prev s k) as [y|] eqn:Ea.
    + intros [= ->]. apply IHa in Ea as (p1 & s1 & M & E). exists p1, s1. split; [by apply M_alt_l|done].
    + intros (p1 & s1 & M & E)%IHb. exists p1, s1. split; [by apply M_alt_r|done].
  - generalize (length s) at 1. intros n. revert prev s x. induction n as [|n IHn]; intros prev s x.
    { intros E. exists prev, s. split; [constructor|done]. }
    destruct (bt a prev s _) as [y|] eqn:Ea.
    + intros [= ->]. apply IHa in Ea as (p1 & s1 & M1 & E). destruct (Nat.ltb_spec (length s1) (length s)); [|done].
      apply IHn in E as (p2 & s2 & M2 & E). exists p2, s2. split; [by eapply M_star_cons|done].
    + intros E. exists prev, s. split; [constructor|done].
  - destruct (boundary prev s) eqn:B; [|done]. intros E. exists prev, s. split; [by constructor|done].
Qed.

(** Backtracking misses nothing. *)
Lemma bt_complete {A} r prev s prev' s' (k : option N -> text -> option A) :
  matches r prev s prev' s' -> is_Some (k prev' s') -> is_Some (bt r prev s k).
Proof.
  revert A prev s prev' s' k. induction r as [|p|a IHa b IHb|a IHa b IHb|a IHa|]; intros A prev s prev' s' k M Hk.
  - by inversion M; subst.
  - inversion M as [|? ? ? ? P| | | | | |]; subst. simpl. by rewrite P.
  - inversion M as [| |? ? ? ? p1 s1 ? ? M1 M2| | | | |]; subst. simpl. eapply IHa; [exact M1|]. by eapply IHb.
  - simpl. inversion M as [| | |? ? ? ? ? ? Ma|? ? ? ? ? ? Mb| | |]; subst.
    + destruct (IHa A _ _ _ _ k Ma Hk) as [x ->]. by eexists.
    + destruct (bt a prev s k); [by eexists|by eapply IHb].
  - simpl. remember (length s) as n eqn:En. assert (length s <= n)%nat as L by lia. clear En.
    remember (Star a) as r eqn:Er. revert n L. induction M as [| | | | |a0 prev s|a0 prev s p1 s1 p2 s2 M1 _ L1 _ IH|];
      intros n L; simplify_eq.
    + destruct n as [|n]; simpl; [done|]. by case_match.
    + destruct n as [|n]; [lia|].
      edestruct (IHa A prev s p1 s1) as [x Hx]; [exact M1| |by rewrite Hx].
      simpl. destruct (Nat.ltb_spec (length s1) (length s)); [|lia]. apply IH; [done|done|lia].
  - inversion M as [| | | | | | |? ? B]; subst. simpl. by rewrite B.
Qed.

(** ** Searching and replacing *)

(** What is left after a match at the head of [s], and the character before it. *)
Definition match_at (r : re) (prev : option N) (s : text) : option (option N * text) :=
  bt r prev s (fun prev s => Some (prev, s)).

(** [re.search(r, s) is not None], from the position after [prev]. *)
Fixpoint search_from (r : re) (prev : option N) (s : text) : bool :=
  match match_at r prev s with
  | Some _ => true
  | None => match s with [] => false | c :: s => search_from r (Some c) s end
  end.
Definition search (r : re) (s : text) : bool := search_from r None s.

(** [re.sub(r, repl, s)] of a pattern that never matches the empty string: the matches
    do not overlap, and the replacement is not searched again. *)
Fixpoint sub_from (fuel : nat) (r : re) (repl : text) (prev : option N) (s : text) : text :=
  match fuel with
  | O => s
  | S fuel =>
      match match_at r prev s with
      | Some (prev', s') =>
          if (length s' <? length s)%nat then repl ++ sub_from fuel r repl prev' s'
          else match s with [] => [] | c :: s => c :: sub_from fuel r repl (Some c) s end
      | None => match s with [] => [] | c :: s => c :: sub_from fuel r repl (Some c) s end
      end
  end.
Definition sub (r : re) (repl s : text) : text := sub_from (S (length s)) r repl None s.

(** The character before a suffix. *)
Definition before (prev : option N) (w : text) : option N := match list.last w with Some c => Some c | None => prev end.

Lemma before_cons prev c w : before (Some c) w = before prev (c :: w).
Proof. unfold before. by destruct w as [|d w]; [|destruct (list.last (d :: w)) eqn:E; [simpl in *; rewrite E|apply last_None in E]]. Qed.

(** A search succeeds exactly when the pattern matches somewhere. *)
Lemma search_from_spec r prev s :
  search_from r prev s = true <->
  exists w s1 prev2 s2, s = w ++ s1 /\ matches r (before prev w) s1 prev2 s2.
Proof.
  revert prev. induction s as [|c s IH]; intros prev; simpl; unfold match_at.
  - destruct (bt r prev [] _) as [x|] eqn:E; (split; [|done || intros (w & s1 & p2 & s2 & Es & M)]).
    + intros _. apply bt_sound in E as (p & s & M & _). by exists [], [], p, s.
    + done.
    + destruct w; [|done]. simpl in Es. subst s1.
      eapply (bt_complete r prev [] p2 s2 (fun p s => Some (p, s))) in M; [|by eexists]. rewrite E in M. by destruct M.
  - destruct (bt r prev (c :: s) _) as [x|] eqn:E.
    + split; [|done]. intros _. apply bt_sound in E as (p & s' & M & _). by exists [], (c :: s), p, s'.
    + rewrite IH. split.
      * intros (w & s1 & p2 & s2 & -> & M). exists (c :: w), s1, p2, s2. split; [done|]. by rewrite <-before_cons.
      * intros ([|d w] & s1 & p2 & s2 & Es & M); simpl in Es; simplify_eq.
        -- eapply (bt_complete r prev _ p2 s2 (fun p s => Some (p, s))) in M; [|by eexists]. rewrite E in M. by destruct M.
        -- exists w, s1, p2, s2. split; [done|]. by rewrite (before_cons prev).
Qed.

Lemma search_spec r s :
  search r s = true <-> exists w s1 prev2 s2, s = w ++ s1 /\ matches r (list.last w) s1 prev2 s2.
Proof.
  unfold search. rewrite search_from_spec. unfold before.
  by split; intros (w & s1 & p2 & s2 & E & M); exists w, s1, p2, s2; (split; [done|]); destruct (list.last w).
Qed.

(** ** Combinators *)

Definition fold_eq (a c : N) : bool :=
  (* [re.IGNORECASE] on an ASCII letter: its two cases, and the few letters beyond
     ASCII that fold to one. *)
  let low := if (65 <=? c) && (c <=? 90) then c + 32 else c in
  let a := if (65 <=? a) && (a <=? 90) then a + 32 else a in
  (low =? a)
  || (a =? 105) && ((c =? 304) || (c =? 305))
  || (a =? 115) && (c =? 383)
  || (a =? 107) && (c =? 8490).

Definition ichr (a : N) : re := Chr (fold_eq a).
Definition iword (s : text) : re := foldr (fun c r => Seq (ichr c) r) Eps s.
Definition alts (rs : list re) : re := match rs with [] => Chr (fun _ => false) | r :: rs => fold_left Alt rs r end.
Definition opt (a : re) : re := Alt a Eps.
Definition plus (a : re) : re := Seq a (Star a).
Fixpoint times (n : nat) (a : re) : re := match n with O => Eps | S n => Seq a (times n a) end.
Definition at_least (n : nat) (a : re) : re := Seq (times n a) (Star a).
Definition space : re := Chr isspace.

Lemma matches_alts rs prev s p' s' :
  matches (alts rs) prev s p' s' <-> exists r, r ∈ rs /\ matches r prev s p' s'.
Proof.
  assert (forall rs r, matches (fold_left Alt rs r) prev s p' s' <->
    matches r prev s p' s' \/ exists r, r ∈ rs /\ matches r prev s p' s') as G.
  { clear. induction rs as [|x rs IH]; intros r; simpl.
    - split; [by left|]. intros [?|(? & []%elem_of_nil & _)]; done.
    - rewrite IH. split.
      + intros [M|(y & Hy & M)]; [inversion M; subst; [by left|right; exists x; split; [by left|done]]|].
        right. exists y. split; [by right|done].
      + intros [M|(y & [->|Hy]%elem_of_cons & M)]; [left; by constructor|left; by apply M_alt_r|right; by exists y]. }
  destruct rs as [|x rs]; simpl.
  - split; [intros M; inversion M; done|]. intros (? & []%elem_of_nil & _).
  - rewrite G. split.
    + intros [M|(y & Hy & M)]; [exists x; split; [by left|done]|exists y; split; [by right|done]].
    + intros (y & [->|Hy]%elem_of_cons & M); [by left|right; by exists y].
Qed.

Lemma fold_eq_refl a : fold_eq a a = true.
Proof. unfold fold_eq. rewrite N.eqb_refl. done. Qed.

Lemma matches_iword w prev s : matches (iword w) prev (w ++ s) (before prev w) s.
Proof.
  revert prev. induction w as [|c w IH]; intros prev; simpl; [constructor|].
  eapply M_seq; [constructor; apply fold_eq_refl|]. rewrite <-(before_cons prev). apply IH.
Qed.
(** ** Where a match can start *)

Fixpoint nullable (r : re) : bool :=
  match r with
  | Eps | Star _ | Wb => true
  | Chr _ => false
  | Seq a b => nullable a && nullable b
  | Alt a b => nullable a || nullable b
  end.

(** The characters a match that consumes something can begin with. *)
Fixpoint can_start (r : re) (c : N) : bool :=
  match r with
  | Eps | Wb => false
  | Chr p => p c
  | Seq a b => can_start a c || nullable a && can_start b c
  | Alt a b => can_start a c || can_start b c
  | Star a => can_start a c
  end.

Lemma matches_start r prev s p' s' :
  matches r prev s p' s' -> (nullable r = true /\ s' = s) \/ exists c t, s = c :: t /\ can_start r c = true.
Proof.
  induction 1 as [|p prev c s P|a b prev s p1 s1 p2 s2 _ IH1 _ IH2|a b prev s p1 s1 _ IH|a b prev s p1 s1 _ IH|
    a prev s|a prev s p1 s1 p2 s2 _ IH1 L _ _|]; simpl; try (by left).
  - right. by exists c, s.
  - destruct IH1 as [[-> ->]|(c & t & -> & Hc)]; [|right; exists c, t; by rewrite Hc].
    destruct IH2 as [[-> ->]|(c & t & -> & Hc)]; [by left|]. right. exists c, t. by rewrite Hc, orb_true_r.
  - destruct IH as [[-> ->]|(c & t & -> & Hc)]; [by left|right; exists c, t; by rewrite Hc].
  - destruct IH as [[-> ->]|(c & t & -> & Hc)]; [left; by rewrite orb_true_r|].
    right. exists c, t. by rewrite Hc, orb_true_r.
  - destruct IH1 as [[_ ->]|(c & t & -> & Hc)]; [lia|]. right. by exists c, t.
Qed.

Definition avoids (r : re) (s : text) : Prop := nullable r = false /\ forall c, c ∈ s -> can_start r c = false.

Lemma match_at_avoids r prev s : avoids r s -> match_at r prev s = None.
Proof.
  intros [Hn Hs]. unfold match_at. destruct (bt r prev s _) as [x|] eqn:E; [|done].
  apply bt_sound in E as (p' & s' & M & _). apply matches_start in M as [[? _]|(c & t & -> & Hc)]; [congruence|].
  rewrite Hs in Hc; [done|by left].
Qed.

Lemma avoids_tail r c s : avoids r (c :: s) -> avoids r s.
Proof. intros [Hn Hs]. split; [done|]. intros d Hd. apply Hs. by right. Qed.

Lemma search_avoids r prev s : avoids r s -> search_from r prev s = false.
Proof.
  revert prev. induction s as [|c s IH]; intros prev Ha; simpl; rewrite match_at_avoids by done; [done|].
  apply IH. by eapply avoids_tail.
Qed.

(** Nothing to replace. *)
Lemma sub_from_none fuel r repl prev s :
  (forall prev w s', s = w ++ s' -> match_at r prev s' = None) -> sub_from fuel r repl prev s = s.
Proof.
  revert prev s. induction fuel as [|fuel IH]; intros prev s Hn; simpl; [done|].
  rewrite (Hn prev [] s) by done. destruct s as [|c s]; [done|]. f_equal. apply IH.
  intros prev' w s' E. apply (Hn prev' (c :: w)). by rewrite E.
Qed.

Lemma sub_from_nil fuel r repl prev : sub_from fuel r repl prev [] = [].
Proof. destruct fuel as [|fuel]; simpl; [done|]. by destruct (match_at r prev []) as [[p s]|]. Qed.

Lemma sub_avoids fuel r repl prev s : avoids r s -> sub_from fuel r repl prev s = s.
Proof.
  intros [Hn Hs]. apply sub_from_none. intros p' w s' ->. apply match_at_avoids. split; [done|].
  intros c Hc. apply Hs. apply elem_of_app. by right.
Qed.

(** ** Runs of one class *)

Lemma bt_star_all {A} p prev s (k : option N -> text -> option A) x :
  forallb p s = true -> k (before prev s) [] = Some x -> bt (Star (Chr p)) prev s k = Some x.
Proof.
  simpl. remember (length s) as n eqn:En. revert prev n En. induction s as [|c s IH]; intros prev n -> Hp Hk; simpl in *; [done|].
  apply andb_true_iff in Hp as [Hc Hp]. rewrite Hc.
  destruct (Nat.ltb_spec (length s) (S (length s))); [|lia].
  rewrite (IH (Some c) (length s)); [done..|]. by rewrite (before_cons prev).
Qed.

Lemma times_chr n p prev s p' s' : matches (times n (Chr p)) prev s p' s' -> (n <= length s)%nat /\ forallb p (take n s) = true.
Proof.
  revert prev s. induction n as [|n IH]; intros prev s M; simpl in *; [split; [lia|done]|].
  inversion M as [| |? ? ? ? p1 s1 ? ? M1 M2| | | | |]; subst. inversion M1 as [|? ? c ? P| | | | | |]; subst.
  apply IH in M2 as [? ?]. simpl. split; [lia|]. by rewrite P.
Qed.
End Classes.
