(* ===== verification/Stamps.v ===== *)
(** * Time stamps

    Every stamp column of the worker database is TEXT holding
    [datetime.isoformat()] of a UTC instant, and SQL compares those columns as
    bytes. [IsoStamps] is what the modelled code relies on: rendering, the two
    parsers that read a stamp back (Python's [fromisoformat], through
    [_iso_or_none], and SQLite's [strftime('%s', ..)]), and the law that the byte
    order of rendered stamps is the order of the instants. The second half of the
    file discharges the interface with the actual format, proleptic Gregorian
    calendar included. An instant is a number of microseconds since the epoch. *)
From Stdlib Require Import Ascii String.
From S2P Require Import Prelude.

Local Open Scope Z_scope.

Definition usec : Z := 1000000.

(** SQLite's BINARY collation on TEXT. *)
Definition sle (a b : string) : bool := String.leb a b.
Definition slt (a b : string) : bool := negb (String.leb b a).

Class IsoStamps := {
  in_range : Z -> bool;
  iso : Z -> string;
  iso_parse : string -> option Z;
  sql_epoch : string -> option Z;
  (** [fromisoformat(s).isoformat()]: a parsed stamp rendered in its own offset. *)
  iso_norm : string -> string;
  iso_parse_iso t : in_range t = true -> iso_parse (iso t) = Some t;
  sle_iso t u : in_range t = true -> in_range u = true -> sle (iso t) (iso u) = (t <=? u);
  sql_epoch_iso t : in_range t = true -> sql_epoch (iso t) = Some (t / usec);
  iso_norm_iso t : in_range t = true -> iso_norm (iso t) = iso t;
  iso_nonempty t : iso t <> EmptyString
}.

Lemma slt_iso `{IsoStamps} t u :
  in_range t = true -> in_range u = true -> slt (iso t) (iso u) = (t <? u).
Proof. intros. unfold slt. rewrite sle_iso by done. lia. Qed.

Lemma iso_inj `{IsoStamps} t u :
  in_range t = true -> in_range u = true -> iso t = iso u -> t = u.
Proof.
  intros Ht Hu E. apply (f_equal iso_parse) in E.
  rewrite !iso_parse_iso in E by done. by simplify_eq.
Qed.

Lemma sle_total a b : sle a b = true \/ sle b a = true.
Proof. apply String.leb_total. Qed.

Lemma sle_refl a : sle a a = true.
Proof. destruct (sle_total a a); done. Qed.

(** ** Lexicographic comparison *)

Definition lex (c d : comparison) : comparison := match c with Eq => d | _ => c end.

Lemma lex_assoc a b c : lex (lex a b) c = lex a (lex b c).
Proof. by destruct a. Qed.

Fixpoint lcmp (a b : list ascii) : comparison :=
  match a, b with
  | [], [] => Eq
  | [], _ => Lt
  | _, [] => Gt
  | x :: a, y :: b => lex (Ascii.compare x y) (lcmp a b)
  end.

Lemma compare_lcmp a b :
  String.compare (string_of_list_ascii a) (string_of_list_ascii b) = lcmp a b.
Proof.
  revert b. induction a as [|x a IH]; intros [|y b]; simpl; try done.
  rewrite IH. by destruct (Ascii.compare x y).
Qed.

Lemma lcmp_refl a : lcmp a a = Eq.
Proof.
  induction a as [|x a IH]; simpl; [done|].
  unfold Ascii.compare. rewrite N.compare_refl. done.
Qed.

Lemma lcmp_app a b x y :
  length a = length b -> lcmp (a ++ x) (b ++ y) = lex (lcmp a b) (lcmp x y).
Proof.
  revert b. induction a as [|c a IH]; intros [|d b]; simpl; intros; try done.
  rewrite IH by lia. by rewrite lex_assoc.
Qed.

Lemma ascii_compare_trans a b c :
  Ascii.compare a b <> Gt -> Ascii.compare b c <> Gt ->
  Ascii.compare a c <> Gt /\
  (Ascii.compare a c = Eq -> Ascii.compare a b = Eq /\ Ascii.compare b c = Eq).
Proof.
  unfold Ascii.compare. rewrite !N.compare_le_iff. intros.
  split; [lia|]. rewrite !N.compare_eq_iff. lia.
Qed.

Lemma lcmp_trans a b c : lcmp a b <> Gt -> lcmp b c <> Gt -> lcmp a c <> Gt.
Proof.
  revert b c. induction a as [|x a IH]; intros [|y b] [|z c]; simpl; try done.
  intros H1 H2.
  assert (Ascii.compare x y <> Gt) as G1 by (intros E; rewrite E in H1; done).
  assert (Ascii.compare y z <> Gt) as G2 by (intros E; rewrite E in H2; done).
  destruct (ascii_compare_trans _ _ _ G1 G2) as [G3 G4].
  destruct (Ascii.compare x z) eqn:E; simpl; try done.
  destruct (G4 eq_refl) as [E1 E2]. rewrite E1 in H1. rewrite E2 in H2. simpl in *. eauto.
Qed.

Lemma sle_lcmp a b : sle (string_of_list_ascii a) (string_of_list_ascii b)
                     = match lcmp a b with Gt => false | _ => true end.
Proof. unfold sle, String.leb. rewrite compare_lcmp. by destruct (lcmp a b). Qed.

Lemma sle_trans a b c : sle a b = true -> sle b c = true -> sle a c = true.
Proof.
  rewrite <- (string_of_list_ascii_of_string a), <- (string_of_list_ascii_of_string b),
    <- (string_of_list_ascii_of_string c), !sle_lcmp.
  intros H1 H2.
  assert (lcmp (list_ascii_of_string a) (list_ascii_of_string c) <> Gt) as H3.
  { eapply lcmp_trans; [intros E; rewrite E in H1; done | intros E; rewrite E in H2; done]. }
  destruct (lcmp (list_ascii_of_string a) (list_ascii_of_string c)); done.
Qed.

(** Comparing quotients, then remainders, compares the numbers. *)
Lemma lex_divmod k a b : 0 < k -> lex (a / k ?= b / k) (a mod k ?= b mod k) = (a ?= b).
Proof.
  intros Hk. pose proof (Z.div_mod a k ltac:(lia)) as Ha.
  pose proof (Z.div_mod b k ltac:(lia)) as Hb.
  pose proof (Z.mod_pos_bound a k Hk). pose proof (Z.mod_pos_bound b k Hk).
  revert Ha Hb. generalize (a / k) (b / k). intros q q' Ha Hb.
  destruct (Z.compare_spec q q') as [->|Hq|Hq]; simpl; symmetry.
  - destruct (Z.compare_spec (a mod k) (b mod k));
      [apply Z.compare_eq_iff | apply Z.compare_lt_iff | apply Z.compare_gt_iff]; lia.
  - apply Z.compare_lt_iff. nia.
  - apply Z.compare_gt_iff. nia.
Qed.

(** ** Fixed-width numerals *)

Definition digit (d : Z) : ascii := ascii_of_N (48 + Z.to_N d).

Fixpoint digs (w : nat) (n : Z) : list ascii :=
  match w with
  | O => []
  | S w => digs w (n / 10) ++ [digit (n mod 10)]
  end.

Lemma digit_compare a b : 0 <= a < 10 -> 0 <= b < 10 -> Ascii.compare (digit a) (digit b) = (a ?= b).
Proof.
  intros. unfold Ascii.compare, digit. rewrite !N_ascii_embedding by lia.
  rewrite <- N2Z.inj_compare.
  destruct (Z.compare_spec a b); [apply Z.compare_eq_iff | apply Z.compare_lt_iff
    | apply Z.compare_gt_iff]; lia.
Qed.

Lemma length_digs w n : length (digs w n) = w.
Proof. revert n. induction w as [|w IH]; simpl; intros; [done|]. rewrite length_app, IH. simpl. lia. Qed.

Lemma lcmp_digs w a b :
  0 <= a < 10 ^ Z.of_nat w -> 0 <= b < 10 ^ Z.of_nat w -> lcmp (digs w a) (digs w b) = (a ?= b).
Proof.
  revert a b. induction w as [|w IH]; intros a b Ha Hb.
  - simpl in *. assert (a = 0) as -> by lia. assert (b = 0) as -> by lia. done.
  - rewrite Nat2Z.inj_succ, Z.pow_succ_r in Ha, Hb by lia.
    cbn [digs]. rewrite lcmp_app by (by rewrite !length_digs).
    rewrite IH by (split; [apply Z.div_pos | apply Z.div_lt_upper_bound]; lia).
    simpl. rewrite digit_compare by (apply Z.mod_pos_bound; lia).
    rewrite <- (lex_divmod 10 a b) by lia.
    by destruct (a / 10 ?= b / 10), (a mod 10 ?= b mod 10).
Qed.

(** Reading a numeral of [w] digits back. *)
Definition undigit (c : ascii) : option Z :=
  let n := Z.of_N (N_of_ascii c) - 48 in
  if (0 <=? n) && (n <? 10) then Some n else None.

Fixpoint num (w : nat) (acc : Z) (l : list ascii) : option (Z * list ascii) :=
  match w with
  | O => Some (acc, l)
  | S w => match l with
           | [] => None
           | c :: l => match undigit c with
                       | Some d => num w (10 * acc + d) l
                       | None => None
                       end
           end
  end.

Lemma undigit_digit d : 0 <= d < 10 -> undigit (digit d) = Some d.
Proof.
  intros. unfold undigit, digit. rewrite N_ascii_embedding by lia.
  rewrite N2Z.inj_add, Z2N.id by lia.
  replace (Z.of_N 48 + d - 48) with d by lia.
  replace ((0 <=? d) && (d <? 10)) with true by (symmetry; apply andb_true_iff; lia). done.
Qed.

Lemma num_app w w' acc l acc' m :
  num w acc l = Some (acc', m) -> num (w + w') acc l = num w' acc' m.
Proof.
  revert acc l. induction w as [|w IH]; simpl; intros acc l H; [by simplify_eq|].
  destruct l as [|c l]; [done|]. destruct (undigit c); [by apply IH|done].
Qed.

Lemma num_digs w n acc l :
  0 <= n < 10 ^ Z.of_nat w -> num w acc (digs w n ++ l) = Some (acc * 10 ^ Z.of_nat w + n, l).
Proof.
  revert n l. induction w as [|w IH]; intros n l Hn.
  - simpl in *. do 2 f_equal. lia.
  - rewrite Nat2Z.inj_succ, Z.pow_succ_r in * by lia.
    cbn [digs]. rewrite <- (app_assoc (digs w (n / 10))).
    rewrite <- Nat.add_1_r.
    erewrite num_app; [|apply IH; split; [apply Z.div_pos | apply Z.div_lt_upper_bound]; lia].
    cbn [num app]. rewrite undigit_digit by (apply Z.mod_pos_bound; lia).
    do 2 f_equal. pose proof (Z.div_mod n 10). lia.
Qed.

Lemma num_digs0 w n l :
  0 <= n < 10 ^ Z.of_nat w -> num w 0 (digs w n ++ l) = Some (n, l).
Proof. intros. rewrite num_digs by done. by rewrite Z.mul_0_l, Z.add_0_l. Qed.

(** ** The calendar *)

(** Days before year [y], before month [m] of a year with leap flag [l] (0 or 1). *)
Definition dby (y : Z) : Z := let p := y - 1 in 365 * p + p / 4 - p / 100 + p / 400.
Definition dbm (l m : Z) : Z := (367 * m - 362) / 12 - (if m <=? 2 then 0 else 2 - l).
Definition leap (y : Z) : Z := dby (y + 1) - dby y - 365.

Definition year_of (n : Z) : Z :=
  let y := n * 400 / 146097 + 1 in
  if n <? dby y then y - 1 else if dby (y + 1) <=? n then y + 1 else y.

Definition month_of (l doy : Z) : Z :=
  (12 * (doy + (if doy <? 59 + l then 0 else 2 - l)) + 373) / 367.

Lemma leap_range y : leap y = 0 \/ leap y = 1.
Proof. unfold leap, dby. Z.to_euclidean_division_equations. lia. Qed.

Lemma dby_mono a b : a <= b -> dby a <= dby b.
Proof. unfold dby. intros. Z.to_euclidean_division_equations. lia. Qed.

Lemma year_of_spec n : dby (year_of n) <= n < dby (year_of n + 1).
Proof.
  assert (forall y, dby y + 365 <= dby (y + 1)) as Hstep.
  { intros y. unfold dby. Z.to_euclidean_division_equations. lia. }
  assert (dby (n * 400 / 146097 + 1) <= n + 1 /\ n - 1 <= dby (n * 400 / 146097 + 1 + 1)) as [H1 H2].
  { unfold dby. Z.to_euclidean_division_equations. lia. }
  unfold year_of. set (y := n * 400 / 146097 + 1) in *.
  pose proof (Hstep (y - 1)). pose proof (Hstep (y + 1)). replace (y - 1 + 1) with y in * by lia.
  destruct (Z.ltb_spec n (dby y)); [replace (y - 1 + 1) with y by lia; lia|].
  destruct (Z.leb_spec (dby (y + 1)) n); lia.
Qed.

Lemma dbm_step l m : (l = 0 \/ l = 1) -> 1 <= m <= 12 -> dbm l m < dbm l (m + 1).
Proof.
  intros Hl Hm. unfold dbm.
  destruct (Z.leb_spec m 2), (Z.leb_spec (m + 1) 2); Z.to_euclidean_division_equations; lia.
Qed.

Lemma month_of_spec l doy : (l = 0 \/ l = 1) -> 0 <= doy < 365 + l ->
  1 <= month_of l doy <= 12 /\ dbm l (month_of l doy) <= doy < dbm l (month_of l doy + 1).
Proof.
  intros Hl Hd. unfold month_of, dbm.
  destruct (Z.ltb_spec doy (59 + l)).
  - set (m := (12 * (doy + 0) + 373) / 367).
    assert (1 <= m <= 2) by (subst m; Z.to_euclidean_division_equations; lia).
    destruct (Z.leb_spec m 2), (Z.leb_spec (m + 1) 2); subst m; Z.to_euclidean_division_equations; lia.
  - set (m := (12 * (doy + (2 - l)) + 373) / 367).
    assert (3 <= m <= 12) by (subst m; Z.to_euclidean_division_equations; lia).
    destruct (Z.leb_spec m 2), (Z.leb_spec (m + 1) 2); subst m; Z.to_euclidean_division_equations; lia.
Qed.

(** The calendar date of a day number (day 0 is 0001-01-01), and back. *)
Definition ymd (n : Z) : Z * Z * Z :=
  let y := year_of n in
  let doy := n - dby y in
  let m := month_of (leap y) doy in
  (y, m, doy - dbm (leap y) m + 1).

Definition day_no (y m d : Z) : Z := dby y + dbm (leap y) m + d - 1.

Lemma doy_range n : 0 <= n - dby (year_of n) < 365 + leap (year_of n).
Proof. pose proof (year_of_spec n). unfold leap. lia. Qed.

Lemma day_no_ymd n : let '(y, m, d) := ymd n in day_no y m d = n.
Proof. unfold ymd, day_no. lia. Qed.

Lemma ymd_range n : 0 <= n < 3652059 ->
  let '(y, m, d) := ymd n in 1 <= y <= 9999 /\ 1 <= m <= 12 /\ 1 <= d <= 31.
Proof.
  intros Hn. unfold ymd. pose proof (year_of_spec n) as Hy. pose proof (doy_range n) as Hd.
  destruct (month_of_spec _ _ (leap_range (year_of n)) Hd) as [Hm1 Hm2].
  split; [|split; [done|]].
  - assert (dby 1 = 0 /\ dby 10000 = 3652059) as [H1 H2] by done.
    split.
    + destruct (Z.lt_ge_cases (year_of n) 1); [|done].
      pose proof (dby_mono (year_of n + 1) 1). lia.
    + destruct (Z.le_gt_cases (year_of n) 9999); [done|].
      pose proof (dby_mono 10000 (year_of n)). lia.
  - split; [lia|]. revert Hm2. generalize (month_of (leap (year_of n)) (n - dby (year_of n))).
    intros m. unfold dbm. destruct (Z.leb_spec m 2), (Z.leb_spec (m + 1) 2);
      pose proof (leap_range (year_of n)); Z.to_euclidean_division_equations; lia.
Qed.

Lemma dbm_mono l a b : (l = 0 \/ l = 1) -> 1 <= a -> a <= b <= 13 -> dbm l a <= dbm l b.
Proof.
  intros Hl Ha Hb. unfold dbm.
  destruct (Z.leb_spec a 2), (Z.leb_spec b 2); Z.to_euclidean_division_equations; lia.
Qed.

Lemma ymd_compare n n' :
  let '(y, m, d) := ymd n in let '(y', m', d') := ymd n' in
  lex (y ?= y') (lex (m ?= m') (d ?= d')) = (n ?= n').
Proof.
  unfold ymd. pose proof (year_of_spec n). pose proof (year_of_spec n').
  pose proof (doy_range n) as Hd. pose proof (doy_range n') as Hd'.
  destruct (Z.compare_spec (year_of n) (year_of n')) as [Ey|Hy|Hy]; simpl; symmetry.
  - rewrite <- Ey in *. set (l := leap (year_of n)) in *. set (b := dby (year_of n)) in *.
    destruct (month_of_spec l _ (leap_range _) Hd) as [Hm Hb].
    destruct (month_of_spec l _ (leap_range _) Hd') as [Hm' Hb'].
    set (m := month_of l (n - b)) in *. set (m' := month_of l (n' - b)) in *.
    destruct (Z.compare_spec m m') as [Em|Hlt|Hlt]; simpl.
    + rewrite <- Em in *. destruct (Z.compare_spec n n'); symmetry;
        [apply Z.compare_eq_iff | apply Z.compare_lt_iff | apply Z.compare_gt_iff]; lia.
    + apply Z.compare_lt_iff. pose proof (dbm_mono l (m + 1) m' (leap_range _)). lia.
    + apply Z.compare_gt_iff. pose proof (dbm_mono l (m' + 1) m (leap_range _)). lia.
  - apply Z.compare_lt_iff. pose proof (dby_mono (year_of n + 1) (year_of n')). lia.
  - apply Z.compare_gt_iff. pose proof (dby_mono (year_of n' + 1) (year_of n)). lia.
Qed.

(** ** [datetime.isoformat()] of a UTC instant *)

Definition day_us : Z := 86400 * usec.
Definition epoch_day : Z := 719162.

Local Open Scope char_scope.
Local Open Scope Z_scope.

Definition frac (us : Z) : list ascii :=
  (if us =? 0 then [] else "."%char :: digs 6 us)
  ++ ["+"%char; "0"%char; "0"%char; ":"%char; "0"%char; "0"%char].

Definition iso_chars (t : Z) : list ascii :=
  let '(y, m, d) := ymd (t / day_us + epoch_day) in
  let r := t mod day_us in
  let r1 := r mod (3600 * usec) in
  let r2 := r1 mod (60 * usec) in
  digs 4 y ++ "-"%char :: digs 2 m ++ "-"%char :: digs 2 d ++ "T"%char
  :: digs 2 (r / (3600 * usec)) ++ ":"%char :: digs 2 (r1 / (60 * usec)) ++ ":"%char
  :: digs 2 (r2 / usec) ++ frac (r2 mod usec).

Definition iso_text (t : Z) : string := string_of_list_ascii (iso_chars t).

(** The instants [datetime] can hold: years 1 to 9999. *)
Definition iso_range (t : Z) : bool :=
  (0 <=? t / day_us + epoch_day) && (t / day_us + epoch_day <? 3652059).

Example iso_text_ex : iso_text 1793523661000500 = "2026-11-01T09:01:01.000500+00:00"%string.
Proof. vm_compute. reflexivity. Qed.
Example iso_text_ex2 : iso_text 0 = "1970-01-01T00:00:00+00:00"%string.
Proof. vm_compute. reflexivity. Qed.

Lemma lcmp_cons c a b : lcmp (c :: a) (c :: b) = lcmp a b.
Proof. simpl. unfold Ascii.compare. by rewrite N.compare_refl. Qed.

Lemma lcmp_frac a b : 0 <= a < usec -> 0 <= b < usec -> lcmp (frac a) (frac b) = (a ?= b).
Proof.
  intros Ha Hb. unfold frac.
  destruct (Z.eqb_spec a 0) as [->|Na], (Z.eqb_spec b 0) as [->|Nb]; [done| | |].
  - simpl app. transitivity Lt; [done|]. symmetry. apply Z.compare_lt_iff. lia.
  - simpl app. transitivity Gt; [done|]. symmetry. apply Z.compare_gt_iff. lia.
  - cbn [app]. rewrite lcmp_cons, lcmp_app, lcmp_digs by (by rewrite ?length_digs).
    rewrite lcmp_refl. by destruct (a ?= b).
Qed.

Lemma mod_range a k : 0 < k -> 0 <= a mod k < k.
Proof. apply Z.mod_pos_bound. Qed.

Lemma div_range a k n : 0 < k -> 0 <= a < k * n -> 0 <= a / k < n.
Proof. intros. split; [apply Z.div_pos | apply Z.div_lt_upper_bound]; lia. Qed.

(** The ranges of the time-of-day fields. *)
Lemma tod_range t :
  let r := t mod day_us in
  let r1 := r mod (3600 * usec) in
  let r2 := r1 mod (60 * usec) in
  0 <= r / (3600 * usec) < 24 /\ 0 <= r1 / (60 * usec) < 60 /\ 0 <= r2 / usec < 60
  /\ 0 <= r2 mod usec < usec.
Proof.
  cbv zeta. pose proof (mod_range t day_us ltac:(done)).
  pose proof (mod_range (t mod day_us) (3600 * usec) ltac:(done)).
  pose proof (mod_range ((t mod day_us) mod (3600 * usec)) (60 * usec) ltac:(done)).
  split; [|split; [|split]].
  - apply div_range; [done|]. unfold day_us, usec in *. lia.
  - apply div_range; [done|]. unfold usec in *. lia.
  - apply div_range; [done|]. unfold usec in *. lia.
  - by apply mod_range.
Qed.

Lemma iso_chars_compare t t' :
  iso_range t = true -> iso_range t' = true -> lcmp (iso_chars t) (iso_chars t') = (t ?= t').
Proof.
  unfold iso_range. intros Ht Ht'. bool_simp.
  rewrite <- (lex_divmod day_us t t') by done.
  pose proof (ymd_range (t / day_us + epoch_day) ltac:(lia)) as R.
  pose proof (ymd_range (t' / day_us + epoch_day) ltac:(lia)) as R'.
  pose proof (ymd_compare (t / day_us + epoch_day) (t' / day_us + epoch_day)) as C.
  destruct (tod_range t) as (Rh & Rm & Rs & Ru), (tod_range t') as (Rh' & Rm' & Rs' & Ru').
  unfold iso_chars.
  destruct (ymd (t / day_us + epoch_day)) as [[y m] d], (ymd (t' / day_us + epoch_day)) as [[y' m'] d'].
  set (r := t mod day_us) in *. set (r' := t' mod day_us) in *.
  repeat first [rewrite lcmp_app by (by rewrite !length_digs) | rewrite lcmp_cons].
  rewrite !lcmp_digs, lcmp_frac by (try change (10 ^ Z.of_nat 4) with 10000; try change (10 ^ Z.of_nat 2) with 100; lia).
  rewrite (lex_divmod usec) by done. rewrite (lex_divmod (60 * usec)) by done.
  rewrite (lex_divmod (3600 * usec)) by done.
  rewrite <- !lex_assoc. f_equal. rewrite lex_assoc, C.
  destruct (Z.compare_spec (t / day_us) (t' / day_us)); [apply Z.compare_eq_iff
    | apply Z.compare_lt_iff | apply Z.compare_gt_iff]; lia.
Qed.

(** Reading the format back. *)
Definition lit (c : ascii) (l : list ascii) : option (list ascii) :=
  match l with
  | c' :: l => if Ascii.eqb c c' then Some l else None
  | [] => None
  end.

Definition parse_frac (l : list ascii) : option Z :=
  match l with
  | "."%char :: l =>
      '(us, l) ← num 6 0 l; if bool_decide (l = frac 0) then Some us else None
  | _ => if bool_decide (l = frac 0) then Some 0 else None
  end.

Definition parse_chars (l : list ascii) : option Z :=
  '(y, l) ← num 4 0 l; l ← lit "-"%char l;
  '(m, l) ← num 2 0 l; l ← lit "-"%char l;
  '(d, l) ← num 2 0 l; l ← lit "T"%char l;
  '(h, l) ← num 2 0 l; l ← lit ":"%char l;
  '(mi, l) ← num 2 0 l; l ← lit ":"%char l;
  '(s, l) ← num 2 0 l; us ← parse_frac l;
  Some ((day_no y m d - epoch_day) * day_us + h * (3600 * usec) + mi * (60 * usec) + s * usec + us).

Definition iso_text_parse (s : string) : option Z := parse_chars (list_ascii_of_string s).

Lemma lit_cons c l : lit c (c :: l) = Some l.
Proof. simpl. by rewrite Ascii.eqb_refl. Qed.

Lemma parse_frac_frac us : 0 <= us < usec -> parse_frac (frac us) = Some us.
Proof.
  intros Hu. unfold frac. destruct (Z.eqb_spec us 0) as [->|N].
  - done.
  - cbn [app]. unfold parse_frac.
    rewrite num_digs by (change (10 ^ Z.of_nat 6) with usec; lia).
    done.
Qed.

Lemma iso_text_roundtrip t : iso_range t = true -> iso_text_parse (iso_text t) = Some t.
Proof.
  unfold iso_range, iso_text_parse, iso_text. intros Ht. bool_simp.
  rewrite list_ascii_of_string_of_list_ascii.
  pose proof (ymd_range (t / day_us + epoch_day) ltac:(lia)) as R.
  pose proof (day_no_ymd (t / day_us + epoch_day)) as D.
  destruct (tod_range t) as (Rh & Rm & Rs & Ru).
  unfold iso_chars. destruct (ymd (t / day_us + epoch_day)) as [[y m] d].
  set (r := t mod day_us) in *. unfold parse_chars.
  repeat first [
    rewrite num_digs0 by (try change (10 ^ Z.of_nat 4) with 10000; try change (10 ^ Z.of_nat 2) with 100; lia);
    cbn [mbind option_bind]
  | rewrite lit_cons; cbn [mbind option_bind] ].
  rewrite parse_frac_frac by done. cbn [mbind option_bind]. f_equal.
  pose proof (Z.div_mod t day_us ltac:(done)). pose proof (Z.div_mod r (3600 * usec) ltac:(done)).
  pose proof (Z.div_mod (r mod (3600 * usec)) (60 * usec) ltac:(done)).
  pose proof (Z.div_mod ((r mod (3600 * usec)) mod (60 * usec)) usec ltac:(done)).
  unfold day_us in *. lia.
Qed.

(** The format discharges the interface; this parser accepts exactly the shape the
    module writes ([fromisoformat] accepts more, which no law above forbids). *)
#[export, refine] Instance iso_stamps : IsoStamps := {
  in_range := iso_range;
  iso := iso_text;
  iso_parse := iso_text_parse;
  sql_epoch := fun s => (fun t => t / usec) <$> iso_text_parse s;
  iso_norm := fun s => match iso_text_parse s with Some t => iso_text t | None => s end
}.
Proof.
  - apply iso_text_roundtrip.
  - intros t u Ht Hu. unfold iso_text. rewrite sle_lcmp, iso_chars_compare by done.
    unfold Z.leb. by destruct (t ?= u).
  - intros t Ht. by rewrite iso_text_roundtrip.
  - intros t Ht. by rewrite iso_text_roundtrip.
  - intros t. unfold iso_text, iso_chars. destruct (ymd _) as [[y m] d].
    destruct (digs 4 y) eqn:E; [apply (f_equal length) in E; by rewrite length_digs in E | done].
Defined.
