(* ===== verification/QueueRows.v ===== *)
(** * The worker queue: rows and the rules that read them

    [workers/queue.py]: the columns of the [queue] and [runs] tables, the retry
    ceiling, the age-adjusted ordering of a claim and the shape of a run summary. *)
From Stdlib Require Import String.
From S2P Require Import Prelude PyText Stamps.

Local Open Scope Z_scope.

(** ** JSON values, and the codec the TEXT columns go through *)

Inductive json :=
| JNull
| JBool (b : bool)
| JInt (z : Z)
| JFloat (repr : string)
| JStr (s : string)
| JList (l : list json)
| JObj (fields : list (string * json)).

(** Python's [json] module: rendering (with and without [ensure_ascii]), parsing,
    and [str()] of a parsed value. *)
Class JsonText := {
  dumps : json -> string;
  dumps_ascii : json -> string;
  loads : string -> option json;
  py_str : json -> string
}.

(** A codec with no content, for evaluating the operations on concrete rows: the
    class has no law, and nothing below depends on what is rendered. *)
Definition blank_json : JsonText :=
  {| dumps _ := EmptyString; dumps_ascii _ := EmptyString; loads _ := None;
     py_str _ := EmptyString |}.

(** [_loads_or_none]: NULL, an empty column, unparseable text and a value that is
    not an object all read as [None]. *)
Definition loads_or_none `{JsonText} (raw : option string) : option (list (string * json)) :=
  match raw with
  | None | Some EmptyString => None
  | Some s => match loads s with Some (JObj fs) => Some fs | _ => None end
  end.

Fixpoint obj_get (k : string) (fs : list (string * json)) : option json :=
  match fs with
  | [] => None
  | (k', v) :: fs => if String.eqb k k' then Some v else obj_get k fs
  end.

(** ** Rows *)

Inductive qstate := Queued | Claimed | Running | Completed | Poisoned | Quarantined.

#[export] Instance qstate_eq_dec : EqDecision qstate.
Proof. solve_decision. Defined.

Record qrow := QRow {
  q_id : Z;
  q_source : string;
  q_kind : string;
  q_priority : Z;
  q_payload_json : string;
  q_dedup_key : option string;
  q_state : qstate;
  q_attempts : Z;
  q_enqueued_at : string;
  q_claimed_at : option string;
  q_claimed_by : option string;
  q_completed_at : option string;
  q_error : option text;
  q_not_before : option string;
  q_current_run_id : option string;
  q_triaged_at : option string;
  q_triage_json : option string
}.

#[export] Instance qrow_eq_dec : EqDecision qrow.
Proof. solve_decision. Defined.

(** The [SET] clauses of the statements below. *)
Definition set_state (v : qstate) (r : qrow) : qrow :=
  QRow r.(q_id) r.(q_source) r.(q_kind) r.(q_priority) r.(q_payload_json) r.(q_dedup_key) v
    r.(q_attempts) r.(q_enqueued_at) r.(q_claimed_at) r.(q_claimed_by) r.(q_completed_at)
    r.(q_error) r.(q_not_before) r.(q_current_run_id) r.(q_triaged_at) r.(q_triage_json).
Definition set_dedup_key (v : option string) (r : qrow) : qrow :=
  QRow r.(q_id) r.(q_source) r.(q_kind) r.(q_priority) r.(q_payload_json) v r.(q_state)
    r.(q_attempts) r.(q_enqueued_at) r.(q_claimed_at) r.(q_claimed_by) r.(q_completed_at)
    r.(q_error) r.(q_not_before) r.(q_current_run_id) r.(q_triaged_at) r.(q_triage_json).
Definition set_attempts (v : Z) (r : qrow) : qrow :=
  QRow r.(q_id) r.(q_source) r.(q_kind) r.(q_priority) r.(q_payload_json) r.(q_dedup_key)
    r.(q_state) v r.(q_enqueued_at) r.(q_claimed_at) r.(q_claimed_by) r.(q_completed_at)
    r.(q_error) r.(q_not_before) r.(q_current_run_id) r.(q_triaged_at) r.(q_triage_json).
Definition set_claim (at_ by_ : option string) (r : qrow) : qrow :=
  QRow r.(q_id) r.(q_source) r.(q_kind) r.(q_priority) r.(q_payload_json) r.(q_dedup_key)
    r.(q_state) r.(q_attempts) r.(q_enqueued_at) at_ by_ r.(q_completed_at)
    r.(q_error) r.(q_not_before) r.(q_current_run_id) r.(q_triaged_at) r.(q_triage_json).
Definition set_completed_at (v : option string) (r : qrow) : qrow :=
  QRow r.(q_id) r.(q_source) r.(q_kind) r.(q_priority) r.(q_payload_json) r.(q_dedup_key)
    r.(q_state) r.(q_attempts) r.(q_enqueued_at) r.(q_claimed_at) r.(q_claimed_by) v
    r.(q_error) r.(q_not_before) r.(q_current_run_id) r.(q_triaged_at) r.(q_triage_json).
Definition set_error (v : option text) (r : qrow) : qrow :=
  QRow r.(q_id) r.(q_source) r.(q_kind) r.(q_priority) r.(q_payload_json) r.(q_dedup_key)
    r.(q_state) r.(q_attempts) r.(q_enqueued_at) r.(q_claimed_at) r.(q_claimed_by)
    r.(q_completed_at) v r.(q_not_before) r.(q_current_run_id) r.(q_triaged_at) r.(q_triage_json).
Definition set_not_before (v : option string) (r : qrow) : qrow :=
  QRow r.(q_id) r.(q_source) r.(q_kind) r.(q_priority) r.(q_payload_json) r.(q_dedup_key)
    r.(q_state) r.(q_attempts) r.(q_enqueued_at) r.(q_claimed_at) r.(q_claimed_by)
    r.(q_completed_at) r.(q_error) v r.(q_current_run_id) r.(q_triaged_at) r.(q_triage_json).
Definition set_current_run_id (v : option string) (r : qrow) : qrow :=
  QRow r.(q_id) r.(q_source) r.(q_kind) r.(q_priority) r.(q_payload_json) r.(q_dedup_key)
    r.(q_state) r.(q_attempts) r.(q_enqueued_at) r.(q_claimed_at) r.(q_claimed_by)
    r.(q_completed_at) r.(q_error) r.(q_not_before) v r.(q_triaged_at) r.(q_triage_json).
Definition set_triage (at_ j : option string) (r : qrow) : qrow :=
  QRow r.(q_id) r.(q_source) r.(q_kind) r.(q_priority) r.(q_payload_json) r.(q_dedup_key)
    r.(q_state) r.(q_attempts) r.(q_enqueued_at) r.(q_claimed_at) r.(q_claimed_by)
    r.(q_completed_at) r.(q_error) r.(q_not_before) r.(q_current_run_id) at_ j.

(** A row of [runs]. Durations are microseconds. *)
Record run := Run {
  run_id : string;
  r_queue_id : option Z;
  r_source : string;
  r_task_id : option string;
  r_status : string;
  r_started_at : string;
  r_completed_at : string;
  r_duration : Z;
  r_summary : text;
  r_artifact_path : string;
  r_response_json : text;
  r_meta_json : option text;
  r_claims_json : option text;
  r_kind : option string
}.

(** ** The retry ceiling *)

Definition DEFAULT_MAX_ATTEMPTS : Z := 3.
Definition CLAIM_RACE_RETRIES : Z := 5.
Definition CLAIM_CAP_SCAN_LIMIT : Z := 64.

(** [WorkQueue._valid_cap] on a value [int()] accepts ([None]: it raised). *)
Definition valid_cap (max_attempts : option Z) : Z :=
  match max_attempts with
  | None => DEFAULT_MAX_ATTEMPTS
  | Some cap => if cap <? 1 then 1 else cap
  end.

Definition cap_error (attempts cap : Z) (action : text) : text :=
  u "max_attempts=" ++ show cap ++ u " reached: " ++ action
  ++ u " refused because the row already carries " ++ show attempts
  ++ u " attempt(s), which is the cap on claims. "
  ++ u "Poisoned instead of persisting attempts above the cap.".

(** ** Aging *)

Definition AGING_PERIOD_HOURS : Z := 6.
Definition AGING_POINTS_PER_PERIOD : Z := 15.
Definition AGING_FLOOR_PRIORITY : Z := 10.

(** The expression of [_effective_priority_sql], NULL propagation included: SQLite
    answers NULL for an unparseable stamp, for a division by zero and for a scalar
    [MAX] with a NULL argument; integer division truncates. *)
Definition aging_credit `{IsoStamps} (now_s : Z) (r : qrow) : Z :=
  match sql_epoch r.(q_enqueued_at) with
  | Some enq =>
      let period := AGING_PERIOD_HOURS * 3600 in
      if period =? 0 then 0
      else Z.max 0 (Z.quot (now_s - enq) period) * AGING_POINTS_PER_PERIOD
  | None => 0
  end.

Definition effective_priority `{IsoStamps} (now_s : Z) (r : qrow) : Z :=
  Z.min r.(q_priority) (Z.max (r.(q_priority) - aging_credit now_s r) AGING_FLOOR_PRIORITY).

(** [ORDER BY <effective> ASC, priority ASC, enqueued_at ASC]. *)
Definition claim_order `{IsoStamps} (now_s : Z) (a b : qrow) : bool :=
  let ea := effective_priority now_s a in
  let eb := effective_priority now_s b in
  (ea <? eb) || (ea =? eb) &&
  ((a.(q_priority) <? b.(q_priority)) || (a.(q_priority) =? b.(q_priority)) &&
   sle a.(q_enqueued_at) b.(q_enqueued_at)).

Section Aging.
Context `{IsoStamps}.

Lemma claim_order_total now_s a b :
  claim_order now_s a b = true \/ claim_order now_s b a = true.
Proof.
  unfold claim_order. destruct (sle_total (q_enqueued_at a) (q_enqueued_at b)) as [-> | ->];
  destruct (Z.compare_spec (effective_priority now_s a) (effective_priority now_s b));
  destruct (Z.compare_spec (q_priority a) (q_priority b));
  rewrite ?orb_true_iff, ?andb_true_iff, ?orb_true_iff, ?andb_true_iff,
    ?Z.ltb_lt, ?Z.eqb_eq; lia.
Qed.

Lemma claim_order_trans now_s a b c :
  claim_order now_s a b = true -> claim_order now_s b c = true -> claim_order now_s a c = true.
Proof.
  unfold claim_order. rewrite !orb_true_iff, !andb_true_iff, !orb_true_iff, !andb_true_iff.
  rewrite !Z.ltb_lt, !Z.eqb_eq.
  pose proof (sle_trans (q_enqueued_at a) (q_enqueued_at b) (q_enqueued_at c)). intuition lia.
Qed.

Lemma aging_credit_nonneg now_s r : 0 <= aging_credit now_s r.
Proof.
  unfold aging_credit, AGING_POINTS_PER_PERIOD. destruct (sql_epoch _); [|lia].
  case_match; lia.
Qed.

Lemma effective_priority_le now_s r : effective_priority now_s r <= r.(q_priority).
Proof. unfold effective_priority. lia. Qed.

Lemma effective_priority_floor now_s r :
  Z.min r.(q_priority) AGING_FLOOR_PRIORITY <= effective_priority now_s r.
Proof. unfold effective_priority. lia. Qed.

(** Waiting never costs urgency. *)
Lemma effective_priority_antitone now_s now_s' r :
  now_s <= now_s' -> effective_priority now_s' r <= effective_priority now_s r.
Proof.
  intros Hle. unfold effective_priority, aging_credit.
  destruct (sql_epoch _) as [enq|]; [|lia]. case_match; [lia|].
  pose proof (Z.quot_le_mono (now_s - enq) (now_s' - enq) (AGING_PERIOD_HOURS * 3600) ltac:(done) ltac:(lia)).
  unfold AGING_POINTS_PER_PERIOD. lia.
Qed.

(** Below one full period nothing changes. *)
Lemma effective_priority_fresh now_s r enq :
  sql_epoch r.(q_enqueued_at) = Some enq -> now_s - enq < AGING_PERIOD_HOURS * 3600 ->
  effective_priority now_s r = r.(q_priority).
Proof.
  intros He Hlt. unfold effective_priority, aging_credit. rewrite He.
  replace (AGING_PERIOD_HOURS * 3600 =? 0) with false by done.
  assert (Z.quot (now_s - enq) (AGING_PERIOD_HOURS * 3600) <= 0) as Hq.
  { unfold AGING_PERIOD_HOURS in *. destruct (Z.le_gt_cases 0 (now_s - enq)).
    - rewrite Z.quot_small; lia.
    - pose proof (Z.quot_le_mono (now_s - enq) 0 (6 * 3600) ltac:(lia) ltac:(lia)).
      rewrite Z.quot_0_l in * by lia. lia. }
  unfold AGING_POINTS_PER_PERIOD. lia.
Qed.

(** After [k] full periods a row has gained [k] credits, down to the floor. *)
Lemma effective_priority_aged now_s r enq k :
  sql_epoch r.(q_enqueued_at) = Some enq -> 0 <= k ->
  k * (AGING_PERIOD_HOURS * 3600) <= now_s - enq ->
  effective_priority now_s r
    <= Z.max (r.(q_priority) - k * AGING_POINTS_PER_PERIOD) AGING_FLOOR_PRIORITY.
Proof.
  intros He Hk Hw. unfold effective_priority, aging_credit. rewrite He.
  replace (AGING_PERIOD_HOURS * 3600 =? 0) with false by done.
  assert (k <= Z.quot (now_s - enq) (AGING_PERIOD_HOURS * 3600)).
  { apply Z.quot_le_lower_bound; unfold AGING_PERIOD_HOURS in *; lia. }
  unfold AGING_POINTS_PER_PERIOD. lia.
Qed.
End Aging.

(** ** The summary column *)

Definition SUMMARY_MAX_CHARS : Z := 500.
Definition SUMMARY_MARKER : text := u "...".

(** The [while] loop of [shorten_summary]: back off to the start of the word that
    contains position [e]. *)
Fixpoint word_start (s : text) (e : nat) : nat :=
  match e with
  | O => O
  | S e' => match s !! e' with
            | Some c => if isspace c then e else word_start s e'
            | None => word_start s e'
            end
  end.

Definition shorten_summary (s : text) (limit : Z) : outcome text :=
  if len s <=? limit then Ok s
  else
    let room := Z.max 1 (limit - len SUMMARY_MARKER) in
    match s !! Z.to_nat room with
    | None => Raise IndexError
    | Some c =>
        let e := if isspace c then Z.to_nat room else word_start s (Z.to_nat room) in
        match rstrip (take e s) with
        | [] =>
            match rstrip (upto s room) with
            | [] => Ok (upto s limit)
            | kept => Ok (kept ++ SUMMARY_MARKER)
            end
        | kept => Ok (kept ++ SUMMARY_MARKER)
        end
    end.

Lemma word_start_le s e : (word_start s e <= e)%nat.
Proof. induction e as [|e IH]; simpl; [lia|]. repeat case_match; lia. Qed.

(** Where the loop stops: at 0, or just after a white-space character. *)
Lemma word_start_stop s e : word_start s e = 0%nat \/
  exists c, s !! Nat.pred (word_start s e) = Some c /\ isspace c = true.
Proof.
  induction e as [|e IH]; simpl; [by left|].
  destruct (s !! e) as [c|] eqn:E; [|done].
  destruct (isspace c) eqn:Ec; [right; simpl; eauto | done].
Qed.

(** A non-empty result of [rstrip] on a prefix is followed by white space, unless
    nothing was stripped. *)
Lemma rstrip_take_next s e :
  rstrip (take e s) = take e s \/
  exists c, s !! length (rstrip (take e s)) = Some c /\ isspace c = true.
Proof.
  destruct (rstrip_prefix (take e s)) as ([|c w] & Hw & Hsp).
  - left. rewrite app_nil_r in Hw. congruence.
  - right. exists c. split; [|by apply Forall_cons_1 in Hsp as [? _]].
    set (k := rstrip (take e s)) in *.
    assert (s = k ++ (c :: w) ++ drop e s) as ->.
    { rewrite app_assoc, <- Hw. by rewrite take_drop. }
    by rewrite lookup_app_r, Nat.sub_diag by done.
Qed.

Lemma last_take_lookup (s : text) e c :
  list.last (take (S e) s) = Some c -> (S e <= length s)%nat -> s !! e = Some c.
Proof.
  intros Hl He. rewrite last_lookup, length_take, Nat.min_l in Hl by lia. simpl in Hl.
  rewrite lookup_take in Hl. case_decide; [done|lia].
Qed.

(** A summary that does not fit is cut after a whole word: what is kept is a
    prefix of the text, and the character after it is white space - or the text has
    no word boundary in reach, or starts with a blank window. *)
Definition cut_at_word (s : text) (limit : Z) (r : text) : Prop :=
  let room := limit - len SUMMARY_MARKER in
  (exists kept c, r = kept ++ SUMMARY_MARKER /\ kept <> [] /\ kept `prefix_of` s
     /\ s !! length kept = Some c /\ isspace c = true)
  \/ (r = rstrip (upto s room) ++ SUMMARY_MARKER
      /\ rstrip (take (word_start s (Z.to_nat room)) s) = [])
  \/ (r = upto s limit /\ rstrip (upto s room) = []).

Lemma rstrip_prefix_of s : rstrip s `prefix_of` s.
Proof. destruct (rstrip_prefix s) as (w & Hw & _). by exists w. Qed.

Lemma shorten_cut s limit : 4 <= limit -> limit < len s ->
  exists r, shorten_summary s limit = Ok r /\ cut_at_word s limit r.
Proof.
  intros Hl Hs. unfold shorten_summary, cut_at_word.
  replace (len s <=? limit) with false by lia.
  change (len SUMMARY_MARKER) with 3. rewrite Z.max_r by lia.
  set (room := Z.to_nat (limit - 3)).
  assert (room < length s)%nat as Hroom by (unfold room, len in *; lia).
  destruct (lookup_lt_is_Some_2 s room Hroom) as [c Hc]. rewrite Hc.
  set (e := if isspace c then room else word_start s room).
  assert (e <= room)%nat as He.
  { unfold e. destruct (isspace c); [done|]. apply word_start_le. }
  destruct (rstrip (take e s)) as [|d kept] eqn:Ek.
  - assert (isspace c = true \/ rstrip (take (word_start s room) s) = []) as Hb.
    { unfold e in Ek. destruct (isspace c); eauto. }
    destruct (rstrip (upto s (limit - 3))) as [|d kept] eqn:Eu; eexists; split; eauto 10.
    right; left. split; [done|]. destruct Hb as [Hb|]; [|done].
    unfold e in Ek. rewrite Hb in Ek. unfold upto in Eu. fold room in Eu. congruence.
  - eexists; split; [done|]. left. rewrite <- Ek.
    destruct (rstrip_take_next s e) as [E|(c' & Hc' & Hsp)].
    + assert (length (take e s) = e) as Hlen by (rewrite length_take; lia).
      assert (isspace c = true) as Esp.
      { destruct (isspace c) eqn:Esp; [done|]. exfalso.
        destruct (word_start_stop s room) as [H0|(c' & Hc' & Hsp)].
        { unfold e in *. rewrite H0 in Ek. done. }
        destruct e as [|e'] eqn:Ee; [done|]. rewrite <- Ee in *.
        assert (list.last (rstrip (take e s)) = Some c') as Hlast.
        { rewrite E, last_lookup, Hlen, Ee. simpl. rewrite lookup_take.
          case_decide; [|lia]. unfold e in Ee. rewrite Ee in Hc'. done. }
        apply rstrip_last in Hlast. congruence. }
      rewrite E in *. exists (take e s), c. rewrite Hlen.
      repeat split; [by rewrite Ek | by apply prefix_take | | done].
      unfold e. by rewrite Esp.
    + exists (rstrip (take e s)), c'. rewrite Ek in *. repeat split; [done| |done|done].
      rewrite <- Ek. etrans; [apply rstrip_prefix_of | apply prefix_take].
Qed.

Lemma shorten_len s limit r : 4 <= limit -> shorten_summary s limit = Ok r -> len r <= limit.
Proof.
  intros Hl. unfold shorten_summary. case_match eqn:Hfit; [intros; simplify_eq; lia|].
  bool_simp. rewrite Z.max_r by (change (len SUMMARY_MARKER) with 3; lia).
  change (len SUMMARY_MARKER) with 3.
  assert (forall e, (e <= Z.to_nat (limit - 3))%nat -> len (rstrip (take e s)) <= limit - 3) as Hk.
  { intros e He. pose proof (len_rstrip_le (take e s)). unfold len in *. rewrite length_take in *. lia. }
  destruct (s !! _) as [c|]; [|done].
  set (e := if isspace c then _ else _).
  assert (e <= Z.to_nat (limit - 3))%nat as He.
  { unfold e. destruct (isspace c); [done|]. apply word_start_le. }
  specialize (Hk e He) as Hke. specialize (Hk (Z.to_nat (limit - 3)) ltac:(done)) as Hkr.
  fold (upto s (limit - 3)) in Hkr.
  assert (forall k, len k <= limit - 3 -> len (k ++ SUMMARY_MARKER) <= limit) as Hm.
  { intros k ?. rewrite len_app. change (len SUMMARY_MARKER) with 3. lia. }
  destruct (rstrip (take e s)).
  - destruct (rstrip (upto s (limit - 3))); intros E; simplify_eq; [apply len_upto_le; lia | by apply (Hm (_ :: _))].
  - intros E; simplify_eq. by apply (Hm (_ :: _)).
Qed.
