(* ===== verification/QueueOps.v ===== *)
(** * The worker queue: its operations

    [WorkQueue] of [workers/queue.py], one definition per method. A method takes
    the database and returns its outcome together with the database it leaves:
    connections are opened with [isolation_level=None], so each statement commits
    on its own and the effect of the statements before an exception stays.

    The clock is an argument. Methods that read it once take an instant; those
    that read it several times take the sequence of readings. *)
From Stdlib Require Import String.
From S2P Require Import Prelude PyText Stamps QueueRows.

Local Open Scope Z_scope.

Record db := Db {
  queue : list qrow;      (** in rowid order *)
  seq : Z;                (** [sqlite_sequence]: the last AUTOINCREMENT id *)
  runs : list run
}.

Definition empty_db : db := Db [] 0 [].

Definition with_queue (q : list qrow) (d : db) : db := Db q d.(seq) d.(runs).

(** [UPDATE queue SET f WHERE p]. *)
Definition update (p : qrow -> bool) (f : qrow -> qrow) (d : db) : db :=
  with_queue (upd p f d.(queue)) d.

Definition is_id (i : Z) (r : qrow) : bool := r.(q_id) =? i.
Definition in_state (s : qstate) (r : qrow) : bool := bool_decide (r.(q_state) = s).
(** [state IN ('claimed','running')] and [state IN ('queued','claimed','running')]. *)
Definition in_flight (r : qrow) : bool := in_state Claimed r || in_state Running r.
Definition is_live (r : qrow) : bool := in_state Queued r || in_flight r.
Definition has_key (k : string) (r : qrow) : bool := bool_decide (r.(q_dedup_key) = Some k).

(** [SELECT * FROM queue WHERE id=?]. *)
Definition get (i : Z) (d : db) : option qrow := sel1 (is_id i) d.(queue).

(** Python truthiness of an optional string. *)
Definition truthy (s : option string) : bool :=
  match s with None | Some EmptyString => false | Some _ => true end.

(** [payload or {}]. *)
Definition or_empty (payload : option json) : json := default (JObj []) payload.

Section Ops.
Context `{IsoStamps} `{JsonText}.

(** ** Enqueue *)

(** [INSERT INTO queue]: the UNIQUE constraint on [dedup_key] ignores NULL. *)
Definition insert_row (now : Z) (source kind : string) (priority : Z) (payload_json : string)
    (dedup_key : option string) (d : db) : outcome Z * db :=
  let taken := match dedup_key with
               | None => false
               | Some k => existsb (has_key k) d.(queue)
               end in
  if taken then (Raise IntegrityError, d)
  else
    let i := d.(seq) + 1 in
    let r := QRow i source kind priority payload_json dedup_key Queued 0 (iso now)
               None None None None None None None None in
    (Ok i, Db (d.(queue) ++ [r]) i d.(runs)).

Definition enqueue (now : Z) (source kind : string) (payload : option json) (priority : Z)
    (dedup_key : option string) (d : db) : outcome (option Z) * db :=
  let payload_json := dumps (or_empty payload) in
  let insert d :=
    let '(o, d) := insert_row now source kind priority payload_json dedup_key d in
    (i <-? o ;; Ok (Some i), d) in
  match dedup_key with
  | Some k =>
      if truthy dedup_key then
        match sel1 (has_key k) d.(queue) with
        | Some existing =>
            if is_live existing then (Ok None, d)
            else insert (update (is_id existing.(q_id)) (set_dedup_key None) d)
        | None => insert d
        end
      else insert d
  | None => insert d
  end.

Definition has_live (dedup_key : string) (d : db) : bool :=
  match sel1 (fun r => has_key dedup_key r && is_live r) d.(queue) with
  | Some _ => true | None => false
  end.

(** ** Claim *)

(** [_poison_at_cap]: the row as it was read decides the [WHERE] clause. *)
Definition poison_at_cap (now : Z) (row : qrow) (cap : Z) (action : text) (d : db) : db :=
  update (fun r => is_id row.(q_id) r && in_state row.(q_state) r)
    (fun r => set_dedup_key None (set_error (Some (upto (cap_error row.(q_attempts) cap action) 2000))
                (set_completed_at (Some (iso now)) (set_state Poisoned r)))) d.

Definition inflight_count (source : string) (d : db) : Z :=
  rowcount (fun r => in_flight r && bool_decide (r.(q_source) = source)) d.(queue).

(** [max_inflight_per_source]: [None] is a source with no quota. *)
Abbreviation quotas := (list (string * option Z)).

Definition saturated (q : quotas) (d : db) : list string :=
  omap (fun '(src, quota) =>
          match quota with
          | Some n => if n <=? inflight_count src d then Some src else None
          | None => None
          end) q.

(** The [WHERE] of the claim: queued, not parked past [bound], source not excluded. *)
Definition claimable (bound : string) (excluded : list string) (r : qrow) : bool :=
  in_state Queued r
  && match r.(q_not_before) with None => true | Some nb => sle nb bound end
  && bool_decide (r.(q_source) ∉ excluded).

Definition pick (now_s : Z) (bound : string) (excluded : list string) (d : db) : option qrow :=
  min_by (claim_order now_s) (sel (claimable bound excluded) d.(queue)).

Definition claim_update (now : Z) (worker_id : string) (row : qrow) (d : db) : db :=
  update (fun r => is_id row.(q_id) r && in_state Queued r)
    (fun r => set_current_run_id None (set_attempts (r.(q_attempts) + 1)
                (set_claim (Some (iso now)) (Some worker_id) (set_state Claimed r)))) d.

Definition held_by (worker_id : string) (r : qrow) : bool :=
  in_state Claimed r && bool_decide (r.(q_claimed_by) = Some worker_id).

(** The claim loop. [clk] gives the clock readings and [env] what other processes
    write between two statements of this one: iteration [i] reads the clock at
    [2i] (inside the [SELECT]) and [2i+1] (the stamp it writes), and the others
    run after its [SELECT] ([env (2i)]) and after its [UPDATE] ([env (2i+1)]).
    [None] is only ever the fuel running out. *)
Section Loop.
Variables (clk : nat -> Z) (env : nat -> db -> db).
Variables (cap : Z) (worker_id bound : string) (excluded : list string).

Fixpoint claim_loop (fuel i : nat) (losses cap_sweeps : Z) (d : db)
    : option (option qrow * db) :=
  match fuel with
  | O => None
  | S fuel =>
      if negb (losses <? CLAIM_RACE_RETRIES) then Some (None, d)
      else match pick (clk (2 * i) / usec) bound excluded d with
      | None => Some (None, d)
      | Some row =>
          let d := env (2 * i)%nat d in
          if cap <=? row.(q_attempts) then
            if CLAIM_CAP_SCAN_LIMIT <=? cap_sweeps then Some (None, d)
            else claim_loop fuel (S i) losses (cap_sweeps + 1)
                   (poison_at_cap (clk (2 * i + 1)) row cap (u "claim") d)
          else
            let d := claim_update (clk (2 * i + 1)%nat) worker_id row d in
            let d := env (2 * i + 1)%nat d in
            match get row.(q_id) d with
            | Some refreshed =>
                if held_by worker_id refreshed then Some (Some refreshed, d)
                else claim_loop fuel (S i) (losses + 1) cap_sweeps d
            | None => claim_loop fuel (S i) (losses + 1) cap_sweeps d
            end
      end
  end.
End Loop.

(** One iteration more than the two counters allow together. *)
Definition claim_fuel : nat := 70.

Definition claim_next_env (now : Z) (clk : nat -> Z) (env : nat -> db -> db) (cap : Z)
    (worker_id : string) (max_inflight : quotas) (exclude_sources : list string) (d : db)
    : option (option qrow * db) :=
  let excluded := saturated max_inflight d ++ exclude_sources in
  claim_loop clk env cap worker_id (iso now) excluded claim_fuel 0 0 0 d.

(** Nothing else writes the file during the call. *)
Definition claim_next (now : Z) (clk : nat -> Z) (cap : Z) (worker_id : string)
    (max_inflight : quotas) (exclude_sources : list string) (d : db) : option qrow * db :=
  match claim_next_env now clk (fun _ d => d) cap worker_id max_inflight exclude_sources d with
  | Some r => r
  | None => (None, d)
  end.

(** ** Running, completing, failing *)

Definition mark_running (item_id : Z) (rid : option string) (d : db) : db :=
  update (fun r => is_id item_id r && in_state Claimed r)
    (fun r => set_current_run_id rid (set_state Running r)) d.

(** The deferral of [mark_completed]: a stamp that parses to a future instant. *)
Definition deferral (now : Z) (not_before : option string) : option string :=
  match not_before with
  | None => None
  | Some nb => match iso_parse nb with
               | Some when => if now <? when then Some (iso_norm nb) else None
               | None => None
               end
  end.

Definition mark_completed (now stamp : Z) (item_id : Z) (dedup_release : bool)
    (not_before : option string) (d : db) : db :=
  match deferral now not_before with
  | Some deferred =>
      update (is_id item_id)
        (fun r => set_not_before (Some deferred) (set_error None (set_completed_at None
                    (set_claim None None (set_state Queued r))))) d
  | None =>
      if dedup_release then
        update (is_id item_id)
          (fun r => set_dedup_key None (set_error None (set_completed_at (Some (iso stamp))
                      (set_state Completed r)))) d
      else
        update (is_id item_id)
          (fun r => set_error None (set_completed_at (Some (iso stamp)) (set_state Completed r))) d
  end.

Inductive fail_result := Missing | Fail_poisoned | Fail_queued.

(** Seconds before a failed row is claimable again: 30, 60, 120, ... up to 600. *)
Definition backoff (attempts : Z) : Z := Z.min 600 (30 * 2 ^ Z.max 0 (attempts - 1)).

Definition mark_failed (now : Z) (queue_cap : Z) (item_id : Z) (error : text)
    (max_attempts : option Z) (d : db) : fail_result * db :=
  let cap := match max_attempts with None => queue_cap | Some c => c end in
  match get item_id d with
  | None => (Missing, d)
  | Some row =>
      if cap <=? row.(q_attempts) then
        (Fail_poisoned,
         update (is_id item_id)
           (fun r => set_dedup_key None (set_error (Some (upto error 2000))
                       (set_completed_at (Some (iso now)) (set_state Poisoned r)))) d)
      else
        (Fail_queued,
         update (is_id item_id)
           (fun r => set_not_before (Some (iso (now + backoff row.(q_attempts) * usec)))
                       (set_error (Some (upto error 2000))
                          (set_claim None None (set_state Queued r)))) d)
  end.

(** ** Runs *)

(** [_insert_run]: [runs.run_id] is a PRIMARY KEY, the summary goes through
    [shorten_summary] and an empty JSON column is stored as NULL. *)
Definition insert_run (rid : string) (queue_id : option Z) (source status : string)
    (started_at completed_at : string) (duration : Z) (summary : text) (artifact_path : string)
    (response_json : text) (task_id : option string) (meta_json claims_json : text)
    (kind : option string) (d : db) : outcome unit * db :=
  match shorten_summary summary SUMMARY_MAX_CHARS with
  | Raise e => (Raise e, d)
  | Ok summary =>
      if existsb (fun r => String.eqb r.(run_id) rid) d.(runs) then (Raise IntegrityError, d)
      else
        let cap20k (j : text) := match j with [] => None | _ => Some (upto j 20000) end in
        (Ok tt,
         Db d.(queue) d.(seq)
           (d.(runs) ++ [Run rid queue_id source task_id status started_at completed_at duration
                           summary artifact_path (upto response_json 50000) (cap20k meta_json)
                           (cap20k claims_json) kind]))
  end.

(** [record_run]. *)
Definition record_run (rid : string) (queue_id : option Z) (source status : string)
    (started_at completed_at : string) (duration : Z) (summary : text) (artifact_path : string)
    (response_json : text) (task_id : option string) (meta_json claims_json : text)
    (kind : option string) (d : db) : outcome unit * db :=
  insert_run rid queue_id source status started_at completed_at duration summary artifact_path
    response_json task_id meta_json claims_json kind d.

(** [_iso_seconds_between], in microseconds. *)
Definition iso_between (start_iso end_iso : string) : Z :=
  match iso_parse start_iso, iso_parse end_iso with
  | Some s, Some e => Z.max 0 (e - s)
  | _, _ => 0
  end.

(** ** Crash recovery *)

Definition INTERRUPTED_SUMMARY : text := u "recovered: no live owner at pool start".
Definition INTERRUPTED_META : text := u "{" ++ [34%N] ++ u "interrupted" ++ [34%N] ++ u ": true}".

(** The start of a swept row's attempt: [claimed_at or enqueued_at]. *)
Definition attempt_start (row : qrow) : string :=
  match row.(q_claimed_at) with
  | Some (String c s) => String c s
  | _ => row.(q_enqueued_at)
  end.

(** Whether a run started at or after the claim is already recorded for the row. *)
Definition already_recorded (row : qrow) (claim : Z) (d : db) : bool :=
  existsb (fun r => bool_decide (r.(r_queue_id) = Some row.(q_id))
                    && match iso_parse r.(r_started_at) with
                       | Some st => claim <=? st
                       | None => false
                       end) d.(runs).

Definition payload_task_id (row : qrow) : option string :=
  let payload := default [] (loads_or_none (Some row.(q_payload_json))) in
  match obj_get "task_id" payload with
  | None | Some JNull => None
  | Some v => Some (py_str v)
  end.

(** [_record_interrupted_run]; [mint] is the id [new_run_id] would draw. *)
Definition record_interrupted_run (row : qrow) (swept_at mint : string) (d : db)
    : outcome Z * db :=
  let claimed_at := attempt_start row in
  if negb (truthy (Some claimed_at)) then (Ok 0, d)
  else
    let recorded := match iso_parse claimed_at with
                    | Some claim => already_recorded row claim d
                    | None => false
                    end in
    if recorded then (Ok 0, d)
    else
      let stamped :=
        match row.(q_current_run_id) with
        | Some (String c s) =>
            if existsb (fun r => String.eqb r.(run_id) (String c s)) d.(runs) then None
            else Some (String c s)
        | _ => None
        end in
      let '(o, d) :=
        insert_run (default mint stamped) (Some row.(q_id)) row.(q_source) "interrupted"
          claimed_at swept_at (iso_between claimed_at swept_at) INTERRUPTED_SUMMARY EmptyString
          [] (payload_task_id row) INTERRUPTED_META [] (Some row.(q_kind)) d in
      (_ <-? o ;; Ok 1, d).

(** The recording loop, in the order of the snapshot. *)
Fixpoint record_all (rows : list qrow) (swept_at : string) (mint : nat -> string) (k : nat)
    (recorded : Z) (d : db) : outcome Z * db :=
  match rows with
  | [] => (Ok recorded, d)
  | row :: rows =>
      match record_interrupted_run row swept_at (mint k) d with
      | (Ok n, d) => record_all rows swept_at mint (S k) (recorded + n) d
      | (Raise e, d) => (Raise e, d)
      end
  end.

(** [owner_sql]: no ids means every owner. *)
Definition owned (worker_ids : list string) (r : qrow) : bool :=
  match worker_ids with
  | [] => true
  | _ => match r.(q_claimed_by) with
         | Some w => bool_decide (w ∈ worker_ids)
         | None => false
         end
  end.

Definition swept (worker_ids : list string) (d : db) : list qrow :=
  sel (fun r => in_flight r && owned worker_ids r) d.(queue).

Definition requeue (r : qrow) : qrow :=
  set_current_run_id None (set_claim None None (set_state Queued r)).

Fixpoint poison_all (rows : list qrow) (poison_at : nat -> Z) (k : nat) (cap : Z) (d : db) : db :=
  match rows with
  | [] => d
  | row :: rows =>
      poison_all rows poison_at (S k) cap
        (poison_at_cap (poison_at k) row cap (u "crash recovery") d)
  end.

(** [recover_claimed]: the snapshot, the poisonings, the requeue and the runs. *)
Definition recover_claimed (poison_at : nat -> Z) (swept_us : Z) (mint : nat -> string)
    (cap : Z) (worker_ids : list string) (d : db) : outcome Z * db :=
  let rows := swept worker_ids d in
  let exhausted := sel (fun r => cap <=? r.(q_attempts)) rows in
  let d1 := poison_all exhausted poison_at 0 cap d in
  let p r := in_flight r && (r.(q_attempts) <? cap) && owned worker_ids r in
  let n := rowcount p d1.(queue) in
  let d2 := update p requeue d1 in
  let '(o, d3) := record_all rows (iso swept_us) mint 0 0 d2 in
  (_ <-? o ;; Ok n, d3).

(** ** Poison triage *)

(** [revive]: [delay_us] is the delay in microseconds. *)
Definition revive (now stamp : Z) (item_id attempts delay_us : Z) (triage : option json) (d : db)
    : bool * db :=
  let not_before := iso (now + Z.max 0 delay_us) in
  let p r := is_id item_id r && in_state Poisoned r in
  (0 <? rowcount p d.(queue),
   update p (fun r => set_triage (Some (iso stamp)) (Some (dumps_ascii (or_empty triage)))
               (set_not_before (Some not_before) (set_completed_at None
                  (set_claim None None (set_attempts attempts (set_state Queued r)))))) d).

Definition quarantine (now : Z) (item_id : Z) (triage : option json) (d : db) : bool * db :=
  let p r := is_id item_id r && in_state Poisoned r in
  (0 <? rowcount p d.(queue),
   update p (fun r => set_triage (Some (iso now)) (Some (dumps_ascii (or_empty triage)))
               (set_dedup_key None
                  (set_completed_at (Some (default (iso now) r.(q_completed_at)))
                     (set_state Quarantined r)))) d).

Definition has_open_sibling (source kind : string) (payload : option json) (exclude_id : Z)
    (d : db) : bool :=
  let payload_json := dumps (or_empty payload) in
  match sel1 (fun r => bool_decide (r.(q_source) = source) && bool_decide (r.(q_kind) = kind)
                       && bool_decide (r.(q_payload_json) = payload_json)
                       && negb (is_id exclude_id r) && is_live r) d.(queue) with
  | Some _ => true | None => false
  end.
End Ops.
