(* ===== verification/QueueInv.v ===== *)
(** * The worker queue: invariant and lifecycle

    The well-formedness of the database, that every operation preserves it, the
    state machine a row walks through, and reachability from an empty database. *)
From Stdlib Require Import String.
From S2P Require Import Prelude PyText Stamps QueueRows QueueOps.

Local Open Scope Z_scope.

Definition ids (d : db) : list Z := map q_id d.(queue).
Definition keys (t : list qrow) : list string := omap q_dedup_key t.

(** What holds of one row, state by state. *)
Definition row_ok (cap : Z) (r : qrow) : Prop :=
  0 <= r.(q_attempts) <= cap /\
  match r.(q_state) with
  | Queued => r.(q_claimed_at) = None /\ r.(q_claimed_by) = None /\ r.(q_completed_at) = None
  | Claimed => is_Some r.(q_claimed_at) /\ is_Some r.(q_claimed_by) /\ r.(q_completed_at) = None
               /\ 1 <= r.(q_attempts) /\ r.(q_current_run_id) = None
  | Running => is_Some r.(q_claimed_at) /\ is_Some r.(q_claimed_by) /\ r.(q_completed_at) = None
               /\ 1 <= r.(q_attempts)
  | Completed => is_Some r.(q_completed_at) /\ r.(q_error) = None
  | Poisoned | Quarantined => is_Some r.(q_completed_at) /\ r.(q_dedup_key) = None
  end.

Record wf (cap : Z) (d : db) : Prop := {
  wf_ids : NoDup (ids d);
  wf_seq : Forall (fun i => i <= d.(seq)) (ids d);
  wf_keys : NoDup (keys d.(queue));
  wf_rows : Forall (row_ok cap) d.(queue);
  wf_runs : NoDup (map run_id d.(runs))
}.

Lemma wf_empty cap : wf cap empty_db.
Proof. split; simpl; constructor. Qed.

(** ** Updates *)

Lemma keys_upd p f t :
  (forall r, q_dedup_key (f r) = q_dedup_key r \/ q_dedup_key (f r) = None) ->
  keys (upd p f t) `sublist_of` keys t.
Proof.
  intros Hf. induction t as [|r t IH]; simpl; [done|]. unfold keys in *. simpl.
  destruct (p r).
  - destruct (Hf r) as [-> | ->]; destruct (q_dedup_key r); by try constructor.
  - destruct (q_dedup_key r); by try constructor.
Qed.

Lemma ids_update p f d : (forall r, q_id (f r) = q_id r) -> ids (update p f d) = ids d.
Proof. intros Hf. apply map_upd_id. auto. Qed.

Lemma wf_update cap p f d :
  (forall r, q_id (f r) = q_id r) ->
  (forall r, q_dedup_key (f r) = q_dedup_key r \/ q_dedup_key (f r) = None) ->
  (forall r, r ∈ d.(queue) -> p r = true -> row_ok cap r -> row_ok cap (f r)) ->
  wf cap d -> wf cap (update p f d).
Proof.
  intros Hi Hk Hr [W1 W2 W3 W4 W5]. split; rewrite ?ids_update by done; try done.
  - by eapply sublist_NoDup, keys_upd.
  - simpl. apply Forall_forall. intros r Hin. apply elem_of_upd in Hin as (r0 & Hin & ->).
    rewrite Forall_forall in W4. specialize (W4 r0 Hin). case_match; auto.
Qed.

Lemma get_Some i d r : get i d = Some r -> r ∈ d.(queue) /\ q_id r = i.
Proof. unfold get. intros H%sel1_Some. unfold is_id in H. rewrite Z.eqb_eq in H. done. Qed.

Lemma get_unique cap d r : wf cap d -> r ∈ d.(queue) -> get (q_id r) d = Some r.
Proof.
  intros [W _ _ _ _] Hr. unfold get, ids in *. destruct (sel1 _ _) as [r'|] eqn:E.
  - apply sel1_Some in E as [Hr' E]. unfold is_id in E. apply Z.eqb_eq in E.
    f_equal. revert W E Hr Hr'. generalize (queue d). intros t W E Hr Hr'.
    induction t as [|a t IH]; [set_solver|]. simpl in W. apply NoDup_cons in W as [Hn W].
    apply elem_of_cons in Hr as [->|Hr], Hr' as [->|Hr']; try done.
    + exfalso. apply Hn. rewrite <- E. by apply list_elem_of_fmap_2.
    + exfalso. apply Hn. rewrite E. by apply list_elem_of_fmap_2.
    + auto.
  - rewrite sel1_None in E. specialize (E r Hr). unfold is_id in E. by rewrite Z.eqb_refl in E.
Qed.

Lemma ids_unique cap d r r' :
  wf cap d -> r ∈ d.(queue) -> r' ∈ d.(queue) -> q_id r = q_id r' -> r = r'.
Proof.
  intros W Hr Hr' E. pose proof (get_unique _ _ _ W Hr) as G.
  pose proof (get_unique _ _ _ W Hr') as G'. congruence.
Qed.

#[export] Hint Resolve wf_empty get_unique : lloyd.

(** A row of a well-formed database sits between rows of other ids: an update
    keyed on its id rewrites that one place. *)
Lemma wf_split cap d row :
  wf cap d -> row ∈ d.(queue) ->
  exists l1 l2, d.(queue) = l1 ++ row :: l2 /\ Forall (fun x => q_id x <> q_id row) (l1 ++ l2).
Proof.
  intros [W _ _ _ _] Hin. apply list_elem_of_split in Hin as (l1 & l2 & E). exists l1, l2.
  split; [done|]. unfold ids in W. rewrite E, map_app in W. simpl in W.
  apply NoDup_app in W as (_ & W1 & [W2 _]%NoDup_cons).
  apply Forall_forall. intros x [Hx|Hx]%elem_of_app Heq.
  - eapply (W1 (q_id x)); [by apply list_elem_of_fmap_2 | rewrite Heq; by left].
  - apply W2. rewrite <- Heq. by apply list_elem_of_fmap_2.
Qed.

Lemma upd_split {R} (p : R -> bool) f l1 row l2 :
  Forall (fun x => p x = false) (l1 ++ l2) ->
  upd p f (l1 ++ row :: l2) = l1 ++ (if p row then f row else row) :: l2.
Proof.
  rewrite Forall_forall. intros Hp. unfold upd. rewrite map_app. simpl. f_equal; [|f_equal].
  - apply upd_none. intros. apply Hp. set_solver.
  - apply upd_none. intros. apply Hp. set_solver.
Qed.

(** Reads the row setters through the projections, and nothing else: the texts a
    row carries stay folded. *)
Ltac row_cbn :=
  cbn [q_id q_source q_kind q_priority q_payload_json q_dedup_key q_state q_attempts
       q_enqueued_at q_claimed_at q_claimed_by q_completed_at q_error q_not_before
       q_current_run_id q_triaged_at q_triage_json
       set_state set_dedup_key set_attempts set_claim set_completed_at set_error
       set_not_before set_current_run_id set_triage fst snd] in *.

(** Splits a row by its state, and solves the goals that are about one row. *)
Ltac row_states :=
  repeat match goal with
  | E : q_state ?r = _ |- context [q_state ?r] => rewrite E
  | E : q_state ?r = _, F : context [q_state ?r] |- _ =>
      lazymatch F with E => fail | _ => rewrite E in F end
  end.

Ltac row_done :=
  first [ assumption | reflexivity | congruence | lia | (eexists; reflexivity) | idtac ].

Ltac row_solve :=
  unfold row_ok, in_state, is_id in *; row_cbn; bool_simp; row_states;
  repeat match goal with H : _ \/ _ |- _ => destruct H; bool_simp; row_states end;
  bool_simp; simplify_eq; repeat (first [apply conj | progress intros]); row_done.

Section Preserve.
Context `{IsoStamps} `{JsonText} (cap : Z) (cap_pos : 0 <= cap).

Lemma wf_insert now source kind prio payload key d :
  wf cap d -> wf cap (snd (insert_row now source kind prio payload key d)).
Proof.
  intros [W1 W2 W3 W4 W5]. unfold insert_row. case_match eqn:E; [by split|]. simpl.
  rewrite Forall_forall in W2.
  split; simpl; [| | |apply Forall_app; split; [done|]; constructor; [row_solve|done]|done].
  - unfold ids. simpl. rewrite map_app. apply NoDup_app. split; [done|].
    split; [|apply NoDup_singleton]. simpl. intros x Hx Hx'.
    apply list_elem_of_singleton in Hx'. specialize (W2 x Hx). lia.
  - unfold ids. simpl. rewrite map_app. apply Forall_app. split.
    + apply Forall_forall. intros x Hx. specialize (W2 x Hx). lia.
    + constructor; [done|constructor].
  - unfold keys. rewrite omap_app. simpl. destruct key as [k|]; [|by rewrite app_nil_r].
    apply NoDup_app. split; [done|]. split; [|apply NoDup_singleton].
    intros x Hx Hx'. apply list_elem_of_singleton in Hx' as ->.
    apply list_elem_of_omap in Hx as (r & Hr & Hk).
    assert (existsb (has_key k) (queue d) = true) as F; [|congruence].
    apply existsb_exists. exists r. unfold has_key. rewrite bool_decide_true by done.
    split; [by apply list_elem_of_In|done].
Qed.

Lemma wf_enqueue now source kind payload prio key d :
  wf cap d -> wf cap (snd (enqueue now source kind payload prio key d)).
Proof.
  intros W. unfold enqueue.
  assert (forall d, wf cap d -> forall pj,
    wf cap (snd (let '(o, d) := insert_row now source kind prio pj key d in
                 (i <-? o ;; Ok (Some i), d)))) as Hins.
  { intros d' W' pj. pose proof (wf_insert now source kind prio pj key d' W') as Wi.
    by destruct (insert_row _ _ _ _ _ _ _). }
  destruct key as [k|]; [|by apply Hins].
  destruct (truthy (Some k)); [|by apply Hins].
  destruct (sel1 _ _) as [r|] eqn:E; [|by apply Hins].
  destruct (is_live r) eqn:El; [done|]. apply Hins. apply wf_update; [done|by right| |done].
  intros r' Hr' Hp Hok. destruct r'; row_solve; case_match; row_solve.
Qed.

Lemma wf_poison now row action d : wf cap d -> wf cap (poison_at_cap now row cap action d).
Proof.
  intros W. apply wf_update; [done|by right| |done].
  intros r Hr Hp Hok. row_solve.
Qed.

Lemma wf_poison_all rows at_ k d : wf cap d -> wf cap (poison_all rows at_ k cap d).
Proof.
  revert k d. induction rows as [|row rows IH]; intros k d W; simpl; [done|].
  apply IH. by apply wf_poison.
Qed.

(** The claim raises [attempts], so it must only ever reach rows below the cap:
    the row it read is below the cap and is still the row under that id. *)
Lemma wf_claim_update now w row d :
  wf cap d -> get (q_id row) d = Some row -> q_attempts row < cap ->
  wf cap (claim_update now w row d).
Proof.
  intros W G Hlt. apply wf_update; [done|by left| |done].
  intros r Hr Hp Hok. assert (r = row) as ->.
  { apply get_Some in G as [G _]. row_solve. by eapply ids_unique. }
  row_solve.
Qed.

Lemma pick_elem now_s bound ex d r :
  pick now_s bound ex d = Some r -> r ∈ d.(queue) /\ claimable bound ex r = true.
Proof. intros E%min_by_elem%elem_of_sel. done. Qed.

Lemma wf_claim_loop clk w bound ex fuel i losses sweeps d o d' :
  wf cap d ->
  claim_loop clk (fun _ d => d) cap w bound ex fuel i losses sweeps d = Some (o, d') ->
  wf cap d'.
Proof.
  revert i losses sweeps d. induction fuel as [|fuel IH]; intros i losses sweeps d W E; simpl in E; [done|].
  case_match; simplify_eq; [done|].
  destruct (pick _ _ _ d) as [row|] eqn:Ep; simplify_eq; [|done].
  apply pick_elem in Ep as [Hrow _].
  destruct (Z.leb_spec cap (q_attempts row)).
  - case_match; simplify_eq; [done|]. eapply IH; [|done]. by apply wf_poison.
  - assert (wf cap (claim_update (clk (i + (i + 0) + 1)%nat) w row d)) as Wc
      by (apply wf_claim_update; eauto with lloyd).
    destruct (get _ (claim_update _ _ _ _)) as [r'|]; [|by eapply IH].
    case_match; simplify_eq; [done|]. by eapply IH.
Qed.

Lemma wf_claim_next now clk w q ex d : wf cap d -> wf cap (snd (claim_next now clk cap w q ex d)).
Proof.
  intros W. unfold claim_next, claim_next_env. destruct (claim_loop _ _ _ _ _ _ _ _ _ _) as [[o d']|] eqn:E;
    [by eapply wf_claim_loop | done].
Qed.

Lemma wf_mark_running i rid d : wf cap d -> wf cap (mark_running i rid d).
Proof.
  intros W. apply wf_update; [done|by left| |done].
  intros r Hr Hp Hok. row_solve.
Qed.

Lemma wf_mark_completed now stamp i rel nb d : wf cap d -> wf cap (mark_completed now stamp i rel nb d).
Proof.
  intros W. unfold mark_completed. destruct (deferral _ _); [|destruct rel].
  - apply wf_update; [done|by left| |done]. intros r Hr Hp Hok. row_solve.
  - apply wf_update; [done|by right| |done]. intros r Hr Hp Hok. row_solve.
  - apply wf_update; [done|by left| |done]. intros r Hr Hp Hok. row_solve.
Qed.

(** [mark_failed] has no state guard: it preserves the invariant on a row that a
    worker holds, which is how the pool calls it. *)
Definition held (i : Z) (d : db) : Prop := exists r, get i d = Some r /\ in_flight r = true.

Lemma wf_mark_failed now qcap i err c d :
  wf cap d -> held i d -> wf cap (snd (mark_failed now qcap i err c d)).
Proof.
  intros W (row & G & F). unfold mark_failed. rewrite G.
  apply get_Some in G as [G Gi]. unfold in_flight in F. case_match; simpl.
  - apply wf_update; [done|by right| |done]. intros r Hr Hp Hok. row_solve.
  - apply wf_update; [done|by left| |done]. intros r Hr Hp Hok.
    assert (r = row) as -> by (row_solve; eapply ids_unique; eauto; congruence).
    destruct row as [? ? ? ? ? ? st]; destruct st; row_solve.
Qed.

Lemma wf_revive now stamp i att delay t d :
  0 <= att <= cap -> wf cap d -> wf cap (snd (revive now stamp i att delay t d)).
Proof.
  intros Ha W. apply wf_update; [done|by left| |done]. intros r Hr Hp Hok. row_solve.
Qed.

Lemma wf_quarantine now i t d : wf cap d -> wf cap (snd (quarantine now i t d)).
Proof.
  intros W. apply wf_update; [done|by right| |done]. intros r Hr Hp Hok.
  row_solve.
Qed.

Lemma insert_run_wf rid qid src st sa ca dur sum ap rj tid mj cj k d o d' :
  insert_run rid qid src st sa ca dur sum ap rj tid mj cj k d = (o, d') ->
  wf cap d -> wf cap d' /\ queue d' = queue d.
Proof.
  unfold insert_run. intros E [W1 W2 W3 W4 W5].
  destruct (shorten_summary _ _); [|by simplify_eq].
  destruct (existsb _ _) eqn:Ex; [by simplify_eq|]. simplify_eq. simpl. split; [|done].
  split; simpl; try done. rewrite map_app. apply NoDup_app. split; [done|].
  split; [|apply NoDup_singleton]. intros x Hx Hx'. simpl in Hx'.
  apply list_elem_of_singleton in Hx' as ->. apply list_elem_of_fmap in Hx as (r & Hr & Hin).
  assert (existsb (fun r => String.eqb r.(run_id) rid) (runs d) = true) as F; [|congruence].
  apply existsb_exists. exists r. split; [by apply list_elem_of_In|]. rewrite <- Hr. apply String.eqb_refl.
Qed.

Lemma record_interrupted_wf row at_ mint d o d' :
  record_interrupted_run row at_ mint d = (o, d') -> wf cap d -> wf cap d' /\ queue d' = queue d.
Proof.
  unfold record_interrupted_run. intros E W. case_match; [by simplify_eq|].
  case_match; [by simplify_eq|]. destruct (insert_run _ _ _ _ _ _ _ _ _ _ _ _ _ _) as [o1 d1] eqn:Ei.
  simplify_eq. by eapply insert_run_wf.
Qed.

Lemma record_all_wf rows at_ mint k n d o d' :
  record_all rows at_ mint k n d = (o, d') -> wf cap d -> wf cap d' /\ queue d' = queue d.
Proof.
  revert k n d. induction rows as [|row rows IH]; simpl; intros k n d E W; [by simplify_eq|].
  destruct (record_interrupted_run _ _ _ _) as [[m|e] d1] eqn:Er;
    apply record_interrupted_wf in Er as [W1 Q1]; try done; [|by simplify_eq].
  apply IH in E as [W2 Q2]; [|done]. split; [done|congruence].
Qed.

Lemma wf_recover at_ sw mint ws d : wf cap d -> wf cap (snd (recover_claimed at_ sw mint cap ws d)).
Proof.
  intros W. unfold recover_claimed. destruct (record_all _ _ _ _ _ _) as [o d3] eqn:E.
  eapply record_all_wf in E as [W3 _]; [done|].
  apply wf_update; [done|by left| |by apply wf_poison_all].
  intros r Hr Hp Hok. destruct r as [? ? ? ? ? ? st]. destruct st; row_solve.
Qed.
End Preserve.
