(* ===== verification/QueueClaim.v ===== *)
(** * The worker queue: claiming

    What [claim_next] promises: the row it hands out and the rows it leaves, the
    order, the quota, that it never answers empty while a row is eligible, that it
    returns, and what survives interference by other processes. *)
From Stdlib Require Import String.
From S2P Require Import Prelude PyText Stamps QueueRows QueueOps QueueInv.

Local Open Scope Z_scope.

Section Claims.
Context `{IsoStamps} `{JsonText}.

(** A row a claim may hand out, and one it poisons instead. *)
Definition eligible (cap : Z) (bound : string) (ex : list string) (r : qrow) : bool :=
  claimable bound ex r && (q_attempts r <? cap).
Definition exhausted (cap : Z) (bound : string) (ex : list string) (r : qrow) : bool :=
  claimable bound ex r && (cap <=? q_attempts r).

Definition claimed (now : Z) (w : string) (r : qrow) : qrow :=
  set_current_run_id None (set_attempts (r.(q_attempts) + 1)
    (set_claim (Some (iso now)) (Some w) (set_state Claimed r))).

Definition poisoned (now cap : Z) (action : text) (r : qrow) : qrow :=
  set_dedup_key None (set_error (Some (upto (cap_error r.(q_attempts) cap action) 2000))
    (set_completed_at (Some (iso now)) (set_state Poisoned r))).

(** What a claim does to a row that it does not hand out. *)
Definition left_by_claim (cap : Z) (bound : string) (ex : list string) (r r' : qrow) : Prop :=
  r' = r \/ exhausted cap bound ex r = true /\ exists t, r' = poisoned t cap (u "claim") r.

Lemma poison_split cap d row now act :
  wf cap d -> row ∈ d.(queue) ->
  exists l1 l2, d.(queue) = l1 ++ row :: l2
    /\ (poison_at_cap now row cap act d).(queue) = l1 ++ poisoned now cap act row :: l2.
Proof.
  intros W Hin. destruct (wf_split _ _ _ W Hin) as (l1 & l2 & E & Hne). exists l1, l2.
  split; [done|]. unfold poison_at_cap, update, with_queue. simpl. rewrite E, upd_split.
  - unfold is_id, in_state. by rewrite Z.eqb_refl, bool_decide_true.
  - eapply Forall_impl; [done|]. intros x Hx. simpl in Hx. unfold is_id.
    by apply Z.eqb_neq in Hx as ->.
Qed.

Lemma claim_split cap d row now w :
  wf cap d -> row ∈ d.(queue) -> q_state row = Queued ->
  exists l1 l2, d.(queue) = l1 ++ row :: l2
    /\ (claim_update now w row d).(queue) = l1 ++ claimed now w row :: l2.
Proof.
  intros W Hin Hq. destruct (wf_split _ _ _ W Hin) as (l1 & l2 & E & Hne). exists l1, l2.
  split; [done|]. unfold claim_update, update, with_queue. simpl. rewrite E, upd_split.
  - unfold is_id, in_state. by rewrite Z.eqb_refl, bool_decide_true.
  - eapply Forall_impl; [done|]. intros x Hx. simpl in Hx. unfold is_id.
    by apply Z.eqb_neq in Hx as ->.
Qed.

Lemma poisoned_not_claimable now cap act bound ex r :
  claimable bound ex (poisoned now cap act r) = false.
Proof. done. Qed.

Lemma poisoned_not_exhausted now cap act cap' bound ex r :
  exhausted cap' bound ex (poisoned now cap act r) = false.
Proof. done. Qed.

#[local] Instance left_by_claim_preorder cap bound ex : PreOrder (left_by_claim cap bound ex).
Proof.
  split; [by left|]. intros a b c [->|[Ea [t ->]]]; [done|]. intros [->|[Eb _]]; [right; eauto|].
  by rewrite poisoned_not_exhausted in Eb.
Qed.

(** One sweep removes exactly one exhausted row from what is claimable. *)
Lemma sweep_step cap bound ex d row now :
  wf cap d -> row ∈ d.(queue) -> exhausted cap bound ex row = true ->
  let d' := poison_at_cap now row cap (u "claim") d in
  Forall2 (left_by_claim cap bound ex) d.(queue) d'.(queue)
  /\ (forall x, eligible cap bound ex x = true -> x ∈ d'.(queue) <-> x ∈ d.(queue))
  /\ rowcount (exhausted cap bound ex) d.(queue) = rowcount (exhausted cap bound ex) d'.(queue) + 1.
Proof.
  intros W Hin Hex d'. destruct (poison_split cap d row now (u "claim") W Hin) as (l1 & l2 & E & E').
  fold d' in E'. rewrite E, E'. split; [|split].
  - apply Forall2_app; [|constructor]; try reflexivity. right; eauto.
  - intros x Hx. rewrite !elem_of_app, !elem_of_cons. unfold exhausted in Hex. unfold eligible in Hx.
    assert (x <> row). { intros ->. bool_simp. lia. }
    assert (x <> poisoned now cap (u "claim") row). { intros ->. done. }
    naive_solver.
  - unfold rowcount. rewrite !sel_app, !length_app. cbn [sel]. rewrite Hex.
    rewrite poisoned_not_exhausted. simpl. lia.
Qed.

(** The outcome of the loop when nothing else writes. *)
Definition loop_spec (cap : Z) (w bound : string) (ex : list string) (clk : nat -> Z) (sweeps : Z)
    (d : db) (o : option qrow) (d' : db) : Prop :=
  match o with
  | Some r' => exists row i,
      row ∈ d.(queue) /\ eligible cap bound ex row = true
      /\ r' = claimed (clk (2 * i + 1)%nat) w row
      /\ (exists l1 l2 m1 m2, d.(queue) = l1 ++ row :: l2 /\ d'.(queue) = m1 ++ r' :: m2
           /\ Forall2 (left_by_claim cap bound ex) l1 m1 /\ Forall2 (left_by_claim cap bound ex) l2 m2)
      /\ (forall x, x ∈ d.(queue) -> eligible cap bound ex x = true ->
            claim_order (clk (2 * i)%nat / usec) row x = true)
  | None =>
      Forall2 (left_by_claim cap bound ex) d.(queue) d'.(queue)
      /\ ((forall x, x ∈ d.(queue) -> eligible cap bound ex x = false)
          \/ CLAIM_CAP_SCAN_LIMIT - sweeps < rowcount (exhausted cap bound ex) d.(queue))
  end.

Lemma claimable_split cap bound ex r :
  claimable bound ex r = true ->
  (eligible cap bound ex r = true /\ q_attempts r < cap)
  \/ (exhausted cap bound ex r = true /\ cap <= q_attempts r).
Proof.
  intros Hc. unfold eligible, exhausted. rewrite Hc. simpl.
  destruct (Z.lt_ge_cases (q_attempts r) cap); [left|right]; split; lia.
Qed.

Lemma pick_least now_s bound ex d r :
  pick now_s bound ex d = Some r ->
  forall x, x ∈ d.(queue) -> claimable bound ex x = true -> claim_order now_s r x = true.
Proof.
  intros E x Hx Hc. eapply min_by_least; [apply claim_order_total | apply claim_order_trans | done |].
  by apply elem_of_sel.
Qed.

Lemma pick_None now_s bound ex d :
  pick now_s bound ex d = None <-> forall x, x ∈ d.(queue) -> claimable bound ex x = false.
Proof. unfold pick. rewrite min_by_None. apply sel_nil_iff. Qed.

Lemma claim_loop_sound cap w bound ex clk fuel i sweeps d o d' :
  0 <= cap -> wf cap d ->
  claim_loop clk (fun _ d => d) cap w bound ex fuel i 0 sweeps d = Some (o, d') ->
  loop_spec cap w bound ex clk sweeps d o d'.
Proof.
  intros Hcap. revert i sweeps d. induction fuel as [|fuel IH]; intros i sweeps d W E; [done|].
  cbn -[pick Nat.mul Z.mul claim_update poison_at_cap] in E.
  destruct (pick _ _ _ d) as [row|] eqn:Ep.
  2:{ simplify_eq. split; [reflexivity|]. left. intros x Hx.
      rewrite pick_None in Ep. unfold eligible. by rewrite Ep. }
  pose proof (pick_elem _ _ _ _ _ Ep) as [Hrow Hc].
  destruct (claimable_split cap _ _ _ Hc) as [[He Hlt]|[He Hge]].
  - replace (cap <=? q_attempts row) with false in E by lia.
    assert (q_state row = Queued) as Hq. { unfold claimable, in_state in Hc. by bool_simp. }
    destruct (claim_split cap d row (clk (2 * i + 1)%nat) w W Hrow Hq) as (l1 & l2 & E1 & E2).
    set (d1 := claim_update _ w row d) in *.
    assert (wf cap d1) as W1 by (apply wf_claim_update; eauto with lloyd).
    assert (get (q_id row) d1 = Some (claimed (clk (2 * i + 1)%nat) w row)) as G.
    { apply (get_unique cap d1 (claimed (clk (2 * i + 1)%nat) w row) W1). rewrite E2. set_solver. }
    rewrite G in E. unfold held_by, in_state in E.
    rewrite !bool_decide_true in E by done. simpl in E. simplify_eq.
    exists row, i. split; [done|]. split; [done|]. split; [done|]. split.
    + exists l1, l2, l1, l2. split; [done|]. split; [done|].
      split; reflexivity.
    + intros x Hx Hx'. eapply pick_least; eauto. unfold eligible in Hx'. by bool_simp.
  - replace (cap <=? q_attempts row) with true in E by lia.
    destruct (sweep_step cap bound ex d row (clk (2 * i + 1)%nat) W Hrow He) as (F & Hel & Hcnt).
    destruct (Z.leb_spec CLAIM_CAP_SCAN_LIMIT sweeps).
    + simplify_eq. split; [reflexivity|]. right. unfold rowcount in *. lia.
    + apply IH in E; [|by apply wf_poison].
      destruct o as [r'|]; simpl in *.
      * destruct E as (row' & j & Hin & Hel' & -> & (l1 & l2 & m1 & m2 & Q1 & Q2 & F1 & F2) & Hmin).
        exists row', j. rewrite <- (Hel row') by done. split; [done|]. split; [done|]. split; [done|]. split.
        { rewrite Q1 in F. apply Forall2_app_inv_r in F as (k1 & k2 & Fa & Fb & Q0).
          apply Forall2_cons_inv_r in Fb as (y & k2' & Hy & Fb & ->).
          assert (y = row') as ->.
          { destruct Hy as [->|[_ [t ->]]]; [done|]. unfold eligible in Hel'.
            by rewrite poisoned_not_claimable in Hel'. }
          exists k1, k2', m1, m2. split; [done|]. split; [done|].
          split; (etrans; done). }
        intros x Hx Hx'. apply Hmin; [|done]. by apply Hel.
      * destruct E as [F' Hn]. split.
        { etrans; done. }
        destruct Hn as [Hn|Hn]; [left|right; lia].
        intros x Hx. destruct (eligible cap bound ex x) eqn:Ex; [|done].
        apply Hel in Hx; [|done]. by rewrite Hn in Ex.
Qed.

(** ** Termination: each iteration that goes round again spends one of the two bounds *)

Lemma claim_loop_returns clk env cap w bound ex fuel i losses sweeps d :
  losses <= CLAIM_RACE_RETRIES -> sweeps <= CLAIM_CAP_SCAN_LIMIT ->
  (CLAIM_RACE_RETRIES - losses) + (CLAIM_CAP_SCAN_LIMIT - sweeps) < Z.of_nat fuel ->
  is_Some (claim_loop clk env cap w bound ex fuel i losses sweeps d).
Proof.
  unfold CLAIM_RACE_RETRIES, CLAIM_CAP_SCAN_LIMIT.
  revert i losses sweeps d. induction fuel as [|fuel IH]; intros i losses sweeps d Hl Hs Hf; [lia|].
  cbn -[pick Nat.mul Z.mul claim_update poison_at_cap get].
  unfold CLAIM_RACE_RETRIES, CLAIM_CAP_SCAN_LIMIT.
  destruct (Z.ltb_spec losses 5); simpl; [|done].
  destruct (pick _ _ _ _); [|done].
  destruct (_ <=? q_attempts _).
  - destruct (Z.leb_spec 64 sweeps); [done|]. apply IH; lia.
  - destruct (get _ _); [destruct (held_by _ _); [done|]|]; apply IH; lia.
Qed.

(** ** The quota *)

Lemma left_inflight cap bound ex src l m :
  Forall2 (left_by_claim cap bound ex) l m ->
  rowcount (fun r => in_flight r && bool_decide (r.(q_source) = src)) m
  = rowcount (fun r => in_flight r && bool_decide (r.(q_source) = src)) l.
Proof.
  unfold rowcount. induction 1 as [|r r' l m Hr _ IH]; [done|]. cbn [sel].
  assert (in_flight r' && bool_decide (q_source r' = src)
          = in_flight r && bool_decide (q_source r = src)) as ->.
  { destruct Hr as [->|[He [t ->]]]; [done|]. unfold exhausted, claimable in He. bool_simp.
    unfold in_flight, in_state in *. bool_simp. by rewrite H1. }
  case_match; simpl; lia.
Qed.

Lemma not_saturated q src n d :
  (src, Some n) ∈ q -> src ∉ saturated q d -> inflight_count src d < n.
Proof.
  intros Hq Hs. apply Z.nle_gt. intros Hle. apply Hs. unfold saturated.
  apply list_elem_of_omap. exists (src, Some n). split; [done|].
  by apply Z.leb_le in Hle as ->.
Qed.

(** ** Interference *)

Lemma in_flight_not_queued r : in_flight r = true -> in_state Queued r = false.
Proof. unfold in_flight, in_state. destruct (q_state r); done. Qed.

(** A row that is not queued is out of a claim's reach. *)
Lemma claim_update_frame now w row d r :
  in_state Queued r = false -> r ∈ d.(queue) -> r ∈ (claim_update now w row d).(queue).
Proof.
  intros Hs Hr. unfold claim_update, update, with_queue. simpl. apply elem_of_upd. exists r.
  by rewrite Hs, andb_false_r.
Qed.

Lemma poison_frame now cap act row d r :
  q_state row = Queued -> in_state Queued r = false ->
  r ∈ d.(queue) -> r ∈ (poison_at_cap now row cap act d).(queue).
Proof.
  intros Hq Hs Hr. unfold poison_at_cap, update, with_queue. simpl. apply elem_of_upd. exists r.
  by rewrite Hq, Hs, andb_false_r.
Qed.

Lemma claim_loop_frame clk env cap w bound ex r fuel i losses sweeps d o d' :
  in_state Queued r = false ->
  (forall k d, r ∈ d.(queue) -> r ∈ (env k d).(queue)) ->
  r ∈ d.(queue) ->
  claim_loop clk env cap w bound ex fuel i losses sweeps d = Some (o, d') ->
  r ∈ d'.(queue).
Proof.
  intros Hs Henv. revert i losses sweeps d.
  induction fuel as [|fuel IH]; intros i losses sweeps d Hr E; [done|].
  cbn -[pick Nat.mul Z.mul claim_update poison_at_cap get] in E.
  destruct (negb _); [by simplify_eq|].
  destruct (pick _ _ _ d) as [row|] eqn:Ep; [|by simplify_eq].
  apply pick_elem in Ep as [_ Hc].
  assert (q_state row = Queued). { unfold claimable, in_state in Hc. by bool_simp. }
  destruct (cap <=? _).
  - destruct (_ <=? sweeps); simplify_eq; [by apply Henv|].
    eapply IH; [|done]. apply poison_frame; auto.
  - assert (r ∈ queue (env (2 * i + 1)%nat (claim_update (clk (2 * i + 1)%nat) w row (env (2 * i)%nat d)))) as Hr'
      by (apply Henv, claim_update_frame; auto).
    destruct (get _ _) as [r'|]; [|by eapply IH].
    destruct (held_by w r'); [by simplify_eq | by eapply IH].
Qed.

Lemma claim_loop_held clk env cap w bound ex fuel i losses sweeps d r' d' :
  claim_loop clk env cap w bound ex fuel i losses sweeps d = Some (Some r', d') ->
  r' ∈ d'.(queue) /\ held_by w r' = true.
Proof.
  revert i losses sweeps d. induction fuel as [|fuel IH]; intros i losses sweeps d E; [done|].
  cbn -[pick Nat.mul Z.mul claim_update poison_at_cap get] in E.
  destruct (negb _); [done|]. destruct (pick _ _ _ d) as [row|]; [|done].
  destruct (cap <=? _); [destruct (_ <=? sweeps); [done|by eapply IH]|].
  destruct (get _ _) as [r0|] eqn:G; [|by eapply IH].
  destruct (held_by w r0) eqn:Hh; [|by eapply IH]. simplify_eq.
  by apply get_Some in G as [G _].
Qed.

Lemma claim_next_env_loop now clk env cap w q ex d :
  claim_next_env now clk env cap w q ex d
  = claim_loop clk env cap w (iso now) (saturated q d ++ ex) claim_fuel 0 0 0 d.
Proof. reflexivity. Qed.

Lemma claim_next_loop now clk cap w q ex d o d' :
  claim_next now clk cap w q ex d = (o, d') ->
  claim_loop clk (fun _ d => d) cap w (iso now) (saturated q d ++ ex) claim_fuel 0 0 0 d = Some (o, d').
Proof.
  unfold claim_next, claim_next_env.
  destruct (claim_loop_returns clk (fun _ d => d) cap w (iso now) (saturated q d ++ ex) claim_fuel
              0 0 0 d) as [x E]; [done..|]. rewrite E. by intros <-.
Qed.

Lemma claim_next_spec now clk cap w q ex d o d' :
  0 <= cap -> wf cap d -> claim_next now clk cap w q ex d = (o, d') ->
  loop_spec cap w (iso now) (saturated q d ++ ex) clk 0 d o d'.
Proof. intros Hc W E%claim_next_loop. by eapply claim_loop_sound. Qed.
End Claims.

(** ** A queue to evaluate on: three rows of three sources, one of them at the cap *)

#[local] Existing Instance blank_json.

Definition t0 : Z := 1790000000 * usec.
Definition hour : Z := 3600 * usec.

Definition sample_row (i : Z) (src : string) (prio att : Z) (at_ : Z) : qrow :=
  QRow i src "task" prio "{}" None Queued att (iso at_) None None None None None None None None.

Definition sample_db : db :=
  Db [sample_row 1 "research" 50 3 t0; sample_row 2 "autocode" 55 0 t0;
      sample_row 3 "mail" 30 0 (t0 + 20 * hour)] 3 [].

Lemma sample_db_wf : wf 3 sample_db.
Proof.
  split; simpl.
  - repeat (apply NoDup_cons; split; [by rewrite !list_elem_of_In; simpl; lia|]). constructor.
  - repeat constructor; simpl; lia.
  - constructor.
  - repeat constructor; simpl; lia.
  - constructor.
Qed.

(** ** The promises *)

(** C1: Soundness of a claim. When [claim_next] hands out a row on a well-formed
    database, that row was queued, past its [not_before], from a source that is
    neither saturated nor excluded, and strictly below the attempts ceiling; what the
    worker gets is that row with the claim stamped on it and one attempt more, so
    never above the ceiling; and of every other row it either left it alone or
    poisoned a claimable one already at the ceiling. *)
Theorem claim_next_sound `{IsoStamps} `{JsonText} now clk cap w q ex d r' d' :
  1 <= cap -> wf cap d ->
  claim_next now clk cap w q ex d = (Some r', d') ->
  exists row t l1 l2 m1 m2,
    d.(queue) = l1 ++ row :: l2 /\ d'.(queue) = m1 ++ r' :: m2
    /\ q_state row = Queued /\ q_source row ∉ saturated q d ++ ex
    /\ (forall nb, q_not_before row = Some nb -> sle nb (iso now) = true)
    /\ r' = claimed t w row /\ 1 <= q_attempts r' <= cap
    /\ Forall2 (left_by_claim cap (iso now) (saturated q d ++ ex)) (l1 ++ l2) (m1 ++ m2).
Proof.
  intros Hc W E. apply claim_next_spec in E; [|lia|done].
  destruct E as (row & i & Hin & He & -> & (l1 & l2 & m1 & m2 & Q & Q' & F1 & F2) & _).
  exists row, (clk (2 * i + 1)%nat), l1, l2, m1, m2. split; [done|]. split; [done|].
  unfold eligible, claimable, in_state in He. bool_simp. split; [done|]. split; [done|]. split.
  { intros nb Hnb. by rewrite Hnb in *. }
  split; [done|]. split; [|by apply Forall2_app].
  destruct W as [_ _ _ W _]. rewrite Forall_forall in W. specialize (W row Hin) as [Ha _].
  simpl. lia.
Qed.

Lemma claim_next_sound_witness :
  wf 3 sample_db /\ exists r' d',
    claim_next (t0 + 24 * hour) (fun _ => t0 + 24 * hour) 3 "w1" [] [] sample_db = (Some r', d')
    /\ q_id r' = 2 /\ 1 <= q_attempts r' <= 3.
Proof.
  split; [apply sample_db_wf|].
  destruct (claim_next (t0 + 24 * hour) (fun _ => t0 + 24 * hour) 3 "w1" [] [] sample_db)
    as [[r'|] d'] eqn:E; [|vm_compute in E; discriminate].
  exists r', d'. split; [first [exact E | reflexivity]|].
  destruct (claim_next_sound _ _ 3 _ _ _ _ _ _ ltac:(lia) sample_db_wf E)
    as (row & t & l1 & l2 & m1 & m2 & _ & _ & _ & _ & _ & _ & Ha & _).
  split; [vm_compute in E; by injection E as <- _ | done].
Defined.

(** Order of a claim. The row handed out comes first in the claim order - age
    adjusted priority, then stored priority, then age - among all the rows of the
    database the call was allowed to hand out, whatever the number of saturated,
    parked or exhausted rows in front of them. *)
Theorem claim_next_least `{IsoStamps} `{JsonText} now clk cap w q ex d r' d' :
  0 <= cap -> wf cap d ->
  claim_next now clk cap w q ex d = (Some r', d') ->
  exists row t, row ∈ d.(queue) /\ q_id row = q_id r' /\
    forall x, x ∈ d.(queue) -> eligible cap (iso now) (saturated q d ++ ex) x = true ->
      claim_order (t / usec) row x = true.
Proof.
  intros Hc W E. apply claim_next_spec in E; [|done..].
  destruct E as (row & i & Hin & _ & -> & _ & Hmin). by exists row, (clk (2 * i)%nat).
Qed.

Lemma claim_next_least_witness :
  exists r' d', claim_next (t0 + 24 * hour) (fun _ => t0 + 24 * hour) 3 "w1" [] ["autocode"%string] sample_db
    = (Some r', d') /\ exists row, row ∈ queue sample_db /\ q_id row = q_id r'.
Proof.
  destruct (claim_next (t0 + 24 * hour) (fun _ => t0 + 24 * hour) 3 "w1" [] ["autocode"%string] sample_db)
    as [[r'|] d'] eqn:E; [|vm_compute in E; discriminate].
  exists r', d'. split; [first [exact E | reflexivity]|].
  destruct (claim_next_least _ _ 3 _ _ _ _ _ _ ltac:(lia) sample_db_wf E) as (row & t & Hi & He & _).
  exists row; exact (conj Hi He).
Defined.

(** No false empty. When [claim_next] hands out nothing, no row of the database
    was eligible - or more rows than the sweep bound were claimable and at the
    ceiling, and it stopped after poisoning that many. *)
Theorem claim_next_complete `{IsoStamps} `{JsonText} now clk cap w q ex d d' :
  0 <= cap -> wf cap d ->
  claim_next now clk cap w q ex d = (None, d') ->
  (forall x, x ∈ d.(queue) -> eligible cap (iso now) (saturated q d ++ ex) x = false)
  \/ CLAIM_CAP_SCAN_LIMIT < rowcount (exhausted cap (iso now) (saturated q d ++ ex)) d.(queue).
Proof.
  intros Hc W E. apply claim_next_spec in E; [|done..]. simpl in E. rewrite Z.sub_0_r in E. tauto.
Qed.

Lemma claim_next_complete_witness :
  exists d', claim_next t0 (fun _ => t0) 3 "w1" [] ["autocode"; "mail"]%string sample_db = (None, d')
  /\ forall x, x ∈ queue sample_db -> eligible 3 (iso t0) ["autocode"; "mail"]%string x = false.
Proof.
  destruct (claim_next t0 (fun _ => t0) 3 "w1" [] ["autocode"; "mail"]%string sample_db)
    as [[r'|] d'] eqn:E; [vm_compute in E; discriminate|].
  exists d'. split; [first [exact E | reflexivity]|].
  destruct (claim_next_complete _ _ 3 _ _ _ _ _ ltac:(lia) sample_db_wf E) as [Hn|Hn];
    [exact Hn | vm_compute in Hn; discriminate].
Defined.

(** C3: The claim loop returns, under any interference. Whatever other processes
    write between its statements - even if every claim it attempts is lost, and every
    row it reads is at the ceiling - the loop ends within its two bounds; running out
    of the model's fuel never happens. *)
Theorem claim_next_terminates `{IsoStamps} `{JsonText} now clk env cap w q ex d :
  exists o d', claim_next_env now clk env cap w q ex d = Some (o, d').
Proof.
  destruct (claim_loop_returns clk env cap w (iso now) (saturated q d ++ ex) claim_fuel 0 0 0 d)
    as [[o d'] E]; [done..|]. by exists o, d'.
Qed.

(** Quotas hold. A claim never takes a source with a quota past it: afterwards
    the source has at most its quota in flight, or as many as it already had. *)
Theorem claim_next_quota `{IsoStamps} `{JsonText} now clk cap w q ex d o d' src n :
  0 <= cap -> wf cap d -> (src, Some n) ∈ q ->
  claim_next now clk cap w q ex d = (o, d') ->
  inflight_count src d' <= Z.max n (inflight_count src d).
Proof.
  intros Hc W Hq E. apply claim_next_spec in E; [|done..]. unfold inflight_count.
  destruct o as [r'|]; [|destruct E as [F _]; rewrite (left_inflight _ _ _ src _ _ F); lia].
  destruct E as (row & i & Hin & He & -> & (l1 & l2 & m1 & m2 & Q & Q' & F1 & F2) & _).
  pose proof (not_saturated q src n d Hq) as Hns. unfold inflight_count in Hns.
  apply (left_inflight _ _ _ src) in F1, F2.
  unfold eligible, claimable, in_state in He. bool_simp.
  assert (q_source row = src -> src ∉ saturated q d) as Hsat by set_solver.
  rewrite Q' in *. rewrite Q in Hns |- *. unfold rowcount in *.
  rewrite !sel_app, !length_app in *. cbn [sel] in *.
  replace (in_flight row) with false in * by (unfold in_flight, in_state; by rewrite H1).
  change (in_flight (claimed _ _ _)) with true. change (q_source (claimed _ _ _)) with (q_source row).
  simpl in *. case_bool_decide; simpl; [|lia]. specialize (Hns (Hsat H5)). lia.
Qed.

Lemma claim_next_quota_witness :
  exists o d', claim_next (t0 + 24 * hour) (fun _ => t0 + 24 * hour) 3 "w1" [("mail", Some 1)]%string []
    sample_db = (o, d') /\ inflight_count "mail" d' <= 1.
Proof.
  destruct (claim_next (t0 + 24 * hour) (fun _ => t0 + 24 * hour) 3 "w1" [("mail", Some 1)]%string [] sample_db)
    as [o d'] eqn:E.
  exists o, d'. split; [first [exact E | reflexivity]|].
  pose proof (claim_next_quota _ _ 3 _ _ _ _ _ _ "mail" 1 ltac:(lia) sample_db_wf
    (list_elem_of_here _ _) E) as Hq. vm_compute (inflight_count "mail" sample_db) in Hq. exact Hq.
Defined.

(** C2: Safety under interference. Let other processes write anything between the
    statements of a claim, except to one row in flight. The claim itself never touches
    that row, and what it hands out is a row that, in the database it leaves, is
    claimed by this very worker; so a row held by another worker is not the one it
    hands out. *)
Theorem claim_next_interference `{IsoStamps} `{JsonText} now clk env cap w q ex d r o d' :
  in_flight r = true -> r ∈ d.(queue) ->
  (forall k d, r ∈ d.(queue) -> r ∈ (env k d).(queue)) ->
  claim_next_env now clk env cap w q ex d = Some (o, d') ->
  r ∈ d'.(queue)
  /\ (forall r', o = Some r' ->
        r' ∈ d'.(queue) /\ held_by w r' = true
        /\ (NoDup (ids d') -> q_claimed_by r <> Some w -> q_id r' <> q_id r)).
Proof.
  intros Hf%in_flight_not_queued Hr Henv. rewrite claim_next_env_loop. intros E.
  pose proof (claim_loop_frame _ _ _ _ _ _ _ _ _ _ _ _ _ _ Hf Henv Hr E) as Hr'.
  split; [done|]. intros r' ->. apply claim_loop_held in E as [Hin Hh].
  split; [done|]. split; [done|]. intros Hnd Hne Heq. apply Hne.
  assert (r' = r) as ->.
  { apply list_elem_of_lookup in Hin as [i Hi]. apply list_elem_of_lookup in Hr' as [j Hj].
    assert (i = j) as ->; [|congruence].
    eapply (NoDup_lookup (ids d') i j (q_id r')); [done| |];
      unfold ids; change (map q_id (queue d')) with (q_id <$> queue d'); rewrite list_lookup_fmap.
    - by rewrite Hi.
    - by rewrite Hj, Heq. }
  unfold held_by in Hh. by bool_simp.
Qed.

(** Another process claims row 3 first, between this claim's read and its write. *)
Definition rival (k : nat) (d : db) : db :=
  match k with
  | O => claim_update t0 "w2" (sample_row 3 "mail" 30 0 (t0 + 20 * hour)) d
  | _ => d
  end.
Definition rival_row : qrow := claimed t0 "w2" (sample_row 4 "cron" 20 0 t0).
Definition rival_db : db := Db (queue sample_db ++ [rival_row]) 4 [].

Lemma rival_keeps k d : rival_row ∈ queue d -> rival_row ∈ queue (rival k d).
Proof. destruct k; [|done]. intros Hr. by apply claim_update_frame. Qed.

Lemma claim_next_interference_witness :
  exists o d', claim_next_env t0 (fun _ => t0) rival 3 "w1" [] [] rival_db = Some (o, d')
    /\ rival_row ∈ queue d'.
Proof.
  destruct (claim_next_env t0 (fun _ => t0) rival 3 "w1" [] [] rival_db) as [[o d']|] eqn:E;
    [|vm_compute in E; discriminate].
  exists o, d'. split; [first [exact E | reflexivity]|].
  assert (rival_row ∈ queue rival_db) as Hin
    by (apply elem_of_app; right; apply list_elem_of_here).
  exact (proj1 (claim_next_interference _ _ _ _ _ _ _ _ rival_row o d' eq_refl Hin rival_keeps E)).
Defined.

(** C5: No starvation. A row that has waited the periods it takes to bring its stored
    priority down to the floor is never passed over for a row that has waited less
    than one period, unless that row is itself as urgent as the floor. *)
Theorem claim_next_no_starvation `{IsoStamps} `{JsonText} now clk cap w q ex d r' d' x ex_s rx_s k :
  0 <= cap -> wf cap d -> 0 <= k ->
  x ∈ d.(queue) -> eligible cap (iso now) (saturated q d ++ ex) x = true ->
  sql_epoch x.(q_enqueued_at) = Some ex_s ->
  x.(q_priority) - k * AGING_POINTS_PER_PERIOD <= AGING_FLOOR_PRIORITY ->
  claim_next now clk cap w q ex d = (Some r', d') ->
  sql_epoch r'.(q_enqueued_at) = Some rx_s ->
  (forall i, k * (AGING_PERIOD_HOURS * 3600) <= clk i / usec - ex_s
             /\ clk i / usec - rx_s < AGING_PERIOD_HOURS * 3600) ->
  r'.(q_priority) <= AGING_FLOOR_PRIORITY.
Proof.
  intros Hc W Hk Hx Hel He Hp E He' Hclk. apply claim_next_spec in E; [|done..].
  destruct E as (row & i & Hin & _ & -> & _ & Hmin).
  specialize (Hmin x Hx Hel). destruct (Hclk (2 * i)%nat) as [Ha Hf].
  pose proof (effective_priority_aged _ _ _ _ He Hk Ha) as Hea.
  pose proof (effective_priority_fresh _ row rx_s He' Hf) as Hfr.
  unfold claim_order in Hmin. change (q_priority (claimed _ _ row)) with (q_priority row). bool_simp.
  destruct Hmin as [?|[? _]]; bool_simp; lia.
Qed.

Definition starved_db : db :=
  Db [sample_row 1 "research" 90 0 t0; sample_row 2 "mail" 30 0 (t0 + 40 * hour);
      sample_row 3 "chat" 5 0 (t0 + 40 * hour)] 3 [].

Lemma starved_db_wf : wf 3 starved_db.
Proof.
  split; simpl.
  - repeat (apply NoDup_cons; split; [by rewrite !list_elem_of_In; simpl; lia|]). constructor.
  - repeat constructor; simpl; lia.
  - constructor.
  - repeat constructor; simpl; lia.
  - constructor.
Qed.

Lemma claim_next_no_starvation_witness :
  exists r' d', claim_next (t0 + 41 * hour) (fun _ => t0 + 41 * hour) 3 "w1" [] [] starved_db
    = (Some r', d') /\ q_priority r' <= AGING_FLOOR_PRIORITY.
Proof.
  set (t := t0 + 41 * hour).
  destruct (claim_next t (fun _ => t) 3 "w1" [] [] starved_db) as [[r'|] d'] eqn:E;
    [|vm_compute in E; discriminate].
  exists r', d'. split; [first [exact E | reflexivity]|].
  eapply (claim_next_no_starvation t (fun _ => t) 3 "w1" [] [] starved_db r' d'
            (sample_row 1 "research" 90 0 t0) (t0 / usec) ((t0 + 40 * hour) / usec) 6);
    [lia | exact starved_db_wf | lia | apply list_elem_of_here | vm_compute; reflexivity
    | vm_compute; reflexivity | vm_compute; discriminate | exact E | |].
  - vm_compute in E. injection E as <- _. vm_compute. reflexivity.
  - intros i. vm_compute. split; [discriminate | reflexivity].
Defined.
