(* ===== verification/QueueLife.v ===== *)
(** * The worker queue: life of a row

    The step relation of the queue - one constructor per method, called the way
    [workers/pool.py] calls them - with reachability, the state machine of a row, and
    what completing, failing, recovering and triage do. *)
From Stdlib Require Import String.
From S2P Require Import Prelude PyText Stamps QueueRows QueueOps QueueInv QueueClaim.

Local Open Scope Z_scope.

Section Life.
Context `{IsoStamps} `{JsonText} (cap : Z).

(** One method call. [mark_completed] and [mark_failed] carry no state guard in their
    [WHERE]: the pool calls them on a row its worker holds, and so does this relation. *)
Inductive qstep : db -> db -> Prop :=
| step_enqueue now src kind payload prio key d :
    qstep d (snd (enqueue now src kind payload prio key d))
| step_claim now clk w q ex d :
    qstep d (snd (claim_next now clk cap w q ex d))
| step_running i rid d :
    qstep d (mark_running i rid d)
| step_completed now stamp i release not_before d :
    held i d -> qstep d (mark_completed now stamp i release not_before d)
| step_failed now i err c d :
    held i d -> qstep d (snd (mark_failed now cap i err c d))
| step_run rid qid src st sa ca dur sum ap rj tid mj cj k d :
    qstep d (snd (record_run rid qid src st sa ca dur sum ap rj tid mj cj k d))
| step_recover at_ swept mint ws d :
    qstep d (snd (recover_claimed at_ swept mint cap ws d))
| step_revive now stamp i att delay triage d :
    0 <= att <= cap -> qstep d (snd (revive now stamp i att delay triage d))
| step_quarantine now i triage d :
    qstep d (snd (quarantine now i triage d)).

Definition reachable (d : db) : Prop := rtc qstep empty_db d.

(** The arrows of the row state machine. *)
Definition moves (a b : qstate) : bool :=
  match a, b with
  | Queued, (Queued | Claimed | Poisoned) => true
  | Claimed, (Claimed | Running | Completed | Queued | Poisoned) => true
  | Running, (Running | Completed | Queued | Poisoned) => true
  | Completed, Completed => true
  | Poisoned, (Poisoned | Queued | Quarantined) => true
  | Quarantined, Quarantined => true
  | _, _ => false
  end.

(** A row and what a step leaves of it: the same identity and cargo, a legal move, and
    no attempt forgotten unless an operator revived it. *)
Record evolves (r r' : qrow) : Prop := {
  ev_id : q_id r' = q_id r;
  ev_cargo : q_source r' = q_source r /\ q_kind r' = q_kind r
             /\ q_payload_json r' = q_payload_json r /\ q_priority r' = q_priority r
             /\ q_enqueued_at r' = q_enqueued_at r;
  ev_state : moves (q_state r) (q_state r') = true;
  ev_attempts : q_state r <> Poisoned -> q_attempts r <= q_attempts r' <= q_attempts r + 1;
  ev_key : q_dedup_key r' = q_dedup_key r \/ q_dedup_key r' = None
}.

(** Every row evolves, in place; rows may be appended. *)
Definition evolution (d d' : db) : Prop :=
  exists q new, d'.(queue) = q ++ new /\ Forall2 evolves d.(queue) q.

Lemma evolves_refl r : evolves r r.
Proof. split; auto; [by destruct (q_state r)|lia]. Qed.

Lemma evolves_all t : Forall2 evolves t t.
Proof. induction t; constructor; auto using evolves_refl. Qed.

Lemma evolution_refl d : evolution d d.
Proof. exists (queue d), []. rewrite app_nil_r. split; [done|]. apply evolves_all. Qed.

Lemma evolution_same d d' : queue d' = queue d -> evolution d d'.
Proof. intros E. exists (queue d), []. rewrite app_nil_r, E. split; [done|]. apply evolves_all. Qed.

Lemma upd_evolves p f t :
  (forall r, r ∈ t -> p r = true -> evolves r (f r)) -> Forall2 evolves t (upd p f t).
Proof.
  induction t as [|a t IH]; intros Hf; simpl; constructor.
  - destruct (p a) eqn:E; [apply Hf; [by left|done] | apply evolves_refl].
  - apply IH. intros r Hr. apply Hf. by right.
Qed.

Lemma update_evolution p f d :
  (forall r, r ∈ d.(queue) -> p r = true -> evolves r (f r)) -> evolution d (update p f d).
Proof.
  intros Hf. exists (upd p f (queue d)), []. split; [by rewrite app_nil_r|]. by apply upd_evolves.
Qed.

Ltac ev_solve :=
  unfold in_flight, in_state, is_id in *; bool_simp; split; row_cbn; row_states; auto;
  try congruence; try lia.

Lemma insert_evolution now src kind prio pj key d :
  evolution d (snd (insert_row now src kind prio pj key d)).
Proof.
  unfold insert_row. case_match; [apply evolution_refl|]. simpl.
  eexists (queue d), _. split; [reflexivity|]. apply evolves_all.
Qed.

Lemma evolves_trans_same a b c :
  evolves a b -> q_state b = q_state a -> q_attempts b = q_attempts a -> evolves b c -> evolves a c.
Proof.
  intros [A1 A2 A3 A4 A5] Es Ea [B1 B2 B3 B4 B5]. rewrite Es in *. rewrite Ea in *.
  split; [congruence| |done|done|naive_solver congruence]. naive_solver congruence.
Qed.

Lemma enqueue_evolution now src kind payload prio key d :
  evolution d (snd (enqueue now src kind payload prio key d)).
Proof.
  unfold enqueue.
  assert (forall d pj, evolution d (snd (let '(o, d) := insert_row now src kind prio pj key d in
                   (i <-? o ;; Ok (Some i), d)))) as Hins.
  { intros d0 pj. pose proof (insert_evolution now src kind prio pj key d0).
    by destruct (insert_row _ _ _ _ _ _ _). }
  destruct key as [k|]; [|apply Hins].
  destruct (truthy _); [|apply Hins].
  destruct (sel1 _ _) as [r|] eqn:E; [|apply Hins].
  destruct (is_live r); [apply evolution_refl|].
  destruct (Hins (update (is_id (q_id r)) (set_dedup_key None) d) (dumps (or_empty payload)))
    as (q & new & Eq & F).
  exists q, new. split; [exact Eq|]. simpl in F.
  assert (Forall2 (fun a b => evolves a b /\ q_state b = q_state a /\ q_attempts b = q_attempts a)
            (queue d) (upd (is_id (q_id r)) (set_dedup_key None) (queue d))) as F0.
  { clear. induction (queue d) as [|a t IH]; simpl; constructor; [|done].
    destruct (is_id _ a); (split; [|done]); [|apply evolves_refl].
    split; row_cbn; auto; [by destruct (q_state a)|lia]. }
  clear -F0 F. revert q F. induction F0 as [|a b ta tb (Hab & Hs & Ha) _ IH]; intros q F.
  - by inversion F.
  - inversion F as [|? c ? tc Hbc F']; subst. constructor; [by eapply evolves_trans_same|auto].
Qed.

Lemma left_evolves bound ex r r' : left_by_claim cap bound ex r r' -> evolves r r'.
Proof.
  intros [->|[He [t ->]]]; [apply evolves_refl|].
  unfold exhausted, claimable in He. bool_simp. unfold poisoned. ev_solve.
Qed.

Lemma claim_evolution now clk w q ex d :
  0 <= cap -> wf cap d -> evolution d (snd (claim_next now clk cap w q ex d)).
Proof.
  intros Hc W. destruct (claim_next now clk cap w q ex d) as [o d'] eqn:E. simpl.
  apply claim_next_spec in E; [|done..].
  assert (forall l m bound ex, Forall2 (left_by_claim cap bound ex) l m -> Forall2 evolves l m) as Hl.
  { intros l m b x F. eapply Forall2_impl; [done|]. intros; by eapply left_evolves. }
  destruct o as [r'|].
  - destruct E as (row & i & Hin & He & -> & (l1 & l2 & m1 & m2 & Q & Q' & F1 & F2) & _).
    exists (queue d'), []. rewrite app_nil_r. split; [done|]. rewrite Q, Q'.
    apply Forall2_app; [eauto|]. constructor; [|eauto].
    unfold eligible, claimable in He. bool_simp. unfold claimed. ev_solve.
  - destruct E as [F _]. exists (queue d'), []. rewrite app_nil_r. eauto.
Qed.

(** A row held is the only row under its id. *)
Lemma held_row i d r : wf cap d -> held i d -> r ∈ queue d -> q_id r = i -> in_flight r = true.
Proof.
  intros W (row & G & F) Hr Hi. apply get_Some in G as [G Gi].
  assert (r = row) as ->; [|done]. eapply ids_unique; eauto. congruence.
Qed.

Lemma flight_moves r s :
  in_flight r = true -> s = Queued \/ s = Completed \/ s = Poisoned -> moves (q_state r) s = true.
Proof. unfold in_flight, in_state. intros Hf Hs. destruct (q_state r), Hs as [->|[->| ->]]; done. Qed.

Lemma completed_evolution now stamp i rel nb d :
  wf cap d -> held i d -> evolution d (mark_completed now stamp i rel nb d).
Proof.
  intros W Hh. unfold mark_completed.
  assert (forall r s, r ∈ queue d -> is_id i r = true -> s = Queued \/ s = Completed ->
    moves (q_state r) s = true) as Hm.
  { intros r s Hr Hi Hs. apply flight_moves; [|tauto]. eapply held_row; eauto. unfold is_id in Hi. by bool_simp. }
  destruct (deferral _ _); [|destruct rel]; apply update_evolution; intros r Hr Hp;
    (split; row_cbn; [done|done|by apply Hm; auto|lia|auto]).
Qed.

Lemma failed_evolution now i err c d :
  wf cap d -> held i d -> evolution d (snd (mark_failed now cap i err c d)).
Proof.
  intros W Hh. pose proof Hh as (row & G & F). unfold mark_failed. rewrite G.
  assert (forall r s, r ∈ queue d -> is_id i r = true -> s = Queued \/ s = Poisoned ->
    moves (q_state r) s = true) as Hm.
  { intros r s Hr Hi Hs. apply flight_moves; [|tauto]. eapply held_row; eauto. unfold is_id in Hi. by bool_simp. }
  case_match; apply update_evolution; intros r Hr Hp;
    (split; row_cbn; [done|done|by apply Hm; auto|lia|auto]).
Qed.

(** ** Crash recovery, row by row *)

Definition RECOVERY : text := u "crash recovery".

(** What the sweep makes of one row. *)
Definition recovered (ws : list string) (r r' : qrow) : Prop :=
  if in_flight r && owned ws r then
    if cap <=? q_attempts r then exists t, r' = poisoned t cap RECOVERY r else r' = requeue r
  else r' = r.

Lemma poison_all_spec at_ rows k d :
  wf cap d -> NoDup (map q_id rows) ->
  (forall r, r ∈ rows -> r ∈ d.(queue) /\ in_flight r = true) ->
  Forall2 (fun r r' => (r ∉ rows /\ r' = r) \/ (r ∈ rows /\ exists t, r' = poisoned t cap RECOVERY r))
    d.(queue) (poison_all rows at_ k cap d).(queue).
Proof.
  revert k d. induction rows as [|row rows IH]; intros k d W Hnd Hrows; cbn [poison_all].
  { apply Forall_Forall2_diag, Forall_true. intros r. left. split; [apply not_elem_of_nil|done]. }
  simpl in Hnd. apply NoDup_cons in Hnd as [Hnew Hnd].
  destruct (Hrows row) as [Hin Hfl]; [set_solver|].
  assert (forall r, r ∈ rows -> q_id r <> q_id row) as Hids.
  { intros r Hr E. apply Hnew. rewrite <- E. by apply list_elem_of_fmap_2. }
  destruct (poison_split cap d row (at_ k) RECOVERY W Hin) as (l1 & l2 & E1 & E2).
  assert (wf cap (poison_at_cap (at_ k) row cap RECOVERY d)) as W1 by (by apply wf_poison).
  specialize (IH (S k) _ W1 Hnd). fold RECOVERY.
  assert (forall r, r ∈ rows -> r ∈ queue (poison_at_cap (at_ k) row cap RECOVERY d) /\ in_flight r = true) as Hr1.
  { intros r Hr. destruct (Hrows r) as [Hq Hf]; [set_solver|]. split; [|done].
    rewrite E1 in Hq. rewrite E2. specialize (Hids r Hr). rewrite elem_of_app, elem_of_cons in *. naive_solver. }
  specialize (IH Hr1). rewrite E2 in IH. rewrite E1.
  assert (forall x, x ∈ l1 ++ l2 -> x <> row) as Hother.
  { intros x Hx ->. pose proof (wf_ids _ _ W) as Hn. unfold ids in Hn.
    rewrite E1, map_app in Hn. simpl in Hn. apply NoDup_app in Hn as (_ & Hn1 & [Hn2 _]%NoDup_cons).
    apply elem_of_app in Hx as [Hx|Hx]; apply (list_elem_of_fmap_2 q_id) in Hx;
      [eapply Hn1; [exact Hx|by left] | by apply Hn2]. }
  apply Forall2_app_inv_l in IH as (m1 & m2 & F1 & F2 & ->).
  apply Forall2_cons_inv_l in F2 as (y & m2' & Hy & F2 & ->).
  assert (forall l m, (forall x, x ∈ l -> x <> row) ->
    Forall2 (fun r r' => (r ∉ rows /\ r' = r) \/ (r ∈ rows /\ exists t, r' = poisoned t cap RECOVERY r)) l m ->
    Forall2 (fun r r' => (r ∉ row :: rows /\ r' = r)
                         \/ (r ∈ row :: rows /\ exists t, r' = poisoned t cap RECOVERY r)) l m) as Hlift.
  { clear. intros l m Hne F. induction F as [|r r' l m Hr _ IHF]; constructor.
    - assert (r <> row) by (apply Hne; by left). set_solver.
    - apply IHF. intros x Hx. apply Hne. by right. }
  apply Forall2_app; [apply Hlift; [set_solver|done]|].
  constructor; [|apply Hlift; [set_solver|done]].
  right. split; [by left|]. destruct Hy as [[_ ->]|[Hy _]]; [eauto|].
  destruct (Hr1 _ Hy) as [_ Hf]. done.
Qed.

Lemma swept_elem ws d r :
  r ∈ swept ws d <-> r ∈ d.(queue) /\ in_flight r && owned ws r = true.
Proof. unfold swept. by rewrite elem_of_sel. Qed.

Lemma upd_Forall2 {R} (p : R -> bool) f t : Forall2 (fun r r' => r' = if p r then f r else r) t (upd p f t).
Proof. induction t; constructor; done. Qed.

(** The queue and the count [recover_claimed] leaves, whatever it records. *)
Lemma recover_queue at_ sw mint ws d o d' :
  wf cap d -> recover_claimed at_ sw mint cap ws d = (o, d') ->
  Forall2 (recovered ws) d.(queue) d'.(queue)
  /\ (forall n, o = Ok n -> n = rowcount (fun r => in_flight r && (q_attempts r <? cap) && owned ws r) d.(queue)).
Proof.
  intros W E. unfold recover_claimed in E.
  set (rows := sel (fun r => cap <=? q_attempts r) (swept ws d)) in E.
  set (p := fun r => in_flight r && (q_attempts r <? cap) && owned ws r) in *.
  assert (forall r, r ∈ rows <-> r ∈ queue d /\ in_flight r && owned ws r = true /\ cap <= q_attempts r) as Hrows.
  { intros r. unfold rows. rewrite elem_of_sel, swept_elem, Z.leb_le. tauto. }
  pose proof (poison_all_spec at_ rows 0 d W) as F.
  set (d1 := poison_all rows at_ 0 cap d) in *.
  assert (NoDup (map q_id rows)) as Hnd.
  { eapply sublist_NoDup; [apply (wf_ids _ _ W)|]. unfold rows, swept, ids. apply sublist_map.
    etrans; apply sublist_sel. }
  assert (forall r, r ∈ rows -> r ∈ queue d /\ in_flight r = true) as Hr.
  { intros r Hr. apply Hrows in Hr as (? & Hb & _). bool_simp. done. }
  specialize (F Hnd Hr). clear Hr Hnd.
  destruct (record_all _ _ _ _ _ _) as [o1 d3] eqn:Er.
  eapply (record_all_wf cap) in Er as [_ Eq3]; [|apply wf_update; [done|by left| |by apply wf_poison_all];
    intros r Hr Hp Hok; unfold p, in_flight in Hp; destruct (q_state r) eqn:Es; row_solve].
  injection E as <- <-. rewrite Eq3. unfold update, with_queue. simpl.
  split.
  - eapply Forall2_compose; [|exact F|apply (upd_Forall2 p requeue)].
    intros r r1 r2 Hin [[Hn ->]|[Hi [t' ->]]] ->; unfold recovered.
    + unfold p. destruct (in_flight r) eqn:Ef, (owned ws r) eqn:Eo; simpl; rewrite ?andb_false_r; try done.
      destruct (Z.leb_spec cap (q_attempts r)).
      * destruct Hn. apply Hrows. by rewrite Ef, Eo.
      * by replace (q_attempts r <? cap) with true by lia.
    + apply Hrows in Hi as (_ & Ho & Hc). rewrite Ho. replace (cap <=? q_attempts r) with true by lia.
      by exists t'.
  - intros n Hn. destruct o1; simplify_eq/=. eapply Forall2_rowcount, Forall2_impl; [exact F|].
    intros r r1 [[_ ->]|[Hi [t' ->]]]; [done|]. apply Hrows in Hi as (_ & Ho & Hc).
    unfold p. replace (q_attempts r <? cap) with false by lia. by rewrite andb_false_r.
Qed.

Lemma recovered_evolves ws r r' : recovered ws r r' -> evolves r r'.
Proof.
  unfold recovered. destruct (in_flight r) eqn:Ef; simpl; [|intros ->; apply evolves_refl].
  destruct (owned ws r); [|intros ->; apply evolves_refl].
  case_match; [intros [t ->]|intros ->];
    unfold poisoned, requeue; (split; row_cbn; [done|done| |lia|by auto]); apply flight_moves; auto.
Qed.

Lemma recover_evolution at_ sw mint ws d :
  wf cap d -> evolution d (snd (recover_claimed at_ sw mint cap ws d)).
Proof.
  intros W. destruct (recover_claimed _ _ _ _ _ _) as [o d'] eqn:E.
  apply recover_queue in E as [F _]; [|done]. exists (queue d'), []. rewrite app_nil_r. split; [done|].
  eapply Forall2_impl; [done|]. apply recovered_evolves.
Qed.

(** ** Reachability *)

Hypothesis cap_pos : 1 <= cap.

Lemma qstep_wf d d' : qstep d d' -> wf cap d -> wf cap d'.
Proof.
  assert (0 <= cap) by lia. intros S W. destruct S.
  - by apply wf_enqueue.
  - by apply wf_claim_next.
  - by apply wf_mark_running.
  - by apply wf_mark_completed.
  - by apply wf_mark_failed.
  - unfold record_run. destruct (insert_run _ _ _ _ _ _ _ _ _ _ _ _ _ _ _) as [o d'] eqn:E.
    by apply (insert_run_wf cap) in E as [? _].
  - by apply wf_recover.
  - by apply wf_revive.
  - by apply wf_quarantine.
Qed.

Lemma qstep_evolution d d' : qstep d d' -> wf cap d -> evolution d d'.
Proof.
  assert (0 <= cap) by lia. intros S W. destruct S.
  - apply enqueue_evolution.
  - by apply claim_evolution.
  - apply update_evolution. intros r Hr Hp. unfold in_state in Hp.
    bool_simp. split; row_cbn; row_states; auto; lia.
  - by apply completed_evolution.
  - by apply failed_evolution.
  - apply evolution_same. unfold record_run, insert_run. by repeat case_match.
  - by apply recover_evolution.
  - apply update_evolution. intros r Hr Hp. unfold in_state in Hp.
    bool_simp. split; row_cbn; row_states; auto; congruence.
  - apply update_evolution. intros r Hr Hp. unfold in_state in Hp.
    bool_simp. split; row_cbn; row_states; auto; lia.
Qed.

Lemma steps_wf d d' : rtc qstep d d' -> wf cap d -> wf cap d'.
Proof. induction 1; eauto using qstep_wf. Qed.

Lemma evolution_row d d' r :
  evolution d d' -> r ∈ d.(queue) -> exists r', r' ∈ d'.(queue) /\ evolves r r'.
Proof.
  intros (q & new & -> & F) Hr. apply list_elem_of_lookup in Hr as [i Hi].
  eapply Forall2_lookup_l in Hi as (r' & Hi & Hev); [|done].
  exists r'. split; [|done]. apply elem_of_app. left. by eapply list_elem_of_lookup_2.
Qed.

(** ** Exactly one run per swept attempt *)

Definition run_ids (d : db) : list string := map run_id d.(runs).

Lemma existsb_run rid d :
  existsb (fun r => String.eqb r.(run_id) rid) d.(runs) = true <-> rid ∈ run_ids d.
Proof.
  unfold run_ids. rewrite existsb_exists, list_elem_of_fmap. split.
  - intros (r & Hr & E%String.eqb_eq). exists r. split; [done|]. by apply list_elem_of_In.
  - intros (r & -> & Hr). exists r. split; [by apply list_elem_of_In | apply String.eqb_refl].
Qed.

Lemma insert_run_ok rid qid src st sa ca dur ap rj tid mj cj k d :
  rid ∉ run_ids d ->
  exists r, insert_run rid qid src st sa ca dur INTERRUPTED_SUMMARY ap rj tid mj cj k d
    = (Ok tt, Db d.(queue) d.(seq) (d.(runs) ++ [r]))
  /\ run_id r = rid /\ r_queue_id r = qid /\ r_status r = st /\ r_started_at r = sa.
Proof.
  intros Hn. unfold insert_run. destruct (shorten_summary _ _) eqn:Es; [|by vm_compute in Es].
  destruct (existsb _ _) eqn:Ex; [by apply existsb_run in Ex|]. eexists. split; [reflexivity|]. done.
Qed.

(** The run a swept row owes, if any: none when its attempt start is blank or a run
    since that start is on record. *)
Definition owes_run (row : qrow) (d : db) : bool :=
  truthy (Some (attempt_start row))
  && negb (match iso_parse (attempt_start row) with
           | Some claim => already_recorded row claim d
           | None => false
           end).

Lemma record_interrupted_ok row at_ mint d :
  mint ∉ run_ids d ->
  (owes_run row d = false /\ record_interrupted_run row at_ mint d = (Ok 0, d))
  \/ (owes_run row d = true /\ exists r,
        record_interrupted_run row at_ mint d = (Ok 1, Db d.(queue) d.(seq) (d.(runs) ++ [r]))
        /\ (run_id r = mint \/ q_current_run_id row = Some (run_id r))
        /\ r_queue_id r = Some (q_id row) /\ r_status r = "interrupted"%string
        /\ r_started_at r = attempt_start row).
Proof.
  intros Hm. unfold owes_run, record_interrupted_run.
  destruct (truthy (Some (attempt_start row))); simpl; [|by left].
  destruct (match iso_parse _ with Some _ => _ | None => _ end); simpl; [by left|]. right. split; [done|].
  set (stamped := match q_current_run_id row with Some (String c s) => _ | _ => None end).
  assert (default mint stamped ∉ run_ids d /\
          (default mint stamped = mint \/ q_current_run_id row = Some (default mint stamped))) as [Hn Hor].
  { unfold stamped. destruct (q_current_run_id row) as [[|c s]|]; [by auto| |by auto].
    destruct (existsb _ _) eqn:Ex; [by auto|]. split; [|by auto].
    simpl. intros Hin%existsb_run. congruence. }
  destruct (insert_run_ok (default mint stamped) (Some (q_id row)) (q_source row) "interrupted"
    (attempt_start row) at_ (iso_between (attempt_start row) at_) "" [] (payload_task_id row)
    INTERRUPTED_META [] (Some (q_kind row)) d Hn) as (r & -> & Er & ? & ? & ?).
  exists r. rewrite Er. auto 10.
Qed.

(** Fresh mints: the ids still to be drawn collide with nothing. *)
Definition fresh_from (mint : nat -> string) (k : nat) (rows : list qrow) (d : db) : Prop :=
  forall j, (k <= j)%nat ->
    mint j ∉ run_ids d
    /\ (forall row, row ∈ rows -> q_current_run_id row <> Some (mint j))
    /\ (forall i, (k <= i)%nat -> mint i = mint j -> i = j).

(** A run written for another row changes nothing a row owes. *)
Lemma owes_run_other row r d :
  r_queue_id r <> Some (q_id row) ->
  owes_run row (Db d.(queue) d.(seq) (d.(runs) ++ [r])) = owes_run row d.
Proof.
  intros Hne. unfold owes_run, already_recorded. f_equal. f_equal. case_match; [|done]. simpl.
  rewrite existsb_app. simpl. rewrite bool_decide_false by done. by rewrite !orb_false_r.
Qed.

(** The run of an interrupted attempt. *)
Definition interrupted_run_of (row : qrow) (r : run) : Prop :=
  r_queue_id r = Some (q_id row) /\ r_status r = "interrupted"%string
  /\ r_started_at r = attempt_start row.

Lemma fresh_from_step mint k row rows d d' :
  fresh_from mint k (row :: rows) d ->
  (forall x, x ∈ run_ids d' -> x ∈ run_ids d \/ x = mint k \/ q_current_run_id row = Some x) ->
  fresh_from mint (S k) rows d'.
Proof.
  intros Hf Hd j Hj. destruct (Hf j ltac:(lia)) as (A & B & C). split; [|split].
  - intros [?|[E|E]]%Hd; [done| |].
    + specialize (proj2 (proj2 (Hf k ltac:(done))) j ltac:(lia) E). lia.
    + eapply B; [by left|done].
  - intros; apply B; set_solver.
  - intros; apply C; [lia|done].
Qed.

Lemma record_all_ok rows at_ mint k n d :
  NoDup (map q_id rows) -> fresh_from mint k rows d ->
  exists new, record_all rows at_ mint k n d
    = (Ok (n + Z.of_nat (length new)), Db d.(queue) d.(seq) (d.(runs) ++ new))
  /\ Forall2 interrupted_run_of (sel (fun row => owes_run row d) rows) new.
Proof.
  revert k n d. induction rows as [|row rows IH]; intros k n d Hnd Hf; cbn [record_all sel].
  - exists []. rewrite app_nil_r, Z.add_0_r. by destruct d.
  - simpl in Hnd. apply NoDup_cons in Hnd as [Hrow Hnd].
    destruct (Hf k ltac:(done)) as (Hk & _ & _).
    destruct (record_interrupted_ok row at_ (mint k) d Hk) as [[-> ->]|(-> & r & -> & Hor & Hr)].
    + destruct (IH (S k) (n + 0) d Hnd) as (new & -> & F).
      { eapply fresh_from_step; [done|]. by left. }
      exists new. by rewrite Z.add_0_r.
    + destruct (IH (S k) (n + 1) (Db (queue d) (seq d) (runs d ++ [r])) Hnd) as (new & -> & F).
      { eapply fresh_from_step; [done|]. intros x. unfold run_ids. simpl. rewrite map_app, elem_of_app.
        intros [?|Hx]; [by left|]. apply list_elem_of_singleton in Hx as ->. right.
        destruct Hor as [->|Hor]; auto. }
      exists (r :: new). simpl. rewrite <- app_assoc. split; [f_equal; f_equal; lia|].
      constructor; [done|]. erewrite sel_ext; [exact F|]. intros row' Hin. symmetry.
      apply owes_run_other. destruct Hr as (-> & _). intros [= E]. apply Hrow. rewrite E.
      by apply list_elem_of_fmap_2.
Qed.

Lemma recover_runs at_ sw mint ws d :
  wf cap d -> fresh_from mint 0 (swept ws d) d ->
  exists n d' new, recover_claimed at_ sw mint cap ws d = (Ok n, d')
    /\ d'.(runs) = d.(runs) ++ new
    /\ Forall2 interrupted_run_of (sel (fun row => owes_run row d) (swept ws d)) new.
Proof.
  intros W Hf. unfold recover_claimed.
  set (d1 := poison_all _ _ _ _ _). set (d2 := update _ _ d1).
  assert (runs d2 = runs d) as Hruns.
  { unfold d2, d1. generalize (sel (fun r => cap <=? q_attempts r) (swept ws d)). simpl.
    generalize 0%nat. intros k rows. generalize d. revert k. clear. 
    induction rows as [|row rows IH]; intros k d; [done|]. cbn [poison_all]. by rewrite IH. }
  clearbody d2.
  destruct (record_all_ok (swept ws d) (iso sw) mint 0 0 d2) as (new & -> & F).
  - eapply sublist_NoDup; [apply (wf_ids _ _ W)|]. apply sublist_map, sublist_sel.
  - intros j Hj. unfold run_ids. rewrite Hruns. by apply Hf.
  - eexists _, _, new. split; [reflexivity|]. simpl. rewrite Hruns. split; [done|].
    rewrite (sel_ext _ (fun row => owes_run row d2)); [exact F|].
    intros row _. unfold owes_run, already_recorded. by rewrite Hruns.
Qed.
End Life.
