(* ===== verification/QueueFate.v ===== *)
(** * The worker queue: what its methods promise

    The invariant of every reachable database, the life of a row, and the contract of
    enqueueing, completing, failing and crash recovery. *)
From Stdlib Require Import String.
From S2P Require Import Prelude PyText Stamps QueueRows QueueOps QueueInv QueueClaim QueueLife.

Local Open Scope Z_scope.

Section Fate.
Context `{IsoStamps} `{JsonText}.

(** ** One row of a well-formed database *)

(** A statement keyed on a row's id rewrites that row and no other. *)
Lemma update_row cap d r f c :
  wf cap d -> r ∈ d.(queue) -> c r = true ->
  exists l1 l2, d.(queue) = l1 ++ r :: l2
    /\ (update (fun x => is_id (q_id r) x && c x) f d).(queue) = l1 ++ f r :: l2.
Proof.
  intros W Hin Hc. destruct (wf_split _ _ _ W Hin) as (l1 & l2 & E & Hne). exists l1, l2.
  split; [done|]. unfold update, with_queue. simpl. rewrite E, upd_split.
  - unfold is_id. by rewrite Z.eqb_refl, Hc.
  - eapply Forall_impl; [done|]. intros x Hx. simpl in Hx. unfold is_id. by apply Z.eqb_neq in Hx as ->.
Qed.

Lemma update_row_id cap d r f :
  wf cap d -> r ∈ d.(queue) ->
  exists l1 l2, d.(queue) = l1 ++ r :: l2
    /\ (update (is_id (q_id r)) f d).(queue) = l1 ++ f r :: l2.
Proof.
  intros W Hin. destruct (update_row cap d r f (fun _ => true) W Hin eq_refl) as (l1 & l2 & E & E').
  exists l1, l2. split; [done|]. rewrite <- E'. unfold update, with_queue, upd. simpl.
  apply map_ext. intros x. by rewrite andb_true_r.
Qed.

Lemma sel1_key cap d r k :
  wf cap d -> r ∈ d.(queue) -> q_dedup_key r = Some k -> sel1 (has_key k) d.(queue) = Some r.
Proof.
  intros W Hin Hk. destruct (sel1 (has_key k) (queue d)) as [r'|] eqn:E.
  - apply sel1_Some in E as [Hin' Hk']. unfold has_key in Hk'. bool_simp.
    f_equal. pose proof (wf_keys _ _ W) as Hn. clear W.
    induction (queue d) as [|a t IH]; [by apply elem_of_nil in Hin|].
    unfold keys in *. simpl in Hn.
    assert (forall x, x ∈ t -> q_dedup_key x = Some k -> k ∈ omap q_dedup_key t) as Hmem.
    { intros x Hx Hxk. apply list_elem_of_omap. eauto. }
    apply elem_of_cons in Hin as [->|Hin], Hin' as [->|Hin']; try done.
    + rewrite Hk in Hn. apply NoDup_cons in Hn as [Hn _]. destruct Hn. eauto.
    + rewrite Hk' in Hn. apply NoDup_cons in Hn as [Hn _]. destruct Hn. eauto.
    + apply IH; try done. destruct (q_dedup_key a); [by apply NoDup_cons in Hn as [_ Hn]|done].
  - rewrite sel1_None in E. specialize (E r Hin). unfold has_key in E.
    by rewrite bool_decide_true in E.
Qed.

(** A row parked at [at_]: out of every claim before that instant. *)
Lemma parked_until at_ t ex r :
  in_range at_ = true -> in_range t = true -> t < at_ ->
  q_not_before r = Some (iso at_) -> claimable (iso t) ex r = false.
Proof.
  intros Ha Ht Hlt Hn. unfold claimable. rewrite Hn, sle_iso by done.
  replace (at_ <=? t) with false by lia. by rewrite andb_false_r.
Qed.

Lemma parked_after at_ t ex r :
  in_range at_ = true -> in_range t = true -> at_ <= t -> q_state r = Queued ->
  q_not_before r = Some (iso at_) -> q_source r ∉ ex -> claimable (iso t) ex r = true.
Proof.
  intros Ha Ht Hle Hs Hn He. unfold claimable, in_state. rewrite Hn, Hs, sle_iso by done.
  replace (at_ <=? t) with true by lia. by rewrite !bool_decide_true by done.
Qed.

Lemma backoff_bounds a : 30 <= backoff a <= 600.
Proof.
  unfold backoff. pose proof (Z.pow_le_mono_r 2 0 (Z.max 0 (a - 1)) ltac:(lia) ltac:(lia)). lia.
Qed.

Lemma backoff_doubles a : 1 <= a -> backoff (a + 1) = Z.min 600 (2 * backoff a).
Proof.
  intros Ha. unfold backoff. replace (Z.max 0 (a + 1 - 1)) with (Z.succ (Z.max 0 (a - 1))) by lia.
  rewrite Z.pow_succ_r by lia. lia.
Qed.
End Fate.

(** ** The promises *)

Section Promises.
Context `{IsoStamps} `{JsonText} (cap : Z).

(** C4: Invariant. In every database the methods can reach from an empty file, row ids
    are unique and within the sequence, live rows never share a deduplication key, run
    ids are unique, and each row is in shape for its state: attempts between 0 and the
    ceiling, a claim stamp exactly where there is a claim, a completion stamp exactly
    where the row is terminal, no key left on a poisoned or quarantined row. *)
Theorem reachable_wf d : 1 <= cap -> reachable cap d -> wf cap d.
Proof. intros Hc R. eapply steps_wf; [done|exact R|apply wf_empty]. Qed.

(** C6: Life of a row. Whatever sequence of method calls follows, a row of a reachable
    database is never lost: it is still there under its id with the source, kind,
    payload and priority it was enqueued with; and completed and quarantined are final. *)
Theorem row_life d d' r :
  1 <= cap -> reachable cap d -> rtc (qstep cap) d d' -> r ∈ d.(queue) ->
  exists r', r' ∈ d'.(queue) /\ q_id r' = q_id r /\ q_source r' = q_source r
    /\ q_kind r' = q_kind r /\ q_payload_json r' = q_payload_json r
    /\ q_priority r' = q_priority r /\ q_enqueued_at r' = q_enqueued_at r
    /\ (q_state r = Completed \/ q_state r = Quarantined -> q_state r' = q_state r).
Proof.
  intros Hc R S. revert r. assert (wf cap d) as W by (eapply steps_wf; eauto using wf_empty).
  clear R. induction S as [d|d d1 d2 Hs _ IH]; intros r Hr.
  - exists r. auto 10.
  - assert (wf cap d1) as W1 by (eapply qstep_wf; eauto).
    apply qstep_evolution in Hs; [|done..].
    destruct (evolution_row _ _ _ Hs Hr) as (r1 & Hr1 & [Ei (E1 & E2 & E3 & E4 & E5) Es _ _]).
    destruct (IH W1 r1 Hr1) as (r2 & Hr2 & F0 & F1 & F2 & F3 & F4 & F5 & F6).
    exists r2. repeat split; try congruence. intros Ht. rewrite F6.
    + destruct (q_state r), (q_state r1); naive_solver.
    + destruct (q_state r), (q_state r1); naive_solver.
Qed.

(** Legal moves. A single method call on a reachable database changes rows in
    place, each along an arrow of the state machine, never dropping an attempt except
    when an operator revives a poisoned row, and only ever releasing a key. *)
Theorem step_evolves d d' :
  1 <= cap -> reachable cap d -> qstep cap d d' -> evolution d d'.
Proof. intros Hc R S. apply (qstep_evolution cap); [done..|]. eapply steps_wf; eauto using wf_empty. Qed.

(** Enqueueing under a key: a live row that holds it coalesces the call; else the new row
    is put last, and the row that still carried the key lets go of it. *)
Lemma enqueue_cases now src kind payload prio k d :
  wf cap d -> k <> EmptyString ->
  if has_live k d then enqueue now src kind payload prio (Some k) d = (Ok None, d)
  else exists d0,
    (d0 = d \/ exists r, r ∈ d.(queue) /\ is_live r = false /\ q_dedup_key r = Some k /\ d0 = update (is_id r.(q_id)) (set_dedup_key None) d) /\
    (forall x, x ∈ d0.(queue) -> q_dedup_key x <> Some k) /\ d0.(seq) = d.(seq) /\
    enqueue now src kind payload prio (Some k) d =
      (Ok (Some (d.(seq) + 1)),
       Db (d0.(queue) ++ [QRow (d.(seq) + 1) src kind prio (dumps (or_empty payload)) (Some k) Queued 0 (iso now) None None None None None None None None])
          (d.(seq) + 1) d0.(runs)).
Proof.
  intros W Hk.
  assert (forall d0 pj, (forall x, x ∈ d0.(queue) -> q_dedup_key x <> Some k) -> d0.(seq) = d.(seq) ->
    (let '(o, d) := insert_row now src kind prio pj (Some k) d0 in (i <-? o ;; Ok (Some i), d))
    = (Ok (Some (d.(seq) + 1)), Db (d0.(queue) ++ [QRow (d.(seq) + 1) src kind prio pj (Some k) Queued 0 (iso now) None None None None None None None None])
         (d.(seq) + 1) d0.(runs))) as Hins.
  { intros d0 pj Hfree Hseq. unfold insert_row.
    replace (existsb (has_key k) (queue d0)) with false; [by rewrite Hseq|].
    symmetry. apply not_true_iff_false. intros (x & Hx & Hxk)%existsb_exists.
    unfold has_key in Hxk. bool_simp. eapply Hfree; [by apply list_elem_of_In|done]. }
  unfold has_live, enqueue. replace (truthy (Some k)) with true by (by destruct k).
  destruct (sel1 (has_key k) (queue d)) as [r|] eqn:E.
  - apply sel1_Some in E as [Hr Hrk]. unfold has_key in Hrk. bool_simp.
    assert (forall x, x ∈ queue d -> q_dedup_key x = Some k -> x = r) as Huniq.
    { intros x Hx Hxk. pose proof (sel1_key cap d x k W Hx Hxk).
      pose proof (sel1_key cap d r k W Hr Hrk). congruence. }
    destruct (is_live r) eqn:El.
    + destruct (sel1 (fun r => has_key k r && is_live r) (queue d)) eqn:E2; [done|].
      rewrite sel1_None in E2. specialize (E2 r Hr). unfold has_key in E2.
      by rewrite El, bool_decide_true in E2.
    + replace (sel1 (fun r => has_key k r && is_live r) (queue d)) with (@None qrow).
      2:{ symmetry. apply sel1_None. intros x Hx. apply not_true_iff_false. intros Hb.
          unfold has_key in Hb. bool_simp. rewrite (Huniq x) in * by done. congruence. }
      exists (update (is_id r.(q_id)) (set_dedup_key None) d).
      assert (forall x, x ∈ queue (update (is_id r.(q_id)) (set_dedup_key None) d) -> q_dedup_key x <> Some k) as Hfree.
      { intros x (x0 & Hx0 & ->)%elem_of_upd.
        destruct (is_id _ x0) eqn:Ei; [done|]. intros Hxk. rewrite (Huniq x0) in Ei by done.
        unfold is_id in Ei. by rewrite Z.eqb_refl in Ei. }
      split; [right; by exists r|]. split; [done|]. split; [done|]. by apply Hins.
  - rewrite sel1_None in E.
    assert (forall x, x ∈ queue d -> q_dedup_key x <> Some k) as Hfree.
    { intros x Hx Hxk. specialize (E x Hx). unfold has_key in E. by rewrite bool_decide_true in E. }
    replace (sel1 (fun r => has_key k r && is_live r) (queue d)) with (@None qrow).
    2:{ symmetry. apply sel1_None. intros x Hx. by rewrite E. }
    exists d. split; [by left|]. split; [done|]. split; [done|]. by apply Hins.
Qed.

(** Deduplication. Enqueueing under a key a live row holds coalesces: nothing is
    written. Otherwise a fresh queued row is inserted that owns the key from then on -
    a finished row that still carried it has let go of it - and the key is live. *)
Theorem enqueue_dedup now src kind payload prio k d :
  wf cap d -> k <> EmptyString ->
  if has_live k d then enqueue now src kind payload prio (Some k) d = (Ok None, d)
  else exists d' r,
    enqueue now src kind payload prio (Some k) d = (Ok (Some (d.(seq) + 1)), d')
    /\ r ∈ d'.(queue) /\ q_id r = d.(seq) + 1 /\ q_state r = Queued /\ q_attempts r = 0
    /\ q_source r = src /\ q_enqueued_at r = iso now
    /\ has_live k d' = true
    /\ (forall x, x ∈ d'.(queue) -> q_dedup_key x = Some k -> x = r).
Proof.
  intros W Hk. pose proof (enqueue_cases now src kind payload prio k d W Hk) as E. destruct (has_live k d); [exact E|].
  destruct E as (d0 & _ & Hfree & _ & E). eexists _, _. split; [exact E|]. cbn [queue].
  match goal with |- ?r ∈ _ ++ [?r'] /\ _ => assert (Hr : r' ∈ d0.(queue) ++ [r']) by (apply elem_of_app; right; by left) end.
  split; [exact Hr|]. split_and!; [done..| |].
  - unfold has_live. cbn [queue]. destruct (sel1 _ _) eqn:E1; [done|]. rewrite sel1_None in E1. specialize (E1 _ Hr).
    unfold has_key, is_live, in_state in E1. simpl in E1. by rewrite bool_decide_true in E1.
  - intros x [Hx|Hx]%elem_of_app Hxk; [by destruct (Hfree x Hx)|by apply list_elem_of_singleton in Hx].
Qed.

(** Failure and backoff. Failing a row its worker holds either ends it - poisoned,
    its key free, once its attempts have reached the ceiling - or requeues it with its
    attempts kept and out of every claim for 30 seconds to 10 minutes, doubling with
    each attempt; from that instant on it is claimable again. *)
Theorem mark_failed_spec now err d r :
  wf cap d -> r ∈ d.(queue) -> in_flight r = true ->
  in_range now = true -> in_range (now + backoff (q_attempts r) * usec) = true ->
  exists d' l1 l2 r',
    snd (mark_failed now cap (q_id r) err None d) = d'
    /\ d.(queue) = l1 ++ r :: l2 /\ d'.(queue) = l1 ++ r' :: l2
    /\ if cap <=? q_attempts r
       then q_state r' = Poisoned /\ q_dedup_key r' = None
       else q_state r' = Queued /\ q_attempts r' = q_attempts r /\ q_dedup_key r' = q_dedup_key r
            /\ 30 <= backoff (q_attempts r) <= 600
            /\ forall t ex, in_range t = true ->
                 if t <? now + backoff (q_attempts r) * usec then claimable (iso t) ex r' = false
                 else q_source r ∉ ex -> claimable (iso t) ex r' = true.
Proof.
  intros W Hr Hf Hn Hb. unfold mark_failed. rewrite (get_unique cap d r W Hr).
  destruct (Z.leb_spec cap (q_attempts r)).
  - edestruct (update_row_id cap d r) as (l1 & l2 & E & E'); [done..|].
    eexists _, l1, l2, _. split; [reflexivity|]. split; [exact E|]. split; [exact E'|]. done.
  - edestruct (update_row_id cap d r) as (l1 & l2 & E & E'); [done..|].
    eexists _, l1, l2, _. split; [reflexivity|]. split; [exact E|]. split; [exact E'|].
    split; [done|]. split; [done|]. split; [done|]. split; [apply backoff_bounds|].
    intros t ex Ht. destruct (Z.ltb_spec t (now + backoff (q_attempts r) * usec)).
    + by apply (parked_until (now + backoff (q_attempts r) * usec)).
    + intros. by apply (parked_after (now + backoff (q_attempts r) * usec)).
Qed.

(** Deferral. Completing a held row with a future [not_before] parks it: it is
    queued again under the same key, so enqueueing that key still coalesces, and no
    claim reaches it before the stamp. *)
Theorem deferral_parks now stamp at_ rel d r :
  wf cap d -> r ∈ d.(queue) -> in_range at_ = true -> now < at_ ->
  exists d' l1 l2 r',
    mark_completed now stamp (q_id r) rel (Some (iso at_)) d = d'
    /\ d.(queue) = l1 ++ r :: l2 /\ d'.(queue) = l1 ++ r' :: l2
    /\ q_state r' = Queued /\ q_attempts r' = q_attempts r /\ q_dedup_key r' = q_dedup_key r
    /\ (forall k now' src kind payload prio, q_dedup_key r = Some k -> k <> EmptyString ->
          enqueue now' src kind payload prio (Some k) d' = (Ok None, d'))
    /\ (forall t ex, in_range t = true -> t < at_ -> claimable (iso t) ex r' = false).
Proof.
  intros W Hr Ha Hlt. unfold mark_completed, deferral. rewrite iso_parse_iso by done.
  replace (now <? at_) with true by lia. rewrite iso_norm_iso by done.
  pose proof (wf_mark_completed cap now stamp (q_id r) rel (Some (iso at_)) d W) as W'.
  unfold mark_completed, deferral in W'. rewrite iso_parse_iso, iso_norm_iso in W' by done.
  replace (now <? at_) with true in W' by lia.
  edestruct (update_row_id cap d r) as (l1 & l2 & E & E'); [done..|].
  eexists _, l1, l2, _. split; [reflexivity|]. split; [exact E|]. split; [exact E'|].
  split; [done|]. split; [done|]. split; [done|]. split.
  - intros k now' src kind payload prio Hk Hne. unfold enqueue.
    replace (truthy (Some k)) with true by (by destruct k).
    match type of E' with _ = _ ++ ?x :: _ =>
      rewrite (sel1_key cap _ x k W') by (rewrite ?E'; try exact Hk; apply elem_of_app; right; by left)
    end. reflexivity.
  - intros t ex Ht Hlt'. by apply (parked_until at_).
Qed.

(** Crash recovery of the queue. The start-up sweep leaves no row in flight; every
    row that was in flight is back in the queue with its attempts kept, or poisoned if
    they had reached the ceiling; no other row is touched; and it reports how many it
    requeued. *)
Theorem recover_claimed_sweeps at_ sw mint d o d' :
  wf cap d -> recover_claimed at_ sw mint cap [] d = (o, d') ->
  (forall r, r ∈ d'.(queue) -> in_flight r = false)
  /\ Forall2 (fun r r' => if in_flight r
                          then if cap <=? q_attempts r
                               then q_state r' = Poisoned /\ q_dedup_key r' = None
                               else q_state r' = Queued /\ q_attempts r' = q_attempts r
                                    /\ q_dedup_key r' = q_dedup_key r
                          else r' = r) d.(queue) d'.(queue)
  /\ (forall n, o = Ok n ->
        n = rowcount (fun r => in_flight r && (q_attempts r <? cap)) d.(queue)).
Proof.
  intros W E. apply recover_queue in E as [F Hn]; [|done]. split; [|split].
  - intros r' Hr'. apply list_elem_of_lookup in Hr' as [i Hi].
    eapply Forall2_lookup_r in Hi as (r & Hi & Hrec); [|exact F].
    unfold recovered in Hrec. destruct (in_flight r) eqn:Ef; simpl in Hrec; [|by subst].
    case_match; [destruct Hrec as [t ->]|subst]; done.
  - eapply Forall2_impl; [exact F|]. intros r r' Hrec. unfold recovered in Hrec. simpl in Hrec.
    destruct (in_flight r); simpl in Hrec; [|done].
    destruct (cap <=? q_attempts r); [by destruct Hrec as [t ->]|by subst].
  - intros n On. rewrite (Hn n On). unfold rowcount. do 2 f_equal. apply sel_ext.
    intros r _. by rewrite andb_true_r.
Qed.

(** Crash recovery of the run log. With ids that have not been drawn before, the
    sweep raises nothing, and it appends exactly one interrupted run for each attempt
    it swept that no run accounts for yet, in order, and nothing else. *)
Theorem recover_claimed_records at_ sw mint ws d :
  1 <= cap -> wf cap d -> fresh_from mint 0 (swept ws d) d ->
  exists n d' new, recover_claimed at_ sw mint cap ws d = (Ok n, d')
    /\ d'.(runs) = d.(runs) ++ new
    /\ Forall2 interrupted_run_of (sel (fun row => owes_run row d) (swept ws d)) new.
Proof. intros. by apply recover_runs. Qed.
End Promises.

(** ** The promises on concrete rows *)

#[local] Existing Instance blank_json.

Definition flight_row (att : Z) : qrow :=
  QRow 1 "mail" "task" 30 "{}" (Some "mail:1"%string) Running att (iso t0) (Some (iso (t0 + hour)))
    (Some "worker-0"%string) None None None (Some "run-1"%string) None None.

Definition flight_db (att : Z) : db := Db [flight_row att; sample_row 2 "autocode" 55 0 t0] 2 [].

Lemma flight_db_wf att : 1 <= att <= 3 -> wf 3 (flight_db att).
Proof.
  intros Ha. split; simpl.
  - repeat (apply NoDup_cons; split; [by rewrite !list_elem_of_In; simpl; lia|]). constructor.
  - repeat constructor; simpl; lia.
  - repeat (apply NoDup_cons; split; [apply not_elem_of_nil|]). constructor.
  - repeat constructor; simpl; try lia; by eexists.
  - constructor.
Qed.

(** Enqueue, claim, run: a database the methods reach. *)
Definition run_db : db :=
  mark_running 1 (Some "run-1"%string)
    (snd (claim_next (t0 + hour) (fun _ => t0 + hour) 3 "worker-0" [] []
       (snd (enqueue t0 "mail" "task" None 30 (Some "mail:1"%string) empty_db)))).

Lemma run_db_reachable : reachable 3 run_db.
Proof.
  unfold reachable, run_db.
  eapply rtc_l; [apply step_enqueue|]. eapply rtc_l; [apply step_claim|].
  eapply rtc_l; [apply step_running|]. apply rtc_refl.
Qed.

Lemma reachable_wf_witness : reachable 3 run_db /\ wf 3 run_db.
Proof.
  split; [apply run_db_reachable|]. apply (reachable_wf 3 run_db); [lia|apply run_db_reachable].
Defined.

Lemma row_life_witness :
  exists r r', r ∈ queue run_db /\ q_state r = Running
    /\ r' ∈ queue (mark_completed (t0 + 2 * hour) (t0 + 2 * hour) 1 true None run_db) /\ q_id r' = q_id r.
Proof.
  destruct (queue run_db) as [|r t] eqn:E; [vm_compute in E; discriminate|].
  assert (r ∈ queue run_db) as Hr by (rewrite E; apply list_elem_of_here).
  assert (q_state r = Running) as Hs by (vm_compute in E; injection E as <- _; reflexivity).
  assert (rtc (qstep 3) run_db
    (mark_completed (t0 + 2 * hour) (t0 + 2 * hour) 1 true None run_db)) as S.
  { apply rtc_once, step_completed. exists r. split; [|unfold in_flight, in_state; rewrite Hs; reflexivity].
    unfold get. rewrite E. assert (is_id 1 r = true) as Hi by (vm_compute in E; injection E as <- _; reflexivity).
    unfold sel1. cbn [sel]. rewrite Hi. reflexivity. }
  destruct (row_life 3 run_db _ r ltac:(lia) run_db_reachable S Hr) as (r' & Hr' & Hi & _).
  exists r, r'. rewrite <- E. exact (conj Hr (conj Hs (conj Hr' Hi))).
Defined.

Lemma step_evolves_witness : evolution run_db (snd (recover_claimed (fun _ => t0) t0 (fun _ => EmptyString) 3 [] run_db)).
Proof. apply (step_evolves 3); [lia | apply run_db_reachable | apply step_recover]. Defined.

Lemma enqueue_dedup_witness :
  enqueue t0 "mail" "task" None 30 (Some "mail:1"%string) (flight_db 1) = (Ok None, flight_db 1).
Proof. exact (enqueue_dedup 3 t0 "mail" "task" None 30 "mail:1" (flight_db 1) (flight_db_wf 1 ltac:(lia)) ltac:(discriminate)). Defined.

Lemma mark_failed_spec_witness :
  exists l1 l2 r', queue (snd (mark_failed (t0 + 2 * hour) 3 1 [] None (flight_db 2))) = l1 ++ r' :: l2
    /\ q_state r' = Queued /\ q_attempts r' = 2
    /\ claimable (iso (t0 + 2 * hour + 59 * usec)) [] r' = false
    /\ claimable (iso (t0 + 2 * hour + 60 * usec)) [] r' = true.
Proof.
  destruct (mark_failed_spec (H:=iso_stamps) 3 (t0 + 2 * hour) [] (flight_db 2) (flight_row 2)
    (flight_db_wf 2 ltac:(lia)) (list_elem_of_here _ _) eq_refl ltac:(vm_compute; reflexivity) ltac:(vm_compute; reflexivity))
    as (d' & l1 & l2 & r' & E & _ & Q & Hs & Ha & _ & _ & Hc).
  exists l1, l2, r'. rewrite <- E in Q. split; [exact Q|]. split; [exact Hs|]. split; [exact Ha|].
  split; [exact (Hc (t0 + 2 * hour + 59 * usec) [] ltac:(vm_compute; reflexivity))|].
  exact (Hc (t0 + 2 * hour + 60 * usec) [] ltac:(vm_compute; reflexivity) (not_elem_of_nil _)).
Defined.

Lemma deferral_parks_witness :
  exists d', mark_completed (t0 + hour) (t0 + hour) 1 true (Some (iso (t0 + 3 * hour))) (flight_db 2) = d'
    /\ enqueue t0 "mail" "task" None 30 (Some "mail:1"%string) d' = (Ok None, d').
Proof.
  destruct (deferral_parks (H:=iso_stamps) 3 (t0 + hour) (t0 + hour) (t0 + 3 * hour) true (flight_db 2) (flight_row 2)
    (flight_db_wf 2 ltac:(lia)) (list_elem_of_here _ _) ltac:(vm_compute; reflexivity) ltac:(vm_compute; reflexivity))
    as (d' & l1 & l2 & r' & E & _ & _ & _ & _ & _ & He & _).
  exists d'. split; [exact E|]. apply He; [reflexivity|discriminate].
Defined.

Lemma recover_claimed_sweeps_witness :
  exists o d', recover_claimed (fun _ => t0) (t0 + 5 * hour) (fun _ => "run-2"%string) 3 [] (flight_db 3) = (o, d')
    /\ forall r, r ∈ queue d' -> in_flight r = false.
Proof.
  destruct (recover_claimed (fun _ => t0) (t0 + 5 * hour) (fun _ => "run-2"%string) 3 [] (flight_db 3)) as [o d'] eqn:E.
  exists o, d'. split; [first [exact E|reflexivity]|].
  exact (proj1 (recover_claimed_sweeps 3 _ _ _ _ _ _ (flight_db_wf 3 ltac:(lia)) E)).
Defined.

(** Run ids [m], [mm], [mmm], ... *)
Fixpoint tally (k : nat) : string := match k with O => "m"%string | S k => ("m" ++ tally k)%string end.

Lemma tally_length k : String.length (tally k) = S k.
Proof.
  induction k as [|k IH]; [done|].
  change (S (String.length (tally k)) = S (S k)). by rewrite IH.
Qed.

Lemma tally_inj i j : tally i = tally j -> i = j.
Proof. intros E. apply (f_equal String.length) in E. rewrite !tally_length in E. by injection E. Qed.

Lemma tally_fresh : fresh_from tally 0 (swept [] (flight_db 2)) (flight_db 2).
Proof.
  intros j _. split; [apply not_elem_of_nil|]. split; [|intros; by apply tally_inj].
  intros row Hrow. apply swept_elem in Hrow as [[->|[->|Hrow%elem_of_nil]%elem_of_cons]%elem_of_cons _]; simpl;
    [|done|done]. intros [= E]. by destruct j.
Qed.

Lemma recover_claimed_records_witness :
  exists n d' r, recover_claimed (fun _ => t0) (t0 + 5 * hour) tally 3 [] (flight_db 2) = (Ok n, d')
    /\ runs d' = [r] /\ r_queue_id r = Some 1 /\ r_status r = "interrupted"%string.
Proof.
  destruct (recover_claimed_records 3 (fun _ => t0) (t0 + 5 * hour) tally [] (flight_db 2) ltac:(lia)
    (flight_db_wf 2 ltac:(lia)) tally_fresh) as (n & d' & new & E & R & F).
  exists n, d'. assert (sel (fun row => owes_run row (flight_db 2)) (swept [] (flight_db 2)) = [flight_row 2])
    as Es by (vm_compute; reflexivity).
  rewrite Es in F. apply Forall2_cons_inv_l in F as (r & l & (Hq & Hst & _) & F & ->).
  apply Forall2_nil_inv_l in F as ->. exists r. exact (conj E (conj R (conj Hq Hst))).
Defined.

(** ** The sweep is not one transaction

    The connection autocommits, so a run id that collides - here one the caller mints
    twice - leaves the rows requeued and their runs unwritten. *)
Lemma recover_not_atomic :
  exists d', recover_claimed (fun _ => t0) t0 (fun _ => "x"%string) 3 []
      (Db [flight_row 1] 1 [Run "x" None "mail" None "ok" "" "" 0 [] "" [] None None None;
                            Run "run-1" None "mail" None "ok" "" "" 0 [] "" [] None None None])
    = (Raise IntegrityError, d')
  /\ length (runs d') = 2%nat /\ map q_state (queue d') = [Queued].
Proof. eexists. vm_compute. repeat split. Qed.
