(* ===== verification/QueueJournal.v ===== *)
(** * The worker queue: inspection, watermarks and the two hold journals

    The reads of [workers/queue.py] that the status endpoints and the watchdog use,
    the watermark store, the operator-hold history ([pause_journal]) and the claim-gate
    history ([hold_journal]) with the rule that pairs a closing row with an opening one. *)
From Stdlib Require Import String.
From S2P Require Import Prelude PyText Stamps QueueRows QueueOps.

Local Open Scope Z_scope.

(** ** Inspection *)

(** An [ORDER BY key DESC]: insertion before the first strictly smaller key keeps
    rows of one key in table order. *)
Fixpoint insert_desc {R} (key : R -> string) (r : R) (t : list R) : list R :=
  match t with
  | [] => [r]
  | x :: t => if slt (key x) (key r) then r :: x :: t else x :: insert_desc key r t
  end.

Definition order_desc {R} (key : R -> string) (t : list R) : list R :=
  fold_left (fun acc r => insert_desc key r acc) t [].

(** SQLite's [LIMIT]: a negative one is no limit. *)
Definition limit {R} (n : Z) (t : list R) : list R := if n <? 0 then t else take (Z.to_nat n) t.

(** [if state:] and the like: no filter for [None] and for the empty string. *)
Definition filter_on (f : option string) (v : string) : bool :=
  if truthy f then bool_decide (f = Some v) else true.

Definition state_text (s : qstate) : string :=
  match s with
  | Queued => "queued" | Claimed => "claimed" | Running => "running"
  | Completed => "completed" | Poisoned => "poisoned" | Quarantined => "quarantined"
  end.

Definition list_items (state source : option string) (n : Z) (d : db) : list qrow :=
  limit n (order_desc q_enqueued_at
    (sel (fun r => filter_on state (state_text r.(q_state)) && filter_on source r.(q_source)) d.(queue))).

Definition list_runs (source task_id : option string) (n : Z) (d : db) : list run :=
  limit n (order_desc r_completed_at
    (sel (fun r => filter_on source r.(r_source)
                   && (if truthy task_id then bool_decide (r.(r_task_id) = task_id) else true)) d.(runs))).

Definition depth (source : string) (s : qstate) (d : db) : Z :=
  rowcount (fun r => bool_decide (r.(q_source) = source) && in_state s r) d.(queue).

Definition depth_by_source (d : db) : list (string * list (qstate * Z)) :=
  let states := [Queued; Claimed; Running; Completed; Poisoned; Quarantined] in
  map (fun src => (src, omap (fun s => let n := depth src s d in
                                       if 0 <? n then Some (s, n) else None) states))
    (remove_dups (map q_source d.(queue))).

(** [claims_by_source]: grouped, busiest first, then by name. *)
Definition claim_count (since : string) (source : string) (d : db) : Z :=
  rowcount (fun r => bool_decide (r.(q_source) = source)
                     && match r.(q_claimed_at) with Some c => sle since c | None => false end) d.(queue).

Definition busier (a b : string * Z) : bool :=
  (b.2 <? a.2) || (a.2 =? b.2) && sle a.1 b.1.

Fixpoint insert_busy (x : string * Z) (t : list (string * Z)) : list (string * Z) :=
  match t with
  | [] => [x]
  | y :: t => if busier x y then x :: y :: t else y :: insert_busy x t
  end.

Definition claims_by_source (since : string) (exclude : option string) (d : db) : list (string * Z) :=
  foldr insert_busy []
    (omap (fun src => let n := claim_count since src d in
                      if (0 <? n) && negb (bool_decide (exclude = Some src)) then Some (src, n) else None)
       (remove_dups (map q_source d.(queue)))).

(** [SELECT MIN(completed_at)]: no row and an empty stamp both answer [None]. *)
Definition oldest_run_completed_at (source : option string) (d : db) : option string :=
  match min_by sle (map r_completed_at
          (sel (fun r => match source with
                         | None => true
                         | Some s => bool_decide (r.(r_source) = s)
                         end) d.(runs))) with
  | Some EmptyString | None => None
  | Some s => Some s
  end.

(** [list_runs_joined]: each run with the payload of its queue row, when it has one. *)
Definition list_runs_joined (source since : string) (n : Z) (d : db) : list (run * option string) :=
  map (fun r => (r, q_payload_json <$> (r.(r_queue_id) ≫= fun i => get i d)))
    (limit n (order_desc r_completed_at
       (sel (fun r => bool_decide (r.(r_source) = source) && sle since r.(r_completed_at)) d.(runs)))).

(** [pending_wait_by_source], in microseconds; [round3] is Python's [round(x, 3)]. *)
Definition PENDING_WAIT_BOUND_SECONDS : Z := 3600.

Record wait_entry := Wait {
  max_wait : Z; over_bound : Z; held_max_wait : Z; held_over_bound : Z
}.
Definition zero_wait : wait_entry := Wait 0 0 0 0.

(** Whether the retry backoff still parks the row. *)
Definition parked `{IsoStamps} (now : Z) (r : qrow) : bool :=
  match r.(q_not_before) ≫= iso_parse with
  | Some p => now <? p
  | None => false
  end.

Definition count_wait (round3 : Z -> Z) (bound : Z) (is_held : bool) (wait : Z) (e : wait_entry) : wait_entry :=
  let longer m := if m <? wait then round3 wait else m in
  let over n := if bound * usec <? wait then n + 1 else n in
  if is_held then Wait e.(max_wait) e.(over_bound) (longer e.(held_max_wait)) (over e.(held_over_bound))
  else Wait (longer e.(max_wait)) (over e.(over_bound)) e.(held_max_wait) e.(held_over_bound).

Definition count_row `{IsoStamps} (round3 : Z -> Z) (now bound : Z) (held_sources : list string)
    (out : gmap string wait_entry) (r : qrow) : gmap string wait_entry :=
  let entry := default zero_wait (out !! r.(q_source)) in
  let out := <[r.(q_source) := entry]> out in
  match iso_parse r.(q_enqueued_at) with
  | None => out
  | Some enqueued =>
      if parked now r then out
      else <[r.(q_source) := count_wait round3 bound (bool_decide (r.(q_source) ∈ held_sources))
                               (now - enqueued) entry]> out
  end.

Definition pending_wait_by_source `{IsoStamps} (round3 : Z -> Z) (now bound : Z)
    (held_sources : list string) (d : db) : gmap string wait_entry :=
  fold_left (count_row round3 now bound held_sources) (sel (in_state Queued) d.(queue)) ∅.

(** [configured_max_attempts] on a readable config. *)
Definition configured_max_attempts (raw : option Z) : Z :=
  match raw with None => DEFAULT_MAX_ATTEMPTS | Some n => Z.max 1 n end.

(** ** Watermarks: keyed on (source, key), the value and when it was written *)

Definition watermarks := gmap (string * string) (string * string).

Definition wm_get (source key : string) (w : watermarks) : option string := fst <$> w !! (source, key).
Definition wm_updated_at (source key : string) (w : watermarks) : option string := snd <$> w !! (source, key).
Definition wm_set `{IsoStamps} (now : Z) (source key value : string) (w : watermarks) : watermarks :=
  <[(source, key) := (value, iso now)]> w.
Definition wm_delete (source key : string) (w : watermarks) : watermarks := delete (source, key) w.
(** No [ORDER BY]: the keys as a set. *)
Definition wm_keys (source : string) (w : watermarks) : gset string :=
  list_to_set (omap (fun '((s, k), _) => if bool_decide (s = source) then Some k else None) (map_to_list w)).
Definition wm_all (source : string) (w : watermarks) : gmap string string :=
  list_to_map (omap (fun '((s, k), (v, _)) => if bool_decide (s = source) then Some (k, v) else None)
                 (map_to_list w)).

(** ** Journals *)

(** A row of either journal; [pause_journal] has no gate. *)
Record jrow := JRow {
  j_id : Z;
  j_at : string;
  j_gate : string;
  j_value : string;
  j_who : option (list string);   (** holder kind and actor, or the held sources *)
  j_detail : option string;
  j_hold_id : option Z
}.

Record journal := Journal { j_rows : list jrow; j_seq : Z }.

(** The row a closing row is paired with: the newest opening one of its gate that no
    row points at. [ORDER BY id DESC LIMIT 1] over ids in table order is the last. *)
Definition closed_by (t : list jrow) (r : jrow) : bool :=
  existsb (fun x => bool_decide (x.(j_hold_id) = Some r.(j_id))) t.

Definition open_row (opening : string) (gate : string) (t : list jrow) (r : jrow) : bool :=
  bool_decide (r.(j_value) = opening) && bool_decide (r.(j_gate) = gate) && negb (closed_by t r).

Definition newest_open (opening gate : string) (t : list jrow) : option Z :=
  j_id <$> list.last (sel (open_row opening gate t) t).

Section Journals.
Context `{IsoStamps}.

Definition append_row (at_ gate value : string) (who : option (list string)) (detail : option string)
    (hold_id : option Z) (j : journal) : journal :=
  Journal (j.(j_rows) ++ [JRow (j.(j_seq) + 1) at_ gate value who detail hold_id]) (j.(j_seq) + 1).

(** [at or _now_iso()]. *)
Definition stamp_or_now (now : Z) (at_ : option string) : string :=
  if truthy at_ then default EmptyString at_ else iso now.

Definition pause_journal_append (now : Z) (value holder_kind actor : string) (at_ : option string)
    (j : journal) : Z * journal :=
  let hold_id := if bool_decide (value = "0"%string) then newest_open "1" EmptyString j.(j_rows) else None in
  (j.(j_seq) + 1,
   append_row (stamp_or_now now at_) EmptyString value (Some [holder_kind; actor]) None hold_id j).

Record hold := Hold {
  hold_of : Z; started_at : string; ended_at : option string; duration_us : option Z;
  hold_who : option (list string)
}.

Definition in_window (after before : option string) (at_ : string) : bool :=
  match after with None => true | Some a => sle a at_ end
  && match before with None => true | Some b => sle at_ b end.

(** The lifts the LEFT JOIN attaches to a take: one output row each, or one without. *)
Definition lifts_of (t : list jrow) (r : jrow) : list jrow :=
  sel (fun l => bool_decide (l.(j_hold_id) = Some r.(j_id)) && bool_decide (l.(j_value) = "0"%string)) t.

Definition hold_of_take (r : jrow) (l : option jrow) : hold :=
  let ended := j_at <$> l in
  Hold r.(j_id) r.(j_at) ended
    (match iso_parse r.(j_at), ended ≫= iso_parse with
     | Some s, Some e => Some (e - s)
     | _, _ => None
     end) r.(j_who).

Definition takes (after before : option string) (t : list jrow) : list jrow :=
  sel (fun r => bool_decide (r.(j_value) = "1"%string) && in_window after before r.(j_at)) t.

Definition holds_of_take (t : list jrow) (r : jrow) : list hold :=
  match lifts_of t r with
  | [] => [hold_of_take r None]
  | ls => map (fun l => hold_of_take r (Some l)) ls
  end.

Definition pause_journal_holds (after before : option string) (j : journal) : list hold :=
  concat (map (holds_of_take j.(j_rows)) (takes after before j.(j_rows))).

Definition HOLD_JOURNAL_MAX_AGE_DAYS : Z := 30.

Definition hold_journal_append (now now' : Z) (gate value : string) (held_sources : option (list string))
    (detail : string) (at_ : option string) (j : journal) : Z * journal :=
  let cutoff := iso (now' - HOLD_JOURNAL_MAX_AGE_DAYS * 86400 * usec) in
  let hold_id := if bool_decide (value = "release"%string) then newest_open "engage" gate j.(j_rows) else None in
  let j1 := append_row (stamp_or_now now at_) gate value held_sources
              (if truthy (Some detail) then Some detail else None) hold_id j in
  (j.(j_seq) + 1, Journal (sel (fun r => negb (slt r.(j_at) cutoff)) j1.(j_rows)) j1.(j_seq)).

(** A window row with its [open] flag. *)
Definition hold_journal_window (since : string) (gate : option string) (j : journal) : list (jrow * bool) :=
  map (fun h => (h, bool_decide (h.(j_value) = "engage"%string) && negb (closed_by j.(j_rows) h)))
    (sel (fun h => sle since h.(j_at)
                   && match gate with None => true | Some g => bool_decide (h.(j_gate) = g) end) j.(j_rows)).
End Journals.

(** ** The pairing invariant *)

(** Ids are unique and drawn in order, no two rows close the same one, and a closing
    row comes after the row it closes, which is an opening one of its own gate. *)
Record paired (opening : string) (j : journal) : Prop := {
  pr_ids : NoDup (map j_id j.(j_rows));
  pr_seq : forall r, r ∈ j.(j_rows) -> j_id r <= j.(j_seq);
  pr_once : NoDup (omap j_hold_id j.(j_rows));
  pr_later : forall x i, x ∈ j.(j_rows) -> j_hold_id x = Some i -> i < j_id x;
  pr_opens : forall x r, x ∈ j.(j_rows) -> r ∈ j.(j_rows) -> j_hold_id x = Some (j_id r) ->
               j_value r = opening /\ j_gate r = j_gate x /\ j_value x <> opening
}.

Definition empty_journal : journal := Journal [] 0.

Lemma paired_empty opening : paired opening empty_journal.
Proof. split; simpl; try constructor; set_solver. Qed.

Lemma closed_by_spec t r : closed_by t r = true <-> exists x, x ∈ t /\ j_hold_id x = Some (j_id r).
Proof.
  unfold closed_by. rewrite existsb_exists. split; intros (x & Hx & E); exists x.
  - bool_simp. split; [by apply list_elem_of_In|done].
  - split; [by apply list_elem_of_In|by apply bool_decide_true].
Qed.

Lemma last_sel_elem {R} (p : R -> bool) t r : list.last (sel p t) = Some r -> r ∈ t /\ p r = true.
Proof. intros E%list.last_Some_elem_of. by apply elem_of_sel in E. Qed.

Lemma newest_open_spec opening gate t i :
  newest_open opening gate t = Some i ->
  exists r, r ∈ t /\ j_id r = i /\ j_value r = opening /\ j_gate r = gate
    /\ (forall x, x ∈ t -> j_hold_id x <> Some i).
Proof.
  unfold newest_open. rewrite fmap_Some. intros (r & [Hr Ho]%last_sel_elem & ->). exists r.
  unfold open_row in Ho. bool_simp. repeat split; try done. intros x Hx E.
  assert (closed_by t r = true) by (apply closed_by_spec; eauto). congruence.
Qed.

Lemma omap_app_one {A B} (f : A -> option B) l x :
  omap f (l ++ [x]) = omap f l ++ match f x with Some y => [y] | None => [] end.
Proof. rewrite omap_app. simpl. by destruct (f x). Qed.

(** Appending an opening row, or a closing row paired by the rule. *)
Lemma paired_append opening at_ gate value who detail j :
  paired opening j ->
  forall hold_id, (forall i, hold_id = Some i -> value <> opening /\ newest_open opening gate j.(j_rows) = Some i) ->
  paired opening (append_row at_ gate value who detail hold_id j).
Proof.
  intros [P1 P2 P3 P4 P5] hid Hh.
  assert (forall i, hid = Some i -> i <= j_seq j /\ (forall x, x ∈ j_rows j -> j_hold_id x <> Some i)) as Hopen.
  { intros i Hi. destruct (Hh i Hi) as [_ (r & Hr & <- & _ & _ & Hx)%newest_open_spec]. auto. }
  unfold append_row. split; cbn [j_rows j_seq].
  - rewrite map_app. apply NoDup_app. split; [done|]. split; [|apply NoDup_singleton].
    intros x Hx Hx'. apply list_elem_of_singleton in Hx'. simpl in Hx'.
    apply list_elem_of_fmap in Hx as (r & -> & Hr). specialize (P2 r Hr). lia.
  - intros r [Hr|Hr]%elem_of_app; [specialize (P2 r Hr); lia|].
    apply list_elem_of_singleton in Hr as ->. simpl. lia.
  - rewrite omap_app_one. simpl. destruct hid as [i|]; [|by rewrite app_nil_r].
    apply NoDup_app. split; [done|]. split; [|apply NoDup_singleton].
    intros x Hx Hx'. apply list_elem_of_singleton in Hx' as ->.
    apply list_elem_of_omap in Hx as (r & Hr & E). by destruct (Hopen i eq_refl) as [_ Ho]; destruct (Ho r Hr).
  - intros x i [Hx|Hx]%elem_of_app E; [by eapply P4|].
    apply list_elem_of_singleton in Hx as ->. simpl in *. destruct (Hopen i E). lia.
  - intros x r [Hx|Hx]%elem_of_app [Hr|Hr]%elem_of_app E.
    + eauto.
    + apply list_elem_of_singleton in Hr as ->. simpl in *. specialize (P4 x _ Hx E). specialize (P2 x Hx). lia.
    + apply list_elem_of_singleton in Hx as ->. simpl in *.
      destruct (Hh _ E) as [Hv (r' & Hr' & Ei & Hval & Hg & _)%newest_open_spec].
      assert (r' = r) as ->; [|done].
      apply list_elem_of_lookup in Hr as [a Ha]. apply list_elem_of_lookup in Hr' as [b Hb].
      assert (a = b) as ->; [|congruence].
      eapply (NoDup_lookup (map j_id (j_rows j)) a b (j_id r)); [done| |];
        change (map j_id (j_rows j)) with (j_id <$> j_rows j); rewrite list_lookup_fmap; [by rewrite Ha|by rewrite Hb, <- Ei].
    + apply list_elem_of_singleton in Hx as ->. apply list_elem_of_singleton in Hr as ->. simpl in *.
      destruct (Hopen _ E). lia.
Qed.

(** Deleting rows keeps every pair that is left well formed. *)
Lemma paired_prune opening p j : paired opening j -> paired opening (Journal (sel p j.(j_rows)) j.(j_seq)).
Proof.
  intros [P1 P2 P3 P4 P5]. split; cbn [j_rows j_seq].
  - eapply sublist_NoDup; [exact P1|]. apply sublist_map, sublist_sel.
  - intros r [Hr _]%elem_of_sel. auto.
  - eapply sublist_NoDup; [exact P3|]. clear. induction (j_rows j) as [|a t IH]; simpl; [done|].
    destruct (p a); simpl; destruct (j_hold_id a); by try constructor; apply IH.
  - intros x i [Hx _]%elem_of_sel. by apply P4.
  - intros x r [Hx _]%elem_of_sel [Hr _]%elem_of_sel. by apply P5.
Qed.

Section JournalPromises.
Context `{IsoStamps}.

Lemma paired_pause now value kind actor at_ j :
  paired "1" j -> paired "1" (snd (pause_journal_append now value kind actor at_ j)).
Proof.
  intros P. apply paired_append; [done|]. intros i Hi. case_bool_decide as Hv; [|done].
  rewrite Hv. split; [discriminate|]. unfold newest_open in *. rewrite <- Hi. done.
Qed.

Lemma paired_hold now now' gate value held detail at_ j :
  paired "engage" j -> paired "engage" (snd (hold_journal_append now now' gate value held detail at_ j)).
Proof.
  intros P. unfold hold_journal_append.
  assert (paired "engage" (append_row (stamp_or_now now at_) gate value held
      (if truthy (Some detail) then Some detail else None)
      (if bool_decide (value = "release"%string) then newest_open "engage" gate (j_rows j) else None) j)) as P1.
  { apply paired_append; [done|]. intros i Hi. case_bool_decide as Hv; [|done]. by rewrite Hv. }
  exact (paired_prune _ (fun r => negb (slt (j_at r) _)) _ P1).
Qed.

(** The transitions a process appended, oldest first. *)
Definition pause_log (ops : list (Z * string * string * string * option string)) : journal :=
  fold_left (fun j '(now, value, kind, actor, at_) => snd (pause_journal_append now value kind actor at_ j))
    ops empty_journal.

Definition hold_log (ops : list (Z * Z * string * string * option (list string) * string * option string)) : journal :=
  fold_left (fun j '(now, now', gate, value, held, detail, at_) =>
               snd (hold_journal_append now now' gate value held detail at_ j)) ops empty_journal.

Lemma fold_left_inv {A B} (f : A -> B -> A) (P : A -> Prop) l a :
  (forall a b, P a -> P (f a b)) -> P a -> P (fold_left f l a).
Proof. intros Hf. revert a. induction l; simpl; auto. Qed.

Lemma pause_log_paired ops : paired "1" (pause_log ops).
Proof.
  apply (fold_left_inv _ (paired "1")); [|apply paired_empty]. intros j [[[[now v] k] a] at_] P. by apply paired_pause.
Qed.

Lemma hold_log_paired ops : paired "engage" (hold_log ops).
Proof.
  apply (fold_left_inv _ (paired "engage")); [|apply paired_empty]. intros j [[[[[[now now'] g] v] h] dt] at_] P. by apply paired_hold.
Qed.

(** At most one lift points at a take. *)
Lemma lifts_once opening j r : paired opening j -> (length (lifts_of j.(j_rows) r) <= 1)%nat.
Proof.
  intros [_ _ P _ _]. unfold lifts_of. induction (j_rows j) as [|x t IH]; simpl; [lia|]. simpl in P.
  case_bool_decide as E; simpl.
  - rewrite E in P. apply NoDup_cons in P as [Hn P].
    assert (sel (fun l => bool_decide (j_hold_id l = Some (j_id r)) && bool_decide (j_value l = "0"%string)) t = []) as ->.
    { apply sel_nil_iff. intros y Hy. apply andb_false_iff. left. apply bool_decide_false. intros Ey.
      apply Hn, list_elem_of_omap. eauto. }
    case_match; simpl; lia.
  - apply IH. destruct (j_hold_id x); [by apply NoDup_cons in P as [_ P]|done].
Qed.

(** The hold history counts each hold once. Whatever transitions have been
    appended - lifts without a take, takes without a lift, any order - the history
    answers with exactly one entry per take in the window, in order. *)
Theorem pause_journal_counts_once ops after before :
  map hold_of (pause_journal_holds after before (pause_log ops))
  = map j_id (takes after before (j_rows (pause_log ops))).
Proof.
  pose proof (pause_log_paired ops) as P. unfold pause_journal_holds.
  set (j := pause_log ops) in *. induction (takes after before (j_rows j)) as [|r t IH]; [done|].
  cbn [map concat]. rewrite map_app, IH. unfold holds_of_take. pose proof (lifts_once _ j r P) as Hl.
  destruct (lifts_of (j_rows j) r) as [|l [|]]; simpl in *; [done|done|lia].
Qed.

(** A release closes its own gate. In a history built by appends, a release that
    is paired names an engagement of the same gate, older than itself, and no other
    row of the history closes that engagement. *)
Theorem hold_journal_pairs_gate ops x r :
  x ∈ j_rows (hold_log ops) -> r ∈ j_rows (hold_log ops) -> j_hold_id x = Some (j_id r) ->
  j_value r = "engage"%string /\ j_gate r = j_gate x /\ j_id r < j_id x
  /\ (forall y, y ∈ j_rows (hold_log ops) -> j_hold_id y = Some (j_id r) -> y = x).
Proof.
  intros Hx Hr E. destruct (hold_log_paired ops) as [P1 _ P3 P4 P5].
  destruct (P5 x r Hx Hr E) as (? & ? & _). repeat split; try done; [by eapply P4|].
  intros y Hy Ey. apply list_elem_of_lookup in Hx as [a Ha]. apply list_elem_of_lookup in Hy as [b Hb].
  clear -P3 Ha Hb E Ey. revert a b Ha Hb P3. induction (j_rows (hold_log ops)) as [|z t IH]; [done|].
  assert (forall w i, t !! i = Some w -> j_hold_id w = Some (j_id r) -> j_id r ∈ omap j_hold_id t) as Hmem.
  { intros w i Hw Ew. apply list_elem_of_omap. exists w. split; [by eapply list_elem_of_lookup_2|done]. }
  intros [|a] [|b] Ha Hb P3; simpl in *; simplify_eq; [done| | |].
  - rewrite E in P3. apply NoDup_cons in P3 as [Hn _]. by destruct Hn; eapply Hmem.
  - rewrite Ey in P3. apply NoDup_cons in P3 as [Hn _]. by destruct Hn; eapply Hmem.
  - eapply IH; eauto. destruct (j_hold_id z); [by apply NoDup_cons in P3 as [_ P3]|done].
Qed.

(** Pruning is bounded: nothing older than the horizon is left behind. *)
Lemma hold_journal_bounded now now' gate value held detail at_ j r :
  r ∈ j_rows (snd (hold_journal_append now now' gate value held detail at_ j)) ->
  slt (j_at r) (iso (now' - HOLD_JOURNAL_MAX_AGE_DAYS * 86400 * usec)) = false.
Proof. simpl. rewrite elem_of_sel. intros [_ Hb]. by bool_simp. Qed.
End JournalPromises.

Lemma hold_journal_pairs_gate_witness :
  exists x r, x ∈ j_rows (hold_log [(0, 0, "kv_gate", "engage", None, "", None);
                                    (1, 1, "round_hold", "engage", None, "", None);
                                    (2, 2, "kv_gate", "release", None, "", None)]%string)
    /\ j_hold_id x = Some (j_id r) /\ j_gate r = j_gate x.
Proof.
  set (ops := [(0, 0, "kv_gate", "engage", None, "", None); (1, 1, "round_hold", "engage", None, "", None);
               (2, 2, "kv_gate", "release", None, "", None)]%string).
  destruct (j_rows (hold_log ops)) as [|r [|y [|x [|]]]] eqn:E; try (vm_compute in E; discriminate).
  assert (x ∈ j_rows (hold_log ops)) as Hx by (rewrite E; apply list_elem_of_In; simpl; tauto).
  assert (r ∈ j_rows (hold_log ops)) as Hr by (rewrite E; apply list_elem_of_here).
  assert (j_hold_id x = Some (j_id r)) as Hh by (vm_compute in E; injection E as <- <- <-; reflexivity).
  exists x, r. rewrite <- E. split; [exact Hx|]. split; [exact Hh|].
  exact (proj1 (proj2 (hold_journal_pairs_gate ops x r Hx Hr Hh))).
Defined.
