(* ===== verification/Messages.v ===== *)
(** * Conversations: messages, token accounting, turns and truncation

    [app/compaction.py]: the rows of a session that go to the model, the estimate of
    their size, their grouping into turns, and the drop-oldest truncation. *)
From Stdlib Require Import String.
From S2P Require Import Prelude PyText QueueRows.

Local Open Scope Z_scope.

(** ** Messages *)

(** An item of the list a [tool_result] block may hold. *)
Inductive result_item := RText (t : text) | RObj (j : json) | RSkip.

(** A content block: the dict shapes the code tells apart by ["type"], a bare string,
    and anything else with its [str()]. *)
Inductive block :=
| BStr (t : text)
| BText (t : text)
| BToolUse (name : text) (input : json)
| BResult (t : text)
| BResults (items : list result_item)
| BThinking (t : text)
| BImage
| BOther (j : json)
| BRaw (shown : text).

Inductive content :=
| CStr (t : text)
| CBlocks (bs : list block)
| COther (shown : text).

(** A call: its [id] and [call_id], and the name and arguments it gives under
    ["function"] or, in the flat shape, beside them. *)
Record tool_call := ToolCall {
  tc_id : text;
  tc_call_id : text;
  tc_fn_name : text;
  tc_fn_args : option json;
  tc_top_name : text;
  tc_top_args : json;
  tc_rest : json
}.

(** [tc.get("id") or tc.get("call_id")], [fn.get("name") or tc.get("name") or ""] and
    [fn.get("arguments", tc.get("arguments"))]. *)
Definition tc_key (tc : tool_call) : text := match tc.(tc_id) with [] => tc.(tc_call_id) | k => k end.
Definition tc_name (tc : tool_call) : text := match tc.(tc_fn_name) with [] => tc.(tc_top_name) | n => n end.
Definition tc_args (tc : tool_call) : json := default tc.(tc_top_args) tc.(tc_fn_args).
Definition set_fn_args (v : json) (tc : tool_call) : tool_call :=
  ToolCall tc.(tc_id) tc.(tc_call_id) tc.(tc_fn_name) (Some v) tc.(tc_top_name) tc.(tc_top_args) tc.(tc_rest).

Record image_ref := ImageRef { img_ref : json; img_evicted : bool }.

Record message := Msg {
  m_id : option text;
  m_role : string;
  m_content : content;
  m_turn_id : option text;         (** a [turn_id] that is a string *)
  m_tool_calls : list tool_call;
  m_call_id : text;                (** [tool_call_id or call_id or ""] *)
  m_reasoning : option text;
  m_image_refs : nat;              (** how many screenshots ride on the message *)
  m_images : option (list image_ref);
  m_rest : json                    (** every other field, carried along *)
}.

Definition set_content (c : content) (m : message) : message :=
  Msg m.(m_id) m.(m_role) c m.(m_turn_id) m.(m_tool_calls) m.(m_call_id) m.(m_reasoning)
      m.(m_image_refs) m.(m_images) m.(m_rest).
Definition set_tool_calls (tcs : list tool_call) (m : message) : message :=
  Msg m.(m_id) m.(m_role) m.(m_content) m.(m_turn_id) tcs m.(m_call_id) m.(m_reasoning)
      m.(m_image_refs) m.(m_images) m.(m_rest).
Definition set_images (refs : nat) (imgs : option (list image_ref)) (m : message) : message :=
  Msg m.(m_id) m.(m_role) m.(m_content) m.(m_turn_id) m.(m_tool_calls) m.(m_call_id) m.(m_reasoning)
      refs imgs m.(m_rest).

(** A row the code itself writes: a role and one text block. *)
Definition text_row (role : string) (t : text) : message :=
  Msg None role (CBlocks [BText t]) None [] [] None 0 None JNull.

(** ** Which rows are history *)

Definition CONVERSATION_ROLES : list string := ["user"; "assistant"; "tool"; "system"]%string.
Definition SENT_ROLES : list string := ["user"; "assistant"; "tool"]%string.
Definition FLUSH_TURN_PREFIX : text := u "mflush-".

Definition is_flush_row (m : message) : bool :=
  match m.(m_turn_id) with Some tid => startswith FLUSH_TURN_PREFIX tid | None => false end.

Definition is_history_row (m : message) : bool :=
  bool_decide (m.(m_role) ∈ CONVERSATION_ROLES) && negb (is_flush_row m).

(** ** Token accounting *)

Definition TOKENS_PER_CHAR : Z := 4.
Definition OUTPUT_TOKENS_RESERVED : Z := 20000.
Definition TRUNCATION_BUFFER_TOKENS : Z := 32000.
Definition DEFAULT_CONTEXT_WINDOW : Z := 128000.
Definition TURNS_TO_KEEP : Z := 20.

Definition estimate_tokens (t : text) : Z :=
  match t with [] => 0 | _ => Z.max 1 (len t / TOKENS_PER_CHAR) end.

Section Accounting.
Context `{JsonText}.
(** The per-image estimate [tool_images.image_token_estimate] reads from the config. *)
Variable image_tokens : Z.

Definition block_parts (b : block) : list text :=
  match b with
  | BStr t | BText t | BRaw t => [t]
  | BToolUse name input => [u "[tool_call: " ++ name ++ u "(" ++ utf8 (dumps_ascii input) ++ u ")]"]
  | BResult t => [u "[tool_result: " ++ t ++ u "]"]
  | BResults items =>
      omap (fun i => match i with
                     | RText t => Some (u "[tool_result: " ++ t ++ u "]")
                     | RObj j => Some (u "[tool_result: " ++ utf8 (dumps_ascii j) ++ u "]")
                     | RSkip => None
                     end) items
  | BThinking t => [u "[thinking: " ++ t ++ u "]"]
  | BImage => [u "[image]"]
  | BOther j => [utf8 (dumps_ascii j)]
  end.

Definition nonempty (t : text) : bool := match t with [] => false | _ => true end.

(** [_message_text]. *)
Definition message_text (m : message) : text :=
  match m.(m_content) with
  | CStr t | COther t => t
  | CBlocks bs => join nl (sel nonempty (concat (map block_parts bs)))
  end.

Definition estimate_message_tokens (m : message) : Z :=
  let t := message_text m in
  let t := match m.(m_reasoning) with
           | Some (c :: r) => t ++ nl ++ u "[thinking: " ++ (c :: r) ++ u "]"
           | _ => t
           end in
  estimate_tokens t + image_tokens * Z.of_nat m.(m_image_refs).

Definition sum_tokens (ms : list message) : Z := foldr (fun m n => estimate_message_tokens m + n) 0 ms.

Definition estimate_conversation_tokens (ms : list message) (system_prompt : text) : Z :=
  estimate_tokens system_prompt + sum_tokens ms.

(** [get_context_window] on the model's configured [context_length]. *)
Definition get_context_window (ctx : option Z) : Z :=
  match ctx with Some c => if 0 <? c then c else DEFAULT_CONTEXT_WINDOW | None => DEFAULT_CONTEXT_WINDOW end.

Definition truncation_threshold (context_window : Z) : Z :=
  Z.max 1000 (context_window - OUTPUT_TOKENS_RESERVED - TRUNCATION_BUFFER_TOKENS).

(** ** Turns *)

Definition is_user (m : message) : bool := String.eqb m.(m_role) "user".

(** The loop of [_group_into_turns]: [cur] is the turn being built. *)
Fixpoint group_from (cur : list message) (ms : list message) : list (list message) :=
  match ms with
  | [] => match cur with [] => [] | _ => [cur] end
  | m :: ms =>
      match cur with
      | _ :: _ => if is_user m then cur :: group_from [m] ms else group_from (cur ++ [m]) ms
      | [] => group_from [m] ms
      end
  end.

Definition group_into_turns (ms : list message) : list (list message) := group_from [] ms.
Definition flatten_turns (ts : list (list message)) : list message := concat ts.

(** [ts[:n]] and [ts[n:]] for an [n] that may be negative or past the end. *)
Definition slice_pos {A} (n : Z) (l : list A) : nat :=
  Z.to_nat (if n <? 0 then Z.max 0 (Z.of_nat (length l) + n) else n).
Definition slice_to {A} (n : Z) (l : list A) : list A := take (slice_pos n l) l.
Definition slice_from {A} (n : Z) (l : list A) : list A := drop (slice_pos n l) l.

Definition split_for_summary (ms : list message) (keep_recent_turns : Z) : list message * list message :=
  let turns := group_into_turns ms in
  let n := Z.of_nat (length turns) in
  if n <=? keep_recent_turns then ([], flatten_turns turns)
  else let cutoff := n - keep_recent_turns in
       (flatten_turns (slice_to cutoff turns), flatten_turns (slice_from cutoff turns)).

(** ** Truncation *)

(** The [while] loop: drop the oldest kept turn while over budget, never the last. *)
Fixpoint drop_oldest (max_tokens : Z) (system_prompt : text) (kept : list (list message))
    : list (list message) :=
  match kept with
  | t :: ((_ :: _) as rest) =>
      if max_tokens <? estimate_conversation_tokens (flatten_turns kept) system_prompt
      then drop_oldest max_tokens system_prompt rest
      else kept
  | _ => kept
  end.

Definition truncation_note (dropped_tokens dropped_turns : Z) : message :=
  text_row "user"
    (u "[compaction: " ++ show dropped_tokens ++ u " tokens of earlier conversation omitted to fit the context window. "
     ++ show dropped_turns ++ u " turns were dropped.]").

Definition truncate_conversation (ms : list message) (max_tokens turns_to_keep : Z) (system_prompt : text)
    : list message * Z :=
  let current := estimate_conversation_tokens ms system_prompt in
  if current <=? max_tokens then (ms, 0)
  else
    let turns := group_into_turns ms in
    match turns with
    | [] => (ms, 0)
    | _ =>
        let n := Z.of_nat (length turns) in
        let kept := if turns_to_keep <? n then slice_from (- turns_to_keep) turns else turns in
        let kept := drop_oldest max_tokens system_prompt kept in
        let truncated := flatten_turns kept in
        let dropped := current - estimate_conversation_tokens truncated system_prompt in
        if 0 <? dropped
        then (truncation_note dropped (n - Z.of_nat (length kept)) :: truncated, dropped)
        else (truncated, dropped)
    end.
End Accounting.

(** ** Turns partition the history *)

Lemma group_from_flatten cur ms : flatten_turns (group_from cur ms) = cur ++ ms.
Proof.
  unfold flatten_turns. revert cur. induction ms as [|m ms IH]; intros cur; simpl.
  - destruct cur; simpl; by rewrite ?app_nil_r.
  - destruct cur as [|c cur]; [by rewrite IH|].
    destruct (is_user m); simpl; rewrite IH; simpl; by rewrite <- ?app_assoc.
Qed.

Lemma flatten_group ms : flatten_turns (group_into_turns ms) = ms.
Proof. apply group_from_flatten. Qed.

(** A turn of the conversation: not empty, and only its first row may be a user's. *)
Definition turn_like (t : list message) : Prop :=
  exists m rest, t = m :: rest /\ Forall (fun x => is_user x = false) rest.

Lemma group_from_turns cur ms :
  (cur = [] \/ turn_like cur) ->
  Forall turn_like (group_from cur ms)
  /\ Forall (fun t => exists m rest, t = m :: rest /\ is_user m = true) (tail (group_from cur ms)).
Proof.
  revert cur. induction ms as [|m ms IH]; intros cur Hc; simpl.
  - destruct cur as [|c cur]; [by split; constructor|]. destruct Hc as [|Hc]; [done|].
    by repeat constructor.
  - destruct cur as [|c cur].
    + apply IH. right. exists m, []. by split; [|constructor].
    + destruct Hc as [|Hc]; [done|]. destruct (is_user m) eqn:Em.
      * destruct (IH [m]) as [IH1 IH2]; [right; by exists m, []|].
        split; [by constructor|]. simpl.
        assert (exists rest ts, group_from [m] ms = (m :: rest) :: ts) as (rest & ts & E).
        { clear. assert (forall cur ms, exists r ts, group_from (m :: cur) ms = (m :: r) :: ts) as Hg; [|apply Hg].
          intros cur ms0. revert cur. induction ms0 as [|x ms0 IH0]; intros cur; simpl; [eauto|].
          destruct (is_user x); [eauto|]. apply (IH0 (cur ++ [x])). }
        rewrite E in *. constructor; [by exists m, rest|done].
      * apply (IH ((c :: cur) ++ [m])). right. destruct Hc as (x & rest & [= -> ->] & Hr).
        exists x, (rest ++ [m]). split; [done|]. apply Forall_app. by split; [|constructor].
Qed.

Lemma group_into_turns_like ms : Forall turn_like (group_into_turns ms).
Proof. apply group_from_turns. by left. Qed.

Lemma group_nonempty ms : ms <> [] -> group_into_turns ms <> [].
Proof. intros Hn E. apply Hn. by rewrite <- (flatten_group ms), E. Qed.

Lemma flatten_app a b : flatten_turns (a ++ b) = flatten_turns a ++ flatten_turns b.
Proof. apply concat_app. Qed.

Section Sums.
Context `{JsonText} (image_tokens : Z).

Lemma sum_tokens_app a b :
  sum_tokens image_tokens (a ++ b) = sum_tokens image_tokens a + sum_tokens image_tokens b.
Proof. unfold sum_tokens. induction a; simpl; lia. Qed.

Lemma estimate_nonneg t : 0 <= estimate_tokens t.
Proof. unfold estimate_tokens. destruct t; lia. Qed.

Lemma estimate_message_nonneg m : 0 <= image_tokens -> 0 <= estimate_message_tokens image_tokens m.
Proof.
  intros Hi. unfold estimate_message_tokens.
  match goal with |- 0 <= estimate_tokens ?t + _ => pose proof (estimate_nonneg t) end. nia.
Qed.

Lemma sum_tokens_nonneg ms : 0 <= image_tokens -> 0 <= sum_tokens image_tokens ms.
Proof.
  intros Hi. unfold sum_tokens. induction ms as [|m ms IH]; simpl; [lia|].
  pose proof (estimate_message_nonneg m Hi). lia.
Qed.

Lemma drop_oldest_spec T sp kept :
  kept <> [] ->
  exists gone, kept = gone ++ drop_oldest image_tokens T sp kept
    /\ drop_oldest image_tokens T sp kept <> []
    /\ (estimate_conversation_tokens image_tokens (flatten_turns (drop_oldest image_tokens T sp kept)) sp <= T
        \/ length (drop_oldest image_tokens T sp kept) = 1%nat).
Proof.
  induction kept as [|t rest IH]; intros Hne; [done|].
  destruct rest as [|t' rest].
  - exists []. simpl. split; [done|]. split; [done|]. by right.
  - change (drop_oldest image_tokens T sp (t :: t' :: rest)) with
      (if T <? estimate_conversation_tokens image_tokens (flatten_turns (t :: t' :: rest)) sp
       then drop_oldest image_tokens T sp (t' :: rest) else t :: t' :: rest).
    destruct (Z.ltb_spec T (estimate_conversation_tokens image_tokens (flatten_turns (t :: t' :: rest)) sp)).
    + destruct (IH ltac:(done)) as (gone & E & Hn & Hf). exists (t :: gone).
      split; [exact (f_equal (cons t) E)|]. by split.
    + exists []. split; [done|]. split; [done|]. left. lia.
Qed.
End Sums.

Lemma slice_from_suffix {A} n (l : list A) : exists gone, l = gone ++ slice_from n l.
Proof. exists (take (slice_pos n l) l). unfold slice_from. by rewrite take_drop. Qed.

(** The last [k] of more than [k] turns. *)
Lemma slice_last {A} k (l : list A) :
  0 < k -> k < Z.of_nat (length l) -> Z.of_nat (length (slice_from (- k) l)) = k.
Proof.
  intros Hk Hl. unfold slice_from, slice_pos. rewrite length_drop.
  replace (- k <? 0) with true by lia. lia.
Qed.

(** ** Truncating and splitting keep whole turns *)

Lemma truncate_parts `{JsonText} img ms T k sp out dropped :
  0 <= img -> 0 < k -> ms <> [] ->
  truncate_conversation img ms T k sp = (out, dropped) ->
  if estimate_conversation_tokens img ms sp <=? T then out = ms /\ dropped = 0
  else exists gone kept,
    group_into_turns ms = gone ++ kept /\ kept <> [] /\ Z.of_nat (length kept) <= k
    /\ (estimate_conversation_tokens img (flatten_turns kept) sp <= T \/ length kept = 1%nat)
    /\ dropped = sum_tokens img (flatten_turns gone)
    /\ out = (if 0 <? dropped then [truncation_note dropped (Z.of_nat (length gone))] else [])
             ++ flatten_turns kept.
Proof.
  intros Hi Hk Hne. unfold truncate_conversation. case_match eqn:Hfit; [intros; by simplify_eq|].
  pose proof (group_nonempty ms Hne) as Hg.
  destruct (group_into_turns ms) as [|t0 ts0] eqn:Eg; [done|]. rewrite <- Eg in *.
  set (n := Z.of_nat (length (group_into_turns ms))).
  set (kept0 := if k <? n then slice_from (- k) (group_into_turns ms) else group_into_turns ms).
  assert (kept0 <> [] /\ Z.of_nat (length kept0) <= k /\ exists g, group_into_turns ms = g ++ kept0) as (Hk0 & Hl0 & g0 & E0).
  { unfold kept0. destruct (Z.ltb_spec k n) as [Hkn|Hkn].
    - pose proof (slice_last k (group_into_turns ms) Hk Hkn) as Hlen.
      split; [intros E; rewrite E in Hlen; simpl in Hlen; lia|]. split; [lia|]. apply slice_from_suffix.
    - split; [done|]. split; [unfold n in *; lia|]. by exists []. }
  destruct (drop_oldest_spec img T sp kept0 Hk0) as (g1 & E1 & Hn1 & Hf1).
  set (kept := drop_oldest img T sp kept0) in *.
  assert (group_into_turns ms = (g0 ++ g1) ++ kept) as E by (rewrite <- app_assoc, <- E1; done).
  assert (estimate_conversation_tokens img ms sp - estimate_conversation_tokens img (flatten_turns kept) sp
          = sum_tokens img (flatten_turns (g0 ++ g1))) as Hd.
  { unfold estimate_conversation_tokens. rewrite <- (flatten_group ms) at 1.
    rewrite E, flatten_app, sum_tokens_app. lia. }
  rewrite Hd. intros Eo. exists (g0 ++ g1), kept. split; [done|]. split; [done|]. split.
  { rewrite E1, length_app in Hl0. lia. }
  split; [done|].
  assert (n - Z.of_nat (length kept) = Z.of_nat (length (g0 ++ g1))) as Hcount.
  { unfold n. rewrite E, length_app. lia. }
  rewrite Hcount in Eo. destruct (0 <? sum_tokens img (flatten_turns (g0 ++ g1))) eqn:Ed; simplify_eq.
  - split; [done|]. by rewrite Ed.
  - split; [done|]. by rewrite Ed.
Qed.

Lemma split_parts ms keep older recent :
  0 < keep -> split_for_summary ms keep = (older, recent) ->
  older ++ recent = ms
  /\ exists ot rt, group_into_turns ms = ot ++ rt /\ older = flatten_turns ot /\ recent = flatten_turns rt
     /\ Z.of_nat (length rt) = Z.min keep (Z.of_nat (length (group_into_turns ms))).
Proof.
  intros Hk. unfold split_for_summary. destruct (Z.leb_spec (Z.of_nat (length (group_into_turns ms))) keep).
  - intros [= <- <-]. split; [by rewrite flatten_group|]. exists [], (group_into_turns ms).
    repeat split; try done. lia.
  - set (c := _ - keep). assert (slice_pos c (group_into_turns ms) = Z.to_nat c) as Hc.
    { unfold slice_pos. replace (c <? 0) with false by (unfold c; lia). done. }
    intros [= <- <-]. unfold slice_to, slice_from. rewrite Hc.
    split; [by rewrite <- flatten_app, take_drop, flatten_group|].
    exists (take (Z.to_nat c) (group_into_turns ms)), (drop (Z.to_nat c) (group_into_turns ms)).
    rewrite take_drop. repeat split; try done. rewrite length_drop. unfold c. lia.
Qed.

(** ** The promises *)

(** Turns partition the history. Grouping loses, repeats and reorders nothing;
    every turn is one row followed by rows that are not a user's, and every turn
    after the first starts with a user row - so a tool result is never separated from
    the call before it by a turn boundary. *)
Theorem turns_partition ms :
  flatten_turns (group_into_turns ms) = ms
  /\ Forall turn_like (group_into_turns ms)
  /\ Forall (fun t => exists m rest, t = m :: rest /\ is_user m = true) (tail (group_into_turns ms)).
Proof. split; [apply flatten_group|]. apply group_from_turns. by left. Qed.

(** Truncation. A conversation that fits is untouched. Otherwise what is left is a
    whole-turn suffix of it - at most the number of turns to keep, at least the last
    one, and either within the budget or that single last turn - with one note in
    front that reports exactly the tokens and the turns that went. *)
Theorem truncate_conversation_spec `{JsonText} img ms T k sp out dropped :
  0 <= img -> 0 < k -> ms <> [] ->
  truncate_conversation img ms T k sp = (out, dropped) ->
  if estimate_conversation_tokens img ms sp <=? T then out = ms /\ dropped = 0
  else exists gone kept,
    group_into_turns ms = gone ++ kept /\ kept <> [] /\ Z.of_nat (length kept) <= k
    /\ (estimate_conversation_tokens img (flatten_turns kept) sp <= T \/ length kept = 1%nat)
    /\ dropped = sum_tokens img (flatten_turns gone)
    /\ out = (if 0 <? dropped then [truncation_note dropped (Z.of_nat (length gone))] else [])
             ++ flatten_turns kept.
Proof. apply truncate_parts. Qed.

#[local] Existing Instance blank_json.

Definition long_row (role : string) (n : nat) : message := text_row role (repeat 120%N n).

Lemma truncate_conversation_spec_witness :
  let ms := [long_row "user" 400; long_row "assistant" 400; long_row "user" 80; long_row "assistant" 80] in
  exists out dropped, truncate_conversation 0 ms 60 20 [] = (out, dropped) /\ dropped = 200
    /\ length out = 3%nat.
Proof.
  intros ms. destruct (truncate_conversation 0 ms 60 20 []) as [out dropped] eqn:E.
  exists out, dropped. split; [first [exact E|reflexivity]|].
  pose proof (truncate_conversation_spec 0 ms 60 20 [] out dropped ltac:(lia) ltac:(lia) ltac:(discriminate) E) as S.
  replace (estimate_conversation_tokens 0 ms [] <=? 60) with false in S by (vm_compute; reflexivity).
  destruct S as (gone & kept & _ & _ & _ & _ & _ & _).
  split; [vm_compute in E; injection E as _ <-; reflexivity | vm_compute in E; injection E as <- _; reflexivity].
Defined.

(** The split for a summary cuts between turns and loses nothing: the older and
    the recent part are the history again, and unless the history is no longer than
    the turns to keep, the recent part is exactly that many turns. *)
Theorem split_for_summary_spec ms keep older recent :
  0 < keep -> split_for_summary ms keep = (older, recent) ->
  older ++ recent = ms
  /\ exists ot rt, group_into_turns ms = ot ++ rt /\ older = flatten_turns ot /\ recent = flatten_turns rt
     /\ Z.of_nat (length rt) = Z.min keep (Z.of_nat (length (group_into_turns ms))).
Proof. apply split_parts. Qed.

Lemma split_for_summary_spec_witness :
  let ms := [long_row "user" 4; long_row "assistant" 4; long_row "user" 8; long_row "assistant" 8] in
  exists older recent, split_for_summary ms 1 = (older, recent) /\ older ++ recent = ms /\ length older = 2%nat.
Proof.
  intros ms. destruct (split_for_summary ms 1) as [older recent] eqn:E. exists older, recent.
  split; [first [exact E|reflexivity]|].
  split; [exact (proj1 (split_for_summary_spec ms 1 older recent ltac:(lia) E)) |].
  vm_compute in E. injection E as <- _. reflexivity.
Defined.
