(* ===== verification/Spill.v ===== *)
(** * Spilled tool results

    [app/harness/tool_result_spill.py]: a large tool result goes to a file of the
    session and the prompt keeps a block that names it; compaction saves a result
    there before it leaves the prompt. *)
From Stdlib Require Import String.
From S2P Require Import Prelude PyText.

Local Open Scope Z_scope.

(** ** The disk *)

(** The files this code reads and writes, by path. *)
Abbreviation fs := (gmap text text).

(** Writing a file. A write that reports success leaves exactly that content there,
    and no write touches another path; what a failed write leaves is not known. *)
Class Disk := {
  write_file : text -> text -> fs -> bool * fs;
  write_file_ok p c d d' : write_file p c d = (true, d') -> d' !! p = Some c;
  write_file_frame p c d q : q <> p -> snd (write_file p c d) !! q = d !! q
}.

(** A disk on which every write succeeds. *)
#[refine] Definition sound_disk : Disk := {| write_file p c d := (true, <[p := c]> d) |}.
Proof.
  - intros p c d d' [= <-]. by rewrite lookup_insert_eq.
  - intros p c d q Hq. simpl. by rewrite lookup_insert_ne.
Defined.

(** ** Constants and text helpers *)

Definition SPILL_THRESHOLD_CHARS : Z := 50000.
Definition PREVIEW_CHARS : Z := 2000.
Definition PERSISTED_OUTPUT_TAG : text := u "<persisted-output>".
Definition PERSISTED_OUTPUT_CLOSING_TAG : text := u "</persisted-output>".

(** [s.rfind(c)] of one character. *)
Fixpoint rfind_char (c : N) (s : text) : option nat :=
  match s with
  | [] => None
  | x :: s => match rfind_char c s with
              | Some i => Some (S i)
              | None => if (x =? c)%N then Some 0%nat else None
              end
  end.

(** [s.endswith(p)]. *)
Definition endswith (p s : text) : bool := startswith (rev p) (rev s).

(** A character [\[A-Za-z0-9_.-\]] keeps. *)
Definition safe_char (c : N) : bool :=
  ((65 <=? c) && (c <=? 90) || (97 <=? c) && (c <=? 122) || (48 <=? c) && (c <=? 57)
   || (c =? 95) || (c =? 46) || (c =? 45))%N.

Definition sanitize (s : text) : text :=
  match upto (map (fun c => if safe_char c then c else 95%N) s) 128 with
  | [] => u "unknown"
  | safe => safe
  end.

Definition looks_like_json (content : text) : bool :=
  match lstrip content with
  | c :: _ => (c =? 123)%N || (c =? 91)%N
  | [] => false
  end.

(** [f"{n / d:.1f}"]: the exact quotient, rounded half to even at the first decimal. *)
Definition tenths (n d : Z) : text :=
  let q := (10 * n) / d in
  let r := (10 * n) mod d in
  let t := if 2 * r <? d then q
           else if d <? 2 * r then q + 1
           else if Z.even q then q else q + 1 in
  show (t / 10) ++ u "." ++ show (t mod 10).

Definition format_size (n : Z) : text :=
  if n <? 1024 then show n ++ u " B"
  else if n <? 1024 * 1024 then tenths n 1024 ++ u " KB"
  else tenths n (1024 * 1024) ++ u " MB".

Definition generate_preview (content : text) (max_chars : Z) : text * bool :=
  if len content <=? max_chars then (content, false)
  else
    let head := upto content max_chars in
    let cut := match rfind_char 10 head with
               | Some i => if max_chars / 2 <? Z.of_nat i then Z.of_nat i else max_chars
               | None => max_chars
               end in
    (upto content cut, true).

(** ** Tool names and deny lists *)

Definition READ_TOOL : text := u "Read".
Definition GREP_TOOL : text := u "Grep".
Definition HEAD_ONLY_TOOLS : list text := [u "http_fetch"; u "http_request"].

(** What follows the last ["__"] of a name that has one. *)
Fixpoint after_last_sep (s : text) : option text :=
  match s with
  | [] => None
  | _ :: s' => match after_last_sep s' with
               | Some r => Some r
               | None => if startswith (u "__") s then Some (from s 2) else None
               end
  end.

Definition bare_tool_name (name : text) : text := default name (after_last_sep name).

Definition tool_is_denied (name : text) (disallowed : list text) : bool :=
  bool_decide (name ∈ disallowed) || existsb (endswith (u "__" ++ name)) disallowed.

(** ** Recovery sentences *)

Definition RECOVERY_WITH_READ_HEAD_ONLY (tool : text) : text :=
  u "Read the full file with the Read tool if you need more than the preview; " ++ tool
  ++ u " takes no argument that selects part of its answer, so that file is the only way past the preview."
  ++ nl.
Definition RECOVERY_WITHOUT_READ_HEAD_ONLY (tool path : text) : text :=
  u "The Read tool is not available on this turn, so the path above cannot be opened from here — do not reach for it. "
  ++ tool ++ u " takes no argument that selects part of its answer — every one of its arguments returns less of the same text from the beginning — so re-running this call cannot recover the part past this preview: "
  ++ path ++ u " is the only copy of it, and nothing on this turn can open it." ++ nl.
Definition RECOVERY_WITH_READ : text :=
  u "Read the full file with the Read tool if you need more than the preview. If you don't actually need it all, narrow your next query (smaller hops, higher min_confidence, --glob, --type, head_limit, etc.)."
  ++ nl.
Definition RECOVERY_WITHOUT_READ : text :=
  u "The Read tool is not available on this turn, so the path above cannot be opened from here — do not reach for it. Re-run the call with a narrower query (smaller hops, higher min_confidence, --glob, --type, head_limit, etc.); that is the only way to see more of it from here."
  ++ nl.

Definition recovery_notice (disallowed : list text) (tool_name saved_path : text) : text :=
  let read_denied := tool_is_denied READ_TOOL disallowed in
  let bare := bare_tool_name tool_name in
  if bool_decide (bare ∈ HEAD_ONLY_TOOLS) then
    if read_denied
    then RECOVERY_WITHOUT_READ_HEAD_ONLY bare (match saved_path with [] => u "the saved file" | p => p end)
    else RECOVERY_WITH_READ_HEAD_ONLY bare
  else if read_denied then RECOVERY_WITHOUT_READ else RECOVERY_WITH_READ.

Section Spill.
Context `{Disk}.
(** [SESSIONS_DIR]. *)
Variable sessions_dir : text.

Definition spill_dir (session_id : text) : text := sessions_dir ++ u "/" ++ session_id ++ u ".tool-results".

Definition spill_path (session_id tool_use_id : text) (is_json : bool) : text :=
  spill_dir session_id ++ u "/" ++ sanitize tool_use_id ++ u "." ++ (if is_json then u "json" else u "txt").

Definition spill_block (content tool_name path : text) (disallowed : list text) : text :=
  let '(preview, has_more) := generate_preview content PREVIEW_CHARS in
  PERSISTED_OUTPUT_TAG ++ nl
  ++ u "Output too large (" ++ format_size (len content) ++ u ", " ++ show_commas (len content) ++ u " chars). "
  ++ u "Full output saved to: " ++ path ++ nl ++ nl
  ++ u "Preview (first " ++ format_size PREVIEW_CHARS ++ u "):" ++ nl
  ++ preview ++ (if has_more then nl ++ u "..." ++ nl else nl)
  ++ recovery_notice disallowed tool_name path ++ PERSISTED_OUTPUT_CLOSING_TAG.

Definition maybe_spill (content tool_name tool_use_id session_id : text) (threshold : Z)
    (disallowed : list text) (d : fs) : text * fs :=
  if len content <=? threshold then (content, d)
  else
    let path := spill_path session_id tool_use_id (looks_like_json content) in
    match write_file path content d with
    | (true, d) => (spill_block content tool_name path disallowed, d)
    | (false, d) => (content, d)
    end.

Definition persist_for_compaction (content tool_use_id session_id : text) (d : fs) : option text * fs :=
  match content, session_id, tool_use_id with
  | _ :: _, _ :: _, _ :: _ =>
      let path := spill_path session_id tool_use_id (looks_like_json content) in
      match write_file path content d with
      | (true, d) => (Some path, d)
      | (false, d) => (None, d)
      end
  | _, _, _ => (None, d)
  end.

Definition session_record_paths (session_id : text) : text * text :=
  (sessions_dir ++ u "/" ++ session_id ++ u ".json", spill_dir session_id).

Definition is_file (p : text) (d : fs) : bool := bool_decide (is_Some (d !! p)).

Definition session_record_route (session_id : text) (disallowed : list text) (d : fs) : text :=
  match session_id with
  | [] => []
  | _ =>
      let '(record, spill) := session_record_paths session_id in
      let has_record := is_file record d in
      if negb (tool_is_denied GREP_TOOL disallowed) then
        u "This session's own record is on disk: Grep "
        ++ (if has_record
            then record ++ u " (the conversation) and " ++ spill ++ u "/ (every spilled or cleared result)"
            else spill ++ u "/")
        ++ u " for a phrase you no longer have in context."
      else if negb (tool_is_denied READ_TOOL disallowed) && has_record then
        u "This session's own record is on disk at " ++ record
        ++ u "; Read it for text you no longer have in context."
      else []
  end.

Definition fallback_for_empty_result (content : option text) (tool_name : text) : text :=
  match content with
  | Some c => match strip c with
              | [] => u "(" ++ bare_tool_name tool_name ++ u " completed with no output)"
              | _ => c
              end
  | None => u "(" ++ bare_tool_name tool_name ++ u " completed with no output)"
  end.

(** ** Lemmas *)

Lemma generate_preview_prefix content n :
  fst (generate_preview content n) `prefix_of` content.
Proof.
  unfold generate_preview. destruct (len content <=? n); [done|]. simpl. apply prefix_take.
Qed.

Lemma rfind_char_lt c s i : rfind_char c s = Some i -> (i < length s)%nat /\ s !! i = Some c.
Proof.
  revert i. induction s as [|x s IH]; intros i; simpl; [done|].
  destruct (rfind_char c s) as [j|].
  - intros [= <-]. destruct (IH j eq_refl). split; [lia|done].
  - destruct (N.eqb_spec x c); [|done]. intros [= <-]. subst. split; [lia|done].
Qed.

Lemma generate_preview_len content n : 0 <= n -> len (fst (generate_preview content n)) <= n.
Proof.
  intros Hn. unfold generate_preview. destruct (Z.leb_spec (len content) n); [done|]. simpl.
  destruct (rfind_char 10 (upto content n)) as [i|] eqn:E; [|apply len_upto_le; lia].
  apply rfind_char_lt in E as [Hi _]. case_match; [|apply len_upto_le; lia].
  pose proof (len_upto_le content (Z.of_nat i) ltac:(lia)). unfold upto in *. rewrite length_take in Hi. lia.
Qed.

(** Saving under one path leaves every other file alone. *)
Lemma persist_frame content tid sid d q :
  q <> spill_path sid tid (looks_like_json content) ->
  snd (persist_for_compaction content tid sid d) !! q = d !! q.
Proof.
  intros Hq. unfold persist_for_compaction. destruct content, sid, tid; try done.
  pose proof (write_file_frame _ (n :: content) d q Hq) as Hf.
  destruct (write_file _ _ d) as [[] d']; done.
Qed.

Lemma persist_ok content tid sid d p d' :
  persist_for_compaction content tid sid d = (Some p, d') ->
  p = spill_path sid tid (looks_like_json content) /\ d' !! p = Some content.
Proof.
  unfold persist_for_compaction. destruct content, sid, tid; try done.
  destruct (write_file _ _ d) as [[] d1] eqn:E; [|done]. intros [= <- <-].
  split; [done|]. by eapply write_file_ok.
Qed.
End Spill.
