(* ===== verification/Microcompact.v ===== *)
(** * Microcompaction: clearing stale tool results

    [app/harness/microcompact.py]: a stale tool result is saved to the session's
    spill directory and replaced by a marker that names the call and the file, a
    result that is already spilled drops its preview, big [Write]/[Edit] bodies leave
    the assistant's arguments, and a sidecar remembers what was reduced. *)
From Stdlib Require Import String.
From S2P Require Import Prelude PyText QueueRows Spill Messages.

Local Open Scope Z_scope.

(** Python's [repr] and [str] of a parsed JSON value, and [json.loads] and [json.dumps]
    on text. *)
Class PyJson := {
  py_repr : json -> text;
  py_shown : json -> text;
  parse_json : text -> option json;
  dump_json : json -> text
}.

Definition blank_py : PyJson :=
  {| py_repr _ := []; py_shown _ := []; parse_json _ := None; dump_json _ := [] |}.

(** ** Constants *)

Definition DEFAULT_COMPACTABLE_TOOLS : list text :=
  [u "Read"; u "Bash"; u "Grep"; u "Glob"; u "Edit"; u "Write"].
Definition DEFAULT_NON_COMPACTABLE : list text :=
  [u "TodoWrite"; u "ToolSearch"; u "EnterPlanMode"; u "ExitPlanMode"; u "SetGoal"; u "ClearGoal"].
Definition CLEARED_MARKER : text :=
  u "[Old tool result content cleared — retrieve via Read if needed]".
Definition DEFAULT_MIN_CHARS_TO_CLEAR : Z := 2000.
Definition DEFAULT_KEEP_RECENT_TOOLS : Z := 15.
Definition PREVIEW_DROPPED : text := u "[preview dropped — Read the path above for the full content]".
Definition OBSERVATION_STUB_PREFIX : text := u "[observation ".
Definition SAVED_TO : text := u "Full output saved to: ".

(** ** Rendering the call *)

Definition squeeze (t : text) : text := join (u " ") (split_ws t).
Definition clip (cap : Z) (t : text) : text :=
  if len t <=? cap then t else upto t (cap - 3) ++ u "...".

Fixpoint insert_key (kv : string * json) (l : list (string * json)) : list (string * json) :=
  match l with
  | [] => [kv]
  | x :: l => if String.leb kv.1 x.1 then kv :: x :: l else x :: insert_key kv l
  end.
Definition sorted_items (fs : list (string * json)) : list (string * json) := foldr insert_key [] fs.

Definition shown_arg (v : json) : bool :=
  match v with JNull | JStr EmptyString => false | _ => true end.

(** [str(raw_args or "")] drops what Python counts as false. *)
Definition falsy (v : json) : bool :=
  match v with
  | JNull | JBool false | JStr EmptyString | JList [] | JObj [] => true
  | JInt z => z =? 0
  | _ => false
  end.

Section Digest.
Context `{PyJson}.

Definition args_digest (raw_args : json) (cap : Z) : text :=
  let of_value (v : json) :=
    clip cap (squeeze
      match v with
      | JObj fs =>
          join (u " ") (map (fun '(k, v) => utf8 k ++ u "=" ++ py_repr v)
            (sel (fun '(k, v) => negb (String.eqb k "description") && shown_arg v) (sorted_items fs)))
      | v => if falsy v then [] else py_shown v
      end) in
  match raw_args with
  | JStr s => match parse_json (utf8 s) with
              | Some v => of_value v
              | None => clip cap (squeeze (utf8 s))
              end
  | v => of_value v
  end.

Definition cleared_marker (tool_name : text) (raw_args : json) (size : Z) (path : option text)
    (read_denied : bool) (route : text) : text :=
  match tool_name with
  | [] => CLEARED_MARKER
  | _ =>
      let head := strip (tool_name ++ u " " ++ args_digest raw_args 120) in
      let tail := match route, path with _ :: _, Some _ => u " " ++ route | _, _ => [] end in
      match path with
      | Some p =>
          if read_denied then
            u "[" ++ head ++ u " — " ++ show_commas size ++ u " chars cleared from context; full content at "
            ++ p ++ u ". The Read tool is not available on this turn, so that path cannot be opened from here — re-run the call with a narrower query for the part you need."
            ++ tail ++ u "]"
          else
            u "[" ++ head ++ u " — " ++ show_commas size ++ u " chars cleared from context; full content at "
            ++ p ++ u ". Read that path if you need it again." ++ tail ++ u "]"
      | None =>
          u "[" ++ head ++ u " — " ++ show_commas size
          ++ u " chars of output cleared from context. Re-run the call if you need it again.]"
      end
  end.
End Digest.

(** [deny] given is deny-list mode, and [allow] is not consulted. *)
Definition is_compactable_tool_call (name : text) (allow : list text) (deny : option (list text)) : bool :=
  match name with
  | [] => false
  | _ =>
      let bare := bare_tool_name name in
      match deny with
      | Some d => negb (bool_decide (name ∈ d)) && negb (bool_decide (bare ∈ d))
      | None => bool_decide (name ∈ allow) || bool_decide (bare ∈ allow)
      end
  end.

(** ** Reading a result *)

Definition tool_result_text (m : message) : text :=
  match m.(m_content) with
  | CStr t => t
  | CBlocks bs => join nl (omap (fun b => match b with BText t | BStr t => Some t | _ => None end) bs)
  | COther _ => []
  end.

Definition is_cleared_stub (t : text) : bool :=
  startswith OBSERVATION_STUB_PREFIX t
  || contains PERSISTED_OUTPUT_TAG t && contains PREVIEW_DROPPED t.

Definition persisted_block_only (t : text) : text :=
  match find PERSISTED_OUTPUT_TAG t with
  | None => t
  | Some start =>
      if is_cleared_stub t then t
      else
        let keep := sel (fun ln => nonempty (strip ln)) (take 3 (splitlines (drop start t))) in
        join nl keep ++ nl ++ PREVIEW_DROPPED
  end.

(** [t.split("\n", 1)[0]]. *)
Fixpoint first_line (t : text) : text :=
  match t with
  | [] => []
  | c :: t => if (c =? 10)%N then [] else c :: first_line t
  end.

Definition pointer_path (t : text) : text :=
  match find SAVED_TO t with
  | None => []
  | Some at_ => strip (first_line (drop (at_ + length SAVED_TO) t))
  end.

(** The number in front of [" chars)"]: the leftmost digit whose maximal run of digits
    and commas is followed by it. *)
Definition is_digit (c : N) : bool := ((48 <=? c) && (c <=? 57))%N.

Fixpoint digit_run (t : text) : text * text :=
  match t with
  | c :: t' => if is_digit c || (c =? 44)%N then let '(r, rest) := digit_run t' in (c :: r, rest) else ([], t)
  | [] => ([], [])
  end.

Fixpoint stated_size (t : text) : option text :=
  match t with
  | [] => None
  | c :: t' =>
      let '(r, rest) := digit_run t in
      if is_digit c && startswith (u " chars)") rest then Some r else stated_size t'
  end.

Definition int_of_digits (ds : text) : Z :=
  fold_left (fun n c => if is_digit c then 10 * n + (Z.of_N c - 48) else n) ds 0.

Definition byte_len (t : text) : Z :=
  foldr (fun c n => n + (if (c <? 128)%N then 1 else if (c <? 2048)%N then 2
                         else if (c <? 65536)%N then 3 else 4)) 0 t.

Definition pointer_size (t pointer : text) (d : fs) : Z :=
  match stated_size t with
  | Some ds => int_of_digits ds
  | None => match d !! pointer with Some c => byte_len c | None => 0 end
  end.

Definition find_from (p t : text) (start : nat) : option nat := (fun i => (start + i)%nat) <$> find p (drop start t).

Definition pointer_preview (t : text) : text :=
  match find (u "Preview (first ") t with
  | None => []
  | Some at_ =>
      match find_from nl t at_ with
      | None => []
      | Some n =>
          let body := drop (S n) t in
          let ends := [nl ++ u "..." ++ nl; nl ++ u "Read the full file"; nl ++ u "The Read tool is not"] in
          match omap (fun e => find e body) ends with
          | cut :: _ => take cut body
          | [] => body
          end
      end
  end.

(** ** Replacing a result *)

Definition evict (r : image_ref) : image_ref := ImageRef r.(img_ref) true.

Definition replace_tool_content (m : message) (new_text : text) : message :=
  set_images 0 (map evict <$> m.(m_images))
    (set_content (match m.(m_content) with
                  | CStr _ => CStr new_text
                  | _ => CBlocks [BText new_text]
                  end) m).

Section Stubs.
Context `{PyJson}.
Variable sessions_dir : text.
(** [Path.resolve]: where the symbolic links of a directory lead. *)
Variable resolve : text -> text.

(** [p.parent], [p.name] and [p.stem] of a path written with slashes. *)
Definition parent_dir (p : text) : text :=
  match rfind_char 47 p with Some i => take i p | None => u "." end.
Definition file_name (p : text) : text :=
  match rfind_char 47 p with Some i => drop (S i) p | None => p end.
Definition stem (p : text) : text :=
  let n := file_name p in
  match rfind_char 46 n with
  | Some i => if (0 <? i)%nat && (i <? length n - 1)%nat then take i n else n
  | None => n
  end.

Definition observation_id_for_path (path : option text) (session_id : text) : text :=
  match path, session_id with
  | Some (c :: p), _ :: _ =>
      if bool_decide (resolve (parent_dir (c :: p)) = resolve (spill_dir sessions_dir session_id))
      then stem (c :: p) else []
  | _, _ => []
  end.

Definition observation_stub (obs_id tool_name : text) (raw_args : json) (size : Z) (head_src : text)
    (head_chars : Z) (route : text) : text :=
  let '(head, _) := generate_preview head_src (Z.max 0 head_chars) in
  let call := match strip (tool_name ++ u " " ++ args_digest raw_args 120) with
              | [] => u "tool result" | c => c end in
  join nl ([OBSERVATION_STUB_PREFIX ++ obs_id ++ u " — " ++ call ++ u " — " ++ show_commas size
              ++ u " chars cleared from context. Its first " ++ show_commas (len head) ++ u " chars, verbatim:";
            head;
            u "… recall_observation(id=" ++ [34%N] ++ obs_id ++ [34%N] ++ u ") returns the full text."]
           ++ match route with [] => [] | r => [r] end)
  ++ u "]".
End Stubs.

(** ** The pass *)

Record mc_options := McOptions {
  keep_recent_tools : Z;
  count_threshold : Z;
  compactable_tools : list text;
  token_budget : option Z;
  estimate_fn : option (list message -> Z);
  min_chars_to_clear : Z;
  session_id : text;
  legacy_count_rule : bool;
  disallowed_tools : list text;
  non_compactable_tools : option (list text);
  observation_stubs : bool;
  observation_head_chars : Z;
  name_session_record : bool;
  already_cleared : list text
}.

(** Pass 1: each call id with the name and arguments of the last call that carries it. *)
Abbreviation call_table := (gmap text (text * json)).

Definition add_call (tbl : call_table) (tc : tool_call) : call_table :=
  match tc_key tc with
  | [] => tbl
  | cid => <[cid := (tc_name tc, tc_args tc)]> tbl
  end.

Definition is_assistant (m : message) : bool := String.eqb m.(m_role) "assistant".
Definition is_tool (m : message) : bool := String.eqb m.(m_role) "tool".

Definition calls_of (ms : list message) : call_table :=
  fold_left (fun tbl m => if is_assistant m then fold_left add_call m.(m_tool_calls) tbl else tbl) ms ∅.

Definition name_of (tbl : call_table) (cid : text) : text := default [] (fst <$> tbl !! cid).
Definition args_of (tbl : call_table) (cid : text) : json := default JNull (snd <$> tbl !! cid).

(** Pass 2: the positions of the compactable results, oldest first. *)
Definition compactable (o : mc_options) (tbl : call_table) (m : message) : bool :=
  is_tool m && is_compactable_tool_call (name_of tbl m.(m_call_id)) o.(compactable_tools) o.(non_compactable_tools).

Definition positions (p : message -> bool) (ms : list message) : list nat :=
  omap (fun '(i, m) => if p m then Some i else None) (zip (seq 0 (length ms)) ms).

Definition compactable_indices (o : mc_options) (ms : list message) : list nat :=
  positions (compactable o (calls_of ms)) ms.

(** Older than the recent window, and not what an earlier pass left behind. *)
Definition text_at (ms : list message) (i : nat) : text := default [] (tool_result_text <$> ms !! i).

Definition candidates (o : mc_options) (ms : list message) : list nat :=
  let idx := compactable_indices o ms in
  let keep_count := Z.max 0 o.(keep_recent_tools) in
  let cutoff := Z.max 0 (Z.of_nat (length idx) - keep_count) in
  sel (fun i => negb (is_cleared_stub (text_at ms i))) (take (Z.to_nat cutoff) idx).

Definition sizeable (o : mc_options) (ms : list message) : list nat :=
  sel (fun i => o.(min_chars_to_clear) <=? len (text_at ms i)) (candidates o ms).

Definition stubs_on (o : mc_options) : bool :=
  o.(observation_stubs) && nonempty o.(session_id).

Definition stand_in (o : mc_options) : text :=
  if stubs_on o
  then CLEARED_MARKER ++ repeat 32%N (Z.to_nat (Z.max 0 o.(observation_head_chars) + 200))
  else CLEARED_MARKER.

(** What clearing the message at [i] is booked to save. *)
Definition saving (o : mc_options) (est : list message -> Z) (ms : list message) (i : nat) : Z :=
  match ms !! i with
  | Some m => est [m] - est [replace_tool_content m (stand_in o)]
  | None => 0
  end.

(** The budget rule: oldest first, the fewest that fit. *)
Fixpoint select_budget (saved : nat -> Z) (budget current : Z) (idxs : list nat) : list nat :=
  match idxs with
  | [] => []
  | i :: idxs =>
      if saved i <=? 0 then select_budget saved budget current idxs
      else i :: (if current - saved i <=? budget then []
                 else select_budget saved budget (current - saved i) idxs)
  end.

Definition selected (o : mc_options) (ms : list message) : list nat :=
  match o.(token_budget), o.(estimate_fn) with
  | Some budget, Some est =>
      if budget <? est ms then select_budget (saving o est ms) budget (est ms) (sizeable o ms) else []
  | _, _ =>
      if o.(legacy_count_rule) && (o.(count_threshold) <? Z.of_nat (length (compactable_indices o ms)))
      then sizeable o ms else []
  end.

Definition to_clear (o : mc_options) (ms : list message) : list nat :=
  selected o ms ++ sel (fun i => contains PERSISTED_OUTPUT_TAG (text_at ms i)) (candidates o ms).

Section Pass.
Context `{PyJson} `{Disk}.
Variables (sessions_dir : text) (resolve : text -> text).

(** Pass 3 on one result: its new text, if it changes, and whether the text is the
    reduction that can be redone from the call id alone. *)
Definition clear_spilled (o : mc_options) (tbl : call_table) (route : text) (d : fs) (m : message)
    : option (text * bool) :=
  let t := tool_result_text m in
  let pointer := pointer_path t in
  let obs_id := if stubs_on o then observation_id_for_path sessions_dir resolve (Some pointer) o.(session_id) else [] in
  let '(new_text, header_only) :=
    match obs_id with
    | _ :: _ =>
        (observation_stub obs_id (name_of tbl m.(m_call_id)) (args_of tbl m.(m_call_id))
           (pointer_size t pointer d) (pointer_preview t) o.(observation_head_chars) route, false)
    | [] => match route with
            | [] => (persisted_block_only t, true)
            | _ => (persisted_block_only t ++ u " " ++ route, false)
            end
    end in
  if bool_decide (new_text = t) then None else Some (new_text, header_only).

Definition clear_fresh (o : mc_options) (tbl : call_table) (route : text) (read_denied : bool)
    (m : message) (d : fs) : option text * fs :=
  let t := tool_result_text m in
  let cid := m.(m_call_id) in
  let marker (path : option text) :=
    let obs_id := if stubs_on o then observation_id_for_path sessions_dir resolve path o.(session_id) else [] in
    match obs_id with
    | _ :: _ => observation_stub obs_id (name_of tbl cid) (args_of tbl cid) (len t) t o.(observation_head_chars) route
    | [] => cleared_marker (name_of tbl cid) (args_of tbl cid) (len t) path read_denied route
    end in
  if nonempty o.(session_id) && nonempty cid then
    match persist_for_compaction sessions_dir t cid o.(session_id) d with
    | (Some path, d) => (Some (marker (Some path)), d)
    | (None, d) => (None, d)
    end
  else (Some (marker None), d).

Record mc_result := McResult {
  mc_out : list message;
  mc_cleared : Z;
  mc_reduced : list text;         (** [reduced_calls_out] *)
  mc_cleared_calls : list text;   (** [cleared_calls_out] *)
  mc_fs : fs
}.

(** Booking a replaced row: counted unless an earlier turn's pass already cleared it. *)
Definition book (o : mc_options) (m : message) (t : text) (header_only : bool) (r : mc_result) : mc_result :=
  let cid := m.(m_call_id) in
  let sticky := negb (bool_decide (cid ∈ o.(already_cleared))) in
  McResult (replace_tool_content m t :: r.(mc_out))
    (r.(mc_cleared) + if sticky then 1 else 0)
    (if header_only && nonempty cid then cid :: r.(mc_reduced) else r.(mc_reduced))
    (if sticky && nonempty cid then cid :: r.(mc_cleared_calls) else r.(mc_cleared_calls))
    r.(mc_fs).

Definition keep (m : message) (r : mc_result) : mc_result :=
  McResult (m :: r.(mc_out)) r.(mc_cleared) r.(mc_reduced) r.(mc_cleared_calls) r.(mc_fs).

Fixpoint rewrite_from (o : mc_options) (tbl : call_table) (route : text) (read_denied : bool)
    (clear : list nat) (i : nat) (ms : list message) (d : fs) : mc_result :=
  match ms with
  | [] => McResult [] 0 [] [] d
  | m :: ms =>
      let rest d := rewrite_from o tbl route read_denied clear (S i) ms d in
      if negb (bool_decide (i ∈ clear)) then keep m (rest d)
      else if contains PERSISTED_OUTPUT_TAG (tool_result_text m) then
        match clear_spilled o tbl route d m with
        | None => keep m (rest d)
        | Some (t, header_only) => book o m t header_only (rest d)
        end
      else
        match clear_fresh o tbl route read_denied m d with
        | (None, d) => keep m (rest d)
        | (Some t, d) => book o m t false (rest d)
        end
  end.

Definition microcompact (o : mc_options) (ms : list message) (d : fs) : mc_result :=
  let route := if o.(name_session_record) && nonempty o.(session_id)
               then session_record_route sessions_dir o.(session_id) o.(disallowed_tools) d else [] in
  let clear := to_clear o ms in
  match clear with
  | [] => McResult ms 0 [] [] d
  | _ => rewrite_from o (calls_of ms) route (tool_is_denied READ_TOOL o.(disallowed_tools)) clear 0 ms d
  end.

(** ** The reduction sidecar *)

Definition REDUCTION_SIDECAR_SUFFIX : text := u ".microcompact-reduced.json".

(** One session's sidecar, parsed: [None] is a file that is absent or unreadable. *)
Record sidecar := Sidecar { reduced_call_ids : list text; cleared_call_ids : list text }.

Definition reduction_sidecar_path (sid : text) : option text :=
  match sid with
  | [] => None
  | _ => Some (sessions_dir ++ u "/" ++ sid ++ REDUCTION_SIDECAR_SUFFIX)
  end.

(** The sidecars on disk by path; [sidecar_list] drops what is not a non-empty string. *)
Abbreviation sidecars := (gmap text sidecar).

Definition sidecar_payload (sid : text) (s : sidecars) : option sidecar :=
  reduction_sidecar_path sid ≫= fun p => s !! p.

Definition sidecar_list (ids : option (list text)) : list text := sel nonempty (default [] ids).

Definition read_reduced_calls (sid : text) (s : sidecars) : list text :=
  sidecar_list (reduced_call_ids <$> sidecar_payload sid s).
Definition read_cleared_calls (sid : text) (s : sidecars) : list text :=
  sidecar_list (cleared_call_ids <$> sidecar_payload sid s).

(** [for cid in new: if cid not in merged: merged.append(cid)]. *)
Definition merge_ids (merged new : list text) : list text :=
  fold_left (fun acc c => if bool_decide (c ∈ acc) then acc else acc ++ [c]) new merged.

(** [writable] is whether the operating system lets the file be written. *)
Definition record_reduced_calls (writable : bool) (sid : text) (call_ids : list text) (s : sidecars)
    : Z * sidecars :=
  match reduction_sidecar_path sid, sel nonempty call_ids with
  | Some p, ((_ :: _) as new) =>
      let merged := merge_ids (read_reduced_calls sid s) new in
      if writable
      then (Z.of_nat (length merged), <[p := Sidecar merged (read_cleared_calls sid s)]> s)
      else (Z.of_nat (length (read_reduced_calls sid s)), s)
  | _, _ => (0, s)
  end.

Definition record_cleared_calls (writable : bool) (sid : text) (call_ids : list text) (s : sidecars)
    : Z * sidecars :=
  match reduction_sidecar_path sid, sel nonempty call_ids with
  | Some p, ((_ :: _) as new) =>
      let merged := merge_ids (read_cleared_calls sid s) new in
      if writable
      then (Z.of_nat (length merged), <[p := Sidecar (read_reduced_calls sid s) merged]> s)
      else (Z.of_nat (length (read_cleared_calls sid s)), s)
  | _, _ => (0, s)
  end.

(** One row of [apply_reduction_sidecar]. *)
Definition reapply (wanted : list text) (d : fs) (m : message) : option message :=
  let t := tool_result_text m in
  if is_tool m && bool_decide (m.(m_call_id) ∈ wanted)
     && contains PERSISTED_OUTPUT_TAG t && negb (is_cleared_stub t)
     && nonempty (pointer_path t) && is_file (pointer_path t) d
     && negb (bool_decide (persisted_block_only t = t))
  then Some (replace_tool_content m (persisted_block_only t)) else None.

Definition apply_reduction_sidecar (ms : list message) (sid : text) (s : sidecars) (d : fs)
    : list message * Z :=
  let wanted := read_reduced_calls sid s in
  match wanted, ms with
  | [], _ | _, [] => (ms, 0)
  | _, _ => (map (fun m => default m (reapply wanted d m)) ms,
             Z.of_nat (length (omap (reapply wanted d) ms)))
  end.

Definition is_reduction_sidecar (name : text) : bool := endswith REDUCTION_SIDECAR_SUFFIX name.

(** ** Shrinking the arguments of [Write] and [Edit] *)

Definition SHRUNK_ARG_MARKER : text := u "[argument cleared from context]".

Definition SHRINKABLE_ARGS (bare : text) : list string :=
  if bool_decide (bare = u "Write") then ["content"%string]
  else if bool_decide (bare = u "Edit") then ["old_string"; "new_string"]%string else [].

Definition shrinkable_fields (tool_name : text) (allow : list text) : list string :=
  match tool_name with
  | [] => []
  | _ => let bare := bare_tool_name tool_name in
         if bool_decide (bare ∈ allow) then SHRINKABLE_ARGS bare else []
  end.

Definition landed (ms : list message) : list text :=
  omap (fun m => if is_tool m && nonempty m.(m_call_id) then Some m.(m_call_id) else None) ms.

(** The landed calls in the order the assistant made them. *)
Definition landed_calls (ms : list message) : list text :=
  concat (map (fun m => if is_assistant m
                        then omap (fun tc => if nonempty tc.(tc_id) && bool_decide (tc.(tc_id) ∈ landed ms)
                                             then Some tc.(tc_id) else None) m.(m_tool_calls)
                        else []) ms).

Definition recent_calls (keep_recent : Z) (ms : list message) : list text :=
  if 0 <? keep_recent then slice_from (- keep_recent) (landed_calls ms) else [].

Fixpoint obj_set (k : string) (v : json) (fs : list (string * json)) : list (string * json) :=
  match fs with
  | [] => [(k, v)]
  | (k', v') :: fs => if String.eqb k k' then (k, v) :: fs else (k', v') :: obj_set k v fs
  end.

Definition json_text (v : option json) : option text :=
  match v with Some (JStr s) => Some (utf8 s) | _ => None end.

(** [args.get("file_path") or args.get("path") or ""], shown. *)
Definition target_of (fs : list (string * json)) : text :=
  let pick k := match obj_get k fs with Some v => if falsy v then None else Some v | None => None end in
  let shown v := match v with JStr s => utf8 s | v => py_shown v end in
  match pick "file_path"%string, pick "path"%string with
  | Some v, _ => shown v
  | None, Some v => shown v
  | None, None => []
  end.

Definition shrunk_arg (size : Z) (target path : text) : text :=
  SHRUNK_ARG_MARKER ++ u " " ++ show_commas size ++ u " chars"
  ++ (match target with [] => [] | _ => u " written to " ++ target end)
  ++ u "; the text is at " ++ path ++ u ". Read that path if you need it again.".

(** One field: the arguments, the characters freed, whether it changed. *)
Definition shrink_field (min_chars : Z) (sid cid : text) (field : string)
    (st : list (string * json) * Z * bool * fs) : list (string * json) * Z * bool * fs :=
  let '(args, freed, changed, d) := st in
  match json_text (obj_get field args) with
  | Some body =>
      if len body <? min_chars then st
      else match sid with
           | [] => st
           | _ =>
               match persist_for_compaction sessions_dir body (cid ++ u ".args." ++ utf8 field) sid d with
               | (Some path, d) =>
                   let new := shrunk_arg (len body) (target_of args) path in
                   (obj_set field (JStr (encode new)) args, freed + (len body - len new), true, d)
               | (None, d) => (args, freed, changed, d)
               end
           end
  | None => st
  end.

(** One call: [None] when it is left as it is. *)
Definition shrink_call (min_chars : Z) (sid : text) (allow landed_ids recent : list text)
    (tc : tool_call) (d : fs) : option (tool_call * Z) * fs :=
  let fields := shrinkable_fields tc.(tc_fn_name) allow in
  if match fields with [] => true | _ => false end || negb (nonempty tc.(tc_id))
     || negb (bool_decide (tc.(tc_id) ∈ landed_ids)) || bool_decide (tc.(tc_id) ∈ recent)
  then (None, d)
  else match tc.(tc_fn_args) with
       | Some (JStr raw) =>
           if len (utf8 raw) <? min_chars then (None, d)
           else match parse_json (utf8 raw) with
                | Some (JObj args) =>
                    let '(args', freed, changed, d) :=
                      fold_left (fun st f => shrink_field min_chars sid tc.(tc_id) f st) fields (args, 0, false, d) in
                    if changed
                    then (Some (set_fn_args (JStr (encode (dump_json (JObj args')))) tc, freed), d)
                    else (None, d)
                | _ => (None, d)
                end
       | _ => (None, d)
       end.

Fixpoint shrink_calls (min_chars : Z) (sid : text) (allow landed_ids recent : list text)
    (tcs : list tool_call) (d : fs) : list tool_call * Z * Z * fs :=
  match tcs with
  | [] => ([], 0, 0, d)
  | tc :: tcs =>
      let '(r, d) := shrink_call min_chars sid allow landed_ids recent tc d in
      let '(out, n, freed, d) := shrink_calls min_chars sid allow landed_ids recent tcs d in
      match r with
      | Some (tc', f) => (tc' :: out, n + 1, f + freed, d)
      | None => (tc :: out, n, freed, d)
      end
  end.

Fixpoint shrink_rows (min_chars : Z) (sid : text) (allow landed_ids recent : list text)
    (ms : list message) (d : fs) : list message * Z * Z * fs :=
  match ms with
  | [] => ([], 0, 0, d)
  | m :: ms =>
      let tcs := if is_assistant m then m.(m_tool_calls) else [] in
      let '(tcs', n, freed, d) := shrink_calls min_chars sid allow landed_ids recent tcs d in
      let '(out, n', freed', d) := shrink_rows min_chars sid allow landed_ids recent ms d in
      ((if 0 <? n then set_tool_calls tcs' m else m) :: out, n + n', freed + freed', d)
  end.

Definition shrink_assistant_arguments (keep_recent min_chars : Z) (sid : text) (tools : list text)
    (ms : list message) (d : fs) : list message * Z * Z * fs :=
  let allow := sel nonempty tools in
  match allow, ms with
  | [], _ | _, [] => (ms, 0, 0, d)
  | _, _ => shrink_rows min_chars sid allow (landed ms) (recent_calls keep_recent ms) ms d
  end.
End Pass.
