(* ===== verification/Summarize.v ===== *)
(** * Summarising and restoring

    [app/compaction_llm.py]: the requests a summary is made with, what is read out of
    the reply, and the files re-read from disk after a compaction. *)
From Stdlib Require Import String.
From S2P Require Import Prelude PyText QueueRows Spill Messages Microcompact.

Local Open Scope Z_scope.

(** ** Prompts *)

Definition dq : text := [34%N].

Definition SUMMARIZATION_SYSTEM_PROMPT : text :=
  join nl [
   u "You are summarizing a long conversation between a user and an AI assistant";
   u "so the assistant can continue the conversation under a smaller context";
   u "window. Your job is to capture EVERYTHING the assistant will need to";
   u "resume work seamlessly: the user's intent, the technical details of what";
   u "was done, what's still in flight, and any errors or feedback that shaped";
   u "the approach.";
   [];
   u "TEXT ONLY. Do NOT call any tools. Respond with the structure described";
   u "below — no preamble, no other commentary outside the tags.";
   [];
   u "First, draft your analysis inside <analysis>...</analysis>. Use this as";
   u "scratchpad: walk the conversation chronologically, surface user";
   u "requests, key decisions, code changes, errors and fixes. The analysis";
   u "will be stripped before the summary is shown to the assistant.";
   [];
   u "Then write the final summary inside <summary>...</summary>, using these";
   u "nine sections, in this order:";
   [];
   u "1. **Primary Request and Intent** — what the user asked for, in their";
   u "   own words where possible. Include any explicit constraints,";
   u "   non-goals, or acceptance criteria.";
   u "2. **Key Technical Concepts** — frameworks, libraries, services,";
   u "   architectural patterns, and named conventions that came up.";
   u "3. **Files and Code Sections** — file paths touched, with short";
   u "   descriptions of what was read, edited, or created. Quote critical";
   u "   snippets verbatim (function signatures, key invariants). Do NOT";
   u "   reproduce full file contents — those are persisted to disk and can";
   u "   be re-read on demand.";
   u "4. **Errors and Fixes** — every error encountered and how it was";
   u "   resolved. Especially capture user corrections (" ++ dq ++ u "no, not that" ++ dq ++ u ",";
   u "   " ++ dq ++ u "stop doing X" ++ dq ++ u ") since those carry strong preference signals.";
   u "5. **Problem Solving** — the line of reasoning the assistant followed,";
   u "   approaches considered, and why they were chosen or rejected.";
   u "6. **All User Messages** — list every user message verbatim (or near-";
   u "   verbatim) so the assistant can re-read user intent without losing";
   u "   nuance.";
   u "7. **Pending Tasks** — anything explicitly requested that hasn't been";
   u "   completed yet, in priority order.";
   u "8. **Current Work** — what the assistant was doing at the moment the";
   u "   summary was requested. Be specific: the exact file, function,";
   u "   command, or paragraph being worked on.";
   u "9. **Optional Next Step** — the single most logical next action.";
   u "   Reference the most recent user message or task to justify it. If";
   u "   nothing is obviously next, say so.";
   [];
   u "Note on tool calls: arguments and full results from prior tool calls";
   u "have been persisted to disk. You don't need to reproduce them. Refer";
   u "to them by tool name and intent (" ++ dq ++ u "read auth.py" ++ dq ++ u ", " ++ dq ++ u "ran pytest, 3";
   u "failures" ++ dq ++ u ") — the assistant can re-read the files if it needs more.";
   [];
   u "Reminder: respond with <analysis>...</analysis> followed immediately";
   u "by <summary>...</summary>. No other text.";
   []].

Definition INCREMENTAL_SYSTEM_PROMPT : text :=
  join nl [
   u "You maintain the running summary of a long conversation between a user and";
   u "an AI assistant, so the assistant can keep working after the older part of";
   u "the conversation leaves its context window.";
   [];
   u "You are given the CURRENT SUMMARY (it may be empty) and the NEW CONVERSATION";
   u "that happened after it. Produce the UPDATED SUMMARY: everything the current";
   u "summary says that is still true, plus what the new conversation adds. Never";
   u "drop a fact, constraint, decision or user correction from the current summary";
   u "unless the new conversation explicitly supersedes it; update it in place when";
   u "it does. Do not restate the conversation turn by turn.";
   [];
   u "TEXT ONLY. Do NOT call any tools. Respond with the updated summary inside";
   u "<summary>...</summary> and nothing else, using exactly these markdown";
   u "sections, in this order:";
   [];
   u "## Goal";
   u "What the user is trying to achieve, in their own words where possible.";
   u "## Constraints";
   u "Explicit requirements, preferences, non-goals and user corrections (" ++ dq ++ u "no,";
   u "not that" ++ dq ++ u ", " ++ dq ++ u "stop doing X" ++ dq ++ u ") — quote them; they carry the strongest signal.";
   u "## Progress";
   u "What has been done and what was found, with concrete names, numbers, errors";
   u "and their fixes. Keep specifics (identifiers, values, commands) verbatim.";
   u "## Decisions";
   u "Choices made and why, including approaches rejected.";
   u "## Next steps";
   u "What is still pending, in priority order, and what was in progress when the";
   u "conversation was cut.";
   [];
   u "Do not list the files that were edited — that list is kept separately.";
   u "Tool results are persisted to disk; refer to them by tool and intent (" ++ dq ++ u "read";
   u "auth.py" ++ dq ++ u ", " ++ dq ++ u "ran pytest, 3 failures" ++ dq ++ u ") rather than reproducing them.";
   []].

(** ** Reading the reply *)

(** A character as a case-insensitive pattern over ASCII letters sees it. *)
Definition fold_char (c : N) : N :=
  if (65 <=? c)%N && (c <=? 90)%N then (c + 32)%N
  else if (c =? 383)%N then 115%N                        (* long s *)
  else if (c =? 304)%N || (c =? 305)%N then 105%N        (* dotted and dotless i *)
  else if (c =? 8490)%N then 107%N                       (* Kelvin sign *)
  else c.

(** The first [open ... close] of a text, lazily: what is before, between and after. *)
Definition between (open close raw : text) : option (text * text * text) :=
  match find open (map fold_char raw) with
  | None => None
  | Some i =>
      let rest := drop (i + length open) raw in
      match find close (map fold_char rest) with
      | None => None
      | Some j => Some (take i raw, take j rest, drop (j + length close) rest)
      end
  end.

Fixpoint remove_between (fuel : nat) (open close raw : text) : text :=
  match fuel with
  | O => raw
  | S fuel => match between open close raw with
              | Some (before, _, after) => before ++ remove_between fuel open close after
              | None => raw
              end
  end.

(** Every match is at least as long as its tags, so a text as long as [raw] has fewer
    than [length raw] of them. *)
Definition extract_summary (raw : text) : text :=
  match raw with
  | [] => []
  | _ => match between (u "<summary>") (u "</summary>") raw with
         | Some (_, body, _) => strip body
         | None => strip (remove_between (length raw) (u "<analysis>") (u "</analysis>") raw)
         end
  end.

(** ** The request *)

(** [.upper()] of a role: the roles of the history are ASCII. *)
Definition upper_char (c : N) : N := if (97 <=? c)%N && (c <=? 122)%N then (c - 32)%N else c.
Definition upper (t : text) : text := map upper_char t.
Definition role_tag (m : message) : text := upper (match utf8 m.(m_role) with [] => u "?" | r => r end).

(** [text[:n]] up to the last line break in the second half of it. *)
Definition truncate_to_tokens (t : text) (max_tokens : Z) : text * bool :=
  if estimate_tokens t <=? max_tokens then (t, false)
  else
    let max_chars := max_tokens * 4 in
    let nl_at := match rfind_char 10 (slice_to max_chars t) with Some i => Z.of_nat i | None => -1 end in
    (slice_to (if max_chars / 2 <? nl_at then nl_at else max_chars) t, true).

Section Requests.
Context `{JsonText} `{PyJson}.

Definition format_history_for_summary (ms : list message) : text :=
  join (nl ++ nl)
    (omap (fun m => let t := message_text m in
                    if nonempty (strip t) then Some (u "[" ++ role_tag m ++ u "]" ++ nl ++ t) else None) ms).

(** [fn.get("arguments") or ""], rendered unless it is text, and cut at 300. *)
Definition call_line (tc : tool_call) : text :=
  let name := match tc_name tc with [] => u "?" | n => n end in
  let args := match tc.(tc_fn_args) with
              | Some (JStr s) => utf8 s
              | Some v => if falsy v then [] else utf8 (dumps_ascii v)
              | None => []
              end in
  let args := if 300 <? len args then upto args 300 ++ u "…" else args in
  u "[tool_call: " ++ name ++ u "(" ++ args ++ u ")]".

Definition format_delta_for_summary (ms : list message) : text :=
  join (nl ++ nl)
    (omap (fun m =>
       let t := join nl (sel (fun p => nonempty (strip p)) (message_text m :: map call_line m.(m_tool_calls))) in
       if nonempty (strip t) then Some (u "[" ++ role_tag m ++ u "]" ++ nl ++ t) else None) ms).

(** [_summary_endpoint]: [lookup] is the configured model's [base_url] and the
    [ANTHROPIC_BASE_URL] of its environment, empty where missing. *)
Fixpoint rstrip_char (c : N) (t : text) : text :=
  match t with
  | [] => []
  | x :: t => match rstrip_char c t with
              | [] => if (x =? c)%N then [] else [x]
              | t' => x :: t'
              end
  end.

Definition first_text (a b : text) : text := match a with [] => b | _ => a end.

Definition summary_endpoint (comp_model default_model : text) (lookup : text -> text * text)
    (model_alias : text) : text * text :=
  let name := first_text model_alias (first_text comp_model default_model) in
  let '(base, env_base) := lookup name in
  (rstrip_char 47 (first_text base env_base), name).

(** What a summariser needs of the world: where the model is served, and the content of
    its reply to a system and a user message, [None] for a request that fails. *)
Record summarizer := Summarizer {
  endpoint : text -> text * text;
  post : text * text -> text -> text -> option text
}.

(** The reply's summary, if there is one. *)
Definition reply_summary (reply : option text) : option text :=
  match reply with
  | None => None
  | Some raw => let s := extract_summary raw in if nonempty (strip s) then Some s else None
  end.

Definition summarize_history (w : summarizer) (ms : list message) (model instructions : text) : option text :=
  match ms with
  | [] => None
  | _ =>
      let at_ := w.(endpoint) model in
      let history := format_history_for_summary ms in
      if negb (nonempty (fst at_)) || negb (nonempty (strip history)) then None
      else
        let system := SUMMARIZATION_SYSTEM_PROMPT
                      ++ match instructions with
                         | [] => []
                         | _ => nl ++ nl ++ u "User's focus for this summarization:" ++ nl ++ strip instructions
                         end in
        reply_summary (w.(post) at_ system
          (u "Summarize the following conversation block per the spec in the system prompt:" ++ nl ++ nl ++ history))
  end.

Definition summarize_incremental (w : summarizer) (prior_summary : option text) (delta : list message)
    (model instructions : text) (input_budget_tokens : option Z) : option text :=
  match delta with
  | [] => None
  | _ =>
      let at_ := w.(endpoint) model in
      let d := format_delta_for_summary delta in
      if negb (nonempty (fst at_)) || negb (nonempty (strip d)) then None
      else
        let d := match input_budget_tokens with
                 | Some b => if negb (b =? 0) && (b <? estimate_tokens d)
                             then fst (truncate_to_tokens d b) ++ nl
                                  ++ u "…[new conversation clipped to the summariser's input budget]"
                             else d
                 | None => d
                 end in
        let system := INCREMENTAL_SYSTEM_PROMPT
                      ++ match instructions with
                         | [] => []
                         | _ => nl ++ nl ++ u "User's focus for this summary:" ++ nl ++ strip instructions
                         end in
        let current := match strip (default [] prior_summary) with
                       | [] => u "(empty — this is the first summary)"
                       | s => s
                       end in
        reply_summary (w.(post) at_ system
          (u "CURRENT SUMMARY:" ++ nl ++ current ++ nl ++ nl ++ u "NEW CONVERSATION:" ++ nl ++ nl ++ d
           ++ nl ++ nl ++ u "Write the UPDATED SUMMARY now."))
  end.

(** ** Restoring files *)

Fixpoint skip_space (t : text) : text :=
  match t with c :: t' => if isspace c then skip_space t' else t | [] => [] end.

Fixpoint upto_quote (t : text) : option text :=
  match t with
  | [] => None
  | c :: t => if (c =? 34)%N then Some [] else cons c <$> upto_quote t
  end.

(** One try of the pattern for a quoted [file_path] key, a colon and a quoted value that
    is not empty, and the search for its first match. *)
Definition match_file_path (t : text) : option text :=
  let key := dq ++ u "file_path" ++ dq in
  if startswith key t then
    match skip_space (drop (length key) t) with
    | 58%N :: t => match skip_space t with
                   | 34%N :: t => match upto_quote t with Some (c :: p) => Some (c :: p) | _ => None end
                   | _ => None
                   end
    | _ => None
    end
  else None.

Fixpoint search_file_path (t : text) : option text :=
  match match_file_path t with
  | Some p => Some p
  | None => match t with [] => None | _ :: t => search_file_path t end
  end.

Definition RESTORE_TOOL_NAMES : list text := [u "Read"; u "Edit"; u "Write"].

(** [args.get("file_path") or args.get("path")]. *)
Definition path_value (fs : list (string * json)) : json :=
  let v := default JNull (obj_get "file_path" fs) in
  if falsy v then default JNull (obj_get "path" fs) else v.

(** The path a call names. A list or an object cannot be looked up among those seen;
    any other value that is not text is no path and is skipped when it is opened. *)
Definition call_path (tc : tool_call) : outcome (option text) :=
  if negb (bool_decide (bare_tool_name (tc_name tc) ∈ RESTORE_TOOL_NAMES)) then Ok None
  else
    let raw := match tc.(tc_fn_args) with Some v => if falsy v then JObj [] else v | None => JObj [] end in
    let of_args v := match v with
                     | JObj fs => match path_value fs with
                                  | JStr s => Ok (match utf8 s with [] => None | p => Some p end)
                                  | v => if falsy v then Ok None
                                         else match v with JList _ | JObj _ => Raise TypeError | _ => Ok None end
                                  end
                     | _ => Ok None
                     end in
    match raw with
    | JStr s => match parse_json (utf8 s) with
                | Some v => of_args v
                | None => Ok (search_file_path (utf8 s))
                end
    | v => of_args v
    end.

Fixpoint collect_paths (calls : list tool_call) (ordered : list text) : outcome (list text) :=
  match calls with
  | [] => Ok ordered
  | tc :: calls =>
      p <-? call_path tc ;;
      collect_paths calls
        (match p with
         | Some p => if bool_decide (p ∈ ordered) then ordered else ordered ++ [p]
         | None => ordered
         end)
  end.

Definition extract_file_paths_from_dropped (dropped : list message) : outcome (list text) :=
  collect_paths (concat (map m_tool_calls (sel is_assistant (rev dropped)))) [].

Record restore_cfg := RestoreCfg { budget_tokens : Z; max_per_file : Z; max_files : Z }.
Definition default_restore : restore_cfg := RestoreCfg 50000 5000 5.

Definition RESTORED_CONTEXT_TAG : text := u "restored-context".

Definition file_body (path content : text) (was_trunc : bool) (cap : Z) : text :=
  u "<file path=" ++ dq ++ path ++ dq
  ++ (if was_trunc then u " truncated_to=" ++ dq ++ show cap ++ u "t" ++ dq else [])
  ++ u ">" ++ nl ++ content ++ nl ++ u "</file>".

(** [read_file] is the text of the file at a path as it is now, [None] when there is no
    such file or it cannot be read. *)
Fixpoint restore_loop (read_file : text -> option text) (c : restore_cfg) (paths : list text)
    (parts : list text) (spent : Z) : list text :=
  match paths with
  | [] => parts
  | path :: paths =>
      if (c.(max_files) <=? Z.of_nat (length parts)) || (c.(budget_tokens) <=? spent) then parts
      else match read_file path with
           | None => restore_loop read_file c paths parts spent
           | Some content =>
               let cap := Z.min c.(max_per_file) (Z.max 0 (c.(budget_tokens) - spent)) in
               if cap <=? 0 then parts
               else
                 let '(content, was_trunc) := truncate_to_tokens content cap in
                 let body := file_body path content was_trunc cap in
                 restore_loop read_file c paths (parts ++ [body]) (spent + estimate_tokens body)
           end
  end.

Definition restored_row (parts : list text) : message :=
  let t := u "<" ++ RESTORED_CONTEXT_TAG ++ u ">" ++ nl
           ++ u "Files you worked with before the compaction above, re-read from disk as they are now." ++ nl
           ++ join nl parts ++ nl ++ u "</" ++ RESTORED_CONTEXT_TAG ++ u ">" in
  Msg None "user" (CBlocks [BText t]) None [] [] None 0 None
    (JObj [("restored_files"%string, JInt (Z.of_nat (length parts)))]).

Definition restore_recent_files (read_file : text -> option text) (c : restore_cfg) (dropped : list message)
    : outcome (list message) :=
  paths <-? extract_file_paths_from_dropped dropped ;;
  Ok (match restore_loop read_file c paths [] 0 with
      | [] => []
      | parts => [restored_row parts]
      end).

(** The count a restored row carries is the int the loop wrote. *)
Definition restored_files_of (m : message) : Z :=
  match m.(m_rest) with
  | JObj fs => match obj_get "restored_files" fs with Some (JInt n) => n | _ => 0 end
  | _ => 0
  end.
Definition restored_file_count (rows : list message) : Z := foldr (fun m n => restored_files_of m + n) 0 rows.
End Requests.

(** ** Enough fuel *)

Lemma between_shorter open close raw b m a :
  open <> [] -> between open close raw = Some (b, m, a) -> (length a < length raw)%nat.
Proof.
  intros Ho. unfold between. destruct (find open _) as [i|] eqn:Ei; [|done].
  destruct (find close _) as [j|]; [|done]. intros [= <- <- <-].
  apply find_Some in Ei as (l & r & E & Hl). apply (f_equal length) in E.
  rewrite length_map, !length_app in E. rewrite !length_drop.
  destruct open as [|c open]; [done|]. simpl in *. lia.
Qed.

Lemma remove_between_fuel open close raw f g :
  open <> [] -> (length raw <= f)%nat -> (length raw <= g)%nat ->
  remove_between f open close raw = remove_between g open close raw.
Proof.
  intros Ho. revert raw g. induction f as [|f IH]; intros raw g Hf Hg.
  - destruct raw; [|simpl in Hf; lia]. destruct g; [done|]. simpl. unfold between.
    destruct open; [done|]. done.
  - destruct g as [|g].
    + destruct raw; [|simpl in Hg; lia]. simpl. unfold between. by destruct open.
    + simpl. destruct (between open close raw) as [[[b m] a]|] eqn:E; [|done].
      apply between_shorter in E; [|done]. f_equal. apply IH; lia.
Qed.

(** ** Cutting to a number of tokens *)

Lemma rfind_char_le c t i : rfind_char c t = Some i -> (i < length t)%nat.
Proof. intros H. apply rfind_char_lt in H. tauto. Qed.

Lemma slice_to_pos {A} n (l : list A) : 0 <= n -> slice_to n l = take (Z.to_nat n) l.
Proof. intros Hn. unfold slice_to, slice_pos. replace (n <? 0) with false by lia. done. Qed.

Lemma truncate_prefix t n : 0 <= n -> fst (truncate_to_tokens t n) `prefix_of` t.
Proof.
  intros Hn. unfold truncate_to_tokens. case_match; [done|]. cbn [fst].
  rewrite slice_to_pos; [apply prefix_take|]. case_match eqn:Hc; [|lia].
  destruct (rfind_char _ _); [lia|]. apply Z.ltb_lt in Hc. pose proof (Z.div_pos (n * 4) 2). lia.
Qed.

Lemma estimate_le t n : 1 <= n -> len t <= n * 4 + 3 -> estimate_tokens t <= n.
Proof.
  intros Hn Hl. unfold estimate_tokens, TOKENS_PER_CHAR. destruct t; [lia|].
  pose proof (Z.div_mod (len (n0 :: t)) 4). pose proof (Z.mod_pos_bound (len (n0 :: t)) 4). lia.
Qed.

Lemma truncate_fits t n : 1 <= n -> estimate_tokens (fst (truncate_to_tokens t n)) <= n.
Proof.
  intros Hn. unfold truncate_to_tokens. case_match; [simpl; lia|]. cbn [fst]. apply estimate_le; [done|].
  set (nl_at := match rfind_char 10 (slice_to (n * 4) t) with Some i => Z.of_nat i | None => -1 end).
  assert (nl_at <= n * 4) as Hnl.
  { unfold nl_at. destruct (rfind_char _ _) eqn:E; [|lia]. apply rfind_char_le in E.
    rewrite slice_to_pos in E by lia. rewrite length_take in E. lia. }
  assert (forall k, k <= n * 4 -> 0 <= k -> len (slice_to k t) <= n * 4 + 3) as Hk.
  { intros k H1 H2. rewrite slice_to_pos by lia. unfold len. rewrite length_take. lia. }
  case_match eqn:Hc; [|apply Hk; lia]. apply Z.ltb_lt in Hc. pose proof (Z.div_pos (n * 4) 2). apply Hk; lia.
Qed.

(** ** Which files come back *)

Section Restored.
Context `{PyJson}.

Lemma collect_paths_NoDup calls ordered paths :
  NoDup ordered -> collect_paths calls ordered = Ok paths -> NoDup paths.
Proof.
  revert ordered. induction calls as [|tc calls IH]; intros ordered Hn; cbn [collect_paths]; [by intros [= <-]|].
  intros (p & _ & E)%obind_ok. eapply IH; [|exact E]. destruct p as [p|]; [|done].
  case_bool_decide; [done|]. apply NoDup_app. split; [done|]. split; [set_solver|apply NoDup_singleton].
Qed.

Lemma collect_paths_named calls ordered paths :
  collect_paths calls ordered = Ok paths ->
  forall p, p ∈ paths <-> p ∈ ordered \/ exists tc, tc ∈ calls /\ call_path tc = Ok (Some p).
Proof.
  revert ordered. induction calls as [|tc calls IH]; intros ordered; cbn [collect_paths].
  - intros [= <-] p. set_solver.
  - intros (q & Eq & E)%obind_ok p. rewrite (IH _ E). destruct q as [q|].
    + assert (p ∈ (if bool_decide (q ∈ ordered) then ordered else ordered ++ [q]) <-> p ∈ ordered \/ p = q) as ->.
      { case_bool_decide; set_solver. }
      split.
      * intros [[? | -> ]|(tc' & ? & ?)]; [by left| right; exists tc; set_solver| right; exists tc'; set_solver].
      * intros [?|(tc' & Hin & Htc)]; [by left; left|].
        apply elem_of_cons in Hin as [-> |Hin]; [left; right; congruence|right; by exists tc'].
    + split.
      * intros [?|(tc' & ? & ?)]; [by left|right; exists tc'; set_solver].
      * intros [?|(tc' & Hin & Htc)]; [by left|].
        apply elem_of_cons in Hin as [-> |Hin]; [congruence|right; by exists tc'].
Qed.

(** A restored file: text that is on disk now, cut from its start to the cap. *)
Definition restored_part (read_file : text -> option text) (c : restore_cfg) (path body : text) : Prop :=
  exists content shown cut cap,
    read_file path = Some content /\ shown `prefix_of` content
    /\ 0 < cap <= max_per_file c /\ estimate_tokens shown <= cap
    /\ (cut = false -> shown = content) /\ body = file_body path shown cut cap.

Lemma restore_loop_spec read_file c paths parts spent :
  Z.of_nat (length parts) <= Z.max 0 (max_files c) ->
  exists picked bodies, restore_loop read_file c paths parts spent = parts ++ bodies
    /\ picked `sublist_of` paths /\ Forall2 (restored_part read_file c) picked bodies
    /\ Z.of_nat (length (parts ++ bodies)) <= Z.max 0 (max_files c).
Proof.
  revert parts spent. induction paths as [|path paths IH]; intros parts spent Hl; cbn [restore_loop].
  - exists [], []. rewrite app_nil_r. by repeat split; try constructor.
  - assert (exists picked bodies, parts = parts ++ bodies /\ picked `sublist_of` (path :: paths)
       /\ Forall2 (restored_part read_file c) picked bodies
       /\ Z.of_nat (length (parts ++ bodies)) <= Z.max 0 (max_files c)) as Hstop.
    { exists [], []. rewrite app_nil_r. repeat split; [apply sublist_nil_l|constructor|done]. }
    destruct (_ || _) eqn:Eb; [exact Hstop|]. bool_simp.
    destruct (read_file path) as [content|] eqn:Er.
    2:{ destruct (IH parts spent Hl) as (picked & bodies & E & Hs & F & Hn). exists picked, bodies.
        repeat split; [done|by constructor|done|done]. }
    set (cap := Z.min _ _). destruct (Z.leb_spec cap 0) as [|Hcap]; [exact Hstop|].
    destruct (truncate_to_tokens content cap) as [shown cut] eqn:Et.
    destruct (IH (parts ++ [file_body path shown cut cap]) (spent + estimate_tokens (file_body path shown cut cap)))
      as (picked & bodies & E & Hs & F & Hn); [rewrite length_app; simpl; lia|].
    exists (path :: picked), (file_body path shown cut cap :: bodies). rewrite E, <- app_assoc.
    split; [done|]. split; [by constructor|]. split; [|by rewrite <- app_assoc in Hn].
    constructor; [|done]. exists content, shown, cut, cap.
    pose proof (truncate_prefix content cap ltac:(lia)) as Hp. pose proof (truncate_fits content cap ltac:(lia)) as Hf.
    rewrite Et in Hp, Hf. cbn [fst] in *.
    split; [done|]. split; [done|]. split; [unfold cap in *; lia|]. split; [done|]. split; [|done].
    intros ->. unfold truncate_to_tokens in Et. by case_match; simplify_eq.
Qed.
End Restored.

Definition named_by (dropped : list message) (p : text) `{PyJson} : Prop :=
  exists m tc, m ∈ dropped /\ is_assistant m = true /\ tc ∈ m_tool_calls m /\ call_path tc = Ok (Some p).

(** What comes back after a compaction. The restored context is nothing, or one
    user row that counts its files; they are at most the number allowed, each a
    distinct path that a dropped assistant row read or wrote, each with text that is on
    disk now, cut to its cap in tokens from the start and marked as cut when it is. *)
Theorem restore_recent_files_spec `{PyJson} read_file c dropped rows :
  restore_recent_files read_file c dropped = Ok rows ->
  exists picked bodies,
    rows = (match bodies with [] => [] | _ => [restored_row bodies] end)
    /\ restored_file_count rows = Z.of_nat (length picked)
    /\ NoDup picked /\ (forall p, p ∈ picked -> named_by dropped p)
    /\ Forall2 (restored_part read_file c) picked bodies
    /\ Z.of_nat (length picked) <= Z.max 0 (max_files c).
Proof.
  unfold restore_recent_files. intros (paths & Ep & [= <-])%obind_ok.
  destruct (restore_loop_spec read_file c paths [] 0) as (picked & bodies & E & Hs & F & Hn); [simpl; lia|].
  exists picked, bodies. rewrite E. cbn [app] in *. pose proof (Forall2_length _ _ _ F) as Hl.
  split; [by destruct bodies|]. split.
  { destruct bodies; [by rewrite Hl|]. unfold restored_file_count, restored_row. cbn [foldr restored_files_of m_rest obj_get].
    rewrite Hl. simpl. lia. }
  split; [eapply sublist_NoDup; [|exact Hs]; eapply collect_paths_NoDup; [|exact Ep]; constructor|].
  split; [|split; [done|by rewrite Hl]].
  intros p Hp. assert (p ∈ paths) as Hin by (eapply elem_of_sublist; eauto).
  apply (collect_paths_named _ _ _ Ep) in Hin as [Hin|(tc & Htc & Hcall)]; [by apply elem_of_nil in Hin|].
  apply list_elem_of_In, in_concat in Htc as (calls & Hc & Htc). apply in_map_iff in Hc as (m & <- & Hm).
  apply list_elem_of_In, elem_of_sel in Hm as [Hm Ha]. exists m, tc.
  split; [by apply list_elem_of_In, in_rev, list_elem_of_In|]. split; [done|]. split; [by apply list_elem_of_In|done].
Qed.

#[local] Existing Instance blank_py.

Lemma restore_recent_files_spec_witness :
  let call := ToolCall [] [] (u "Read") (Some (JObj [("file_path"%string, JStr "/a")])) [] JNull JNull in
  let m := Msg None "assistant" (CStr []) None [call] [] None 0 None JNull in
  let disk p := if bool_decide (p = u "/a") then Some (u "body") else None in
  exists rows, restore_recent_files disk default_restore [m] = Ok rows /\ restored_file_count rows = 1.
Proof.
  intros call m disk. destruct (restore_recent_files disk default_restore [m]) as [rows|e] eqn:E;
    [|vm_compute in E; discriminate].
  exists rows. split; [reflexivity|].
  destruct (restore_recent_files_spec disk default_restore [m] rows E) as (picked & bodies & Er & _).
  vm_compute in E. injection E as <-. reflexivity.
Defined.
