(* ===== verification/MicroFacts.v ===== *)
(** * Microcompaction: what it promises

    What the clearing pass leaves in place, that what it takes out of the prompt is on
    disk, what its budget rule selects, that dropping previews is idempotent, and how
    the sidecar replays a reduction. *)
From Stdlib Require Import String.
From S2P Require Import Prelude PyText QueueRows Spill Messages Microcompact.

Local Open Scope Z_scope.

(** ** Results and their markers *)

Lemma replace_text m t : tool_result_text (replace_tool_content m t) = t.
Proof. unfold tool_result_text, replace_tool_content. by destruct (m_content m). Qed.

Lemma replace_role m t : m_role (replace_tool_content m t) = m_role m.
Proof. done. Qed.

Lemma replace_call_id m t : m_call_id (replace_tool_content m t) = m_call_id m.
Proof. done. Qed.

Lemma contains_app p l r : contains p (l ++ p ++ r) = true.
Proof. apply contains_spec. eauto. Qed.

Lemma contains_within p l t r : contains p t = true -> contains p (l ++ t ++ r) = true.
Proof.
  intros (a & b & ->)%contains_spec. apply contains_spec. exists (l ++ a), (b ++ r).
  by rewrite <- !app_assoc.
Qed.

Lemma contains_skip p l t : contains p t = true -> contains p (l ++ t) = true.
Proof. intros Hc. rewrite <- (app_nil_r t). by apply contains_within. Qed.

Lemma contains_here p r : contains p (p ++ r) = true.
Proof. apply (contains_app p [] r). Qed.

Lemma startswith_contains p t : startswith p t = true -> contains p t = true.
Proof. intros [r ->]%startswith_spec. apply (contains_app p [] r). Qed.

Lemma find_drop p t i : find p t = Some i -> startswith p (drop i t) = true.
Proof.
  intros (l & r & -> & <-)%find_Some. rewrite drop_app_length. apply startswith_spec. eauto.
Qed.

(** A first line that has no line boundary in its first characters keeps them. *)
Lemma splitlines_first p t :
  Forall (fun c => isline c = false) p -> p <> [] ->
  exists l rest, splitlines (p ++ t) = (p ++ l) :: rest.
Proof.
  intros Hp Hne. unfold splitlines.
  assert (forall q cur cr, Forall (fun c => isline c = false) q -> (q <> [] \/ cur <> []) ->
    exists l rest, splitlines_aux cr cur (q ++ t) = (cur ++ q ++ l) :: rest
                   \/ (cr = true /\ q = [])) as Hg.
  { induction q as [|c q IH]; intros cur cr Hq Hor.
    - destruct Hor as [|Hcur]; [done|]. simpl. revert cur cr Hcur. induction t as [|x t IHt]; intros cur cr Hcur; simpl.
      + destruct cur; [done|]. exists [], []. left. by rewrite app_nil_r.
      + destruct (isline x); [destruct cr; [exists [], []; by right|]|].
        * exists [], (splitlines_aux (x =? 13)%N [] t). left. by rewrite app_nil_r.
        * destruct (IHt (cur ++ [x]) false) as (l & rest & [E|[? ?]]); [by destruct cur|..]; [|done].
          exists (x :: l), rest. left. rewrite E. by rewrite <- app_assoc.
    - apply Forall_cons in Hq as [Hc Hq]. simpl. rewrite Hc.
      destruct (IH (cur ++ [c]) false Hq) as (l & rest & [E|[? ?]]); [right; by destruct cur|..]; [|done].
      exists l, rest. left. rewrite E. by rewrite <- app_assoc. }
  destruct (Hg p [] false Hp) as (l & rest & [E|[? ?]]); [by left|..]; [|done].
  by exists l, rest.
Qed.

Lemma tag_no_line : Forall (fun c => isline c = false) PERSISTED_OUTPUT_TAG.
Proof. vm_compute. repeat constructor. Qed.

Lemma lstrip_suffix s : exists w, s = w ++ lstrip s.
Proof.
  induction s as [|c s [w IH]]; simpl; [by exists []|]. destruct (isspace c); [|by exists []].
  exists (c :: w). simpl. by rewrite <- IH.
Qed.

Lemma strip_nonempty c t : isspace c = false -> nonempty (strip (c :: t)) = true.
Proof.
  intros Hc. unfold strip. simpl. rewrite Hc. simpl. by destruct (rstrip t); rewrite ?Hc.
Qed.

Lemma strip_tag l : nonempty (strip (PERSISTED_OUTPUT_TAG ++ l)) = true.
Proof. exact (strip_nonempty 60%N (tail PERSISTED_OUTPUT_TAG ++ l) eq_refl). Qed.

(** A reduced block starts with the tag and ends with the notice. *)
Lemma block_only_shape t :
  contains PERSISTED_OUTPUT_TAG t = true -> is_cleared_stub t = false ->
  exists l, persisted_block_only t = PERSISTED_OUTPUT_TAG ++ l ++ nl ++ PREVIEW_DROPPED.
Proof.
  intros Hc Hs. unfold persisted_block_only. unfold contains in Hc. apply bool_decide_eq_true in Hc as [i Hi].
  rewrite Hi, Hs. apply find_drop, startswith_spec in Hi as [r Hr]. rewrite Hr.
  destruct (splitlines_first PERSISTED_OUTPUT_TAG r tag_no_line ltac:(done)) as (l & rest & E).
  rewrite E. cbn [take sel]. rewrite strip_tag. destruct rest as [|a rest].
  - exists l. cbn [take sel join]. by rewrite <- app_assoc.
  - cbn [take]. set (rows := sel _ _). destruct rows as [|b rows'].
    + exists l. cbn [join]. by rewrite <- app_assoc.
    + exists (l ++ nl ++ join nl (b :: rows')). cbn [join]. by rewrite <- !app_assoc.
Qed.

Lemma block_only_stub t :
  contains PERSISTED_OUTPUT_TAG t = true -> is_cleared_stub t = false ->
  forall r, is_cleared_stub (persisted_block_only t ++ r) = true.
Proof.
  intros Hc Hs r. destruct (block_only_shape t Hc Hs) as [l ->]. unfold is_cleared_stub.
  apply orb_true_iff. right. apply andb_true_iff. split.
  - rewrite <- !app_assoc. apply startswith_contains, startswith_spec. eauto.
  - assert ((PERSISTED_OUTPUT_TAG ++ l ++ nl ++ PREVIEW_DROPPED) ++ r
            = (PERSISTED_OUTPUT_TAG ++ l ++ nl) ++ PREVIEW_DROPPED ++ r) as -> by (by rewrite <- !app_assoc).
    apply contains_app.
Qed.

Lemma block_only_stub_nil t :
  contains PERSISTED_OUTPUT_TAG t = true -> is_cleared_stub t = false ->
  is_cleared_stub (persisted_block_only t) = true.
Proof. intros Hc Hs. rewrite <- (app_nil_r (persisted_block_only t)). by apply block_only_stub. Qed.

(** ** The block of a spilled result *)

(** What a size is written with: digits, their punctuation and a unit. None of it breaks
    a line or begins the words in front of a path. *)
Definition size_char (c : N) : Prop := (48 <= c <= 57)%N \/ c ∈ [32; 44; 45; 46; 66; 75; 77]%N.

Lemma size_char_spec c : size_char c -> isline c = false /\ c <> 70%N.
Proof.
  unfold size_char. rewrite !elem_of_cons, elem_of_nil. intros [Hc|Hc]; [|by destruct Hc as [->|[->|[->|[->|[->|[->|[->|[]]]]]]]]].
  split; [|lia]. unfold isline. repeat match goal with |- context [(?a <=? ?b)%N] => destruct (N.leb_spec a b); try lia | |- context [(?a =? ?b)%N] => destruct (N.eqb_spec a b); try lia end; done.
Qed.

Lemma digits_size fuel n acc : Forall size_char acc -> Forall size_char (digits_fuel fuel n acc).
Proof.
  revert n acc. induction fuel as [|fuel IH]; intros n acc Ha; [done|]. cbn [digits_fuel].
  assert (Forall size_char ((48 + n mod 10)%N :: acc)) as Ha'.
  { apply Forall_cons. split; [|done]. left. pose proof (N.mod_lt n 10 ltac:(done)) as Hm. revert Hm. generalize (n mod 10)%N. clear. lia. }
  destruct (n <? 10)%N; [done|by apply IH].
Qed.

Lemma show_size z : Forall size_char (show z).
Proof.
  assert (D : forall n, Forall size_char (show_N n)) by (intros n; apply digits_size; constructor).
  destruct z; cbn [show]; [apply D..|]. apply Forall_cons. split; [right; apply (bool_decide_unpack _); vm_compute; exact I|apply D].
Qed.

Lemma group3_size fuel s : (length s <= fuel)%nat -> Forall size_char s -> Forall size_char (group3 s).
Proof.
  revert s. induction fuel as [|fuel IH]; intros s Hl Hs; [destruct s; [done|simpl in Hl; lia]|].
  destruct s as [|a [|b [|c [|x s]]]]; [done..|]. cbn [group3].
  apply Forall_cons in Hs as [Ha Hs]. apply Forall_cons in Hs as [Hb Hs]. apply Forall_cons in Hs as [Hc Hs].
  do 3 (apply Forall_cons; split; [done|]). apply Forall_cons. split; [right; apply (bool_decide_unpack _); vm_compute; exact I|].
  apply (IH (x :: s)); [|done]. cbn [length] in *. lia.
Qed.

Lemma commas_size z : Forall size_char (show_commas z).
Proof.
  assert (D : forall n, Forall size_char (rev (group3 (rev (show_N n))))).
  { intros n. apply Forall_rev, (group3_size _ _ (le_n _)), Forall_rev, digits_size. constructor. }
  destruct z; cbn [show_commas]; [apply D..|]. apply Forall_cons. split; [right; apply (bool_decide_unpack _); vm_compute; exact I|apply D].
Qed.

Lemma forallb_Forall_impl {A} (p : A -> bool) (Q : A -> Prop) s : forallb p s = true -> (forall c, p c = true -> Q c) -> Forall Q s.
Proof. intros F I. induction s as [|c s IH]; [constructor|]. simpl in F. bool_simp. constructor; auto. Qed.

Lemma format_size_size n : Forall size_char (format_size n).
Proof.
  assert (U : forall s, forallb (fun c => bool_decide (c ∈ [32; 46; 66; 75; 77]%N)) s = true -> Forall size_char s).
  { intros s F. eapply forallb_Forall_impl; [exact F|]. intros c Hc%bool_decide_eq_true. right. set_solver. }
  unfold format_size, tenths. cbv zeta. repeat case_match; rewrite ?Forall_app; repeat split; first [apply show_size | by apply U].
Qed.

(** The words in front of the path of a spilled result, and the block from there on. *)
Definition size_line (content : text) : text :=
  u "Output too large (" ++ format_size (len content) ++ u ", " ++ show_commas (len content) ++ u " chars). ".

Lemma spill_block_shape content tool p deny rest : exists after,
  spill_block content tool p deny ++ rest = PERSISTED_OUTPUT_TAG ++ nl ++ (size_line content ++ SAVED_TO ++ p) ++ nl ++ nl ++ after.
Proof.
  unfold spill_block, size_line. destruct (generate_preview _ _) as [preview more]. eexists. rewrite <- !app_assoc. reflexivity.
Qed.

Lemma size_line_plain content : Forall (fun c => isline c = false /\ c <> 70%N) (size_line content).
Proof.
  assert (U : forall s, forallb (fun c => negb (isline c) && negb (c =? 70)%N) s = true -> Forall (fun c => isline c = false /\ c <> 70%N) s).
  { intros s F. eapply forallb_Forall_impl; [exact F|]. intros c Hc. apply andb_true_iff in Hc as [H1 H2]. apply negb_true_iff in H1, H2. split; [done|by apply N.eqb_neq]. }
  assert (Z : forall s, Forall size_char s -> Forall (fun c => isline c = false /\ c <> 70%N) s) by (intros s F; eapply Forall_impl; [exact F|exact size_char_spec]).
  unfold size_line. rewrite !Forall_app. repeat split; first [by apply U | apply Z, format_size_size | apply Z, commas_size].
Qed.

(** A pattern is found behind what does not hold its first character. *)
Lemma find_behind c p l r : Forall (fun x => x <> c) l -> find (c :: p) (l ++ (c :: p) ++ r) = Some (length l).
Proof.
  induction 1 as [|x l Hx _ IH].
  - assert (S0 : startswith (c :: p) ((c :: p) ++ r) = true) by (apply startswith_spec; eauto). cbn [app find] in *. by rewrite S0.
  - cbn [app]. cbn [find]. cbn [startswith]. rewrite (proj2 (N.eqb_neq c x)) by done. cbn [andb]. cbn [app] in IH. by rewrite IH.
Qed.

Lemma first_line_of a b : Forall (fun c => isline c = false) a -> first_line (a ++ nl ++ b) = a.
Proof.
  induction 1 as [|c a Hc _ IH]; [done|]. cbn [app first_line]. destruct (N.eqb_spec c 10) as [->|]; [done|]. by rewrite IH.
Qed.

Lemma splitlines_line a b : Forall (fun c => isline c = false) a -> splitlines (a ++ nl ++ b) = a :: splitlines b.
Proof.
  unfold splitlines. assert (G : forall cur cr, Forall (fun c => isline c = false) a -> (cr = true -> a <> []) -> splitlines_aux cr cur (a ++ nl ++ b) = (cur ++ a) :: splitlines_aux false [] b).
  { induction a as [|c a IH]; intros cur cr F Hcr; cbn [app splitlines_aux].
    - destruct cr; [by destruct (Hcr eq_refl)|]. cbn. by rewrite app_nil_r.
    - apply Forall_cons in F as [-> F]. rewrite IH by done. by rewrite <- app_assoc. }
  intros F. by apply (G [] false).
Qed.

(** A path the block can carry: one line, no blanks at its ends. *)
Definition plain_path (p : text) : Prop := Forall (fun c => isline c = false) p /\ strip p = p.

Lemma spill_pointer content tool p deny rest : plain_path p -> pointer_path (spill_block content tool p deny ++ rest) = p.
Proof.
  intros [Hl Hs]. destruct (spill_block_shape content tool p deny rest) as [after ->]. unfold pointer_path.
  set (front := PERSISTED_OUTPUT_TAG ++ nl ++ size_line content).
  assert (E : PERSISTED_OUTPUT_TAG ++ nl ++ (size_line content ++ SAVED_TO ++ p) ++ nl ++ nl ++ after = front ++ SAVED_TO ++ p ++ nl ++ nl ++ after)
    by (unfold front; by rewrite <- !app_assoc).
  rewrite E. assert (F : find SAVED_TO (front ++ SAVED_TO ++ p ++ nl ++ nl ++ after) = Some (length front)).
  { change SAVED_TO with (70%N :: tail SAVED_TO). apply find_behind. unfold front. rewrite !Forall_app. split; [|split].
    - apply (bool_decide_unpack _). vm_compute. exact I.
    - apply (bool_decide_unpack _). vm_compute. exact I.
    - eapply Forall_impl; [apply size_line_plain|]. by intros c [_ ?]. }
  rewrite F, <- drop_drop, drop_app_length, drop_app_length. by rewrite first_line_of.
Qed.

Lemma spill_block_kept content tool p deny rest : plain_path p -> is_cleared_stub (spill_block content tool p deny ++ rest) = false ->
  contains p (persisted_block_only (spill_block content tool p deny ++ rest)) = true.
Proof.
  intros [Hl Hs] Hc. revert Hc. destruct (spill_block_shape content tool p deny rest) as [after ->]. intros Hc. unfold persisted_block_only.
  set (line := size_line content ++ SAVED_TO ++ p) in *. set (t := PERSISTED_OUTPUT_TAG ++ nl ++ line ++ nl ++ nl ++ after) in *.
  assert (F : find PERSISTED_OUTPUT_TAG t = Some 0%nat) by (exact (find_behind 60%N _ [] _ (Forall_nil_2 _))). rewrite F, Hc.
  assert (Forall (fun c => isline c = false) line) as L.
  { unfold line. rewrite !Forall_app. split; [eapply Forall_impl; [apply size_line_plain|by intros c [? _]]|]. split; [|done]. apply (bool_decide_unpack _). vm_compute. exact I. }
  change (drop 0 t) with (PERSISTED_OUTPUT_TAG ++ nl ++ (line ++ nl ++ nl ++ after)).
  rewrite splitlines_line by exact tag_no_line. rewrite splitlines_line by done.
  change (nl ++ after) with ([] ++ nl ++ after). rewrite splitlines_line by constructor.
  cbn [take sel]. assert (N1 : nonempty (strip line) = true) by (exact (strip_nonempty 79%N _ eq_refl)).
  rewrite N1. change (nonempty (strip PERSISTED_OUTPUT_TAG)) with true. change (nonempty (strip [])) with false. rewrite take_0. cbn [sel join].
  apply contains_spec. exists (PERSISTED_OUTPUT_TAG ++ nl ++ size_line content ++ SAVED_TO), (nl ++ PREVIEW_DROPPED). unfold line. rewrite <- !app_assoc. reflexivity.
Qed.

(** ** Positions *)

Lemma positions_spec p ms i : i ∈ positions p ms <-> exists m, ms !! i = Some m /\ p m = true.
Proof.
  unfold positions. rewrite list_elem_of_omap. split.
  - intros ([j m] & Hin & Hs). destruct (p m) eqn:Ep; simplify_eq. apply list_elem_of_lookup in Hin as [k Hk].
    rewrite lookup_zip_with in Hk. destruct (seq _ _ !! k) as [j|] eqn:E1; simpl in Hk; [|done].
    destruct (ms !! k) as [m'|] eqn:E2; simpl in Hk; [|done]. simplify_eq.
    apply lookup_seq in E1 as [-> _]. by exists m.
  - intros (m & Hm & Hp). exists (i, m). rewrite Hp. split; [|done].
    apply list_elem_of_lookup. exists i. rewrite lookup_zip_with. pose proof (lookup_lt_Some _ _ _ Hm) as Hlt.
    rewrite (lookup_seq_lt 0 (length ms) i Hlt). simpl. by rewrite Hm.
Qed.

Lemma positions_NoDup p ms : NoDup (positions p ms).
Proof.
  assert (positions p ms `sublist_of` seq 0 (length ms)) as Hs.
  { unfold positions. assert (forall k, omap (fun '(i, m) => if p m then Some i else None) (zip (seq k (length ms)) ms)
        `sublist_of` seq k (length ms)) as Hg; [|apply Hg].
    induction ms as [|m ms IH]; intros k; simpl; [done|]. destruct (p m); by constructor. }
  eapply sublist_NoDup; [apply NoDup_seq|exact Hs].
Qed.

Lemma select_budget_sub saved b c idxs i : i ∈ select_budget saved b c idxs -> i ∈ idxs.
Proof.
  revert c. induction idxs as [|j idxs IH]; intros c; simpl; [done|].
  destruct (saved j <=? 0); [intros; right; eauto|].
  intros [->|Hi]%elem_of_cons; [by left|]. right. case_match; [by apply elem_of_nil in Hi|eauto].
Qed.

Lemma sizeable_candidates o ms i : i ∈ sizeable o ms -> i ∈ candidates o ms.
Proof. unfold sizeable. rewrite elem_of_sel. tauto. Qed.

Lemma selected_candidates o ms i : i ∈ selected o ms -> i ∈ candidates o ms.
Proof.
  intros Hi. apply sizeable_candidates. unfold selected in Hi.
  repeat case_match; by (apply elem_of_nil in Hi || apply select_budget_sub in Hi || idtac).
Qed.

Lemma to_clear_candidates o ms i : i ∈ to_clear o ms -> i ∈ candidates o ms.
Proof.
  unfold to_clear. rewrite elem_of_app, elem_of_sel. intros [Hi|[Hi _]]; [by apply selected_candidates|done].
Qed.

Lemma candidates_spec o ms i :
  i ∈ candidates o ms ->
  exists m, ms !! i = Some m /\ compactable o (calls_of ms) m = true /\ is_cleared_stub (tool_result_text m) = false.
Proof.
  unfold candidates. rewrite elem_of_sel. intros [Hi Hs].
  assert (i ∈ compactable_indices o ms) as Hc.
  { eapply elem_of_take in Hi as (k & Hk & _). by eapply list_elem_of_lookup_2. }
  apply positions_spec in Hc as (m & Hm & Hc). exists m. split; [done|]. split; [done|].
  unfold text_at in Hs. rewrite Hm in Hs. simpl in Hs. by apply negb_true_iff in Hs.
Qed.

(** The rows of the recent window are no candidates. *)
Lemma recent_not_candidate o ms i :
  i ∈ drop (Z.to_nat (Z.max 0 (Z.of_nat (length (compactable_indices o ms)) - Z.max 0 (keep_recent_tools o))))
        (compactable_indices o ms) ->
  i ∉ candidates o ms.
Proof.
  intros Hd Hc. unfold candidates in Hc. apply elem_of_sel in Hc as [Hc _].
  set (n := Z.to_nat _) in *. pose proof (positions_NoDup (compactable o (calls_of ms)) ms) as Hn.
  fold (compactable_indices o ms) in Hn. rewrite <- (take_drop n (compactable_indices o ms)) in Hn.
  apply NoDup_app in Hn as (_ & Hn & _). by eapply Hn.
Qed.

(** ** What the pass leaves of each row *)

Section Facts.
Context `{PyJson} `{Disk}.
Variables (sessions_dir : text) (resolve : text -> text).

Abbreviation microcompact := (microcompact sessions_dir resolve).

Lemma rewrite_rows o tbl route rd clear i ms d j m :
  ms !! j = Some m ->
  exists m', mc_out (rewrite_from sessions_dir resolve o tbl route rd clear i ms d) !! j = Some m'
    /\ (m' = m \/ (i + j)%nat ∈ clear /\ exists t, m' = replace_tool_content m t).
Proof.
  revert i d j. induction ms as [|a ms IH]; intros i d j Hj; [done|]. cbn [rewrite_from].
  assert (forall d', exists r, rewrite_from sessions_dir resolve o tbl route rd clear (S i) ms d' = r) as _ by eauto.
  destruct j as [|j]; simpl in Hj.
  - simplify_eq. rewrite Nat.add_0_r. case_bool_decide as Hc; simpl; [|by exists m; auto].
    destruct (contains _ _).
    + destruct (clear_spilled _ _ _ _ _ _ _) as [[t h]|]; simpl; eauto 10.
    + destruct (clear_fresh _ _ _ _ _ _ _ _) as [[t|] d']; simpl; eauto 10.
  - replace (i + S j)%nat with (S i + j)%nat by lia.
    case_bool_decide; simpl; [|by apply IH].
    destruct (contains _ _).
    + destruct (clear_spilled _ _ _ _ _ _ _) as [[t h]|]; simpl; by apply IH.
    + destruct (clear_fresh _ _ _ _ _ _ _ _) as [[t|] d']; simpl; by apply IH.
Qed.

Lemma rewrite_length o tbl route rd clear i ms d :
  length (mc_out (rewrite_from sessions_dir resolve o tbl route rd clear i ms d)) = length ms.
Proof.
  revert i d. induction ms as [|a ms IH]; intros i d; [done|]. cbn [rewrite_from].
  case_bool_decide; simpl; [|by rewrite IH]. destruct (contains _ _).
  - destruct (clear_spilled _ _ _ _ _ _ _) as [[t h]|]; simpl; by rewrite IH.
  - destruct (clear_fresh _ _ _ _ _ _ _ _) as [[t|] d']; simpl; by rewrite IH.
Qed.

Lemma microcompact_rows o ms d j m :
  ms !! j = Some m ->
  exists m', mc_out (microcompact o ms d) !! j = Some m'
    /\ (m' = m \/ j ∈ to_clear o ms /\ exists t, m' = replace_tool_content m t).
Proof.
  intros Hj. unfold Microcompact.microcompact. destruct (to_clear o ms) as [|i0 l] eqn:E; [by exists m; auto|].
  by apply (rewrite_rows o (calls_of ms) _ _ (i0 :: l) 0 ms d j m).
Qed.

Lemma microcompact_length o ms d : length (mc_out (microcompact o ms d)) = length ms.
Proof. unfold Microcompact.microcompact. destruct (to_clear o ms); [done|]. apply rewrite_length. Qed.
(** ** What leaves the prompt is on disk *)

(** The file a result is saved to. *)
Definition path_of (o : mc_options) (m : message) : text :=
  spill_path sessions_dir (session_id o) (m_call_id m) (looks_like_json (tool_result_text m)).

(** A text that names a file: its path, or the observation id that resolves to it. *)
Definition names_file (t p : text) : Prop :=
  contains p t = true \/ exists r, t = OBSERVATION_STUB_PREFIX ++ stem p ++ r.

Lemma clear_fresh_frame o tbl route rd m d q :
  path_of o m <> q -> snd (clear_fresh sessions_dir resolve o tbl route rd m d) !! q = d !! q.
Proof.
  intros Hq. unfold clear_fresh. destruct (nonempty _ && nonempty _); [|done].
  pose proof (persist_frame sessions_dir (tool_result_text m) (m_call_id m) (session_id o) d q) as Hf.
  destruct (persist_for_compaction _ _ _ _ _) as [[p|] d']; simpl in *; apply Hf; intros ->; by apply Hq.
Qed.

Lemma cleared_marker_names name args size p rd route :
  name <> [] -> contains p (cleared_marker name args size (Some p) rd route) = true.
Proof.
  intros Hn. unfold cleared_marker. destruct name as [|c name]; [done|].
  destruct rd; do 5 apply contains_skip; apply contains_here.
Qed.

Lemma observation_stub_names id name args size src n route :
  exists r, observation_stub id name args size src n route = OBSERVATION_STUB_PREFIX ++ id ++ r.
Proof.
  unfold observation_stub. destruct (generate_preview _ _) as [head b].
  cbn [app join]. eexists. rewrite <- !app_assoc. reflexivity.
Qed.

Lemma clear_fresh_saves o tbl route rd m d t d' :
  session_id o <> [] -> m_call_id m <> [] -> name_of tbl (m_call_id m) <> [] ->
  clear_fresh sessions_dir resolve o tbl route rd m d = (Some t, d') ->
  d' !! path_of o m = Some (tool_result_text m) /\ names_file t (path_of o m).
Proof.
  intros Hs Hc Hn. unfold clear_fresh.
  destruct (session_id o) as [|s0 s1] eqn:Es; [done|]. destruct (m_call_id m) as [|c0 c1] eqn:Ec; [done|].
  cbn [nonempty andb]. destruct (persist_for_compaction _ _ _ _ _) as [[p|] d1] eqn:Ep; [|done].
  apply persist_ok in Ep as [-> Hp]. unfold path_of. rewrite Es, Ec. intros E. simplify_eq. split; [done|].
  set (p := spill_path _ _ _ _). unfold names_file.
  destruct (if stubs_on o then _ else _) as [|i0 i1] eqn:Eo.
  - left. by apply cleared_marker_names.
  - right. assert (i0 :: i1 = stem p) as ->.
    { destruct (stubs_on o); [|done]. unfold observation_id_for_path in Eo.
      destruct p as [|p0 p1]; [done|]. case_bool_decide; [done|done]. }
    apply observation_stub_names.
Qed.

(** No write of the pass touches a path that is not that of a row it saves. *)
Lemma rewrite_frame o tbl route rd clear i ms d q :
  (forall j m, ms !! j = Some m -> (i + j)%nat ∈ clear -> contains PERSISTED_OUTPUT_TAG (tool_result_text m) = false -> path_of o m <> q) ->
  mc_fs (rewrite_from sessions_dir resolve o tbl route rd clear i ms d) !! q = d !! q.
Proof.
  revert i d. induction ms as [|a ms IH]; intros i d Hq; [done|]. cbn [rewrite_from].
  assert (forall d', mc_fs (rewrite_from sessions_dir resolve o tbl route rd clear (S i) ms d') !! q = d' !! q) as Hrest.
  { intros d'. apply IH. intros j m Hj Hc. apply (Hq (S j) m Hj). by replace (i + S j)%nat with (S i + j)%nat by lia. }
  case_bool_decide as Hc; simpl; [|apply Hrest]. destruct (contains _ _) eqn:Et.
  - destruct (clear_spilled _ _ _ _ _ _ _) as [[t h]|]; simpl; apply Hrest.
  - pose proof (clear_fresh_frame o tbl route rd a d q) as Hf.
    destruct (clear_fresh _ _ _ _ _ _ _ _) as [[t|] d']; simpl in *; rewrite Hrest;
      apply Hf, (Hq 0%nat a eq_refl); by rewrite ?Nat.add_0_r.
Qed.

(** Where the whole of a result is, or will be, on disk: a result in full goes to its own
    file; the block of a spilled one, whatever follows it, names the file that holds it. *)
Inductive kept_at (o : mc_options) (d : fs) (m : message) : text -> text -> Prop :=
  | kept_fresh : contains PERSISTED_OUTPUT_TAG (tool_result_text m) = false -> kept_at o d m (path_of o m) (tool_result_text m)
  | kept_spilled content tool p deny rest : tool_result_text m = spill_block content tool p deny ++ rest -> plain_path p ->
      d !! p = Some content -> kept_at o d m p content.

Lemma spilled_tagged content tool p deny rest : contains PERSISTED_OUTPUT_TAG (spill_block content tool p deny ++ rest) = true.
Proof. destruct (spill_block_shape content tool p deny rest) as [after ->]. apply contains_here. Qed.

Lemma clear_spilled_names o tbl route d m content tool p deny rest t h : tool_result_text m = spill_block content tool p deny ++ rest ->
  plain_path p -> is_cleared_stub (tool_result_text m) = false -> clear_spilled sessions_dir resolve o tbl route d m = Some (t, h) -> names_file t p.
Proof.
  intros Et Hp Hc. unfold clear_spilled. rewrite Et in *. rewrite spill_pointer by done. pose proof (spill_block_kept content tool p deny rest Hp Hc) as K.
  destruct (if stubs_on o then _ else _) as [|i0 i1] eqn:Eo.
  - destruct route as [|r0 r]; case_bool_decide; [done| |done|]; intros [= <- _]; left; [done|]. by apply (contains_within p [] _ (u " " ++ r0 :: r)).
  - case_bool_decide; [done|]. intros [= <- _]. right. assert (i0 :: i1 = stem p) as ->; [|apply observation_stub_names].
    destruct (stubs_on o); [|done]. unfold observation_id_for_path in Eo. destruct p as [|p0 p1]; [done|].
    destruct (session_id o); [done|]. by case_bool_decide.
Qed.

Lemma rewrite_saves o tbl route rd clear i ms d j m m' p c :
  session_id o <> [] -> m_call_id m <> [] -> name_of tbl (m_call_id m) <> [] -> is_cleared_stub (tool_result_text m) = false ->
  kept_at o d m p c -> ms !! j = Some m ->
  (forall k n, k <> j -> ms !! k = Some n -> (i + k)%nat ∈ clear -> contains PERSISTED_OUTPUT_TAG (tool_result_text n) = false -> path_of o n <> p) ->
  mc_out (rewrite_from sessions_dir resolve o tbl route rd clear i ms d) !! j = Some m' ->
  m' = m \/
  exists t, m' = replace_tool_content m t /\ names_file t p
    /\ mc_fs (rewrite_from sessions_dir resolve o tbl route rd clear i ms d) !! p = Some c.
Proof.
  intros Hs Hcid Hname Hstub. revert i d j. induction ms as [|a ms IH]; intros i d j Hk Hj Hpath; [done|]. cbn [rewrite_from].
  destruct j as [|j]; simpl in Hj.
  - injection Hj as ->. case_bool_decide as Hc; simpl; [|intros [= <-]; by left].
    assert (F : forall d', mc_fs (rewrite_from sessions_dir resolve o tbl route rd clear (S i) ms d') !! p = d' !! p).
    { intros d'. apply rewrite_frame. intros k n Hn Hck. apply (Hpath (S k) n); [done|done|by replace (i + S k)%nat with (S i + k)%nat by lia]. }
    destruct Hk as [Et|content tool p deny rest Et Hp Hd].
    + rewrite Et. destruct (clear_fresh _ _ _ _ _ _ _ _) as [[t|] d'] eqn:Ef; simpl; intros [= <-]; [|by left].
      destruct (clear_fresh_saves o tbl route rd m d t d' Hs Hcid Hname Ef) as [Hp Hnames]. right. exists t. by rewrite F.
    + pose proof (spilled_tagged content tool p deny rest) as T. rewrite <- Et in T. rewrite T.
      destruct (clear_spilled _ _ _ _ _ _ _) as [[t h]|] eqn:Ec; simpl; intros [= <-]; [|by left].
      right. exists t. split; [done|]. split; [by eapply clear_spilled_names|by rewrite F].
  - assert (Hrest : forall d', kept_at o d' m p c -> mc_out (rewrite_from sessions_dir resolve o tbl route rd clear (S i) ms d') !! j = Some m' ->
      m' = m \/ exists t, m' = replace_tool_content m t /\ names_file t p
        /\ mc_fs (rewrite_from sessions_dir resolve o tbl route rd clear (S i) ms d') !! p = Some c).
    { intros d' Hk'. apply IH; [done|done|]. intros k n Hne Hn Hc. apply (Hpath (S k) n); [lia|done|by replace (i + S k)%nat with (S i + k)%nat by lia]. }
    case_bool_decide as Hc; simpl; [|by apply Hrest]. destruct (contains _ (tool_result_text a)) eqn:Ea.
    + destruct (clear_spilled _ _ _ _ _ _ _) as [[t h]|]; simpl; by apply Hrest.
    + assert (Hne : path_of o a <> p) by (apply (Hpath 0%nat a); [done|done|by rewrite Nat.add_0_r|done]).
      pose proof (clear_fresh_frame o tbl route rd a d p Hne) as Hf.
      destruct (clear_fresh _ _ _ _ _ _ _ _) as [[t|] d']; simpl in *; apply Hrest;
        (destruct Hk as [Et|content tool p deny rest Et Hp Hd]; [by apply kept_fresh|by eapply kept_spilled; [..|rewrite Hf]]).
Qed.
End Facts.

(** ** The second pass *)

Section Again.
Context `{PyJson} `{Disk}.
Variables (sessions_dir : text) (resolve : text -> text).
Abbreviation microcompact := (microcompact sessions_dir resolve).

(** Rows that may differ are tool results, so the calls are the same. *)
Lemma calls_of_rows ms ms' :
  Forall2 (fun m m' => m' = m \/ (is_tool m = true /\ exists t, m' = replace_tool_content m t)) ms ms' ->
  calls_of ms' = calls_of ms.
Proof.
  unfold calls_of. intros F. generalize (∅ : call_table).
  induction F as [|m m' ms ms' Hm F IH]; intros tbl; [done|]. simpl.
  destruct Hm as [->|[_ [t ->]]]; apply IH.
Qed.

Lemma microcompact_Forall2 o ms d :
  Forall2 (fun m m' => m' = m \/ (is_tool m = true /\ exists t, m' = replace_tool_content m t))
    ms (mc_out (microcompact o ms d)).
Proof.
  apply Forall2_same_length_lookup. split; [by rewrite microcompact_length|].
  intros i m m' Hm Hm'. destruct (microcompact_rows sessions_dir resolve o ms d i m Hm) as (x & Hx & Hor).
  rewrite Hx in Hm'. simplify_eq. destruct Hor as [->|[Hc Ht]]; [by left|]. right. split; [|done].
  apply to_clear_candidates, candidates_spec in Hc as (m0 & Hm0 & Hcomp & _). simplify_eq.
  unfold compactable in Hcomp. by apply andb_true_iff in Hcomp as [? _].
Qed.

Lemma positions_Forall2 p ms ms' :
  Forall2 (fun m m' => p m' = p m) ms ms' -> positions p ms' = positions p ms.
Proof.
  intros F. unfold positions. generalize 0%nat. induction F as [|m m' ms ms' Hm _ IH]; intros k; [done|].
  simpl. by rewrite Hm, IH.
Qed.

Lemma compactable_same o ms d :
  compactable_indices o (mc_out (microcompact o ms d)) = compactable_indices o ms.
Proof.
  unfold compactable_indices. pose proof (microcompact_Forall2 o ms d) as F.
  rewrite (calls_of_rows _ _ F). apply positions_Forall2. eapply Forall2_impl; [exact F|].
  intros m m' [->|[_ [t ->]]]; done.
Qed.

(** A spilled candidate comes out of the pass as a stub. *)
Lemma clear_spilled_stub o tbl route d m :
  contains PERSISTED_OUTPUT_TAG (tool_result_text m) = true -> is_cleared_stub (tool_result_text m) = false ->
  exists t h, clear_spilled sessions_dir resolve o tbl route d m = Some (t, h) /\ is_cleared_stub t = true.
Proof.
  intros Hc Hs. unfold clear_spilled.
  assert (forall t (h : bool), is_cleared_stub t = true -> exists t' h',
    (if bool_decide (t = tool_result_text m) then None else Some (t, h)) = Some (t', h')
    /\ is_cleared_stub t' = true) as Hfin.
  { intros t h Ht. exists t, h. rewrite bool_decide_false; [done|]. intros ->. congruence. }
  destruct (if stubs_on o then _ else _) as [|i0 i1].
  - destruct route; apply Hfin; [by apply block_only_stub_nil|by apply block_only_stub].
  - apply Hfin. destruct (observation_stub_names (i0 :: i1) (name_of tbl (m_call_id m)) (args_of tbl (m_call_id m))
      (pointer_size (tool_result_text m) (pointer_path (tool_result_text m)) d)
      (pointer_preview (tool_result_text m)) (observation_head_chars o) route) as [r ->].
    unfold is_cleared_stub. apply orb_true_iff. left. apply startswith_spec. eauto.
Qed.

Lemma rewrite_spilled o tbl route rd clear i ms d j m :
  ms !! j = Some m -> (i + j)%nat ∈ clear ->
  contains PERSISTED_OUTPUT_TAG (tool_result_text m) = true -> is_cleared_stub (tool_result_text m) = false ->
  exists t, mc_out (rewrite_from sessions_dir resolve o tbl route rd clear i ms d) !! j = Some (replace_tool_content m t)
    /\ is_cleared_stub t = true.
Proof.
  revert i d j. induction ms as [|a ms IH]; intros i d j Hj Hc Ht Hs; [done|]. cbn [rewrite_from].
  destruct j as [|j]; simpl in Hj.
  - simplify_eq. rewrite Nat.add_0_r in Hc. rewrite bool_decide_true by done. simpl. rewrite Ht.
    destruct (clear_spilled_stub o tbl route d m Ht Hs) as (t & h & -> & Hst). simpl. eauto.
  - replace (i + S j)%nat with (S i + j)%nat in Hc by lia.
    case_bool_decide; simpl; [|by apply IH]. destruct (contains _ (tool_result_text a)).
    + destruct (clear_spilled _ _ _ _ _ _ _) as [[t h]|]; simpl; by apply IH.
    + destruct (clear_fresh _ _ _ _ _ _ _ _) as [[t|] d']; simpl; by apply IH.
Qed.

(** After a pass, no spilled result is left among the candidates. *)
Lemma no_spilled_left o ms d i :
  i ∈ candidates o (mc_out (microcompact o ms d)) ->
  contains PERSISTED_OUTPUT_TAG (text_at (mc_out (microcompact o ms d)) i) = true ->
  exists m m', ms !! i = Some m /\ mc_out (microcompact o ms d) !! i = Some m' /\ m' <> m
    /\ contains PERSISTED_OUTPUT_TAG (tool_result_text m) = false.
Proof.
  intros Hc Ht. pose proof Hc as (m' & Hm' & _ & Hs)%candidates_spec.
  unfold text_at in Ht. rewrite Hm' in Ht. simpl in Ht.
  assert (i < length ms)%nat as Hlt by (apply lookup_lt_Some in Hm'; by rewrite microcompact_length in Hm').
  apply lookup_lt_is_Some in Hlt as [m Hm]. exists m, m'. split; [done|]. split; [done|].
  assert (contains PERSISTED_OUTPUT_TAG (tool_result_text m) = true -> is_cleared_stub (tool_result_text m) = false -> False) as Hno.
  { intros Hct Hst. assert (i ∈ to_clear o ms) as Hin.
    { unfold to_clear. apply elem_of_app. right. apply elem_of_sel. unfold text_at. rewrite Hm. simpl.
      split; [|done]. unfold candidates in Hc |- *. apply elem_of_sel in Hc as [Hc _].
      rewrite compactable_same in Hc. apply elem_of_sel. split; [done|]. unfold text_at. rewrite Hm. simpl. by rewrite Hst. }
    unfold Microcompact.microcompact in Hm'. destruct (to_clear o ms) as [|i0 l] eqn:E; [by apply elem_of_nil in Hin|].
    destruct (rewrite_spilled o (calls_of ms)
      (if name_session_record o && nonempty (session_id o)
       then session_record_route sessions_dir (session_id o) (disallowed_tools o) d else [])
      (tool_is_denied READ_TOOL (disallowed_tools o)) (i0 :: l) 0 ms d i m Hm Hin Hct Hst) as (t & Hout & Hstub).
    rewrite Hout in Hm'. simplify_eq. rewrite replace_text in Hs. congruence. }
  destruct (microcompact_rows sessions_dir resolve o ms d i m Hm) as (x & Hx & Hor).
  rewrite Hx in Hm'. simplify_eq. split.
  - intros ->. by apply Hno.
  - apply not_true_iff_false. intros Hct. destruct Hor as [->|[Hin _]]; [by apply Hno|].
    apply Hno; [done|]. apply to_clear_candidates, candidates_spec in Hin as (m0 & Hm0 & _ & Hst). congruence.
Qed.
End Again.

(** ** What the budget rule selects *)

Definition total (saved : nat -> Z) (is_ : list nat) : Z := foldr (fun i n => saved i + n) 0 is_.

Lemma select_budget_spec saved budget current idxs :
  budget < current ->
  let sel_ := select_budget saved budget current idxs in
  (forall i, i ∈ sel_ -> 0 < saved i)
  /\ (current - total saved sel_ <= budget \/ forall i, i ∈ idxs -> 0 < saved i -> i ∈ sel_)
  /\ (forall l x, sel_ = l ++ [x] -> budget < current - total saved l).
Proof.
  revert current. induction idxs as [|i idxs IH]; intros current Hlt; cbn [select_budget].
  { simpl. split; [intros i Hi; by apply elem_of_nil in Hi|]. split; [right; intros i Hi; by apply elem_of_nil in Hi|].
    intros [|] x; done. }
  destruct (Z.leb_spec (saved i) 0).
  - destruct (IH current Hlt) as (A & B & C). split; [done|]. split; [|done].
    destruct B as [B|B]; [by left|]. right. intros j [->|Hj]%elem_of_cons Hs; [lia|by apply B].
  - destruct (Z.leb_spec (current - saved i) budget) as [Hfit|Hover].
    + simpl. split; [intros j Hj; apply list_elem_of_singleton in Hj as ->; lia|].
      split; [left; lia|]. intros [|y l] x E; simplify_eq/=; [lia|]. by destruct l.
    + destruct (IH (current - saved i) Hover) as (A & B & C).
      set (rest := select_budget saved budget (current - saved i) idxs) in *. split; [|split].
      * intros j [->|Hj]%elem_of_cons; [lia|by apply A].
      * destruct B as [B|B]; [left; simpl; lia|]. right.
        intros j [->|Hj]%elem_of_cons Hs; [by left|right; by apply B].
      * intros [|y l] x E; [simpl; lia|]. simpl in E. injection E as -> E.
        specialize (C l x E). simpl. lia.
Qed.

Lemma selected_budget o ms budget est :
  token_budget o = Some budget -> estimate_fn o = Some est ->
  selected o ms = if budget <? est ms
                  then select_budget (saving o est ms) budget (est ms) (sizeable o ms) else [].
Proof. intros Hb He. unfold selected. by rewrite Hb, He. Qed.

(** ** Compactable results have a call *)

Lemma calls_of_nil ms : calls_of ms !! ([] : text) = None.
Proof.
  unfold calls_of.
  assert (forall tcs (tbl : call_table), tbl !! ([] : text) = None -> fold_left add_call tcs tbl !! ([] : text) = None) as Hc.
  { induction tcs as [|tc tcs IH]; intros tbl Ht; simpl; [done|]. apply IH. unfold add_call.
    destruct (tc_key tc); [done|]. by rewrite lookup_insert_ne. }
  assert ((∅ : call_table) !! ([] : text) = None) as H0 by apply lookup_empty. revert H0.
  generalize (∅ : call_table). induction ms as [|m ms IH]; intros tbl Ht; simpl; [done|]. apply IH.
  destruct (is_assistant m); auto.
Qed.

Lemma compactable_call o ms m :
  compactable o (calls_of ms) m = true ->
  m_call_id m <> [] /\ name_of (calls_of ms) (m_call_id m) <> [].
Proof.
  unfold compactable, is_compactable_tool_call. intros [_ Hc]%andb_true_iff.
  assert (name_of (calls_of ms) (m_call_id m) <> []) as Hn by (intros E; by rewrite E in Hc).
  split; [|done]. intros E. apply Hn. unfold name_of. by rewrite E, calls_of_nil.
Qed.

(** ** The promises *)

(** Shape and the recent window. Microcompaction keeps the number and the order of
    the messages, and every field of each but its content and its screenshots; it
    changes only rows that hold a compactable tool result older than the recent window
    and not cleared before, and the recent window comes through bit for bit. *)
Theorem microcompact_shape `{PyJson} `{Disk} sessions_dir resolve o ms d i m :
  ms !! i = Some m ->
  exists m', mc_out (microcompact sessions_dir resolve o ms d) !! i = Some m'
    /\ m_role m' = m_role m /\ m_call_id m' = m_call_id m /\ m_id m' = m_id m
    /\ m_tool_calls m' = m_tool_calls m
    /\ (m' = m \/ i ∈ candidates o ms)
    /\ (i ∈ drop (Z.to_nat (Z.max 0 (Z.of_nat (length (compactable_indices o ms)) - Z.max 0 (keep_recent_tools o))))
              (compactable_indices o ms) -> m' = m).
Proof.
  intros Hm. destruct (microcompact_rows sessions_dir resolve o ms d i m Hm) as (m' & Hm' & Hor).
  exists m'. split; [done|].
  destruct Hor as [->|[Hin%to_clear_candidates [t ->]]]; [by auto 10|].
  do 4 (split; [done|]). split; [by right|]. intros Hd%recent_not_candidate. done.
Qed.

(** C18: Recoverability. With a session to save to, whatever the pass does to a row it
    either leaves it alone, or the whole result is in a file when the pass ends and the
    new text of the row names that file - by its path, or by the observation id that
    recalls it. That is so of a result still in full, which the pass saves itself, and of
    the block of a spilled one, whose file must have been there; no other row it saves
    may go to the same file. A row that only quotes the tag of a block is neither. *)
Theorem microcompact_recoverable `{PyJson} `{Disk} sessions_dir resolve o ms d i m m' p c :
  session_id o <> [] -> ms !! i = Some m -> kept_at sessions_dir o d m p c ->
  (forall k n, k <> i -> k ∈ to_clear o ms -> ms !! k = Some n -> contains PERSISTED_OUTPUT_TAG (tool_result_text n) = false ->
     path_of sessions_dir o n <> p) ->
  mc_out (microcompact sessions_dir resolve o ms d) !! i = Some m' ->
  m' = m
  \/ exists t, m' = replace_tool_content m t /\ names_file t p
       /\ mc_fs (microcompact sessions_dir resolve o ms d) !! p = Some c.
Proof.
  intros Hs Hm Hk Hpath Em. destruct (decide (i ∈ to_clear o ms)) as [Hi|Hi].
  - pose proof (to_clear_candidates o ms i Hi) as (n & Hn & Hc & Hstub)%candidates_spec. rewrite Hm in Hn. injection Hn as <-.
    destruct (compactable_call o _ _ Hc) as [Hcid Hname]. unfold microcompact in *. destruct (to_clear o ms) as [|i0 l]; [by apply elem_of_nil in Hi|].
    eapply (rewrite_saves sessions_dir resolve o (calls_of ms) _ _ (i0 :: l) 0 ms d i); try done. intros k n Hne Hn' Hck. by apply (Hpath k).
  - left. destruct (microcompact_rows sessions_dir resolve o ms d i m Hm) as (m1 & E & [->|[Hi' _]]); [|done]. by rewrite Em in E; injection E as ->.
Qed.

(** Dropping previews is idempotent. With no budget and no count rule the pass only
    reduces results that are already spilled, and a second pass over its own output
    changes nothing, counts nothing and writes nothing. *)
Theorem microcompact_preview_idempotent `{PyJson} `{Disk} sessions_dir resolve o ms d d' :
  token_budget o = None -> legacy_count_rule o = false ->
  let r := microcompact sessions_dir resolve o ms d in
  microcompact sessions_dir resolve o (mc_out r) d' = McResult (mc_out r) 0 [] [] d'.
Proof.
  intros Hb Hl r. assert (forall ms, selected o ms = []) as Hsel.
  { intros ms0. unfold selected. by rewrite Hb, Hl. }
  enough (to_clear o (mc_out r) = []) as Hnil. { revert Hnil. generalize (mc_out r). intros out Hnil. unfold microcompact. by rewrite Hnil. }
  unfold to_clear. rewrite Hsel. simpl. apply sel_nil_iff. intros i Hi. apply not_true_iff_false. intros Ht.
  destruct (no_spilled_left sessions_dir resolve o ms d i Hi Ht) as (m & m' & Hm & Hm' & Hne & Hc).
  destruct (microcompact_rows sessions_dir resolve o ms d i m Hm) as (x & Hx & Hor).
  rewrite Hx in Hm'. simplify_eq. destruct Hor as [->|[Hin _]]; [done|].
  unfold to_clear in Hin. rewrite Hsel in Hin. simpl in Hin. apply elem_of_sel in Hin as [_ Hin].
  unfold text_at in Hin. rewrite Hm in Hin. simpl in Hin. congruence.
Qed.

(** The budget rule clears enough and no more. When the estimate is over the
    budget, either what the selected results are booked to save brings it to the
    budget, or every result worth clearing was selected; and without the last one
    selected it would still be over. *)
Theorem budget_selects_enough o ms budget est :
  token_budget o = Some budget -> estimate_fn o = Some est -> budget < est ms ->
  let saved := saving o est ms in
  (est ms - total saved (selected o ms) <= budget
   \/ forall i, i ∈ sizeable o ms -> 0 < saved i -> i ∈ selected o ms)
  /\ (forall l x, selected o ms = l ++ [x] -> budget < est ms - total saved l).
Proof.
  intros Hb He Hlt saved. rewrite (selected_budget o ms budget est Hb He).
  replace (budget <? est ms) with true by lia.
  destruct (select_budget_spec saved budget (est ms) (sizeable o ms) Hlt) as (_ & A & B). by split.
Qed.

(** ** On concrete rows *)

Definition call_row (id name : text) : message :=
  Msg None "assistant" (CStr []) None [ToolCall id [] name None [] JNull JNull] [] None 0 None JNull.
Definition result_row (id t : text) : message := Msg None "tool" (CStr t) None [] id None 0 None JNull.
Definition xs (n : nat) : text := repeat 120%N n.
Definition chars (ms : list message) : Z := foldr (fun m n => len (tool_result_text m) + n) 0 ms.

Definition demo_rows : list message :=
  [call_row (u "c1") (u "Read"); result_row (u "c1") (xs 300);
   call_row (u "c2") (u "Read"); result_row (u "c2") (xs 300);
   call_row (u "c3") (u "Read"); result_row (u "c3") (xs 300)].

Definition demo_options (budget : option Z) : mc_options :=
  McOptions 1 20 DEFAULT_COMPACTABLE_TOOLS budget (Some chars) 200 (u "s1") false [] None false 400 false [].

#[local] Existing Instance blank_py.
#[local] Existing Instance sound_disk.

Lemma microcompact_shape_witness :
  exists m', mc_out (microcompact (u "sessions") (fun p => p) (demo_options (Some 700)) demo_rows ∅) !! 5%nat = Some m'
    /\ m' = result_row (u "c3") (xs 300).
Proof.
  destruct (microcompact_shape (u "sessions") (fun p => p) (demo_options (Some 700)) demo_rows ∅ 5
    (result_row (u "c3") (xs 300)) eq_refl) as (m' & Hm' & _ & _ & _ & _ & _ & Hr).
  exists m'. split; [exact Hm'|]. apply Hr. vm_compute. apply list_elem_of_here.
Defined.

Lemma demo_to_clear : to_clear (demo_options (Some 700)) demo_rows = [1%nat].
Proof. vm_compute. reflexivity. Qed.

(** A result the pass saves, and the block of one that was spilled before. *)
Definition spilled_row : message := result_row (u "c1") (spill_block (xs 300) (u "Read") (u "/f") []).
Definition spilled_rows : list message :=
  [call_row (u "c1") (u "Read"); spilled_row; call_row (u "c2") (u "Read"); result_row (u "c2") (xs 300)].

Lemma microcompact_recoverable_witness :
  (exists m' t, mc_out (microcompact (u "sessions") (fun p => p) (demo_options (Some 700)) demo_rows ∅) !! 1%nat = Some m'
    /\ m' = replace_tool_content (result_row (u "c1") (xs 300)) t
    /\ mc_fs (microcompact (u "sessions") (fun p => p) (demo_options (Some 700)) demo_rows ∅)
         !! u "sessions/s1.tool-results/c1.txt" = Some (xs 300))
  /\ exists m' t, mc_out (microcompact (u "sessions") (fun p => p) (demo_options None) spilled_rows {[ u "/f" := xs 300 ]}) !! 1%nat = Some m'
    /\ m' = replace_tool_content spilled_row t /\ names_file t (u "/f").
Proof.
  split.
  - destruct (mc_out (microcompact (u "sessions") (fun p => p) (demo_options (Some 700)) demo_rows ∅) !! 1%nat) as [m'|] eqn:E;
      [|vm_compute in E; discriminate].
    assert (K : kept_at (u "sessions") (demo_options (Some 700)) ∅ (result_row (u "c1") (xs 300)) (u "sessions/s1.tool-results/c1.txt") (xs 300))
      by (exact (kept_fresh (u "sessions") (demo_options (Some 700)) ∅ (result_row (u "c1") (xs 300)) eq_refl)).
    destruct (microcompact_recoverable (u "sessions") (fun p => p) (demo_options (Some 700)) demo_rows ∅ 1
      (result_row (u "c1") (xs 300)) m' _ _ ltac:(discriminate) eq_refl K) as [Hs|(t & Ht & _ & Hf)].
    + rewrite demo_to_clear. intros k n Hne Hk%list_elem_of_singleton. by subst.
    + exact E.
    + exfalso. rewrite Hs in E. vm_compute in E. discriminate.
    + exists m', t. split; [reflexivity|]. split; [exact Ht|exact Hf].
  - destruct (mc_out (microcompact (u "sessions") (fun p => p) (demo_options None) spilled_rows {[ u "/f" := xs 300 ]}) !! 1%nat) as [m'|] eqn:E;
      [|vm_compute in E; discriminate].
    assert (P : plain_path (u "/f")) by (split; [apply (bool_decide_unpack _); vm_compute; exact I|vm_compute; reflexivity]).
    assert (K : kept_at (u "sessions") (demo_options None) {[ u "/f" := xs 300 ]} spilled_row (u "/f") (xs 300)).
    { refine (kept_spilled _ _ _ _ (xs 300) (u "Read") (u "/f") [] [] _ P _); vm_compute; reflexivity. }
    assert (C : to_clear (demo_options None) spilled_rows = [1%nat]) by (vm_compute; reflexivity).
    destruct (microcompact_recoverable (u "sessions") (fun p => p) (demo_options None) spilled_rows {[ u "/f" := xs 300 ]} 1
      spilled_row m' _ _ ltac:(discriminate) eq_refl K) as [Hs|(t & Ht & Hn & _)].
    + rewrite C. intros k n Hne Hk%list_elem_of_singleton. by subst.
    + exact E.
    + exfalso. rewrite Hs in E. vm_compute in E. discriminate.
    + exists m', t. split; [reflexivity|]. split; [exact Ht|exact Hn].
Defined.

Lemma microcompact_preview_idempotent_witness :
  let rows := [call_row (u "c1") (u "Read");
               result_row (u "c1") (u "<persisted-output>" ++ nl ++ u "Full output saved to: /f" ++ nl ++ xs 300);
               call_row (u "c2") (u "Read"); result_row (u "c2") (xs 300)] in
  let r := microcompact (u "sessions") (fun p => p) (demo_options None) rows ∅ in
  mc_cleared r = 1
  /\ microcompact (u "sessions") (fun p => p) (demo_options None) (mc_out r) ∅ = McResult (mc_out r) 0 [] [] ∅.
Proof.
  intros rows r. split; [vm_compute; reflexivity|].
  exact (microcompact_preview_idempotent (u "sessions") (fun p => p) (demo_options None) rows ∅ ∅ eq_refl eq_refl).
Defined.

Lemma budget_selects_enough_witness :
  chars demo_rows - total (saving (demo_options (Some 700)) chars demo_rows) (selected (demo_options (Some 700)) demo_rows) <= 700
  \/ forall i, i ∈ sizeable (demo_options (Some 700)) demo_rows ->
       0 < saving (demo_options (Some 700)) chars demo_rows i -> i ∈ selected (demo_options (Some 700)) demo_rows.
Proof.
  refine (proj1 (budget_selects_enough (demo_options (Some 700)) demo_rows 700 chars eq_refl eq_refl _)).
  vm_compute. reflexivity.
Defined.

(** ** Where the promises of the source stop

    The budget is met with the short stand-in marker, and the marker that is written is
    longer: a second budgeted pass over the output of the first can clear more. *)
Lemma budget_pass_not_idempotent :
  let o := demo_options (Some 663) in
  let r := microcompact (u "sessions") (fun p => p) o demo_rows ∅ in
  mc_cleared r = 1 /\ mc_cleared (microcompact (u "sessions") (fun p => p) o (mc_out r) (mc_fs r)) = 1.
Proof. vm_compute. split; reflexivity. Qed.

(** A result that merely quotes the tag is taken for a spilled one: its text leaves the
    prompt with nothing saved, no budget pressure and no pointer. *)
Lemma quoted_tag_is_lost :
  let rows := [call_row (u "c1") (u "Read");
               result_row (u "c1") (xs 300 ++ nl ++ u "TAG = <persisted-output>" ++ nl ++ xs 300);
               call_row (u "c2") (u "Read"); result_row (u "c2") (xs 300)] in
  let r := microcompact (u "sessions") (fun p => p) (demo_options None) rows ∅ in
  mc_cleared r = 1 /\ mc_fs r = ∅
  /\ (len ∘ tool_result_text <$> mc_out r !! 1%nat) = Some 380
  /\ pointer_path (default [] (tool_result_text <$> mc_out r !! 1%nat)) = [].
Proof. vm_compute. repeat split. Qed.

(** ** The sidecar *)

Lemma merge_ids_spec merged new c : c ∈ merge_ids merged new <-> c ∈ merged \/ c ∈ new.
Proof.
  unfold merge_ids. revert merged. induction new as [|x new IH]; intros merged; simpl; [set_solver|].
  rewrite IH. case_bool_decide; [|rewrite elem_of_app, list_elem_of_singleton]; rewrite elem_of_cons; naive_solver.
Qed.

Lemma merge_ids_NoDup merged new : NoDup merged -> NoDup (merge_ids merged new).
Proof.
  unfold merge_ids. revert merged. induction new as [|x new IH]; intros merged Hn; simpl; [done|].
  apply IH. case_bool_decide as Hx; [done|]. apply NoDup_app. split; [done|].
  split; [|apply NoDup_singleton]. intros y Hy ->%list_elem_of_singleton. done.
Qed.

Lemma sel_all {R} (p : R -> bool) t : (forall r, r ∈ t -> p r = true) -> sel p t = t.
Proof.
  induction t as [|a t IH]; intros Hp; [done|]. simpl. rewrite (Hp a) by (by left).
  f_equal. apply IH. intros; apply Hp. by right.
Qed.

Lemma merge_nonempty merged new :
  (forall c, c ∈ merged -> nonempty c = true) -> (forall c, c ∈ new -> nonempty c = true) ->
  sel nonempty (merge_ids merged new) = merge_ids merged new.
Proof. intros H1 H2. apply sel_all. intros c [Hc|Hc]%merge_ids_spec; auto. Qed.

(** The sidecar remembers. Recording calls and reading them back gives what was
    there merged with what was recorded, in order; the other list of the file and every
    other session's file are as they were. *)
Theorem record_reduced_roundtrip (sessions_dir sid : text) (ids : list text) (s : gmap text sidecar) :
  sid <> [] ->
  let s' := snd (record_reduced_calls sessions_dir true sid ids s) in
  read_reduced_calls sessions_dir sid s' = merge_ids (read_reduced_calls sessions_dir sid s) (sel nonempty ids)
  /\ read_cleared_calls sessions_dir sid s' = read_cleared_calls sessions_dir sid s
  /\ (forall p, Some p <> reduction_sidecar_path sessions_dir sid -> s' !! p = s !! p).
Proof.
  intros Hs. unfold record_reduced_calls. destruct sid as [|c sid]; [done|].
  set (sid0 := c :: sid) in *. unfold read_reduced_calls, read_cleared_calls, sidecar_payload.
  assert (reduction_sidecar_path sessions_dir sid0 = Some (sessions_dir ++ u "/" ++ sid0 ++ REDUCTION_SIDECAR_SUFFIX))
    as -> by done.
  set (p := sessions_dir ++ _). cbn [mbind option_bind].
  destruct (sel nonempty ids) as [|i0 new] eqn:En; [done|]. cbn [snd].
  rewrite lookup_insert_eq. unfold sidecar_list.
  cbn [fmap option_fmap option_map from_option id reduced_call_ids cleared_call_ids].
  assert (forall l, sel nonempty (sel nonempty l) = sel nonempty l) as Hidem.
  { intros l. apply sel_all. intros r [_ Hr]%elem_of_sel. done. }
  split; [|split].
  - apply merge_nonempty; intros x Hx; [by apply elem_of_sel in Hx as [_ ?]|].
    rewrite <- En in Hx. by apply elem_of_sel in Hx as [_ ?].
  - apply Hidem.
  - intros q Hq. rewrite lookup_insert_ne; [done|]. congruence.
Qed.

Lemma record_reduced_roundtrip_witness :
  read_reduced_calls (u "sessions") (u "s1")
    (snd (record_reduced_calls (u "sessions") true (u "s1") [u "c1"; []; u "c2"; u "c1"] ∅)) = [u "c1"; u "c2"].
Proof.
  rewrite (proj1 (record_reduced_roundtrip (u "sessions") (u "s1") [u "c1"; []; u "c2"; u "c1"] ∅ ltac:(discriminate))).
  vm_compute. reflexivity.
Defined.

(** Replay. The row the read-time pass rebuilds from the sidecar is, byte for byte,
    the row the clearing pass reduced; and it rebuilds a row only while the file that
    row points to is still on disk. *)
Theorem sidecar_replays `{PyJson} `{Disk} sessions_dir resolve o tbl route wanted d d' m :
  is_tool m = true -> contains PERSISTED_OUTPUT_TAG (tool_result_text m) = true ->
  is_cleared_stub (tool_result_text m) = false -> m_call_id m ∈ wanted ->
  pointer_path (tool_result_text m) <> [] ->
  (forall t, clear_spilled sessions_dir resolve o tbl route d m = Some (t, true) ->
     is_file (pointer_path (tool_result_text m)) d' = true ->
     reapply wanted d' m = Some (replace_tool_content m t))
  /\ (is_file (pointer_path (tool_result_text m)) d' = false -> reapply wanted d' m = None).
Proof.
  intros Ht Hc Hs Hw Hp. unfold reapply. rewrite Ht, Hc, Hs, bool_decide_true by done.
  destruct (pointer_path (tool_result_text m)) as [|p0 p] eqn:Ep; [done|]. cbn [andb negb nonempty].
  split; [|intros ->; done]. intros t E ->. cbn [andb].
  unfold clear_spilled in E. rewrite Ep in E.
  destruct (if stubs_on o then _ else _) as [|i0 i1].
  - destruct route as [|r0 r]; [|by case_bool_decide; simplify_eq].
    destruct (bool_decide (persisted_block_only (tool_result_text m) = tool_result_text m)); [done|].
    injection E as <-. reflexivity.
  - case_bool_decide; simplify_eq.
Qed.

Lemma sidecar_replays_witness :
  let m := result_row (u "c1") (u "<persisted-output>" ++ nl ++ u "Full output saved to: /f" ++ nl ++ xs 300) in
  exists t, clear_spilled (u "sessions") (fun p => p) (demo_options None) ∅ [] ∅ m = Some (t, true)
    /\ reapply [u "c1"] {[ u "/f" := xs 300 ]} m = Some (replace_tool_content m t).
Proof.
  intros m.
  destruct (clear_spilled (u "sessions") (fun p => p) (demo_options None) ∅ [] ∅ m) as [[t h]|] eqn:E;
    [|vm_compute in E; discriminate].
  assert (h = true) as -> by (vm_compute in E; injection E as _ <-; reflexivity).
  exists t. split; [reflexivity|].
  refine (proj1 (sidecar_replays (u "sessions") (fun p => p) (demo_options None) ∅ [] [u "c1"] ∅
    {[ u "/f" := xs 300 ]} m eq_refl _ _ (list_elem_of_here _ _) _) t E _).
  - vm_compute. reflexivity.
  - vm_compute. reflexivity.
  - vm_compute. discriminate.
  - vm_compute. reflexivity.
Defined.

(** ** Shrinking arguments *)

Section Shrink.
Context `{PyJson} `{Disk}.
Variable sessions_dir : text.

Lemma shrink_call_guard min_chars sid allow landed_ids recent tc d tc' f d' :
  shrink_call sessions_dir min_chars sid allow landed_ids recent tc d = (Some (tc', f), d') ->
  tc_id tc ∈ landed_ids /\ tc_id tc ∉ recent
  /\ exists v, tc' = set_fn_args v tc.
Proof.
  unfold shrink_call. intros E. case_match eqn:Hg; [done|]. bool_simp.
  destruct (tc_fn_args tc) as [[]|]; try done. case_match; [done|].
  destruct (parse_json _) as [[]|]; try done.
  destruct (fold_left _ _ _) as [[[args' freed] changed] d1]. destruct changed; [|done]. simplify_eq. eauto.
Qed.

Definition same_call (landed_ids recent : list text) (tc tc' : tool_call) : Prop :=
  tc' = tc \/ (tc_id tc ∈ landed_ids /\ tc_id tc ∉ recent /\ exists v, tc' = set_fn_args v tc).

Lemma shrink_calls_rel min_chars sid allow landed_ids recent tcs d out n f d' :
  shrink_calls sessions_dir min_chars sid allow landed_ids recent tcs d = (out, n, f, d') ->
  Forall2 (same_call landed_ids recent) tcs out /\ 0 <= n /\ (n = 0 -> out = tcs).
Proof.
  revert d out n f d'. induction tcs as [|tc tcs IH]; intros d out n f d' E; cbn [shrink_calls] in E.
  { simplify_eq. split; [constructor|]. split; [lia|done]. }
  destruct (shrink_call _ _ _ _ _ _ _ _) as [r d1] eqn:Ec.
  destruct (shrink_calls _ _ _ _ _ _ _ d1) as [[[out1 n1] f1] d2] eqn:Er. apply IH in Er as (F & Hn & Hz).
  destruct r as [[tc' f']|]; simplify_eq.
  - split; [|split; [lia|lia]]. constructor; [|done]. right. by eapply shrink_call_guard.
  - split; [|split; [lia|intros Hn0; by rewrite Hz]]. constructor; [by left|done].
Qed.

Lemma shrink_rows_rel min_chars sid allow landed_ids recent ms d out n f d' :
  shrink_rows sessions_dir min_chars sid allow landed_ids recent ms d = (out, n, f, d') ->
  Forall2 (fun m m' => m' = m \/ (is_assistant m = true /\ exists tcs',
             m' = set_tool_calls tcs' m /\ Forall2 (same_call landed_ids recent) (m_tool_calls m) tcs')) ms out.
Proof.
  revert d out n f d'. induction ms as [|m ms IH]; intros d out n f d' E; cbn [shrink_rows] in E.
  { simplify_eq. constructor. }
  destruct (shrink_calls _ _ _ _ _ _ _ _) as [[[tcs' n1] f1] d1] eqn:Ec.
  destruct (shrink_rows _ _ _ _ _ _ _ d1) as [[[out1 n2] f2] d2] eqn:Er. apply IH in Er. simplify_eq.
  constructor; [|done]. destruct (is_assistant m) eqn:Ea.
  - apply shrink_calls_rel in Ec as (F & _ & _). case_match; [right; eauto|by left].
  - simpl in Ec. simplify_eq. by left.
Qed.
End Shrink.

(** Shrinking is confined. Only assistant messages change, only in the arguments of
    their calls, with every call kept in order under its id and name; and a call whose
    result has not landed, or that is among the most recent landed ones, is untouched. *)
Theorem shrink_confined `{PyJson} `{Disk} sessions_dir keep min_chars sid tools ms d out n f d' :
  shrink_assistant_arguments sessions_dir keep min_chars sid tools ms d = (out, n, f, d') ->
  Forall2 (fun m m' => m' = m \/ (is_assistant m = true /\ exists tcs', m' = set_tool_calls tcs' m
             /\ Forall2 (same_call (landed ms) (recent_calls keep ms)) (m_tool_calls m) tcs')) ms out.
Proof.
  unfold shrink_assistant_arguments. destruct (sel nonempty tools) as [|t0 ts].
  - intros E. simplify_eq. apply Forall_Forall2_diag, Forall_true. by left.
  - destruct ms as [|m ms]; [intros E; simplify_eq; constructor|]. apply shrink_rows_rel.
Qed.

Lemma shrink_confined_witness :
  exists out n f d', shrink_assistant_arguments (u "sessions") 0 10 (u "s1") [u "Write"] demo_rows ∅ = (out, n, f, d')
    /\ length out = length demo_rows.
Proof.
  destruct (shrink_assistant_arguments (u "sessions") 0 10 (u "s1") [u "Write"] demo_rows ∅) as [[[out n] f] d'] eqn:E.
  exists out, n, f, d'. split; [reflexivity|].
  symmetry. exact (Forall2_length _ _ _ (shrink_confined _ _ _ _ _ _ _ _ _ _ _ E)).
Defined.
