(* ===== verification/SummaryFacts.v ===== *)
(** * The persisted summary: what it promises

    A fresh record stays valid while the past keeps its ids and roles and is refused
    when it does not; chunks cut the history between turns; folding only moves the
    boundary forward, one saved step at a time; [/compact] keeps the recent turns. *)
From Stdlib Require Import String.
From S2P Require Import Prelude PyText QueueRows Spill Messages Microcompact SummaryRecord.

Local Open Scope Z_scope.

(** ** The hashed lines determine the rows *)

Definition row_key (m : message) : text * string := (row_id m, m_role m).

(** A row the lines can tell apart: a role the history keeps, an id on one line. *)
Definition keyed (m : message) : Prop := m_role m ∈ CONVERSATION_ROLES /\ (10 ∉ row_id m)%N.

Lemma role_clean r : r ∈ CONVERSATION_ROLES -> (58 ∉ utf8 r)%N /\ (10 ∉ utf8 r)%N.
Proof.
  unfold CONVERSATION_ROLES. rewrite !elem_of_cons. intros [->|[->|[->|[->|Hr]]]]; [| | | |by apply elem_of_nil in Hr];
    split; apply (bool_decide_eq_false_1 _); vm_compute; reflexivity.
Qed.

Lemma role_inj r r' :
  r ∈ CONVERSATION_ROLES -> r' ∈ CONVERSATION_ROLES -> utf8 r = utf8 r' -> r = r'.
Proof.
  unfold CONVERSATION_ROLES. rewrite !elem_of_cons, !elem_of_nil.
  intros [->|[->|[->|[->|[]]]]] [->|[->|[->|[->|[]]]]] E; try reflexivity; vm_compute in E; discriminate.
Qed.

(** Splitting at the last separator. *)
Lemma split_last (c : N) (a r a' r' : text) :
  c ∉ r -> c ∉ r' -> a ++ c :: r = a' ++ c :: r' -> a = a' /\ r = r'.
Proof.
  intros Hr Hr' E. apply app_eq_app in E as [l [[-> E]|[-> E]]].
  - destruct l as [|x l]; simpl in E; [injection E as E; rewrite app_nil_r; by split|].
    injection E as <- E. exfalso. apply Hr'. rewrite E. set_solver.
  - destruct l as [|x l]; simpl in E; [injection E as E; rewrite app_nil_r; by split|].
    injection E as <- E. exfalso. apply Hr. rewrite E. set_solver.
Qed.

(** Splitting at the first separator. *)
Lemma split_first (c : N) (a r a' r' : text) :
  c ∉ a -> c ∉ a' -> a ++ c :: r = a' ++ c :: r' -> a = a' /\ r = r'.
Proof.
  revert a'. induction a as [|x a IH]; intros [|x' a'] Ha Ha' E; simpl in E.
  - by injection E.
  - injection E as -> _. exfalso. apply Ha'. by left.
  - injection E as -> _. exfalso. apply Ha. by left.
  - injection E as -> E. destruct (IH a') as [-> ->]; [set_solver|set_solver|done|done].
Qed.

Lemma sha_line_inj m m' : keyed m -> keyed m' -> sha_line m = sha_line m' -> row_key m = row_key m'.
Proof.
  intros [Hr Hi] [Hr' Hi'] E. unfold sha_line in E.
  assert (forall x, row_id x ++ u ":" ++ utf8 (m_role x) ++ nl = (row_id x ++ 58%N :: utf8 (m_role x)) ++ nl) as Hs.
  { intros x. by rewrite <- app_assoc. }
  rewrite !Hs in E. apply app_inv_tail in E.
  destruct (role_clean _ Hr) as [Hc _], (role_clean _ Hr') as [Hc' _].
  apply split_last in E as [E1 E2]; [|done|done]. unfold row_key. rewrite E1. f_equal. by apply role_inj.
Qed.

Lemma sha_input_inj rows rows' :
  Forall keyed rows -> Forall keyed rows' -> sha_input rows = sha_input rows' -> map row_key rows = map row_key rows'.
Proof.
  unfold sha_input. intros F. revert rows'. induction F as [|m rows Hm F IH]; intros rows' F' E.
  - destruct rows' as [|m' rows']; [done|]. simpl in E. unfold sha_line in E.
    destruct (row_id m'); discriminate.
  - destruct rows' as [|m' rows']; [simpl in E; unfold sha_line in E; destruct (row_id m); discriminate|].
    apply Forall_cons in F' as [Hm' F']. cbn [map concat] in E.
    assert (forall x rest, keyed x -> sha_line x ++ rest = (row_id x ++ 58%N :: utf8 (m_role x)) ++ 10%N :: rest
             /\ (10 ∉ row_id x ++ 58 :: utf8 (m_role x))%N) as Hx.
    { intros x rest [Hr Hi]. split; [unfold sha_line; by rewrite <- !app_assoc|].
      destruct (role_clean _ Hr) as [_ Hn]. rewrite elem_of_app, elem_of_cons. intros [?|[?|?]]; done. }
    destruct (Hx m (concat (map sha_line rows)) Hm) as [E1 N1].
    destruct (Hx m' (concat (map sha_line rows')) Hm') as [E2 N2].
    rewrite E1, E2 in E. apply split_first in E as [Ea Eb]; [|done|done]. simpl. f_equal; [|by apply IH].
    apply sha_line_inj; [done|done|]. unfold sha_line. change (row_id m ++ u ":" ++ utf8 (m_role m) ++ nl) with (row_id m ++ (58%N :: utf8 (m_role m)) ++ nl).
    change (row_id m' ++ u ":" ++ utf8 (m_role m') ++ nl) with (row_id m' ++ (58%N :: utf8 (m_role m')) ++ nl).
    rewrite !app_assoc. by rewrite Ea.
Qed.

Lemma sha_input_key rows rows' : map row_key rows = map row_key rows' -> sha_input rows = sha_input rows'.
Proof.
  unfold sha_input. intros E. f_equal. revert rows' E. induction rows as [|m rows IH]; intros [|m' rows'] E; try done.
  simpl in *. injection E as Ei Er E. rewrite (IH rows' E). unfold sha_line. by rewrite Ei, Er.
Qed.

Section Facts.
Context `{Digest} `{JsonText} (img : Z).

Lemma validate_boundary r convo b :
  validate r convo = Some b -> 0 < b <= Z.of_nat (length convo).
Proof.
  unfold validate. destruct (sr_through_index r) as [i|]; [|done]. case_match eqn:Hb; [done|]. bool_simp.
  destruct (convo !! _); [|done]. case_match; [done|]. case_match; [done|]. intros [= <-]. lia.
Qed.

Lemma validate_sha r convo b :
  validate r convo = Some b -> sr_sha r = Some (covered_sha (take (Z.to_nat b) convo)).
Proof.
  unfold validate. destruct (sr_through_index r) as [i|]; [|done]. case_match eqn:Hb; [done|].
  destruct (convo !! _); [|done]. case_match; [done|]. case_match eqn:Hs; [done|]. bool_simp. intros [= <-]. done.
Qed.

Lemma take_last_lookup {A} (n : nat) (l : list A) x :
  l !! n = Some x -> list.last (take (S n) l) = Some x.
Proof.
  intros Hx. rewrite last_lookup, length_take.
  pose proof (lookup_lt_Some _ _ _ Hx). replace (Nat.pred (S n `min` length l)) with n by lia.
  rewrite lookup_take. case_decide; [done|lia].
Qed.

Lemma build_validates now summary convo b files tids model prior k src instr convo' :
  0 < b <= Z.of_nat (length convo) ->
  map row_key (take (Z.to_nat b) convo') = map row_key (take (Z.to_nat b) convo) ->
  validate (build_record now summary convo b files tids model prior k src instr) convo' = Some b.
Proof.
  intros Hb E. unfold validate, build_record. cbn [sr_through_index sr_through_id sr_sha].
  assert (Z.to_nat b <= length convo')%nat as Hlen.
  { apply (f_equal length) in E. rewrite !length_map, !length_take in E. lia. }
  replace (b - 1 <? 0) with false by lia. replace (Z.of_nat (length convo') <=? b - 1) with false by lia. cbn [orb].
  destruct (lookup_lt_is_Some_2 convo' (Z.to_nat (b - 1))) as [row' Hrow']; [lia|].
  destruct (lookup_lt_is_Some_2 convo (Z.to_nat (b - 1))) as [row Hrow]; [lia|].
  rewrite Hrow'. replace (Z.to_nat b) with (S (Z.to_nat (b - 1))) by lia.
  rewrite (take_last_lookup _ _ _ Hrow). cbn [fmap option_fmap option_map from_option id].
  assert (row_id row' = row_id row) as Hid.
  { apply (f_equal (fun l => l !! Z.to_nat (b - 1))) in E.
    assert (forall c x, c !! Z.to_nat (b - 1) = Some x ->
      map row_key (take (Z.to_nat b) c) !! Z.to_nat (b - 1) = Some (row_key x)) as Hg.
    { intros c x Hx. change (map row_key (take (Z.to_nat b) c)) with (row_key <$> take (Z.to_nat b) c).
      rewrite list_lookup_fmap, lookup_take. case_decide; [by rewrite Hx|lia]. }
    rewrite (Hg _ _ Hrow), (Hg _ _ Hrow') in E. unfold row_key in E. congruence. }
  rewrite Hid. rewrite (bool_decide_true (row_id row = row_id row)) by done. rewrite andb_false_r.
  replace (Z.to_nat (b - 1 + 1)) with (Z.to_nat b) by lia.
  replace (S (Z.to_nat (b - 1))) with (Z.to_nat b) by lia.
  rewrite bool_decide_true; [simpl; f_equal; lia|]. f_equal. unfold covered_sha. f_equal. by apply sha_input_key.
Qed.

(** ** Chunks *)

(** Chunks of a run of turns from a position on: each is either a run of whole turns
    that fits the budget, or one turn that does not, reduced. *)
Inductive chunked (budget : Z) : list (list message) -> Z -> list (Z * list message) -> Prop :=
| chunked_nil pos : chunked budget [] pos []
| chunked_run g gs pos cs :
    g <> [] -> estimate img (concat g) <= budget ->
    chunked budget gs (pos + Z.of_nat (length (concat g))) cs ->
    chunked budget (g ++ gs) pos ((pos + Z.of_nat (length (concat g)), concat g) :: cs)
| chunked_big t gs pos cs :
    budget < estimate img t ->
    chunked budget gs (pos + Z.of_nat (length t)) cs ->
    chunked budget (t :: gs) pos ((pos + Z.of_nat (length t), reduce_turn img t budget) :: cs).

Lemma estimate_app a b : estimate img (a ++ b) = estimate img a + estimate img b.
Proof. unfold estimate, estimate_conversation_tokens. rewrite sum_tokens_app. simpl. lia. Qed.

Lemma concat_nonempty (g : list (list message)) :
  Forall (fun t => t <> []) g -> nonempty_list (concat g) = match g with [] => false | _ => true end.
Proof. intros F. destruct F as [|t g Ht _]; [done|]. by destruct t. Qed.

Hypothesis img_nonneg : 0 <= img.

Lemma estimate_pos ms : 0 <= estimate img ms.
Proof.
  unfold estimate, estimate_conversation_tokens. pose proof (sum_tokens_nonneg img ms img_nonneg). simpl. lia.
Qed.

Lemma estimate_nil : estimate img [] = 0.
Proof. done. Qed.

Lemma chunk_loop_chunked budget turns g pos :
  0 <= budget -> Forall (fun t => t <> []) (g ++ turns) -> estimate img (concat g) <= budget ->
  chunked budget (g ++ turns) (pos - Z.of_nat (length (concat g)))
    (chunk_loop img budget turns (concat g) (estimate img (concat g)) pos).
Proof.
  intros Hnn. revert g pos. induction turns as [|t turns IH]; intros g pos F Hb; cbn [chunk_loop].
  - rewrite app_nil_r in *. pose proof (concat_nonempty g F) as Hn.
    destruct g as [|t0 g0]; [constructor|]. set (g := t0 :: g0) in *.
    destruct (concat g) as [|m ms] eqn:Ec; [done|]. rewrite <- Ec in *.
    pose proof (chunked_run budget g [] (pos - Z.of_nat (length (concat g))) []) as C. rewrite app_nil_r in C.
    replace (pos - Z.of_nat (length (concat g)) + Z.of_nat (length (concat g))) with pos in C by lia.
    apply C; [done|done|constructor].
  - apply Forall_app in F as [Fg [Ht Ft]%Forall_cons]. rewrite concat_nonempty by done.
    assert (forall pos', chunked budget (t :: turns) pos'
       (if budget <? estimate img t
        then (pos' + Z.of_nat (length t), reduce_turn img t budget)
               :: chunk_loop img budget turns [] 0 (pos' + Z.of_nat (length t))
        else chunk_loop img budget turns ([] ++ t) (0 + estimate img t) (pos' + Z.of_nat (length t)))) as Hfresh.
    { intros pos'. destruct (Z.ltb_spec budget (estimate img t)).
      - constructor; [done|]. pose proof (IH [] (pos' + Z.of_nat (length t))) as C. simpl in C.
        rewrite Z.sub_0_r in C. apply C; [done|]. by rewrite estimate_nil.
      - pose proof (IH [t] (pos' + Z.of_nat (length t))) as C. simpl in C. rewrite app_nil_r in C.
        replace (pos' + Z.of_nat (length t) - Z.of_nat (length t)) with pos' in C by lia.
        apply C; [by constructor|lia]. }
    destruct g as [|t0 g0]; [simpl; rewrite Z.sub_0_r; apply Hfresh|]. set (g := t0 :: g0) in *. cbn [andb].
    destruct (Z.ltb_spec budget (estimate img (concat g) + estimate img t)) as [Hov|Hfit].
    + pose proof (chunked_run budget g (t :: turns) (pos - Z.of_nat (length (concat g)))) as C.
      replace (pos - Z.of_nat (length (concat g)) + Z.of_nat (length (concat g))) with pos in C by lia.
      apply C; [done|done|apply Hfresh].
    + replace (budget <? estimate img t) with false.
      2:{ symmetry. apply Z.ltb_ge. pose proof (estimate_pos (concat g)). lia. }
      pose proof (IH (g ++ [t]) (pos + Z.of_nat (length t))) as C.
      rewrite concat_app in C. cbn [concat] in C. rewrite app_nil_r, length_app, estimate_app in C.
      rewrite <- app_assoc in C. cbn [app] in C |- *.
      replace (pos + Z.of_nat (length t) - Z.of_nat (length (concat g) + length t))
        with (pos - Z.of_nat (length (concat g))) in C by lia.
      apply C; [|lia]. apply Forall_app. split; [done|by constructor].
Qed.

Lemma turns_nonempty ms : Forall (fun t => t <> []) (group_into_turns ms).
Proof.
  eapply Forall_impl; [apply group_into_turns_like|]. by intros t (m & rest & -> & _).
Qed.

Lemma chunks_chunked rows budget :
  chunked (Z.max 1 budget) (group_into_turns rows) 0 (chunk_by_turns img rows budget).
Proof.
  unfold chunk_by_turns. pose proof (chunk_loop_chunked (Z.max 1 budget) (group_into_turns rows) [] 0) as C.
  simpl in C. apply C; [lia|apply turns_nonempty|rewrite estimate_nil; lia].
Qed.
(** The first chunk takes at least one row and none past the end. *)
Lemma first_chunk rows budget e r cs :
  chunk_by_turns img rows budget = (e, r) :: cs -> 0 < e <= Z.of_nat (length rows).
Proof.
  intros E. pose proof (chunks_chunked rows budget) as C. rewrite E in C.
  pose proof (turns_nonempty rows) as F. pose proof (flatten_group rows) as Hfl. unfold flatten_turns in Hfl.
  assert (exists g gs, group_into_turns rows = g ++ gs /\ g <> [] /\ e = Z.of_nat (length (concat g))) as (g & gs & Eg & Hg & ->).
  { inversion C as [|g gs pos cs' Hg Hb1 Hc1 E1 Ep1 [E2 Er1]|t gs pos cs' Hb1 Hc1 E1 Ep1 [E2 Er1]].
    - exists g, gs. split; [done|]. split; [done|lia].
    - exists [t], gs. simpl. rewrite app_nil_r. split; [done|]. split; [done|lia]. }
  rewrite Eg in F. rewrite <- Hfl, Eg, concat_app, length_app. apply Forall_app in F as [F _].
  destruct g as [|t g]; [done|]. apply Forall_cons in F as [Ht _]. destruct t; [done|]. simpl. lia.
Qed.

(** ** Folding *)

Lemma save_messages io r data : sd_messages (snd (save_record io r data)) = sd_messages data.
Proof. unfold save_record. destruct (validate _ _); [|done]. by destruct io. Qed.

(** What a fold leaves: either nothing changed, or a record that covers up to the
    boundary reached and validates against the history it was folded from. *)
Definition folded (convo : list message) (start end_ : Z) (max_folds : nat)
    (record : option summary_record) (data : session_data) (fr : fold_result) : Prop :=
  sd_messages (fr_data fr) = sd_messages data
  /\ 0 <= fr_folds fr <= Z.of_nat max_folds
  /\ (fr_folds fr = 0 -> fr_record fr = record /\ fr_pos fr = start /\ fr_data fr = data)
  /\ (0 < fr_folds fr -> start < fr_pos fr <= end_ /\ exists r,
        fr_record fr = Some r /\ sr_rows r = fr_pos fr /\ validate r convo = Some (fr_pos fr)).

Lemma fold_loop_folded env conf win model src instr convo end_ allowed k pos record data :
  0 <= pos -> pos <= end_ -> end_ <= Z.of_nat (length convo) ->
  let fr := fold_loop img env conf win model src instr convo end_ allowed k pos record data in
  sd_messages (fr_data fr) = sd_messages data
  /\ Z.of_nat k <= fr_folds fr <= Z.of_nat (k + allowed)
  /\ (fr_folds fr = Z.of_nat k -> fr_record fr = record /\ fr_pos fr = pos /\ fr_data fr = data)
  /\ (Z.of_nat k < fr_folds fr -> pos < fr_pos fr <= end_ /\ exists r,
        fr_record fr = Some r /\ sr_rows r = fr_pos fr /\ validate r convo = Some (fr_pos fr)).
Proof.
  revert k pos record data. induction allowed as [|allowed IH]; intros k pos record data Hp He Hl; cbn [fold_loop].
  - assert (forall b n, let fr := FoldResult record (Z.of_nat k) b n pos data in
      sd_messages (fr_data fr) = sd_messages data /\ Z.of_nat k <= fr_folds fr <= Z.of_nat (k + 0)
      /\ (fr_folds fr = Z.of_nat k -> fr_record fr = record /\ fr_pos fr = pos /\ fr_data fr = data)
      /\ (Z.of_nat k < fr_folds fr -> pos < fr_pos fr <= end_ /\ exists r,
           fr_record fr = Some r /\ sr_rows r = fr_pos fr /\ validate r convo = Some (fr_pos fr))) as Hstop
      by (intros b n; simpl; split; [done|]; split; [lia|]; split; [done|lia]).
    destruct (chunk_by_turns _ _ _) as [|[e r] cs]; apply Hstop.
  - set (stop := fun b n => FoldResult record (Z.of_nat k) b n pos data).
    assert (forall b n, let fr := stop b n in
      sd_messages (fr_data fr) = sd_messages data /\ Z.of_nat k <= fr_folds fr <= Z.of_nat (k + S allowed)
      /\ (fr_folds fr = Z.of_nat k -> fr_record fr = record /\ fr_pos fr = pos /\ fr_data fr = data)
      /\ (Z.of_nat k < fr_folds fr -> pos < fr_pos fr <= end_ /\ exists r,
           fr_record fr = Some r /\ sr_rows r = fr_pos fr /\ validate r convo = Some (fr_pos fr))) as Hstop
      by (intros b n; simpl; split; [done|]; split; [lia|]; split; [done|lia]).
    destruct (chunk_by_turns _ _ _) as [|[e rows] cs] eqn:Ec; [apply Hstop|].
    destruct (summarize env _ _ _) as [|c0 summ]; [apply Hstop|].
    apply first_chunk in Ec. unfold segment in Ec. rewrite length_take, length_drop in Ec.
    set (r' := build_record _ _ _ _ _ _ _ _ _ _ _).
    set (data' := snd (save_record _ r' data)).
    destruct (IH (S k) (pos + e) (Some r') data') as (A & B & C & D); [lia|lia|done|].
    set (fr := fold_loop _ _ _ _ _ _ _ _ _ _ _ _ _ _) in *.
    assert (validate r' convo = Some (pos + e)) as Hv by (apply build_validates; [lia|done]).
    split; [rewrite A; apply save_messages|]. split; [lia|]. split; [lia|]. intros _.
    destruct (Z.eq_dec (fr_folds fr) (Z.of_nat (S k))) as [Heq|Hne].
    + destruct (C Heq) as (Hr & Hpos & _). rewrite Hpos, Hr. split; [lia|]. exists r'. by split.
    + destruct D as [? ?]; [lia|]. split; [lia|done].
Qed.

Lemma fold_folded env conf win model src instr convo start end_ max_folds record data :
  0 <= start -> start <= end_ -> end_ <= Z.of_nat (length convo) ->
  folded convo start end_ (Z.to_nat max_folds) record data
    (fold img env conf win model src instr convo start end_ max_folds record data).
Proof.
  intros Hs He Hl. destruct (fold_loop_folded env conf win model src instr convo end_ (Z.to_nat max_folds) 0 start record data Hs He Hl)
    as (A & B & C & D). exact (conj A (conj B (conj C D))).
Qed.
End Facts.

(** ** The promises *)

(** A record survives what does not change the past. A record built over a prefix
    of the history validates, at its boundary, against any later history whose first
    rows have the same ids and roles: appended rows and rewritten contents are fine. *)
Theorem fresh_record_validates `{Digest} now summary convo b files tids model prior k src instr convo' :
  0 < b <= Z.of_nat (length convo) ->
  map row_key (take (Z.to_nat b) convo') = map row_key (take (Z.to_nat b) convo) ->
  validate (build_record now summary convo b files tids model prior k src instr) convo' = Some b.
Proof. apply build_validates. Qed.

(** A record is refused over a changed past. If a record built over a prefix
    validates against a history, then - unless the digest collides on these two very
    inputs - the covered rows of that history have the ids and the roles, in the order,
    of the rows it was built from. *)
Theorem record_validates_only_same_past `{Digest} now summary convo b files tids model prior k src instr convo' b' :
  0 < b <= Z.of_nat (length convo) ->
  Forall keyed (take (Z.to_nat b) convo) -> Forall keyed (take (Z.to_nat b) convo') ->
  (sha256 (sha_input (take (Z.to_nat b) convo')) = sha256 (sha_input (take (Z.to_nat b) convo)) ->
   sha_input (take (Z.to_nat b) convo') = sha_input (take (Z.to_nat b) convo)) ->
  validate (build_record now summary convo b files tids model prior k src instr) convo' = Some b' ->
  b' = b /\ map row_key (take (Z.to_nat b) convo') = map row_key (take (Z.to_nat b) convo).
Proof.
  intros Hb K K' Hcoll Hv. assert (b' = b) as ->.
  { unfold validate, build_record in Hv. cbn [sr_through_index] in Hv. case_match; [done|].
    destruct (convo' !! _); [|done]. case_match; [done|]. case_match; [done|]. injection Hv as <-. lia. }
  split; [done|]. apply validate_sha in Hv. cbn [build_record sr_sha] in Hv. injection Hv as Hv.
  apply sha_input_inj; [done|done|]. apply Hcoll. symmetry. exact Hv.
Qed.

(** Chunks cut between turns. The chunks a fold is fed partition the rows, in order
    and at turn boundaries; each is a run of whole turns within the budget, or a single
    turn over the budget handed over reduced; and each end is the number of rows so far. *)
Theorem chunks_partition `{JsonText} img rows budget :
  0 <= img -> chunked img (Z.max 1 budget) (group_into_turns rows) 0 (chunk_by_turns img rows budget).
Proof. intros. by apply chunks_chunked. Qed.

(** Folding only moves forward. However the summariser, the disk and the ledger
    behave, a fold leaves the messages alone and performs at most the allowed number of
    folds; with none it changes nothing, and otherwise its record covers strictly more
    rows than before, none past the end it was given, and validates against the history. *)
Theorem fold_advances `{Digest} `{JsonText} img env conf win model src instr convo start end_ max_folds record data :
  0 <= img -> 0 <= start -> start <= end_ -> end_ <= Z.of_nat (length convo) ->
  folded convo start end_ (Z.to_nat max_folds) record data
    (fold img env conf win model src instr convo start end_ max_folds record data).
Proof. intros. by apply fold_folded. Qed.


Lemma drop_drop_app {A} (a b : nat) (l older recent : list A) :
  older ++ recent = drop a l -> (a <= b)%nat -> (b <= a + length older)%nat ->
  exists skipped, drop b l = skipped ++ recent.
Proof.
  intros E Hab Hb. exists (drop (b - a) older).
  replace b with (a + (b - a))%nat at 1 by lia. rewrite <- drop_drop, <- E, drop_app_le; [done|lia].
Qed.

(** [/compact] keeps the recent turns. When it succeeds, the session's messages are
    what they were; if it folded anything, the record it leaves validates against the
    history at the boundary reported, and the last turns to keep are past it. *)
Theorem manual_compact_keeps_recent `{Digest} `{JsonText} img env conf win keep max_folds model instr data done_ :
  0 <= img -> 0 < keep ->
  manual_compact img env conf win keep max_folds model instr (Readable data) = inr done_ ->
  let convo := conversation_rows (sd_messages data) in
  sd_messages (cd_data done_) = sd_messages data
  /\ (0 < cd_folds done_ ->
        (exists r, cd_record done_ = Some r /\ validate r convo = Some (cd_covered_rows done_))
        /\ exists recent_turns skipped, Z.of_nat (length recent_turns) = keep
             /\ drop (Z.to_nat (cd_covered_rows done_)) convo = skipped ++ flatten_turns recent_turns).
Proof.
  intros Hi Hk. unfold manual_compact. set (convo := conversation_rows (sd_messages data)).
  destruct convo as [|m0 ms0] eqn:Econvo; [done|]. rewrite <- Econvo.
  set (held := load_record data ≫= _).
  set (start := default 0 (snd <$> held)).
  assert (0 <= start <= Z.of_nat (length convo)) as Hstart.
  { unfold start, held. destruct (load_record data) as [r|]; simpl; [|lia]. rewrite Econvo.
    destruct (validate r (m0 :: ms0)) as [b|] eqn:Ev; simpl; [|lia]. apply validate_boundary in Ev. simpl in *. lia. }
  destruct (split_for_summary (drop (Z.to_nat start) convo) keep) as [older recent] eqn:Es. cbn [fst].
  pose proof (split_parts _ _ _ _ Hk Es) as (Epart & ot & rt & Eg & Eo & Er & Hlen).
  destruct older as [|o0 os] eqn:Eold; [intros [= <-]; split; [done|simpl; lia]|]. rewrite <- Eold in *.
  set (fr := fold _ _ _ _ _ _ _ _ _ _ _ _ _).
  assert (Z.of_nat (length older) + start <= Z.of_nat (length convo)) as Hend.
  { apply (f_equal length) in Epart. rewrite length_app, length_drop in Epart. lia. }
  assert (folded convo start (start + Z.of_nat (length older)) (Z.to_nat max_folds) (fst <$> held) data fr) as (A & B & C & D)
    by (apply fold_folded; lia).
  destruct (Z.eqb_spec (fr_folds fr) 0) as [|Hnz]; [done|]. intros [= <-]. cbn [cd_data cd_folds cd_record cd_covered_rows].
  split; [done|]. intros Hpos. destruct (D Hpos) as (Hp & r & Hr & Hrows & Hv). rewrite Hr. cbn [fmap option_fmap option_map from_option id].
  rewrite Hrows. split; [by exists r|]. exists rt.
  destruct (drop_drop_app (Z.to_nat start) (Z.to_nat (fr_pos fr)) convo older recent Epart) as [skipped Hsk]; [lia|lia|].
  exists skipped. split; [|by rewrite Hsk, Er].
  assert (ot <> []) as Hot by (intros ->; by rewrite Eo in Eold).
  rewrite Eg, length_app in Hlen. destruct ot; [done|]. simpl in Hlen. lia.
Qed.

(** What is saved is what is read back. Saving a record that validates leaves the
    session's messages and its memory-flush bookkeeping as they were, and the record
    read back from the session is that record; a record that does not validate, or a
    write that fails, leaves the session as it was. *)
Theorem save_record_roundtrip `{Digest} io_ok r data :
  let '(saved, data') := save_record io_ok r data in
  if saved then validate r (conversation_rows (sd_messages data)) <> None
                /\ sd_messages data' = sd_messages data
                /\ (sd_compaction data' ≫= st_flush) = (sd_compaction data ≫= st_flush)
                /\ load_record data' = (if nonempty (strip (sr_summary r)) then Some r else None)
  else data' = data.
Proof.
  unfold save_record. destruct (validate r _) eqn:Ev; [|done]. destruct io_ok; [|done].
  split; [done|]. split; [done|]. split; [done|]. reflexivity.
Qed.

(** ** On concrete rows *)

#[local] Existing Instance blank_json.

Definition plain_digest : Digest := {| sha256 t := t |}.
#[local] Existing Instance plain_digest.

Definition idrow (id role : string) (t : text) : message :=
  Msg (Some (utf8 id)) role (CStr t) (Some (utf8 id)) [] [] None 0 None JNull.

Definition demo_convo : list message :=
  [idrow "1" "user" (u "hello"); idrow "2" "assistant" (u "hi"); idrow "3" "user" (u "more"); idrow "4" "assistant" (u "ok")].

Definition demo_env : fold_env := FoldEnv (fun _ _ _ => u "summary") (fun _ => 7) (fun _ => true) None.
Definition demo_data : session_data := SessionData demo_convo None.

Lemma fresh_record_validates_witness :
  validate (build_record 7 (u "s") demo_convo 2 [] [] [] None 1 "auto" [])
    (idrow "1" "user" (u "rewritten") :: idrow "2" "assistant" [] :: [idrow "9" "user" []]) = Some 2.
Proof. apply fresh_record_validates; [simpl; lia | vm_compute; reflexivity]. Defined.

Lemma record_validates_only_same_past_witness :
  map row_key (take 2 demo_convo) = map row_key (take 2 demo_convo).
Proof.
  refine (proj2 (record_validates_only_same_past 7 (u "s") demo_convo 2 [] [] [] None 1 "auto" [] demo_convo 2 _ _ _ _ _)).
  - simpl. lia.
  - repeat constructor; vm_compute; intros Hx; inversion Hx; subst; inversion H1.
  - repeat constructor; vm_compute; intros Hx; inversion Hx; subst; inversion H1.
  - intros Hs. exact Hs.
  - vm_compute. reflexivity.
Defined.

Lemma chunks_partition_witness :
  chunked 0 1 (group_into_turns demo_convo) 0 (chunk_by_turns 0 demo_convo 1).
Proof. exact (chunks_partition 0 demo_convo 1 ltac:(lia)). Defined.

Lemma fold_advances_witness :
  exists r, fr_record (fold 0 demo_env 48000 128000 [] "auto" [] demo_convo 0 2 3 None demo_data) = Some r
    /\ validate r demo_convo = Some 2.
Proof.
  destruct (fold_advances 0 demo_env 48000 128000 [] "auto" [] demo_convo 0 2 3 None demo_data
    ltac:(lia) ltac:(lia) ltac:(lia) ltac:(simpl; lia)) as (_ & _ & _ & D).
  destruct D as (_ & r & Hr & _ & Hv); [vm_compute; reflexivity|]. exists r. split; [exact Hr|].
  rewrite Hv. vm_compute. reflexivity.
Defined.

Lemma manual_compact_keeps_recent_witness :
  exists done_, manual_compact 0 demo_env 48000 128000 1 12 [] [] (Readable demo_data) = inr done_
    /\ sd_messages (cd_data done_) = demo_convo /\ cd_covered_rows done_ = 2.
Proof.
  destruct (manual_compact 0 demo_env 48000 128000 1 12 [] [] (Readable demo_data)) as [e|d] eqn:E;
    [vm_compute in E; discriminate|].
  exists d. split; [reflexivity|].
  split; [exact (proj1 (manual_compact_keeps_recent 0 demo_env 48000 128000 1 12 [] [] demo_data d ltac:(lia) ltac:(lia) E))|].
  vm_compute in E. injection E as <-. reflexivity.
Defined.
