(* ===== verification/Compaction.v ===== *)
(** * The turn-start compaction stack

    [app/compaction.py]: [load_and_compact_session] and its persisted-summary layer -
    filter, re-apply the sidecar, microcompact, apply and extend the stored summary or
    summarise afresh, and truncate what is still too long. *)
From Stdlib Require Import String.
From S2P Require Import Prelude PyText QueueRows Spill Messages Microcompact Summarize SummaryRecord.

Local Open Scope Z_scope.

(** ** Configuration: the [compaction:] block with its defaults *)

Record compaction_cfg := CompactionCfg {
  c_mode : string;                        (** [summarize] or [truncate] *)
  c_summary_model : text;                 (** empty for none *)
  c_keep_recent_turns : Z;
  c_persist_summary : bool;
  c_summary_input_budget : Z;
  c_max_folds_per_turn : Z;
  c_micro_enabled : bool;
  c_keep_recent_tools : Z;
  c_count_threshold : Z;
  c_compactable_tools : list text;
  c_non_compactable_tools : option (list text);
  c_trigger : Z -> Z;                     (** [int(threshold * trigger_fraction)] *)
  c_target : Z -> Z;                      (** [int(threshold * target_fraction)] *)
  c_min_chars_to_clear : Z;
  c_observation_stubs : bool;
  c_observation_head_chars : Z;
  c_name_session_record : bool;
  c_restore_enabled : bool;
  c_restore : restore_cfg
}.

(** The shipped defaults: fractions 0.8 and 0.6 of an integer, rounded down. *)
Definition default_cfg : compaction_cfg :=
  CompactionCfg "summarize" [] 5 false 48000 3 true 15 20 DEFAULT_COMPACTABLE_TOOLS None
    (fun t => t * 8 / 10) (fun t => t * 6 / 10) 2000 false 400 false true default_restore.

Inductive outcome_name :=
| No_history_found | Under_threshold | Mode_truncate | No_older_block | Empty_summary | Summarized | Reused.

(** ** Replaying injected context ([app/prompt_layout.py]) *)

Definition TAIL_SEP : text := nl ++ nl.

Definition field (k : string) (v : json) : json :=
  match v with JObj fs => default JNull (obj_get k fs) | _ => JNull end.

(** The text of a row: a string, or what its blocks carry under ["text"]. *)
Definition text_of (c : content) : text :=
  match c with
  | CStr t => t
  | CBlocks bs =>
      concat (map (fun b => match b with
                            | BText t => t
                            | BOther j => match field "text" j with JStr s => utf8 s | _ => [] end
                            | _ => []
                            end) bs)
  | COther _ => []
  end.

Definition append_turn_tail (prefetched tail : text) : text :=
  match tail with [] => prefetched | _ => prefetched ++ TAIL_SEP ++ tail end.

(** [_rejoin]: [None] when [int(tail_chars)] raises. *)
Definition rejoin (user_row sub_row : message) : option text :=
  let t := text_of user_row.(m_content) in
  let injected := text_of sub_row.(m_content) in
  let meta := field "subliminal" sub_row.(m_rest) in
  tail_chars ← match field "tail_chars" meta with
               | JInt n => Some n
               | v => if falsy v then Some 0 else None
               end;
  let tail := if tail_chars =? 0 then [] else slice_from (- tail_chars) injected in
  let prefix := if tail_chars =? 0 then injected else slice_to (- tail_chars) injected in
  let prefix := if negb (tail_chars =? 0) && endswith TAIL_SEP prefix
                then slice_to (- len TAIL_SEP) prefix else prefix in
  Some (match field "kind" meta with
        | JStr "ambient_envelope" => append_turn_tail prefix tail
        | _ => join TAIL_SEP (sel nonempty [prefix; t; tail])
        end).

(** The subliminal row of a turn: the last one that names it. *)
Definition subliminal_of (messages : list message) (tid : text) : option message :=
  list.last (sel (fun m => String.eqb m.(m_role) "subliminal"
                           && match field "turn_id" (field "subliminal" m.(m_rest)) with
                              | JStr s => bool_decide (utf8 s = tid) && nonempty tid
                              | _ => false
                              end) messages).

Definition replay_row (messages : list message) (m : message) : option message :=
  match (if is_user m then subliminal_of messages (default [] m.(m_turn_id)) else None) with
  | None => Some m
  | Some sub => (fun t => set_content (CBlocks [BText t]) m) <$> rejoin m sub
  end.

(** One row that cannot be re-joined leaves the whole history as it was. *)
Definition replay_injected (convo messages : list message) : list message :=
  default convo (mapM (replay_row messages) convo).

(** ** The persisted-summary layer *)

Record layer := Layer {
  ly_convo : list message;
  ly_summarized : bool;
  ly_attempted : bool;
  ly_outcome : outcome_name;
  ly_restored : Z;
  ly_reused : bool;
  ly_folds : Z;
  ly_covered_rows : Z;
  ly_head : Z;
  ly_data : session_data
}.

Section Stack.
Context `{PyJson} `{Disk} `{Digest} `{JsonText}.
Variables (sessions_dir : text) (resolve : text -> text) (image_tokens : Z).
(** The text of a file the user works on, the configured [context_length] of a model,
    and the summarising model. *)
Variables (read_file : text -> option text) (context_length : text -> option Z) (llm : summarizer).

Abbreviation tokens := (estimate_conversation_tokens image_tokens).

(** Layer C: the restored rows and their file count; a failure restores nothing. *)
Definition restore_layer (cfg : compaction_cfg) (covered : list message) : list message * Z :=
  if cfg.(c_restore_enabled) then
    match restore_recent_files read_file cfg.(c_restore) covered with
    | Ok rows => (rows, restored_file_count rows)
    | Raise _ => ([], 0)
    end
  else ([], 0).

(** What a fold of this turn calls: the incremental summary of the summary's model. *)
Definition fold_env_of (model instructions : text) (now : nat -> Z) (saves : nat -> bool)
    (ledger : option (text -> option (list change))) : fold_env :=
  FoldEnv (fun prior rows budget => default [] (summarize_incremental llm prior rows model instructions (Some budget)))
    now saves ledger.

Definition summary_model_of (cfg : compaction_cfg) (model : text) : text :=
  match cfg.(c_summary_model) with [] => model | m => m end.

(** The history of a record: the summary, the restored files, the rows past it. *)
Definition with_record (cfg : compaction_cfg) (record : summary_record) (convo : list message)
    : list message * Z * Z :=
  let boundary := Z.to_nat record.(sr_rows) in
  let '(restored, n) := restore_layer cfg (take boundary convo) in
  let head := summary_message record :: restored in
  (head ++ drop boundary convo, Z.of_nat (length head), n).

(** The end of the layer, with or without a record in force. *)
Definition finish_layer (cfg : compaction_cfg) (convo : list message) (reused : bool)
    (record : option summary_record) (attempted : bool) (outcome : outcome_name) (folds : Z)
    (data : session_data) : layer :=
  match record with
  | None => Layer convo false attempted outcome 0 reused folds 0 0 data
  | Some r =>
      let '(new_convo, head, restored) := with_record cfg r convo in
      Layer new_convo true attempted outcome restored reused folds r.(sr_rows) head data
  end.

Definition persisted_summary_layer (cfg : compaction_cfg) (env : text -> fold_env) (model : text)
    (convo : list message) (data : session_data) (threshold : Z) (system_prompt : text)
    (cur_tokens : Z) (allow_fold : bool) : layer :=
  let applied := load_record data ≫= fun r => (fun a => (r, a)) <$> apply_record convo r in
  let record := fst <$> applied in
  let reused := bool_decide (is_Some applied) in
  let covered := default [] ((fun a => snd (fst (snd a))) <$> applied) in
  let remaining := default convo ((fun a => snd (snd a)) <$> applied) in
  let cur_tokens := match applied with
                    | Some (_, (summary_msg, _, remaining)) => tokens (summary_msg :: remaining) system_prompt
                    | None => cur_tokens
                    end in
  let finish := finish_layer cfg convo reused in
  if threshold <? cur_tokens then
    if negb allow_fold then finish record false Mode_truncate 0 data
    else
      let older := fst (split_for_summary remaining cfg.(c_keep_recent_turns)) in
      match older with
      | [] => finish record true No_older_block 0 data
      | _ =>
          let start := Z.of_nat (length covered) in
          let model := summary_model_of cfg model in
          let res := fold image_tokens (env model) cfg.(c_summary_input_budget)
                       (get_context_window (context_length model)) model "auto" [] convo start
                       (start + Z.of_nat (length older)) cfg.(c_max_folds_per_turn) record data in
          if res.(fr_folds) =? 0 then finish record true Empty_summary 0 res.(fr_data)
          else finish res.(fr_record) true Summarized res.(fr_folds) res.(fr_data)
      end
  else finish record false (if reused then Reused else Under_threshold) 0 data.

(** ** The whole stack *)

Record load_result := LoadResult {
  lr_history : list message;
  lr_tokens_before : Z;
  lr_tokens_after : Z;
  lr_dropped : Z;                    (** [truncated] is [0 < lr_dropped] *)
  lr_summarized : bool;
  lr_microcompacted : Z;
  lr_sidecar_applied : Z;
  lr_restored_files : Z;
  lr_attempted : bool;
  lr_outcome : outcome_name;
  lr_reused : bool;
  lr_folds : Z;
  lr_covered_rows : Z;
  lr_fs : fs;
  lr_sidecars : gmap text sidecar;
  lr_data : session_data
}.

Definition micro_options (cfg : compaction_cfg) (sid : text) (threshold tokens_before : Z)
    (system_prompt : text) (disallowed already : list text) : mc_options :=
  McOptions cfg.(c_keep_recent_tools) cfg.(c_count_threshold) cfg.(c_compactable_tools)
    (if cfg.(c_trigger) threshold <? tokens_before then Some (cfg.(c_target) threshold) else None)
    (Some (fun ms => tokens ms system_prompt)) cfg.(c_min_chars_to_clear) sid false disallowed
    cfg.(c_non_compactable_tools) cfg.(c_observation_stubs) cfg.(c_observation_head_chars)
    cfg.(c_name_session_record) already.

(** Layer B: the sidecar's reductions, the clearing pass, and what both record. *)
Definition micro_layer (cfg : compaction_cfg) (sid : text) (sidecar_on writable : bool)
    (disallowed : list text) (threshold tokens_before : Z) (system_prompt : text)
    (convo : list message) (d : fs) (s : gmap text sidecar)
    : list message * Z * Z * fs * gmap text sidecar :=
  if cfg.(c_micro_enabled) then
    let already := if sidecar_on then read_cleared_calls sessions_dir sid s else [] in
    let '(convo, applied) := if sidecar_on then apply_reduction_sidecar sessions_dir convo sid s d else (convo, 0) in
    let r := microcompact sessions_dir resolve
               (micro_options cfg sid threshold tokens_before system_prompt disallowed already) convo d in
    let s := if sidecar_on then snd (record_cleared_calls sessions_dir writable sid r.(mc_cleared_calls) s) else s in
    let s := if sidecar_on then snd (record_reduced_calls sessions_dir writable sid r.(mc_reduced) s) else s in
    (r.(mc_out), r.(mc_cleared), applied, r.(mc_fs), s)
  else (convo, 0, 0, d, s).

(** Layer A without a stored record: a fresh summary of the older block, or nothing. *)
Definition regenerate (cfg : compaction_cfg) (model : text)
    (convo : list message) : list message * bool * outcome_name * Z :=
  let '(older, recent) := split_for_summary convo cfg.(c_keep_recent_turns) in
  match older with
  | [] => (convo, false, No_older_block, 0)
  | _ =>
      match summarize_history llm older (summary_model_of cfg model) [] with
      | None => (convo, false, Empty_summary, 0)
      | Some summary =>
          let msg := text_row "assistant" (SUMMARY_HEADER ++ nl ++ nl ++ summary) in
          let '(restored, n) := restore_layer cfg older in
          (msg :: restored ++ recent, true, Summarized, n)
      end
  end.

(** The fallback: drop-oldest, never over the summary at the head. *)
Definition truncate_layer (head : Z) (convo : list message) (threshold : Z) (system_prompt : text)
    : list message * Z :=
  if head =? 0 then truncate_conversation image_tokens convo threshold TURNS_TO_KEEP system_prompt
  else
    let h := take (Z.to_nat head) convo in
    let '(tail, dropped) :=
      truncate_conversation image_tokens (drop (Z.to_nat head) convo)
        (Z.max 1000 (threshold - tokens h [])) TURNS_TO_KEEP system_prompt in
    (h ++ tail, dropped).

Definition sent (ms : list message) : list message := sel (fun m => bool_decide (m.(m_role) ∈ SENT_ROLES)) ms.

(** [mode] is already resolved (the override or the configured one, in lower case);
    [replay_on] is the prompt layout's switch; the session file was read. *)
Definition load_and_compact_session (cfg : compaction_cfg) (mode : string) (env : text -> fold_env)
    (replay_on : bool) (model sid : text) (system_prompt : text) (disallowed : list text)
    (sidecar_on writable : bool) (data : session_data) (d : fs) (s : gmap text sidecar) : load_result :=
  let threshold := truncation_threshold (get_context_window (context_length model)) in
  match data.(sd_messages) with
  | [] => LoadResult [] 0 0 0 false 0 0 0 false No_history_found false 0 0 d s data
  | messages =>
      let rows := conversation_rows messages in
      let convo := if replay_on then replay_injected rows messages else rows in
      let tokens_before := tokens convo system_prompt in
      let '(convo, cleared, applied, d, s) :=
        micro_layer cfg sid sidecar_on writable disallowed threshold tokens_before system_prompt convo d s in
      let cur := tokens convo system_prompt in
      let summarize_mode := String.eqb mode "summarize" in
      let persist := cfg.(c_persist_summary) && summarize_mode || is_manual (load_record data) in
      let ly :=
        if persist then
          persisted_summary_layer cfg env model convo data threshold system_prompt cur summarize_mode
        else if (threshold <? cur) && summarize_mode then
          let '(convo, summarized, outcome, restored) := regenerate cfg model convo in
          Layer convo summarized true outcome restored false 0 0 0 data
        else Layer convo false false (if threshold <? cur then Mode_truncate else Under_threshold) 0 false 0 0 0 data in
      let '(history, dropped) := truncate_layer ly.(ly_head) ly.(ly_convo) threshold system_prompt in
      LoadResult history tokens_before (tokens (sent history) system_prompt) dropped ly.(ly_summarized)
        cleared applied ly.(ly_restored) ly.(ly_attempted) ly.(ly_outcome) ly.(ly_reused) ly.(ly_folds)
        ly.(ly_covered_rows) d s ly.(ly_data)
  end.
End Stack.
