(* ===== verification/CompactionFacts.v ===== *)
(** * The turn-start stack: what it promises

    Whatever the layers do, the session's messages are not touched, the rows that reach
    the model are the session's own in order behind at most one summary, and a stored
    summary is used only for exactly the rows it covers. *)
From Stdlib Require Import String.
From S2P Require Import Prelude PyText QueueRows Spill Messages Microcompact MicroFacts Summarize SummaryRecord SummaryFacts Compaction.

Local Open Scope Z_scope.

(** ** Ids and roles come through every rewrite *)

Lemma Forall2_keys l k : Forall2 (fun m m' => row_key m' = row_key m) l k -> map row_key k = map row_key l.
Proof. induction 1 as [|m m' l k E _ IH]; [done|]. simpl. by rewrite E, IH. Qed.

Lemma keys_length (l k : list message) : map row_key l = map row_key k -> length l = length k.
Proof. intros E. apply (f_equal length) in E. by rewrite !length_map in E. Qed.

Lemma keys_take n l k : map row_key l = map row_key k -> map row_key (take n l) = map row_key (take n k).
Proof. intros E. by rewrite <- !firstn_map, E. Qed.

Lemma keys_lookup l k i : map row_key l = map row_key k -> row_key <$> l !! i = row_key <$> k !! i.
Proof. intros E. rewrite <- !list_lookup_fmap. change (row_key <$> l = row_key <$> k) in E. by rewrite E. Qed.

Lemma validate_keys `{Digest} r convo convo' :
  map row_key convo = map row_key convo' -> validate r convo = validate r convo'.
Proof.
  intros E. unfold validate. destruct (sr_through_index r) as [i|]; [|done].
  rewrite (keys_length _ _ E). destruct (_ || _); [done|].
  pose proof (keys_lookup _ _ (Z.to_nat i) E) as El.
  assert (covered_sha (take (Z.to_nat (i + 1)) convo) = covered_sha (take (Z.to_nat (i + 1)) convo')) as ->.
  { unfold covered_sha. f_equal. by apply sha_input_key, keys_take. }
  destruct (convo !! _), (convo' !! _); try done. injection El as Ei _. by rewrite Ei.
Qed.

Lemma replace_key m t : row_key (replace_tool_content m t) = row_key m.
Proof. unfold row_key. by rewrite replace_role. Qed.

Lemma sidecar_keys dir ms sid s d : map row_key (fst (apply_reduction_sidecar dir ms sid s d)) = map row_key ms.
Proof.
  assert (map row_key (map (fun m => default m (reapply (read_reduced_calls dir sid s) d m)) ms) = map row_key ms) as E.
  { rewrite map_map. apply map_ext. intros m. unfold reapply. case_match; [apply replace_key|done]. }
  unfold apply_reduction_sidecar. destruct (read_reduced_calls dir sid s); [done|]. by destruct ms.
Qed.

Lemma microcompact_keys `{PyJson} `{Disk} dir resolve o ms d :
  map row_key (mc_out (microcompact dir resolve o ms d)) = map row_key ms.
Proof.
  apply Forall2_keys, Forall2_same_length_lookup_2; [by rewrite microcompact_length|].
  intros i m m' Hm Hm'. destruct (microcompact_rows dir resolve o ms d i m Hm) as (x & Hx & Hor).
  simplify_eq. destruct Hor as [-> |[_ [t ->]]]; [done|apply replace_key].
Qed.

Lemma replay_keys convo messages : map row_key (replay_injected convo messages) = map row_key convo.
Proof.
  unfold replay_injected. destruct (mapM (replay_row messages) convo) as [out|] eqn:E; [|done].
  apply mapM_Some in E. apply Forall2_keys. eapply Forall2_impl; [exact E|]. intros m m' Hm. cbn beta in Hm.
  unfold replay_row in Hm. case_match; [|by simplify_eq]. destruct (rejoin m m0); [|done]. simpl in Hm. by simplify_eq.
Qed.

Section Facts.
Context `{PyJson} `{Disk} `{Digest} `{JsonText}.
Variables (dir : text) (resolve : text -> text) (img : Z).
Variables (read_file : text -> option text) (context_length : text -> option Z) (llm : summarizer).

Lemma micro_keys cfg sid on writable disallowed T before sp convo d s :
  map row_key (micro_layer dir resolve img cfg sid on writable disallowed T before sp convo d s).1.1.1.1
  = map row_key convo.
Proof.
  unfold micro_layer. destruct (c_micro_enabled cfg); [|done].
  destruct on; cbn [fst snd].
  - destruct (apply_reduction_sidecar dir convo sid s d) as [convo' n] eqn:Ea. cbn [fst snd].
    rewrite microcompact_keys. pose proof (sidecar_keys dir convo sid s d) as E. by rewrite Ea in E.
  - apply microcompact_keys.
Qed.

(** ** Truncation, with and without a head *)

(** A history cut to a size: a run of whole turns from the end, never none, with one
    note in front when anything went, and all of it when it fits. *)
Definition cut_to (T : Z) (sp : text) (rows out : list message) (dropped : Z) : Prop :=
  exists gone kept,
    group_into_turns rows = gone ++ kept /\ (rows <> [] -> kept <> [])
    /\ (estimate_conversation_tokens img rows sp <= T -> gone = [])
    /\ (estimate_conversation_tokens img (flatten_turns kept) sp <= T \/ (length kept <= 1)%nat)
    /\ dropped = sum_tokens img (flatten_turns gone)
    /\ out = (if 0 <? dropped then [truncation_note dropped (Z.of_nat (length gone))] else [])
             ++ flatten_turns kept.

Hypothesis img_nonneg : 0 <= img.

Lemma truncate_cut ms T sp out dropped :
  truncate_conversation img ms T TURNS_TO_KEEP sp = (out, dropped) -> cut_to T sp ms out dropped.
Proof.
  intros E. destruct (decide (ms = [])) as [-> |Hne].
  - assert (out = [] /\ dropped = 0) as [-> ->].
    { unfold truncate_conversation in E. destruct (_ <=? _); by injection E as <- <-. }
    exists [], []. repeat split; try done. right. simpl. lia.
  - pose proof (truncate_parts img ms T TURNS_TO_KEEP sp out dropped img_nonneg ltac:(unfold TURNS_TO_KEEP; lia) Hne E) as S.
    destruct (Z.leb_spec (estimate_conversation_tokens img ms sp) T) as [Hfit|Hover].
    + destruct S as [-> ->]. exists [], (group_into_turns ms). split; [done|].
      split; [intros _; exact (group_nonempty ms Hne)|]. split; [done|]. rewrite flatten_group.
      split; [by left|]. by split.
    + destruct S as (gone & kept & Eg & Hk & _ & Hf & Hd & Ho). exists gone, kept.
      split; [done|]. split; [done|]. split; [lia|]. split; [|by split].
      destruct Hf as [|Hf]; [by left|right; lia].
Qed.

(** What is left of the threshold past the head of the history. *)
Definition budget_past (T head : Z) (convo : list message) : Z :=
  if head =? 0 then T else Z.max 1000 (T - estimate_conversation_tokens img (take (Z.to_nat head) convo) []).

Lemma truncate_layer_head head convo T sp out dropped :
  truncate_layer img head convo T sp = (out, dropped) ->
  exists tail, out = take (Z.to_nat head) convo ++ tail
    /\ cut_to (budget_past T head convo) sp (drop (Z.to_nat head) convo) tail dropped.
Proof.
  unfold truncate_layer, budget_past. destruct (Z.eqb_spec head 0) as [-> |Hh].
  - intros E%truncate_cut. by exists out.
  - destruct (truncate_conversation _ _ _ _ _) as [tail dr] eqn:E. intros [= <- <-].
    apply truncate_cut in E. by exists tail.
Qed.

(** ** The summary layers *)

(** The history of a layer: the rows as they are, or one summary for a prefix that its
    record still describes, or a fresh summary of the older turns. *)
Inductive summarised (cfg : compaction_cfg) (convo : list message) : layer -> Prop :=
| sum_none att oc folds reused data :
    summarised cfg convo (Layer convo false att oc 0 reused folds 0 0 data)
| sum_record att oc reused folds data record n restored :
    validate record convo = Some (sr_rows record) ->
    restore_layer read_file cfg (take (Z.to_nat (sr_rows record)) convo) = (restored, n) ->
    summarised cfg convo
      (Layer (summary_message record :: restored ++ drop (Z.to_nat (sr_rows record)) convo) true att oc n reused
         folds (sr_rows record) (Z.of_nat (S (length restored))) data)
| sum_fresh older recent summary restored n data :
    older ++ recent = convo -> older <> [] ->
    restore_layer read_file cfg older = (restored, n) ->
    summarised cfg convo
      (Layer (text_row "assistant" (SUMMARY_HEADER ++ nl ++ nl ++ summary) :: restored ++ recent)
         true true Summarized n false 0 0 0 data).

(** The stored record, if it holds for the rows, says it covers what it covers. *)
Definition consistent (data : session_data) (convo : list message) : Prop :=
  forall r b, load_record data = Some r -> validate r convo = Some b -> sr_rows r = b.

Abbreviation messages_of ly := (sd_messages (ly_data ly)).

Lemma finish_summarised cfg convo reused record att oc folds data :
  (forall r, record = Some r -> validate r convo = Some (sr_rows r)) ->
  let ly := finish_layer read_file cfg convo reused record att oc folds data in
  summarised cfg convo ly /\ messages_of ly = sd_messages data.
Proof.
  intros Hr. unfold finish_layer. destruct record as [r|]; [|by split; [constructor|]]. unfold with_record.
  destruct (restore_layer read_file cfg (take (Z.to_nat (sr_rows r)) convo)) as [restored n] eqn:Er.
  split; [|done]. constructor; [by apply Hr|done].
Qed.

(** The record in force before folding, and the boundary it reaches. *)
Definition in_force (data : session_data) (convo : list message) : option (summary_record * Z) :=
  load_record data ≫= fun r => (fun b => (r, b)) <$> validate r convo.

(** The branches of the layer once the record in force is known. *)
Ltac layer_cases T fold_on :=
  match goal with |- context [T <? ?x] => destruct (T <? x); [|eexists _, _, _, 0; left; reflexivity] end;
  destruct fold_on; cbn [negb]; [|eexists _, _, _, 0; left; reflexivity];
  match goal with |- context [split_for_summary ?a ?b] => destruct (split_for_summary a b) as [[|? ?] ?] end;
  cbn [fst]; [eexists _, _, _, 0; left; reflexivity|];
  match goal with |- context [fr_folds ?f =? 0] => destruct (Z.eqb_spec (fr_folds f) 0) end;
  [eexists _, _, _, 0; right; left; split; [assumption|reflexivity]
  |eexists _, _, _, _; right; right; split; [by apply not_eq_sym|reflexivity]].

Lemma persisted_finish cfg env model convo data T sp cur fold_on :
  exists reused att oc k,
    let start := default 0 (snd <$> in_force data convo) in
    let older := fst (split_for_summary (drop (Z.to_nat start) convo) (c_keep_recent_turns cfg)) in
    let fr := fold img (env (summary_model_of cfg model)) (c_summary_input_budget cfg)
                (get_context_window (context_length (summary_model_of cfg model)))
                (summary_model_of cfg model) "auto" [] convo start (start + Z.of_nat (length older))
                (c_max_folds_per_turn cfg) (fst <$> in_force data convo) data in
    let ly := persisted_summary_layer img read_file context_length cfg env model convo data T sp cur fold_on in
    ly = finish_layer read_file cfg convo reused (fst <$> in_force data convo) att oc 0 data
    \/ (fr_folds fr = 0 /\ ly = finish_layer read_file cfg convo reused (fst <$> in_force data convo) att oc 0 (fr_data fr))
    \/ (0 <> fr_folds fr /\ ly = finish_layer read_file cfg convo reused (fr_record fr) att oc k (fr_data fr)).
Proof.
  unfold persisted_summary_layer, in_force, apply_record.
  destruct (load_record data) as [r0|]; cbn [mbind option_bind fmap option_fmap option_map].
  - destruct (validate r0 convo) as [b|] eqn:Ev; cbn [mbind option_bind fmap option_fmap option_map fst snd from_option default id].
    + pose proof (validate_boundary _ _ _ Ev) as Hb.
      replace (Z.of_nat (length (take (Z.to_nat b) convo))) with b by (rewrite length_take; lia).
      layer_cases T fold_on.
    + change (Z.of_nat (length (@nil message))) with 0. change (drop (Z.to_nat 0) convo) with convo.
      layer_cases T fold_on.
  - cbn [from_option default id]. change (Z.of_nat (length (@nil message))) with 0. change (drop (Z.to_nat 0) convo) with convo.
    layer_cases T fold_on.
Qed.

Lemma persisted_summarised cfg env model convo data T sp cur fold_on :
  0 < c_keep_recent_turns cfg -> consistent data convo ->
  let ly := persisted_summary_layer img read_file context_length cfg env model convo data T sp cur fold_on in
  summarised cfg convo ly /\ messages_of ly = sd_messages data.
Proof.
  intros Hk Hc ly. unfold ly.
  destruct (persisted_finish cfg env model convo data T sp cur fold_on) as (reused & att & oc & k & S).
  assert (forall r, fst <$> in_force data convo = Some r -> validate r convo = Some (sr_rows r)) as Hr.
  { unfold in_force. destruct (load_record data) as [r0|] eqn:El; [|done]. simpl.
    destruct (validate r0 convo) as [b|] eqn:Ev; [|done]. intros r [= <-]. rewrite (Hc _ _ El Ev). done. }
  destruct S as [-> | S]; [by apply finish_summarised|].
  set (start := default 0 (snd <$> in_force data convo)) in *.
  destruct (split_for_summary (drop (Z.to_nat start) convo) (c_keep_recent_turns cfg)) as [older recent] eqn:Es.
  pose proof (split_parts _ _ _ _ Hk Es) as [Epart _]. cbn [fst] in S.
  assert (0 <= start <= Z.of_nat (length convo)) as Hstart.
  { unfold start, in_force. destruct (load_record data) as [r0|]; simpl; [|lia].
    destruct (validate r0 convo) as [b|] eqn:Ev; simpl; [apply validate_boundary in Ev|]; lia. }
  assert (Z.of_nat (length older) + start <= Z.of_nat (length convo)) as Hend.
  { apply (f_equal length) in Epart. rewrite length_app, length_drop in Epart. lia. }
  set (fr := fold _ _ _ _ _ _ _ _ _ _ _ _ _) in *.
  assert (folded convo start (start + Z.of_nat (length older)) (Z.to_nat (c_max_folds_per_turn cfg))
            (fst <$> in_force data convo) data fr) as (A & B & C & D) by (apply fold_folded; lia).
  destruct S as [[Hz ->]|[Hz ->]].
  - destruct (finish_summarised cfg convo reused _ att oc 0 (fr_data fr) Hr) as [F1 F2]. split; [exact F1|congruence].
  - destruct D as (_ & r & Er & Erows & Hv); [lia|].
    destruct (finish_summarised cfg convo reused (fr_record fr) att oc k (fr_data fr)) as [F1 F2].
    + intros r' Hr'. rewrite Er in Hr'. injection Hr' as <-. by rewrite Erows.
    + split; [exact F1|congruence].
Qed.
End Facts.

(** ** A stored summary in force and nothing to fold *)

Lemma validate_app `{Digest} r convo more b : validate r convo = Some b -> validate r (convo ++ more) = Some b.
Proof.
  unfold validate. destruct (sr_through_index r) as [i|]; [|done].
  destruct (Z.ltb_spec i 0) as [|Hi]; [done|]. rewrite length_app.
  destruct (Z.leb_spec (Z.of_nat (length convo)) i) as [|Hl]; [done|].
  rewrite (proj2 (Z.leb_gt (Z.of_nat (length convo + length more)) i)) by lia. cbn [orb].
  rewrite lookup_app_l, take_app_le by lia. done.
Qed.

Lemma conversation_rows_app a b : conversation_rows (a ++ b) = conversation_rows a ++ conversation_rows b.
Proof. apply sel_app. Qed.

Section Reused.
Context `{PyJson} `{Disk} `{Digest} `{JsonText}.
Variables (dir : text) (resolve : text -> text) (img : Z).
Variables (read_file : text -> option text) (context_length : text -> option Z) (llm : summarizer).
Variables (cfg : compaction_cfg) (mode : string) (env : text -> fold_env) (model sid sp : text).
Variables (disallowed : list text) (on writable : bool).

Abbreviation T := (truncation_threshold (get_context_window (context_length model))).

(** A session whose stored record covers its first [sr_rows] rows, on a turn that
    honours it and has nothing to fold. *)
Definition at_rest (record : summary_record) (data : session_data) : Prop :=
  load_record data = Some record
  /\ validate record (conversation_rows (sd_messages data)) = Some (sr_rows record)
  /\ c_micro_enabled cfg = false /\ c_restore_enabled cfg = false
  /\ c_persist_summary cfg && String.eqb mode "summarize" || is_manual (Some record) = true.

Definition sent_past (record : summary_record) (data : session_data) : list message :=
  summary_message record :: drop (Z.to_nat (sr_rows record)) (conversation_rows (sd_messages data)).

Lemma truncate_fitting ms limit :
  estimate_conversation_tokens img ms sp <= limit -> truncate_conversation img ms limit TURNS_TO_KEEP sp = (ms, 0).
Proof. intros Hf. unfold truncate_conversation. by apply Z.leb_le in Hf as ->. Qed.

Lemma load_at_rest record data d s :
  at_rest record data -> estimate_conversation_tokens img (sent_past record data) sp <= T ->
  let r := load_and_compact_session dir resolve img read_file context_length llm cfg mode env false
             model sid sp disallowed on writable data d s in
  lr_history r = sent_past record data /\ lr_data r = data /\ lr_folds r = 0 /\ lr_outcome r = Reused.
Proof.
  intros (Hl & Hv & Hm & Hr & Hp) Hfit r. unfold r, load_and_compact_session.
  destruct (sd_messages data) as [|m0 ms0] eqn:Ems.
  { apply validate_boundary in Hv. simpl in Hv. lia. }
  rewrite <- Ems in *. unfold micro_layer, sent_past in *. rewrite Hm, Hl, Hp.
  set (rows := conversation_rows (sd_messages data)) in *.
  assert (persisted_summary_layer img read_file context_length cfg env model rows data T sp
            (estimate_conversation_tokens img rows sp) (String.eqb mode "summarize")
          = Layer (summary_message record :: drop (Z.to_nat (sr_rows record)) rows) true false Reused 0 true 0
              (sr_rows record) 1 data) as ->.
  { unfold persisted_summary_layer, apply_record. rewrite Hl. cbn [mbind option_bind]. rewrite Hv.
    cbn [fmap option_fmap option_map fst snd from_option default id].
    rewrite (proj2 (Z.ltb_ge _ _) Hfit). unfold finish_layer, with_record, restore_layer. by rewrite Hr. }
  unfold truncate_layer. cbn [ly_head ly_convo]. change (1 =? 0) with false. cbv iota.
  change (Z.to_nat 1) with 1%nat. cbn [take drop].
  rewrite truncate_fitting; [done|].
  unfold estimate_conversation_tokens in *. change (summary_message record :: ?l) with ([summary_message record] ++ l) in Hfit.
  rewrite sum_tokens_app in Hfit.
  change (estimate_tokens []) with 0. rewrite drop_0. change (take 0 ?l) with (@nil message). lia.
Qed.
End Reused.

(** ** The promises *)

(** C17: The history a turn starts from. Whatever the summariser, the disk and the
    options do, the session's messages stay as they are; the rows the layers work on
    have the ids and roles of the session's history rows, in order, so a stored record
    holds for them exactly when it holds for the session; what is sent is those rows,
    or one summary and the restored files in front of the rows its record does not
    cover (or of the recent turns), cut to the budget by whole turns from the old end -
    and the cut never touches the head a record put there. *)
Theorem load_session_history `{PyJson} `{Disk} `{Digest} `{JsonText} dir resolve img read_file
    context_length llm cfg mode env replay_on model sid sp disallowed on writable data d s :
  0 <= img -> 0 < c_keep_recent_turns cfg -> sd_messages data <> [] ->
  consistent data (conversation_rows (sd_messages data)) ->
  let r := load_and_compact_session dir resolve img read_file context_length llm cfg mode env replay_on
             model sid sp disallowed on writable data d s in
  sd_messages (lr_data r) = sd_messages data
  /\ exists convo ly tail,
      map row_key convo = map row_key (conversation_rows (sd_messages data))
      /\ (forall record, validate record convo = validate record (conversation_rows (sd_messages data)))
      /\ summarised read_file cfg convo ly /\ lr_summarized r = ly_summarized ly
      /\ lr_history r = take (Z.to_nat (ly_head ly)) (ly_convo ly) ++ tail
      /\ cut_to img (budget_past img (truncation_threshold (get_context_window (context_length model)))
                       (ly_head ly) (ly_convo ly)) sp
           (drop (Z.to_nat (ly_head ly)) (ly_convo ly)) tail (lr_dropped r).
Proof.
  intros Hi Hk Hne Hc. unfold load_and_compact_session.
  destruct (sd_messages data) as [|m0 ms0] eqn:Ems; [done|]. rewrite <- Ems in *.
  set (T := truncation_threshold _). set (rows := conversation_rows (sd_messages data)) in *.
  set (convo0 := if replay_on then _ else _).
  destruct (micro_layer _ _ _ _ _ _ _ _ _ _ _ _ _ _) as [[[[convo cleared] applied] d'] s'] eqn:Em.
  assert (map row_key convo = map row_key rows) as Hkeys.
  { pose proof (micro_keys dir resolve img cfg sid on writable disallowed T
      (estimate_conversation_tokens img convo0 sp) sp convo0 d s) as E. rewrite Em in E. cbn [fst] in E.
    rewrite E. unfold convo0. destruct replay_on; [apply replay_keys|done]. }
  assert (forall record, validate record convo = validate record rows) as Hval by (intros; by apply validate_keys).
  assert (consistent data convo) as Hc' by (intros r b Hl Hv; rewrite Hval in Hv; by apply (Hc r b)).
  set (ly := if _ || _ then _ else _).
  assert (summarised read_file cfg convo ly /\ sd_messages (ly_data ly) = sd_messages data) as [Hs Hm].
  { unfold ly. destruct (_ || _); [by apply persisted_summarised|].
    destruct (_ && _); [|by split; [constructor|]]. unfold regenerate.
    destruct (split_for_summary convo (c_keep_recent_turns cfg)) as [older recent] eqn:Es.
    pose proof (split_parts _ _ _ _ Hk Es) as [Epart _].
    destruct older as [|o os]; [by split; [constructor|]|].
    destruct (summarize_history _ _ _ _) as [summary|]; [|by split; [constructor|]].
    destruct (restore_layer _ _ _) as [restored n] eqn:Er. split; [|done]. by apply (sum_fresh _ _ _ (o :: os)). }
  destruct (truncate_layer _ _ _ _ _) as [history dropped] eqn:Et.
  apply truncate_layer_head in Et as (tail & Eh & Hcut); [|done].
  cbn [lr_data lr_history lr_dropped lr_summarized]. split; [exact Hm|].
  exists convo, ly, tail. by repeat (split; [done|]).
Qed.

(** A stored summary keeps the prompt's prefix. While the record in force needs no
    folding, a later turn's history is the earlier turn's history with the new rows
    behind it - the summary and everything sent before come back as the same rows - and
    neither turn writes anything to the session. *)
Theorem reused_history_appends `{PyJson} `{Disk} `{Digest} `{JsonText} dir resolve img read_file
    context_length llm cfg mode env model sid sp disallowed on writable record data more d s d' s' :
  0 <= img -> at_rest cfg mode record data ->
  let data' := SessionData (sd_messages data ++ more) (sd_compaction data) in
  estimate_conversation_tokens img (sent_past record data') sp
    <= truncation_threshold (get_context_window (context_length model)) ->
  let load := load_and_compact_session dir resolve img read_file context_length llm cfg mode env false
                model sid sp disallowed on writable in
  lr_history (load data' d' s') = lr_history (load data d s) ++ conversation_rows more
  /\ lr_data (load data d s) = data /\ lr_data (load data' d' s') = data'.
Proof.
  intros Hi Hrest data' Hfit load. pose proof Hrest as (Hl & Hv & Hm & Hr & Hp).
  pose proof (validate_boundary _ _ _ Hv) as Hb.
  assert (sent_past record data' = sent_past record data ++ conversation_rows more) as E.
  { unfold sent_past, data'. cbn [sd_messages]. rewrite conversation_rows_app, drop_app_le; [done|lia]. }
  assert (at_rest cfg mode record data') as Hrest'.
  { split; [done|]. split; [|done]. unfold data'. cbn [sd_messages]. rewrite conversation_rows_app. by apply validate_app. }
  destruct (load_at_rest dir resolve img read_file context_length llm cfg mode env model sid sp disallowed on writable
              record data' d' s' Hrest' Hfit) as (Eh' & Ed' & _).
  destruct (load_at_rest dir resolve img read_file context_length llm cfg mode env model sid sp disallowed on writable
              record data d s Hrest) as (Eh & Ed & _).
  { rewrite E in Hfit. unfold estimate_conversation_tokens in *. rewrite sum_tokens_app in Hfit.
    pose proof (sum_tokens_nonneg img (conversation_rows more) Hi). lia. }
  fold load in Eh, Ed, Eh', Ed'. by rewrite Eh, Eh', E.
Qed.

(** ** On a concrete session *)

#[local] Existing Instance blank_json.
#[local] Existing Instance blank_py.
#[local] Existing Instance sound_disk.
#[local] Existing Instance plain_digest.

Definition stack_cfg : compaction_cfg :=
  CompactionCfg "summarize" [] 1 true 48000 3 false 15 20 DEFAULT_COMPACTABLE_TOOLS None
    (fun t => t * 8 / 10) (fun t => t * 6 / 10) 2000 false 400 false false default_restore.
Definition stack_llm : summarizer := Summarizer (fun m => (u "http://llm", m)) (fun _ _ _ => Some (u "short")).
Definition stack_env (model : text) : fold_env := fold_env_of stack_llm model [] (fun _ => 7) (fun _ => true) None.
Definition stack_rows : list message :=
  [idrow "1" "user" (repeat 120%N 2400); idrow "2" "assistant" (repeat 120%N 2400);
   idrow "3" "user" (u "more"); idrow "4" "assistant" (u "ok")].

(** A window of 53000 leaves a threshold of 1000 tokens. *)
Definition stack_load (cfg : compaction_cfg) (data : session_data) : load_result :=
  load_and_compact_session (u "sessions") (fun p => p) 0 (fun _ => None) (fun _ => Some 53000) stack_llm cfg
    "summarize" stack_env false (u "m") (u "s1") [] [] true true data ∅ ∅.

Lemma load_session_history_witness :
  let data := SessionData stack_rows None in
  sd_messages (lr_data (stack_load stack_cfg data)) = stack_rows
  /\ length (lr_history (stack_load stack_cfg data)) = 3%nat /\ lr_covered_rows (stack_load stack_cfg data) = 2.
Proof.
  intros data. split; [|vm_compute; by split].
  refine (proj1 (load_session_history (u "sessions") (fun p => p) 0 (fun _ => None) (fun _ => Some 53000) stack_llm
    stack_cfg "summarize" stack_env false (u "m") (u "s1") [] [] true true data ∅ ∅ _ _ _ _)).
  - lia.
  - reflexivity.
  - discriminate.
  - intros r b Hl. discriminate Hl.
Defined.

Definition stack_record : summary_record := build_record 7 (u "short") stack_rows 2 [] [] (u "m") None 1 "auto" [].

Lemma reused_history_appends_witness :
  let data := SessionData stack_rows (Some (Stored (Some 1) true None stack_record)) in
  let data' := SessionData (stack_rows ++ [idrow "5" "user" (u "next")]) (Some (Stored (Some 1) true None stack_record)) in
  lr_history (stack_load stack_cfg data') = lr_history (stack_load stack_cfg data) ++ [idrow "5" "user" (u "next")].
Proof.
  intros data data'.
  refine (proj1 (reused_history_appends (u "sessions") (fun p => p) 0 (fun _ => None) (fun _ => Some 53000) stack_llm
    stack_cfg "summarize" stack_env (u "m") (u "s1") [] [] true true stack_record data [idrow "5" "user" (u "next")]
    ∅ ∅ ∅ ∅ _ _ _)).
  - lia.
  - split; [vm_compute; reflexivity|]. split; [vm_compute; reflexivity|]. by split.
  - vm_compute. discriminate.
Defined.
