(* ===== verification/Policy.v ===== *)
(** * Tool policy: names, tiers, predicates, scopes and destinations

    [app/harness/policy.py]: what a call is called, how hard it is to undo, what an
    argument predicate says, whose authority a turn borrows, and which hosts a
    destination covers. The grants themselves are in [Grants]. *)
From Stdlib Require Import String.
From S2P Require Import Prelude PyText QueueRows Spill Messages Microcompact.

Local Open Scope Z_scope.

(** Python's numbers: comparing a float with an int ([None] for a NaN), [int(v)] of a
    JSON value; and [str(ip_address(t))] ([None] when [t] is not an
    address). *)
Class PyNumbers := {
  float_cmp : string -> Z -> option comparison;
  int_of : json -> outcome Z;
  ip_address : text -> option text;
  int_of_int z : int_of (JInt z) = Ok z
}.

Definition plain_numbers : PyNumbers :=
  {| float_cmp _ _ := None; int_of v := match v with JInt z => Ok z | _ => Raise TypeError end;
     ip_address _ := None; int_of_int _ := eq_refl |}.

Definition fields_of (v : json) : list (string * json) := match v with JObj fs => fs | _ => [] end.

(** ** Tool names *)

Definition MCP_PREFIX : text := u "mcp__".
Definition SEP : text := u "__".

Definition normalize_tool_name (name : text) : text :=
  if startswith MCP_PREFIX name then
    let rest := from name (len MCP_PREFIX) in
    match find SEP rest with
    | Some i => drop (i + 2) rest
    | None => name
    end
  else name.

(** ** Argument predicates *)

Inductive cmp_op := OLe | OLt | OGe | OGt | OEq.

Definition op_text (o : cmp_op) : text :=
  match o with OLe => u "<=" | OLt => u "<" | OGe => u ">=" | OGt => u ">" | OEq => u "==" end.

Definition cmp_holds (o : cmp_op) (c : comparison) : bool :=
  match o, c with
  | OLe, (Lt | Eq) | OLt, Lt | OGe, (Gt | Eq) | OGt, Gt | OEq, Eq => true
  | _, _ => false
  end.

Definition is_alpha (c : N) : bool :=
  (((65 <=? c) && (c <=? 90)) || ((97 <=? c) && (c <=? 122)))%N.
Definition ident_start (c : N) : bool := is_alpha c || (c =? 95)%N.
Definition ident_char (c : N) : bool := ident_start c || is_digit c.

Fixpoint span (p : N -> bool) (t : text) : text * text :=
  match t with
  | c :: t' => if p c then let '(a, b) := span p t' in (c :: a, b) else ([], t)
  | [] => ([], [])
  end.

(** The groups of [_PREDICATE_RE]. *)
Record pred_match := PredMatch {
  pm_fn : bool;
  pm_field : text;
  pm_closer : bool;
  pm_op : cmp_op;
  pm_num : text
}.

Definition match_op (t : text) : option (cmp_op * text) :=
  if startswith (u "<=") t then Some (OLe, drop 2 t)
  else if startswith (u ">=") t then Some (OGe, drop 2 t)
  else if startswith (u "==") t then Some (OEq, drop 2 t)
  else if startswith (u "<") t then Some (OLt, drop 1 t)
  else if startswith (u ">") t then Some (OGt, drop 1 t)
  else None.

(** [_PREDICATE_RE.match], with [\d] read as an ASCII digit. Every optional part is
    decided by the character in front of it, so the pattern never backtracks into
    another match. *)
Definition match_predicate (t : text) : option pred_match :=
  let '(fn, t) := if startswith (u "len(") t then (true, lstrip (drop 4 t)) else (false, t) in
  let '(field, t) := span ident_char t in
  match field with
  | c :: _ =>
      if ident_start c then
        let '(closer, t) := match lstrip t with
                            | 41%N :: t' => (true, t')
                            | _ => (false, t)
                            end in
        '(op, t) ← match_op (lstrip t);
        let '(num, rest) := span is_digit (lstrip t) in
        if (1 <=? len num) && (len num <=? 9) && (negb (nonempty rest) || bool_decide (rest = nl))
        then Some (PredMatch fn field closer op num) else None
      else None
  | [] => None
  end.

Definition pred_text (m : pred_match) : text :=
  if m.(pm_fn) then u "len(" ++ m.(pm_field) ++ u ")" ++ op_text m.(pm_op) ++ m.(pm_num)
  else m.(pm_field) ++ op_text m.(pm_op) ++ m.(pm_num).

(** What [arg_predicate] may be given as. *)
Inductive pred_arg := PNone | PText (t : text) | POther.

Definition validate_predicate (v : pred_arg) : outcome text :=
  match v with
  | PNone => Ok []
  | PText t =>
      match strip t with
      | [] => Ok []
      | t => match match_predicate t with
             | None => Raise GrantError
             | Some m => if Bool.eqb m.(pm_fn) m.(pm_closer) then Ok (pred_text m) else Raise GrantError
             end
      end
  | POther => Raise GrantError
  end.

(** A key of a JSON object, by its text. *)
Definition get_field (f : text) (fs : list (string * json)) : option json :=
  snd <$> sel1 (fun kv => bool_decide (utf8 kv.1 = f)) fs.

Definition arg_value (tool_input : list (string * json)) (field : text) : option json :=
  match get_field field tool_input with
  | Some v => Some v
  | None => head (omap (fun kv => match kv.2 with JObj fs => get_field field fs | _ => None end) tool_input)
  end.

(** [len(v)], [None] when it raises. *)
Definition py_len (v : json) : option Z :=
  match v with
  | JStr s => Some (len (utf8 s))
  | JList l => Some (Z.of_nat (length l))
  | JObj fs => Some (Z.of_nat (length fs))
  | _ => None
  end.

Section Numbers.
Context `{PyNumbers} `{PyJson}.

Definition predicate_matches (predicate : text) (tool_input : list (string * json)) : bool :=
  match predicate with
  | [] => true
  | _ =>
      match match_predicate predicate with
      | None => false
      | Some m =>
          let num := int_of_digits m.(pm_num) in
          let holds (left : Z) := cmp_holds m.(pm_op) (left ?= num) in
          match arg_value tool_input m.(pm_field) with
          | None | Some JNull => if m.(pm_fn) then holds 0 else false
          | Some v =>
              let by_len := match py_len v with Some n => holds n | None => false end in
              if m.(pm_fn) then by_len
              else match v with
                   | JInt z => holds z
                   | JFloat r => match float_cmp r num with Some c => cmp_holds m.(pm_op) c | None => false end
                   | _ => by_len
                   end
          end
      end
  end.

(** ** Tiers *)

Definition TIER2_TOOLS : list text :=
  map utf8 ["email_send"; "email_reply"; "email_forward"; "email_update"; "email_move_folder";
            "email_create_folder"; "email_rename_folder"; "email_create_filter"; "email_update_filter";
            "email_reorder_filters"; "email_apply_filters"; "calendar_create"; "calendar_update_event";
            "contacts_create"; "contacts_update"; "tasks_create"; "tasks_update"; "autonomy_write_task"]%string.
Definition TIER3_TOOLS : list text :=
  map utf8 ["email_delete"; "email_empty_trash"; "email_empty_junk"; "email_delete_folder";
            "calendar_delete_event"; "contacts_delete"; "email_delete_filter"; "autonomy_delete_task"]%string.

Definition SCHEDULE_STATE_TOOL : text := u "autonomy_write_task".
(** The set, in the order [sorted] gives it. *)
Definition SCHEDULE_STATE_FIELDS : list text :=
  map utf8 ["auto_advance"; "depends_on"; "frequency"; "preferred_hours"; "scheduled_at"; "skill_name"; "status"]%string.
Definition DISPATCHING_STATUS : text := u "up_next".
Definition BASH_TOOL : text := u "Bash".

(** [v in (None, "", 0)] and [v in (None, "", [])]. *)
Definition no_id (v : json) : bool :=
  match v with
  | JNull | JStr EmptyString | JBool false => true
  | JInt z => z =? 0
  | JFloat r => match float_cmp r 0 with Some Eq => true | _ => false end
  | _ => false
  end.
Definition no_value (v : json) : bool :=
  match v with JNull | JStr EmptyString | JList [] => true | _ => false end.

(** [str(v or "")]. *)
Definition str_or_empty (v : json) : text :=
  if falsy v then [] else match v with JStr s => utf8 s | _ => py_shown v end.

Definition schedule_fields_changed (tool_input : json) : list text :=
  match tool_input with
  | JObj fs =>
      let get k := default JNull (get_field k fs) in
      if no_id (get (u "id")) then
        if bool_decide (strip (str_or_empty (get (u "status"))) = DISPATCHING_STATUS) then [u "status"] else []
      else sel (fun f => negb (no_value (get f))) SCHEDULE_STATE_FIELDS
  | _ => []
  end.

Definition changes_schedule_state (name : text) (tool_input : json) : bool :=
  bool_decide (normalize_tool_name name = SCHEDULE_STATE_TOOL)
  && match schedule_fields_changed tool_input with [] => false | _ => true end.

Definition bash_command_of (tool_input : json) : text :=
  match tool_input with
  | JStr s => utf8 s
  | JObj fs => match get_field (u "command") fs with Some (JStr s) => utf8 s | _ => [] end
  | _ => []
  end.

(** The tier of a command string, from the shapes of [app/harness/safety.py]. *)
Variable bash_command_tier : text -> Z.

Definition tool_tier (name : text) (tool_input : json) : Z :=
  let tool := normalize_tool_name name in
  if bool_decide (tool = BASH_TOOL) then bash_command_tier (bash_command_of tool_input)
  else if bool_decide (tool ∈ TIER3_TOOLS) then 3
  else if bool_decide (tool ∈ TIER2_TOOLS) then 2
  else 1.

Definition effective_tier (name : text) (tool_input : json) : Z :=
  let tier := tool_tier name tool_input in
  if (tier =? 2) && bool_decide (normalize_tool_name name = SCHEDULE_STATE_TOOL)
     && negb (changes_schedule_state name tool_input)
  then 1 else tier.
End Numbers.

(** ** Scopes *)

Definition GRANT_MINT_TOOL : text := u "grant_create".
Definition INTERACTIVE_SCOPE : text := u "interactive".
Definition NON_INTERACTIVE_PREFIXES : list text :=
  map utf8 ["worker"; "autonomy-task"; "scheduled-task"; "background"]%string.

(** [t.split(":")[0]]. *)
Definition before_colon (t : text) : text := fst (span (fun c => negb (c =? 58)%N) t).

Definition is_interactive_scope (scope : text) : bool :=
  match strip scope with
  | [] => false
  | t => bool_decide (t = INTERACTIVE_SCOPE) || startswith (INTERACTIVE_SCOPE ++ u ":") t
         || negb (bool_decide (before_colon t ∈ NON_INTERACTIVE_PREFIXES))
  end.

Definition is_worker_identity (t : text) : bool :=
  bool_decide (before_colon (strip t) ∈ NON_INTERACTIVE_PREFIXES).

(** [task_id] is the payload's, already [str()]; [None] when absent. *)
Definition grant_scope_for_source (source : text) (task_id : option text) : text :=
  match task_id with
  | Some tid => if bool_decide (source = u "scheduled-task") then u "autonomy-task:" ++ tid else u "worker:" ++ source
  | None => u "worker:" ++ source
  end.

(** ** Destinations *)

(** [.lower()] on what can reach a host name: the ASCII letters and the Kelvin sign.
    Any other character stays out of the host grammar either way. *)
Definition lower_char (c : N) : N :=
  if ((65 <=? c) && (c <=? 90))%N then (c + 32)%N else if (c =? 8490)%N then 107%N else c.
Definition lower (t : text) : text := map lower_char t.

Definition host_char (c : N) : bool := (((97 <=? c) && (c <=? 122)) || is_digit c)%N.

Definition label_ok (l : text) : bool :=
  match l with
  | [] => false
  | c :: _ => host_char c && match list.last l with Some d => host_char d | None => false end
              && forallb (fun c => host_char c || (c =? 45)%N) l
  end.

(** [t.split(".")]. *)
Fixpoint labels_from (cur t : text) : list text :=
  match t with
  | [] => [cur]
  | c :: t => if (c =? 46)%N then cur :: labels_from [] t else labels_from (cur ++ [c]) t
  end.
Definition labels (t : text) : list text := labels_from [] t.

Definition hostname_ok (t : text) : bool :=
  (len t <=? 253) && forallb label_ok (labels t).

Definition normalize_destination `{PyNumbers} (v : json) : outcome text :=
  match v with
  | JStr s =>
      match lower (strip (utf8 s)) with
      | [] => Raise GrantError
      | raw =>
          match ip_address raw with
          | Some a => Ok a
          | None =>
              if existsb (fun c => bool_decide (c ∈ u "*/: ")) raw || startswith (u ".") raw then Raise GrantError
              else if match list.last (labels raw) with
                      | Some l => nonempty l && forallb is_digit l
                      | None => false
                      end then Raise GrantError
              else if negb (contains (u ".") raw) then Raise GrantError
              else if hostname_ok raw then Ok raw else Raise GrantError
          end
      end
  | _ => Raise GrantError
  end.

Definition destination_covers (entry host : text) : bool :=
  let entry := lower (strip entry) in
  let host := lower (strip host) in
  nonempty entry && nonempty host && (bool_decide (host = entry) || endswith (u "." ++ entry) host).
