(* ===== verification/Grants.v ===== *)
(** * Authority grants

    [app/harness/policy.py]: the grant rows and the dispatch ledger, minting, the check
    a dispatch makes, the hook that turns it into a verdict, and the reconciliation of
    a task file's own [grants:] block. *)
From Stdlib Require Import String.
From S2P Require Import Prelude PyText Stamps QueueRows Spill Messages Microcompact Policy.

Local Open Scope Z_scope.

(** ** Rows *)

Record grant := Grant {
  g_id : Z;
  g_scope : text;
  g_tool : text;                     (** [tool_pattern] *)
  g_predicate : text;                (** [arg_predicate] *)
  g_quota : option Z;
  g_consumed : Z;
  g_issued_by : text;
  g_minted_by : text;
  g_note : option text;
  g_issued_at : string;
  g_expires_at : string;
  g_revoked_at : option string;
  g_destination : option text
}.

Definition set_consumed (n : Z) (g : grant) : grant :=
  Grant g.(g_id) g.(g_scope) g.(g_tool) g.(g_predicate) g.(g_quota) n g.(g_issued_by) g.(g_minted_by)
    g.(g_note) g.(g_issued_at) g.(g_expires_at) g.(g_revoked_at) g.(g_destination).
Definition set_revoked (at_ : option string) (g : grant) : grant :=
  Grant g.(g_id) g.(g_scope) g.(g_tool) g.(g_predicate) g.(g_quota) g.(g_consumed) g.(g_issued_by) g.(g_minted_by)
    g.(g_note) g.(g_issued_at) g.(g_expires_at) at_ g.(g_destination).

Record dispatch := Dispatch {
  dp_at : string;
  dp_scope : text;
  dp_tool : text;
  dp_grant : option Z;
  dp_allowed : bool;                 (** [decision]: allow or deny *)
  dp_reason : option text
}.

Record gstore := GStore { grants : list grant; g_seq : Z; ledger : list dispatch }.

Definition empty_store : gstore := GStore [] 0 [].

Definition some_text (t : text) : option text := match t with [] => None | _ => Some t end.

(** A quota that has been used up. *)
Definition spent (g : grant) : bool :=
  match g.(g_quota) with Some q => q <=? g.(g_consumed) | None => false end.

Definition on_destination_axis (g : grant) : bool := nonempty (strip (default [] g.(g_destination))).
Definition has_predicate (g : grant) : bool := nonempty (strip g.(g_predicate)).

Section Store.
Context `{IsoStamps}.

(** ** Reads *)

Definition live (scope : option text) (now : Z) (d : gstore) : list grant :=
  sort_by (fun a b => sle a.(g_expires_at) b.(g_expires_at))
    (sel (fun g => bool_decide (g.(g_revoked_at) = None) && slt (iso now) g.(g_expires_at)
                   && match scope with Some s => bool_decide (g.(g_scope) = s) | None => true end) d.(grants)).

Definition candidates (scope tool : text) (d : gstore) : list grant :=
  sort_by (fun a b => sle b.(g_expires_at) a.(g_expires_at))
    (sel (fun g => bool_decide (g.(g_scope) = scope) && bool_decide (g.(g_tool) = tool)) d.(grants)).

Definition get_grant (i : Z) (d : gstore) : option grant := sel1 (fun g => g.(g_id) =? i) d.(grants).

Definition count_worker_minted (d : gstore) : Z :=
  rowcount (fun g => is_worker_identity g.(g_minted_by) || is_worker_identity g.(g_issued_by)) d.(grants).

(** ** Writes *)

Definition consume (i : Z) (d : gstore) : gstore :=
  GStore (upd (fun g => g.(g_id) =? i) (fun g => set_consumed (g.(g_consumed) + 1) g) d.(grants))
    d.(g_seq) d.(ledger).

Definition revoke (i now : Z) (d : gstore) : bool * gstore :=
  let p g := (g.(g_id) =? i) && bool_decide (g.(g_revoked_at) = None) in
  (0 <? rowcount p d.(grants),
   GStore (upd p (set_revoked (Some (iso now))) d.(grants)) d.(g_seq) d.(ledger)).

Definition record_dispatch (scope tool : text) (allowed : bool) (gid : option Z) (reason : text) (now : Z)
    (d : gstore) : gstore :=
  GStore d.(grants) d.(g_seq)
    (d.(ledger) ++ [Dispatch (iso now) scope tool gid allowed (some_text reason)]).

(** ** Minting *)

(** What [expires_at] may be given as: nothing, an instant, or the text of a value. *)
Inductive expiry_arg := ENone | EInstant (t : Z) | EText (t : text).

(** An instant the calendar has no year for overflows when it is put in UTC. *)
Definition in_calendar (t : Z) : outcome Z := if in_range t then Ok t else Raise OverflowError.

(** A bare date is already read by [fromisoformat]; the fallback for one is kept as
    the code has it. *)
Definition is_date (t : text) : bool :=
  (len t =? 10) && forallb (fun ic => match (ic : nat * N) with
                                     | (4%nat, c) | (7%nat, c) => (c =? 45)%N
                                     | (_, c) => is_digit c
                                     end) (combine (seq 0 10) t).

Definition parse_expiry (v : expiry_arg) : outcome Z :=
  match v with
  | ENone => Raise GrantError
  | EInstant t => in_calendar t
  | EText t =>
      match strip t with
      | [] => Raise GrantError
      | t =>
          let t := if endswith (u "Z") t then upto t (len t - 1) ++ u "+00:00" else t in
          match iso_parse (encode t) with
          | Some z => in_calendar z
          | None =>
              if is_date t then match iso_parse (encode (t ++ u "T23:59:59+00:00")) with
                                | Some z => in_calendar z
                                | None => Raise ValueError
                                end
              else Raise GrantError
          end
      end
  end.

Record mint_args := MintArgs {
  ma_scope : text;
  ma_tool : text;
  ma_predicate : pred_arg;
  ma_quota : option Z;
  ma_issued_by : text;
  ma_expires : expiry_arg;
  ma_note : text;
  ma_minted_by : text;
  ma_destination : option json
}.

Definition human : text := u "human".

(** The row [mint] writes, before the database gives it an id. *)
Definition mint_row `{PyNumbers} (a : mint_args) (now i : Z) : outcome grant :=
  let scope := strip a.(ma_scope) in
  let tool := normalize_tool_name a.(ma_tool) in
  let issued_by := strip a.(ma_issued_by) in
  if negb (nonempty scope) then Raise GrantError
  else if negb (nonempty tool) then Raise GrantError
  else if bool_decide (tool = GRANT_MINT_TOOL) then Raise GrantError
  else if negb (nonempty issued_by) then Raise GrantError
  else if is_worker_identity issued_by || is_worker_identity a.(ma_minted_by) then Raise GrantError
  else if match a.(ma_quota) with Some q => q <? 1 | None => false end then Raise GrantError
  else
    predicate <-? validate_predicate a.(ma_predicate) ;;
    expiry <-? parse_expiry a.(ma_expires) ;;
    dest <-? match a.(ma_destination) with
             | Some v => h <-? normalize_destination v ;; Ok (Some h)
             | None => Ok None
             end ;;
    Ok (Grant i scope tool predicate a.(ma_quota) 0 issued_by
          (match a.(ma_minted_by) with [] => human | m => m end) (some_text a.(ma_note))
          (iso now) (iso expiry) None dest).

Definition mint `{PyNumbers} (a : mint_args) (now : Z) (d : gstore) : outcome grant * gstore :=
  match mint_row a now (d.(g_seq) + 1) with
  | Ok g => (Ok g, GStore (d.(grants) ++ [g]) (d.(g_seq) + 1) d.(ledger))
  | Raise e => (Raise e, d)
  end.
End Store.

(** ** Statements, other processes, and failure *)

(** The [k]-th statement of a check finds the store as the other processes left it,
    and runs or raises. *)
Record world := World { w_env : nat -> gstore -> gstore; w_ok : nat -> bool }.
Definition quiet : world := World (fun _ d => d) (fun _ => true).

Abbreviation stm := (st gstore).

Definition statement {A} (w : world) (k : nat) (f : gstore -> A * gstore) : stm A :=
  fun d => let d := w.(w_env) k d in
           if w.(w_ok) k then let '(a, d) := f d in (Ok a, d) else (Raise DatabaseError, d).
Definition query {A} (w : world) (k : nat) (f : gstore -> A) : stm A := statement w k (fun d => (f d, d)).
Definition execute (w : world) (k : nat) (f : gstore -> gstore) : stm unit := statement w k (fun d => (tt, f d)).
(** [except Exception: raise GrantError]. *)
Definition as_grant_error {A} (m : stm A) : stm A :=
  fun d => match m d with (Raise _, d) => (Raise GrantError, d) | r => r end.

(** ** Explaining a denial *)

Definition FRONTMATTER_MINTER : text := u "frontmatter:".
Definition SUGGESTED_TTL_DAYS : Z := 7.
Definition quoted (t : text) : text := u "'" ++ t ++ u "'".
Definition grant_no (g : grant) : text := u "#" ++ show g.(g_id).
Definition used (g : grant) : text := show g.(g_consumed) ++ u "/" ++ show (default 0 g.(g_quota)).

Inductive why_kind := Why_none | Why_revoked | Why_expired | Why_spent.

Section Check.
Context `{IsoStamps} `{PyNumbers} `{PyJson}.

(** [_explain_missing_row]: the first row, in order, that is revoked, expired or over
    quota; with a destination, among the rows that cover it. *)
Fixpoint explain_missing_row (scope tool : text) (now : Z) (destination : option text) (rows : list grant)
    : text * option grant * why_kind :=
  match rows with
  | [] => ([], None, Why_none)
  | g :: rows =>
      let rest := explain_missing_row scope tool now destination rows in
      let head := u "grant " ++ grant_no g ++ u " for " ++ quoted tool ++ u " from scope " ++ quoted scope in
      if match destination with
         | Some h => negb (destination_covers (default [] g.(g_destination)) h)
         | None => false
         end then rest
      else match g.(g_revoked_at) with
           | Some (String _ _ as at_) => (head ++ u " was revoked at " ++ utf8 at_, Some g, Why_revoked)
           | _ =>
               if sle g.(g_expires_at) (iso now)
               then (head ++ u " expired at " ++ utf8 g.(g_expires_at), Some g, Why_expired)
               else if spent g then (head ++ u " is over quota (" ++ used g ++ u ")", Some g, Why_spent)
               else rest
           end
  end.

Definition is_frontmatter (g : grant) : bool := startswith FRONTMATTER_MINTER g.(g_minted_by).

Definition spent_frontmatter_remedy (g : grant) : text :=
  let task := from g.(g_minted_by) (len FRONTMATTER_MINTER) in
  let exp := utf8 g.(g_expires_at) in
  u "Grant " ++ grant_no g ++ u " was minted from autonomy task #" ++ task
  ++ u "'s own `grants:` block (the `" ++ task ++ u "-*.md` file under the vault's `autonomy/` folder), and it covers the pair until "
  ++ exp ++ u ": editing `quota:` or `expires_at:` in that file alone mints nothing over it. To restore the declared authority a human runs grant_revoke(grant_id="
  ++ show g.(g_id) ++ u ") and sets that entry's `expires_at:` later than " ++ exp
  ++ u " (with the `quota:` wanted); the next run mints the fresh row.".

Definition is_spent_frontmatter (row : option grant) (kind : why_kind) : bool :=
  match row, kind with Some g, Why_spent => is_frontmatter g | _, _ => false end.

Definition SHADOW_RULE : text :=
  u "the predicate governs the pair, so a grant with no predicate cannot pay for a call it refuses. Widen or revoke the bounded grant to restore that — minting another predicate-less row leaves the shadow standing.".

(** The bounded rows come with the reason each did not pay, empty at mint time; a
    normalised predicate has nothing for [repr] to escape. *)
Definition shadow_sentence (scope tool : text) (bounded : list (grant * text)) (broad : list grant) : text :=
  match bounded, broad with
  | [], _ | _, [] => []
  | _, _ =>
      let bit '(g, reason) :=
        let named := grant_no g ++ u " predicate=" ++ quoted (strip g.(g_predicate)) in
        match reason with [] => named | _ => named ++ u " " ++ reason end in
      u "the bounded grant(s) for " ++ quoted tool ++ u " in scope " ++ quoted scope ++ u " ["
      ++ join (u "; ") (map bit bounded) ++ u "] shadow the predicate-less grant(s) "
      ++ join (u ", ") (map grant_no broad) ++ u " for the same scope and tool: " ++ SHADOW_RULE
  end.

Definition explain_shadow (scope tool : text) (bounded broad : list grant) (args : list (string * json)) : text :=
  let reason g :=
    if spent g then Some (g, u "is over quota (" ++ used g ++ u ")")
    else if negb (predicate_matches (strip g.(g_predicate)) args) then Some (g, u "does not match this call")
    else None in
  match omap reason bounded with
  | [] => []
  | reasons => shadow_sentence scope tool reasons broad
  end.

Definition shadow_warning_for (scope tool_pattern : text) (now : Z) (d : gstore) : text :=
  let tool := normalize_tool_name tool_pattern in
  let rows := sel (fun g => bool_decide (g.(g_tool) = tool) && negb (on_destination_axis g)) (live (Some scope) now d) in
  shadow_sentence scope tool (map (fun g => (g, [])) (sel has_predicate rows)) (sel (fun g => negb (has_predicate g)) rows).

Definition suggested_predicate (args : list (string * json)) : text :=
  default [] (head (omap (fun kv => match kv.2 with
                                    | JList ((_ :: _) as l) =>
                                        Some (u "len(" ++ utf8 kv.1 ++ u ")<=" ++ show (Z.max 1 (Z.of_nat (length l))))
                                    | _ => None
                                    end) args)).

Definition grant_shape (scope tool : text) (args : list (string * json)) (now : Z) (destination : option text) : text :=
  let predicate := suggested_predicate args in
  let bits := [u "scope=" ++ quoted scope; u "tool=" ++ quoted tool]
              ++ match destination with Some ((_ :: _) as h) => [u "destination=" ++ quoted h] | _ => [] end
              ++ (if nonempty predicate then [u "predicate=" ++ quoted predicate] else [])
              ++ [u "expires_at=" ++ quoted (utf8 (iso (now + SUGGESTED_TTL_DAYS * 86400 * usec))); u "issued_by='alan'"] in
  GRANT_MINT_TOOL ++ u "(" ++ join (u ", ") bits ++ u ")".

(** ** The check *)

Record decision := Decision { allowed : bool; paid_by : option Z; reason : text }.

Variable bash_command_tier : text -> Z.
(** The durable-external shape a command matched, from [app/harness/safety.py]. *)
Variable match_durable_external : text -> text.

Definition no_grant (why : text) : text := match why with [] => u "no grant" | _ => why end.

Definition settle (w : world) (scope tool : text) (record : bool) (now : Z) (ok : bool) (gid : option Z)
    (why : text) : stm decision :=
  _ <-s (if record then execute w 2 (record_dispatch scope tool ok gid (if ok then [] else why) now) else sret tt) ;;
  sret (Decision ok gid (if ok then [] else why)).

Definition pay (w : world) (scope tool : text) (record : bool) (now : Z) (g : grant) : stm decision :=
  _ <-s execute w 1 (consume g.(g_id)) ;;
  settle w scope tool record now true (Some g.(g_id)) [].

(** [_decide_destination]. *)
Definition decide_destination (w : world) (scope tool : text) (rows : list grant) (destination : json)
    (now : Z) (record : bool) : stm decision :=
  host <-s slift (normalize_destination destination) ;;
  match sel1 (fun g => bool_decide (g.(g_tool) = tool)
                       && destination_covers (default [] g.(g_destination)) host && negb (spent g)) rows with
  | Some g => pay w scope tool record now g
  | None =>
      rows <-s query w 1 (candidates scope tool) ;;
      let why := (explain_missing_row scope tool now (Some host) rows).1.1 in
      settle w scope tool record now false None
        (u "grant: " ++ no_grant why ++ u " — " ++ quoted tool ++ u " to " ++ quoted host
         ++ u " is a network egress to a destination scope " ++ quoted scope ++ u " has not been given. "
         ++ grant_shape scope tool [] now (Some host))
  end.

Definition bash_reason (scope : text) (args : json) : text :=
  let shape := match match_durable_external (bash_command_of args) with [] => u "unclassified" | s => s end in
  u " The durable-external shape this call matched is " ++ quoted shape ++ u ". One live `tool='" ++ BASH_TOOL
  ++ u "'` grant authorises EVERY Bash command in scope " ++ quoted scope
  ++ u " — the argument predicate bounds lengths and integers, not a command string — so the line below is a decision about all the Bash this scope runs, not only this shape.".

Definition schedule_reason (args : json) (spent_declared : bool) : text :=
  let target := match get_field (u "id") (fields_of args) with
                | Some v => if falsy v then u "new (this call creates the task)" else py_shown v
                | None => u "new (this call creates the task)"
                end in
  u " This call would change dispatch-affecting field(s) [" ++ join (u ", ") (schedule_fields_changed args)
  ++ u "] on target #" ++ target ++ u ", which decides whether and when that task runs."
  ++ (if spent_declared then []
      else u " To authorise it, a human either adds a `grants:` block to the calling task's frontmatter (scope `autonomy-task:*` only) or runs the line below.").

(** The reason of a tier denial. *)
Definition tier_reason (scope tool : text) (tier : Z) (args : json) (now : Z) (why : text)
    (spent_row : option grant) : text :=
  let spent_declared := bool_decide (is_Some spent_row) in
  u "grant: " ++ no_grant why ++ u " — " ++ quoted tool ++ u " is a tier-" ++ show tier
  ++ u " (hard-to-reverse) action and scope " ++ quoted scope ++ u " is unattended."
  ++ (if bool_decide (tool = BASH_TOOL) then bash_reason scope args else [])
  ++ (if bool_decide (tool = SCHEDULE_STATE_TOOL) then schedule_reason args spent_declared else [])
  ++ match spent_row with
     | Some g => u " " ++ spent_frontmatter_remedy g ++ u " For a one-off instead, the line below mints a separate row."
     | None => []
     end
  ++ u " " ++ grant_shape scope tool (fields_of args) now None.

(** The rows of a pair off the destination axis; the bounded ones govern when there
    are any. *)
Definition eligible_rows (tool : text) (rows : list grant) : list grant :=
  sel (fun g => bool_decide (g.(g_tool) = tool) && negb (on_destination_axis g)) rows.
Definition bounded_rows (tool : text) (rows : list grant) : list grant := sel has_predicate (eligible_rows tool rows).
Definition broad_rows (tool : text) (rows : list grant) : list grant :=
  sel (fun g => negb (has_predicate g)) (eligible_rows tool rows).
Definition governing (tool : text) (rows : list grant) : list grant :=
  match bounded_rows tool rows with [] => broad_rows tool rows | b => b end.

Definition decide_tier (w : world) (scope tool : text) (tier : Z) (rows : list grant) (args : json)
    (now : Z) (record : bool) : stm decision :=
  match sel1 (fun g => negb (spent g) && predicate_matches g.(g_predicate) (fields_of args)) (governing tool rows) with
  | Some g => pay w scope tool record now g
  | None =>
      all <-s query w 1 (candidates scope tool) ;;
      let '(why, row, kind) := explain_missing_row scope tool now None all in
      let bounded := bounded_rows tool rows in
      let broad := broad_rows tool rows in
      let why := match bounded, broad with
                 | _ :: _, _ :: _ => match explain_shadow scope tool bounded broad (fields_of args) with
                                     | [] => why
                                     | s => s
                                     end
                 | _, _ => why
                 end in
      settle w scope tool record now false None
        (tier_reason scope tool tier args now why (if is_spent_frontmatter row kind then row else None))
  end.

Definition scope_or_worker (scope : text) : text := match strip scope with [] => u "worker" | s => s end.

Definition check_grants (w : world) (scope tool_name : text) (tool_input : json) (now : Z) (record : bool)
    (destination : option json) : stm decision :=
  let tool := normalize_tool_name tool_name in
  let args := JObj (fields_of tool_input) in
  let scope := scope_or_worker scope in
  if bool_decide (tool = GRANT_MINT_TOOL) then
    if is_interactive_scope scope then sret (Decision true None (u "interactive scope may mint"))
    else sret (Decision false None
                 (u "grant: a non-interactive scope may not mint authority — " ++ quoted GRANT_MINT_TOOL
                  ++ u " is not callable from scope " ++ quoted scope
                  ++ u ". Authority is issued ahead of time by a human: "
                  ++ grant_shape scope (u "<the tool you need>") [] now None))
  else
    let tier := effective_tier bash_command_tier tool args in
    if (tier =? 1) && bool_decide (destination = None) then sret (Decision true None [])
    else if is_interactive_scope scope then sret (Decision true None [])
    else
      rows <-s as_grant_error (query w 0 (live (Some scope) now)) ;;
      match destination with
      | Some h => decide_destination w scope tool rows h now record
      | None => decide_tier w scope tool tier rows args now record
      end.

(** ** The hook *)

Inductive verdict := Proceed | Deny (why : text).

Definition exn_text (e : exn) : text :=
  match e with
  | GrantError => u "GrantError" | DatabaseError => u "DatabaseError" | ValueError => u "ValueError"
  | OverflowError => u "OverflowError" | TypeError => u "TypeError" | KeyError => u "KeyError"
  | IndexError => u "IndexError" | IntegrityError => u "IntegrityError" | AttributeError => u "AttributeError"
  | EngineError => u "EngineError" | ToolDiscoveryError => u "ToolDiscoveryError"
  | RuntimeError => u "RuntimeError" | NotImplementedError => u "NotImplementedError"
  end.

(** [_policy_pretool_cb]; the message of the exception is left out of the reason. *)
Definition policy_pretool (w : world) (scope tool_name : text) (tool_input : json) (now : Z) (d : gstore)
    : verdict * gstore :=
  if (effective_tier bash_command_tier tool_name tool_input =? 1) && negb (bool_decide (tool_name = GRANT_MINT_TOOL))
  then (Proceed, d)
  else match check_grants w scope tool_name tool_input now true None d with
       | (Ok dec, d) => (if dec.(allowed) then Proceed else Deny dec.(reason), d)
       | (Raise e, d) =>
           (Deny (u "grant: authority gate could not be evaluated (" ++ exn_text e ++ u "); " ++ quoted tool_name
                  ++ u " from scope " ++ quoted scope ++ u " is denied while the grant store is unreadable"), d)
       end.
End Check.

(** ** A task file's own grants *)

Inductive spec_error :=
| Not_a_map | Unknown_keys | Tool_required | Mints_mint | Bad_predicate | Bad_expiry | Bad_quota | No_issuer.

Record grant_spec := GrantSpec {
  gs_tool : text;
  gs_predicate : text;
  gs_quota : option Z;
  gs_expiry : Z;
  gs_issued_by : text;
  gs_note : text
}.

Definition SPEC_KEYS : list text :=
  map utf8 ["tool"; "predicate"; "quota"; "expires_at"; "issued_by"; "note"]%string.

Section Sync.
Context `{IsoStamps} `{PyNumbers} `{PyJson}.

(** A YAML date or datetime comes as its ISO text. *)
Definition expiry_of (v : json) : expiry_arg :=
  match v with
  | JNull => ENone
  | JStr s => EText (utf8 s)
  | v => EText (py_shown v)
  end.

(** What the [except] clauses around one field of an entry turn an outcome into: its
    value, or the error to report; any other exception goes through. *)
Definition field_or {A} (caught : exn -> bool) (err : spec_error) (o : outcome A) : outcome (option A * list spec_error) :=
  match o with
  | Ok a => Ok (Some a, [])
  | Raise e => if caught e then Ok (None, [err]) else Raise e
  end.

Definition is_grant_error (e : exn) : bool := match e with GrantError => true | _ => false end.
Definition is_number_error (e : exn) : bool := match e with TypeError | ValueError | GrantError => true | _ => false end.

Definition read_quota (v : json) : outcome (option Z) :=
  match v with
  | JNull => Ok None
  | v => n <-? int_of v ;; if n <? 1 then Raise ValueError else Ok (Some n)
  end.

(** One entry of the block: its spec, were it free of errors, and its errors. *)
Definition read_spec (item : json) : outcome (option grant_spec * list spec_error) :=
  match item with
  | JObj fs =>
      let get k := default JNull (get_field (utf8 k) fs) in
      let unknown := if forallb (fun kv => bool_decide (utf8 (kv : string * json).1 ∈ SPEC_KEYS)) fs then [] else [Unknown_keys] in
      let tool := normalize_tool_name (str_or_empty (get "tool"%string)) in
      let e_tool := if negb (nonempty tool) then [Tool_required]
                    else if bool_decide (tool = GRANT_MINT_TOOL) then [Mints_mint] else [] in
      p <-? field_or is_grant_error Bad_predicate
              (validate_predicate (match get "predicate"%string with
                                   | JStr s => PText (utf8 s)
                                   | v => if falsy v then PText [] else POther
                                   end)) ;;
      x <-? field_or is_grant_error Bad_expiry (parse_expiry (expiry_of (get "expires_at"%string))) ;;
      q <-? field_or is_number_error Bad_quota (read_quota (get "quota"%string)) ;;
      let issued_by := strip (str_or_empty (get "issued_by"%string)) in
      let errors := unknown ++ e_tool ++ p.2 ++ x.2 ++ q.2 ++ (if nonempty issued_by then [] else [No_issuer]) in
      Ok (match p.1, x.1, q.1 with
          | Some p, Some x, Some q => Some (GrantSpec tool p q x issued_by (str_or_empty (get "note"%string)))
          | _, _, _ => None
          end, errors)
  | _ => Ok (None, [Not_a_map])
  end.

(** Entries after an error are read for their own errors and not kept. *)
Fixpoint read_specs (items : list json) (specs : list grant_spec) (errors : list spec_error)
    : outcome (list grant_spec * list spec_error) :=
  match items with
  | [] => Ok (specs, errors)
  | item :: items =>
      se <-? read_spec item ;;
      let '(spec, es) := se in
      let errors := errors ++ es in
      let specs := match errors, spec with [], Some s => specs ++ [s] | _, _ => specs end in
      read_specs items specs errors
  end.

Definition validate_task_grants (grants : json) : outcome (list grant_spec * list spec_error) :=
  match grants with
  | JNull => Ok ([], [])
  | JList items => read_specs items [] []
  | _ => Ok ([], [Not_a_map])
  end.

Definition minter (task_id : text) : text := FRONTMATTER_MINTER ++ task_id.

(** The rows of a pair still inside their expiry, withdrawn ones included. *)
Definition unexpired (scope : text) (s : grant_spec) (now : Z) (d : gstore) : list grant :=
  sel (fun g => bool_decide (g.(g_predicate) = s.(gs_predicate)) && slt (iso now) g.(g_expires_at))
    (candidates scope s.(gs_tool) d).

Definition revoked (g : grant) : bool :=
  match g.(g_revoked_at) with Some (String _ _) => true | _ => false end.

(** Why a declared grant writes no row, or that it does. *)
Inductive sync_step := Not_live | Covered | Withdrawn | Mints.

(** The latest withdrawn row blocks when it runs to the declared expiry or past it. *)
Definition sync_decision (scope : text) (s : grant_spec) (now : Z) (d : gstore) : sync_step :=
  if s.(gs_expiry) <=? now then Not_live
  else
    let rows := unexpired scope s now d in
    if existsb (fun g => negb (revoked g)) rows then Covered
    else if existsb (fun g => revoked g && sle (iso s.(gs_expiry)) g.(g_expires_at)) rows then Withdrawn
    else Mints.

Definition spec_args (task_id scope : text) (s : grant_spec) : mint_args :=
  MintArgs scope s.(gs_tool) (PText s.(gs_predicate)) s.(gs_quota) s.(gs_issued_by) (EInstant s.(gs_expiry))
    (match s.(gs_note) with [] => u "autonomy task #" ++ task_id | n => n end) (minter task_id) None.

(** The mint loop; a mint that raises leaves the rows before it. *)
Fixpoint sync_mint (task_id scope : text) (now : Z) (specs : list grant_spec) (minted : Z) (d : gstore)
    : outcome Z * gstore :=
  match specs with
  | [] => (Ok minted, d)
  | s :: specs =>
      match sync_decision scope s now d with
      | Mints => match mint (spec_args task_id scope s) now d with
                 | (Ok _, d) => sync_mint task_id scope now specs (minted + 1) d
                 | (Raise e, d) => (Raise e, d)
                 end
      | _ => sync_mint task_id scope now specs minted d
      end
  end.

(** A live row this file minted whose pair the file no longer declares. *)
Definition undeclared (task_id : text) (specs : list grant_spec) (g : grant) : bool :=
  bool_decide (g.(g_minted_by) = minter task_id)
  && negb (existsb (fun s => bool_decide (g.(g_tool) = s.(gs_tool)) && bool_decide (g.(g_predicate) = s.(gs_predicate))) specs).

Definition sync_withdraw (task_id scope : text) (now : Z) (specs : list grant_spec) (d : gstore) : gstore :=
  fold_left (fun d g => if undeclared task_id specs g then snd (revoke g.(g_id) now d) else d)
    (live (Some scope) now d) d.

Definition sync_task_grants (task_id scope : text) (grants : json) (now : Z) (d : gstore) : outcome Z * gstore :=
  match validate_task_grants grants with
  | Ok (specs, []) =>
      match sync_mint task_id scope now specs 0 d with
      | (Ok n, d) => (Ok n, sync_withdraw task_id scope now specs d)
      | r => r
      end
  | Ok (_, _ :: _) => (Raise GrantError, d)
  | Raise e => (Raise e, d)
  end.
End Sync.
