(* ===== verification/GrantFacts.v ===== *)
(** * Authority grants: what they promise

    An unattended call that is hard to undo runs only on a live row a human wrote for
    it, within that row's bounds; a predicate governs its pair; the gate fails closed;
    no reachable store holds authority a worker minted or a quota overspent; a
    destination covers its host and no look-alike; and a task that runs again does not
    renew what its file was given. *)
From Stdlib Require Import String.
From S2P Require Import Prelude PyText Stamps QueueRows Spill Messages Microcompact Policy Grants.

Local Open Scope Z_scope.

(** ** Reading results backwards *)

Lemma statement_ok {A} w k (f : gstore -> A * gstore) d a d' :
  statement w k f d = (Ok a, d') -> w_ok w k = true /\ f (w_env w k d) = (a, d').
Proof.
  unfold statement. destruct (w_ok w k); [|done]. destruct (f (w_env w k d)) as [a' d1]. intros [= -> ->]. done.
Qed.

Lemma query_ok {A} w k (f : gstore -> A) d a d' :
  query w k f d = (Ok a, d') -> w_ok w k = true /\ a = f (w_env w k d) /\ d' = w_env w k d.
Proof. intros [Ho E]%statement_ok. injection E as <- <-. done. Qed.

Lemma execute_ok w k f d a d' :
  execute w k f d = (Ok a, d') -> w_ok w k = true /\ d' = f (w_env w k d).
Proof. intros [Ho E]%statement_ok. injection E as _ <-. done. Qed.

Lemma as_grant_error_ok {A} (m : stm A) d a d' : as_grant_error m d = (Ok a, d') -> m d = (Ok a, d').
Proof. unfold as_grant_error. by destruct (m d) as [[?|?] ?]. Qed.

Section Facts.
Context `{IsoStamps} `{PyNumbers} `{PyJson}.

Lemma elem_of_live scope now d g :
  g ∈ live (Some scope) now d <->
  g ∈ grants d /\ g_revoked_at g = None /\ slt (iso now) (g_expires_at g) = true /\ g_scope g = scope.
Proof.
  unfold live. rewrite elem_of_sort_by, elem_of_sel, !andb_true_iff, !bool_decide_eq_true. tauto.
Qed.

Lemma elem_of_eligible tool rows g :
  g ∈ eligible_rows tool rows <-> g ∈ rows /\ g_tool g = tool /\ on_destination_axis g = false.
Proof.
  unfold eligible_rows. rewrite elem_of_sel, andb_true_iff, bool_decide_eq_true, negb_true_iff. done.
Qed.

Lemma elem_of_governing tool rows g :
  g ∈ governing tool rows ->
  g ∈ eligible_rows tool rows /\ (bounded_rows tool rows <> [] -> has_predicate g = true).
Proof.
  unfold governing. destruct (bounded_rows tool rows) as [|b bs] eqn:E.
  - unfold broad_rows. rewrite elem_of_sel. tauto.
  - rewrite <- E. unfold bounded_rows. rewrite elem_of_sel. tauto.
Qed.

(** The store a paid call leaves, when other processes act before each statement. *)
Definition paid_store (w : world) (scope tool : text) (record : bool) (now i : Z) (d : gstore) : gstore :=
  let d := consume i (w_env w 1 d) in
  if record then record_dispatch scope tool true (Some i) [] now (w_env w 2 d) else d.

Lemma settle_ok w scope tool record now ok gid why d dec d' :
  settle w scope tool record now ok gid why d = (Ok dec, d') ->
  allowed dec = ok /\ paid_by dec = gid /\ (record = true -> w_ok w 2 = true)
  /\ d' = (if record then record_dispatch scope tool ok gid (if ok then [] else why) now (w_env w 2 d) else d).
Proof.
  unfold settle. intros (x & d1 & E1 & [= <- <-])%sbind_ok. cbn [allowed paid_by].
  destruct record; [apply execute_ok in E1 as [? ->]; done|]. injection E1 as _ <-. done.
Qed.

Lemma pay_ok w scope tool record now g d dec d' :
  pay w scope tool record now g d = (Ok dec, d') ->
  allowed dec = true /\ paid_by dec = Some (g_id g) /\ w_ok w 1 = true /\ (record = true -> w_ok w 2 = true)
  /\ d' = paid_store w scope tool record now (g_id g) d.
Proof.
  unfold pay. intros (x & d1 & [Hw ->]%execute_ok & (Ha & Hp & Hr & ->)%settle_ok)%sbind_ok.
  unfold paid_store. done.
Qed.

(** A live row of the snapshot that is good for this call. *)
Definition good_for (scope tool : text) (args : list (string * json)) (now : Z) (destination : option json)
    (d : gstore) (g : grant) : Prop :=
  g ∈ grants d /\ g_scope g = scope /\ g_tool g = tool /\ g_revoked_at g = None
  /\ slt (iso now) (g_expires_at g) = true /\ spent g = false
  /\ match destination with
     | None => on_destination_axis g = false /\ predicate_matches (g_predicate g) args = true
     | Some v => exists host, normalize_destination v = Ok host
                              /\ destination_covers (default [] (g_destination g)) host = true
     end.

Lemma decide_destination_ok w scope tool now record v d dec d' :
  decide_destination w scope tool (live (Some scope) now d) v now record d = (Ok dec, d') ->
  allowed dec = true ->
  exists g, good_for scope tool [] now (Some v) d g /\ paid_by dec = Some (g_id g) /\ w_ok w 1 = true
    /\ (record = true -> w_ok w 2 = true) /\ d' = paid_store w scope tool record now (g_id g) d.
Proof.
  unfold decide_destination. intros (host & d1 & E1 & E2)%sbind_ok Ha. injection E1 as Eh <-.
  destruct (sel1 _ _) as [g|] eqn:Es.
  - apply pay_ok in E2 as (_ & Hp & Hw & Hr & ->). exists g. split; [|done].
    apply sel1_Some in Es as [Hin Hg]. apply elem_of_live in Hin as (? & ? & ? & ?). bool_simp.
    repeat split; try done. by exists host.
  - exfalso. apply sbind_ok in E2 as (rows & d2 & _ & (Hf & _)%settle_ok). congruence.
Qed.

Variables (tier_of_bash : text -> Z) (shape_of_bash : text -> text).

Lemma decide_tier_ok w scope tool tier now record args d dec d' :
  decide_tier shape_of_bash w scope tool tier (live (Some scope) now d) args now record d = (Ok dec, d') ->
  allowed dec = true ->
  exists g, good_for scope tool (fields_of args) now None d g
    /\ (bounded_rows tool (live (Some scope) now d) <> [] -> has_predicate g = true)
    /\ paid_by dec = Some (g_id g) /\ w_ok w 1 = true
    /\ (record = true -> w_ok w 2 = true) /\ d' = paid_store w scope tool record now (g_id g) d.
Proof.
  unfold decide_tier. intros E Ha. destruct (sel1 _ _) as [g|] eqn:Es.
  - apply pay_ok in E as (_ & Hp & Hw & Hr & ->). exists g.
    apply sel1_Some in Es as [Hin Hg]. apply elem_of_governing in Hin as [Hin Hpred].
    apply elem_of_eligible in Hin as ([? [? [? ?]]]%elem_of_live & ? & ?). bool_simp. by repeat split.
  - exfalso. apply sbind_ok in E as (rows & d2 & _ & E).
    destruct (explain_missing_row _ _ _ _ _) as [[why row] kind]. apply settle_ok in E as [Hf _]. congruence.
Qed.

(** The ways a call may be let through. *)
Definition let_through (w : world) (scope tool_name : text) (tool_input : json) (now : Z) (record : bool)
    (destination : option json) (d d' : gstore) (dec : decision) : Prop :=
  let tool := normalize_tool_name tool_name in
  let args := fields_of tool_input in
  is_interactive_scope scope = true
  \/ (tool <> GRANT_MINT_TOOL /\ effective_tier tier_of_bash tool (JObj args) = 1 /\ destination = None)
  \/ exists g, good_for scope tool (if destination then [] else args) now destination (w_env w 0 d) g
       /\ (destination = None -> bounded_rows tool (live (Some scope) now (w_env w 0 d)) <> [] -> has_predicate g = true)
       /\ tool <> GRANT_MINT_TOOL
       /\ paid_by dec = Some (g_id g) /\ w_ok w 0 = true /\ w_ok w 1 = true /\ (record = true -> w_ok w 2 = true)
       /\ d' = paid_store w scope tool record now (g_id g) (w_env w 0 d).

Lemma check_let_through w scope tool_name tool_input now record destination d dec d' :
  check_grants tier_of_bash shape_of_bash w scope tool_name tool_input now record destination d = (Ok dec, d') ->
  allowed dec = true ->
  let_through w (scope_or_worker scope) tool_name tool_input now record destination d d' dec.
Proof.
  unfold check_grants, let_through. set (tool := normalize_tool_name tool_name). set (sc := scope_or_worker scope).
  case_bool_decide as Hm.
  { destruct (is_interactive_scope sc); [by left|]. intros [= <- <-]. done. }
  destruct (_ =? 1) eqn:Ht; cbn [andb].
  - case_bool_decide as Hd; [intros _ _; right; left; by rewrite Z.eqb_eq in Ht|].
    destruct (is_interactive_scope sc); [by left|]. intros E Ha. right; right.
    apply sbind_ok in E as (rows & d1 & [Hw [-> ->]]%as_grant_error_ok%query_ok & E).
    destruct destination as [v|]; [|done].
    apply decide_destination_ok in E as (g & Hg & Hp & Hw1 & Hw2 & ->); [|done]. by exists g.
  - destruct (is_interactive_scope sc); [by left|]. intros E Ha. right; right.
    apply sbind_ok in E as (rows & d1 & [Hw [-> ->]]%as_grant_error_ok%query_ok & E).
    destruct destination as [v|].
    + apply decide_destination_ok in E as (g & Hg & Hp & Hw1 & Hw2 & ->); [|done]. by exists g.
    + apply decide_tier_ok in E as (g & Hg & Hb & Hp & Hw1 & Hw2 & ->); [|done]. by exists g.
Qed.

(** ** The hook asks about the same call *)

Lemma normalize_bare t : startswith MCP_PREFIX t = false -> normalize_tool_name t = t.
Proof. unfold normalize_tool_name. by intros ->. Qed.

(** No name of the ladder carries the qualified prefix. *)
Lemma ladder_bare t :
  t = BASH_TOOL \/ t ∈ TIER3_TOOLS \/ t ∈ TIER2_TOOLS -> startswith MCP_PREFIX t = false.
Proof.
  assert (Forall (fun t => startswith MCP_PREFIX t = false) (BASH_TOOL :: TIER3_TOOLS ++ TIER2_TOOLS)) as F
    by (repeat constructor).
  rewrite Forall_forall in F. intros Ht. apply F. rewrite elem_of_cons, elem_of_app. exact Ht.
Qed.

Lemma gated_bare name args :
  effective_tier tier_of_bash name args <> 1 -> startswith MCP_PREFIX (normalize_tool_name name) = false.
Proof.
  intros Ht. apply ladder_bare. unfold effective_tier, tool_tier in Ht.
  case_bool_decide as Hb; [by left|]. case_bool_decide as H3; [by right; left|].
  case_bool_decide as H2; [by right; right|]. done.
Qed.

Lemma tier_again name args :
  startswith MCP_PREFIX (normalize_tool_name name) = false ->
  effective_tier tier_of_bash (normalize_tool_name name) args = effective_tier tier_of_bash name args.
Proof.
  intros Hn. apply normalize_bare in Hn. unfold effective_tier, tool_tier, changes_schedule_state. by rewrite Hn.
Qed.
End Facts.

(** ** What every reachable store looks like *)

Inductive gstep `{IsoStamps} `{PyNumbers} `{PyJson} (tier_of_bash : text -> Z) (shape_of_bash : text -> text)
    : gstore -> gstore -> Prop :=
| step_mint a now d : gstep tier_of_bash shape_of_bash d (snd (mint a now d))
| step_revoke i now d : gstep tier_of_bash shape_of_bash d (snd (revoke i now d))
| step_check scope tool input now record destination d :
    gstep tier_of_bash shape_of_bash d
      (snd (check_grants tier_of_bash shape_of_bash quiet scope tool input now record destination d))
| step_hook scope tool input now d :
    gstep tier_of_bash shape_of_bash d (snd (policy_pretool tier_of_bash shape_of_bash quiet scope tool input now d))
| step_sync task_id scope block now d : gstep tier_of_bash shape_of_bash d (snd (sync_task_grants task_id scope block now d)).

(** How many dispatches a grant has paid for. *)
Definition paid_for (i : Z) (d : gstore) : Z :=
  rowcount (fun p => dp_allowed p && bool_decide (dp_grant p = Some i)) d.(ledger).

(** A row only a person could have had written, within its bounds. *)
Definition grant_ok `{IsoStamps} (d : gstore) (g : grant) : Prop :=
  nonempty (g_scope g) = true /\ nonempty (g_tool g) = true /\ g_tool g <> GRANT_MINT_TOOL
  /\ nonempty (g_issued_by g) = true
  /\ is_worker_identity (g_issued_by g) = false /\ is_worker_identity (g_minted_by g) = false
  /\ (exists t, in_range t = true /\ g_expires_at g = iso t)
  /\ 0 <= paid_for (g_id g) d <= g_consumed g
  /\ match g_quota g with Some q => 1 <= q /\ g_consumed g <= q | None => True end.

Record gwf `{IsoStamps} (d : gstore) : Prop := {
  gw_ids : NoDup (map g_id d.(grants));
  gw_seq : Forall (fun i => i <= d.(g_seq)) (map g_id d.(grants));
  gw_paid : Forall (fun p => match dp_grant p with Some i => i <= d.(g_seq) | None => True end) d.(ledger);
  gw_rows : Forall (grant_ok d) d.(grants)
}.

Lemma NoDup_map_inj {A B} (f : A -> B) l x y : NoDup (map f l) -> x ∈ l -> y ∈ l -> f x = f y -> x = y.
Proof.
  induction l as [|a l IH]; simpl; [by intros _ ?%elem_of_nil|].
  intros [Hn Hd]%NoDup_cons Hx Hy E. apply elem_of_cons in Hx, Hy.
  assert (forall z, z ∈ l -> f z ∈ map f l) as Hin by (intros z Hz; by apply list_elem_of_fmap_2).
  destruct Hx as [-> |Hx], Hy as [-> |Hy]; [done| | |by apply IH].
  - exfalso. apply Hn. rewrite E. by apply Hin.
  - exfalso. apply Hn. rewrite <- E. by apply Hin.
Qed.

Section Reachable.
Context `{IsoStamps} `{PyNumbers} `{PyJson}.
Variables (tier_of_bash : text -> Z) (shape_of_bash : text -> text).

Lemma gwf_empty : gwf empty_store.
Proof. split; try constructor. Qed.

Lemma paid_for_nonneg i d : 0 <= paid_for i d.
Proof. unfold paid_for, rowcount. lia. Qed.

Lemma mint_row_ok a now i g d :
  mint_row a now i = Ok g -> paid_for i d = 0 -> g_id g = i /\ grant_ok d g.
Proof.
  unfold mint_row. intros E Hp.
  destruct (nonempty (strip (ma_scope a))) eqn:H1'; [|done].
  destruct (nonempty (normalize_tool_name (ma_tool a))) eqn:H2'; [|done]. cbn [negb] in E.
  case_bool_decide as Hm; [done|]. destruct (nonempty (strip (ma_issued_by a))) eqn:H3; [|done]. cbn [negb] in E.
  destruct (_ || _) eqn:Hw; [done|]. apply orb_false_iff in Hw as [Hw1 Hw2].
  destruct (match ma_quota a with Some q => q <? 1 | None => false end) eqn:Hq; [done|].
  apply obind_ok in E as (pr & _ & (ex & Hx & (de & _ & E)%obind_ok)%obind_ok). injection E as <-. cbn [g_id].
  split; [done|]. unfold grant_ok. cbn [g_scope g_tool g_issued_by g_minted_by g_expires_at g_id g_consumed g_quota].
  split; [done|]. split; [done|]. split; [done|]. split; [done|]. split; [done|].
  split; [destruct (ma_minted_by a); [reflexivity|done]|].
  split.
  - assert (forall z, in_calendar z = Ok ex -> in_range ex = true) as Hc.
    { intros z. unfold in_calendar. destruct (in_range z) eqn:Hr; [|done]. by intros [= <-]. }
    exists ex. split; [|done]. unfold parse_expiry in Hx. destruct (ma_expires a) as [|t|t]; [done|by eapply Hc|].
    destruct (strip t); [done|]. destruct (iso_parse _); [by eapply Hc|].
    destruct (is_date _); [|done]. destruct (iso_parse _); [by eapply Hc|done].
  - split; [lia|]. destruct (ma_quota a); [|done]. apply Z.ltb_ge in Hq. lia.
Qed.

Lemma paid_for_fresh i d : gwf d -> g_seq d < i -> paid_for i d = 0.
Proof.
  intros [_ _ F _] Hi. unfold paid_for, rowcount. rewrite (proj2 (sel_nil_iff _ _)); [done|].
  intros p Hp. rewrite Forall_forall in F. specialize (F p Hp).
  destruct (dp_allowed p); [|done]. apply bool_decide_eq_false. intros E. rewrite E in F. lia.
Qed.

Lemma gwf_mint a now d : gwf d -> gwf (snd (mint a now d)).
Proof.
  intros W. pose proof W as [Wi Ws Wp Wr]. unfold mint. destruct (mint_row a now (g_seq d + 1)) as [g|e] eqn:E; [|done].
  apply (mint_row_ok _ _ _ _ d) in E as [Eg Hg]; [|apply paid_for_fresh; [done|lia]]. cbn [snd].
  split; cbn [grants g_seq ledger].
  - rewrite map_app. apply NoDup_app. split; [done|]. split; [|apply NoDup_singleton].
    intros i Hi [= ->]%list_elem_of_singleton. rewrite Forall_forall in Ws. specialize (Ws _ Hi). simpl in Ws. lia.
  - rewrite map_app. apply Forall_app. split; [|repeat constructor; simpl; lia].
    eapply Forall_impl; [exact Ws|]. simpl. lia.
  - eapply Forall_impl; [exact Wp|]. simpl. intros p. destruct (dp_grant p); lia.
  - apply Forall_app. split; [exact Wr|]. constructor; [exact Hg|constructor].
Qed.

Lemma gwf_revoke i now d : gwf d -> gwf (snd (revoke i now d)).
Proof.
  intros [Wi Ws Wp Wr]. unfold revoke. cbn [snd].
  assert (forall p, map g_id (upd p (set_revoked (Some (iso now))) (grants d)) = map g_id (grants d)) as Hids.
  { intros p. by apply map_upd_id. }
  split; cbn [grants g_seq ledger]; rewrite ?Hids; [done|done|done|].
  apply Forall_forall. intros g (g0 & Hg0 & ->)%elem_of_upd. rewrite Forall_forall in Wr.
  specialize (Wr g0 Hg0). by destruct (_ && _).
Qed.

Lemma paid_for_record sc tool ok gid why now i d :
  paid_for i (record_dispatch sc tool ok gid why now d)
  = paid_for i d + (if ok && bool_decide (gid = Some i) then 1 else 0).
Proof.
  unfold paid_for, rowcount, record_dispatch. cbn [ledger]. rewrite sel_app, length_app. simpl.
  destruct (ok && bool_decide (gid = Some i)); simpl; lia.
Qed.

Lemma gwf_denied sc tool why now d : gwf d -> gwf (record_dispatch sc tool false None why now d).
Proof.
  intros [Wi Ws Wp Wr]. split; [done|done| |].
  - apply Forall_app. split; [done|by repeat constructor].
  - eapply Forall_impl; [exact Wr|]. intros g Hg. unfold grant_ok. rewrite paid_for_record. simpl.
    rewrite Z.add_0_r. exact Hg.
Qed.

Lemma gwf_paid sc tool record now g d :
  gwf d -> g ∈ grants d -> spent g = false -> gwf (paid_store quiet sc tool record now (g_id g) d).
Proof.
  intros [Wi Ws Wp Wr] Hin Hsp. rewrite Forall_forall in Wr.
  assert (map g_id (grants (consume (g_id g) d)) = map g_id (grants d)) as Hids by (by apply map_upd_id).
  assert (forall d', grants d' = grants (consume (g_id g) d) ->
            (forall i, paid_for i d' <= paid_for i d + (if bool_decide (i = g_id g) then 1 else 0)) ->
            Forall (grant_ok d') (grants d')) as Hrows.
  { intros d' -> Hd'. apply Forall_forall. intros x (g0 & Hg0 & ->)%elem_of_upd.
    pose proof (Wr g0 Hg0) as Hok. unfold grant_ok in *. specialize (Hd' (g_id g0)). pose proof (paid_for_nonneg (g_id g0) d').
    destruct (g_id g0 =? g_id g) eqn:E.
    - apply Z.eqb_eq in E. assert (g0 = g) as -> by (by eapply NoDup_map_inj).
      rewrite bool_decide_true in Hd' by done.
      unfold spent in Hsp. cbn [set_consumed g_scope g_tool g_issued_by g_minted_by g_expires_at g_id g_consumed g_quota].
      destruct Hok as (?&?&?&?&?&?&?&?&Hq). repeat (split; [done|]). split; [lia|].
      destruct (g_quota g); [|done]. apply Z.leb_gt in Hsp. lia.
    - apply Z.eqb_neq in E. rewrite bool_decide_false in Hd' by done.
      destruct Hok as (?&?&?&?&?&?&?&?&Hq). repeat (split; [done|]). split; [lia|done]. }
  unfold paid_store. cbn [quiet w_env]. destruct record.
  - split; cbn [record_dispatch grants g_seq ledger]; [by rewrite Hids|by rewrite Hids| |].
    + apply Forall_app. split; [exact Wp|]. repeat constructor. simpl.
      rewrite Forall_forall in Ws. apply Ws. by apply list_elem_of_fmap_2.
    + apply (Hrows (record_dispatch sc tool true (Some (g_id g)) [] now (consume (g_id g) d))); [done|].
      intros i. rewrite paid_for_record. cbn [andb]. change (paid_for i (consume (g_id g) d)) with (paid_for i d).
      repeat case_bool_decide; simplify_eq; lia.
  - split; [by rewrite Hids|by rewrite Hids|exact Wp|]. apply Hrows; [done|]. intros i.
    change (paid_for i (consume (g_id g) d)) with (paid_for i d). case_bool_decide; lia.
Qed.

(** What a check does to a store nobody else touches. *)
Definition checked (now : Z) (d d' : gstore) : Prop :=
  d' = d
  \/ (exists sc tool why, d' = record_dispatch sc tool false None why now d)
  \/ exists sc tool record g, g ∈ grants d /\ spent g = false /\ d' = paid_store quiet sc tool record now (g_id g) d.

Lemma gwf_checked now d d' : gwf d -> checked now d d' -> gwf d'.
Proof.
  intros W [-> |[(sc & tool & why & ->)|(sc & tool & record & g & Hg & Hs & ->)]]; [done|by apply gwf_denied|by apply gwf_paid].
Qed.

Lemma quiet_pay sc tool record now g d :
  snd (pay quiet sc tool record now g d) = paid_store quiet sc tool record now (g_id g) d.
Proof. by destruct record. Qed.

Lemma quiet_deny sc tool (record : bool) now why d :
  snd (settle quiet sc tool record now false None why d) = if record then record_dispatch sc tool false None why now d else d.
Proof. by destruct record. Qed.

Lemma checked_deny sc tool (record : bool) now why d :
  checked now d (if record then record_dispatch sc tool false None why now d else d).
Proof. destruct record; [right; left; by eexists _, _, _|by left]. Qed.

Lemma quiet_destination sc tool now record v d rows :
  (forall g, g ∈ rows -> g ∈ grants d) ->
  checked now d (snd (decide_destination quiet sc tool rows v now record d)).
Proof.
  intros Hrows. unfold decide_destination, sbind at 1, slift.
  destruct (normalize_destination v) as [host|e]; [|by left].
  destruct (sel1 _ _) as [g|] eqn:Es.
  - rewrite quiet_pay. apply sel1_Some in Es as [Hin Hg]. bool_simp. right; right.
    eexists _, _, _, g. split; [by apply Hrows|]. by split.
  - unfold query, statement, sbind. cbn [quiet w_env w_ok]. rewrite quiet_deny. apply checked_deny.
Qed.

Lemma quiet_tier sc tool tier now record args d rows :
  (forall g, g ∈ rows -> g ∈ grants d) ->
  checked now d (snd (decide_tier shape_of_bash quiet sc tool tier rows args now record d)).
Proof.
  intros Hrows. unfold decide_tier. destruct (sel1 _ _) as [g|] eqn:Es.
  - rewrite quiet_pay. apply sel1_Some in Es as [Hin Hg]. bool_simp. right; right.
    apply elem_of_governing in Hin as [[Hin _]%elem_of_eligible _].
    eexists _, _, _, g. split; [by apply Hrows|]. by split.
  - unfold query, statement, sbind. cbn [quiet w_env w_ok].
    destruct (explain_missing_row _ _ _ _ _) as [[why row] kind]. rewrite quiet_deny. apply checked_deny.
Qed.

Lemma quiet_checked scope tool_name input now record destination d :
  checked now d (snd (check_grants tier_of_bash shape_of_bash quiet scope tool_name input now record destination d)).
Proof.
  unfold check_grants. case_bool_decide; [by destruct (is_interactive_scope _); left|].
  destruct (_ && _); [by left|]. destruct (is_interactive_scope _); [by left|].
  unfold as_grant_error, query, statement, sbind. cbn [quiet w_env w_ok].
  assert (forall g, g ∈ live (Some (scope_or_worker scope)) now d -> g ∈ grants d) as Hl by (intros g [Hg _]%elem_of_live; done).
  destruct destination; [by apply quiet_destination|by apply quiet_tier].
Qed.

Lemma quiet_hook scope tool_name input now d :
  checked now d (snd (policy_pretool tier_of_bash shape_of_bash quiet scope tool_name input now d)).
Proof.
  unfold policy_pretool. destruct (_ && _); [by left|].
  pose proof (quiet_checked scope tool_name input now true None d) as C.
  destruct (check_grants _ _ _ _ _ _ _ _ _ _) as [[dec|e] d']; [by destruct (allowed dec)|done].
Qed.

Lemma gwf_sync_mint task_id scope now specs minted d :
  gwf d -> gwf (snd (sync_mint task_id scope now specs minted d)).
Proof.
  revert minted d. induction specs as [|s specs IH]; intros minted d W; cbn [sync_mint]; [done|].
  destruct (sync_decision scope s now d); [by apply IH..|].
  pose proof (gwf_mint (spec_args task_id scope s) now d W) as W'.
  destruct (mint _ _ _) as [[g|e] d']; [by apply IH|done].
Qed.

Lemma gwf_sync task_id scope block now d : gwf d -> gwf (snd (sync_task_grants task_id scope block now d)).
Proof.
  intros W. unfold sync_task_grants. destruct (validate_task_grants block) as [[specs [|e es]]|e]; [|done..].
  pose proof (gwf_sync_mint task_id scope now specs 0 d W) as W1.
  destruct (sync_mint _ _ _ _ _ _) as [[n|e] d1]; [|done]. cbn [snd] in *. unfold sync_withdraw.
  generalize (live (Some scope) now d1). intros rows. revert d1 W1.
  induction rows as [|g rows IH]; intros d1 W1; [done|]. cbn [fold_left]. apply IH.
  destruct (undeclared _ _ _); [by apply gwf_revoke|done].
Qed.

Lemma gwf_step d d' : gwf d -> gstep tier_of_bash shape_of_bash d d' -> gwf d'.
Proof.
  intros W S. destruct S; [by apply gwf_mint|by apply gwf_revoke| | |by apply gwf_sync].
  - eapply gwf_checked; [done|apply quiet_checked].
  - eapply gwf_checked; [done|apply quiet_hook].
Qed.

Lemma gwf_reachable d : rtc (gstep tier_of_bash shape_of_bash) empty_store d -> gwf d.
Proof.
  assert (forall d0, gwf d0 -> rtc (gstep tier_of_bash shape_of_bash) d0 d -> gwf d) as Hg.
  { intros d0 W R. induction R as [|d0 d1 d2 S _ IH]; [done|]. apply IH. by eapply gwf_step. }
  apply Hg, gwf_empty.
Qed.
End Reachable.

(** ** Predicates are normalised once *)

Lemma lstrip_id c t : isspace c = false -> lstrip (c :: t) = c :: t.
Proof. intros E. simpl. by rewrite E. Qed.

Lemma rstrip_id t c : list.last t = Some c -> isspace c = false -> rstrip t = t.
Proof.
  intros Hl Hc. destruct (rstrip_prefix t) as (w & E & Hw). destruct w as [|x w]; [by rewrite app_nil_r in E|].
  exfalso. rewrite E in Hl. rewrite last_app in Hl. destruct (list.last (x :: w)) as [y|] eqn:Ey.
  - injection Hl as ->. apply last_Some_elem_of in Ey. rewrite Forall_forall in Hw. specialize (Hw _ Ey). congruence.
  - by apply last_None in Ey.
Qed.

Lemma span_spec p t a b : span p t = (a, b) -> t = a ++ b /\ Forall (fun c => p c = true) a.
Proof.
  revert a. induction t as [|c t IH]; simpl; intros a; [by intros [= <- <-]|].
  destruct (p c) eqn:Hp; [|by intros [= <- <-]]. destruct (span p t) as [a' b'].
  intros [= <- <-]. destruct (IH a' eq_refl) as [-> F]. by split; [|constructor].
Qed.

Lemma span_app p a b :
  Forall (fun c => p c = true) a -> match b with c :: _ => p c = false | [] => True end -> span p (a ++ b) = (a, b).
Proof.
  intros F Hb. induction F as [|c a Hc _ IH]; simpl.
  - destruct b as [|c b]; [done|]. simpl. by rewrite Hb.
  - by rewrite Hc, IH.
Qed.

Lemma ident_not_space c : ident_char c = true -> isspace c = false.
Proof.
  intros E. apply not_true_iff_false. intros Hs. unfold ident_char, ident_start, is_alpha, is_digit, isspace in *.
  rewrite ?orb_true_iff, ?andb_true_iff, ?N.leb_le, ?N.eqb_eq in *. lia.
Qed.
Lemma ident_not_paren c : ident_char c = true -> c <> 40%N.
Proof. unfold ident_char, ident_start, is_alpha, is_digit. intros E ->. discriminate E. Qed.
Lemma digit_not_space c : is_digit c = true -> isspace c = false.
Proof. intros E. apply ident_not_space. unfold ident_char. by rewrite E, orb_true_r. Qed.

(** What a match holds. *)
Definition match_ok (m : pred_match) : Prop :=
  Forall (fun c => ident_char c = true) (pm_field m)
  /\ (exists c f, pm_field m = c :: f /\ ident_start c = true)
  /\ Forall (fun c => is_digit c = true) (pm_num m) /\ 1 <= len (pm_num m) <= 9.

Lemma match_predicate_ok t m : match_predicate t = Some m -> match_ok m.
Proof.
  unfold match_predicate. destruct (if startswith (u "len(") t then _ else _) as [fn t1].
  destruct (span ident_char t1) as [field t2] eqn:Es. apply span_spec in Es as [_ Ff].
  destruct field as [|c field]; [done|]. destruct (ident_start c) eqn:Hc; [|done].
  destruct (match lstrip t2 with 41%N :: t' => (true, t') | _ => (false, t2) end) as [closer t3].
  destruct (match_op (lstrip t3)) as [[op t4]|]; [|done]. cbn [mbind option_bind].
  destruct (span is_digit (lstrip t4)) as [num rest] eqn:En. apply span_spec in En as [_ Fn].
  destruct (_ && _) eqn:Hn; [|done]. intros [= <-]. bool_simp. split; [done|]. split; [by exists c, field|]. done.
Qed.

Lemma op_codes : u "<=" = [60; 61]%N /\ u ">=" = [62; 61]%N /\ u "==" = [61; 61]%N /\ u "<" = [60]%N /\ u ">" = [62]%N.
Proof. repeat split. Qed.

Lemma match_op_text op t : match t with c :: _ => is_digit c = true | [] => True end ->
  match_op (lstrip (op_text op ++ t)) = Some (op, t).
Proof.
  intros Hd. assert (match t with c :: _ => (61 =? c)%N = false | [] => True end) as Hc.
  { destruct t as [|c t]; [done|]. apply N.eqb_neq. by intros <-. }
  clear Hd. unfold match_op, op_text. destruct op_codes as (-> & -> & -> & -> & ->).
  destruct op; try reflexivity; destruct t as [|c t]; try reflexivity; cbn [app];
    rewrite lstrip_id by reflexivity; cbn [startswith]; rewrite Hc; reflexivity.
Qed.

Lemma lstrip_digits num : Forall (fun c => is_digit c = true) num -> lstrip num = num.
Proof. intros F. destruct F as [|d n Hd _]; [done|]. by apply lstrip_id, digit_not_space. Qed.

Lemma span_digits num : Forall (fun c => is_digit c = true) num -> span is_digit num = (num, []).
Proof. intros F. rewrite <- (app_nil_r num) at 1. by apply span_app. Qed.

Lemma no_len_prefix field op num :
  Forall (fun c => ident_char c = true) field -> Forall (fun c => is_digit c = true) num ->
  startswith (u "len(") (field ++ op_text op ++ num) = false.
Proof.
  intros Ff Fn. apply not_true_iff_false. intros (r & E)%startswith_spec.
  assert (40%N ∈ field ++ op_text op ++ num) as Hin by (rewrite E; set_solver).
  rewrite !elem_of_app in Hin. rewrite Forall_forall in Ff, Fn. destruct Hin as [Hin|[Hin|Hin]].
  - by apply Ff, ident_not_paren in Hin.
  - destruct op; cbn in Hin; set_solver.
  - apply Fn in Hin. discriminate Hin.
Qed.

(** What follows the field: the closer when there is one, the operator, the number. *)
Lemma match_tail (fn : bool) op num :
  Forall (fun c => is_digit c = true) num ->
  let t := (if fn then u ")" else []) ++ op_text op ++ num in
  match t with c :: _ => ident_char c = false | [] => True end
  /\ match lstrip t with 41%N :: t' => (true, t') | _ => (false, t) end = (fn, op_text op ++ num).
Proof.
  intros Fn t. unfold t. destruct fn; [by split|]. cbn [app].
  assert (lstrip (op_text op ++ num) = op_text op ++ num) as -> by (by destruct op).
  by destruct op.
Qed.

Lemma match_pred_text m : match_ok m -> pm_fn m = pm_closer m -> match_predicate (pred_text m) = Some m.
Proof.
  intros (Ff & (c & f & Ec & Hc) & Fn & Hn) Hfc. destruct m as [fn field closer op num]. cbn in *. subst closer.
  destruct (match_tail fn op num Fn) as [Hstop Hclose].
  assert (match_op (lstrip (op_text op ++ num)) = Some (op, num)) as Hmo.
  { apply match_op_text. destruct Fn; done. }
  assert (isspace c = false) as Hsp.
  { apply ident_not_space. rewrite Ec in Ff. by apply Forall_cons in Ff as [? _]. }
  assert ((if startswith (u "len(") (pred_text (PredMatch fn field fn op num))
           then (true, lstrip (drop 4 (pred_text (PredMatch fn field fn op num))))
           else (false, pred_text (PredMatch fn field fn op num)))
          = (fn, field ++ (if fn then u ")" else []) ++ op_text op ++ num)) as Hhead.
  { unfold pred_text. cbn [pm_fn pm_field pm_op pm_num]. destruct fn.
    - assert (startswith (u "len(") (u "len(" ++ field ++ u ")" ++ op_text op ++ num) = true) as ->
        by (apply startswith_spec; by eexists).
      change (drop 4 (u "len(" ++ field ++ u ")" ++ op_text op ++ num)) with (field ++ u ")" ++ op_text op ++ num).
      rewrite Ec. by rewrite <- app_comm_cons, lstrip_id.
    - by rewrite no_len_prefix. }
  unfold match_predicate. rewrite Hhead, (span_app ident_char field _ Ff Hstop), Ec, Hc, <- Ec, Hclose, Hmo.
  cbn [mbind option_bind]. rewrite lstrip_digits, span_digits by done. cbn [nonempty negb orb].
  by rewrite (proj2 (Z.leb_le _ _) (proj1 Hn)), (proj2 (Z.leb_le _ _) (proj2 Hn)).
Qed.

Lemma strip_pred_text m : match_ok m -> strip (pred_text m) = pred_text m.
Proof.
  intros (Ff & (c & f & Ec & Hc) & Fn & Hn). unfold strip.
  assert (exists d, list.last (pm_num m) = Some d /\ is_digit d = true) as (d & Hd & Hdd).
  { destruct (list.last (pm_num m)) as [d|] eqn:E.
    - exists d. split; [done|]. apply last_Some_elem_of in E. rewrite Forall_forall in Fn. by apply Fn.
    - apply last_None in E. unfold len in Hn. rewrite E in Hn. simpl in Hn. lia. }
  assert (lstrip (pred_text m) = pred_text m) as ->.
  { unfold pred_text. destruct (pm_fn m); [reflexivity|]. rewrite Ec. apply lstrip_id, ident_not_space.
    rewrite Ec in Ff. by apply Forall_cons in Ff as [? _]. }
  apply (rstrip_id _ d); [|by apply digit_not_space].
  unfold pred_text. destruct (pm_fn m); rewrite !last_app, Hd; done.
Qed.

Lemma validated_again v p : validate_predicate v = Ok p -> validate_predicate (PText p) = Ok p.
Proof.
  unfold validate_predicate at 1. destruct v as [|t|]; [by intros [= <-]| |done].
  destruct (strip t) as [|c0 t0]; [by intros [= <-]|].
  destruct (match_predicate (c0 :: t0)) as [m|] eqn:Em; [|done]. apply match_predicate_ok in Em.
  destruct (Bool.eqb (pm_fn m) (pm_closer m)) eqn:Eb; [|done]. apply eqb_prop in Eb. intros [= <-].
  pose proof (strip_pred_text m Em) as Es. pose proof (match_pred_text m Em Eb) as Ep.
  unfold validate_predicate. rewrite Es. destruct (pred_text m) as [|x rest] eqn:E.
  - exfalso. destruct Em as (_ & (c & f & Ec & _) & _). unfold pred_text in E. rewrite Ec in E. by destruct (pm_fn m).
  - by rewrite Ep, Eb, eqb_reflx, E.
Qed.
