(* ===== verification/GrantClaims.v ===== *)
(** * Authority grants: the gate

    What the check and its hook promise: an unattended call that is hard to undo runs
    only on a live row a person wrote for it and within that row's bounds, a predicate
    governs its pair, anything that goes wrong is a denial, no reachable store holds a
    worker's authority or an overspent quota, and a destination covers its host and no
    look-alike. *)
From Stdlib Require Import String.
From S2P Require Import Prelude PyText Stamps QueueRows Spill Messages Microcompact Policy Grants GrantFacts.

Local Open Scope Z_scope.

(** ** Statements that all succeed *)

Section Exact.
Context `{IsoStamps} `{PyNumbers} `{PyJson}.

Definition sound (w : world) : Prop := forall k, w_ok w k = true.

Lemma query_sound {A} w k (f : gstore -> A) d :
  sound w -> query w k f d = (Ok (f (w_env w k d)), w_env w k d).
Proof. intros S. unfold query, statement. by rewrite S. Qed.

Lemma settle_sound w scope tool record now ok gid why d :
  sound w -> exists d', settle w scope tool record now ok gid why d = (Ok (Decision ok gid (if ok then [] else why)), d').
Proof.
  intros S. unfold settle, sbind, execute, statement. destruct record; [rewrite S|]; by eexists.
Qed.

Lemma pay_sound w scope tool record now g d :
  sound w -> exists d', pay w scope tool record now g d = (Ok (Decision true (Some (g_id g)) []), d').
Proof.
  intros S. unfold pay, sbind at 1, execute, statement. rewrite S. by apply settle_sound.
Qed.

Lemma elem_of_governing_iff tool rows g :
  g ∈ governing tool rows <->
  g ∈ eligible_rows tool rows
  /\ (has_predicate g = true \/ forall b, b ∈ eligible_rows tool rows -> has_predicate b = false).
Proof.
  unfold governing, bounded_rows, broad_rows. destruct (sel has_predicate (eligible_rows tool rows)) as [|b bs] eqn:E.
  - rewrite sel_nil_iff in E. rewrite elem_of_sel, negb_true_iff. split; [naive_solver|].
    intros [Hg _]. split; [done|by apply E].
  - rewrite <- E, elem_of_sel. split; [naive_solver|]. intros [Hg [Hp|Hn]]; [done|].
    assert (b ∈ sel has_predicate (eligible_rows tool rows)) as [Hb Hpb]%elem_of_sel by (rewrite E; left).
    by rewrite (Hn b Hb) in Hpb.
Qed.

Lemma elem_of_in_play scope tool now d g :
  g ∈ eligible_rows tool (live (Some scope) now d) <->
  g ∈ grants d /\ g_scope g = scope /\ g_tool g = tool /\ g_revoked_at g = None
  /\ slt (iso now) (g_expires_at g) = true /\ on_destination_axis g = false.
Proof. rewrite elem_of_eligible, elem_of_live. tauto. Qed.

Lemma decide_tier_sound shape_of_bash w scope tool tier rows args now record d :
  sound w ->
  exists dec d', decide_tier shape_of_bash w scope tool tier rows args now record d = (Ok dec, d')
    /\ (allowed dec = true <->
        exists g, g ∈ governing tool rows /\ spent g = false /\ predicate_matches (g_predicate g) (fields_of args) = true).
Proof.
  intros S. unfold decide_tier. destruct (sel1 _ _) as [g|] eqn:E.
  - destruct (pay_sound w scope tool record now g d S) as [d' ->]. exists (Decision true (Some (g_id g)) []), d'.
    split; [done|]. apply sel1_Some in E as [Hg Hp]. bool_simp. split; [|done]. intros _. by exists g.
  - unfold sbind at 1. rewrite query_sound by done. destruct (explain_missing_row _ _ _ _ _) as [[why row] kind].
    match goal with |- context [settle w scope tool record now false None ?r ?d0] =>
      destruct (settle_sound w scope tool record now false None r d0 S) as [d' Es] end.
    eexists _, d'. split; [exact Es|]. cbn [allowed]. split; [done|].
    intros (g & Hg & Hs & Hp). rewrite sel1_None in E. specialize (E g Hg). by rewrite Hs, Hp in E.
Qed.
End Exact.

(** ** Claims *)

(** The gate is sound, whatever other processes do. When [check_grants] lets an
    unattended call through that is above tier 1 or names a destination, the tool is
    not the one that mints, and the payer is a row of the store as the check read it:
    its scope is this scope and its tool this tool, it is neither revoked nor expired
    nor spent, and it is off the destination axis with a predicate the arguments
    satisfy - or, for a call with a destination, its destination covers that host.
    Every statement ran, one unit of the payer's quota is used, and the dispatch is in
    the ledger under its number. *)
Theorem check_grants_sound `{IsoStamps} `{PyNumbers} `{PyJson} tier_of_bash shape_of_bash w scope tool_name
    input now record destination d dec d' :
  is_interactive_scope (scope_or_worker scope) = false ->
  effective_tier tier_of_bash (normalize_tool_name tool_name) (JObj (fields_of input)) <> 1 \/ destination <> None ->
  check_grants tier_of_bash shape_of_bash w scope tool_name input now record destination d = (Ok dec, d') ->
  allowed dec = true ->
  let tool := normalize_tool_name tool_name in
  tool <> GRANT_MINT_TOOL /\
  exists g, good_for (scope_or_worker scope) tool (if destination then [] else fields_of input) now destination (w_env w 0 d) g
    /\ paid_by dec = Some (g_id g)
    /\ w_ok w 0 = true /\ w_ok w 1 = true /\ (record = true -> w_ok w 2 = true)
    /\ d' = paid_store w (scope_or_worker scope) tool record now (g_id g) (w_env w 0 d).
Proof.
  intros Hs Ht E Ha. apply check_let_through in E; [|done].
  destruct E as [E|[(_ & E & ->)|(g & Hg & _ & Hm & Hp & Hw0 & Hw1 & Hw2 & ->)]]; [congruence|by destruct Ht|].
  split; [done|]. by exists g.
Qed.

(** C14: The gate is exact, and a predicate governs its pair. With every statement of
    the check running, an unattended call above tier 1 is answered, and it is allowed
    if and only if some live row of this scope and tool, off the destination axis, is
    unspent, has a predicate the arguments satisfy (the empty one does), and either
    bears a predicate or no live row of the pair does. So a spent or refusing bounded
    row is never made up for by a broad one, and a human's grant is never ignored. *)
Theorem check_grants_exact `{IsoStamps} `{PyNumbers} `{PyJson} tier_of_bash shape_of_bash w scope tool_name
    input now record d :
  sound w ->
  is_interactive_scope (scope_or_worker scope) = false ->
  normalize_tool_name tool_name <> GRANT_MINT_TOOL ->
  effective_tier tier_of_bash (normalize_tool_name tool_name) (JObj (fields_of input)) <> 1 ->
  let tool := normalize_tool_name tool_name in
  let in_play g := g ∈ grants (w_env w 0 d) /\ g_scope g = scope_or_worker scope /\ g_tool g = tool
                   /\ g_revoked_at g = None /\ slt (iso now) (g_expires_at g) = true
                   /\ on_destination_axis g = false in
  exists dec d',
    check_grants tier_of_bash shape_of_bash w scope tool_name input now record None d = (Ok dec, d')
    /\ (allowed dec = true <->
        exists g, in_play g /\ spent g = false /\ predicate_matches (g_predicate g) (fields_of input) = true
                  /\ (has_predicate g = true \/ forall b, in_play b -> has_predicate b = false)).
Proof.
  intros S Hs Hm Ht. cbv zeta. unfold check_grants. rewrite bool_decide_false by done.
  rewrite (proj2 (Z.eqb_neq _ _) Ht). cbn [andb]. rewrite Hs. unfold sbind at 1, as_grant_error.
  rewrite query_sound by done.
  match goal with |- context [decide_tier _ w ?sc ?t ?ti ?rows ?a now record ?d0] =>
    destruct (decide_tier_sound shape_of_bash w sc t ti rows a now record d0 S) as (dec & d' & E & Hiff) end.
  exists dec, d'. split; [exact E|]. rewrite Hiff. setoid_rewrite elem_of_governing_iff.
  setoid_rewrite elem_of_in_play. naive_solver.
Qed.

(** C15: The hook fails closed. For an unattended scope the only calls it lets proceed
    are the ones of tier 1 that do not mint, which leave the store alone, and the ones
    a live row of that scope and tool paid for while every statement ran. A store that
    cannot be read, a quota that cannot be written, or a ledger that cannot be appended
    to is a denial, never a pass. *)
Theorem hook_fails_closed `{IsoStamps} `{PyNumbers} `{PyJson} tier_of_bash shape_of_bash w scope tool_name fields now d d' :
  is_interactive_scope (scope_or_worker scope) = false ->
  policy_pretool tier_of_bash shape_of_bash w scope tool_name (JObj fields) now d = (Proceed, d') ->
  (effective_tier tier_of_bash tool_name (JObj fields) = 1 /\ tool_name <> GRANT_MINT_TOOL /\ d' = d)
  \/ exists g, good_for (scope_or_worker scope) (normalize_tool_name tool_name) fields now None (w_env w 0 d) g
       /\ normalize_tool_name tool_name <> GRANT_MINT_TOOL
       /\ w_ok w 0 = true /\ w_ok w 1 = true /\ w_ok w 2 = true
       /\ d' = paid_store w (scope_or_worker scope) (normalize_tool_name tool_name) true now (g_id g) (w_env w 0 d).
Proof.
  intros Hs. unfold policy_pretool. destruct (_ =? 1) eqn:Et; cbn [andb].
  - apply Z.eqb_eq in Et. case_bool_decide as Hm; cbn [negb];
      [|intros [= <-]; left; split; [exact Et|]; split; [exact Hm|reflexivity]].
    subst tool_name. unfold check_grants.
    rewrite bool_decide_true by reflexivity. rewrite Hs. unfold sret. cbn [allowed]. discriminate.
  - apply Z.eqb_neq in Et. destruct (check_grants _ _ _ _ _ _ _ _ _ _) as [[dec|e] d1] eqn:E; [|done].
    destruct (allowed dec) eqn:Ha; [|done]. intros [= <-]. right.
    apply check_let_through in E; [|done]. cbn [fields_of] in E.
    assert (effective_tier tier_of_bash (normalize_tool_name tool_name) (JObj fields) <> 1) as Et'
      by (rewrite tier_again; [exact Et|exact (gated_bare tier_of_bash _ _ Et)]).
    destruct E as [E|[(_ & E & _)|(g & Hg & _ & Hm & Hp & Hw0 & Hw1 & Hw2 & ->)]]; [congruence|by destruct Et'|].
    exists g. split; [exact Hg|]. split; [exact Hm|]. split; [exact Hw0|]. split; [exact Hw1|]. by split; [apply Hw2|].
Qed.

(** C16: No store the program can reach holds authority a worker minted. Minting,
    revoking, checks, hooks and task syncs from an empty store, each alone with it,
    leave no row minted or issued by a worker identity; every row names a scope, a
    tool other than the minting one, an issuer and an expiry of the calendar, and its
    use is within its quota and at least the dispatches the ledger says it paid for. *)
Theorem reachable_grants `{IsoStamps} `{PyNumbers} `{PyJson} tier_of_bash shape_of_bash d :
  rtc (gstep tier_of_bash shape_of_bash) empty_store d ->
  count_worker_minted d = 0 /\
  forall g, g ∈ grants d ->
    nonempty (g_scope g) = true /\ nonempty (g_tool g) = true /\ g_tool g <> GRANT_MINT_TOOL
    /\ nonempty (g_issued_by g) = true /\ (exists t, in_range t = true /\ g_expires_at g = iso t)
    /\ paid_for (g_id g) d <= g_consumed g
    /\ match g_quota g with Some q => g_consumed g <= q | None => True end.
Proof.
  intros [_ _ _ F]%gwf_reachable. rewrite Forall_forall in F. split.
  - unfold count_worker_minted, rowcount. rewrite (proj2 (sel_nil_iff _ _)); [done|].
    intros g Hg. destruct (F g Hg) as (_ & _ & _ & _ & -> & -> & _). done.
  - intros g Hg. destruct (F g Hg) as (? & ? & ? & ? & _ & _ & ? & [_ ?] & Hq).
    repeat (split; [done|]). destruct (g_quota g); [lia|done].
Qed.

(** ** Destinations *)

Lemma endswith_spec p s : endswith p s = true <-> exists w, s = w ++ p.
Proof.
  unfold endswith. rewrite startswith_spec. split; intros (w & E).
  - exists (rev w). apply (f_equal (@rev N)) in E. by rewrite rev_app_distr, !rev_involutive in E.
  - exists (rev w). by rewrite E, rev_app_distr.
Qed.

(** The characters of a host name. *)
Definition name_char (c : N) : bool := host_char c || (c =? 45)%N || (c =? 46)%N.

Lemma name_char_plain c : name_char c = true -> isspace c = false /\ lower_char c = c.
Proof.
  unfold name_char, host_char, is_digit, isspace, lower_char. intros E.
  rewrite ?orb_true_iff, ?andb_true_iff, ?N.leb_le, ?N.eqb_eq in E. split.
  - apply not_true_iff_false. rewrite ?orb_true_iff, ?andb_true_iff, ?N.leb_le, ?N.eqb_eq. lia.
  - destruct ((65 <=? c) && (c <=? 90))%N eqn:E1; [rewrite andb_true_iff, !N.leb_le in E1; lia|].
    destruct (c =? 8490)%N eqn:E2; [apply N.eqb_eq in E2; lia|done].
Qed.

Lemma labels_from_chars cur t :
  forallb label_ok (labels_from cur t) = true -> Forall (fun c => name_char c = true) (cur ++ t).
Proof.
  assert (forall l, label_ok l = true -> Forall (fun c => name_char c = true) l) as Hl.
  { intros [|c l]; [done|]. unfold label_ok. rewrite !andb_true_iff, forallb_forall. intros [_ F].
    apply Forall_forall. intros x Hx. apply list_elem_of_In in Hx. apply F in Hx. unfold name_char. by rewrite Hx. }
  revert cur. induction t as [|c t IH]; intros cur; simpl.
  - rewrite andb_true_iff, app_nil_r. intros [Hc _]. by apply Hl.
  - destruct (c =? 46)%N eqn:E.
    + simpl. rewrite andb_true_iff. intros [Hc Ht]. apply Forall_app. split; [by apply Hl|].
      constructor; [|by apply (IH [])]. unfold name_char. by rewrite E, orb_true_r.
    + intros Ht. specialize (IH _ Ht). by rewrite <- app_assoc in IH.
Qed.

Lemma plain_entry t : Forall (fun c => name_char c = true) t -> lower (strip t) = t.
Proof.
  intros F. assert (lstrip t = t) as E1.
  { destruct F as [|c t Hc F]; [done|]. by apply lstrip_id, name_char_plain. }
  assert (rstrip t = t) as E2.
  { destruct (list.last t) as [c|] eqn:E.
    - apply (rstrip_id _ c); [done|]. apply last_Some_elem_of in E. rewrite Forall_forall in F.
      by apply name_char_plain, F.
    - apply last_None in E. by subst t. }
  unfold strip. rewrite E1, E2. clear E1 E2. unfold lower. induction F as [|c t Hc F IH]; [done|].
  simpl. rewrite IH. f_equal. by apply name_char_plain.
Qed.

Lemma labels_from_length cur t : (1 <= length (labels_from cur t))%nat.
Proof. revert cur. induction t as [|c t IH]; intros cur; simpl; [lia|]. destruct (c =? 46)%N; [simpl; lia|apply IH]. Qed.

Lemma labels_dot t : contains (u ".") t = true -> (2 <= length (labels t))%nat.
Proof.
  intros (l & r & ->)%contains_spec. unfold labels.
  assert (forall cur, (2 <= length (labels_from cur (l ++ u "." ++ r)))%nat) as Hcur; [|apply Hcur].
  induction l as [|c l IH]; intros cur; simpl.
  - pose proof (labels_from_length [] r). lia.
  - destruct (c =? 46)%N; [|apply IH]. specialize (IH []). simpl in *. lia.
Qed.

(** A name [normalize_destination] accepts and does not read as an address. *)
Lemma normalize_destination_name `{PyNumbers} s entry :
  normalize_destination (JStr s) = Ok entry -> ip_address (lower (strip (utf8 s))) = None ->
  entry = lower (strip (utf8 s)) /\ entry <> [] /\ hostname_ok entry = true /\ contains (u ".") entry = true.
Proof.
  unfold normalize_destination. intros E Hip.
  destruct (lower (strip (utf8 s))) as [|c raw]; [done|]. rewrite Hip in E.
  destruct (_ || _); [done|]. destruct (match list.last _ with Some _ => _ | None => _ end); [done|].
  destruct (contains (u ".") (c :: raw)) eqn:Hc; [|done]. cbn [negb] in E.
  destruct (hostname_ok (c :: raw)) eqn:Hh; [|done]. by injection E as <-.
Qed.

(** A destination covers its own host and the hosts under it, and nothing that only
    looks like it. A name the minter accepts, not being an address, is the lower-case
    text it was given, made of host characters in at least two labels, none of them
    empty - so no wildcard, no port, no path and no top-level domain - and it covers
    exactly the hosts that read the same, surrounding blanks and case aside, or that
    end in a dot followed by it. *)
Theorem destination_covers_exact `{PyNumbers} s entry :
  normalize_destination (JStr s) = Ok entry ->
  ip_address (lower (strip (utf8 s))) = None ->
  entry = lower (strip (utf8 s))
  /\ Forall (fun c => name_char c = true) entry
  /\ (2 <= length (labels entry))%nat
  /\ (forall l, l ∈ labels entry -> l <> [])
  /\ forall host, destination_covers entry host = true
                  <-> lower (strip host) = entry \/ exists w, lower (strip host) = w ++ u "." ++ entry.
Proof.
  intros E Hip. apply normalize_destination_name in E as (E & Hne & Hh & Hdot); [|done].
  unfold hostname_ok in Hh. apply andb_true_iff in Hh as [_ Hlab].
  pose proof (labels_from_chars [] entry Hlab) as Hchars. split; [done|]. split; [done|].
  split; [by apply labels_dot|]. split.
  { rewrite forallb_forall in Hlab. intros l Hl ->. apply list_elem_of_In in Hl. by apply Hlab in Hl. }
  intros host. unfold destination_covers. rewrite plain_entry by done.
  rewrite !andb_true_iff, orb_true_iff, bool_decide_eq_true, endswith_spec. split; [tauto|].
  intros Hc. split; [|done]. split; [by destruct entry|]. destruct Hc as [-> |[w ->]]; [by destruct entry|by destruct w].
Qed.

(** ** Concrete runs *)

#[local] Existing Instance plain_numbers.
#[local] Existing Instance blank_py.

Definition noon : Z := 1790000000 * usec.
Definition any_bash (command : text) : Z := if contains (u "git push") command then 2 else 1.
Definition any_shape (command : text) : text := [].
Definition worker_email : text := u "worker:email".

Definition ask (tool predicate : text) (quota : option Z) (destination : option json) : mint_args :=
  MintArgs worker_email tool (PText predicate) quota (u "alan") (EInstant (noon + 86400 * usec)) [] [] destination.

(** A row for up to three ids, used twice at most, and one for a host. *)
Definition sample_grants : gstore :=
  Eval vm_compute in snd (mint (ask (u "http_fetch") [] None (Some (JStr "Example.com"%string))) noon
    (snd (mint (ask (u "email_delete") (u "len( ids ) <= 3") (Some 2) None) noon empty_store))).

Definition delete_ids (n : nat) : list (string * json) :=
  [("ids"%string, JList (repeat (JStr "m"%string) n))].

Lemma sample_grants_reachable : rtc (gstep any_bash any_shape) empty_store sample_grants.
Proof.
  assert (sample_grants = snd (mint (ask (u "http_fetch") [] None (Some (JStr "Example.com"%string))) noon
    (snd (mint (ask (u "email_delete") (u "len( ids ) <= 3") (Some 2) None) noon empty_store)))) as -> by (vm_compute; reflexivity).
  eapply rtc_l; [apply step_mint|]. eapply rtc_l; [apply step_mint|]. apply rtc_refl.
Qed.

(** Deleting [n] messages, asked by the worker on the email source. *)
Definition try_delete (n : nat) : outcome decision * gstore :=
  check_grants any_bash any_shape quiet worker_email (u "email_delete") (JObj (delete_ids n)) noon true None sample_grants.

Lemma unattended_email : is_interactive_scope (scope_or_worker worker_email) = false.
Proof. by vm_compute. Qed.
Lemma gated_delete n :
  effective_tier any_bash (normalize_tool_name (u "email_delete")) (JObj (fields_of (JObj (delete_ids n)))) <> 1.
Proof. by vm_compute. Qed.

Lemma check_grants_sound_witness :
  exists dec d', try_delete 3 = (Ok dec, d') /\ allowed dec = true
    /\ exists g, good_for (scope_or_worker worker_email) (normalize_tool_name (u "email_delete")) (delete_ids 3) noon None sample_grants g
                 /\ paid_by dec = Some (g_id g).
Proof.
  destruct (try_delete 3) as [[dec|e] d'] eqn:E; [|vm_compute in E; discriminate].
  assert (allowed dec = true) as Ha by (vm_compute in E; by injection E as <- _).
  exists dec, d'. split; [reflexivity|]. split; [exact Ha|]. unfold try_delete in E.
  destruct (check_grants_sound _ _ _ _ _ _ _ _ _ _ _ _ unattended_email (or_introl (gated_delete 3)) E Ha)
    as (_ & g & Hg & Hp & _). exists g. exact (conj Hg Hp).
Defined.

Lemma check_grants_exact_witness :
  exists dec d', try_delete 4 = (Ok dec, d') /\ allowed dec = false.
Proof.
  destruct (check_grants_exact any_bash any_shape quiet worker_email (u "email_delete") (JObj (delete_ids 4)) noon true
    sample_grants (fun _ => eq_refl) unattended_email ltac:(by vm_compute) (gated_delete 4)) as (dec & d' & E & _).
  exists dec, d'. split; [exact E|]. vm_compute in E. by injection E as <- _.
Defined.

Lemma hook_fails_closed_witness :
  exists d', policy_pretool any_bash any_shape quiet worker_email (u "email_delete") (JObj (delete_ids 1)) noon sample_grants = (Proceed, d')
    /\ exists g, good_for (scope_or_worker worker_email) (normalize_tool_name (u "email_delete")) (delete_ids 1) noon None sample_grants g.
Proof.
  destruct (policy_pretool any_bash any_shape quiet worker_email (u "email_delete") (JObj (delete_ids 1)) noon sample_grants)
    as [v d'] eqn:E. assert (v = Proceed) as -> by (vm_compute in E; by injection E as <- _).
  exists d'. split; [reflexivity|].
  destruct (hook_fails_closed _ _ _ _ _ _ _ _ _ unattended_email E) as [(Ht & _)|(g & Hg & _)].
  - exfalso. by apply (gated_delete 1).
  - exists g. exact Hg.
Defined.

Lemma reachable_grants_witness :
  rtc (gstep any_bash any_shape) empty_store sample_grants /\ length (grants sample_grants) = 2%nat
  /\ count_worker_minted sample_grants = 0.
Proof.
  split; [exact sample_grants_reachable|]. split; [reflexivity|].
  exact (proj1 (reachable_grants any_bash any_shape sample_grants sample_grants_reachable)).
Defined.

Lemma destination_covers_exact_witness :
  normalize_destination (JStr " API.Example.com "%string) = Ok (u "api.example.com")
  /\ destination_covers (u "api.example.com") (u "eu.API.example.com") = true
  /\ destination_covers (u "api.example.com") (u "evilapi.example.com") = false
  /\ (2 <= length (labels (u "api.example.com")))%nat.
Proof.
  split; [reflexivity|]. split; [reflexivity|]. split; [reflexivity|].
  destruct (@destination_covers_exact plain_numbers " API.Example.com "%string (u "api.example.com")
    ltac:(vm_compute; reflexivity) ltac:(vm_compute; reflexivity)) as (_ & _ & Hl & _).
  exact Hl.
Defined.
