(* ===== verification/GrantSync.v ===== *)
(** * Authority grants: a task file's own block

    [sync_task_grants] materialises the [grants:] block of a task file each time the
    task runs. It never renews what the file was given: a row it writes outlives every
    earlier row of its pair. It settles: afterwards each live declaration stands, no
    live row of the task is undeclared, nobody else's row is touched, and another run
    with the same block writes nothing, however much quota was used in between. *)
From Stdlib Require Import String.
From S2P Require Import Prelude PyText Stamps QueueRows Spill Messages Microcompact Policy Grants GrantFacts.

Local Open Scope Z_scope.

(** The scope, tool and predicate of a row are those of a declaration. *)
Definition of_pair (scope : text) (s : grant_spec) (g : grant) : Prop :=
  g_scope g = scope /\ g_tool g = gs_tool s /\ g_predicate g = gs_predicate s.

Definition same_pair (g g' : grant) : Prop :=
  g_scope g = g_scope g' /\ g_tool g = g_tool g' /\ g_predicate g = g_predicate g'.

Section Sync.
Context `{IsoStamps} `{PyNumbers} `{PyJson}.

(** ** What a block that reads without errors holds *)

Definition spec_ok (s : grant_spec) : Prop :=
  validate_predicate (PText (gs_predicate s)) = Ok (gs_predicate s) /\ in_range (gs_expiry s) = true.

Lemma in_calendar_ok z x : in_calendar z = Ok x -> x = z /\ in_range x = true.
Proof. unfold in_calendar. destruct (in_range z) eqn:E; [by intros [= <-]|done]. Qed.

Lemma parse_expiry_range v x : parse_expiry v = Ok x -> in_range x = true.
Proof.
  unfold parse_expiry. destruct v as [|t|t]; [done|by intros [_ ?]%in_calendar_ok|].
  destruct (strip t); [done|]. destruct (iso_parse _); [by intros [_ ?]%in_calendar_ok|].
  destruct (is_date _); [|done]. destruct (iso_parse _); [by intros [_ ?]%in_calendar_ok|done].
Qed.

Lemma field_or_some {A} caught err (o : outcome A) r a :
  field_or caught err o = Ok r -> r.1 = Some a -> o = Ok a.
Proof.
  unfold field_or. destruct o as [x|e]; [by intros [= <-] [= ->]|]. destruct (caught e); [by intros [= <-]|done].
Qed.

Lemma read_spec_ok item s es : read_spec item = Ok (Some s, es) -> spec_ok s.
Proof.
  unfold read_spec. destruct item; try done. cbv zeta.
  intros (p & Hp & (x & Hx & (q & Hq & E)%obind_ok)%obind_ok)%obind_ok.
  destruct (p.1) as [pt|] eqn:Ep; [|done]. destruct (x.1) as [xt|] eqn:Ex; [|done]. destruct (q.1); [|done].
  injection E as <- _. split.
  - eapply validated_again. by eapply field_or_some.
  - eapply parse_expiry_range. by eapply field_or_some.
Qed.

Lemma read_specs_ok items specs errors specs' errors' :
  Forall spec_ok specs -> read_specs items specs errors = Ok (specs', errors') -> Forall spec_ok specs'.
Proof.
  revert specs errors. induction items as [|item items IH]; intros specs errors F; cbn [read_specs]; [by intros [= <- _]|].
  intros ([[s|] es] & E & Er)%obind_ok; revert Er; apply IH; destruct (errors ++ es); try done.
  apply Forall_app. split; [done|]. constructor; [by eapply read_spec_ok|constructor].
Qed.

Lemma validate_ok block specs errors : validate_task_grants block = Ok (specs, errors) -> Forall spec_ok specs.
Proof.
  unfold validate_task_grants. destruct block; try (by intros [= <- _]).
  apply read_specs_ok. constructor.
Qed.

(** ** What the pair already has *)

Lemma elem_of_unexpired scope s now d g :
  g ∈ unexpired scope s now d <-> g ∈ grants d /\ of_pair scope s g /\ slt (iso now) (g_expires_at g) = true.
Proof.
  unfold unexpired, candidates, of_pair.
  rewrite elem_of_sel, elem_of_sort_by, elem_of_sel, !andb_true_iff, !bool_decide_eq_true. tauto.
Qed.

(** A row stands for a declaration: inside its expiry, and live or withdrawn no earlier
    than the declaration runs to. *)
Definition stands (scope : text) (s : grant_spec) (now : Z) (g : grant) : Prop :=
  of_pair scope s g /\ slt (iso now) (g_expires_at g) = true
  /\ (revoked g = false \/ sle (iso (gs_expiry s)) (g_expires_at g) = true).

Lemma decision_cases scope s now d :
  match sync_decision scope s now d with
  | Not_live => gs_expiry s <= now
  | Mints => now < gs_expiry s /\ forall g, g ∈ grants d -> ~ stands scope s now g
  | _ => exists g, g ∈ grants d /\ stands scope s now g
  end.
Proof.
  unfold sync_decision. destruct (_ <=? _) eqn:El; [lia|].
  assert (forall p, existsb p (unexpired scope s now d) = true
            <-> exists g, g ∈ unexpired scope s now d /\ p g = true) as Hex.
  { intros p. rewrite existsb_exists. by setoid_rewrite list_elem_of_In. }
  destruct (existsb (fun g => negb _) _) eqn:Ec.
  { apply Hex in Ec as (g & (Hg & Hp & Hx)%elem_of_unexpired & Hr%negb_true_iff).
    exists g. split; [done|]. split; [done|]. by split; [|left]. }
  destruct (existsb (fun g => _ && _) _) eqn:Ew.
  { apply Hex in Ew as (g & (Hg & Hp & Hx)%elem_of_unexpired & Hr). bool_simp.
    exists g. split; [done|]. split; [done|]. by split; [|right]. }
  split; [lia|]. intros g Hg (Hp & Hx & Hs).
  assert (g ∈ unexpired scope s now d) as Hin by (by apply elem_of_unexpired).
  destruct (revoked g) eqn:Er.
  - destruct Hs as [?|Hs]; [done|]. apply not_true_iff_false in Ew. apply Ew, Hex. exists g. by rewrite Er, Hs.
  - apply not_true_iff_false in Ec. apply Ec, Hex. exists g. by rewrite Er.
Qed.

Lemma decision_mints scope s now d :
  sync_decision scope s now d = Mints -> now < gs_expiry s /\ forall g, g ∈ grants d -> ~ stands scope s now g.
Proof. intros E. pose proof (decision_cases scope s now d) as D. by rewrite E in D. Qed.

Lemma stood_for scope s now d :
  (now < gs_expiry s -> exists g, g ∈ grants d /\ stands scope s now g) -> sync_decision scope s now d <> Mints.
Proof. intros Hs [Hl Hn]%decision_mints. destruct (Hs Hl) as (g & Hg & Hst). by apply (Hn g). Qed.

(** ** Minting a declaration *)

Lemma mint_spec task_id scope s now d g d' :
  spec_ok s -> strip scope = scope -> startswith MCP_PREFIX (gs_tool s) = false ->
  mint (spec_args task_id scope s) now d = (Ok g, d') ->
  d' = GStore (grants d ++ [g]) (g_seq d + 1) (ledger d)
  /\ of_pair scope s g /\ g_id g = g_seq d + 1 /\ g_expires_at g = iso (gs_expiry s)
  /\ g_minted_by g = minter task_id /\ g_revoked_at g = None.
Proof.
  intros [Hp Hr] Hs Ht. unfold mint. destruct (mint_row _ _ _) as [g'|e] eqn:E; [|done].
  intros [= -> <-]. split; [done|]. unfold mint_row in E.
  cbn [spec_args ma_scope ma_tool ma_predicate ma_quota ma_issued_by ma_expires ma_note ma_minted_by ma_destination] in E.
  rewrite Hs, (normalize_bare _ Ht), Hp in E. unfold in_calendar in E. cbn [parse_expiry] in E.
  unfold in_calendar in E. rewrite Hr in E. cbn [obind] in E.
  destruct (nonempty scope); [|done]. destruct (nonempty (gs_tool s)); [|done]. cbn [negb] in E.
  case_bool_decide; [done|]. destruct (nonempty _); [|done]. cbn [negb] in E.
  destruct (_ || _); [done|]. destruct (match gs_quota s with Some q => q <? 1 | None => false end); [done|].
  by injection E as <-.
Qed.

Lemma mint_raise a now d e d' : mint a now d = (Raise e, d') -> d' = d.
Proof. unfold mint. destruct (mint_row _ _ _); [done|]. by intros [= _ <-]. Qed.

(** ** The mint loop *)

(** A row a sync writes: for a declaration of the block, past every earlier row of its
    pair, all of which are expired or withdrawn. *)
Definition sync_row (task_id scope : text) (now : Z) (specs : list grant_spec) (d : gstore) (g : grant) : Prop :=
  (exists s, s ∈ specs /\ of_pair scope s g /\ g_expires_at g = iso (gs_expiry s) /\ now < gs_expiry s)
  /\ g_minted_by g = minter task_id
  /\ forall g0, g0 ∈ grants d -> g_id g0 < g_id g -> same_pair g0 g ->
       slt (g_expires_at g0) (g_expires_at g) = true
       /\ (revoked g0 = true \/ sle (g_expires_at g0) (iso now) = true).

Lemma of_pair_same scope s g g0 : of_pair scope s g -> same_pair g0 g -> of_pair scope s g0.
Proof. unfold of_pair, same_pair. intuition congruence. Qed.

(** An earlier row of the pair of a declaration that mints. *)
Lemma outlived scope s now d g0 :
  gwf d -> in_range (gs_expiry s) = true -> in_range now = true ->
  sync_decision scope s now d = Mints -> g0 ∈ grants d -> of_pair scope s g0 ->
  slt (g_expires_at g0) (iso (gs_expiry s)) = true
  /\ (revoked g0 = true \/ sle (g_expires_at g0) (iso now) = true).
Proof.
  intros [_ _ _ W] Hr Hn [Hl Hd]%decision_mints Hg Hp. rewrite Forall_forall in W.
  destruct (W g0 Hg) as (_ & _ & _ & _ & _ & _ & (t & Ht & Et) & _).
  specialize (Hd g0 Hg). unfold stands in Hd. rewrite Et in *. rewrite !slt_iso, !sle_iso in * by done.
  destruct (now <? t) eqn:E1.
  - destruct (revoked g0); [|naive_solver]. split; [|by left].
    destruct (gs_expiry s <=? t) eqn:E2; [naive_solver|lia].
  - split; [lia|right; lia].
Qed.

Definition untwisted (specs : list grant_spec) : Prop :=
  Forall (fun s => startswith MCP_PREFIX (gs_tool s) = false) specs.

Section Loop.
Variables (task_id scope : text) (now : Z).
Hypothesis scope_bare : strip scope = scope.
Hypothesis now_ok : in_range now = true.

(** The invariant of the loop: the rows past [n0] are its own, and a declaration that
    has been looked at stands or is over. *)
Lemma sync_mint_rows specs0 n0 specs minted d :
  (forall s, s ∈ specs -> s ∈ specs0) -> Forall spec_ok specs -> untwisted specs -> gwf d -> n0 <= g_seq d ->
  (forall g, g ∈ grants d -> n0 < g_id g -> sync_row task_id scope now specs0 d g) ->
  let d' := snd (sync_mint task_id scope now specs minted d) in
  n0 <= g_seq d' /\ (forall g, g ∈ grants d -> g ∈ grants d')
  /\ (forall g, g ∈ grants d' -> g_id g <= n0 -> g ∈ grants d)
  /\ forall g, g ∈ grants d' -> n0 < g_id g -> sync_row task_id scope now specs0 d' g.
Proof.
  revert minted d. induction specs as [|s specs IH]; intros minted d Hin Fs Fu W Hn0 Hrows; cbn [sync_mint]; [done|].
  apply Forall_cons in Fs as [Hs Fs], Fu as [Hu Fu].
  assert (forall s, s ∈ specs -> s ∈ specs0) as Hin' by (intros x Hx; apply Hin; by right).
  destruct (sync_decision scope s now d) eqn:Ed; [by apply IH..|].
  pose proof (gwf_mint (spec_args task_id scope s) now d W) as W'.
  destruct (mint _ _ _) as [[g|e] d1] eqn:Em; [|by apply mint_raise in Em as ->].
  apply mint_spec in Em as (-> & Hp & Hi & Hx & Hm & Hrev); [|done..]. cbn [snd] in W'.
  assert (forall g1, g1 ∈ grants d -> g_id g1 <= g_seq d) as Hseq.
  { intros g1 Hg1. destruct W as [_ Wseq _ _]. rewrite Forall_forall in Wseq. by apply Wseq, list_elem_of_fmap_2. }
  destruct (IH (minted + 1) _ Hin' Fs Fu W') as (Ha & Hb & Hc & Hd); cbn [grants g_seq] in *.
  - lia.
  - intros g1 [Hg1|Hg1]%elem_of_app Hid.
    + destruct (Hrows g1 Hg1 Hid) as (Hr1 & Hr2 & Hr3). split; [done|]. split; [done|]. cbn [grants].
      intros g0 [Hg0|Hg0]%elem_of_app Hlt; [by apply Hr3|]. apply list_elem_of_singleton in Hg0 as ->.
      specialize (Hseq g1 Hg1). lia.
    + apply list_elem_of_singleton in Hg1 as ->. split; [exists s; split; [apply Hin; by left|]|split; [done|]].
      { split; [done|]. split; [done|]. by apply decision_mints in Ed as [? _]. }
      cbn [grants]. intros g0 [Hg0|Hg0]%elem_of_app Hlt Hsame.
      * rewrite Hx. eapply outlived; [exact W|by apply Hs|done|exact Ed|done|by eapply of_pair_same].
      * apply list_elem_of_singleton in Hg0 as ->. lia.
  - split; [done|]. split; [intros g1 Hg1; apply Hb, elem_of_app; by left|]. split; [|done].
    intros g1 Hg1 Hle. specialize (Hc g1 Hg1 Hle). apply elem_of_app in Hc as [?|Hc]; [done|].
    apply list_elem_of_singleton in Hc as ->. lia.
Qed.

(** What stands keeps standing, and what is minted stands. *)
Lemma sync_mint_stands specs minted d n d' :
  Forall spec_ok specs -> untwisted specs ->
  sync_mint task_id scope now specs minted d = (Ok n, d') ->
  (forall g, g ∈ grants d -> g ∈ grants d')
  /\ forall s, s ∈ specs -> now < gs_expiry s -> exists g, g ∈ grants d' /\ stands scope s now g.
Proof.
  revert minted d. induction specs as [|s specs IH]; intros minted d Fs Fu; cbn [sync_mint].
  { intros [= _ <-]. split; [done|]. by intros s ?%elem_of_nil. }
  apply Forall_cons in Fs as [Hs Fs], Fu as [Hu Fu].
  destruct (sync_decision scope s now d) eqn:Ed.
  4: { destruct (mint _ _ _) as [[g|e] d1] eqn:Em; [|done]. intros E.
       apply mint_spec in Em as (-> & Hp & Hi & Hx & Hm & Hrev); [|done..].
       destruct (IH _ _ Fs Fu E) as [Hk Hst]. cbn [grants] in Hk. split; [intros; apply Hk, elem_of_app; by left|].
       intros s1 [-> |Hs1]%elem_of_cons Hl; [|by apply Hst]. exists g. split; [apply Hk, elem_of_app; right; by left|].
       split; [done|]. rewrite Hx. split; [rewrite slt_iso; [lia|done|by apply Hs]|]. left. unfold revoked. by rewrite Hrev. }
  all: intros E; destruct (IH _ _ Fs Fu E) as [Hk Hst]; split; [done|].
  all: intros s1 [-> |Hs1]%elem_of_cons Hl; [|by apply Hst].
  all: pose proof (decision_cases scope s now d) as D; rewrite Ed in D; [lia || (destruct D as (g & Hg & Hg'); exists g; by split; [apply Hk|])].
Qed.

(** ** The withdrawal *)

Definition withdraws (specs : list grant_spec) (l : list grant) (g : grant) : bool :=
  bool_decide (g_revoked_at g = None) && existsb (fun x => undeclared task_id specs x && (g_id g =? g_id x)) l.

Lemma withdraw_fold specs l d :
  fold_left (fun d g => if undeclared task_id specs g then snd (revoke (g_id g) now d) else d) l d
  = GStore (upd (withdraws specs l) (set_revoked (Some (iso now))) (grants d)) (g_seq d) (ledger d).
Proof.
  revert d. induction l as [|x l IH]; intros d; cbn [fold_left].
  { rewrite upd_none; [by destruct d|]. intros g _. unfold withdraws. by rewrite andb_false_r. }
  rewrite IH. destruct (undeclared task_id specs x) eqn:Ex; cbn [revoke snd grants g_seq ledger]; f_equal.
  - unfold upd. rewrite map_map. apply map_ext. intros g. unfold withdraws. cbn [existsb]. rewrite Ex. cbn [andb].
    destruct (bool_decide (g_revoked_at g = None)) eqn:Er; rewrite ?andb_true_r, ?andb_false_r, ?Er; [|done].
    destruct (g_id g =? g_id x); cbn [andb orb]; [done|by rewrite Er].
  - unfold upd. apply map_ext. intros g. unfold withdraws. cbn [existsb]. by rewrite Ex.
Qed.

(** A row after the withdrawal: as it was, or withdrawn. *)
Lemma elem_of_withdraw specs d g' :
  g' ∈ grants (sync_withdraw task_id scope now specs d) <->
  exists g, g ∈ grants d /\ g' = if withdraws specs (live (Some scope) now d) g then set_revoked (Some (iso now)) g else g.
Proof. unfold sync_withdraw. rewrite withdraw_fold. apply elem_of_upd. Qed.

Lemma withdraws_iff specs d g :
  gwf d -> g ∈ grants d ->
  withdraws specs (live (Some scope) now d) g = true <-> g ∈ live (Some scope) now d /\ undeclared task_id specs g = true.
Proof.
  intros [Wi _ _ _] Hg. unfold withdraws. rewrite andb_true_iff, bool_decide_eq_true, existsb_exists.
  split.
  - intros [_ (x & Hx%list_elem_of_In & Hu)]. bool_simp.
    assert (x ∈ grants d) as Hx' by (apply elem_of_live in Hx; tauto).
    assert (g = x) as -> by (eapply NoDup_map_inj; eauto). done.
  - intros [Hl Hu]. split; [apply elem_of_live in Hl; tauto|]. exists g. split; [by apply list_elem_of_In|].
    by rewrite Hu, Z.eqb_refl.
Qed.

Lemma revoked_now g : revoked (set_revoked (Some (iso now)) g) = true.
Proof. unfold revoked. cbn. pose proof (iso_nonempty now). by destruct (iso now). Qed.

Lemma sync_row_withdraw specs0 specs d g' :
  (forall g, g ∈ grants d -> g_id g = g_id g' -> sync_row task_id scope now specs0 d g) ->
  g' ∈ grants (sync_withdraw task_id scope now specs d) ->
  sync_row task_id scope now specs0 (sync_withdraw task_id scope now specs d) g'.
Proof.
  intros Hr (g & Hg & Eg)%elem_of_withdraw.
  assert (g_id g = g_id g') as Hid by (subst g'; by case_match).
  destruct (Hr g Hg Hid) as ((s & Hs & Hp & Hx & Hl) & Hm & Hc).
  assert (same_pair g' g /\ g_expires_at g' = g_expires_at g /\ g_minted_by g' = g_minted_by g) as (Hsp & Hxx & Hmm).
  { subst g'. unfold same_pair. by case_match. }
  split; [exists s; rewrite Hxx; split; [done|]; split; [by eapply of_pair_same|done]|]. split; [by rewrite Hmm|].
  intros g0' (g0 & Hg0 & Eg0)%elem_of_withdraw Hlt Hs0. rewrite Hxx.
  destruct (Hc g0 Hg0) as [H1' H2'].
  - rewrite Hid. enough (g_id g0' = g_id g0) by lia. subst g0'. by case_match.
  - assert (same_pair g0 g0') as Hz by (subst g0'; unfold same_pair; by case_match).
    unfold same_pair in *. intuition congruence.
  - subst g0'. destruct (withdraws _ _ g0); [|done]. split; [done|]. left. apply revoked_now.
Qed.

(** ** A block that has been synced *)

Definition declared (specs : list grant_spec) (g : grant) : Prop :=
  exists s, s ∈ specs /\ g_tool g = gs_tool s /\ g_predicate g = gs_predicate s.

Lemma undeclared_iff specs g :
  undeclared task_id specs g = true <-> g_minted_by g = minter task_id /\ ~ declared specs g.
Proof.
  unfold undeclared, declared. rewrite andb_true_iff, bool_decide_eq_true, negb_true_iff, <- not_true_iff_false, existsb_exists.
  setoid_rewrite list_elem_of_In. setoid_rewrite andb_true_iff. by setoid_rewrite bool_decide_eq_true.
Qed.

(** Each live declaration stands, and each live row of the task is declared. *)
Definition settled (specs : list grant_spec) (d : gstore) : Prop :=
  (forall s, s ∈ specs -> now < gs_expiry s -> exists g, g ∈ grants d /\ stands scope s now g)
  /\ forall g, g ∈ live (Some scope) now d -> g_minted_by g = minter task_id -> declared specs g.

Lemma settled_idle specs d :
  settled specs d ->
  sync_mint task_id scope now specs 0 d = (Ok 0, d) /\ sync_withdraw task_id scope now specs d = d.
Proof.
  intros [Hs Hl]. split.
  - clear Hl. induction specs as [|s specs IH]; [done|]. cbn [sync_mint].
    pose proof (stood_for scope s now d) as Hne. destruct (sync_decision scope s now d);
      [apply IH; intros; apply Hs; [by right|done]..|].
    exfalso. apply Hne; [|done]. apply Hs. by left.
  - unfold sync_withdraw. rewrite withdraw_fold, upd_none; [by destruct d|]. intros g _.
    apply not_true_iff_false. unfold withdraws. rewrite andb_true_iff, existsb_exists.
    intros [_ (x & Hx%list_elem_of_In & [[Hm Hu]%undeclared_iff _]%andb_true_iff)]. by apply Hu, Hl.
Qed.

(** Using quota does not unsettle a block. *)
Lemma settled_consumed specs d c i l :
  settled specs d -> settled specs (GStore (map (fun g => set_consumed (c g) g) (grants d)) i l).
Proof.
  intros [Hs Hl]. split.
  - intros s Hin Hlt. destruct (Hs s Hin Hlt) as (g & Hg & Hst). exists (set_consumed (c g) g).
    split; [by apply (list_elem_of_fmap_2 (fun g => set_consumed (c g) g))|exact Hst].
  - intros g' ((g & -> & Hg)%list_elem_of_fmap & Hr & Hx & Hsc)%elem_of_live Hm.
    apply (Hl g); [|done]. apply elem_of_live. done.
Qed.

Lemma sync_settled specs d n d1 :
  gwf d1 -> Forall spec_ok specs -> untwisted specs ->
  sync_mint task_id scope now specs 0 d = (Ok n, d1) -> settled specs (sync_withdraw task_id scope now specs d1).
Proof.
  intros W Fs Fu E. destruct (sync_mint_stands specs 0 d n d1 Fs Fu E) as [_ Hst]. split.
  - intros s Hs Hl. destruct (Hst s Hs Hl) as (g & Hg & Hg'). exists g. split; [|done].
    apply elem_of_withdraw. exists g. split; [done|]. destruct (withdraws _ _ g) eqn:Ew; [|done]. exfalso.
    apply withdraws_iff in Ew as [_ [_ Hu]%undeclared_iff]; [|done..]. apply Hu.
    destruct Hg' as [(_ & Ht & Hp) _]. by exists s.
  - intros g' Hlive Hm. apply elem_of_live in Hlive as ((g & Hg & Eg)%elem_of_withdraw & Hr & Hx & Hsc).
    destruct (withdraws _ _ g) eqn:Ew; [by subst g'|]. subst g'.
    destruct (undeclared task_id specs g) eqn:Eu.
    + assert (withdraws specs (live (Some scope) now d1) g = true) as Ew'; [|congruence].
      apply withdraws_iff; [done|done|]. split; [|done]. by apply elem_of_live.
    + unfold undeclared in Eu. rewrite bool_decide_true in Eu by done. apply negb_false_iff, existsb_exists in Eu as (s & Hs & Hb).
      bool_simp. exists s. by split; [apply list_elem_of_In|].
Qed.
End Loop.
End Sync.

(** A task does not renew what its file was given by running again. Every row a
    sync writes, even one it stops halfway through, is for a declaration of the block
    that is still live, carries that declaration's pair and expiry under the task's own
    name, and expires strictly later than every earlier row of the same scope, tool and
    predicate - each of which has expired or been withdrawn. So neither a spent quota
    nor a human's revocation is undone unless the file declares a later expiry. *)
Theorem sync_never_renews `{IsoStamps} `{PyNumbers} `{PyJson} task_id scope block specs errors now d g :
  gwf d -> in_range now = true -> strip scope = scope ->
  validate_task_grants block = Ok (specs, errors) -> untwisted specs ->
  let d' := snd (sync_task_grants task_id scope block now d) in
  g ∈ grants d' -> g_seq d < g_id g -> sync_row task_id scope now specs d' g.
Proof.
  intros W Hnow Hsc Ev Hu. unfold sync_task_grants. rewrite Ev. pose proof (validate_ok _ _ _ Ev) as Fs.
  assert (forall g, g ∈ grants d -> g_seq d < g_id g -> False) as Hold.
  { intros g1 Hg1 Hlt. destruct W as [_ Ws _ _]. rewrite Forall_forall in Ws.
    specialize (Ws (g_id g1)). enough (g_id g1 <= g_seq d) by lia. by apply Ws, list_elem_of_fmap_2. }
  destruct errors as [|e es]; [|intros Hg Hlt; by destruct (Hold g)].
  destruct (sync_mint_rows task_id scope now Hsc Hnow specs (g_seq d) specs 0 d) as (_ & _ & _ & Hrows);
    [done|done|done|done|lia|intros g1 Hg1 Hlt; by destruct (Hold g1)|].
  destruct (sync_mint task_id scope now specs 0 d) as [[n|e] d1]; cbn [snd] in *; [|by apply Hrows].
  intros Hg Hlt. apply sync_row_withdraw; [|done]. intros g1 Hg1 Hid. apply Hrows; [done|lia].
Qed.

(** A sync settles its task's block. When it returns, every declaration that is
    still live has a row of its scope, tool and predicate inside its expiry - live, or
    withdrawn by a human no earlier than the declaration runs to; every live row of the
    scope the task minted is one the block declares; the rows of anyone else, or of
    another scope, are all still there as they were; and syncing the same block again
    at that instant writes nothing, whatever quota was spent and whatever the ledger
    recorded in between. *)
Theorem sync_settles `{IsoStamps} `{PyNumbers} `{PyJson} task_id scope block specs errors now d n d' :
  gwf d -> in_range now = true -> strip scope = scope ->
  validate_task_grants block = Ok (specs, errors) -> untwisted specs ->
  sync_task_grants task_id scope block now d = (Ok n, d') ->
  settled task_id scope now specs d'
  /\ (forall g, g ∈ grants d -> g_minted_by g <> minter task_id \/ g_scope g <> scope -> g ∈ grants d')
  /\ forall used ledger', let d2 := GStore (map (fun g => set_consumed (used g) g) (grants d')) (g_seq d') ledger' in
       sync_task_grants task_id scope block now d2 = (Ok 0, d2).
Proof.
  intros W Hnow Hsc Ev Hu. unfold sync_task_grants. rewrite Ev. pose proof (validate_ok _ _ _ Ev) as Fs.
  destruct errors as [|e es]; [|done].
  destruct (sync_mint task_id scope now specs 0 d) as [[m|e] d1] eqn:E; [|done]. intros [= -> <-].
  pose proof (gwf_sync_mint task_id scope now specs 0 d W) as W1. rewrite E in W1. cbn [snd] in W1.
  pose proof (sync_settled task_id scope now Hsc Hnow specs d n d1 W1 Fs Hu E) as Hset.
  split; [exact Hset|]. split.
  - intros g Hg Hne. apply elem_of_withdraw. exists g.
    assert (g ∈ grants d1) as Hg1 by (by apply (sync_mint_stands task_id scope now Hsc Hnow specs 0 d n d1)).
    split; [done|]. destruct (withdraws _ _ _ g) eqn:Ew; [|done]. exfalso.
    apply withdraws_iff in Ew as [(_ & _ & _ & Hs)%elem_of_live [Hm _]%undeclared_iff]; [|done..]. by destruct Hne.
  - intros used ledger'.
    match goal with |- _ = (_, ?d2) => destruct (settled_idle task_id scope now specs d2) as [-> ->] end; [|done].
    by apply settled_consumed.
Qed.

(** ** Concrete runs *)

#[local] Existing Instance plain_numbers.
#[local] Existing Instance blank_py.

Definition noon : Z := 1790000000 * usec.
Definition nightly : text := u "autonomy-task:40".

(** A file that declares one tool, up to three ids a call, five calls. *)
Definition one_grant : json :=
  JList [JObj [("tool", JStr "email_delete"); ("predicate", JStr "len( ids ) <= 3"); ("quota", JInt 5);
               ("expires_at", JStr "2026-12-31T00:00:00+00:00"); ("issued_by", JStr "alan")]]%string.

(** The store once the task has run, with a row left over from a declaration that is
    gone. *)
Definition leftover : gstore :=
  Eval vm_compute in
    snd (mint (MintArgs nightly (u "email_send") PNone None (u "alan") (EInstant (noon + 86400 * usec)) [] (minter (u "40")) None)
           noon empty_store).
Definition ran_once : outcome Z * gstore := Eval vm_compute in sync_task_grants (u "40") nightly one_grant noon leftover.

Lemma leftover_gwf : gwf leftover.
Proof.
  assert (leftover = snd (mint (MintArgs nightly (u "email_send") PNone None (u "alan") (EInstant (noon + 86400 * usec)) []
    (minter (u "40")) None) noon empty_store)) as -> by (vm_compute; reflexivity).
  apply gwf_mint, gwf_empty.
Qed.

Lemma ran_once_eq : sync_task_grants (u "40") nightly one_grant noon leftover = (Ok 1, snd ran_once).
Proof. vm_compute. reflexivity. Qed.

Definition one_grant_spec : grant_spec :=
  Eval vm_compute in match validate_task_grants one_grant with
                     | Ok (s :: _, _) => s
                     | _ => GrantSpec [] [] None 0 [] []
                     end.
Lemma one_grant_valid : validate_task_grants one_grant = Ok ([one_grant_spec], []).
Proof. vm_compute. reflexivity. Qed.

Lemma one_grant_untwisted : untwisted [one_grant_spec].
Proof. vm_compute. repeat constructor. Qed.

Lemma sync_never_renews_witness :
  exists g, g ∈ grants (snd ran_once) /\ g_id g = 2
    /\ sync_row (u "40") nightly noon [one_grant_spec] (snd (sync_task_grants (u "40") nightly one_grant noon leftover)) g.
Proof.
  destruct (grants (snd ran_once)) as [|g0 [|g [|]]] eqn:E; [vm_compute in E; discriminate..| |vm_compute in E; discriminate].
  exists g. assert (g ∈ grants (snd ran_once)) as Hg by (rewrite E; right; left).
  assert (g_id g = 2) as Hi by (vm_compute in E; by injection E as _ <-).
  split; [exact (eq_ind _ (fun l => g ∈ l) Hg _ E)|]. split; [exact Hi|].
  apply (sync_never_renews (u "40") nightly one_grant _ _ noon leftover g leftover_gwf ltac:(vm_compute; reflexivity)
    ltac:(vm_compute; reflexivity) one_grant_valid one_grant_untwisted).
  - rewrite ran_once_eq. exact Hg.
  - rewrite Hi. vm_compute. reflexivity.
Defined.

Lemma sync_settles_witness :
  settled (u "40") nightly noon [one_grant_spec] (snd ran_once) /\ map revoked (grants (snd ran_once)) = [true; false].
Proof.
  split; [|vm_compute; reflexivity].
  exact (proj1 (sync_settles (u "40") nightly one_grant _ _ noon leftover 1 (snd ran_once) leftover_gwf ltac:(vm_compute; reflexivity)
    ltac:(vm_compute; reflexivity) one_grant_valid one_grant_untwisted ran_once_eq)).
Defined.
