(* ===== verification/PoolPause.v ===== *)
(** * The worker pool: pausing

    [WorkerPool] of [workers/pool.py]: the operator's pause, which is persisted and
    survives a restart, the promoter's, which is not, the machine lease that lets a
    later start reconcile a dead holder's pause, and the announcement a start makes of
    what it inherited. A statement of the database may raise ([ok k] is whether the
    [k]-th one of the call runs); what the code does then is part of the model. *)
From Stdlib Require Import String.
From S2P Require Import Prelude PyText Stamps QueueRows QueueOps QueueJournal.

Local Open Scope Z_scope.

(** ** State *)

(** [workers.db]: the queue and the runs, the watermarks, and the two journals. *)
Record wdb := Wdb { w_db : db; w_marks : watermarks; w_pauses : journal; w_holds : journal }.

Definition with_marks (m : watermarks) (d : wdb) : wdb := Wdb d.(w_db) m d.(w_pauses) d.(w_holds).
Definition with_pauses (j : journal) (d : wdb) : wdb := Wdb d.(w_db) d.(w_marks) j d.(w_holds).

(** What [_load_operator_pause] found, and what it did about it. Ages are in
    microseconds. *)
Record inherited_pause := Inherited {
  ih_since : option string;
  ih_holder : string;
  ih_lease_age : option Z;
  ih_reconciled : bool
}.

(** The pause half of a pool's memory. *)
Record pauses := Pauses {
  p_operator : bool;
  p_automod : bool;
  p_inherited : option inherited_pause
}.

Definition PAUSE_WM_SOURCE : string := "_pool".
Definition PAUSE_WM_KEY : string := "operator_paused".
Definition PAUSE_WM_HOLDER_KEY : string := "operator_pause_holder".
Definition HOLDER_PERSON : string := "person".
Definition HOLDER_MACHINE : string := "machine".
Definition HOLDER_DEFAULT : string := HOLDER_PERSON.
Definition PAUSE_ACTOR_DEFAULT : string := "unattributed".
Definition PAUSE_ACTOR_RECONCILE : string := "startup-reconcile".
Definition MACHINE_LEASE_STALE_SECONDS : Z := 300.
Definition PAUSE_ANNOUNCE_WM_KEY : string := "operator_pause_announced".
Definition PAUSE_ANNOUNCE_FLOOR_SECONDS : Z := 3600.

Section Pausing.
Context `{IsoStamps}.

Definition lease_age_seconds (now : Z) (updated_at : option string) : option Z :=
  match updated_at with
  | None | Some EmptyString => None
  | Some s => (fun t => now - t) <$> iso_parse s
  end.

Definition lease_is_stale (age : option Z) : bool :=
  match age with None => true | Some a => MACHINE_LEASE_STALE_SECONDS * usec <? a end.

Definition holder_kind (raw : option string) : string :=
  if bool_decide (raw = Some HOLDER_MACHINE) then HOLDER_MACHINE else HOLDER_DEFAULT.

Definition pause_row (m : watermarks) : option string := wm_get PAUSE_WM_SOURCE PAUSE_WM_KEY m.
Definition holder_row (m : watermarks) : option string := wm_get PAUSE_WM_SOURCE PAUSE_WM_HOLDER_KEY m.

Record pause_state := PauseState {
  ps_paused : bool;
  ps_since : option string;
  ps_holder : option string;
  ps_lease_age : option Z
}.
Definition not_held : pause_state := PauseState false None None None.

(** Up to four reads; one that raises answers that nothing is held. *)
Definition operator_pause_state (ok : nat -> bool) (now : Z) (m : watermarks) : pause_state :=
  if negb (ok 0%nat) then not_held
  else if negb (bool_decide (pause_row m = Some "1"%string)) then not_held
  else if negb (ok 1%nat && ok 2%nat) then not_held
  else
    let since := wm_updated_at PAUSE_WM_SOURCE PAUSE_WM_KEY m in
    let holder := holder_kind (holder_row m) in
    if bool_decide (holder = HOLDER_MACHINE) then
      if ok 3%nat then
        PauseState true since (Some holder)
          (lease_age_seconds now (wm_updated_at PAUSE_WM_SOURCE PAUSE_WM_HOLDER_KEY m))
      else not_held
    else PauseState true since (Some holder) None.

(** [_journal_pause]: a row that cannot be written is history lost, nothing more. *)
Definition journal_pause (ok : bool) (now : Z) (value kind actor : string) (d : wdb) : wdb :=
  if ok then with_pauses (snd (pause_journal_append now value kind actor None d.(w_pauses))) d else d.

(** ** Starting *)

(** [_release_dead_machine_pause]: statements 4 and 5. *)
Definition release_dead_machine_pause (ok : nat -> bool) (now : Z) (ih : inherited_pause) (d : wdb)
    : inherited_pause * wdb :=
  if ok 4%nat then
    let d := with_marks (wm_set now PAUSE_WM_SOURCE PAUSE_WM_KEY "0" d.(w_marks)) d in
    (Inherited ih.(ih_since) ih.(ih_holder) ih.(ih_lease_age) true,
     journal_pause (ok 5%nat) now "0" ih.(ih_holder) PAUSE_ACTOR_RECONCILE d)
  else (ih, d).

(** [_load_operator_pause]: whether the new pool is paused. *)
Definition load_operator_pause (ok : nat -> bool) (now : Z) (d : wdb)
    : bool * option inherited_pause * wdb :=
  let st := operator_pause_state ok now d.(w_marks) in
  match st.(ps_paused), st.(ps_holder) with
  | true, Some holder =>
      let ih := Inherited st.(ps_since) holder st.(ps_lease_age) false in
      if bool_decide (holder = HOLDER_MACHINE) && lease_is_stale st.(ps_lease_age) then
        let '(ih, d) := release_dead_machine_pause ok now ih d in (false, Some ih, d)
      else (true, Some ih, d)
  | _, _ => (false, None, d)
  end.

(** The pause half of [WorkerPool.__init__]. *)
Definition start_pauses (ok : nat -> bool) (now : Z) (d : wdb) : pauses * wdb :=
  let '(held, ih, d) := load_operator_pause ok now d in (Pauses held false ih, d).

(** ** Pausing and resuming *)

Inductive owner := Operator | Automod.

(** [pause]. [kind] and [actor] as the caller gave them. *)
Definition pause (ok : nat -> bool) (now : Z) (paused : bool) (who : owner) (kind : string) (actor : text)
    (p : pauses) (d : wdb) : pauses * wdb :=
  match who with
  | Automod => (Pauses p.(p_operator) paused p.(p_inherited), d)
  | Operator =>
      let kind := if bool_decide (kind = HOLDER_MACHINE) then HOLDER_MACHINE else HOLDER_PERSON in
      let actor := match strip actor with [] => PAUSE_ACTOR_DEFAULT | a => encode a end in
      let value := (if paused then "1" else "0")%string in
      let transitioned := negb (Bool.eqb paused p.(p_operator)) in
      let p := Pauses paused (if paused then p.(p_automod) else false) p.(p_inherited) in
      (** The [try] block: the kind that was holding, and the watermarks it leaves. *)
      let '(held_kind, m, alive) :=
        if transitioned then
          if ok 0%nat then
            let held := holder_kind (holder_row d.(w_marks)) in
            if ok 1%nat then (held, wm_set now PAUSE_WM_SOURCE PAUSE_WM_KEY value d.(w_marks), true)
            else (held, d.(w_marks), false)
          else (HOLDER_DEFAULT, d.(w_marks), false)
        else (HOLDER_DEFAULT, d.(w_marks), true) in
      let m := if alive && paused && ok 2%nat then wm_set now PAUSE_WM_SOURCE PAUSE_WM_HOLDER_KEY kind m else m in
      let d := with_marks m d in
      (p, if transitioned then journal_pause (ok 3%nat) now value (if paused then kind else held_kind) actor d else d)
  end.

Definition is_paused (p : pauses) : bool := p.(p_operator) || p.(p_automod).

Definition paused_by (p : pauses) : list string :=
  (if p.(p_operator) then ["operator"%string] else []) ++ (if p.(p_automod) then ["automod"%string] else []).

(** [paused_since], [holder_kind] and [machine_lease_age_s]: read off the row, and only
    while this pool holds an operator's pause. *)
Definition paused_since (ok : nat -> bool) (now : Z) (p : pauses) (d : wdb) : option string :=
  if p.(p_operator) then (operator_pause_state ok now d.(w_marks)).(ps_since) else None.
Definition pool_holder_kind (ok : nat -> bool) (now : Z) (p : pauses) (d : wdb) : option string :=
  if p.(p_operator) then (operator_pause_state ok now d.(w_marks)).(ps_holder) else None.
Definition machine_lease_age_s (ok : nat -> bool) (now : Z) (p : pauses) (d : wdb) : option Z :=
  if p.(p_operator) then (operator_pause_state ok now d.(w_marks)).(ps_lease_age) else None.

(** ** Announcing what a start inherited *)

Inductive level := Info | Warning.

(** The announcement, its texts apart: its level, the kind that held, since when, and
    the lease age it quotes. *)
Record announcement := Announcement {
  an_level : level; an_kind : string; an_since : option string; an_lease : option Z
}.

(** [_announce_inherited_pause]: [sent] is whether the fan-out returns; statements 0 and
    1. What it announced, if it got that far, and the database. *)
Definition announce_inherited_pause (ok : nat -> bool) (sent : bool) (now now' : Z) (p : pauses) (d : wdb)
    : option announcement * wdb :=
  match p.(p_inherited) with
  | None => (None, d)
  | Some ih =>
      let kind := match ih.(ih_holder) with EmptyString => HOLDER_DEFAULT | k => k end in
      let a := Announcement (if ih.(ih_reconciled) then Info else Warning) kind ih.(ih_since) ih.(ih_lease_age) in
      if negb (ok 0%nat) then (None, d)
      else
        match lease_age_seconds now (wm_updated_at PAUSE_WM_SOURCE PAUSE_ANNOUNCE_WM_KEY d.(w_marks)) with
        | Some age =>
            if age <? PAUSE_ANNOUNCE_FLOOR_SECONDS * usec then (None, d)
            else if sent then
              (Some a, if ok 1%nat then with_marks (wm_set now' PAUSE_WM_SOURCE PAUSE_ANNOUNCE_WM_KEY "announced" d.(w_marks)) d else d)
            else (None, d)
        | None =>
            if sent then
              (Some a, if ok 1%nat then with_marks (wm_set now' PAUSE_WM_SOURCE PAUSE_ANNOUNCE_WM_KEY "announced" d.(w_marks)) d else d)
            else (None, d)
        end
  end.
End Pausing.
