(* ===== verification/PoolPauseFacts.v ===== *)
(** * The worker pool: what a pause promises

    Three promises of [WorkerPool.pause] and of the reload at start-up: a person's hold
    stands until an operator lifts it, a start reads its verdict off the rows alone, and
    pool and database together behave as one hold with a kind, a start and a lease. *)
From Stdlib Require Import String.
From S2P Require Import Prelude PyText Stamps QueueRows QueueOps QueueJournal PoolPause.

Local Open Scope Z_scope.

Section PauseFacts.
Context `{IsoStamps}.

(** ** Rows *)

Lemma wm_set_same now s k v m : wm_set now s k v m !! (s, k) = Some (v, iso now).
Proof. unfold wm_set, watermarks. by rewrite lookup_insert_eq. Qed.

Lemma wm_set_other now s k v m s' k' :
  (s, k) <> (s', k') -> wm_set now s k v m !! (s', k') = m !! (s', k').
Proof. intros. unfold wm_set, watermarks. by rewrite lookup_insert_ne. Qed.

Definition hold_row (m : watermarks) : option (string * string) := m !! (PAUSE_WM_SOURCE, PAUSE_WM_KEY).
Definition kind_row (m : watermarks) : option (string * string) := m !! (PAUSE_WM_SOURCE, PAUSE_WM_HOLDER_KEY).

Lemma hold_row_set now v m : hold_row (wm_set now PAUSE_WM_SOURCE PAUSE_WM_KEY v m) = Some (v, iso now).
Proof. apply wm_set_same. Qed.
Lemma kind_row_set now v m : kind_row (wm_set now PAUSE_WM_SOURCE PAUSE_WM_HOLDER_KEY v m) = Some (v, iso now).
Proof. apply wm_set_same. Qed.
Lemma hold_row_kind now v m : hold_row (wm_set now PAUSE_WM_SOURCE PAUSE_WM_HOLDER_KEY v m) = hold_row m.
Proof. by apply wm_set_other. Qed.
Lemma kind_row_hold now v m : kind_row (wm_set now PAUSE_WM_SOURCE PAUSE_WM_KEY v m) = kind_row m.
Proof. by apply wm_set_other. Qed.

Lemma pause_row_eq m : pause_row m = fst <$> hold_row m.
Proof. done. Qed.
Lemma holder_row_eq m : holder_row m = fst <$> kind_row m.
Proof. done. Qed.

Lemma journal_pause_marks ok now v k a d : w_marks (journal_pause ok now v k a d) = w_marks d.
Proof. unfold journal_pause. by destruct ok. Qed.

(** A kind as the code normalises it. *)
Lemma holder_kind_cases r : holder_kind r = HOLDER_MACHINE \/ holder_kind r = HOLDER_PERSON.
Proof. unfold holder_kind. case_bool_decide; auto. Qed.

(** ** A person's hold *)

(** The pool is held, the row says since when, and the holder row does not say a
    machine took it. *)
Record person_held (since : string) (p : pauses) (d : wdb) : Prop := {
  ph_flag : p_operator p = true;
  ph_row : hold_row (w_marks d) = Some ("1"%string, since);
  ph_kind : holder_row (w_marks d) <> Some HOLDER_MACHINE
}.

(** What may happen around a hold: an automod pause or resume; an operator's take that
    names no machine, whether or not its statements run; a restart that can read the
    rows; and anything else, on the two rows or the pool's flag, that is neither. *)
Inductive around_hold : pauses * wdb -> pauses * wdb -> Prop :=
| Around_automod ok now paused kind actor p d :
    around_hold (p, d) (pause ok now paused Automod kind actor p d)
| Around_take ok now kind actor p d :
    kind <> HOLDER_MACHINE ->
    around_hold (p, d) (pause ok now true Operator kind actor p d)
| Around_restart ok now p d :
    ok 0%nat = true -> ok 1%nat = true -> ok 2%nat = true ->
    around_hold (p, d) (start_pauses ok now d)
| Around_announce ok sent now now' p d :
    around_hold (p, d) (p, snd (announce_inherited_pause ok sent now now' p d))
| Around_other p d d' :
    hold_row (w_marks d') = hold_row (w_marks d) -> kind_row (w_marks d') = kind_row (w_marks d) ->
    around_hold (p, d) (p, d').

Lemma announce_rows ok sent now now' p d :
  let d' := snd (announce_inherited_pause ok sent now now' p d) in
  hold_row (w_marks d') = hold_row (w_marks d) /\ kind_row (w_marks d') = kind_row (w_marks d).
Proof.
  unfold announce_inherited_pause. repeat case_match; simpl; split; try reflexivity; by apply wm_set_other.
Qed.

Lemma person_state ok now since p d :
  person_held since p d -> ok 0%nat = true -> ok 1%nat = true -> ok 2%nat = true ->
  operator_pause_state ok now (w_marks d) = PauseState true (Some since) (Some HOLDER_PERSON) None.
Proof.
  intros [_ R K] E0 E1 E2. unfold operator_pause_state, wm_updated_at. rewrite E0, E1, E2. simpl.
  rewrite pause_row_eq, R. simpl. change (w_marks d !! (PAUSE_WM_SOURCE, PAUSE_WM_KEY)) with (hold_row (w_marks d)).
  rewrite R. unfold holder_kind. by rewrite (bool_decide_false _ K).
Qed.

Lemma around_person since st st' :
  around_hold st st' -> person_held since st.1 st.2 -> person_held since st'.1 st'.2.
Proof.
  intros A P. destruct A as [? ? ? ? ? p d|ok now kind actor p d Hk|ok now p d E0 E1 E2|? ? ? ? p d|p d d' E1 E2]; simpl in *.
  - by destruct P as [F R K].
  - destruct P as [F R K]. unfold pause. rewrite F. simpl. rewrite (bool_decide_false _ Hk). destruct (ok 2%nat); simpl; [|by split].
    split; [done| |]; cbn [w_marks with_marks].
    + by rewrite hold_row_kind.
    + rewrite holder_row_eq, kind_row_set. done.
  - unfold start_pauses, load_operator_pause. rewrite (person_state ok now since p d P E0 E1 E2). simpl.
    destruct P as [F R K]. by split.
  - destruct (announce_rows ok sent now now' p d) as [E1 E2]. destruct P as [F R K]. rewrite holder_row_eq in *.
    split; simpl; [done|congruence|]. by rewrite holder_row_eq, E2.
  - destruct P as [F R K]. rewrite holder_row_eq in *. split; simpl; [done|congruence|]. by rewrite holder_row_eq, E2.
Qed.

Lemma arounds_person since st st' :
  rtc around_hold st st' -> person_held since st.1 st.2 -> person_held since st'.1 st'.2.
Proof. induction 1; eauto using around_person. Qed.
End PauseFacts.

(** A person's hold stands. While a person holds the pool, whatever automod pauses
    and resumes, repeated takes (with or without a working database), announcements and
    restarts that can read the rows follow, in any order and at any distance in time,
    the pool stays paused and reports the same start and the same kind of holder. *)
Theorem person_hold_stands `{IsoStamps} since p d p' d' ok now :
  person_held since p d -> rtc around_hold (p, d) (p', d') ->
  ok 0%nat = true -> ok 1%nat = true -> ok 2%nat = true ->
  is_paused p' = true /\ "operator"%string ∈ paused_by p'
  /\ paused_since ok now p' d' = Some since
  /\ pool_holder_kind ok now p' d' = Some HOLDER_PERSON
  /\ machine_lease_age_s ok now p' d' = None.
Proof.
  intros P R E0 E1 E2. pose proof (arounds_person _ _ _ R P) as P'. simpl in P'.
  unfold is_paused, paused_by, paused_since, pool_holder_kind, machine_lease_age_s.
  rewrite (person_state ok now since p' d' P' E0 E1 E2), (ph_flag _ _ _ P'). simpl.
  split; [done|]. split; [by apply list_elem_of_here|done].
Qed.

(** ** The abstract hold *)

(** A hold as a reader of the status page understands it: since when, by what kind of
    holder, and when that holder was last heard from. *)
Record phold := PHold { h_since : Z; h_machine : bool; h_beat : Z }.
Record pspec := PSpec { s_hold : option phold; s_automod : bool }.

(** What happens to a pool: a call of [pause], or a restart. *)
Inductive pevent :=
| EvPause (now : Z) (paused : bool) (who : owner) (kind : string) (actor : text)
| EvRestart (now : Z).

Definition ev_now (e : pevent) : Z := match e with EvPause now _ _ _ _ | EvRestart now => now end.

(** One hold, taken by an operator and lifted by an operator; the promoter's pause
    beside it, lifted by either and by a restart; and a machine's hold lifted by a
    restart that finds no beat younger than five minutes. *)
Definition spec_step (e : pevent) (s : pspec) : pspec :=
  match e with
  | EvPause _ paused Automod _ _ => PSpec s.(s_hold) paused
  | EvPause now true Operator kind _ =>
      let since := match s.(s_hold) with Some h => h.(h_since) | None => now end in
      PSpec (Some (PHold since (bool_decide (kind = HOLDER_MACHINE)) now)) s.(s_automod)
  | EvPause _ false Operator _ _ => PSpec None false
  | EvRestart now =>
      PSpec (h ← s.(s_hold);
             if h.(h_machine) && (MACHINE_LEASE_STALE_SECONDS * usec <? now - h.(h_beat)) then None else Some h)
            false
  end.

Definition all_run : nat -> bool := fun _ => true.

Section Refinement.
Context `{IsoStamps}.

Definition pool_step (e : pevent) (st : pauses * wdb) : pauses * wdb :=
  match e with
  | EvPause now paused who kind actor => pause all_run now paused who kind actor st.1 st.2
  | EvRestart now => start_pauses all_run now st.2
  end.

(** The takes of the journal nothing has lifted. *)
Definition open_takes (j : journal) : list jrow := sel (open_row "1" EmptyString j.(j_rows)) j.(j_rows).

Definition kind_text (machine : bool) : string := if machine then HOLDER_MACHINE else HOLDER_PERSON.

(** What ties the pool and its rows to the abstract hold. *)
Record holds_as (st : pauses * wdb) (s : pspec) : Prop := {
  ha_flag : p_operator st.1 = bool_decide (is_Some s.(s_hold));
  ha_automod : p_automod st.1 = s.(s_automod);
  ha_rows :
    match s.(s_hold) with
    | Some h => hold_row (w_marks st.2) = Some ("1"%string, iso h.(h_since))
                /\ kind_row (w_marks st.2) = Some (kind_text h.(h_machine), iso h.(h_beat))
                /\ in_range h.(h_since) = true /\ in_range h.(h_beat) = true
    | None => pause_row (w_marks st.2) <> Some "1"%string
    end;
  ha_paired : paired "1" (w_pauses st.2);
  ha_gates : forall r, r ∈ j_rows (w_pauses st.2) -> j_gate r = EmptyString;
  ha_open : length (open_takes (w_pauses st.2)) = if s.(s_hold) then 1%nat else 0%nat
}.

(** *** The journal *)

Lemma closed_by_app t x r :
  closed_by (t ++ [x]) r = closed_by t r || bool_decide (j_hold_id x = Some (j_id r)).
Proof. unfold closed_by. rewrite existsb_app. simpl. by rewrite orb_false_r. Qed.

(** Nothing points ahead of the sequence. *)
Lemma closed_by_next j r : paired "1" j -> j_id r = j_seq j + 1 -> closed_by (j_rows j) r = false.
Proof.
  intros [P1 P2 P3 P4 P5] E. destruct (closed_by (j_rows j) r) eqn:C; [|done].
  apply closed_by_spec in C as (x & Hx & Hi). pose proof (P4 x _ Hx Hi). pose proof (P2 x Hx). lia.
Qed.

(** The row an append adds, and the rows it leaves, as the new journal reads them. *)
Lemma open_row_kept t x r :
  j_hold_id x = None -> open_row "1" EmptyString (t ++ [x]) r = open_row "1" EmptyString t r.
Proof. intros E. unfold open_row. rewrite closed_by_app, E. simpl. by rewrite orb_false_r. Qed.

Lemma open_row_new j x :
  paired "1" j -> j_id x = j_seq j + 1 -> j_hold_id x <> Some (j_id x) ->
  open_row "1" EmptyString (j_rows j ++ [x]) x
  = bool_decide (j_value x = "1"%string) && bool_decide (j_gate x = EmptyString).
Proof.
  intros P E N. unfold open_row. rewrite closed_by_app, closed_by_next by done.
  rewrite (bool_decide_false _ N). simpl. by rewrite andb_true_r.
Qed.

Lemma open_takes_take now k a j :
  paired "1" j -> length (open_takes (snd (pause_journal_append now "1" k a None j))) = S (length (open_takes j)).
Proof.
  intros P. unfold open_takes, pause_journal_append, append_row. cbn [snd j_rows].
  rewrite bool_decide_false by discriminate. rewrite sel_app, length_app.
  rewrite (sel_ext _ (open_row "1" EmptyString (j_rows j))) by (intros r _; by apply open_row_kept).
  cbn [sel]. rewrite open_row_new by done. rewrite !bool_decide_true by done. simpl. lia.
Qed.

Lemma sel_but_one p t (rows : list jrow) :
  NoDup (map j_id rows) -> t ∈ rows -> p t = true ->
  S (length (sel (fun r => p r && negb (j_id r =? j_id t)) rows)) = length (sel p rows).
Proof.
  induction rows as [|x rows IH]; simpl; [set_solver|]. intros [Nx N]%NoDup_cons [->|Ht]%elem_of_cons Hp.
  - rewrite Hp, Z.eqb_refl. simpl. do 2 f_equal. apply sel_ext. intros r Hr.
    destruct (Z.eqb_spec (j_id r) (j_id x)) as [Ei|Ei]; [|by rewrite andb_true_r].
    destruct Nx. rewrite <- Ei. by apply list_elem_of_fmap_2.
  - destruct (Z.eqb_spec (j_id x) (j_id t)) as [Ei|Ei].
    + destruct Nx. rewrite Ei. by apply list_elem_of_fmap_2.
    + rewrite andb_true_r. destruct (p x); simpl; by rewrite <- IH.
Qed.

Lemma open_takes_lift now k a j :
  paired "1" j -> length (open_takes (snd (pause_journal_append now "0" k a None j))) = pred (length (open_takes j)).
Proof.
  intros P. unfold open_takes, pause_journal_append, append_row. cbn [snd j_rows].
  rewrite bool_decide_true by done. rewrite sel_app, length_app. cbn [sel]. unfold newest_open.
  destruct (list.last (sel (open_row "1" EmptyString (j_rows j)) (j_rows j))) as [t|] eqn:L.
  - destruct (last_sel_elem _ _ _ L) as [Ht Hto]. pose proof (pr_seq _ _ P t Ht).
    rewrite open_row_new; [|done|done|simpl; intros [=]; lia]. rewrite (bool_decide_false (_ = "1"%string)) by done.
    rewrite (sel_ext _ (fun r => open_row "1" EmptyString (j_rows j) r && negb (j_id r =? j_id t))).
    + rewrite <- (sel_but_one (open_row "1" EmptyString (j_rows j)) t) by (try apply P; done). simpl. lia.
    + intros r _. unfold open_row. rewrite closed_by_app. simpl.
      destruct (Z.eqb_spec (j_id r) (j_id t)) as [Ei|Ei].
      * rewrite Ei, (bool_decide_true (Some (j_id t) = _)) by done. by rewrite orb_true_r, !andb_false_r.
      * rewrite (bool_decide_false (Some (j_id t) = _)) by congruence. by rewrite orb_false_r, andb_true_r.
  - rewrite open_row_new by done. rewrite (bool_decide_false (_ = "1"%string)) by done. apply last_None in L. rewrite L.
    simpl. rewrite Nat.add_0_r.
    rewrite (sel_ext _ (open_row "1" EmptyString (j_rows j))) by (intros r _; by apply open_row_kept). by rewrite L.
Qed.
(** *** The steps *)

Lemma lease_age_iso now t : in_range t = true -> lease_age_seconds now (Some (iso t)) = Some (now - t).
Proof.
  intros R. unfold lease_age_seconds. destruct (iso t) eqn:E; [by destruct (iso_nonempty t)|].
  rewrite <- E, iso_parse_iso by done. done.
Qed.

#[local] Arguments lease_age_seconds : simpl never.
#[local] Arguments pause_journal_append : simpl never.

Lemma kind_text_back b : holder_kind (Some (kind_text b)) = kind_text b.
Proof. by destruct b. Qed.

(** The one read every surface goes through, on rows that hold and rows that do not. *)
Lemma state_held now m h :
  hold_row m = Some ("1"%string, iso (h_since h)) -> kind_row m = Some (kind_text (h_machine h), iso (h_beat h)) ->
  in_range (h_beat h) = true ->
  operator_pause_state all_run now m
  = PauseState true (Some (iso (h_since h))) (Some (kind_text (h_machine h)))
      (if h_machine h then Some (now - h_beat h) else None).
Proof.
  intros R K B. unfold operator_pause_state, wm_updated_at. simpl.
  change (m !! (PAUSE_WM_SOURCE, PAUSE_WM_KEY)) with (hold_row m).
  change (m !! (PAUSE_WM_SOURCE, PAUSE_WM_HOLDER_KEY)) with (kind_row m).
  rewrite pause_row_eq, holder_row_eq, R, K. simpl. rewrite kind_text_back. destruct (h_machine h); [|done].
  simpl kind_text. rewrite bool_decide_true by done. by rewrite lease_age_iso.
Qed.

Lemma state_free ok now m : pause_row m <> Some "1"%string -> operator_pause_state ok now m = not_held.
Proof. intros R. unfold operator_pause_state. rewrite (bool_decide_false _ R). by destruct (ok 0%nat). Qed.

Lemma ha_gate now v k a j :
  (forall r, r ∈ j_rows j -> j_gate r = EmptyString) ->
  forall r, r ∈ j_rows (snd (pause_journal_append now v k a None j)) -> j_gate r = EmptyString.
Proof. intros G r. cbn. intros [Hr| ->%list_elem_of_singleton]%elem_of_app; auto. Qed.

(** An operator's take, of a free pool and of a held one. *)
Lemma take_holds now kind actor st s :
  in_range now = true -> holds_as st s ->
  holds_as (pool_step (EvPause now true Operator kind actor) st) (spec_step (EvPause now true Operator kind actor) s).
Proof.
  intros R [F A W P G O]. destruct st as [p d], s as [[h|] am]; simpl in *.
  - unfold pause. rewrite F. simpl. destruct W as (W1 & W2 & I1 & I2). split; simpl; try done.
    split; [by rewrite hold_row_kind|]. rewrite kind_row_set. by case_bool_decide.
  - unfold pause. rewrite F. simpl. split; simpl; try done.
    + split; [by rewrite hold_row_kind, hold_row_set|]. rewrite kind_row_set. by case_bool_decide.
    + by apply paired_pause.
    + by apply ha_gate.
    + etransitivity; [by apply open_takes_take|by rewrite O].
Qed.

(** The lift, by an operator or by a restart over a dead lease. *)
Lemma lift_journal now k a d :
  paired "1" (w_pauses d) -> (forall r, r ∈ j_rows (w_pauses d) -> j_gate r = EmptyString) ->
  length (open_takes (w_pauses d)) = 1%nat ->
  let d' := journal_pause true now "0" k a d in
  paired "1" (w_pauses d') /\ (forall r, r ∈ j_rows (w_pauses d') -> j_gate r = EmptyString)
  /\ length (open_takes (w_pauses d')) = 0%nat.
Proof.
  intros P G O. simpl. split; [by apply paired_pause|]. split; [by apply ha_gate|]. etransitivity; [by apply open_takes_lift|by rewrite O].
Qed.

Lemma resume_holds now kind actor st s :
  holds_as st s ->
  holds_as (pool_step (EvPause now false Operator kind actor) st) (spec_step (EvPause now false Operator kind actor) s).
Proof.
  intros [F A W P G O]. destruct st as [p d], s as [[h|] am]; simpl in *.
  - unfold pause. rewrite F. simpl.
    edestruct (lift_journal now) as (P' & G' & O'); [| | |split; simpl; [done|done| |exact P'|exact G'|exact O']]; try done.
    rewrite pause_row_eq, hold_row_set. done.
  - unfold pause. rewrite F. simpl. split; simpl; done.
Qed.

Lemma restart_holds now st s :
  holds_as st s -> holds_as (pool_step (EvRestart now) st) (spec_step (EvRestart now) s).
Proof.
  intros [F A W P G O]. destruct st as [p d], s as [[h|] am]; simpl in *.
  - destruct W as (W1 & W2 & I1 & I2). unfold start_pauses, load_operator_pause. rewrite (state_held now _ h) by done. simpl.
    destruct (h_machine h) eqn:M; simpl; [|split; simpl; rewrite ?M; done].
    destruct (MACHINE_LEASE_STALE_SECONDS * usec <? now - h_beat h); simpl; [|split; simpl; rewrite ?M; done].
    edestruct (lift_journal now) as (P' & G' & O'); [| | |split; simpl; [done|done| |exact P'|exact G'|exact O']]; try done.
    rewrite pause_row_eq, hold_row_set. done.
  - unfold start_pauses, load_operator_pause. rewrite state_free by done. by split.
Qed.

Lemma step_holds e st s :
  in_range (ev_now e) = true -> holds_as st s -> holds_as (pool_step e st) (spec_step e s).
Proof.
  destruct e as [now paused [|] kind actor|now]; simpl ev_now; intros R Hs.
  - destruct paused; [by apply take_holds|by apply resume_holds].
  - destruct Hs as [F A W P G O], s, paused; split; simpl in *; assumption || reflexivity.
  - by apply restart_holds.
Qed.

Lemma run_holds evs st s :
  Forall (fun e => in_range (ev_now e) = true) evs -> holds_as st s ->
  holds_as (fold_left (fun st e => pool_step e st) evs st) (fold_left (fun s e => spec_step e s) evs s).
Proof. intros F. revert st s. induction F; simpl; eauto using step_holds. Qed.

Definition new_wdb : wdb := Wdb empty_db ∅ empty_journal empty_journal.
Definition new_pool : pauses * wdb := (Pauses false false None, new_wdb).

Lemma new_holds : holds_as new_pool (PSpec None false).
Proof. split; simpl; try reflexivity; [discriminate|apply paired_empty|set_solver]. Qed.
End Refinement.

(** C11: The pool and its database are one hold. Run any calls of [pause] and any
    restarts from an empty database, every statement succeeding: the flags, the status
    page's owner, start, kind and lease age, and the number of unlifted takes in the
    hold history are those of the abstract hold - which an operator takes and lifts, a
    repeated take refreshes without moving its start, a promoter never touches, and a
    restart keeps unless a machine holds it and was last heard from more than five
    minutes ago. *)
Theorem pauses_refine `{IsoStamps} evs now :
  Forall (fun e => in_range (ev_now e) = true) evs ->
  let st := fold_left (fun st e => pool_step e st) evs new_pool in
  let s := fold_left (fun s e => spec_step e s) evs (PSpec None false) in
  is_paused st.1 = bool_decide (is_Some s.(s_hold)) || s.(s_automod)
  /\ paused_since all_run now st.1 st.2 = iso ∘ h_since <$> s.(s_hold)
  /\ pool_holder_kind all_run now st.1 st.2 = kind_text ∘ h_machine <$> s.(s_hold)
  /\ machine_lease_age_s all_run now st.1 st.2
     = (h ← s.(s_hold); if h.(h_machine) then Some (now - h.(h_beat)) else None)
  /\ length (open_takes (w_pauses st.2)) = if s.(s_hold) then 1%nat else 0%nat.
Proof.
  intros R. destruct (run_holds evs _ _ R new_holds) as [F A W _ _ O].
  cbv zeta. set (st := fold_left _ evs new_pool) in *. set (s := fold_left _ evs (PSpec None false)) in *.
  unfold is_paused, paused_since, pool_holder_kind, machine_lease_age_s. rewrite F, A.
  destruct (s_hold s) as [h|]; [|by rewrite O]. destruct W as (W1 & W2 & _ & I2).
  simpl bool_decide. rewrite (state_held now _ h) by done. by rewrite O.
Qed.

(** ** Witnesses *)

Definition t0 : Z := 1790000000 * usec.
Definition minute : Z := 60 * usec.

Lemma person_hold_stands_witness :
  let st := pause all_run t0 true Operator HOLDER_PERSON (u "alan") (Pauses false false None) new_wdb in
  let st' := start_pauses all_run (t0 + 600 * minute) (pause all_run (t0 + minute) true Automod "person" [] st.1 st.2).2 in
  is_paused st'.1 = true /\ paused_since all_run (t0 + 601 * minute) st'.1 st'.2 = Some (iso t0).
Proof.
  intros st st'.
  destruct (person_hold_stands (iso t0) st.1 st.2 st'.1 st'.2 all_run (t0 + 601 * minute)) as (A & _ & B & _); try reflexivity.
  - split; [reflexivity|vm_compute; reflexivity|vm_compute; discriminate].
  - eapply rtc_l; [apply (Around_automod all_run (t0 + minute) true "person" [])|].
    apply rtc_once, (Around_restart all_run (t0 + 600 * minute)); reflexivity.
  - split; [exact A|exact B].
Defined.

Definition sample_events : list pevent :=
  [EvPause t0 true Operator HOLDER_MACHINE (u "eval"); EvPause (t0 + minute) true Operator HOLDER_MACHINE (u "eval");
   EvRestart (t0 + 4 * minute); EvRestart (t0 + 20 * minute)].

Lemma pauses_refine_witness :
  is_paused (fold_left (fun st e => pool_step e st) sample_events new_pool).1 = false.
Proof.
  destruct (pauses_refine sample_events t0) as (A & _).
  - repeat constructor.
  - rewrite A. reflexivity.
Defined.

#[local] Arguments lease_age_seconds : simpl never.

(** A machine's beat over a person's hold makes it a machine's: the next restart that
    finds the beat old lifts what the person took. *)
Lemma beat_takes_over_person_hold `{IsoStamps} since p d now beat actor :
  person_held since p d -> in_range beat = true -> beat + MACHINE_LEASE_STALE_SECONDS * usec < now ->
  let st := pause all_run beat true Operator HOLDER_MACHINE actor p d in
  is_paused (start_pauses all_run now st.2).1 = false
  /\ pause_row (w_marks (start_pauses all_run now st.2).2) = Some "0"%string.
Proof.
  intros [F R K] B Hn. unfold pause. rewrite F. simpl. unfold start_pauses, load_operator_pause.
  unfold operator_pause_state, wm_updated_at. simpl.
  rewrite pause_row_eq, hold_row_kind, R, holder_row_eq, kind_row_set. simpl.
  rewrite wm_set_same. simpl. rewrite lease_age_iso by done. simpl.
  replace (MACHINE_LEASE_STALE_SECONDS * usec <? now - beat) with true by lia. simpl.
  by rewrite pause_row_eq, hold_row_set.
Qed.

(** A dead machine's hold whose release cannot be written: the pool starts free while
    the row still says it is held. *)
Lemma failed_release_starts_free `{IsoStamps} since beat now (ok : nat -> bool) d :
  hold_row (w_marks d) = Some ("1"%string, since) -> kind_row (w_marks d) = Some (HOLDER_MACHINE, iso beat) ->
  in_range beat = true -> beat + MACHINE_LEASE_STALE_SECONDS * usec < now ->
  (forall k, (k < 4)%nat -> ok k = true) -> ok 4%nat = false ->
  is_paused (start_pauses ok now d).1 = false /\ (start_pauses ok now d).2 = d
  /\ pause_row (w_marks d) = Some "1"%string.
Proof.
  intros R K B Hn Ho E4. unfold start_pauses, load_operator_pause, operator_pause_state, wm_updated_at.
  rewrite !(Ho _) by lia. simpl.
  change (w_marks d !! (PAUSE_WM_SOURCE, PAUSE_WM_KEY)) with (hold_row (w_marks d)).
  change (w_marks d !! (PAUSE_WM_SOURCE, PAUSE_WM_HOLDER_KEY)) with (kind_row (w_marks d)).
  rewrite pause_row_eq, holder_row_eq, R, K. simpl. rewrite lease_age_iso by done. simpl.
  replace (MACHINE_LEASE_STALE_SECONDS * usec <? now - beat) with true by lia. simpl.
  unfold release_dead_machine_pause. rewrite E4. done.
Qed.
