(* ===== verification/PoolGates.v ===== *)
(** * The worker pool: the gates a claim passes

    [workers/pool.py]: the three reasons a claim skips a source - the primary engine is
    not answering, its KV cache is over budget, an autocode round is running - the
    sampler ring the second reads ([app/engine_pressure.py]), and [_claim_holds], which
    unions them. Configuration values are JSON values converted where the code converts
    them, so a value that cannot be converted raises there. *)
From Stdlib Require Import String QArith Qround.
From S2P Require Import Prelude PyText Stamps QueueRows QueueOps QueueJournal Policy PoolPause.

Local Open Scope Z_scope.

(** Python's floats: comparison, subtraction, a decimal literal [n * 10^-k], [float(v)]
    [f"{100 * x:.0f}%"], [math.isfinite] and the microseconds of [timedelta(seconds=x)]. *)
Class PyFloat := {
  pyfloat : Type;
  flt : pyfloat -> pyfloat -> bool;
  fle : pyfloat -> pyfloat -> bool;
  fsub : pyfloat -> pyfloat -> pyfloat;
  flit : Z -> nat -> pyfloat;
  float_of : json -> outcome pyfloat;
  percent : pyfloat -> string;
  ffinite : pyfloat -> bool;
  fusec : pyfloat -> outcome Z
}.

(** Exact rationals, integers the only JSON numbers. *)
Definition exact_floats : PyFloat :=
  {| pyfloat := Q; flt a b := negb (Qle_bool b a); fle := Qle_bool; fsub a b := Qminus a b;
     flit n k := (n # Pos.pow 10 (Pos.of_nat k))%Q;
     float_of v := match v with JInt z => Ok (inject_Z z) | _ => Raise TypeError end;
     percent _ := EmptyString; ffinite _ := true; fusec x := Ok (Qround.Qfloor (x * inject_Z 1000000)) |}.

Definition nonnil {A} (l : list A) : bool := match l with [] => false | _ => true end.

Section Values.
Context `{PyNumbers}.

(** [bool(v)]. *)
Definition json_true (v : json) : bool :=
  match v with
  | JNull => false
  | JBool b => b
  | JInt z => negb (z =? 0)
  | JFloat r => negb (bool_decide (float_cmp r 0 = Some Eq))
  | JStr s => negb (bool_decide (s = EmptyString))
  | JList l => nonnil l
  | JObj fs => nonnil fs
  end.

Definition hashable (v : json) : bool := match v with JList _ | JObj _ => false | _ => true end.

(** [set(v)], what of it is a string. *)
Definition names_of (v : json) : outcome (list string) :=
  match v with
  | JList l => if forallb hashable l then Ok (omap (fun x => match x with JStr s => Some s | _ => None end) l)
               else Raise TypeError
  | JStr s => Ok (map (fun c => encode [c]) (utf8 s))
  | JObj fs => Ok (map fst fs)
  | _ => Raise TypeError
  end.

(** [cfg.get(key, default)]. *)
Definition cfg_get (k : string) (cfg : list (string * json)) (dflt : json) : json := default dflt (obj_get k cfg).
Definition cfg_enabled (cfg : list (string * json)) : bool := json_true (cfg_get "enabled" cfg (JBool true)).
End Values.

(** [sorted(set(...))]. *)
Definition sorted_set (l : list string) : list string := sort_by sle (remove_dups l).

Section Ring.
Context `{PyFloat}.

(** ** The sampler's ring ([app/engine_pressure.py]) *)

Record sample := Sample { s_t : pyfloat; s_kv : option pyfloat }.

Definition STALE_AFTER_S : pyfloat := flit 300 1.

(** [record]: append, then drop the leading samples older than the horizon. *)
Fixpoint popleft_while (p : sample -> bool) (ring : list sample) : list sample :=
  match ring with
  | [] => []
  | s :: ring' => if p s then popleft_while p ring' else ring
  end.

Definition record_sample (s : sample) (window : pyfloat) (ring : list sample) : list sample :=
  popleft_while (fun x => flt x.(s_t) (fsub s.(s_t) window)) (ring ++ [s]).

Definition latest (max_age now : pyfloat) (ring : list sample) : option sample :=
  s ← list.last ring; if fle (fsub now s.(s_t)) max_age then Some s else None.

Definition since (t0 : pyfloat) (ring : list sample) : list sample := sel (fun s => fle t0 s.(s_t)) ring.

(** [kv_percentile] at [q = qn / qd]: the nearest rank of the sorted readings. *)
Definition kv_percentile (qn qd : Z) (window now : pyfloat) (ring : list sample) : option pyfloat :=
  let vals := sort_by fle (omap s_kv (since (fsub now window) ring)) in
  match vals with
  | [] => None
  | _ => let n := Z.of_nat (length vals) in
         vals !! Z.to_nat (Z.max 0 (Z.min (n - 1) (- ((- (qn * n)) / qd) - 1)))
  end.

(** [_gate_reading]: the median over the window, given a fresh sample. The clock is
    read by each of the two calls. *)
Definition gate_reading (now now' window : pyfloat) (ring : list sample) : option pyfloat :=
  match latest STALE_AFTER_S now ring with
  | None => None
  | Some _ => kv_percentile 1 2 window now' ring
  end.
End Ring.

(** ** Constants and configuration *)

Definition ROUND_SOURCE : string := "autocode".
Definition DEFAULT_ROUND_HOLD_EXEMPT : json := JList [JStr "scheduled-task"].
Definition DEFAULT_PRIMARY_HOLD_SOURCES : json := JList [JStr ROUND_SOURCE].

(** A registered source: its [NAME], [LONG_LIVED] and [REPOLL_ON_COMPLETE]. *)
Record source_decl := SourceDecl { sd_name : string; sd_long_lived : bool; sd_repoll : bool }.
Definition registry := list source_decl.

Definition long_lived_sources (r : registry) : list string := sort_by sle (map sd_name (sel sd_long_lived r)).

(** What a slot runs, as the gates look at [_in_flight]. *)
Definition in_flight_sources := gmap Z string.

(** ** State *)

Record gate := Gate {
  gt_engaged : bool;
  gt_since : option string;
  gt_engagements : Z;
  gt_held : list string
}.
Definition gate0 : gate := Gate false None 0 [].
Definition set_held (h : list string) (g : gate) : gate := Gate g.(gt_engaged) g.(gt_since) g.(gt_engagements) h.
Definition engage (at_ : string) (h : list string) (g : gate) : gate := Gate true (Some at_) (g.(gt_engagements) + 1) h.
Definition disengage (g : gate) : gate := Gate false None g.(gt_engagements) [].

Section Gates.
Context `{IsoStamps} `{PyNumbers} `{PyFloat}.

Definition DEFAULT_KV_GATE_MAX : pyfloat := flit 60 2.
Definition DEFAULT_KV_GATE_WINDOW_S : pyfloat := flit 600 1.
Definition PRIMARY_PROBE_SECONDS : pyfloat := flit 100 1.
Definition PRIMARY_PROBE_TIMEOUT_S : pyfloat := flit 20 1.
Definition LANDING_PROBE_SECONDS : pyfloat := flit 50 1.

(** [float(cfg.get(key, default))]. *)
Definition cfg_float (k : string) (cfg : list (string * json)) (dflt : pyfloat) : outcome pyfloat :=
  match obj_get k cfg with None => Ok dflt | Some v => float_of v end.

(** The gate half of a pool's memory. *)
Record gates := Gates {
  kv_gate : gate;
  kv_usage : option pyfloat;
  round_hold : gate;
  exempt_refused : gmap string Z;
  bound_held : list string;
  primary_hold : gate;
  answering : option bool;
  last_detail : option string;
  last_probe : pyfloat;
  probing : bool;
  landing_probe : pyfloat * bool;
  landing_probe_running : bool
}.

Definition gates0 : gates :=
  Gates gate0 None gate0 ∅ [] gate0 None None (flit 0 1) false (flit 0 1, false) false.

Definition with_kv (g : gate) (v : option pyfloat) (s : gates) : gates :=
  Gates g v s.(round_hold) s.(exempt_refused) s.(bound_held) s.(primary_hold) s.(answering) s.(last_detail)
    s.(last_probe) s.(probing) s.(landing_probe) s.(landing_probe_running).
Definition with_round (g : gate) (s : gates) : gates :=
  Gates s.(kv_gate) s.(kv_usage) g s.(exempt_refused) s.(bound_held) s.(primary_hold) s.(answering) s.(last_detail)
    s.(last_probe) s.(probing) s.(landing_probe) s.(landing_probe_running).
Definition with_bound (r : gmap string Z) (b : list string) (s : gates) : gates :=
  Gates s.(kv_gate) s.(kv_usage) s.(round_hold) r b s.(primary_hold) s.(answering) s.(last_detail)
    s.(last_probe) s.(probing) s.(landing_probe) s.(landing_probe_running).
Definition with_primary (g : gate) (s : gates) : gates :=
  Gates s.(kv_gate) s.(kv_usage) s.(round_hold) s.(exempt_refused) s.(bound_held) g s.(answering) s.(last_detail)
    s.(last_probe) s.(probing) s.(landing_probe) s.(landing_probe_running).
Definition with_probe (a : option bool) (detail : option string) (at_ : pyfloat) (b : bool) (s : gates) : gates :=
  Gates s.(kv_gate) s.(kv_usage) s.(round_hold) s.(exempt_refused) s.(bound_held) s.(primary_hold) a detail
    at_ b s.(landing_probe) s.(landing_probe_running).
Definition with_landing (p : pyfloat * bool) (b : bool) (s : gates) : gates :=
  Gates s.(kv_gate) s.(kv_usage) s.(round_hold) s.(exempt_refused) s.(bound_held) s.(primary_hold) s.(answering)
    s.(last_detail) s.(last_probe) s.(probing) p b.

Definition with_holds (j : journal) (d : wdb) : wdb := Wdb d.(w_db) d.(w_marks) d.(w_pauses) j.

(** [_journal_gate]: a row that cannot be written is history lost, nothing more. *)
Definition journal_gate (ok : bool) (clk : nat -> Z) (gate_name value : string) (held : list string) (detail : string)
    (d : wdb) : wdb :=
  if ok then
    with_holds (snd (hold_journal_append (clk 1%nat) (clk 2%nat) gate_name value (Some (sort_by sle held)) detail None
                       d.(w_holds))) d
  else d.

(** What everything outside answers while one claim asks: the clocks (wall in [clk] for
    stamps and [cw_wall] for the probe's age, monotonic), the ring, the engine's
    health, the landing marker, whether the journal can be written, and what other
    slots do at the two points where this one awaits. *)
Inductive health := Unaskable (why : string) | Answered (status : option Z) | Crashed (why : string).

Record claim_world := ClaimWorld {
  cw_clk : nat -> nat -> Z;
  cw_wall : nat -> pyfloat;
  cw_mono : nat -> pyfloat;
  cw_ring : nat -> list sample;
  cw_health : health;
  cw_landing : nat -> bool;
  cw_ok : nat -> bool;
  cw_env : nat -> gates * wdb -> gates * wdb
}.

(** ** The primary reachability hold *)

(** [primary_engine_answering], and the arm that catches a probe that raised. *)
Definition primary_engine_answering (h : health) : bool * string :=
  match h with
  | Unaskable why => (true, why)
  | Answered (Some status) =>
      if status =? 200 then (true, "HTTP 200"%string)
      else (false, ("HTTP " ++ encode (show status))%string)
  | Answered None => (false, "no answer (connection refused or timed out)"%string)
  | Crashed why => (true, why)
  end.

(** The probe half of [_primary_hold_held]: whether one is due, and the state around
    the wait. A timeout that is no number is a crashed probe. *)
Definition primary_probe (w : claim_world) (cfg : list (string * json)) (s : gates) (d : wdb)
    : outcome unit * (gates * wdb) :=
  if cfg_enabled cfg && negb s.(probing) then
    match cfg_float "probe_seconds" cfg PRIMARY_PROBE_SECONDS with
    | Raise e => (Raise e, (s, d))
    | Ok every =>
        if fle every (fsub (w.(cw_wall) 0%nat) s.(last_probe)) then
          let s := with_probe s.(answering) s.(last_detail) s.(last_probe) true s in
          let '(a, detail, (s, d)) :=
            match cfg_float "probe_timeout_s" cfg PRIMARY_PROBE_TIMEOUT_S with
            | Raise _ => (true, "probe raised"%string, (s, d))
            | Ok _ => (primary_engine_answering w.(cw_health), w.(cw_env) 0%nat (s, d))
            end in
          (Ok tt, (with_probe (Some a) (Some detail) (w.(cw_wall) 1%nat) false s, d))
        else (Ok tt, (s, d))
    end
  else (Ok tt, (s, d)).

(** The decision half. *)
Definition primary_decide (ok : bool) (clk : nat -> Z) (cfg : list (string * json)) (r : registry) (s : gates) (d : wdb)
    : outcome (list string) * (gates * wdb) :=
  let detail := default "None"%string s.(last_detail) in
  if cfg_enabled cfg && bool_decide (s.(answering) = Some false) then
    match names_of (cfg_get "sources" cfg DEFAULT_PRIMARY_HOLD_SOURCES) with
    | Raise e => (Raise e, (s, d))
    | Ok named =>
        let held := sorted_set (filter (.∈ named) (long_lived_sources r)) in
        if s.(primary_hold).(gt_engaged) then (Ok held, (with_primary (set_held held s.(primary_hold)) s, d))
        else
          (Ok held, (with_primary (engage (iso (clk 0%nat)) held s.(primary_hold)) s,
                     journal_gate ok clk "primary_hold" "engage" held detail d))
    end
  else if s.(primary_hold).(gt_engaged) then
    (Ok [], (with_primary (disengage s.(primary_hold)) s,
             journal_gate ok clk "primary_hold" "release" s.(primary_hold).(gt_held) detail d))
  else (Ok [], (s, d)).

(** ** The KV gate *)

Definition kv_gate_held (ok : bool) (clk : nat -> Z) (reading : pyfloat -> option pyfloat) (cfg : list (string * json))
    (r : registry) (s : gates) (d : wdb) : outcome (list string) * (gates * wdb) :=
  let enabled := cfg_enabled cfg in
  match cfg_float "max_kv_usage" cfg DEFAULT_KV_GATE_MAX with
  | Raise e => (Raise e, (s, d))
  | Ok limit =>
      match cfg_float "window_seconds" cfg DEFAULT_KV_GATE_WINDOW_S with
      | Raise e => (Raise e, (s, d))
      | Ok window =>
          let kv := if enabled then reading window else None in
          let engaged := match kv with Some v => flt limit v | None => false end in
          let held := if engaged then long_lived_sources r else [] in
          let g := s.(kv_gate) in
          if engaged && negb g.(gt_engaged) then
            let detail := ("kv " ++ default "" (percent <$> kv) ++ " > " ++ percent limit)%string in
            (Ok held, (with_kv (engage (iso (clk 0%nat)) held g) kv s, journal_gate ok clk "kv_gate" "engage" held detail d))
          else if negb engaged && g.(gt_engaged) then
            let detail := match kv with None => "kv unknown" | Some v => "kv " ++ percent v end%string in
            (Ok held, (with_kv (disengage g) kv s, journal_gate ok clk "kv_gate" "release" g.(gt_held) detail d))
          else (Ok held, (with_kv g kv s, d))
      end
  end.

(** ** The round hold *)

(** [_refresh_landing_probe] and [_landing_in_flight]. *)
Definition refresh_landing_probe (w : claim_world) (s : gates) (d : wdb) : gates * wdb :=
  if flt (fsub (w.(cw_mono) 0%nat) s.(landing_probe).1) LANDING_PROBE_SECONDS then (s, d)
  else if s.(landing_probe_running) then (s, d)
  else
    let '(s, d) := w.(cw_env) 1%nat (with_landing s.(landing_probe) true s, d) in
    (with_landing (w.(cw_mono) 1%nat, w.(cw_landing) 0%nat) false s, d).

Definition landing_in_flight (now : pyfloat) (probe : bool) (s : gates) : bool * gates :=
  if flt (fsub now s.(landing_probe).1) LANDING_PROBE_SECONDS || s.(landing_probe_running) then
    (s.(landing_probe).2, s)
  else (probe, with_landing (now, probe) s.(landing_probe_running) s).

(** [round_hold_exempt_bound]: config's bound when it names one, the default when it
    names none, and none when what it names is empty or no mapping. [kv_median_above]
    of the default is the literal 0.60, so a bound carries its limit ready to use. *)
Record exempt_bound := ExemptBound {
  eb_sources : option json;
  eb_max_inflight : option json;
  eb_kv_above : option (outcome pyfloat)
}.

Definition not_null (v : option json) : option json := match v with Some JNull => None | v => v end.

Definition round_hold_exempt_bound (cfg : list (string * json)) : option exempt_bound :=
  match obj_get "exempt_bound" cfg with
  | None => Some (ExemptBound (Some DEFAULT_ROUND_HOLD_EXEMPT) None (Some (Ok (flit 60 2))))
  | Some (JObj ((_ :: _) as b)) =>
      Some (ExemptBound (not_null (obj_get "sources" b)) (not_null (obj_get "max_exempt_inflight" b))
              (float_of <$> not_null (obj_get "kv_median_above" b)))
  | Some _ => None
  end.

(** How many exempt jobs run beside the round. *)
Definition exempt_in_flight (exempt : list string) (flight : in_flight_sources) : Z :=
  Z.of_nat (length (sel (fun x => bool_decide (x.2 ∈ exempt) && negb (bool_decide (x.2 = ROUND_SOURCE)))
                      (map_to_list flight))).

(** The sources [_exempt_bound_held] takes back. *)
Definition exempt_tripped (reading : pyfloat -> option pyfloat) (kv_cfg cfg : list (string * json)) (exempt : list string)
    (r : registry) (flight : in_flight_sources) : outcome (list string) :=
  match round_hold_exempt_bound cfg with
  | None => Ok []
  | Some b =>
      named <-? match b.(eb_sources) with None => Ok exempt | Some v => names_of v end ;;
      let covered := filter (fun x => x ∈ exempt /\ x <> ROUND_SOURCE) named in
      over <-? match b.(eb_max_inflight) with
             | Some cap => if nonnil covered then n <-? int_of cap ;; Ok (n <=? exempt_in_flight exempt flight) else Ok false
             | None => Ok false
             end ;;
      over <-? match b.(eb_kv_above) with
             | Some limit =>
                 if nonnil covered && negb over then
                   window <-? cfg_float "window_seconds" kv_cfg DEFAULT_KV_GATE_WINDOW_S ;;
                   match reading window with
                   | None => Ok false
                   | Some kv => l <-? limit ;; Ok (flt l kv)
                   end
                 else Ok over
             | None => Ok over
             end ;;
      Ok (if over then sort_by sle (filter (.∈ covered) (map sd_name r)) else [])
  end.

(** One more refusal for every name that was not held by the bound before. *)
Definition count_refused (before tripped : list string) (refused : gmap string Z) : gmap string Z :=
  fold_left (fun m x => if bool_decide (x ∈ before) then m else <[x := default 0 (m !! x) + 1]> m) tripped refused.

Definition release_round_hold (ok : bool) (clk : nat -> Z) (s : gates) (d : wdb) : gates * wdb :=
  let s := with_bound s.(exempt_refused) [] s in
  if s.(round_hold).(gt_engaged) then
    (with_round (disengage s.(round_hold)) s,
     journal_gate ok clk "round_hold" "release" s.(round_hold).(gt_held) "round no longer in flight" d)
  else (s, d).

Definition round_hold_held (ok : bool) (clk : nat -> Z) (now : pyfloat) (probe : bool) (reading : pyfloat -> option pyfloat)
    (kv_cfg cfg : list (string * json)) (r : registry) (flight : in_flight_sources) (s : gates) (d : wdb)
    : outcome (list string) * (gates * wdb) :=
  if negb (cfg_enabled cfg) then (Ok [], release_round_hold ok clk s d)
  else
    let '(busy, s) :=
      if bool_decide (ROUND_SOURCE ∈ (map_to_list flight).*2) then (true, s) else landing_in_flight now probe s in
    if negb busy then (Ok [], release_round_hold ok clk s d)
    else
      match (exempt <-? names_of (cfg_get "exempt" cfg DEFAULT_ROUND_HOLD_EXEMPT) ;;
             let exempt := ROUND_SOURCE :: exempt in
             tripped <-? exempt_tripped reading kv_cfg cfg exempt r flight ;;
             Ok (exempt, tripped)) with
      | Raise e => (Raise e, (s, d))
      | Ok (exempt, tripped) =>
          let s := with_bound (count_refused s.(bound_held) tripped s.(exempt_refused)) tripped s in
          let held := sorted_set (filter (fun x => x ∉ exempt) (map sd_name r) ++ tripped) in
          if s.(round_hold).(gt_engaged) then (Ok held, (with_round (set_held held s.(round_hold)) s, d))
          else
            (Ok held, (with_round (engage (iso (clk 0%nat)) held s.(round_hold)) s,
                       journal_gate ok clk "round_hold" "engage" held ROUND_SOURCE d))
      end.

(** ** The union *)

Record gate_config := GateConfig {
  gc_kv : list (string * json);
  gc_round : list (string * json);
  gc_primary : list (string * json)
}.

(** [_claim_holds]. *)
Definition claim_holds (w : claim_world) (c : gate_config) (r : registry) (flight : in_flight_sources)
    (s : gates) (d : wdb) : outcome (list string) * (gates * wdb) :=
  match primary_probe w c.(gc_primary) s d with
  | (Raise e, st) => (Raise e, st)
  | (Ok _, (s, d)) =>
      match primary_decide (w.(cw_ok) 0%nat) (w.(cw_clk) 0%nat) c.(gc_primary) r s d with
      | (Raise e, st) => (Raise e, st)
      | (Ok held1, (s, d)) =>
          match kv_gate_held (w.(cw_ok) 1%nat) (w.(cw_clk) 1%nat)
                  (fun win => gate_reading (w.(cw_mono) 2%nat) (w.(cw_mono) 3%nat) win (w.(cw_ring) 0%nat)) c.(gc_kv) r s d with
          | (Raise e, st) => (Raise e, st)
          | (Ok held2, (s, d)) =>
              let '(s, d) := refresh_landing_probe w s d in
              match round_hold_held (w.(cw_ok) 2%nat) (w.(cw_clk) 2%nat) (w.(cw_mono) 4%nat) (w.(cw_landing) 1%nat)
                      (fun win => gate_reading (w.(cw_mono) 5%nat) (w.(cw_mono) 6%nat) win (w.(cw_ring) 1%nat))
                      c.(gc_kv) c.(gc_round) r flight s d with
              | (Raise e, st) => (Raise e, st)
              | (Ok held3, st) => (Ok (sorted_set (held1 ++ held2 ++ held3)), st)
              end
          end
      end
  end.

(** [held_source_names]: what the status route and the watchdog read. *)
Definition held_source_names (s : gates) : list string :=
  sorted_set (s.(round_hold).(gt_held) ++ s.(kv_gate).(gt_held) ++ s.(primary_hold).(gt_held)).
End Gates.
