(* ===== verification/PoolGatesFacts.v ===== *)
(** * The worker pool: what the gates promise

    The KV gate reads the median of the window; a claim skips exactly the sources one of
    the three gates names; what the status route reports is what the claim skipped; and
    a gate that is open holds nothing, whatever happens around it. *)
From Stdlib Require Import String QArith.
From S2P Require Import Prelude PyText Stamps QueueRows QueueOps QueueJournal Policy PoolPause PoolPauseFacts PoolGates.

Local Open Scope Z_scope.

(** ** Sorted sets *)

Lemma sle_antisym a b : sle a b = true -> sle b a = true -> a = b.
Proof. apply String.leb_antisym. Qed.

Lemma sorted_set_elem l x : x ∈ sorted_set l <-> x ∈ l.
Proof. unfold sorted_set. rewrite elem_of_sort_by. apply elem_of_remove_dups. Qed.

(** Two lists with the same members make the same sorted set. *)
Lemma sorted_set_ext l k : (forall x, x ∈ l <-> x ∈ k) -> sorted_set l = sorted_set k.
Proof.
  intros E. assert (AntiSymm (=) (fun a b => sle a b = true)) as A by (intros a b; apply sle_antisym).
  apply (StronglySorted_unique (fun a b => sle a b = true));
    [apply sort_by_sorted; [apply sle_total|apply sle_trans]..|].
  unfold sorted_set. rewrite !sort_by_perm. apply NoDup_Permutation; [apply NoDup_remove_dups..|].
  intros x. by rewrite !elem_of_remove_dups.
Qed.

Lemma sel_perm {R} (p : R -> bool) l k : l ≡ₚ k -> length (sel p l) = length (sel p k).
Proof. induction 1; simpl; try case_match; try case_match; simpl; lia. Qed.

(** ** The ring *)

Section RingFacts.
Context `{PyFloat}.

Lemma popleft_suffix p ring : exists dropped,
  ring = dropped ++ popleft_while p ring /\ Forall (fun x => p x = true) dropped
  /\ forall x, head (popleft_while p ring) = Some x -> p x = false.
Proof.
  induction ring as [|s ring (dr & E & F & Hh)]; [by exists []|]. simpl. destruct (p s) eqn:Ep.
  - exists (s :: dr). simpl. split; [by f_equal|]. split; [by constructor|done].
  - exists []. split; [done|]. split; [constructor|]. simpl. by intros x [= <-].
Qed.
End RingFacts.

(** The KV gate acts on a median. A reading is the usage of a sample inside the
    window; at least half of the window's readings are at or below it and at least half
    at or above it; and a sample no older than thirty seconds vouches for it - without
    one, or without a reading in the window, there is no reading and the gate is open. *)
Theorem gate_reading_median `{PyFloat} now now' window ring :
  (forall a b, fle a b = true \/ fle b a = true) ->
  (forall a b c, fle a b = true -> fle b c = true -> fle a c = true) ->
  let vals := omap s_kv (since (fsub now' window) ring) in
  match gate_reading now now' window ring with
  | None => vals = [] \/ forall s, list.last ring = Some s -> fle (fsub now (s_t s)) STALE_AFTER_S = false
  | Some v =>
      (exists s, s ∈ ring /\ s_kv s = Some v /\ fle (fsub now' window) (s_t s) = true)
      /\ (length vals <= 2 * length (sel (fun x => fle x v) vals))%nat
      /\ (length vals <= 2 * length (sel (fun x => fle v x) vals))%nat
      /\ exists s, list.last ring = Some s /\ fle (fsub now (s_t s)) STALE_AFTER_S = true
  end.
Proof.
  intros Tot Tr vals. unfold gate_reading, latest. destruct (list.last ring) as [s|] eqn:L; simpl; [|by right].
  destruct (fle (fsub now (s_t s)) STALE_AFTER_S) eqn:Fr; [|right; by intros s' [= <-]].
  unfold kv_percentile. fold vals. set (sv := sort_by fle vals). assert (sv ≡ₚ vals) as Pm by apply sort_by_perm.
  destruct sv as [|v0 sv0] eqn:Es; [left; by apply Permutation_nil in Pm|]. rewrite <- Es in *.
  assert (length sv = length vals) as Ll by (by rewrite Pm).
  assert (1 <= Z.of_nat (length sv)) by (rewrite Es; simpl; lia).
  set (n := Z.of_nat (length sv)) in *. set (k := Z.to_nat _).
  assert (k = Z.to_nat ((n + 1) / 2 - 1)) as Ek.
  { unfold k. f_equal. pose proof (Z.div_mod (n + 1) 2). pose proof (Z.mod_pos_bound (n + 1) 2).
    pose proof (Z.div_mod (- (1 * n)) 2). pose proof (Z.mod_pos_bound (- (1 * n)) 2). lia. }
  pose proof (Z.div_mod (n + 1) 2). pose proof (Z.mod_pos_bound (n + 1) 2).
  destruct (sv !! k) as [v|] eqn:Ev.
  2:{ apply lookup_ge_None in Ev. lia. }
  destruct (sorted_rank fle Tot sv k v) as [A B]; [by apply sort_by_sorted|done|].
  rewrite (sel_perm _ _ _ Pm) in A. rewrite (sel_perm _ _ _ Pm) in B. split; [|split; [lia|split; [lia|by exists s]]].
  assert (v ∈ vals) as Hv by (rewrite <- Pm; by eapply list_elem_of_lookup_2).
  apply list_elem_of_omap in Hv as (x & Hx & Ex). unfold since in Hx. apply elem_of_sel in Hx as [Hx Ht]. eauto.
Qed.

(** ** What a gate's memory means *)

(** An engaged gate knows since when; one that is open holds nothing. *)
Record gate_ok (g : gate) : Prop := {
  gk_since : gt_engaged g = bool_decide (is_Some (gt_since g));
  gk_open : gt_engaged g = false -> gt_held g = [];
  gk_count : 0 <= gt_engagements g;
  gk_counted : gt_engaged g = true -> 1 <= gt_engagements g
}.

Lemma gate0_ok : gate_ok gate0.
Proof. split; simpl; done. Qed.
Lemma engage_ok at_ h g : gate_ok g -> gate_ok (engage at_ h g).
Proof. intros [A B C D]. split; simpl; try done; lia. Qed.
Lemma disengage_ok g : gate_ok g -> gate_ok (disengage g).
Proof. intros [A B C D]. by split. Qed.
Lemma set_held_ok h g : gt_engaged g = true -> gate_ok g -> gate_ok (set_held h g).
Proof. intros E [A B C D]. split; simpl; try done. congruence. Qed.
#[local] Hint Resolve gate0_ok engage_ok disengage_ok set_held_ok : core.

Section GateFacts.
Context `{IsoStamps} `{PyNumbers} `{PyFloat}.

Record gates_ok (r : registry) (s : gates) : Prop := {
  go_kv : gate_ok s.(kv_gate);
  go_kv_held : gt_engaged s.(kv_gate) = true -> gt_held s.(kv_gate) = long_lived_sources r;
  go_round : gate_ok s.(round_hold);
  go_bound : forall x, x ∈ s.(bound_held) -> x ∈ gt_held s.(round_hold);
  go_primary : gate_ok s.(primary_hold)
}.

Lemma gates0_ok r : gates_ok r gates0.
Proof. by split; simpl; auto. Qed.

(** ** The verdicts, as the code's conditions put them *)

Definition probe_due (w : claim_world) (cfg : list (string * json)) (s : gates) : bool :=
  negb s.(probing) && match cfg_float "probe_seconds" cfg PRIMARY_PROBE_SECONDS with
                      | Ok every => fle every (fsub (w.(cw_wall) 0%nat) s.(last_probe))
                      | Raise _ => false
                      end.

(** The engine does not answer: by this probe when one is due, else by the last. *)
Definition engine_down (w : claim_world) (cfg : list (string * json)) (s : gates) : bool :=
  cfg_enabled cfg
  && (if probe_due w cfg s then
        match cfg_float "probe_timeout_s" cfg PRIMARY_PROBE_TIMEOUT_S with
        | Ok _ => negb (primary_engine_answering w.(cw_health)).1
        | Raise _ => false
        end
      else bool_decide (s.(answering) = Some false)).

(** The median over the configured window is above the configured limit. *)
Definition kv_over (w : claim_world) (cfg : list (string * json)) : bool :=
  cfg_enabled cfg
  && match cfg_float "max_kv_usage" cfg DEFAULT_KV_GATE_MAX, cfg_float "window_seconds" cfg DEFAULT_KV_GATE_WINDOW_S with
     | Ok limit, Ok window =>
         match gate_reading (w.(cw_mono) 2%nat) (w.(cw_mono) 3%nat) window (w.(cw_ring) 0%nat) with
         | Some v => flt limit v
         | None => false
         end
     | _, _ => false
     end.

Definition landing_seen (w : claim_world) (s : gates) (d : wdb) : bool :=
  (landing_in_flight (w.(cw_mono) 4%nat) (w.(cw_landing) 1%nat) (refresh_landing_probe w s d).1).1.

(** A round runs, or a landing does. *)
Definition round_busy (w : claim_world) (cfg : list (string * json)) (flight : in_flight_sources) (s : gates) (d : wdb)
    : bool :=
  cfg_enabled cfg && (bool_decide (ROUND_SOURCE ∈ (map_to_list flight).*2) || landing_seen w s d).

(** ** Each gate *)

Lemma with_primary_id s : with_primary s.(primary_hold) s = s.
Proof. by destruct s. Qed.
Lemma with_kv_id s : with_kv s.(kv_gate) s.(kv_usage) s = s.
Proof. by destruct s. Qed.

Lemma primary_decide_spec ok clk cfg r s d o s' d' :
  primary_decide ok clk cfg r s d = (o, (s', d')) -> gate_ok s.(primary_hold) ->
  exists g, s' = with_primary g s /\ gate_ok g
    /\ forall held, o = Ok held -> gt_held g = held
       /\ (cfg_enabled cfg && bool_decide (s.(answering) = Some false) = false -> held = [])
       /\ (cfg_enabled cfg && bool_decide (s.(answering) = Some false) = true ->
           exists named, names_of (cfg_get "sources" cfg DEFAULT_PRIMARY_HOLD_SOURCES) = Ok named
             /\ forall x, x ∈ held <-> x ∈ long_lived_sources r /\ x ∈ named).
Proof.
  unfold primary_decide. intros E G.
  destruct (cfg_enabled cfg && bool_decide (answering s = Some false)) eqn:Dn.
  - destruct (names_of _) as [named|] eqn:N.
    2:{ injection E as <- <- <-. exists (primary_hold s). rewrite with_primary_id. done. }
    destruct (gt_engaged (primary_hold s)) eqn:En; injection E as <- <- <-; eexists;
      (split; [reflexivity|]); (split; [eauto|]); intros held [= <-]; (split; [done|]); (split; [done|]); intros _;
      exists named; (split; [done|]); intros x; rewrite sorted_set_elem, list_elem_of_filter; tauto.
  - destruct (gt_engaged (primary_hold s)) eqn:En; injection E as <- <- <-.
    + exists (disengage (primary_hold s)). split; [done|]. split; [eauto|]. by intros held [= <-].
    + exists (primary_hold s). rewrite with_primary_id. split; [done|]. split; [done|]. intros held [= <-].
      split; [by apply G|done].
Qed.

Lemma kv_gate_held_spec ok clk reading cfg r s d o s' d' :
  kv_gate_held ok clk reading cfg r s d = (o, (s', d')) -> gate_ok s.(kv_gate) ->
  (gt_engaged s.(kv_gate) = true -> gt_held s.(kv_gate) = long_lived_sources r) ->
  exists g v, s' = with_kv g v s /\ gate_ok g /\ (gt_engaged g = true -> gt_held g = long_lived_sources r)
    /\ forall held, o = Ok held -> gt_held g = held
       /\ held = if cfg_enabled cfg && match cfg_float "max_kv_usage" cfg DEFAULT_KV_GATE_MAX,
                                             cfg_float "window_seconds" cfg DEFAULT_KV_GATE_WINDOW_S with
                                       | Ok limit, Ok window => match reading window with
                                                                | Some v => flt limit v
                                                                | None => false
                                                                end
                                       | _, _ => false
                                       end
                 then long_lived_sources r else [].
Proof.
  unfold kv_gate_held. intros E G Gh.
  destruct (cfg_float "max_kv_usage" _ _) as [limit|e].
  2:{ injection E as <- <- <-. exists (kv_gate s), (kv_usage s). rewrite with_kv_id. done. }
  destruct (cfg_float "window_seconds" _ _) as [window|e].
  2:{ injection E as <- <- <-. exists (kv_gate s), (kv_usage s). rewrite with_kv_id. done. }
  set (kv := if cfg_enabled cfg then reading window else None) in *.
  assert (cfg_enabled cfg && match reading window with Some v => flt limit v | None => false end
          = match kv with Some v => flt limit v | None => false end) as ->.
  { unfold kv. by destruct (cfg_enabled cfg). }
  set (eng := match kv with Some v => flt limit v | None => false end) in *.
  destruct eng, (gt_engaged (kv_gate s)) eqn:En; simpl in E; injection E as <- <- <-; do 2 eexists;
    (split; [reflexivity|]); (split; [eauto|]); (split; [try done; congruence || auto|]); intros held [= <-];
    (split; [|done]); auto. by apply G.
Qed.

Definition bound_within (s : gates) : Prop := forall x, x ∈ s.(bound_held) -> x ∈ gt_held s.(round_hold).

Lemma release_round_spec ok clk s d s' d' :
  release_round_hold ok clk s d = (s', d') -> gate_ok s.(round_hold) ->
  kv_gate s' = kv_gate s /\ primary_hold s' = primary_hold s
  /\ gate_ok (round_hold s') /\ bound_within s' /\ gt_held (round_hold s') = [].
Proof.
  unfold release_round_hold. intros E G. destruct (gt_engaged _) eqn:En; simpl in En; injection E as <- <-; simpl.
  - do 2 (split; [done|]). split; [auto|]. split; [by intros x Hx%not_elem_of_nil|done].
  - do 2 (split; [done|]). split; [done|]. split; [by intros x Hx%not_elem_of_nil|by apply G].
Qed.

Lemma landing_frame now probe s :
  let s' := (landing_in_flight now probe s).2 in
  kv_gate s' = kv_gate s /\ primary_hold s' = primary_hold s /\ round_hold s' = round_hold s /\ bound_held s' = bound_held s.
Proof. unfold landing_in_flight. by case_match. Qed.

Lemma round_hold_spec ok clk now probe reading kv_cfg cfg r flight s d o s' d' :
  round_hold_held ok clk now probe reading kv_cfg cfg r flight s d = (o, (s', d')) ->
  gate_ok s.(round_hold) -> bound_within s ->
  let busy := cfg_enabled cfg && (bool_decide (ROUND_SOURCE ∈ (map_to_list flight).*2) || (landing_in_flight now probe s).1) in
  kv_gate s' = kv_gate s /\ primary_hold s' = primary_hold s /\ gate_ok (round_hold s') /\ bound_within s'
  /\ forall held, o = Ok held -> gt_held (round_hold s') = held
     /\ (busy = false -> held = [])
     /\ (busy = true -> exists ex tr,
           names_of (cfg_get "exempt" cfg DEFAULT_ROUND_HOLD_EXEMPT) = Ok ex
           /\ exempt_tripped reading kv_cfg cfg (ROUND_SOURCE :: ex) r flight = Ok tr
           /\ forall x, x ∈ held <-> x ∈ map sd_name r /\ x ∉ ROUND_SOURCE :: ex \/ x ∈ tr).
Proof.
  unfold round_hold_held. intros E G B. destruct (cfg_enabled cfg); simpl in E.
  2:{ destruct (release_round_hold ok clk s d) as [s1 d1] eqn:R. injection E as <- <- <-.
      destruct (release_round_spec _ _ _ _ _ _ R G) as (? & ? & ? & ? & ?).
      do 4 (split; [done|]). by intros held [= <-]. }
  set (sl := if bool_decide _ then (true, s) else _) in E.
  assert (sl.1 = (bool_decide (ROUND_SOURCE ∈ (map_to_list flight).*2) || (landing_in_flight now probe s).1)
          /\ kv_gate sl.2 = kv_gate s /\ primary_hold sl.2 = primary_hold s /\ round_hold sl.2 = round_hold s
          /\ bound_held sl.2 = bound_held s) as (Eb & E1 & E2 & E3 & E4).
  { unfold sl. destruct (bool_decide _); simpl; [done|]. split; [done|]. apply landing_frame. }
  rewrite <- Eb. clearbody sl. destruct sl as [busy s1]. simpl in E1, E2, E3, E4 |- *. clear Eb.
  assert (gate_ok (round_hold s1)) as G1 by (by rewrite E3).
  assert (bound_within s1) as B1 by (intros x; rewrite E3, E4; apply B).
  rewrite <- E1, <- E2. clear s G B E1 E2 E3 E4.
  destruct busy; simpl in E.
  2:{ destruct (release_round_hold ok clk s1 d) as [s2 d2] eqn:R. injection E as <- <- <-.
      destruct (release_round_spec _ _ _ _ _ _ R G1) as (? & ? & ? & ? & ?).
      do 4 (split; [done|]). by intros held [= <-]. }
  destruct (names_of _) as [ex|e] eqn:N; simpl in E.
  2:{ injection E as <- <- <-. by do 4 (split; [done|]). }
  destruct (exempt_tripped _ _ _ _ _ _) as [tr|e] eqn:T; simpl in E.
  2:{ injection E as <- <- <-. by do 4 (split; [done|]). }
  set (held := sorted_set _) in E.
  assert (forall x, x ∈ held <-> x ∈ map sd_name r /\ x ∉ ROUND_SOURCE :: ex \/ x ∈ tr) as Hh.
  { intros x. unfold held. rewrite sorted_set_elem, elem_of_app, list_elem_of_filter. tauto. }
  destruct (gt_engaged (round_hold s1)) eqn:En; injection E as <- <- <-; simpl; (do 2 (split; [done|]));
    (split; [auto|]); (split; [intros x; simpl; rewrite Hh; auto|]); intros h [= <-];
    (do 2 (split; [done|])); intros _; by exists ex, tr.
Qed.

Lemma probe_frame w cfg s d o s' d' r :
  (forall k s d, gates_ok r s -> gates_ok r (w.(cw_env) k (s, d)).1) ->
  primary_probe w cfg s d = (o, (s', d')) -> gates_ok r s -> gates_ok r s'.
Proof.
  unfold primary_probe. intros Env E G.
  assert (forall a dt t b s, gates_ok r s -> gates_ok r (with_probe a dt t b s)) as Wp by (intros * []; by split).
  repeat (case_match; simplify_eq; try done).
  - match goal with H : cw_env _ _ _ = _ |- _ => rename H into Ev end.
    apply Wp. specialize (Env 0%nat (with_probe (answering s) (last_detail s) (last_probe s) true s) d).
    rewrite Ev in Env. auto.
  - by apply Wp, Wp.
Qed.

Lemma refresh_frame w s d r :
  (forall k s d, gates_ok r s -> gates_ok r (w.(cw_env) k (s, d)).1) ->
  gates_ok r s -> gates_ok r (refresh_landing_probe w s d).1.
Proof.
  unfold refresh_landing_probe. intros Env G.
  assert (forall p b s, gates_ok r s -> gates_ok r (with_landing p b s)) as Wl by (intros * []; by split).
  repeat (case_match; simpl; try done).
  match goal with H : cw_env _ _ _ = _ |- _ => rename H into Ev end.
  apply Wl. specialize (Env 1%nat (with_landing (landing_probe s) true s) d). rewrite Ev in Env. auto.
Qed.

(** *** With no other slot acting *)

Lemma probe_quiet w cfg s d s' d' :
  (forall k st, w.(cw_env) k st = st) -> primary_probe w cfg s d = (Ok tt, (s', d')) ->
  kv_gate s' = kv_gate s /\ primary_hold s' = primary_hold s /\ round_hold s' = round_hold s
  /\ bound_held s' = bound_held s /\ landing_probe s' = landing_probe s
  /\ landing_probe_running s' = landing_probe_running s /\ d' = d
  /\ cfg_enabled cfg && bool_decide (answering s' = Some false) = engine_down w cfg s.
Proof.
  unfold primary_probe, engine_down, probe_due. intros Q E. rewrite Q in E. revert E.
  destruct (cfg_enabled cfg) eqn:En; simpl; [|intros E; by simplify_eq].
  destruct (probing s) eqn:Pr; simpl; [intros E; by simplify_eq|].
  destruct (cfg_float "probe_seconds" _ _) as [every|]; [|done].
  destruct (fle every _); [|intros E; by simplify_eq].
  destruct (cfg_float "probe_timeout_s" _ _) as [tmo|].
  - destruct (primary_engine_answering _) as [a dt]. intros E; simplify_eq. simpl. by destruct a.
  - intros E. by simplify_eq.
Qed.

Lemma refresh_quiet w s d s' d' :
  (forall k st, w.(cw_env) k st = st) -> refresh_landing_probe w s d = (s', d') ->
  kv_gate s' = kv_gate s /\ primary_hold s' = primary_hold s /\ round_hold s' = round_hold s
  /\ bound_held s' = bound_held s.
Proof. unfold refresh_landing_probe. intros Q E. rewrite Q in E. repeat case_match; by simplify_eq. Qed.

(** The landing's verdict depends on the cached answer alone. *)
Lemma landing_seen_ext w s s' d d' :
  (forall k st, w.(cw_env) k st = st) -> landing_probe s' = landing_probe s ->
  landing_probe_running s' = landing_probe_running s -> landing_seen w s d = landing_seen w s' d'.
Proof.
  unfold landing_seen, refresh_landing_probe, landing_in_flight. intros Q E1 E2. rewrite !Q, E1, E2.
  repeat (case_match; simpl in *; try congruence).
Qed.

Lemma tripped_registered reading kv_cfg cfg ex r flight tr x :
  exempt_tripped reading kv_cfg cfg ex r flight = Ok tr -> x ∈ tr -> x ∈ map sd_name r.
Proof.
  unfold exempt_tripped. destruct (round_hold_exempt_bound cfg); [|intros [= <-]; set_solver].
  intros (named & _ & (over & _ & (over' & _ & E)%obind_ok)%obind_ok)%obind_ok. injection E as <-.
  destruct over'; [|set_solver]. rewrite elem_of_sort_by, list_elem_of_filter. tauto.
Qed.

(** *** The whole claim *)

(** Whatever a claim does to the gates, raising included, keeps them in order. *)
Lemma claim_holds_keeps w c r flight s d o s' d' :
  (forall k s d, gates_ok r s -> gates_ok r (w.(cw_env) k (s, d)).1) ->
  claim_holds w c r flight s d = (o, (s', d')) -> gates_ok r s -> gates_ok r s'.
Proof.
  unfold claim_holds. intros Env E G.
  destruct (primary_probe w (gc_primary c) s d) as [o1 [s1 d1]] eqn:E1.
  pose proof (probe_frame _ _ _ _ _ _ _ r Env E1 G) as G1. destruct o1 as [[]|e]; [|by simplify_eq].
  destruct (primary_decide _ _ _ _ s1 d1) as [o2 [s2 d2]] eqn:E2.
  destruct (primary_decide_spec _ _ _ _ _ _ _ _ _ E2 (go_primary _ _ G1)) as (g2 & -> & K2 & _).
  assert (gates_ok r (with_primary g2 s1)) as G2 by (destruct G1; by split). destruct o2 as [held1|e]; [|by simplify_eq].
  destruct (kv_gate_held _ _ _ _ _ _ d2) as [o3 [s3 d3]] eqn:E3.
  destruct (kv_gate_held_spec _ _ _ _ _ _ _ _ _ _ E3 (go_kv _ _ G2) (go_kv_held _ _ G2)) as (g3 & v3 & -> & K3 & L3 & _).
  assert (gates_ok r (with_kv g3 v3 (with_primary g2 s1))) as G3 by (destruct G2; by split).
  destruct o3 as [held2|e]; [|by simplify_eq].
  pose proof (refresh_frame w _ d3 r Env G3) as G4. destruct (refresh_landing_probe w _ d3) as [s4 d4]. simpl in G4.
  destruct (round_hold_held _ _ _ _ _ _ _ _ _ s4 d4) as [o5 [s5 d5]] eqn:E5.
  destruct (round_hold_spec _ _ _ _ _ _ _ _ _ _ _ _ _ _ E5 (go_round _ _ G4) (go_bound _ _ G4)) as (F1 & F2 & K5 & B5 & _).
  assert (gates_ok r s5) as G5 by (destruct G4; split; rewrite ?F1, ?F2; done).
  destruct o5; by simplify_eq.
Qed.
(** What a claim must skip, source by source. *)
Definition must_skip (w : claim_world) (c : gate_config) (r : registry) (flight : in_flight_sources) (s : gates) (d : wdb)
    (x : string) : Prop :=
  (engine_down w c.(gc_primary) s = true /\ x ∈ long_lived_sources r
   /\ exists named, names_of (cfg_get "sources" c.(gc_primary) DEFAULT_PRIMARY_HOLD_SOURCES) = Ok named /\ x ∈ named)
  \/ (kv_over w c.(gc_kv) = true /\ x ∈ long_lived_sources r)
  \/ (round_busy w c.(gc_round) flight s d = true /\ x ∈ map sd_name r
      /\ exists ex tr, names_of (cfg_get "exempt" c.(gc_round) DEFAULT_ROUND_HOLD_EXEMPT) = Ok ex
           /\ exempt_tripped (fun win => gate_reading (w.(cw_mono) 5%nat) (w.(cw_mono) 6%nat) win (w.(cw_ring) 1%nat))
                c.(gc_kv) c.(gc_round) (ROUND_SOURCE :: ex) r flight = Ok tr
           /\ (x ∉ ROUND_SOURCE :: ex \/ x ∈ tr)).

Lemma claim_holds_decides w c r flight s d held s' d' :
  (forall k st, w.(cw_env) k st = st) -> gates_ok r s ->
  claim_holds w c r flight s d = (Ok held, (s', d')) ->
  held_source_names s' = held /\ forall x, x ∈ held <-> must_skip w c r flight s d x.
Proof.
  intros Q G E. unfold claim_holds in E. unfold must_skip.
  destruct (primary_probe w (gc_primary c) s d) as [[[]|e] [s1 d1]] eqn:E1; [|done].
  destruct (probe_quiet _ _ _ _ _ _ Q E1) as (F1 & F2 & F3 & F4 & F5 & F6 & F7 & Dn).
  destruct (primary_decide _ _ _ _ s1 d1) as [[held1|e] [s2 d2]] eqn:E2; [|done].
  destruct (primary_decide_spec _ _ _ _ _ _ _ _ _ E2) as (g2 & -> & K2 & P2); [by rewrite F2; apply G|].
  destruct (P2 _ eq_refl) as (<- & P2n & P2y). rewrite Dn in P2n, P2y.
  destruct (kv_gate_held _ _ _ _ _ _ d2) as [[held2|e] [s3 d3]] eqn:E3; [|done].
  destruct (kv_gate_held_spec _ _ _ _ _ _ _ _ _ _ E3) as (g3 & v3 & -> & K3 & _ & P3); [simpl; rewrite F1; apply G..|].
  destruct (P3 _ eq_refl) as (<- & P3e). fold (kv_over w (gc_kv c)) in P3e.
  destruct (refresh_landing_probe w _ d3) as [s4 d4] eqn:E4.
  destruct (refresh_quiet _ _ _ _ _ Q E4) as (R1 & R2 & R3 & R4).
  destruct (round_hold_held _ _ _ _ _ _ _ _ _ s4 d4) as [[held3|e] [s5 d5]] eqn:E5; [|done]. injection E as <- <- <-.
  destruct (round_hold_spec _ _ _ _ _ _ _ _ _ _ _ _ _ _ E5) as (I1 & I2 & _ & _ & P5);
    [rewrite R3; simpl; rewrite F3; apply G|intros x; rewrite R3, R4; simpl; rewrite F3, F4; apply G|].
  destruct (P5 _ eq_refl) as (<- & P5n & P5y).
  replace (landing_in_flight _ _ s4).1 with (landing_seen w s d) in P5n, P5y.
  2:{ rewrite (landing_seen_ext w s (with_kv g3 v3 (with_primary g2 s1)) d d3 Q) by (simpl; congruence).
      unfold landing_seen. by rewrite E4. }
  fold (round_busy w (gc_round c) flight s d) in P5n, P5y. simpl in *. split.
  - unfold held_source_names. rewrite I1, I2, R1, R2. simpl. apply sorted_set_ext. intros x. rewrite !elem_of_app. tauto.
  - intros x. rewrite sorted_set_elem, !elem_of_app. f_equiv; [|f_equiv].
    + destruct (engine_down w (gc_primary c) s).
      * destruct (P2y eq_refl) as (named & N & Hx). rewrite Hx, N. split; [naive_solver|].
        intros (_ & ? & ? & [= <-] & ?). done.
      * rewrite P2n by done. set_solver.
    + rewrite P3e. destruct (kv_over w (gc_kv c)); set_solver.
    + destruct (round_busy w (gc_round c) flight s d).
      * destruct (P5y eq_refl) as (ex & tr & N & T & Hx). rewrite Hx, N. split.
        -- intros [[? ?]|Ht]; (split; [done|]); (split; [done || by eapply tripped_registered|]); exists ex, tr; auto.
        -- intros (_ & Hr & ex' & tr' & [= <-] & T' & D). rewrite T in T'. injection T' as <-. tauto.
      * rewrite P5n by done. set_solver.
Qed.
End GateFacts.

(** A claim skips exactly what the gates name, and the status page says so. With no
    other slot acting while this one waits, a source is held back if and only if the
    engine does not answer and the source is a long-lived one configured to be held for
    that; or the KV median is over its limit and the source is long-lived; or a round or
    a landing runs and the source is not exempt, or is taken back by the exemption's
    bound. The names [held_source_names] reports afterwards are the names skipped. *)
Theorem claim_holds_exact `{IsoStamps} `{PyNumbers} `{PyFloat} w c r flight s d held s' d' :
  (forall k st, w.(cw_env) k st = st) -> gates_ok r s ->
  claim_holds w c r flight s d = (Ok held, (s', d')) ->
  held_source_names s' = held /\ forall x, x ∈ held <-> must_skip w c r flight s d x.
Proof. apply claim_holds_decides. Qed.

(** ** Witnesses *)

Section Samples.
#[local] Existing Instance exact_floats.
#[local] Existing Instance plain_numbers.

Definition sample_ring : list sample :=
  [Sample (inject_Z 10) (Some (inject_Z 1)); Sample (inject_Z 20) None; Sample (inject_Z 30) (Some (inject_Z 3));
   Sample (inject_Z 40) (Some (inject_Z 2))].

Definition sample_registry : registry :=
  [SourceDecl "autocode" true true; SourceDecl "digest" false false; SourceDecl "scheduled-task" false false].

(** The engine does not answer, its last reading is high, and no round runs. *)
Definition down_world : claim_world :=
  ClaimWorld (fun _ _ => 1790000000 * usec) (fun _ => inject_Z 1000) (fun _ => inject_Z 50) (fun _ => sample_ring)
    (Answered None) (fun _ => false) (fun _ => true) (fun _ st => st).

Lemma gate_reading_median_witness :
  gate_reading (inject_Z 50) (inject_Z 50) (inject_Z 60) sample_ring = Some (inject_Z 2)
  /\ (3 <= 2 * length (sel (fun x => Qle_bool x (inject_Z 2)) [inject_Z 1; inject_Z 3; inject_Z 2]))%nat.
Proof.
  split; [reflexivity|].
  pose proof (gate_reading_median (inject_Z 50) (inject_Z 50) (inject_Z 60) sample_ring) as M.
  destruct M as (_ & A & _); [|intros a b c; simpl; rewrite !Qle_bool_iff; apply Qle_trans|exact A].
  intros a b. simpl. rewrite !Qle_bool_iff. destruct (Qlt_le_dec a b); [left; by apply Qlt_le_weak|by right].
Defined.

Lemma claim_holds_exact_witness :
  match claim_holds down_world (GateConfig [] [] []) sample_registry ∅ gates0 new_wdb with
  | (Ok held, (s', _)) => held_source_names s' = held /\ "autocode"%string ∈ held
  | _ => False
  end.
Proof.
  destruct (claim_holds down_world (GateConfig [] [] []) sample_registry ∅ gates0 new_wdb) as [[held|e] [s' d']] eqn:E;
    [|vm_compute in E; discriminate].
  destruct (claim_holds_exact down_world (GateConfig [] [] []) sample_registry ∅ gates0 new_wdb held s' d')
    as (A & B); [done|apply gates0_ok|exact E|].
  split; [exact A|]. apply B. left. split; [vm_compute; reflexivity|].
  split; [vm_compute; apply list_elem_of_here|]. eexists. split; [vm_compute; reflexivity|apply list_elem_of_here].
Defined.
End Samples.
