(* ===== verification/PoolRun.v ===== *)
(** * The worker pool: running what was claimed

    [workers/pool.py]: what a source's return means ([normalize_result] and its
    helpers), whose authority and which effects a run borrows, and one turn of
    [_worker_loop]: the gates, the claim, the run, its record and the row's fate. Every
    statement of the database may raise, other parts of the program act wherever the
    turn awaits, and an exception that leaves the turn ends the slot's task. *)
From Stdlib Require Import String QArith.
From S2P Require Import Prelude PyText Stamps QueueRows QueueOps QueueJournal Policy PoolPause PoolGates.

Local Open Scope Z_scope.

(** ** Dicts *)

(** [d[k] = v] and [{**d, k: v}]: in place when the key is there, last otherwise. *)
Fixpoint obj_put (k : string) (v : json) (fs : list (string * json)) : list (string * json) :=
  match fs with
  | [] => [(k, v)]
  | (k', v') :: fs => if String.eqb k k' then (k', v) :: fs else (k', v') :: obj_put k v fs
  end.

Definition obj_merge (fs gs : list (string * json)) : list (string * json) :=
  fold_left (fun fs '(k, v) => obj_put k v fs) gs fs.

(** ** What a source's return means *)

Inductive run_status := Success | Failed | Skipped.

Definition status_text (s : run_status) : string :=
  match s with Success => "success" | Failed => "failed" | Skipped => "skipped" end.

(** [status in RUN_STATUSES]. *)
Definition status_of (v : option json) : option run_status :=
  match v with
  | Some (JStr s) =>
      if String.eqb s "success" then Some Success
      else if String.eqb s "failed" then Some Failed
      else if String.eqb s "skipped" then Some Skipped else None
  | _ => None
  end.

Definition DEFAULT_MAX_DURATION_SECONDS : Z := 900.

Section Runs.
Context `{IsoStamps} `{JsonText} `{PyNumbers} `{PyFloat}.

Record norm := Norm {
  n_status : run_status;
  n_summary : text;
  n_artifact : string;
  n_response : text;
  n_task_id : option string;
  n_meta : list (string * json);
  n_claims : option (list json);
  n_defer : option pyfloat
}.

(** [str(v or "")] of a key that may be missing. *)
Definition str_or_blank (v : option json) : string :=
  match v with
  | Some v => if json_true v then py_str v else EmptyString
  | None => EmptyString
  end.

(** [_defer_seconds_of]: only the two errors of a value that is no number are caught. *)
Definition defer_seconds_of (result : list (string * json)) (status : run_status) : outcome (option pyfloat) :=
  match not_null (obj_get "defer_seconds" result) with
  | None => Ok None
  | Some raw =>
      match float_of raw with
      | Raise (TypeError | ValueError) => Ok None
      | Raise e => Raise e
      | Ok seconds =>
          match status with
          | Success => Ok None
          | _ => if negb (ffinite seconds) then Ok None
                 else if fle seconds (flit 0 0) then Ok None
                 else Ok (Some seconds)
          end
      end
  end.

(** [_task_id_of]: the handler's, else the payload's. *)
Definition task_id_of (item : qrow) (result : list (string * json)) : option string :=
  match not_null (obj_get "task_id" result) with
  | Some v => Some (py_str v)
  | None => payload_task_id item
  end.

(** The round a source reported, hoisted into the meta it did not put it in itself. *)
Definition hoist_round (result meta : list (string * json)) : list (string * json) :=
  match obj_get "round_id" result with
  | Some (JStr r) =>
      match strip (utf8 r), obj_get "round_id" meta with
      | (_ :: _) as t, None => obj_put "round_id" (JStr (encode t)) meta
      | _, _ => meta
      end
  | _ => meta
  end.

Definition normalize_result (item : qrow) (returned : json) : outcome norm :=
  let result := fields_of returned in
  let status :=
    match status_of (obj_get "status" result) with
    | Some s => s
    | None => match obj_get "skipped" result with
              | Some v => if json_true v then Skipped else Success
              | None => Success
              end
    end in
  let summary :=
    match utf8 (str_or_blank (obj_get "summary" result)), status with
    | [], Skipped => utf8 (str_or_blank (obj_get "skipped" result))
    | s, _ => s
    end in
  let claims := match obj_get "claims" result with Some (JList l) => Some l | _ => None end in
  defer <-? defer_seconds_of result status ;;
  let meta := match obj_get "meta" result with Some (JObj m) => m | _ => [] end in
  summary <-? shorten_summary summary SUMMARY_MAX_CHARS ;;
  Ok (Norm status summary (str_or_blank (obj_get "artifact_path" result))
        (upto (utf8 (str_or_blank (obj_get "response" result))) 50000)
        (task_id_of item result) (hoist_round result meta) claims defer).

(** ** Authority and effects *)

Definition SCHEDULED_TASK : string := "scheduled-task".

Definition grant_scope_for (item : qrow) : string :=
  if String.eqb item.(q_source) SCHEDULED_TASK then
    match payload_task_id item with
    | Some t => ("autonomy-task:" ++ t)%string
    | None => ("worker:" ++ item.(q_source))%string
    end
  else ("worker:" ++ item.(q_source))%string.

Definition effect_scope_for (item : qrow) : string :=
  ("item:" ++ item.(q_source) ++ ":" ++ encode (show item.(q_id)))%string.

(** [_bind_step_count], given the counts the run's turns reported. *)
Definition bind_step_count (turns : list Z) (meta : list (string * json)) : list (string * json) :=
  match obj_get "num_turns" meta, turns with
  | None, _ :: _ => obj_put "num_turns" (JInt (foldr Z.add 0 turns)) meta
  | _, _ => meta
  end.

(** ** One run *)

(** How [source.execute] ended. *)
Inductive exec_end :=
| Returned (result : json)
| Timed_out
| Died (name message : string)
| Cancelled.

(** What surrounds a run: its id, the clocks (microseconds, [rw_clk] wall and
    [rw_took] elapsed), the sources' config, how the source ended, what the run's turns and sessions noted,
    the evidence bundle of its claims and the gap it leaves, what a death adds to the
    meta and what [str(e)] of an error is, which statements run, and what others do to the database before each. *)
Record run_world := RunWorld {
  rw_id : string;
  rw_clk : nat -> Z;
  rw_took : Z;
  rw_cfg : list (string * list (string * json));
  rw_end : exec_end;
  rw_turns : list Z;
  rw_sessions : list string;
  rw_scratchpad : json;
  rw_bundle : list json -> outcome (json * json);
  rw_death : list (string * json);
  rw_says : exn -> string;
  rw_ok : nat -> bool;
  rw_env : nat -> wdb -> wdb
}.

Definition with_db (b : db) (d : wdb) : wdb := Wdb b d.(w_marks) d.(w_pauses) d.(w_holds).

(** Statement [k]: others act, then it runs or raises. *)
Definition at_db {A} (w : run_world) (k : nat) (f : db -> outcome A * db) (d : wdb) : outcome A * wdb :=
  let d := w.(rw_env) k d in
  if w.(rw_ok) k then let '(o, b) := f d.(w_db) in (o, with_db b d) else (Raise DatabaseError, d).

Definition the_meta (w : run_world) (meta : list (string * json)) : list (string * json) :=
  obj_put "scratchpad" w.(rw_scratchpad) (obj_put "session_ids" (JList (map JStr w.(rw_sessions))) meta).

Definition meta_text (meta : list (string * json)) : text := utf8 (dumps_ascii (JObj meta)).

Definition exn_name (e : exn) : string :=
  match e with
  | IntegrityError => "IntegrityError" | IndexError => "IndexError" | ValueError => "ValueError"
  | TypeError => "TypeError" | KeyError => "KeyError" | OverflowError => "OverflowError"
  | AttributeError => "AttributeError" | EngineError => "EngineError" | ToolDiscoveryError => "ToolDiscoveryError"
  | GrantError => "GrantError" | DatabaseError => "DatabaseError"
  | RuntimeError => "RuntimeError" | NotImplementedError => "NotImplementedError"
  end.

(** [_carry_gaps]: for a run with a task, and never raising. *)
Definition GAP_KEY_PREFIX : string := "evidence_gaps:".
Definition carry_gaps (w : run_world) (item : qrow) (task_id : option string) (gap : json) (d : wdb) : wdb :=
  let d := w.(rw_env) 1%nat d in
  match task_id with
  | Some ((String _ _) as t) =>
      if w.(rw_ok) 1%nat then
        with_marks (wm_set (w.(rw_clk) 2%nat) item.(q_source) (GAP_KEY_PREFIX ++ t)
                      (encode (upto (utf8 (dumps_ascii gap)) 4000)) d.(w_marks)) d
      else d
  | _ => d
  end.

(** The deferral, resolved at the release: [now + timedelta(seconds=...)]. *)
Definition resolve_defer (now : Z) (defer : option pyfloat) : outcome (option string) :=
  match defer with
  | None => Ok None
  | Some s =>
      us <-? fusec s ;;
      if in_range (now + us) then Ok (Some (iso (now + us))) else Raise OverflowError
  end.

(** [verify_bundle] of what a source claimed, where it claimed anything. *)
Definition bundle_of (w : run_world) (claims : option (list json)) : outcome (option (json * json)) :=
  match claims with None => Ok None | Some l => b <-? w.(rw_bundle) l ;; Ok (Some b) end.

(** The arm of a run that returned: check its claims, record it, then complete or defer
    the row. *)
Definition finish_returned (w : run_world) (item : qrow) (started : string) (result : json) (d : wdb)
    : outcome unit * wdb :=
  match normalize_result item result with
  | Raise e => (Raise e, d)
  | Ok n =>
      let meta := bind_step_count w.(rw_turns) (the_meta w n.(n_meta)) in
      match bundle_of w n.(n_claims) with
      | Raise e => (Raise e, d)
      | Ok bundle =>
      let d := match bundle with
               | Some (_, gap) => carry_gaps w item n.(n_task_id) gap d
               | None => d
               end in
      match at_db w 2%nat
              (record_run w.(rw_id) (Some item.(q_id)) item.(q_source) (status_text n.(n_status)) started
                 (iso (w.(rw_clk) 1%nat)) w.(rw_took) n.(n_summary) n.(n_artifact) n.(n_response) n.(n_task_id)
                 (meta_text meta) (match bundle with Some (b, _) => utf8 (dumps_ascii b) | None => [] end)
                 (Some item.(q_kind))) d with
      | (Raise e, d) => (Raise e, d)
      | (Ok _, d) =>
          match resolve_defer (w.(rw_clk) 3%nat) n.(n_defer) with
          | Raise e => (Raise e, d)
          | Ok defer_to =>
              at_db w 3%nat (fun b => (Ok tt, mark_completed (w.(rw_clk) 4%nat) (w.(rw_clk) 5%nat) item.(q_id) true defer_to b)) d
          end
      end
      end
  end.

(** The two arms of a run that did not: record it failed, then hand the row to the
    queue's own verdict. What raises in here leaves the turn. *)
Definition finish_failed (w : run_world) (max_attempts : Z) (item : qrow) (started : string) (error : text)
    (meta : list (string * json)) (d : wdb) : outcome unit * wdb :=
  match at_db w 4%nat
          (record_run w.(rw_id) (Some item.(q_id)) item.(q_source) "failed" started (iso (w.(rw_clk) 6%nat)) w.(rw_took)
             error EmptyString [] (payload_task_id item) (meta_text (bind_step_count w.(rw_turns) meta)) []
             (Some item.(q_kind))) d with
  | (Raise e, d) => (Raise e, d)
  | (Ok _, d) =>
      at_db w 5%nat (fun b => let '(_, b) := mark_failed (w.(rw_clk) 7%nat) (valid_cap (Some max_attempts)) item.(q_id) error (Some max_attempts) b in (Ok tt, b)) d
  end.

Definition timeout_meta (w : run_world) (max_duration : Z) : list (string * json) :=
  [("pool_timeout", JBool true); ("max_duration_seconds", JInt max_duration);
   ("session_ids", JList (map JStr w.(rw_sessions))); ("scratchpad", w.(rw_scratchpad))]%string.

Definition death_meta (w : run_world) (name : string) : list (string * json) :=
  obj_merge [("exception", JStr name); ("session_ids", JList (map JStr w.(rw_sessions)));
             ("scratchpad", w.(rw_scratchpad))]%string w.(rw_death).

(** [_repoll_on_complete]: the source is due again, or nothing; never raises. *)
Definition LAST_CHECK : string := "last_enqueue_check".
Definition repoll_on_complete (w : run_world) (source : source_decl) (d : wdb) : wdb :=
  let d := w.(rw_env) 6%nat d in
  if source.(sd_repoll) && negb (bool_decide (source.(sd_name) = EmptyString)) && w.(rw_ok) 6%nat then
    with_marks (<[(source.(sd_name), LAST_CHECK) := (iso 0, iso (w.(rw_clk) 8%nat))]> d.(w_marks)) d
  else d.

Fixpoint source_cfg (name : string) (cfg : list (string * list (string * json))) : list (string * json) :=
  match cfg with
  | [] => []
  | (n, src) :: cfg => if String.eqb n name then src else source_cfg name cfg
  end.

Definition max_duration_of (name : string) (cfg : list (string * list (string * json))) : outcome Z :=
  match obj_get "max_duration_seconds" (source_cfg name cfg) with
  | None => Ok DEFAULT_MAX_DURATION_SECONDS
  | Some v => int_of v
  end.

Definition finish (w : run_world) (max_attempts max_duration : Z) (item : qrow) (started : string) (d : wdb)
    : outcome unit * wdb :=
  let died name message d :=
    finish_failed w max_attempts item started (utf8 (name ++ ": " ++ message)) (death_meta w name) d in
  match w.(rw_end) with
  | Returned result =>
      match finish_returned w item started result d with
      | (Raise e, d) => died (exn_name e) (w.(rw_says) e) d
      | ok => ok
      end
  | Timed_out =>
      finish_failed w max_attempts item started
        (u "TimeoutError: exceeded max_duration_seconds=" ++ show max_duration) (timeout_meta w max_duration) d
  | Died name message => died name message d
  | Cancelled => (Ok tt, d)
  end.

Definition is_cancelled (e : exec_end) : bool := match e with Cancelled => true | _ => false end.

(** Everything between the claim and the next turn, and whether the slot is still
    there to take it: an exception out of the arms, or a cancellation, ends it after
    the [finally] has run; one before the [try] ends it without. *)
Definition run_item (w : run_world) (max_attempts : Z) (source : source_decl) (item : qrow)
    (st : in_flight_sources * wdb) : bool * (in_flight_sources * wdb) :=
  let '(flight, d) := st in
  match at_db w 0%nat (fun b => (Ok tt, mark_running item.(q_id) (Some w.(rw_id)) b)) d with
  | (Raise _, d) => (false, (flight, d))
  | (Ok _, d) =>
      let flight := <[item.(q_id) := item.(q_source)]> flight in
      match max_duration_of item.(q_source) w.(rw_cfg) with
      | Raise _ => (false, (flight, d))
      | Ok max_duration =>
          let '(o, d) := finish w max_attempts max_duration item (iso (w.(rw_clk) 0%nat)) (w.(rw_env) 7%nat d) in
          (match o with Ok _ => negb (is_cancelled w.(rw_end)) | Raise _ => false end,
           (delete item.(q_id) flight, repoll_on_complete w source d))
      end
  end.

(** ** One turn of the loop *)

(** The quotas of the sources' config: a value that is no number raises. *)
Fixpoint max_inflight_of (cfg : list (string * list (string * json))) : outcome (list (string * option Z)) :=
  match cfg with
  | [] => Ok []
  | (name, src) :: cfg =>
      match not_null (obj_get "max_inflight" src) with
      | None => max_inflight_of cfg
      | Some v => n <-? int_of v ;; rest <-? max_inflight_of cfg ;; Ok ((name, Some n) :: rest)
      end
  end.

Definition find_source (name : string) (r : registry) : option source_decl :=
  sel1 (fun s => String.eqb s.(sd_name) name) r.

Record turn_world := TurnWorld {
  tw_claim : claim_world;
  tw_gates : gate_config;
  tw_cfg : list (string * list (string * json));
  tw_now : Z;
  tw_clk : nat -> Z;
  tw_ok : nat -> bool;
  tw_run : qrow -> run_world
}.

(** What a slot shares: the pauses, the gates, what is in flight, and the database. *)
Record pool_state := PoolState {
  st_pauses : pauses;
  st_gates : gates;
  st_flight : in_flight_sources;
  st_db : wdb
}.

(** How a turn ends: it slept, it ran an item, or an exception ended the slot. *)
Inductive turn_end := Idle | Ran (item : qrow) | Slot_dead.

Definition worker_turn (w : turn_world) (max_attempts : Z) (r : registry) (worker_id : string) (s : pool_state)
    : turn_end * pool_state :=
  if is_paused s.(st_pauses) then (Idle, s)
  else
    match max_inflight_of w.(tw_cfg) with
    | Raise _ => (Slot_dead, s)
    | Ok quotas =>
        match claim_holds w.(tw_claim) w.(tw_gates) r s.(st_flight) s.(st_gates) s.(st_db) with
        | (Raise _, (g, d)) => (Slot_dead, PoolState s.(st_pauses) g s.(st_flight) d)
        | (Ok held, (g, d)) =>
            if negb (w.(tw_ok) 0%nat) then (Slot_dead, PoolState s.(st_pauses) g s.(st_flight) d)
            else
              match claim_next w.(tw_now) w.(tw_clk) (valid_cap (Some max_attempts)) worker_id quotas held d.(w_db) with
              | (None, b) => (Idle, PoolState s.(st_pauses) g s.(st_flight) (with_db b d))
              | (Some item, b) =>
                  let d := with_db b d in
                  match find_source item.(q_source) r with
                  | None =>
                      if w.(tw_ok) 1%nat then
                        let '(_, b) := mark_failed w.(tw_now) (valid_cap (Some max_attempts)) item.(q_id) (u "unknown source " ++ utf8 item.(q_source))
                                         (Some 0) d.(w_db) in
                        (Ran item, PoolState s.(st_pauses) g s.(st_flight) (with_db b d))
                      else (Slot_dead, PoolState s.(st_pauses) g s.(st_flight) d)
                  | Some source =>
                      let '(alive, (flight, d)) := run_item (w.(tw_run) item) max_attempts source item (s.(st_flight), d) in
                      (if alive then Ran item else Slot_dead, PoolState s.(st_pauses) g flight d)
                  end
              end
        end
    end.
End Runs.
