(* ===== verification/PoolRunFacts.v ===== *)
(** * The worker pool: what a turn promises

    A run record keeps its contract whatever a source returned; a turn starts only what
    the pauses, the gates and the queue let it; it drives the queue only along the
    relation the queue's invariants are proved for; and a run that is recorded settles
    its row. *)
From Stdlib Require Import String QArith.
From S2P Require Import Prelude PyText Stamps QueueRows QueueOps QueueInv QueueClaim QueueLife QueueJournal Policy PoolPause PoolPauseFacts PoolGates PoolGatesFacts PoolRun.

Local Open Scope Z_scope.

(** ** Dicts *)

Lemma obj_get_put k v fs k' : obj_get k' (obj_put k v fs) = if String.eqb k' k then Some v else obj_get k' fs.
Proof.
  induction fs as [|[k0 v0] fs IH]; simpl; [done|].
  destruct (String.eqb_spec k k0) as [<-|N]; simpl.
  - by destruct (String.eqb k' k).
  - rewrite IH. destruct (String.eqb_spec k' k0) as [->|]; [|done].
    by destruct (String.eqb_spec k0 k); [subst|].
Qed.

(** ** The run-record contract *)

Section Contract.
Context `{IsoStamps} `{JsonText} `{PyNumbers} `{PyFloat}.

Lemma not_null_Some v x : not_null v = Some x -> v = Some x.
Proof. by destruct v as [[]|]. Qed.

Lemma defer_seconds_spec result status o :
  defer_seconds_of result status = Ok (Some o) ->
  status <> Success /\ ffinite o = true /\ fle o (flit 0 0) = false
  /\ exists raw, obj_get "defer_seconds" result = Some raw /\ float_of raw = Ok o.
Proof.
  unfold defer_seconds_of. destruct (not_null _) as [raw|] eqn:G; [|done]. apply not_null_Some in G.
  destruct (float_of raw) as [x|[]] eqn:F; try done.
  destruct (ffinite x) eqn:Fi, (fle x (flit 0 0)) eqn:L; destruct status; try done; intros [= <-]; eauto 8.
Qed.

(** A value that is no number, a success, and a value that is not a positive finite
    number ask for nothing. *)
Lemma defer_seconds_success result o : defer_seconds_of result Success = Ok o -> o = None.
Proof.
  destruct o as [o|]; [|done]. intros E. by destruct (defer_seconds_spec _ _ _ E) as [[] _].
Qed.
End Contract.

Lemma shorten_total s : exists t, shorten_summary s SUMMARY_MAX_CHARS = Ok t /\ len t <= SUMMARY_MAX_CHARS.
Proof.
  assert (exists t, shorten_summary s SUMMARY_MAX_CHARS = Ok t) as [t E].
  { destruct (Z.leb_spec (len s) SUMMARY_MAX_CHARS) as [L|L].
    - exists s. unfold shorten_summary. by replace (len s <=? SUMMARY_MAX_CHARS) with true by lia.
    - destruct (shorten_cut s SUMMARY_MAX_CHARS) as (t & E & _); [done|done|by exists t]. }
  exists t. split; [done|]. by eapply shorten_len, E.
Qed.

Section RoundMeta.
Context `{IsoStamps} `{JsonText} `{PyNumbers} `{PyFloat}.

(** Hoisting touches no other key, and not a round the source named itself. *)
Lemma hoist_round_get result meta k :
  obj_get k (hoist_round result meta) = obj_get k meta
  \/ k = "round_id"%string /\ obj_get "round_id" meta = None
     /\ exists r, obj_get "round_id" result = Some (JStr r) /\ strip (utf8 r) <> []
        /\ obj_get k (hoist_round result meta) = Some (JStr (encode (strip (utf8 r)))).
Proof.
  unfold hoist_round. destruct (obj_get "round_id" result) as [[]|] eqn:R; try by left.
  destruct (strip (utf8 s)) as [|c t] eqn:S; [by left|].
  destruct (obj_get "round_id" meta) eqn:M; [by left|]. rewrite obj_get_put.
  destruct (String.eqb_spec k "round_id") as [->|]; [|by left]. right. split; [done|]. split; [done|].
  exists s. rewrite S. split; [done|]. by split.
Qed.
End RoundMeta.

(** C10: Whatever a source returns becomes a run record that keeps the contract. Only a
    deferral too large for a float makes it raise. Otherwise the status is the declared
    one when that is one of the three, and else skipped exactly when a [skipped] reason
    was given - so a failure is never inferred and never dropped; the summary and the
    response fit their columns; only a run that did not succeed defers, by a positive
    finite number; a run whose result names no task is its payload's; and the source's
    own meta is kept, key by key, with at most the round added. *)
Theorem normalize_result_contract `{JsonText} `{PyNumbers} `{PyFloat} item returned :
  let result := fields_of returned in
  let meta := match obj_get "meta" result with Some (JObj m) => m | _ => [] end in
  match normalize_result item returned with
  | Raise e => exists raw, obj_get "defer_seconds" result = Some raw /\ float_of raw = Raise e
                           /\ e <> TypeError /\ e <> ValueError
  | Ok n =>
      match status_of (obj_get "status" result) with
      | Some s => n_status n = s
      | None => n_status n = (if match obj_get "skipped" result with Some v => json_true v | None => false end
                              then Skipped else Success)
      end
      /\ len (n_summary n) <= SUMMARY_MAX_CHARS /\ len (n_response n) <= 50000
      /\ (forall s, n_defer n = Some s -> n_status n <> Success /\ ffinite s = true /\ fle s (flit 0 0) = false)
      /\ (not_null (obj_get "task_id" result) = None -> n_task_id n = payload_task_id item)
      /\ (forall k v, obj_get k meta = Some v -> obj_get k (n_meta n) = Some v)
      /\ (forall k, obj_get k meta = None -> obj_get k (n_meta n) = None \/ k = "round_id"%string)
  end.
Proof.
  intros result meta. unfold normalize_result. fold result meta.
  set (status := match status_of _ with Some s => s | None => _ end).
  set (summary := match utf8 _ with [] => _ | _ => _ end).
  destruct (defer_seconds_of result status) as [defer|e] eqn:D; simpl.
  2:{ unfold defer_seconds_of in D. destruct (not_null _) as [raw|] eqn:G; [|done].
      exists raw. split; [by apply not_null_Some|]. destruct (float_of raw) as [x|[]] eqn:F; try done;
        [by destruct status; repeat case_match|..]; by injection D as <-. }
  destruct (shorten_total summary) as (t & -> & Lt). simpl.
  split; [unfold status; destruct (status_of _); [done|destruct (obj_get "skipped" result); [by case_match|done]]|].
  split; [done|]. split; [by apply len_upto_le|].
  split; [intros s ->; by destruct (defer_seconds_spec _ _ _ D) as (? & ? & ? & _)|].
  split; [unfold task_id_of; by intros ->|].
  split; intros k; [intros v E|intros E]; destruct (hoist_round_get result meta k) as [->|(-> & N & _)]; auto; congruence.
Qed.

(** ** What a turn does to the queue *)

Section Protocol.
Context `{IsoStamps} `{JsonText} `{PyNumbers} `{PyFloat}.

Variable cap : Z.
Hypothesis cap_pos : 1 <= cap.

(** The row is the worker's to settle: on a database whose ids are unique. *)
Definition mine (i : Z) (b : db) : Prop := wf cap b /\ held i b.

(** What others may do while a worker runs row [i]: any methods of the queue, but not
    take the row away. *)
Definition spares (i : Z) (f : wdb -> wdb) : Prop :=
  forall d, wf cap (w_db d) ->
    rtc (qstep cap) (w_db d) (w_db (f d)) /\ (held i (w_db d) -> held i (w_db (f d))).

Lemma spares_mine i f d :
  spares i f -> mine i (w_db d) -> rtc (qstep cap) (w_db d) (w_db (f d)) /\ held i (w_db (f d)).
Proof. intros Sp [W Hh]. destruct (Sp d W) as [R K]. auto. Qed.

Lemma steps_keep d d' : rtc (qstep cap) d d' -> wf cap d -> wf cap d'.
Proof. by apply steps_wf. Qed.

Lemma update_held i p f b :
  (forall r, q_id (f r) = q_id r) -> (forall r, in_flight r = true -> in_flight (f r) = true) ->
  held i b -> held i (update p f b).
Proof.
  intros Hid Hf (row & G & F). unfold get, sel1 in G. unfold held, get, sel1, update. simpl.
  revert G. induction (queue b) as [|x t IH]; simpl; [done|].
  assert (is_id i (if p x then f x else x) = is_id i x) as E by (destruct (p x); [|done]; unfold is_id; by rewrite Hid).
  rewrite E. destruct (is_id i x) eqn:Ei; simpl; [|exact IH].
  intros [= ->]. eexists. split; [reflexivity|]. destruct (p row); auto.
Qed.

Lemma mark_running_held i rid b : held i b -> held i (mark_running i rid b).
Proof. apply update_held; [done|]. intros r. by unfold in_flight, in_state. Qed.

(** Statement [k] of a method that is a step. *)
Lemma at_db_steps {A} w k i (f : db -> outcome A * db) d o d' :
  spares i (rw_env w k) -> (forall b, mine i b -> qstep cap b (snd (f b))) ->
  mine i (w_db d) -> at_db w k f d = (o, d') -> rtc (qstep cap) (w_db d) (w_db d').
Proof.
  intros Sp Hf M. unfold at_db. destruct (spares_mine _ _ _ Sp M) as [R Hh]. set (d1 := rw_env w k d) in *.
  destruct (rw_ok w k); [|by intros [= <- <-]].
  specialize (Hf (w_db d1)). destruct (f (w_db d1)) as [o1 b1]. intros [= <- <-]. simpl.
  eapply rtc_r; [exact R|]. apply Hf. split; [by eapply steps_keep; [|apply M]|done].
Qed.

Lemma at_db_held {A} w k i (f : db -> outcome A * db) d o d' :
  spares i (rw_env w k) -> (forall b, held i b -> held i (snd (f b))) ->
  mine i (w_db d) -> at_db w k f d = (o, d') -> held i (w_db d').
Proof.
  intros Sp Hf M. unfold at_db. destruct (spares_mine _ _ _ Sp M) as [R Hh]. set (d1 := rw_env w k d) in *.
  destruct (rw_ok w k); [|by intros [= <- <-]].
  specialize (Hf (w_db d1)). destruct (f (w_db d1)) as [o1 b1]. intros [= <- <-]. simpl. by apply Hf.
Qed.

Lemma record_run_held i rid qid src st sa ca du su ap rj tid mj cj k b :
  held i b -> held i (snd (record_run rid qid src st sa ca du su ap rj tid mj cj k b)).
Proof. unfold record_run, insert_run. by repeat case_match. Qed.

Lemma mine_steps i b b' : rtc (qstep cap) b b' -> held i b' -> mine i b -> mine i b'.
Proof. intros R Hh [W _]. split; [by eapply steps_keep|done]. Qed.

Lemma at_db_raise {A} w k (f : db -> outcome A * db) d e d' i :
  spares i (rw_env w k) -> (forall b e b', f b = (Raise e, b') -> b' = b) -> mine i (w_db d) ->
  at_db w k f d = (Raise e, d') -> rtc (qstep cap) (w_db d) (w_db d') /\ held i (w_db d').
Proof.
  intros Sp Hf M. unfold at_db. destruct (spares_mine _ _ _ Sp M) as [R Hh]. set (d1 := rw_env w k d) in *.
  destruct (rw_ok w k); [|by intros [= _ <-]].
  destruct (f (w_db d1)) as [o1 b1] eqn:E. intros [= -> <-]. simpl. by rewrite (Hf _ _ _ E).
Qed.

(** The world of a run of row [i]: everything around it spares the row. *)
Definition spared (i : Z) (w : run_world) : Prop := forall k, spares i (rw_env w k).

Lemma carry_gaps_steps w item tid gap d i :
  spared i w -> mine i (w_db d) ->
  rtc (qstep cap) (w_db d) (w_db (carry_gaps w item tid gap d)) /\ held i (w_db (carry_gaps w item tid gap d)).
Proof.
  intros Sp M. destruct (spares_mine _ _ _ (Sp 1%nat) M) as [R Hh]. unfold carry_gaps. by repeat (case_match; simpl).
Qed.

Lemma record_step i w k rid qid src st sa ca du su ap rj tid mj cj kd d o d' :
  spared i w -> mine i (w_db d) ->
  at_db w k (record_run rid qid src st sa ca du su ap rj tid mj cj kd) d = (o, d') ->
  rtc (qstep cap) (w_db d) (w_db d') /\ mine i (w_db d').
Proof.
  intros Sp M E. assert (rtc (qstep cap) (w_db d) (w_db d')) as R.
  { eapply at_db_steps; [apply Sp| |exact M|exact E]. intros b _. apply step_run. }
  split; [done|]. eapply mine_steps; [done| |done].
  eapply at_db_held; [apply Sp| |exact M|exact E]. intros b. apply record_run_held.
Qed.

Lemma finish_returned_steps w item started result d o d' :
  spared (q_id item) w -> mine (q_id item) (w_db d) ->
  finish_returned w item started result d = (o, d') ->
  rtc (qstep cap) (w_db d) (w_db d') /\ (forall e, o = Raise e -> mine (q_id item) (w_db d')).
Proof.
  intros Sp M. unfold finish_returned. destruct (normalize_result item result) as [n|e]; [|by intros [= <- <-]].
  destruct (bundle_of w (n_claims n)) as [bundle|e]; [|by intros [= <- <-]].
  set (d1 := match bundle with Some _ => _ | None => d end).
  assert (rtc (qstep cap) (w_db d) (w_db d1) /\ mine (q_id item) (w_db d1)) as [R1 M1].
  { unfold d1. destruct bundle as [[b gap]|]; [|done].
    destruct (carry_gaps_steps w item (n_task_id n) gap d _ Sp M). split; [done|]. by eapply mine_steps. }
  destruct (at_db w 2 _ d1) as [o2 d2] eqn:E2. apply (record_step (q_id item)) in E2 as [R2 M2]; [|done..].
  destruct o2; [|intros [= <- <-]; split; [by etrans|done]].
  destruct (resolve_defer _ _) as [defer_to|]; [|intros [= <- <-]; split; [by etrans|done]].
  intros E3. split.
  - etrans; [exact R1|]. etrans; [exact R2|]. eapply at_db_steps; [apply Sp| |exact M2|exact E3].
    intros b [_ Hh]. by apply step_completed.
  - intros e ->. eapply at_db_raise in E3 as [R3 H3]; [|apply Sp| |exact M2]; [by eapply mine_steps|]. by intros.
Qed.

Lemma finish_failed_steps w ma item started err meta d o d' :
  cap = valid_cap (Some ma) -> spared (q_id item) w -> mine (q_id item) (w_db d) ->
  finish_failed w ma item started err meta d = (o, d') -> rtc (qstep cap) (w_db d) (w_db d').
Proof.
  intros Ec Sp M. unfold finish_failed. destruct (at_db w 4 _ d) as [o2 d2] eqn:E2.
  apply (record_step (q_id item)) in E2 as [R2 M2]; [|done..]. destruct o2; [|by intros [= _ <-]].
  intros E3. etrans; [exact R2|]. eapply at_db_steps; [apply Sp| |exact M2|exact E3].
  intros b [_ Hh]. pose proof (step_failed cap (rw_clk w 7%nat) (q_id item) err (Some ma) b Hh) as S.
  rewrite <- Ec. by destruct (mark_failed _ _ _ _ _ _).
Qed.

Lemma finish_steps w ma md item started d o d' :
  cap = valid_cap (Some ma) -> spared (q_id item) w -> mine (q_id item) (w_db d) ->
  finish w ma md item started d = (o, d') -> rtc (qstep cap) (w_db d) (w_db d').
Proof.
  intros Ec Sp M. unfold finish. destruct (rw_end w) as [result| |name msg|].
  - destruct (finish_returned w item started result d) as [[[]|e] d1] eqn:E1; apply finish_returned_steps in E1 as [R1 M1]; try done.
    + by intros [= _ <-].
    + intros E2. etrans; [exact R1|]. eapply finish_failed_steps; [done|done|by eapply M1|exact E2].
  - intros E. by eapply finish_failed_steps.
  - intros E. by eapply finish_failed_steps.
  - by intros [= _ <-].
Qed.

Lemma run_item_steps w ma source item st o st' :
  cap = valid_cap (Some ma) -> spared (q_id item) w -> mine (q_id item) (w_db st.2) ->
  run_item w ma source item st = (o, st') -> rtc (qstep cap) (w_db st.2) (w_db st'.2).
Proof.
  intros Ec Sp M. unfold run_item. destruct st as [flight d]. simpl in M |- *.
  destruct (at_db w 0 _ d) as [o1 d1] eqn:E1.
  assert (rtc (qstep cap) (w_db d) (w_db d1)) as R1.
  { eapply at_db_steps; [apply Sp| |exact M|exact E1]. intros b _. apply step_running. }
  assert (mine (q_id item) (w_db d1)) as M1.
  { eapply mine_steps; [exact R1| |exact M]. eapply at_db_held; [apply Sp| |exact M|exact E1].
    intros b. apply mark_running_held. }
  destruct o1; [|by intros [= _ <-]]. destruct (max_duration_of _ _) as [md|]; [|by intros [= _ <-]].
  destruct (spares_mine _ _ _ (Sp 7%nat) M1) as [R2 K2].
  assert (mine (q_id item) (w_db (rw_env w 7%nat d1))) as M2 by (by eapply mine_steps).
  destruct (finish w ma md item _ (rw_env w 7 d1)) as [o3 d3] eqn:E3. apply finish_steps in E3; [|done..].
  intros [= _ <-]. simpl. etrans; [exact R1|]. etrans; [exact R2|]. etrans; [exact E3|].
  destruct (Sp 6%nat d3) as [R4 _]; [|unfold repoll_on_complete; by case_match].
  eapply steps_keep; [exact E3|]. apply M2.
Qed.

(** *** The claim *)

Lemma journal_gate_db ok clk g v h dt d : w_db (journal_gate ok clk g v h dt d) = w_db d.
Proof. unfold journal_gate. by case_match. Qed.

(** The gates touch the queue only through what others do while they wait. *)
Lemma claim_holds_steps w c r flight s d o s' d' :
  (forall k st, wf cap (w_db st.2) -> rtc (qstep cap) (w_db st.2) (w_db (w.(cw_env) k st).2)) ->
  wf cap (w_db d) -> claim_holds w c r flight s d = (o, (s', d')) -> rtc (qstep cap) (w_db d) (w_db d').
Proof.
  intros Env W. unfold claim_holds. destruct (primary_probe w _ s d) as [o1 [s1 d1]] eqn:E1.
  assert (rtc (qstep cap) (w_db d) (w_db d1)) as R1.
  { unfold primary_probe in E1. repeat (case_match; simplify_eq; try done).
    match goal with H : cw_env _ _ (?s, ?d) = _ |- _ => specialize (Env 0%nat (s, d) W); rewrite H in Env; done end. }
  assert (wf cap (w_db d1)) as W1 by (by eapply steps_keep).
  destruct o1; [|by intros [= _ _ <-]].
  destruct (primary_decide _ _ _ _ s1 d1) as [o2 [s2 d2]] eqn:E2.
  assert (w_db d2 = w_db d1) as D2.
  { unfold primary_decide in E2. repeat (case_match; simplify_eq; try done); apply journal_gate_db. }
  destruct o2; [|intros [= _ _ <-]; by rewrite D2].
  destruct (kv_gate_held _ _ _ _ _ s2 d2) as [o3 [s3 d3]] eqn:E3.
  assert (w_db d3 = w_db d1) as D3.
  { rewrite <- D2. unfold kv_gate_held in E3. repeat (case_match; simplify_eq; try done); apply journal_gate_db. }
  destruct o3; [|intros [= _ _ <-]; by rewrite D3].
  destruct (refresh_landing_probe w s3 d3) as [s4 d4] eqn:E4.
  assert (rtc (qstep cap) (w_db d1) (w_db d4)) as R4.
  { rewrite <- D3 in W1 |- *. unfold refresh_landing_probe in E4. repeat (case_match; simplify_eq; try done).
    match goal with H : cw_env _ _ (?s, ?d) = _ |- _ => specialize (Env 1%nat (s, d) W1); rewrite H in Env; done end. }
  destruct (round_hold_held _ _ _ _ _ _ _ _ _ s4 d4) as [o5 [s5 d5]] eqn:E5.
  assert (w_db d5 = w_db d4) as D5.
  { unfold round_hold_held, release_round_hold in E5. repeat (case_match; simplify_eq; try done); apply journal_gate_db. }
  destruct o5; intros [= _ _ <-]; rewrite D5; by etrans.
Qed.

(** A row just claimed is the worker's. *)
Lemma claim_mine now clk w q ex d item b :
  wf cap d -> claim_next now clk cap w q ex d = (Some item, b) -> mine (q_id item) b.
Proof.
  intros W E. assert (wf cap b) as Wb.
  { change b with (snd (Some item, b)). rewrite <- E. by apply wf_claim_next. }
  split; [done|]. apply claim_next_spec in E; [|lia|done].
  destruct E as (row & i & _ & _ & -> & (l1 & l2 & m1 & m2 & _ & Q & _) & _).
  eexists. split; [apply (get_unique cap); [done|]; rewrite Q; apply elem_of_app; right; by left|done].
Qed.

Record fair_turn (w : turn_world) : Prop := {
  ft_claim : forall k st, wf cap (w_db st.2) -> rtc (qstep cap) (w_db st.2) (w_db (w.(tw_claim).(cw_env) k st).2);
  ft_run : forall item, spared (q_id item) (w.(tw_run) item)
}.

Lemma worker_turn_steps w ma r worker_id s o s' :
  cap = valid_cap (Some ma) -> fair_turn w -> wf cap (w_db s.(st_db)) ->
  worker_turn w ma r worker_id s = (o, s') -> rtc (qstep cap) (w_db s.(st_db)) (w_db s'.(st_db)).
Proof.
  intros Ec [F1 F2] W. unfold worker_turn. rewrite <- Ec.
  destruct (is_paused _); [by intros [= _ <-]|]. destruct (max_inflight_of _) as [q|]; [|by intros [= _ <-]].
  destruct (claim_holds _ _ _ _ _ (st_db s)) as [[ex|e] [g d]] eqn:E; apply claim_holds_steps in E as R; try done;
    [|by intros [= _ <-]].
  destruct (tw_ok w 0); cbn [negb]; [|by intros [= _ <-]].
  assert (wf cap (w_db d)) as Wd by (by eapply steps_keep).
  destruct (claim_next _ _ _ _ _ _ (w_db d)) as [[item|] b] eqn:C.
  2:{ intros [= _ <-]. simpl. eapply rtc_r; [exact R|].
      change b with (snd (@None qrow, b)). rewrite <- C. apply step_claim. }
  assert (rtc (qstep cap) (w_db (st_db s)) b) as Rb.
  { eapply rtc_r; [exact R|]. change b with (snd (Some item, b)). rewrite <- C. apply step_claim. }
  pose proof (claim_mine _ _ _ _ _ _ _ _ Wd C) as M.
  destruct (find_source _ r) as [source|].
  - destruct (run_item (tw_run w item) ma source item (st_flight s, with_db b d)) as [alive [flight d1]] eqn:E1.
    intros Et. injection Et as _ <-. simpl.
    etrans; [exact Rb|].
    exact (run_item_steps (tw_run w item) ma source item (st_flight s, with_db b d) alive (flight, d1) Ec (F2 item) M E1).
  - destruct (tw_ok w 1); simpl; [|by intros [= _ <-]].
    pose proof (step_failed cap (tw_now w) (q_id item) (u "unknown source " ++ utf8 (q_source item)) (Some 0) b (proj2 M)) as S.
    destruct (mark_failed _ _ _ _ _ _) as [fr b1]. intros [= _ <-]. simpl. by eapply rtc_r.
Qed.
End Protocol.

(** C7: The pool drives the queue only along its protocol. From a reachable queue, one
    turn of a slot - whatever the source returned or raised, whichever statements would
    not run, even a turn whose exception ends the slot - leaves a reachable queue,
    provided the others that act while it waits call the queue's methods too and leave
    the row it runs in flight. Everything proved of reachable queues therefore holds
    of the pool's, at every turn. *)
Theorem pool_refines_queue `{IsoStamps} `{JsonText} `{PyNumbers} `{PyFloat} w max_attempts r worker_id s o s' :
  let cap := valid_cap (Some max_attempts) in
  fair_turn cap w -> reachable cap (w_db s.(st_db)) ->
  worker_turn w max_attempts r worker_id s = (o, s') ->
  reachable cap (w_db s'.(st_db)) /\ wf cap (w_db s'.(st_db)).
Proof.
  intros cap F R E. assert (1 <= cap) as Hc by (unfold cap, valid_cap; case_match; lia).
  assert (forall d, reachable cap d -> wf cap d) as Rw by (intros d Rd; eapply steps_wf; [done|exact Rd|apply wf_empty]).
  assert (reachable cap (w_db (st_db s'))) as R'.
  { unfold reachable in *. etrans; [exact R|]. eapply worker_turn_steps; [exact Hc|reflexivity|exact F|by apply Rw|exact E]. }
  split; [done|by apply Rw].
Qed.

(** ** What a turn starts *)

Section Admission.
Context `{IsoStamps} `{JsonText} `{PyNumbers} `{PyFloat}.

Lemma claim_holds_db w c r flight s d o s' d' :
  (forall k st, w.(cw_env) k st = st) -> claim_holds w c r flight s d = (o, (s', d')) -> w_db d' = w_db d.
Proof.
  intros Q. unfold claim_holds. destruct (primary_probe w _ s d) as [o1 [s1 d1]] eqn:E1.
  assert (d1 = d) as ->.
  { unfold primary_probe in E1. rewrite Q in E1. by repeat (case_match; simplify_eq). }
  destruct o1; [|by intros [= _ _ <-]].
  destruct (primary_decide _ _ _ _ s1 d) as [o2 [s2 d2]] eqn:E2.
  assert (w_db d2 = w_db d) as D2.
  { unfold primary_decide in E2. repeat (case_match; simplify_eq; try done); apply journal_gate_db. }
  destruct o2; [|by intros [= _ _ <-]].
  destruct (kv_gate_held _ _ _ _ _ s2 d2) as [o3 [s3 d3]] eqn:E3.
  assert (w_db d3 = w_db d) as D3.
  { rewrite <- D2. unfold kv_gate_held in E3. repeat (case_match; simplify_eq; try done); apply journal_gate_db. }
  destruct o3; [|by intros [= _ _ <-]].
  destruct (refresh_landing_probe w s3 d3) as [s4 d4] eqn:E4.
  assert (d4 = d3) as ->.
  { unfold refresh_landing_probe in E4. rewrite Q in E4. by repeat (case_match; simplify_eq). }
  destruct (round_hold_held _ _ _ _ _ _ _ _ _ s4 d3) as [o5 [s5 d5]] eqn:E5.
  assert (w_db d5 = w_db d3) as D5.
  { unfold round_hold_held, release_round_hold in E5. repeat (case_match; simplify_eq; try done); apply journal_gate_db. }
  destruct o5; intros [= _ _ <-]; congruence.
Qed.

(** The claim a turn that runs an item made. *)
Lemma turn_claim w ma r wid s item s' :
  worker_turn w ma r wid s = (Ran item, s') ->
  is_paused s.(st_pauses) = false /\ exists q held g d b,
    max_inflight_of w.(tw_cfg) = Ok q
    /\ claim_holds w.(tw_claim) w.(tw_gates) r s.(st_flight) s.(st_gates) s.(st_db) = (Ok held, (g, d))
    /\ st_gates s' = g
    /\ claim_next w.(tw_now) w.(tw_clk) (valid_cap (Some ma)) wid q held (w_db d) = (Some item, b).
Proof.
  unfold worker_turn. destruct (is_paused _); [done|]. destruct (max_inflight_of _) as [q|]; [|done].
  destruct (claim_holds _ _ _ _ _ (st_db s)) as [[held|e] [g d]] eqn:E; [|done].
  destruct (tw_ok w 0); cbn [negb]; [|done].
  destruct (claim_next _ _ _ _ _ _ (w_db d)) as [[item'|] b] eqn:C; [|done].
  intros T. split; [done|]. exists q, held, g, d, b. split; [done|]. split; [done|].
  destruct (find_source _ r) as [source|].
  - destruct (run_item (tw_run w item') ma source item' (st_flight s, with_db b d)) as [[] [flight d1]]; [|done].
    by injection T as <- <-.
  - destruct (tw_ok w 1); [|done]. destruct (mark_failed _ _ _ _ _ _) as [fr b1]. by injection T as <- <-.
Qed.
End Admission.

(** C8: A slot starts only what everything admits. When a turn runs an item and nobody
    else acted while it asked the gates: the pool was not paused; no gate says its
    source must be skipped, and the status page does not list it; its source was under
    its configured quota; and the item is a row that was queued and due, stamped with
    the claim, its attempts counted and within the ceiling. *)
Theorem turn_starts_admitted `{IsoStamps} `{JsonText} `{PyNumbers} `{PyFloat} w max_attempts r worker_id s item s' :
  (forall k st, w.(tw_claim).(cw_env) k st = st) -> gates_ok r s.(st_gates) ->
  wf (valid_cap (Some max_attempts)) (w_db s.(st_db)) ->
  worker_turn w max_attempts r worker_id s = (Ran item, s') ->
  is_paused s.(st_pauses) = false
  /\ ~ must_skip w.(tw_claim) w.(tw_gates) r s.(st_flight) s.(st_gates) s.(st_db) (q_source item)
  /\ q_source item ∉ held_source_names s'.(st_gates)
  /\ (forall q n, max_inflight_of w.(tw_cfg) = Ok q -> (q_source item, Some n) ∈ q ->
        inflight_count (q_source item) (w_db s.(st_db)) < n)
  /\ exists row t, row ∈ queue (w_db s.(st_db)) /\ item = claimed t worker_id row /\ q_state row = Queued
       /\ (forall nb, q_not_before row = Some nb -> sle nb (iso w.(tw_now)) = true)
       /\ 1 <= q_attempts item <= valid_cap (Some max_attempts).
Proof.
  intros Q G W T. apply turn_claim in T as (P & q & held & g & d & b & Eq & Eh & Eg & C).
  pose proof (claim_holds_db _ _ _ _ _ _ _ _ _ Q Eh) as Ed. rewrite Ed in C.
  assert (1 <= valid_cap (Some max_attempts)) as Hc by (unfold valid_cap; case_match; lia).
  revert W C Hc. generalize (valid_cap (Some max_attempts)). intros cap W C Hc.
  destruct (claim_holds_decides _ _ _ _ _ _ _ _ _ Q G Eh) as [St Hx].
  apply claim_next_spec in C; [|lia|done].
  destruct C as (row & i & Hin & He & -> & _ & _).
  unfold eligible, claimable, in_state in He. bool_simp. change (q_source (claimed _ _ row)) with (q_source row).
  assert (q_source row ∉ saturated q (w_db (st_db s)) /\ q_source row ∉ held) as [Hs Hh] by set_solver.
  split; [done|]. split; [by rewrite <- Hx|]. rewrite Eg, St. split; [done|].
  split; [intros q' n Eq' Hn; assert (q' = q) as -> by congruence; by eapply not_saturated|].
  exists row, (tw_clk w (2 * i + 1)%nat). split; [done|]. split; [done|]. split; [done|]. split.
  { intros nb Hnb. by rewrite Hnb in *. }
  destruct W as [_ _ _ W _]. rewrite Forall_forall in W. specialize (W row Hin) as [Ha _]. simpl. lia.
Qed.

(** ** How a run settles its row *)

Section Settle.
Context `{IsoStamps} `{JsonText} `{PyNumbers} `{PyFloat}.

Lemma get_update i p f b row :
  (forall r, q_id (f r) = q_id r) -> get i b = Some row ->
  get i (update p f b) = Some (if p row then f row else row).
Proof.
  intros Hid. unfold get, sel1, update. simpl. induction (queue b) as [|x t IH]; simpl; [done|].
  assert (is_id i (if p x then f x else x) = is_id i x) as -> by (destruct (p x); [|done]; unfold is_id; by rewrite Hid).
  destruct (is_id i x); simpl; [by intros [= ->]|exact IH].
Qed.

Lemma get_update_other i j p f b :
  (forall r, q_id (f r) = q_id r) -> (forall r, p r = true -> q_id r = j) -> i <> j ->
  get i (update p f b) = get i b.
Proof.
  intros Hid Hp N. unfold get, sel1, update. simpl. induction (queue b) as [|x t IH]; simpl; [done|].
  destruct (p x) eqn:E; [|destruct (is_id i x); [done|exact IH]].
  specialize (Hp _ E). unfold is_id in *. rewrite Hid. destruct (Z.eqb_spec (q_id x) i); [congruence|exact IH].
Qed.

(** Statements in a world where everything runs and nobody else acts. *)
Definition calm (w : run_world) : Prop := (forall k d, w.(rw_env) k d = d) /\ forall k, w.(rw_ok) k = true.

Lemma at_db_calm {A} w k (f : db -> outcome A * db) d :
  calm w -> at_db w k f d = ((f (w_db d)).1, with_db (f (w_db d)).2 d).
Proof. intros [Q K]. unfold at_db. rewrite Q, K. by destruct (f (w_db d)). Qed.

Lemma with_db_get b d : w_db (with_db b d) = b.
Proof. done. Qed.

(** A fresh run is written, last. *)
Lemma record_fresh rid qid src st sa ca du su ap rj tid mj cj k b :
  rid ∉ run_ids b ->
  exists run, record_run rid qid src st sa ca du su ap rj tid mj cj k b = (Ok tt, Db b.(queue) b.(seq) (b.(runs) ++ [run]))
    /\ run_id run = rid /\ r_queue_id run = qid /\ r_source run = src /\ r_status run = st /\ r_started_at run = sa
    /\ r_kind run = k /\ r_task_id run = tid.
Proof.
  intros N. unfold record_run, insert_run. destruct (shorten_total su) as (t & -> & _).
  destruct (existsb _ _) eqn:Ex; [by apply existsb_run in Ex|]. eexists. split; [reflexivity|done].
Qed.

Lemma record_again rid qid src st sa ca du su ap rj tid mj cj k b :
  rid ∈ run_ids b -> record_run rid qid src st sa ca du su ap rj tid mj cj k b = (Raise IntegrityError, b).
Proof.
  intros N. unfold record_run, insert_run. destruct (shorten_total su) as (t & -> & _).
  destruct (existsb _ _) eqn:Ex; [done|]. by apply existsb_run in N; congruence.
Qed.

(** What one settled attempt leaves: its run last, its row out of flight, every other
    row as it was. *)
Record settled (w : run_world) (item : qrow) (status : string) (state : qstate) (b b' : db) : Prop := {
  se_run : exists run, b'.(runs) = b.(runs) ++ [run] /\ run_id run = rw_id w /\ r_queue_id run = Some (q_id item)
             /\ r_source run = q_source item /\ r_kind run = Some (q_kind item) /\ r_status run = status
             /\ r_started_at run = iso (rw_clk w 0%nat);
  se_row : exists row, get (q_id item) b' = Some row /\ q_state row = state /\ q_attempts row = q_attempts item;
  se_others : forall j, j <> q_id item -> get j b' = get j b
}.

Lemma get_same_queue j b b' : queue b' = queue b -> get j b' = get j b.
Proof. unfold get. by intros ->. Qed.

Lemma completed_settles now stamp nb i b row :
  get i b = Some row ->
  let b' := mark_completed now stamp i true nb b in
  (exists row', get i b' = Some row' /\ q_state row' = (if deferral now nb then Queued else Completed)
     /\ q_attempts row' = q_attempts row)
  /\ runs b' = runs b /\ forall j, j <> i -> get j b' = get j b.
Proof.
  intros G b'. unfold b', mark_completed. pose proof (get_Some _ _ _ G) as [_ Ei].
  assert (is_id i row = true) as Hi by (unfold is_id; by rewrite Ei, Z.eqb_refl).
  destruct (deferral now nb); (split; [erewrite get_update by done; rewrite Hi; by eexists|]); (split; [done|]);
    intros j N; apply (get_update_other j i); try done; intros r; unfold is_id; by intros ->%Z.eqb_eq.
Qed.

Lemma failed_settles now qcap i err c b row :
  get i b = Some row ->
  let b' := (mark_failed now qcap i err (Some c) b).2 in
  (exists row', get i b' = Some row' /\ q_state row' = (if c <=? q_attempts row then Poisoned else Queued)
     /\ q_attempts row' = q_attempts row)
  /\ runs b' = runs b /\ forall j, j <> i -> get j b' = get j b.
Proof.
  intros G b'. unfold b', mark_failed. rewrite G. pose proof (get_Some _ _ _ G) as [_ Ei].
  assert (is_id i row = true) as Hi by (unfold is_id; by rewrite Ei, Z.eqb_refl).
  destruct (c <=? q_attempts row); simpl; (split; [erewrite get_update by done; rewrite Hi; by eexists|]); (split; [done|]);
    intros j N; apply (get_update_other j i); try done; intros r; unfold is_id; by intros ->%Z.eqb_eq.
Qed.

(** The failing arms, on a row in the worker's hands and an id not yet recorded. *)
Lemma finish_failed_settles w ma item err meta d row :
  calm w -> rw_id w ∉ run_ids (w_db d) -> get (q_id item) (w_db d) = Some row -> q_attempts row = q_attempts item ->
  exists d', finish_failed w ma item (iso (rw_clk w 0%nat)) err meta d = (Ok tt, d')
    /\ settled w item "failed" (if ma <=? q_attempts item then Poisoned else Queued) (w_db d) (w_db d').
Proof.
  intros C N G A. unfold finish_failed. rewrite !at_db_calm by done.
  destruct (record_fresh (rw_id w) (Some (q_id item)) (q_source item) "failed" (iso (rw_clk w 0%nat)) (iso (rw_clk w 6%nat))
              (rw_took w) err EmptyString [] (payload_task_id item) (meta_text (bind_step_count (rw_turns w) meta)) []
              (Some (q_kind item)) (w_db d) N) as (run & E & F1 & F2 & F3 & F4 & F5 & F6 & F7).
  rewrite E. cbn [fst snd]. rewrite ?at_db_calm, ?with_db_get by done. cbn [fst snd]. rewrite ?with_db_get. set (b1 := Db _ _ _).
  destruct (failed_settles (rw_clk w 7%nat) (valid_cap (Some ma)) (q_id item) err ma b1 row) as ((row' & G' & S' & A') & R' & O');
    [by rewrite (get_same_queue _ (w_db d))|].
  destruct (mark_failed _ _ _ _ _ b1) as [fr b2]. cbn [fst snd] in *. eexists. split; [reflexivity|].
  rewrite with_db_get. split.
  - exists run. by rewrite R'.
  - exists row'. rewrite S', <- A. split; [done|]. split; [done|congruence].
  - intros j Hj. by rewrite O'.
Qed.

Lemma carry_gaps_db w item tid gap d : calm w -> w_db (carry_gaps w item tid gap d) = w_db d.
Proof. intros [Q K]. unfold carry_gaps. rewrite Q. by repeat case_match. Qed.

Lemma finish_returned_settles w item result n bundle defer_to d row :
  calm w -> rw_id w ∉ run_ids (w_db d) -> get (q_id item) (w_db d) = Some row -> q_attempts row = q_attempts item ->
  normalize_result item result = Ok n -> bundle_of w (n_claims n) = Ok bundle ->
  resolve_defer (rw_clk w 3%nat) (n_defer n) = Ok defer_to ->
  exists d', finish_returned w item (iso (rw_clk w 0%nat)) result d = (Ok tt, d')
    /\ settled w item (status_text (n_status n)) (if deferral (rw_clk w 4%nat) defer_to then Queued else Completed)
         (w_db d) (w_db d').
Proof.
  intros C N G A En Eb Ed. unfold finish_returned. rewrite En, Eb.
  set (d1 := match bundle with Some _ => _ | None => d end).
  assert (w_db d1 = w_db d) as D1.
  { unfold d1. destruct bundle as [[b gap]|]; [by apply carry_gaps_db|done]. }
  clearbody d1. rewrite !at_db_calm by done. set (cj := match _ with Some _ => _ | None => _ end).
  destruct (record_fresh (rw_id w) (Some (q_id item)) (q_source item) (status_text (n_status n)) (iso (rw_clk w 0%nat))
              (iso (rw_clk w 1%nat)) (rw_took w) (n_summary n) (n_artifact n) (n_response n) (n_task_id n)
              (meta_text (bind_step_count (rw_turns w) (the_meta w (n_meta n)))) cj (Some (q_kind item)) (w_db d1))
    as (run & E & F1 & F2 & F3 & F4 & F5 & F6 & F7); [by rewrite D1|].
  rewrite E. cbn [fst snd]. rewrite Ed, ?at_db_calm, ?with_db_get by done. cbn [fst snd]. rewrite ?with_db_get. set (b1 := Db _ _ _).
  destruct (completed_settles (rw_clk w 4%nat) (rw_clk w 5%nat) defer_to (q_id item) b1 row) as ((row' & G' & S' & A') & R' & O');
    [by rewrite (get_same_queue _ (w_db d)) by (by rewrite <- D1)|].
  cbn [fst snd]. eexists. split; [reflexivity|]. rewrite with_db_get. split.
  - exists run. rewrite R', <- D1. done.
  - exists row'. split; [done|]. split; [done|congruence].
  - intros j Hj. rewrite O' by done. apply get_same_queue. by rewrite <- D1.
Qed.

(** The verdict a run earns: its status and its row's state. *)
Definition verdict_of (w : run_world) (max_attempts : Z) (item : qrow) : string * qstate :=
  let failed := ("failed"%string, if max_attempts <=? q_attempts item then Poisoned else Queued) in
  match w.(rw_end) with
  | Returned result =>
      match normalize_result item result with
      | Ok n => match bundle_of w (n_claims n), resolve_defer (w.(rw_clk) 3%nat) (n_defer n) with
                | Ok _, Ok defer_to =>
                    (status_text (n_status n), if deferral (w.(rw_clk) 4%nat) defer_to then Queued else Completed)
                | _, _ => failed
                end
      | Raise _ => failed
      end
  | _ => failed
  end.

Definition defers_in_range (w : run_world) (item : qrow) : Prop :=
  forall result n e, w.(rw_end) = Returned result -> normalize_result item result = Ok n ->
    resolve_defer (w.(rw_clk) 3%nat) (n_defer n) <> Raise e.

Lemma finish_settles w ma md item d row :
  calm w -> rw_id w ∉ run_ids (w_db d) -> get (q_id item) (w_db d) = Some row -> q_attempts row = q_attempts item ->
  is_cancelled (rw_end w) = false -> defers_in_range w item ->
  exists d', finish w ma md item (iso (rw_clk w 0%nat)) d = (Ok tt, d')
    /\ settled w item (verdict_of w ma item).1 (verdict_of w ma item).2 (w_db d) (w_db d').
Proof.
  intros C N G A Nc Df. unfold finish, verdict_of.
  destruct (rw_end w) as [result| |name msg|] eqn:E; [|by eapply finish_failed_settles..|done].
  destruct (normalize_result item result) as [n|e] eqn:En.
  - specialize (Df result n). destruct (bundle_of w (n_claims n)) as [bundle|e] eqn:Eb.
    + destruct (resolve_defer (rw_clk w 3%nat) (n_defer n)) as [t|e] eqn:Er; [|by destruct (Df e)].
      destruct (finish_returned_settles w item result n bundle t d row) as (d' & -> & S); try done. by exists d'.
    + unfold finish_returned. rewrite En, Eb. by eapply finish_failed_settles.
  - unfold finish_returned. rewrite En. by eapply finish_failed_settles.
Qed.
End Settle.

Section Running.
Context `{IsoStamps} `{JsonText} `{PyNumbers} `{PyFloat}.

(** The row as [mark_running] leaves it. *)
Lemma running_row i rid b row :
  get i b = Some row -> q_state row = Claimed ->
  get i (mark_running i rid b) = Some (set_current_run_id rid (set_state Running row))
  /\ forall j, j <> i -> get j (mark_running i rid b) = get j b.
Proof.
  intros G S. pose proof (get_Some _ _ _ G) as [_ Ei]. unfold mark_running. split.
  - erewrite get_update by done. unfold is_id, in_state. by rewrite Ei, Z.eqb_refl, S.
  - intros j N. apply (get_update_other j i); [done| |done]. intros r. unfold is_id. by intros [->%Z.eqb_eq _]%andb_true_iff.
Qed.

Lemma repoll_db w source d : calm w -> w_db (repoll_on_complete w source d) = w_db d.
Proof. intros [Q K]. unfold repoll_on_complete. rewrite Q. by case_match. Qed.
End Running.

(** C9: A run settles its row and leaves exactly one record. On a claimed row, with a
    fresh run id, every statement running and nobody else acting: however the source
    ends short of a cancellation - it returned anything at all, it ran out of time, it
    raised - the slot survives, the item is out of flight, one run is appended under
    that id naming the row, and the row is completed, parked by the deferral it asked
    for, back in the queue for a retry, or poisoned at the ceiling, as the outcome
    says; its attempts and every other row are untouched. *)
Theorem run_settles `{IsoStamps} `{JsonText} `{PyNumbers} `{PyFloat} w max_attempts source item flight d md :
  calm w -> get (q_id item) (w_db d) = Some item -> q_state item = Claimed ->
  rw_id w ∉ run_ids (w_db d) -> max_duration_of (q_source item) (rw_cfg w) = Ok md ->
  is_cancelled (rw_end w) = false -> defers_in_range w item ->
  exists d', run_item w max_attempts source item (flight, d) = (true, (delete (q_id item) flight, d'))
    /\ settled w item (verdict_of w max_attempts item).1 (verdict_of w max_attempts item).2 (w_db d) (w_db d')
    /\ (verdict_of w max_attempts item).2 <> Claimed /\ (verdict_of w max_attempts item).2 <> Running.
Proof.
  intros C G S N Em Nc Df. unfold run_item. rewrite at_db_calm by done. cbn [fst snd]. rewrite Em.
  destruct (running_row _ (Some (rw_id w)) _ _ G S) as [G1 O1]. destruct C as [Q K]. rewrite Q.
  set (d1 := with_db (mark_running _ _ _) d).
  destruct (finish_settles w max_attempts md item d1 _ (conj Q K) N G1 eq_refl Nc Df) as (d2 & -> & [R (row & Gr & Sr) O]).
  rewrite Nc. eexists. split; [do 2 f_equal; exact (delete_insert_eq (flight : gmap Z string) _ _)|]. rewrite (repoll_db _ _ _ (conj Q K)).
  split; [split; [exact R|by exists row|]|].
  - intros j Hj. rewrite O by done. by apply O1.
  - unfold verdict_of. repeat case_match; done.
Qed.

(** ** A completion that cannot be written *)

(** The run is on record as a success, the row's completion does not run: the arm that
    catches it inserts the same run id again, which raises out of the loop - the slot
    is gone and the row stays running, to be retried after the next start. *)
Lemma lost_completion_strands `{IsoStamps} `{JsonText} `{PyNumbers} `{PyFloat} w max_attempts source item flight d md result n :
  (forall k d, rw_env w k d = d) -> (forall k, k <> 3%nat -> rw_ok w k = true) -> rw_ok w 3%nat = false ->
  get (q_id item) (w_db d) = Some item -> q_state item = Claimed -> rw_id w ∉ run_ids (w_db d) ->
  max_duration_of (q_source item) (rw_cfg w) = Ok md ->
  rw_end w = Returned result -> normalize_result item result = Ok n -> n_claims n = None -> n_defer n = None ->
  exists st', run_item w max_attempts source item (flight, d) = (false, st')
    /\ rw_id w ∈ run_ids (w_db st'.2)
    /\ exists row, get (q_id item) (w_db st'.2) = Some row /\ q_state row = Running.
Proof.
  intros Q K K3 G S N Em E En Ec Ed. destruct (running_row _ (Some (rw_id w)) _ _ G S) as [G1 _].
  unfold run_item, at_db at 1. rewrite Q, K by done. rewrite Em, Q. unfold finish. rewrite E.
  unfold finish_returned. rewrite En, Ec. cbn [bundle_of].
  unfold at_db at 1. rewrite Q, K by done.
  destruct (record_fresh (rw_id w) (Some (q_id item)) (q_source item) (status_text (n_status n)) (iso (rw_clk w 0%nat))
              (iso (rw_clk w 1%nat)) (rw_took w) (n_summary n) (n_artifact n) (n_response n) (n_task_id n)
              (meta_text (bind_step_count (rw_turns w) (the_meta w (n_meta n)))) [] (Some (q_kind item))
              (mark_running (q_id item) (Some (rw_id w)) (w_db d))) as (run & Er & F1 & _); [done|].
  cbn [w_db with_db]. rewrite Er, Ed. cbn [resolve_defer]. unfold at_db at 1. rewrite Q, K3.
  unfold finish_failed, at_db at 1. rewrite Q, K by done. cbn [w_db with_db]. rewrite record_again.
  - eexists. split; [reflexivity|]. cbn [snd]. unfold repoll_on_complete. rewrite Q. split.
    + unfold run_ids. case_match; cbn; rewrite map_app; apply elem_of_app; right; rewrite <- F1; by left.
    + exists (set_current_run_id (Some (rw_id w)) (set_state Running item)).
      split; [|done]. case_match; exact G1.
  - unfold run_ids. cbn. rewrite map_app. apply elem_of_app. right. rewrite <- F1. by left.
Qed.

(** ** Witnesses *)

Section Samples.
#[local] Existing Instance exact_floats.
#[local] Existing Instance plain_numbers.
#[local] Existing Instance blank_json.

Definition done_run : run_world :=
  RunWorld "run_digest_1" (fun k => t0 + Z.of_nat k * usec) usec []
    (Returned (JObj [("summary", JStr "two papers read"); ("status", JStr "success")]%string)) [] [] JNull (fun _ => Ok (JNull, JNull))
    [] (fun _ => EmptyString) (fun _ => true) (fun _ d => d).

Definition up_world : claim_world :=
  ClaimWorld (fun _ _ => t0) (fun _ => inject_Z 1000) (fun _ => inject_Z 50) (fun _ => []) (Answered (Some 200))
    (fun _ => false) (fun _ => true) (fun _ st => st).

Definition sample_turn : turn_world :=
  TurnWorld up_world (GateConfig [] [] []) [] (t0 + hour) (fun _ => t0 + hour) (fun _ => true) (fun _ => done_run).

Definition sample_state : pool_state :=
  PoolState (Pauses false false None) gates0 ∅
    (with_db (snd (enqueue t0 "digest" "paper" None 50 None empty_db)) PoolPauseFacts.new_wdb).

Lemma sample_reachable : reachable 3 (w_db (st_db sample_state)).
Proof. apply rtc_once. exact (step_enqueue 3 t0 "digest" "paper" None 50 None empty_db). Qed.

Lemma sample_fair : fair_turn 3 sample_turn.
Proof. split; [done|]. intros item k d W. done. Qed.

Lemma pool_refines_queue_witness :
  let '(o, s') := worker_turn sample_turn 3 sample_registry "worker-0" sample_state in
  reachable 3 (w_db (st_db s')) /\ match o with Ran item => q_id item = 1 | _ => False end.
Proof.
  destruct (worker_turn sample_turn 3 sample_registry "worker-0" sample_state) as [o s'] eqn:E.
  split; [exact (proj1 (pool_refines_queue sample_turn 3 sample_registry "worker-0" sample_state o s' sample_fair sample_reachable E))|].
  assert (match (worker_turn sample_turn 3 sample_registry "worker-0" sample_state).1 with Ran item => q_id item = 1 | _ => False end)
    as A by (vm_compute; reflexivity).
  rewrite E in A. exact A.
Defined.

Lemma turn_starts_admitted_witness :
  let '(o, s') := worker_turn sample_turn 3 sample_registry "worker-0" sample_state in
  match o with Ran item => q_source item ∉ held_source_names (st_gates s') | _ => False end.
Proof.
  destruct (worker_turn sample_turn 3 sample_registry "worker-0" sample_state) as [o s'] eqn:E.
  assert (match (worker_turn sample_turn 3 sample_registry "worker-0" sample_state).1 with Ran item => True | _ => False end)
    as A by (vm_compute; exact I).
  rewrite E in A. destruct o as [|item|]; [destruct A| |destruct A].
  assert (wf (valid_cap (Some 3)) (w_db (st_db sample_state))) as W
    by (eapply steps_wf; [|exact sample_reachable|apply wf_empty]; done).
  destruct (turn_starts_admitted sample_turn 3 sample_registry "worker-0" sample_state item s') as (_ & _ & B & _);
    [intros k st; reflexivity|apply gates0_ok|exact W|exact E|exact B].
Defined.

Definition claimed_row : qrow := claimed t0 "worker-0" (sample_row 7 "digest" 50 0 t0).
Definition claimed_wdb : wdb := with_db (Db [claimed_row] 7 []) PoolPauseFacts.new_wdb.

Lemma run_settles_witness :
  exists d', run_item done_run 3 (SourceDecl "digest" false false) claimed_row (∅, claimed_wdb) = (true, (delete 7 ∅, d'))
    /\ exists row, get 7 (w_db d') = Some row /\ q_state row = Completed.
Proof.
  destruct (run_settles done_run 3 (SourceDecl "digest" false false) claimed_row ∅ claimed_wdb 900) as (d' & E & [_ R _] & _).
  - split; reflexivity.
  - reflexivity.
  - reflexivity.
  - apply not_elem_of_nil.
  - reflexivity.
  - reflexivity.
  - intros result n e Er En. injection Er as <-. vm_compute in En. injection En as <-. discriminate.
  - exists d'. split; [exact E|]. destruct R as (row & G & S & _). exists row. split; [exact G|]. rewrite S. vm_compute. reflexivity.
Defined.
End Samples.
