(* ===== verification/PoolSched.v ===== *)
(** * The worker pool: the scheduler's pass

    [_scheduler_pass] of [workers/pool.py]: which sources are asked for work, and the
    watermark that decides when each is asked again. A pass may raise where the code
    does not catch: a config value that is no number, a watermark that is no stamp, a
    statement that does not run. *)
From Stdlib Require Import String QArith.
From S2P Require Import Prelude PyText Stamps QueueRows QueueOps QueueJournal Policy PoolPause PoolPauseFacts PoolGates PoolRun.

Local Open Scope Z_scope.

Definition OK_WM_KEY : string := "last_enqueue_ok".

(** How [enqueue_if_due] ended. *)
Inductive call_end := Call_declined | Call_other | Call_raised.

(** What one visit meets: the clock when it asks whether the source is due, when it
    stamps, when it stamps the success, and when the two rows are written; how the source ends and what it does to the
    database; which of the three statements run. *)
Record visit_world := VisitWorld {
  vw_now : Z;
  vw_stamp : Z;
  vw_ok_at : Z;
  vw_wrote : nat -> Z;
  vw_end : call_end;
  vw_does : wdb -> wdb;
  vw_ok : nat -> bool
}.

Section Scheduler.
Context `{IsoStamps} `{PyNumbers}.

(** [_positive_int]. *)
Definition positive_int (v : option json) : outcome (option Z) :=
  match v with
  | None => Ok None
  | Some v => match int_of v with
              | Ok n => Ok (if 0 <? n then Some n else None)
              | Raise (TypeError | ValueError) => Ok None
              | Raise e => Raise e
              end
  end.

Definition interval_of (cfg : list (string * json)) : outcome Z :=
  match obj_get "interval_seconds" cfg with None => Ok 3600 | Some v => int_of v end.

(** Whether [wait] seconds have passed since the mark. *)
Definition is_due (now wait : Z) (last_at : option string) : outcome bool :=
  match last_at with
  | None | Some EmptyString => Ok true
  | Some s => match iso_parse s with
              | None => Raise ValueError
              | Some t => Ok (negb (now - t <? wait * usec))
              end
  end.

(** One round of the loop's body: whether the source was called, and the database. *)
Definition visit (w : visit_world) (name : string) (cfg : list (string * json)) (d : wdb) : outcome bool * wdb :=
  if negb (json_true (cfg_get "enabled" cfg (JBool false))) then (Ok false, d)
  else
    match interval_of cfg with
    | Raise e => (Raise e, d)
    | Ok wait =>
        if negb (w.(vw_ok) 0%nat) then (Raise DatabaseError, d)
        else
          match is_due w.(vw_now) wait (wm_get name LAST_CHECK d.(w_marks)) with
          | Raise e => (Raise e, d)
          | Ok false => (Ok false, d)
          | Ok true =>
              let d := w.(vw_does) d in
              match positive_int (obj_get "retry_seconds" cfg) with
              | Raise e => (Raise e, d)
              | Ok retry =>
                  let back := match w.(vw_end), retry with
                              | Call_declined, Some r => if r <? wait then (wait - r) * usec else 0
                              | _, _ => 0
                              end in
                  if negb (in_range (w.(vw_stamp) - back)) then (Raise OverflowError, d)
                  else if negb (w.(vw_ok) 1%nat) then (Raise DatabaseError, d)
                  else
                    let d := with_marks (wm_set (w.(vw_wrote) 0%nat) name LAST_CHECK (iso (w.(vw_stamp) - back)) d.(w_marks)) d in
                    match w.(vw_end) with
                    | Call_raised => (Ok true, d)
                    | _ =>
                        if w.(vw_ok) 2%nat then
                          (Ok true, with_marks (wm_set (w.(vw_wrote) 1%nat) name OK_WM_KEY (iso w.(vw_ok_at)) d.(w_marks)) d)
                        else (Raise DatabaseError, d)
                    end
              end
          end
    end.

(** The pass: the names of the sources called, in order. *)
Fixpoint scheduler_pass (w : string -> visit_world) (cfg : list (string * list (string * json))) (r : registry) (d : wdb)
    : outcome (list string) * wdb :=
  match r with
  | [] => (Ok [], d)
  | source :: r =>
      let name := source.(sd_name) in
      match visit (w name) name (source_cfg name cfg) d with
      | (Raise e, d) => (Raise e, d)
      | (Ok called, d) =>
          let '(o, d) := scheduler_pass w cfg r d in
          (rest <-? o ;; Ok (if called then name :: rest else rest), d)
      end
  end.

(** ** Spacing *)

(** The seconds a call buys before the next one. *)
Definition spacing (e : call_end) (retry : option Z) (wait : Z) : Z :=
  match e, retry with Call_declined, Some r => if r <? wait then r else wait | _, _ => wait end.

Definition mark_of (name : string) (d : wdb) : option (string * string) := w_marks d !! (name, LAST_CHECK).

(** What a visit that called its source leaves as the mark. *)
Lemma visit_called w name cfg d d' wait retry :
  visit w name cfg d = (Ok true, d') -> interval_of cfg = Ok wait -> positive_int (obj_get "retry_seconds" cfg) = Ok retry ->
  exists t, fst <$> mark_of name d' = Some (iso t) /\ in_range t = true
    /\ t = vw_stamp w - (wait - spacing (vw_end w) retry wait) * usec
    /\ is_due (vw_now w) wait (wm_get name LAST_CHECK (w_marks d)) = Ok true
    /\ (vw_end w <> Call_raised -> wm_get name OK_WM_KEY (w_marks d') = Some (iso (vw_ok_at w))).
Proof.
  intros E Ew Er. unfold visit in E. rewrite Ew, Er in E.
  destruct (json_true _); simpl in E; [|done]. destruct (vw_ok w 0); simpl in E; [|done].
  destruct (is_due _ _ _) as [[]|] eqn:Du; [|done..].
  set (back := match vw_end w with Call_declined => _ | _ => _ end) in E.
  assert (back = (wait - spacing (vw_end w) retry wait) * usec) as Eb.
  { unfold back, spacing. destruct (vw_end w), retry as [r|]; simpl; try lia. destruct (r <? wait); lia. }
  destruct (in_range (vw_stamp w - back)) eqn:Ri; simpl in E; [|done].
  destruct (vw_ok w 1); simpl in E; [|done]. exists (vw_stamp w - back). rewrite <- Eb.
  assert (forall v t m, (name, OK_WM_KEY) <> (name, LAST_CHECK) -> fst <$> (wm_set t name OK_WM_KEY v m) !! (name, LAST_CHECK)
            = fst <$> m !! (name, LAST_CHECK)) as Ho by (intros; by rewrite wm_set_other).
  assert ((name, OK_WM_KEY) <> (name, LAST_CHECK)) as Hne by (intros [=]).
  unfold mark_of. destruct (vw_end w); [destruct (vw_ok w 2); [|done]..|]; injection E as <-; cbn [w_marks with_marks];
    rewrite ?Ho, wm_set_same by done; (split; [done|]); (split; [done|]); (split; [done|]); (split; [done|]); intros N;
    try done; unfold wm_get; by rewrite wm_set_same.
Qed.

Lemma is_due_iso now wait t : in_range t = true -> is_due now wait (Some (iso t)) = Ok (negb (now - t <? wait * usec)).
Proof.
  intros R. unfold is_due. destruct (iso t) eqn:E; [by destruct (iso_nonempty t)|]. by rewrite <- E, iso_parse_iso.
Qed.

(** A visit asks for the mark alone. *)
Lemma visit_decides w name cfg d wait o d' :
  visit w name cfg d = (Ok o, d') -> json_true (cfg_get "enabled" cfg (JBool false)) = true -> interval_of cfg = Ok wait ->
  is_due (vw_now w) wait (wm_get name LAST_CHECK (w_marks d)) = Ok o.
Proof.
  intros E En Ew. unfold visit in E. rewrite En, Ew in E. simpl in E. destruct (vw_ok w 0); simpl in E; [|done].
  destruct (is_due _ _ _) as [[]|]; [|by injection E as <- _|done].
  destruct (positive_int _); [|done]. repeat (case_match; try done); by injection E as <- _.
Qed.
End Scheduler.

(** A source is asked again exactly when its spacing has passed. After a visit that
    called a source, whatever else changes in the database but that source's mark, a
    later visit with the same configuration calls it if and only if the interval has
    passed since the stamp - or, when it declined and a shorter retry is configured,
    the retry. A source that raised is spaced like any other; only one that returned is
    marked as working. *)
Theorem visit_spacing `{IsoStamps} `{PyNumbers} w w' name cfg d d1 d2 o d3 wait retry :
  json_true (cfg_get "enabled" cfg (JBool false)) = true -> interval_of cfg = Ok wait ->
  positive_int (obj_get "retry_seconds" cfg) = Ok retry ->
  visit w name cfg d = (Ok true, d1) -> mark_of name d2 = mark_of name d1 ->
  visit w' name cfg d2 = (Ok o, d3) ->
  (o = true <-> vw_stamp w + spacing (vw_end w) retry wait * usec <= vw_now w')
  /\ (vw_end w <> Call_raised -> wm_get name OK_WM_KEY (w_marks d1) = Some (iso (vw_ok_at w))).
Proof.
  intros En Ew Er V1 M V2. destruct (visit_called _ _ _ _ _ _ _ V1 Ew Er) as (t & T & R & Et & _ & Ok1).
  split; [|done]. pose proof (visit_decides _ _ _ _ _ _ _ V2 En Ew) as D.
  unfold wm_get in D. change (w_marks d2 !! (name, LAST_CHECK)) with (mark_of name d2) in D. rewrite M, T in D.
  rewrite is_due_iso in D by done. injection D as <-. rewrite negb_true_iff, Z.ltb_ge. subst t. lia.
Qed.

(** A source re-armed by its run is due at the next pass. *)
Lemma rearmed_is_due `{IsoStamps} now wait : in_range 0 = true -> wait * usec <= now -> is_due now wait (Some (iso 0)) = Ok true.
Proof. intros R L. rewrite is_due_iso by done. do 2 f_equal. lia. Qed.

(** ** Witness *)

Section Samples.
#[local] Existing Instance plain_numbers.

Definition sample_cfg : list (string * json) :=
  [("enabled", JBool true); ("interval_seconds", JInt 900); ("retry_seconds", JInt 60)]%string.

Definition declined_at (now : Z) : visit_world :=
  VisitWorld now now now (fun _ => now) Call_declined (fun d => d) (fun _ => true).

(** Declined, asked again after 61 seconds and not after 59. *)
Lemma visit_spacing_witness :
  let d1 := (visit (declined_at t0) "autocode" sample_cfg new_wdb).2 in
  match visit (declined_at (t0 + 61 * usec)) "autocode" sample_cfg d1 with (Ok o, _) => o = true | _ => False end.
Proof.
  intros d1. destruct (visit (declined_at (t0 + 61 * usec)) "autocode" sample_cfg d1) as [[o|e] d2] eqn:E;
    [|vm_compute in E; discriminate].
  assert (visit (declined_at t0) "autocode" sample_cfg new_wdb = (Ok true, d1)) as V by reflexivity.
  destruct (visit_spacing (declined_at t0) (declined_at (t0 + 61 * usec)) "autocode" sample_cfg new_wdb d1 d1 o d2 900 (Some 60))
    as [A _]; try reflexivity; try assumption.
  apply A. vm_compute. discriminate.
Defined.
End Samples.
