(* ===== verification/JsonCodec.v ===== *)
(** * A JSON codec to evaluate on

    An instance of the JSON interface that reads back what it writes, for the witnesses
    of the theorems that rely on the round trip: a value is laid out as a tree, and the
    tree as the digits of its code. The actual rendering is of no interest to them. *)
From Stdlib Require Import String Ascii.
From stdpp Require Import countable.
From S2P Require Import Prelude PyText QueueRows.

Local Open Scope Z_scope.

Fixpoint to_tree (v : json) : gen_tree (Z + string) :=
  match v with
  | JNull => GenNode 0 []
  | JBool b => GenNode 1 [GenLeaf (inl (if b then 1 else 0))]
  | JInt z => GenLeaf (inl z)
  | JFloat r => GenNode 2 [GenLeaf (inr r)]
  | JStr s => GenLeaf (inr s)
  | JList l => GenNode 3 (map to_tree l)
  | JObj fs => GenNode 4 (map (fun '(k, v) => GenNode 5 [GenLeaf (inr k); to_tree v]) fs)
  end.

Fixpoint of_tree (t : gen_tree (Z + string)) : json :=
  match t with
  | GenLeaf (inl z) => JInt z
  | GenLeaf (inr s) => JStr s
  | GenNode 1 [GenLeaf (inl z)] => JBool (z =? 1)
  | GenNode 2 [GenLeaf (inr r)] => JFloat r
  | GenNode 3 l => JList (map of_tree l)
  | GenNode 4 l =>
      JObj (map (fun t => match t with
                          | GenNode _ [GenLeaf (inr k); v] => (k, of_tree v)
                          | _ => (EmptyString, JNull)
                          end) l)
  | _ => JNull
  end.

Fixpoint of_to_tree (v : json) : of_tree (to_tree v) = v.
Proof.
  destruct v as [|b|z|r|s|l|fs]; simpl; try reflexivity.
  - by destruct b.
  - f_equal. induction l as [|v l IH]; simpl; [done|]. by rewrite of_to_tree, IH.
  - f_equal. induction fs as [|[k v] fs IH]; simpl; [done|]. by rewrite of_to_tree, IH.
Qed.

Fixpoint bits (p : positive) : string :=
  match p with
  | xH => EmptyString
  | xO p => String "0" (bits p)
  | xI p => String "1" (bits p)
  end.
Fixpoint unbits (s : string) : positive :=
  match s with
  | EmptyString => xH
  | String c s => if Ascii.eqb c "0" then xO (unbits s) else xI (unbits s)
  end.

Lemma unbits_bits p : unbits (bits p) = p.
Proof. induction p as [p IH|p IH|]; simpl; by rewrite ?IH. Qed.

Definition write_json (v : json) : string := String "j" (bits (countable.encode (to_tree v))).
Definition read_json (s : string) : option json :=
  match s with
  | String "j" s => of_tree <$> countable.decode (unbits s)
  | _ => None
  end.

Lemma read_write v : read_json (write_json v) = Some v.
Proof. unfold read_json, write_json. rewrite unbits_bits, decode_encode. simpl. by rewrite of_to_tree. Qed.

Definition tree_json : JsonText :=
  {| dumps := write_json; dumps_ascii := write_json; loads := read_json; py_str _ := EmptyString |}.

Lemma tree_reads_back fs : @loads_or_none tree_json (Some (@dumps_ascii tree_json (JObj fs))) = Some fs.
Proof. unfold loads_or_none. cbn [dumps_ascii loads tree_json]. rewrite read_write. done. Qed.
