(* ===== verification/Triage.v ===== *)
(** * Poison triage

    [workers/maintenance.py] and its seat on the scheduler loop: how an error is
    grouped and classed, the tally of causes across sweeps, the sweep that revives or
    quarantines every poisoned row it scans, its record and its note. Others act between
    any two statements of a sweep, and a statement may not run. *)
From Stdlib Require Import String QArith.
From S2P Require Import Prelude PyText Regex Stamps QueueRows QueueOps QueueJournal Policy PoolPause PoolGates PoolRun.

Local Open Scope Z_scope.

Definition SOURCE : string := "queue-maintenance".
Definition TALLY_PREFIX : string := "sig:".
Definition LAST_SWEEP_AT : string := "last_sweep_at".
Definition LAST_SWEEP : string := "last_sweep".

Definition DEFAULTS : list (string * json) :=
  [("enabled", JBool true); ("interval_seconds", JInt 900); ("max_revives", JInt 1);
   ("revive_delay_seconds", JInt 300); ("repeat_threshold", JInt 3); ("tally_retention_days", JInt 14);
   ("scan_limit", JInt 200);
   ("mitigation_drill", JObj [("enabled", JBool false); ("interval_seconds", JInt 3600);
                              ("wait_free_window_seconds", JInt 3600)])]%string.

(** [hashlib.sha1(...).hexdigest()] of the UTF-8 bytes of a text. *)
Class Sha1 := { sha1 : text -> text }.

(** ** Signatures and classes *)

Section Errors.
Context `{PyUnicode}.

Definition one_of (s : text) (c : N) : bool := existsb (N.eqb c) s.
Definition hex_digit (c : N) : bool := ((48 <=? c) && (c <=? 57) || (97 <=? c) && (c <=? 102) || (65 <=? c) && (c <=? 70))%N.

Definition path_re : re :=
  let part := Seq (Chr (N.eqb 47)) (plus (Chr (fun c => cword c || one_of (u ".-") c))) in
  Seq (at_least 2 part) (opt (Chr (N.eqb 47))).
Definition hex_re : re := Seq Wb (Seq (at_least 8 (Chr hex_digit)) Wb).
Definition number_re : re := Seq Wb (Seq (plus (Chr cdigit)) Wb).

Definition SIG_SUBS : list (re * text) :=
  [(path_re, u "<path>"); (hex_re, u "<id>"); (number_re, u "<n>"); (plus space, u " ")].

(** A text that is not blank has a first line. *)
Definition signature (error : option text) : text :=
  match strip (default [] error) with
  | [] => u "(no error recorded)"
  | t =>
      let t := upto (default [] (head (splitlines t))) 400 in
      upto (strip (fold_left (fun t '(r, repl) => sub r repl t) SIG_SUBS t)) 200
  end.

(** The words of [_TRANSIENT] and [_STRUCTURAL] that stand between word boundaries. *)
Definition TRANSIENT_WORDS : list text :=
  [u "TimeoutError"; u "TimedOut"; u "ReadTimeout"; u "WriteTimeout"; u "PoolTimeout";
   u "ConnectTimeout"; u "CancelledError"; u "StreamStalledError"; u "ConnectError"; u "ConnectionError";
   u "ConnectionReset"; u "ConnectionRefused"; u "ConnectionAborted"; u "RemoteProtocolError"; u "ReadError";
   u "WriteError"; u "ProtocolError"; u "IncompleteRead"; u "ChunkedEncodingError"; u "ServiceUnavailable";
   u "BadGateway"; u "GatewayTimeout"; u "TooManyRequests"; u "OverloadedError"; u "OSError"].
Definition STRUCTURAL_WORDS : list text :=
  [u "KeyError"; u "IndexError"; u "AttributeError"; u "TypeError"; u "NameError"; u "ImportError";
   u "ModuleNotFoundError"; u "JSONDecodeError"; u "UnicodeDecodeError"; u "ValidationError";
   u "AssertionError"; u "NotImplementedError"; u "FileNotFoundError"; u "NotADirectoryError";
   u "IsADirectoryError"; u "PermissionError"; u "IntegrityError"; u "OperationalError"].

Definition spaced (a b : re) : re := Seq a (Seq (plus space) b).

Definition TRANSIENT : re :=
  alts [Seq Wb (Seq (alts (map iword TRANSIENT_WORDS ++ [Seq (iword (u "RateLimit")) (Star (Chr cword))])) Wb);
        Seq Wb (Seq (alts (map iword [u "429"; u "500"; u "502"; u "503"; u "504"])) Wb);
        spaced (iword (u "server")) (iword (u "disconnected"));
        spaced (iword (u "connection")) (alts (map iword [u "refused"; u "reset"; u "closed"; u "aborted"]));
        spaced (iword (u "temporarily")) (iword (u "unavailable"));
        spaced (iword (u "all")) (spaced (iword (u "connection")) (spaced (iword (u "attempts")) (iword (u "failed"))));
        spaced (alts (map iword [u "engine"; u "model"; u "server"]))
          (Seq (opt (Seq (iword (u "is")) (plus space)))
             (alts [spaced (iword (u "not")) (iword (u "ready")); iword (u "unavailable"); iword (u "overloaded")]))].

Definition STRUCTURAL : re :=
  Seq Wb (Seq (alts (spaced (iword (u "unknown")) (iword (u "source")) :: map iword STRUCTURAL_WORDS)) Wb).

Inductive fclass := Transient | Structural.

#[export] Instance fclass_eq_dec : EqDecision fclass.
Proof. solve_decision. Defined.

Definition class_text (c : fclass) : text :=
  match c with Transient => u "transient" | Structural => u "structural" end.

Definition classify (error : option text) : fclass :=
  let t := default [] error in
  if search STRUCTURAL t then Structural else if search TRANSIENT t then Transient else Structural.
End Errors.

(** ** The sweep *)

(** The statements of a sweep, in order: the list, up to four for the [k]-th item, the
    tallies, the deletions, the run record, the two marks. *)
Inductive stmt_no :=
| S_list
| S_item (k i : nat)
| S_tallies
| S_drop (j : nat)
| S_run
| S_mark (i : nat).

Record action := Action {
  a_item_id : Z;
  a_source : string;
  a_kind : string;
  a_attempts : Z;
  a_signature : text;
  a_class : fclass;
  a_revived : bool;
  a_reason : text;
  a_occurrences : Z
}.

Record escalation := Escalation {
  e_source : string;
  e_signature : text;
  e_count : Z;
  e_class : fclass
}.

(** What a sweep has done so far; [tl_escalated] are the keys it has escalated. *)
Record sweep_tally := Tally {
  tl_revived : Z;
  tl_quarantined : Z;
  tl_actions : list action;
  tl_escalations : list escalation;
  tl_escalated : list string
}.
Definition no_tally : sweep_tally := Tally 0 0 [] [] [].

Record report := Report {
  rp_at : string;
  rp_scanned : Z;
  rp_pruned : Z;
  rp_tally : sweep_tally
}.

Section Sweep.
Context `{IsoStamps} `{JsonText} `{PyNumbers} `{PyFloat} `{PyUnicode} `{Sha1}.

Record sweep_cfg := SweepCfg {
  sc_max_attempts : Z;
  sc_max_revives : Z;
  sc_delay : pyfloat;
  sc_repeat : Z;
  sc_retention : Z;
  sc_limit : Z
}.

(** What a sweep meets: what others do before each statement, whether it runs, and the
    clock it reads. *)
Record sweep_world := SweepWorld {
  sw_env : stmt_no -> wdb -> wdb;
  sw_ok : stmt_no -> bool;
  sw_clk : stmt_no -> Z
}.

Definition stmt {A} (w : sweep_world) (n : stmt_no) (f : wdb -> A * wdb) : st wdb A :=
  fun d => let d := w.(sw_env) n d in
           if w.(sw_ok) n then let '(a, d) := f d in (Ok a, d) else (Raise DatabaseError, d).
Definition on_queue {A} (f : db -> A * db) (d : wdb) : A * wdb := let '(a, b) := f d.(w_db) in (a, with_db b d).
Definition on_marks (f : watermarks -> watermarks) (d : wdb) : unit * wdb := (tt, with_marks (f d.(w_marks)) d).

(** [QueueItem.from_row], the payload; the sibling test takes [payload or {}]. *)
Definition item_payload (r : qrow) : outcome json :=
  match r.(q_payload_json) with
  | EmptyString => Ok (JObj [])
  | s => match loads s with Some v => Ok v | None => Raise ValueError end
  end.
Definition or_blank (v : json) : option json := if json_true v then Some v else None.

Definition revives_of (r : qrow) : outcome Z :=
  int_of (default (JInt 0) (obj_get "revives" (default [] (loads_or_none r.(q_triage_json))))).

Definition tally_key (source : string) (sig : text) : string :=
  (TALLY_PREFIX ++ encode (upto (sha1 (utf8 source ++ u "|" ++ sig)) 12))%string.

(** [_load_tally(...) or {...}], counted up. *)
Definition bump_tally (now : Z) (source : string) (sig : text) (error : text) (raw : option string)
    : outcome (Z * list (string * json)) :=
  let tally := match loads_or_none raw with
               | Some ((_ :: _) as fs) => fs
               | _ => [("source", JStr source); ("signature", JStr (encode sig)); ("count", JInt 0);
                       ("first_seen", JStr (iso now))]%string
               end in
  count <-? int_of (default (JInt 0) (obj_get "count" tally)) ;;
  Ok (count + 1,
      obj_put "last_error" (JStr (encode (upto error 500)))
        (obj_put "last_seen" (JStr (iso now)) (obj_put "count" (JInt (count + 1)) tally))).

(** Why a row is not revived; whether a sibling is open is asked last. *)
Definition REVIVE_REASON : text := u "transient failure — one more claim".
Definition asks_sibling (cls : fclass) (revives max_revives : Z) : bool :=
  bool_decide (cls = Transient) && negb (max_revives <=? revives).
Definition condemned (cls : fclass) (revives max_revives : Z) (sibling : bool) : option text :=
  match cls with
  | Structural => Some (u "not retryable — the item reproduces this failure")
  | Transient =>
      if max_revives <=? revives then Some (u "transient, but already revived " ++ show revives ++ u "x")
      else if sibling then Some (u "an equivalent item is already open — reviving would duplicate it")
      else None
  end.

Definition triage_note (now : Z) (sig : text) (cls : fclass) (count : Z) (error : text) (reason : option text)
    (revives : Z) : list (string * json) :=
  [("at", JStr (iso now)); ("signature", JStr (encode sig)); ("class", JStr (encode (class_text cls)));
   ("occurrences", JInt count); ("error", JStr (encode (upto error 500)));
   ("action", JStr (match reason with Some _ => "quarantined" | None => "revived" end));
   ("reason", JStr (encode (default REVIVE_REASON reason)));
   ("revives", JInt (match reason with Some _ => revives | None => revives + 1 end))]%string.

(** [max(0.0, delay_seconds)] as a [timedelta]. *)
Definition delay_us (delay : pyfloat) : outcome Z := if flt (flit 0 0) delay then fusec delay else Ok 0.

(** The write: one more claim, or none. *)
Definition settle_item (w : sweep_world) (k : nat) (c : sweep_cfg) (item : qrow) (reason : option text)
    (note : list (string * json)) : st wdb bool :=
  match reason with
  | Some _ => stmt w (S_item k 3) (on_queue (quarantine (w.(sw_clk) (S_item k 4)) item.(q_id) (Some (JObj note))))
  | None =>
      let t := w.(sw_clk) (S_item k 3) in
      us <-s slift (delay_us c.(sc_delay)) ;;
      if in_range (t + us) then
        stmt w (S_item k 3)
          (on_queue (revive t (w.(sw_clk) (S_item k 4)) item.(q_id) (Z.max 0 (c.(sc_max_attempts) - 1)) us (Some (JObj note))))
      else sraise OverflowError
  end.

(** A row that was no longer poisoned is left out of the report. *)
Definition count_in (c : sweep_cfg) (item : qrow) (sig : text) (cls : fclass) (key : string) (count : Z)
    (reason : option text) (ok : bool) (t : sweep_tally) : sweep_tally :=
  if ok then
    let esc := (c.(sc_repeat) <=? count) && negb (bool_decide (key ∈ t.(tl_escalated))) in
    Tally (if reason then t.(tl_revived) else t.(tl_revived) + 1)
      (if reason then t.(tl_quarantined) + 1 else t.(tl_quarantined))
      (t.(tl_actions) ++ [Action item.(q_id) item.(q_source) item.(q_kind) item.(q_attempts) sig cls
                            (if reason then false else true) (default REVIVE_REASON reason) count])
      (if esc then t.(tl_escalations) ++ [Escalation item.(q_source) sig count cls] else t.(tl_escalations))
      (if esc then key :: t.(tl_escalated) else t.(tl_escalated))
  else t.

(** One round of the loop. *)
Definition triage_item (w : sweep_world) (k : nat) (c : sweep_cfg) (now : Z) (item : qrow) (payload : json)
    (t : sweep_tally) : st wdb sweep_tally :=
  let error := default [] item.(q_error) in
  let sig := signature item.(q_error) in
  let cls := classify item.(q_error) in
  let key := tally_key item.(q_source) sig in
  raw <-s stmt w (S_item k 0) (fun d => (wm_get SOURCE key d.(w_marks), d)) ;;
  counted <-s slift (bump_tally now item.(q_source) sig error raw) ;;
  _ <-s stmt w (S_item k 1) (on_marks (wm_set (w.(sw_clk) (S_item k 1)) SOURCE key (dumps_ascii (JObj (snd counted))))) ;;
  revives <-s slift (revives_of item) ;;
  sibling <-s (if asks_sibling cls revives c.(sc_max_revives) then
                 stmt w (S_item k 2) (fun d => (has_open_sibling item.(q_source) item.(q_kind) (or_blank payload) item.(q_id) d.(w_db), d))
               else sret false) ;;
  let reason := condemned cls revives c.(sc_max_revives) sibling in
  ok <-s settle_item w k c item reason (triage_note now sig cls (fst counted) error reason revives) ;;
  sret (count_in c item sig cls key (fst counted) reason ok t).

Fixpoint triage_all (w : sweep_world) (k : nat) (c : sweep_cfg) (now : Z) (items : list (qrow * json)) (t : sweep_tally)
    : st wdb sweep_tally :=
  match items with
  | [] => sret t
  | (item, payload) :: items => t <-s triage_item w k c now item payload t ;; triage_all w (S k) c now items t
  end.

(** [_prune_tallies]: whether a tally is dropped. *)
Definition stale_tally (cutoff : Z) (raw : string) : outcome bool :=
  match loads raw with
  | None => Ok true
  | Some v =>
      match (if json_true v then v else JObj []) with
      | JObj fs => match default (JStr EmptyString) (obj_get "last_seen" fs) with
                   | JStr s => match iso_parse s with Some t => Ok (t <? cutoff) | None => Ok true end
                   | _ => Ok true
                   end
      | _ => Raise AttributeError
      end
  end.

Fixpoint prune_loop (w : sweep_world) (j : nat) (cutoff : Z) (tallies : list (string * string)) (dropped : Z) : st wdb Z :=
  match tallies with
  | [] => sret dropped
  | (key, raw) :: tallies =>
      if negb (String.prefix TALLY_PREFIX key) then prune_loop w j cutoff tallies dropped
      else
        stale <-s slift (stale_tally cutoff raw) ;;
        if stale : bool then
          _ <-s stmt w (S_drop j) (on_marks (wm_delete SOURCE key)) ;;
          prune_loop w (S j) cutoff tallies (dropped + 1)
        else prune_loop w j cutoff tallies dropped
  end.

Definition day_us : Z := 86400 * usec.
Definition prune_tallies (w : sweep_world) (retention now : Z) : st wdb Z :=
  let days := Z.max 1 retention in
  let cutoff := now - days * day_us in
  if negb ((days <=? 999999999) && in_range cutoff) then sraise OverflowError
  else
    tallies <-s stmt w S_tallies (fun d => (map_to_list (wm_all SOURCE d.(w_marks)), d)) ;;
    prune_loop w 0 cutoff tallies 0.

Fixpoint with_payloads (rows : list qrow) : outcome (list (qrow * json)) :=
  match rows with
  | [] => Ok []
  | r :: rows => v <-? item_payload r ;; rest <-? with_payloads rows ;; Ok ((r, v) :: rest)
  end.

Definition scan (c : sweep_cfg) (d : db) : list qrow := list_items (Some (state_text Poisoned)) None c.(sc_limit) d.

Definition sweep (w : sweep_world) (c : sweep_cfg) (now : Z) : st wdb report :=
  rows <-s stmt w S_list (fun d => (scan c d.(w_db), d)) ;;
  items <-s slift (with_payloads rows) ;;
  t <-s triage_all w 0 c now items no_tally ;;
  pruned <-s prune_tallies w c.(sc_retention) now ;;
  sret (Report (iso now) (Z.of_nat (length rows)) pruned t).

(** ** Reporting *)

Definition BQ : text := u "`".
Definition escalation_line (e : escalation) : text :=
  u "- **" ++ utf8 e.(e_source) ++ u "** — " ++ show e.(e_count) ++ u "x " ++ BQ ++ e.(e_signature) ++ BQ.
Definition action_line (a : action) : text :=
  u "| " ++ show a.(a_item_id) ++ u " | " ++ utf8 a.(a_source) ++ u "/" ++ utf8 a.(a_kind) ++ u " | "
  ++ class_text a.(a_class) ++ u " | " ++ (if a.(a_revived) then u "revived" else u "quarantined") ++ u " | "
  ++ a.(a_reason) ++ u " | " ++ show a.(a_occurrences) ++ u "x |".

Definition render_report (r : report) : text :=
  let t := r.(rp_tally) in
  join nl
    ([u "---"; u "at: '" ++ utf8 r.(rp_at) ++ u "'"; u "scanned: " ++ show r.(rp_scanned);
      u "revived: " ++ show t.(tl_revived); u "quarantined: " ++ show t.(tl_quarantined);
      u "escalations: " ++ show (Z.of_nat (length t.(tl_escalations))); u "---"; []; u "# Poison sweep"; []]
     ++ (if nonnil t.(tl_escalations) then
           [u "## Escalations — a transient-looking cause that keeps recurring"; []]
           ++ map escalation_line t.(tl_escalations) ++ [[]]
         else [])
     ++ [u "## Actions"; []; u "| item | source/kind | class | action | why | seen |"; u "|---|---|---|---|---|---|"]
     ++ map action_line t.(tl_actions)
     ++ [[]; u "## Signatures"; []]
     ++ map (fun a => u "- " ++ BQ ++ a.(a_signature) ++ BQ) t.(tl_actions))
  ++ nl.

Definition escalation_json (e : escalation) : json :=
  JObj [("source", JStr e.(e_source)); ("signature", JStr (encode e.(e_signature))); ("count", JInt e.(e_count));
        ("class", JStr (encode (class_text e.(e_class))))]%string.

(** What a recorded sweep meets besides: its clock readings, a fresh run id and where
    the note was written, if it was. *)
Record sweep_run := SweepRun {
  sr_world : sweep_world;
  sr_started : Z;
  sr_completed : Z;
  sr_run_id : string;
  sr_note : text -> option string
}.

Definition setting (k : string) (cfg : list (string * json)) : json := default JNull (obj_get k (obj_merge DEFAULTS cfg)).

Definition sweep_settings (cfg : list (string * json)) (max_attempts : Z) : outcome sweep_cfg :=
  revives <-? int_of (setting "max_revives" cfg) ;;
  delay <-? float_of (setting "revive_delay_seconds" cfg) ;;
  repeat <-? int_of (setting "repeat_threshold" cfg) ;;
  retention <-? int_of (setting "tally_retention_days" cfg) ;;
  lim <-? int_of (setting "scan_limit" cfg) ;;
  Ok (SweepCfg max_attempts revives delay repeat retention lim).

Definition sweep_summary (r : report) : text :=
  let t := r.(rp_tally) in
  u "swept " ++ show r.(rp_scanned) ++ u " poisoned: " ++ show t.(tl_revived) ++ u " revived, "
  ++ show t.(tl_quarantined) ++ u " quarantined"
  ++ (if nonnil t.(tl_escalations) then u "; " ++ show (Z.of_nat (length t.(tl_escalations))) ++ u " recurring" else []).

(** [run_sweep]: a sweep that changed nothing leaves its two marks and no run. *)
Definition run_sweep (s : sweep_run) (cfg : list (string * json)) (max_attempts : Z) : st wdb report :=
  let w := s.(sr_world) in
  c <-s slift (sweep_settings cfg max_attempts) ;;
  r <-s sweep w c s.(sr_started) ;;
  let t := r.(rp_tally) in
  let escalations := JList (map escalation_json t.(tl_escalations)) in
  path <-s
    (if negb (t.(tl_revived) + t.(tl_quarantined) =? 0) then
       let path := s.(sr_note) (render_report r) in
       o <-s stmt w S_run
         (on_queue (record_run s.(sr_run_id) None SOURCE "success" (iso s.(sr_started)) (iso s.(sr_completed))
            (s.(sr_completed) - s.(sr_started)) (sweep_summary r) (default EmptyString path) [] None
            (utf8 (dumps_ascii (JObj [("revived", JInt t.(tl_revived)); ("quarantined", JInt t.(tl_quarantined));
                                      ("escalations", escalations)]%string))) [] None)) ;;
       _ <-s slift o ;;
       sret path
     else sret None) ;;
  _ <-s stmt w (S_mark 0) (on_marks (wm_set (w.(sw_clk) (S_mark 0)) SOURCE LAST_SWEEP_AT (iso s.(sr_started)))) ;;
  _ <-s stmt w (S_mark 1) (on_marks (wm_set (w.(sw_clk) (S_mark 1)) SOURCE LAST_SWEEP
          (dumps_ascii (JObj [("at", JStr r.(rp_at)); ("scanned", JInt r.(rp_scanned));
                              ("revived", JInt t.(tl_revived)); ("quarantined", JInt t.(tl_quarantined));
                              ("escalations", escalations);
                              ("report_path", match path with Some p => JStr p | None => JNull end)]%string)))) ;;
  sret r.

Definition last_sweep (m : watermarks) : option (list (string * json)) := loads_or_none (wm_get SOURCE LAST_SWEEP m).

(** ** The seat on the scheduler loop *)

(** Whether the interval has passed since the mark; an unreadable mark is due. *)
Definition sweep_due (now interval : Z) (last_at : option string) : bool :=
  match last_at with
  | None | Some EmptyString => true
  | Some s => match iso_parse s with
              | Some t => negb (now - t <? interval * usec)
              | None => true
              end
  end.

(** [x.get(k) or {}] of a value that should be a dict. *)
Definition sub_config (k : string) (v : json) : outcome json :=
  match v with
  | JObj fs => let x := default JNull (obj_get k fs) in Ok (if json_true x then x else JObj [])
  | _ => Raise AttributeError
  end.
Definition dict_get (k : string) (dflt v : json) : outcome json :=
  match v with JObj fs => Ok (cfg_get k fs dflt) | _ => Raise AttributeError end.
Definition default_of (k : string) : json := default JNull (obj_get k DEFAULTS).

(** [_maybe_sweep_poisoned], given [CONFIG]: whether a sweep was started; an exception
    is logged. *)
Definition maybe_sweep_poisoned (s : sweep_run) (read_ok force : bool) (now : Z) (config : json) (max_attempts : Z)
    (d : wdb) : bool * wdb :=
  let go : outcome (option (list (string * json))) :=
    workers <-? sub_config "workers" config ;;
    cfg <-? sub_config "maintenance" workers ;;
    enabled <-? dict_get "enabled" (default_of "enabled") cfg ;;
    if negb (json_true enabled) then Ok None
    else if force then Ok (Some (fields_of cfg))
    else
      raw <-? dict_get "interval_seconds" (default_of "interval_seconds") cfg ;;
      interval <-? int_of raw ;;
      if negb read_ok then Raise DatabaseError
      else if sweep_due now interval (wm_get SOURCE LAST_SWEEP_AT d.(w_marks)) then Ok (Some (fields_of cfg))
      else Ok None in
  match go with
  | Ok (Some cfg) => (true, snd (run_sweep s cfg max_attempts d))
  | _ => (false, d)
  end.
End Sweep.
