(* ===== verification/Fleet.v ===== *)
(** * What the fleet does to the queue

    The claims a queue has handed out, as the log of its history: the steps of the
    workers and the sources, the writes a poison sweep may make, and the bound they keep
    on how often one item runs. *)
From Stdlib Require Import String.
From S2P Require Import Prelude PyText Stamps QueueRows QueueOps QueueInv QueueClaim QueueLife Policy PoolPause PoolGates PoolRun JsonCodec Triage.

Local Open Scope Z_scope.

(** Values a triage note and a tally are made of. *)
Definition plain (v : json) : bool := match v with JInt _ | JStr _ => true | _ => false end.
Definition flat (fs : list (string * json)) : Prop := NoDup (map fst fs) /\ forallb (fun kv => plain (snd kv)) fs = true.

(** A flat dict survives [json.dumps] and [json.loads]. *)
Class JsonReadBack `{JsonText} := {
  read_back fs : flat fs -> loads_or_none (Some (dumps_ascii (JObj fs))) = Some fs
}.

(** How often an item is claimed in a log. *)
Definition claims_of (i : Z) (log : list Z) : Z := rowcount (Z.eqb i) log.

Lemma claims_of_app i log log' : claims_of i (log ++ log') = claims_of i log + claims_of i log'.
Proof. unfold claims_of, rowcount. rewrite sel_app, length_app. lia. Qed.

Lemma claims_of_nonneg i log : 0 <= claims_of i log.
Proof. unfold claims_of, rowcount. lia. Qed.

Lemma claims_of_none i log : i ∉ log -> claims_of i log = 0.
Proof.
  intros Hi. unfold claims_of, rowcount. replace (sel (Z.eqb i) log) with (@nil Z); [done|].
  symmetry. apply sel_nil_iff. intros j Hj. apply Z.eqb_neq. by intros ->.
Qed.

Section Fleet.
Context `{IsoStamps} `{JsonText} `{PyNumbers} (cap : Z).

(** One call by a worker, a source or recovery, with the claims it makes. *)
Inductive work : db -> list Z -> db -> Prop :=
| work_enqueue now src kind payload prio key d :
    work d [] (snd (enqueue now src kind payload prio key d))
| work_claim now clk w q ex d o d' :
    claim_next now clk cap w q ex d = (o, d') ->
    work d (match o with Some r => [r.(q_id)] | None => [] end) d'
| work_running i rid d : work d [] (mark_running i rid d)
| work_completed now stamp i release not_before d :
    held i d -> work d [] (mark_completed now stamp i release not_before d)
| work_failed now i err c d : held i d -> work d [] (snd (mark_failed now cap i err c d))
| work_run rid qid src st sa ca dur sum ap rj tid mj cj k d :
    work d [] (snd (record_run rid qid src st sa ca dur sum ap rj tid mj cj k d))
| work_recover at_ swept mint ws d : work d [] (snd (recover_claimed at_ swept mint cap ws d)).

Inductive works : db -> list Z -> db -> Prop :=
| works_nil d : works d [] d
| works_step d log d1 log1 d2 : works d log d1 -> work d1 log1 d2 -> works d (log ++ log1) d2.

(** A row as a sweep listed it, still as far as triage goes what the queue holds. *)
Definition frozen (item : qrow) (d : db) : Prop :=
  exists r, r ∈ d.(queue) /\ q_id r = q_id item /\ q_state r = Poisoned /\ q_triage_json r = q_triage_json item.

(** What a sweep may write: one more claim for a row with revives left, counted in its
    note, or the end of the row, its count kept. *)
Inductive triaged (max_revives : Z) (d : db) : db -> Prop :=
| triaged_revived item now stamp us note n :
    frozen item d -> revives_of item = Ok n -> n < max_revives ->
    flat note -> obj_get "revives" note = Some (JInt (n + 1)) ->
    triaged max_revives d (snd (revive now stamp item.(q_id) (Z.max 0 (cap - 1)) us (Some (JObj note)) d))
| triaged_quarantined item now note n :
    frozen item d -> revives_of item = Ok n -> flat note -> obj_get "revives" note = Some (JInt n) ->
    triaged max_revives d (snd (quarantine now item.(q_id) (Some (JObj note)) d)).

Inductive fleet (max_revives : Z) : db -> list Z -> db -> Prop :=
| fleet_nil d : fleet max_revives d [] d
| fleet_work d log d1 log1 d2 :
    fleet max_revives d log d1 -> work d1 log1 d2 -> fleet max_revives d (log ++ log1) d2
| fleet_triage d log d1 d2 :
    fleet max_revives d log d1 -> triaged max_revives d1 d2 -> fleet max_revives d log d2.

Lemma fleet_trans mr d log d1 log1 d2 : fleet mr d log d1 -> fleet mr d1 log1 d2 -> fleet mr d (log ++ log1) d2.
Proof.
  intros F G. induction G as [d1|d1 l1 d2 l2 d3 G IH W|d1 l1 d2 d3 G IH T].
  - by rewrite app_nil_r.
  - rewrite app_assoc. eapply fleet_work; [by apply IH|done].
  - eapply fleet_triage; [by apply IH|done].
Qed.

Lemma works_fleet mr d log d' : works d log d' -> fleet mr d log d'.
Proof. induction 1; [constructor|by eapply fleet_work]. Qed.

(** ** What a worker's call keeps of a row *)

Record kept (log : list Z) (r r' : qrow) : Prop := {
  kept_id : q_id r' = q_id r;
  kept_triage : q_triage_json r' = q_triage_json r;
  kept_attempts : q_attempts r + claims_of (q_id r) log <= q_attempts r';
  kept_poisoned : q_state r = Poisoned -> q_state r' = Poisoned
}.

(** The rows are kept in place, those added are new, and what is claimed was there. *)
Definition keeps (d : db) (log : list Z) (d' : db) : Prop :=
  (exists q new, d'.(queue) = q ++ new /\ Forall2 (kept log) d.(queue) q
     /\ Forall (fun r => q_triage_json r = None /\ q_attempts r = 0) new)
  /\ (forall i, i ∈ log -> i ∈ ids d).

Lemma kept_refl r : kept [] r r.
Proof. split; [done|done| |done]. unfold claims_of, rowcount. simpl. lia. Qed.

Lemma kept_all t : Forall2 (kept []) t t.
Proof. induction t; constructor; auto using kept_refl. Qed.

Lemma keeps_rows d d' : Forall2 (kept []) d.(queue) d'.(queue) -> keeps d [] d'.
Proof.
  intros F. split; [|intros i Hi; by apply elem_of_nil in Hi].
  exists (queue d'), []. rewrite app_nil_r. by repeat split.
Qed.

Lemma keeps_same d d' : queue d' = queue d -> keeps d [] d'.
Proof. intros E. apply keeps_rows. rewrite E. apply kept_all. Qed.

Lemma keeps_update p f d :
  (forall r, r ∈ d.(queue) -> p r = true -> kept [] r (f r)) -> keeps d [] (update p f d).
Proof.
  intros Hf. apply keeps_rows. unfold update, with_queue. simpl.
  induction (queue d) as [|a t IH]; simpl; constructor.
  - destruct (p a) eqn:E; [apply Hf; [by left|done]|apply kept_refl].
  - apply IH. intros r Hr. apply Hf. by right.
Qed.

Ltac kept_solve :=
  split; row_cbn; unfold claims_of, rowcount; simpl; try done; try lia.

Lemma held_not_poisoned i d r : wf cap d -> held i d -> r ∈ queue d -> is_id i r = true -> q_state r <> Poisoned.
Proof.
  intros W Hh Hr Hi. apply Z.eqb_eq in Hi. pose proof (held_row cap i d r W Hh Hr Hi) as F.
  intros E. unfold in_flight, in_state in F. by rewrite E in F.
Qed.

Lemma keeps_insert now src kind prio pj key d :
  keeps d [] (snd (insert_row now src kind prio pj key d)).
Proof.
  unfold insert_row. case_match; [by apply keeps_same|].
  split; [|intros i Hi; by apply elem_of_nil in Hi]. simpl.
  eexists (queue d), _. split; [reflexivity|]. split; [apply kept_all|]. by repeat constructor.
Qed.

Lemma keeps_enqueue now src kind payload prio key d :
  keeps d [] (snd (enqueue now src kind payload prio key d)).
Proof.
  unfold enqueue.
  assert (forall d pj, keeps d [] (snd (let '(o, d) := insert_row now src kind prio pj key d in
                   (i <-? o ;; Ok (Some i), d)))) as Hins.
  { intros d0 pj. pose proof (keeps_insert now src kind prio pj key d0).
    by destruct (insert_row _ _ _ _ _ _ _). }
  destruct key as [k|]; [|apply Hins]. destruct (truthy _); [|apply Hins].
  destruct (sel1 _ _) as [r|]; [|apply Hins]. destruct (is_live r); [by apply keeps_same|].
  destruct (Hins (update (is_id (q_id r)) (set_dedup_key None) d) (dumps (or_empty payload)))
    as [(q & new & Eq & F & N) _].
  split; [|intros i Hi; by apply elem_of_nil in Hi]. exists q, new. split; [exact Eq|]. split; [|done].
  eapply Forall2_compose; [|apply (upd_Forall2 (is_id (q_id r)) (set_dedup_key None))|exact F].
  intros a b c _ -> [K1 K2 K3 K4]. destruct (is_id _ a); [|by split]. by split; row_cbn.
Qed.

Lemma keeps_claim now clk w q ex d o d' :
  0 <= cap -> wf cap d -> claim_next now clk cap w q ex d = (o, d') ->
  keeps d (match o with Some r => [r.(q_id)] | None => [] end) d'.
Proof.
  intros Hc W E. apply claim_next_spec in E; [|done..].
  assert (forall bound ex r r', left_by_claim cap bound ex r r' -> kept [] r r') as Hl.
  { intros bound ex0 r r' [->|[He [t ->]]]; [apply kept_refl|]. unfold poisoned. kept_solve. }
  destruct o as [r'|].
  2:{ destruct E as [F _]. apply keeps_rows. eapply Forall2_impl; [done|]. eauto. }
  destruct E as (row & i & Hin & He & -> & (l1 & l2 & m1 & m2 & Q & Q' & F1 & F2) & _).
  assert (q_state row = Queued) as Es.
  { unfold eligible, claimable, in_state in He. by bool_simp. }
  pose proof (wf_ids _ _ W) as Hn. unfold ids in Hn. rewrite Q, map_app in Hn. simpl in Hn.
  apply NoDup_app in Hn as (_ & Hd & [Hr _]%NoDup_cons).
  assert (forall l m, (forall r, r ∈ l -> q_id r <> q_id row) -> Forall2 (left_by_claim cap (iso now) (saturated q d ++ ex)) l m ->
    Forall2 (kept [q_id row]) l m) as Hlift.
  { intros l m Hne F. induction F as [|a b l m Hab _ IH]; constructor.
    - destruct (Hl _ _ _ _ Hab) as [K1 K2 K3 K4]. split; [done|done| |done].
      rewrite (claims_of_none (q_id a) [q_id row]); [by rewrite claims_of_none in K3 by apply not_elem_of_nil|].
      intros Ha%list_elem_of_singleton. by apply (Hne a); [left|].
    - apply IH. intros r Hx. apply Hne. by right. }
  split.
  - exists (queue d'), []. rewrite app_nil_r. split; [done|]. split; [|constructor]. rewrite Q, Q'.
    apply Forall2_app; [|constructor].
    + apply Hlift; [|done]. intros r Hx Ex. apply (Hd (q_id r)); [by apply list_elem_of_fmap_2|]. rewrite Ex. by left.
    + unfold claimed. split; row_cbn; [done|done| |by rewrite Es].
      unfold claims_of, rowcount. simpl. rewrite Z.eqb_refl. simpl. lia.
    + apply Hlift; [|done]. intros r Hx Ex. apply Hr. rewrite <-Ex. by apply list_elem_of_fmap_2.
  - unfold claimed. row_cbn. intros j ->%list_elem_of_singleton. unfold ids. rewrite Q, map_app.
    apply elem_of_app. right. by left.
Qed.

Lemma work_keeps d log d' : 0 <= cap -> wf cap d -> work d log d' -> wf cap d' /\ keeps d log d'.
Proof.
  intros Hc W S. destruct S as [now src kind payload prio key d|now clk w q ex d o d' E|i rid d
    |now stamp i rel nb d Hh|now i err c d Hh|rid qid src st sa ca dur sum ap rj tid mj cj k d|at_ sw mint ws d].
  - split; [by apply wf_enqueue|apply keeps_enqueue].
  - split; [|by eapply keeps_claim]. pose proof (wf_claim_next cap now clk w q ex d W) as W'. by rewrite E in W'.
  - split; [by apply wf_mark_running|]. apply keeps_update. intros r Hr Hp.
    unfold in_state in Hp. bool_simp. kept_solve. intros E. congruence.
  - split; [by apply wf_mark_completed|]. unfold mark_completed.
    pose proof (fun r => held_not_poisoned i d r W Hh) as Hnp.
    destruct (deferral _ _); [|destruct rel]; apply keeps_update; intros r Hr Hp; specialize (Hnp r Hr Hp); kept_solve.
  - split; [by apply wf_mark_failed|]. unfold mark_failed.
    pose proof (fun r => held_not_poisoned i d r W Hh) as Hnp.
    destruct (get i d); [|by apply keeps_same].
    case_match; apply keeps_update; intros r Hr Hp; specialize (Hnp r Hr Hp); kept_solve.
  - destruct (record_run _ _ _ _ _ _ _ _ _ _ _ _ _ _ d) as [o d'] eqn:E.
    unfold record_run in E. eapply insert_run_wf in E as [W' Q]; [|exact W]. split; [done|by apply keeps_same].
  - split; [by apply wf_recover|]. destruct (recover_claimed _ _ _ _ _ _) as [o d'] eqn:E.
    apply recover_queue in E as [F _]; [|done]. apply keeps_rows. eapply Forall2_impl; [done|].
    intros r r' R. unfold recovered in R. destruct (in_flight r) eqn:Ef; simpl in R; [|subst; apply kept_refl].
    assert (q_state r <> Poisoned) by (intros Es; unfold in_flight, in_state in Ef; by rewrite Es in Ef).
    destruct (owned ws r); [|subst; apply kept_refl].
    case_match; [destruct R as [t ->]; unfold poisoned|subst r'; unfold requeue]; kept_solve.
Qed.

Lemma works_wf d log d' : 0 <= cap -> works d log d' -> wf cap d -> wf cap d'.
Proof. intros Hc. induction 1 as [|d log d1 log1 d2 _ IH S]; intros W; [done|]. eapply work_keeps; [done| |exact S]. by apply IH. Qed.

Lemma frozen_work item d log d' : 0 <= cap -> wf cap d -> work d log d' -> frozen item d -> frozen item d'.
Proof.
  intros Hc W S (r & Hr & Hi & Hs & Ht). destruct (work_keeps _ _ _ Hc W S) as [_ [(q & new & Eq & F & _) _]].
  destruct (list_elem_of_lookup_1 _ _ Hr) as [n Hn]. destruct (Forall2_lookup_l _ _ _ _ _ F Hn) as (r' & Hn' & K).
  apply list_elem_of_lookup_2 in Hn'. exists r'. rewrite Eq. split; [apply elem_of_app; by left|].
  destruct K as [K1 K2 K3 K4]. split; [congruence|]. split; [auto|congruence].
Qed.

Lemma frozen_works item d log d' : 0 <= cap -> works d log d' -> wf cap d -> frozen item d -> frozen item d'.
Proof.
  intros Hc S W Hf. induction S as [|d log d1 log1 d2 S1 IH S2]; [done|].
  eapply frozen_work; [done| |exact S2|by apply IH]. by eapply works_wf.
Qed.
End Fleet.

(** ** The bound *)

Section Bound.
Context `{IsoStamps} `{JsonReadBack} `{PyNumbers} (cap max_revives : Z) (cap_pos : 1 <= cap).

Lemma revives_of_ext r r' : q_triage_json r' = q_triage_json r -> revives_of r' = revives_of r.
Proof. unfold revives_of. by intros ->. Qed.

Lemma revives_of_none r : q_triage_json r = None -> revives_of r = Ok 0.
Proof. unfold revives_of. intros ->. simpl. apply int_of_int. Qed.

Lemma revives_of_note r fs n :
  flat fs -> obj_get "revives" fs = Some (JInt n) -> q_triage_json r = Some (dumps_ascii (or_empty (Some (JObj fs)))) ->
  revives_of r = Ok n.
Proof. unfold revives_of. intros Hf Hn ->. simpl or_empty. rewrite read_back by done. simpl. rewrite Hn. apply int_of_int. Qed.

Record bounded (log : list Z) (d : db) : Prop := {
  bd_wf : wf cap d;
  bd_rows r : r ∈ d.(queue) ->
    exists n, revives_of r = Ok n /\ 0 <= n <= Z.max 0 max_revives /\ claims_of (q_id r) log <= q_attempts r + n;
  bd_log i : i ∈ log -> i ∈ ids d
}.

Lemma bounded_work log d log1 d' : bounded log d -> work cap d log1 d' -> bounded (log ++ log1) d'.
Proof.
  intros [W Hrows Hlog] S. destruct (work_keeps cap d log1 d' ltac:(lia) W S) as [W' [(q & new & Eq & F & N) Hl1]].
  assert (map q_id q = ids d) as Eids.
  { clear -F. unfold ids. induction F as [|r r' l m [K _ _ _] _ IH]; simpl; [done|]. by rewrite K, IH. }
  split; [done| |].
  - intros r'. rewrite Eq, elem_of_app. intros [Hr|Hr].
    + destruct (list_elem_of_lookup_1 _ _ Hr) as [k Hk]. destruct (Forall2_lookup_r _ _ _ _ _ F Hk) as (r & Hk' & [K1 K2 K3 _]).
      destruct (Hrows r (list_elem_of_lookup_2 _ _ _ Hk')) as (n & Hn & Hb & Hc).
      exists n. rewrite (revives_of_ext r r') by done. split; [done|]. split; [done|].
      rewrite claims_of_app, K1. lia.
    + rewrite Forall_forall in N. destruct (N r' Hr) as [Ht Ha]. exists 0. split; [by apply revives_of_none|]. split; [lia|].
      assert (q_id r' ∉ ids d) as Hnew.
      { intros Hin. pose proof (wf_ids _ _ W') as Hn. unfold ids in Hn. rewrite Eq, map_app, Eids in Hn.
        apply NoDup_app in Hn as (_ & Hn & _). apply (Hn _ Hin). by apply list_elem_of_fmap_2. }
      rewrite claims_of_none; [lia|]. intros [Hi|Hi]%elem_of_app; auto.
  - intros i [Hi|Hi]%elem_of_app; unfold ids; rewrite Eq, map_app, Eids; apply elem_of_app; left; auto.
Qed.

(** An update of the rows a sweep listed under one id, notes and all. *)
Lemma bounded_update log d item n m f :
  bounded log d -> frozen item d -> revives_of item = Ok n -> 0 <= m <= Z.max 0 max_revives ->
  (forall r, q_id (f r) = q_id r) -> (forall r, revives_of (f r) = Ok m) ->
  (forall r, row_ok cap r -> q_attempts r + n <= q_attempts (f r) + m) ->
  wf cap (update (fun r => is_id item.(q_id) r && in_state Poisoned r) f d) ->
  bounded log (update (fun r => is_id item.(q_id) r && in_state Poisoned r) f d).
Proof.
  intros [W Hrows Hlog] (r0 & Hr0 & Hi0 & Hs0 & Ht0) Hn Hm Hid Hf Ha W'.
  split; [done| |by rewrite ids_update].
  intros r' (r & Hr & ->)%elem_of_upd. destruct (Hrows r Hr) as (k & Hk & Hb & Hc).
  destruct (is_id (q_id item) r && in_state Poisoned r) eqn:E; [|by exists k].
  apply andb_true_iff in E as [Ei%Z.eqb_eq _].
  assert (r = r0) as -> by (apply (ids_unique cap d); [done..|congruence]).
  assert (k = n) as -> by (rewrite (revives_of_ext item) in Hk by done; congruence).
  exists m. split; [done|]. split; [done|]. rewrite Hid.
  pose proof (proj1 (Forall_forall _ _) (wf_rows _ _ W) r0 Hr) as Hok. specialize (Ha r0 Hok). lia.
Qed.

Lemma bounded_triaged log d d' : bounded log d -> triaged cap max_revives d d' -> bounded log d'.
Proof.
  intros B T. assert (forall item n, frozen item d -> revives_of item = Ok n -> 0 <= n <= Z.max 0 max_revives) as Hn.
  { intros item n (r & Hr & _ & _ & Ht) Hn. destruct (bd_rows _ _ B r Hr) as (k & Hk & Hb & _).
    rewrite (revives_of_ext item) in Hk by done. congruence. }
  destruct T as [item now stamp us note n Hf Hr Hlt Hfl Hg|item now note n Hf Hr Hfl Hg]; specialize (Hn item n Hf Hr).
  - apply (bounded_update log d item n (n + 1)); [done|done|done|lia|done| | |].
    + intros r. by apply (revives_of_note _ note).
    + intros r [? _]. row_cbn. lia.
    + apply (wf_revive cap now stamp (q_id item) _ us (Some (JObj note)) d); [lia|apply B].
  - apply (bounded_update log d item n n); [done|done|done|lia|done| | |].
    + intros r. by apply (revives_of_note _ note).
    + intros r _. row_cbn. lia.
    + apply (wf_quarantine cap now (q_id item) (Some (JObj note)) d), B.
Qed.

Lemma bounded_fleet log d log' d' : bounded log d -> fleet cap max_revives d log' d' -> bounded (log ++ log') d'.
Proof.
  intros B F. induction F as [d|d l1 d1 l2 d2 F IH S|d l1 d1 d2 F IH T].
  - by rewrite app_nil_r.
  - rewrite app_assoc. eapply bounded_work; [by apply IH|done].
  - eapply bounded_triaged; [by apply IH|done].
Qed.

Lemma bounded_empty : bounded [] empty_db.
Proof. split; [apply wf_empty| |]; intros r Hr; by apply elem_of_nil in Hr. Qed.
End Bound.

(** C12: Bounded work, whatever poisons: over any history of the queue - any calls of the
    workers and the sources, recoveries, and sweeps in any order - an item is claimed at
    most as often as its attempts allow and its revives add, even though a revive takes
    an attempt back. *)
Theorem claims_bounded `{IsoStamps} `{JsonReadBack} `{PyNumbers} cap max_revives log d i :
  1 <= cap -> fleet cap max_revives empty_db log d -> claims_of i log <= cap + Z.max 0 max_revives.
Proof.
  intros Hc F. destruct (bounded_fleet cap max_revives Hc [] empty_db log d (bounded_empty cap max_revives) F) as [W Hrows Hlog].
  simpl in *. destruct (decide (i ∈ log)) as [Hi|Hi]; [|rewrite claims_of_none by done; lia].
  apply Hlog in Hi. apply list_elem_of_fmap in Hi as (r & -> & Hr).
  destruct (Hrows r Hr) as (n & _ & Hn & Hb).
  pose proof (proj1 (Forall_forall _ _) (wf_rows _ _ W) r Hr) as [? _]. lia.
Qed.

Definition tree_read_back : JsonReadBack (H := tree_json) := Build_JsonReadBack tree_json (fun fs _ => tree_reads_back fs).

(** A paper enqueued and claimed. *)
Section Samples.
#[local] Existing Instance tree_json.
#[local] Existing Instance tree_read_back.
#[local] Existing Instance plain_numbers.

Definition queued_db : db := snd (enqueue t0 "research" "paper" (Some (JObj [("topic", JStr "a")]%string)) 50 None empty_db).
Definition claimed_db : db := snd (claim_next (t0 + hour) (fun _ => t0 + hour) 3 "worker-0" [] [] queued_db).

Lemma claimed_history : fleet 3 1 empty_db [1] claimed_db.
Proof.
  apply (fleet_work 3 1 empty_db [] queued_db [1] claimed_db).
  - apply (fleet_work 3 1 empty_db [] empty_db [] queued_db); [constructor|apply work_enqueue].
  - unfold claimed_db. destruct (claim_next _ _ _ _ _ _ queued_db) as [o d'] eqn:E.
    assert (match o with Some r => [q_id r] | None => [] end = [1]) as <-; [|by eapply work_claim].
    apply (f_equal fst) in E. simpl in E. subst o. vm_compute. reflexivity.
Qed.

Lemma claims_bounded_witness : claims_of 1 [1] = 1 /\ claims_of 1 [1] <= 3 + Z.max 0 1.
Proof. split; [reflexivity|]. apply (claims_bounded 3 1 [1] claimed_db 1); [lia|exact claimed_history]. Defined.
End Samples.
