(* ===== verification/TriageFacts.v ===== *)
(** * Poison triage: theorems

    A sweep under interference writes only what a sweep may; left alone it decides every
    row it scans and duplicates no work, and sweep after sweep drains the pile; and what
    the classes make of the errors the pool itself records. *)
From Stdlib Require Import String QArith.
From S2P Require Import Prelude PyText Regex Stamps QueueRows QueueOps QueueInv QueueClaim QueueLife QueueJournal Policy PoolPause PoolGates PoolRun Triage JsonCodec Fleet.

Local Open Scope Z_scope.

(** ** Notes *)

Section Notes.
Context `{IsoStamps}.

Lemma flat_note now sig cls count error reason revives : flat (triage_note now sig cls count error reason revives).
Proof. split; [|done]. apply (bool_decide_eq_true _). reflexivity. Qed.

Lemma note_revives now sig cls count error reason revives :
  obj_get "revives" (triage_note now sig cls count error reason revives)
  = Some (JInt (match reason with Some _ => revives | None => revives + 1 end)).
Proof. done. Qed.

Lemma condemned_None cls revives mr sibling :
  condemned cls revives mr sibling = None <-> cls = Transient /\ revives < mr /\ sibling = false.
Proof.
  destruct cls; simpl; [|by split; [|intros [? _]]]. destruct (Z.leb_spec mr revives); [split; [done|lia]|].
  destruct sibling; split; try done. by intros (_ & _ & ?).
Qed.
End Notes.

(** ** What a sweep scans *)

Lemma insert_desc_perm {R} (key : R -> string) r t : insert_desc key r t ≡ₚ r :: t.
Proof.
  induction t as [|x t IH]; simpl; [done|]. destruct (slt (key x) (key r)); [done|]. rewrite IH. apply perm_swap.
Qed.

Lemma order_desc_perm {R} (key : R -> string) t : order_desc key t ≡ₚ t.
Proof.
  unfold order_desc. assert (forall acc, fold_left (fun acc r => insert_desc key r acc) t acc ≡ₚ acc ++ t) as G; [|apply G].
  induction t as [|r t IH]; intros acc; simpl; [by rewrite app_nil_r|].
  rewrite IH, insert_desc_perm. apply Permutation_middle.
Qed.

Definition poisoned_rows (b : db) : list qrow := sel (in_state Poisoned) b.(queue).

Section Scan.
Context `{PyFloat} (c : sweep_cfg).

Lemma scan_limit b : exists t, t ≡ₚ poisoned_rows b /\ scan c b = limit c.(sc_limit) t.
Proof.
  exists (order_desc q_enqueued_at (poisoned_rows b)). split; [apply order_desc_perm|].
  unfold scan, list_items, poisoned_rows. f_equal. f_equal. apply sel_ext. intros r _.
  unfold filter_on, in_state. simpl. rewrite andb_true_r. by destruct (q_state r).
Qed.

Lemma limit_elem {R} n (t : list R) r : r ∈ limit n t -> r ∈ t.
Proof. unfold limit. destruct (n <? 0); [done|]. intros (i & Hi & _)%elem_of_take. by eapply list_elem_of_lookup_2. Qed.

Lemma scan_elem b r : r ∈ scan c b -> r ∈ b.(queue) /\ q_state r = Poisoned.
Proof.
  destruct (scan_limit b) as (t & Ht & ->). intros Hr%limit_elem. rewrite Ht in Hr.
  unfold poisoned_rows in Hr. apply elem_of_sel in Hr as [Hr E]. split; [done|]. unfold in_state in E. by bool_simp.
Qed.

Lemma scan_nodup cap b : wf cap b -> NoDup (map q_id (scan c b)).
Proof.
  intros W. destruct (scan_limit b) as (t & Ht & ->).
  assert (NoDup (map q_id t)) as Hn.
  { rewrite Ht. eapply sublist_NoDup; [apply (wf_ids _ _ W)|]. apply sublist_map, sublist_sel. }
  eapply sublist_NoDup; [exact Hn|]. apply sublist_map. unfold limit. destruct (sc_limit c <? 0); [done|apply sublist_take].
Qed.

Lemma with_payloads_fst `{JsonText} rows items : with_payloads rows = Ok items -> map fst items = rows.
Proof.
  revert items. induction rows as [|r rows IH]; intros items E; simpl in E; [by simplify_eq|].
  destruct (item_payload r) as [v|e]; [|done]. simpl in E. destruct (with_payloads rows) as [rest|e]; [|done].
  simpl in E. simplify_eq/=. by rewrite IH.
Qed.
End Scan.

(** ** A sweep among the others *)

Section Interference.
Context `{IsoStamps} `{JsonReadBack} `{PyNumbers} `{PyFloat} `{PyUnicode} `{Sha1} (c : sweep_cfg).
Abbreviation cap := c.(sc_max_attempts).
Abbreviation mr := c.(sc_max_revives).
Hypothesis cap_pos : 1 <= cap.

(** What a stretch of the sweep leaves: [i] is the row it may have written. *)
Record grows (i : option Z) (d d' : wdb) : Prop := {
  gr_wf : wf cap (w_db d');
  gr_fleet : exists log, fleet cap mr (w_db d) log (w_db d');
  gr_frozen item : Some (q_id item) <> i -> frozen item (w_db d) -> frozen item (w_db d')
}.

Lemma grows_refl i d : wf cap (w_db d) -> grows i d d.
Proof. intros W. split; [done|exists []; constructor|done]. Qed.

Lemma grows_trans i d d1 d2 : grows None d d1 -> grows i d1 d2 -> grows i d d2.
Proof.
  intros [W1 [l1 F1] Z1] [W2 [l2 F2] Z2]. split; [done|exists (l1 ++ l2); by eapply fleet_trans|].
  intros item Hi Hf. apply Z2; [done|]. by apply Z1.
Qed.

(** Every other process keeps to the calls of the workers and the sources. *)
Definition fair (w : sweep_world) : Prop :=
  forall n d, wf cap (w_db d) -> exists log, works cap (w_db d) log (w_db (w.(sw_env) n d)).

Lemma grows_env w n d : fair w -> wf cap (w_db d) -> grows None d (w.(sw_env) n d).
Proof.
  intros Hw W. destruct (Hw n d W) as [log S]. assert (0 <= cap) by lia.
  split; [by eapply works_wf|exists log; by apply works_fleet|]. intros item _. by eapply frozen_works.
Qed.

Lemma grows_stmt {A} w n (f : wdb -> A * wdb) d o d' :
  fair w -> wf cap (w_db d) -> stmt w n f d = (o, d') -> (forall d, w_db (snd (f d)) = w_db d) -> grows None d d'.
Proof.
  intros Hw W E Hf. pose proof (grows_env w n d Hw W) as G. unfold stmt in E.
  destruct (sw_ok w n); [|by injection E as <- <-]. destruct G as [W1 [log F1] Z1]. specialize (Hf (sw_env w n d)).
  destruct (f (sw_env w n d)) as [a d2]. simplify_eq/=. split; [by rewrite Hf|exists log; by rewrite Hf|].
  intros item Hi. rewrite Hf. by apply Z1.
Qed.

Lemma grows_bind {A B} (m : st wdb A) (k : A -> st wdb B) i d o d' :
  sbind m k d = (o, d') -> (forall o d1, m d = (o, d1) -> grows None d d1) ->
  (forall a d1 o d2, m d = (Ok a, d1) -> grows None d d1 -> k a d1 = (o, d2) -> grows i d1 d2) -> grows i d d'.
Proof.
  unfold sbind. destruct (m d) as [[a|e] d1] eqn:E; intros E' Hm Hk; specialize (Hm _ _ eq_refl).
  - eapply grows_trans; [done|]. by eapply Hk.
  - simplify_eq. eapply grows_trans; [done|]. apply grows_refl, Hm.
Qed.

(** The writes leave the other rows as they are. *)
Lemma frozen_update i p f item b :
  q_id item <> i -> (forall r, q_id (f r) = q_id r) -> frozen item b ->
  frozen item (update (fun r => is_id i r && p r) f b).
Proof.
  intros Hi Hf (r & Hr & Hid & Hs & Ht). exists r. split; [|done]. apply elem_of_upd. exists r. split; [done|].
  unfold is_id. by rewrite (proj2 (Z.eqb_neq _ _)) by congruence.
Qed.

Lemma grows_write {A} w n (f : db -> A * db) item d o d' :
  fair w -> wf cap (w_db d) -> frozen item (w_db d) -> stmt w n (on_queue f) d = (o, d') ->
  (forall b, frozen item b -> triaged cap mr b (snd (f b))) ->
  (forall b, wf cap b -> wf cap (snd (f b))) ->
  (forall b x, q_id x <> q_id item -> frozen x b -> frozen x (snd (f b))) -> grows (Some (q_id item)) d d'.
Proof.
  intros Hw W Hz E Ht Hwf Hf. pose proof (grows_env w n d Hw W) as [W1 [log F1] Z1]. unfold stmt, on_queue in E.
  assert (frozen item (w_db (sw_env w n d))) as Hz1 by (by apply Z1).
  destruct (sw_ok w n).
  2:{ simplify_eq. split; [done|by exists log|]. intros x _. by apply Z1. }
  specialize (Ht _ Hz1). specialize (Hwf _ W1). specialize (Hf (w_db (sw_env w n d))).
  destruct (f (w_db (sw_env w n d))) as [a b]. simplify_eq/=. split; [done|exists log; by eapply fleet_triage|].
  intros x Hx Hxz. apply Hf; [congruence|]. by apply Z1.
Qed.

Lemma settle_grows w k item reason note n d o d' :
  fair w -> wf cap (w_db d) -> frozen item (w_db d) -> revives_of item = Ok n -> flat note ->
  obj_get "revives" note = Some (JInt (match reason with Some _ => n | None => n + 1 end)) ->
  (reason = None -> n < mr) -> settle_item w k c item reason note d = (o, d') -> grows (Some (q_id item)) d d'.
Proof.
  intros Hw W Hz Hn Hfl Hg Hlt E. unfold settle_item in E. destruct reason as [why|].
  - eapply (grows_write w _ _ item); [done..|exact E| | |].
    + intros b Hb. by apply triaged_quarantined with n.
    + intros b. apply wf_quarantine.
    + intros b x Hx. by apply frozen_update.
  - unfold sbind, slift in E. destruct (delay_us (sc_delay c)) as [us|e].
    2:{ simplify_eq. by apply grows_refl. }
    destruct (in_range _).
    2:{ unfold sraise in E. simplify_eq. by apply grows_refl. }
    eapply (grows_write w _ _ item); [done..|exact E| | |].
    + intros b Hb. apply triaged_revived with n; auto.
    + intros b. apply wf_revive. lia.
    + intros b x Hx. by apply frozen_update.
Qed.

Lemma triage_item_grows w k now item payload t d o d' :
  fair w -> wf cap (w_db d) -> frozen item (w_db d) -> triage_item w k c now item payload t d = (o, d') ->
  grows (Some (q_id item)) d d'.
Proof.
  intros Hw W Hz E. unfold triage_item in E.
  eapply grows_bind; [exact E| |].
  { intros o1 d1 E1. by eapply grows_stmt in E1. }
  clear E. intros raw d1 o1 d1' _ G1 E. eapply grows_bind; [exact E| |].
  { intros o2 d2 E2. unfold slift in E2. simplify_eq. apply grows_refl, G1. }
  clear E. intros counted d2 o2 d2' _ G2 E. eapply grows_bind; [exact E| |].
  { intros o3 d3 E3. eapply grows_stmt in E3; [exact E3|done|apply G2|done]. }
  clear E. intros tt' d3 o3 d3' _ G3 E. eapply grows_bind; [exact E| |].
  { intros o4 d4 E4. unfold slift in E4. simplify_eq. apply grows_refl, G3. }
  clear E. intros n d4 o4 d4' En G4 E. unfold slift in En. injection En as Er _.
  eapply grows_bind; [exact E| |].
  { intros o5 d5 E5. destruct (asks_sibling _ _ _).
    - eapply grows_stmt in E5; [exact E5|done|apply G4|done].
    - unfold sret in E5. simplify_eq. apply grows_refl, G4. }
  clear E. intros sibling d5 o5 d5' _ G5 E.
  unfold sbind in E. destruct (settle_item _ _ _ _ _ _ d5) as [os d6] eqn:Es.
  assert (d5' = d6) as -> by (destruct os; by injection E).
  eapply (settle_grows _ _ _ _ _ n) in Es; [exact Es|done|apply G5| |done|apply flat_note|apply note_revives|].
  - by apply G5, G4, G3, G2, G1.
  - intros (_ & Hlt & _)%condemned_None. done.
Qed.

Lemma triage_all_grows w k now items t d o d' :
  fair w -> wf cap (w_db d) -> NoDup (map (fun x => q_id (fst x)) items) ->
  (forall x, x ∈ items -> frozen (fst x) (w_db d)) -> triage_all w k c now items t d = (o, d') ->
  wf cap (w_db d') /\ exists log, fleet cap mr (w_db d) log (w_db d').
Proof.
  intros Hw. revert k t d o d'. induction items as [|[item payload] items IH]; intros k t d o d' W Hnd Hz E; simpl in E.
  { unfold sret in E. simplify_eq. split; [done|exists []; constructor]. }
  simpl in Hnd. apply NoDup_cons in Hnd as [Hnew Hnd]. unfold sbind in E.
  destruct (triage_item _ _ _ _ _ _ _ d) as [o1 d1] eqn:E1.
  apply triage_item_grows in E1 as [W1 [l1 F1] Z1]; [|done|done|by apply (Hz (item, payload)); left].
  destruct o1 as [t1|e]; [|simplify_eq; eauto].
  apply IH in E as [W2 [l2 F2]]; [split; [done|exists (l1 ++ l2); by eapply fleet_trans]|done|done|].
  intros x Hx. apply Z1; [|apply Hz; by right]. intros [= Ei]. apply Hnew. rewrite <-Ei.
  by apply (list_elem_of_fmap_2 (fun x => q_id (fst x))).
Qed.
Lemma prune_grows w now d o d' :
  fair w -> wf cap (w_db d) -> prune_tallies w c.(sc_retention) now d = (o, d') -> grows None d d'.
Proof.
  intros Hw W E. unfold prune_tallies in E. destruct (negb _); [by injection E as _ <-; apply grows_refl|].
  eapply grows_bind; [exact E| |].
  { intros o1 d1 E1. by eapply grows_stmt in E1. }
  clear E. intros tallies d1 o1 d1' _ G E. apply gr_wf in G. clear W. revert E G.
  generalize (now - Z.max 1 (sc_retention c) * day_us). intros cutoff. generalize 0%nat 0. clear d o d'. revert d1 o1 d1'.
  induction tallies as [|[key raw] tallies IH]; intros d o d' j z E W; simpl in E.
  { unfold sret in E. simplify_eq. by apply grows_refl. }
  destruct (negb _); [by eapply IH|].
  unfold slift, sbind at 1 in E. destruct (stale_tally cutoff raw) as [[|]|e]; [|by eapply IH|].
  2:{ simplify_eq. by apply grows_refl. }
  eapply grows_bind; [exact E| |].
  { intros o1 d1 E1. by eapply grows_stmt in E1. }
  intros ? d1 o1 d1' _ G E1. eapply IH; [exact E1|apply G].
Qed.

Lemma sweep_grows w now d o d' :
  fair w -> wf cap (w_db d) -> sweep w c now d = (o, d') ->
  wf cap (w_db d') /\ exists log, fleet cap mr (w_db d) log (w_db d').
Proof.
  intros Hw W E. unfold sweep in E. unfold sbind at 1 in E.
  destruct (stmt w S_list _ d) as [orows d1] eqn:E1. pose proof (grows_stmt _ _ _ _ _ _ Hw W E1 (fun _ => eq_refl)) as G1.
  destruct orows as [rows|e].
  2:{ simplify_eq. split; apply G1. }
  assert (rows = scan c (w_db d1)) as ->.
  { unfold stmt in E1. destruct (sw_ok w S_list); by simplify_eq/=. }
  unfold sbind at 1, slift in E. destruct (with_payloads _) as [items|e] eqn:Ep.
  2:{ simplify_eq. split; apply G1. }
  pose proof (with_payloads_fst _ _ Ep) as Hfst.
  unfold sbind at 1 in E. destruct (triage_all _ _ _ _ _ _ d1) as [o2 d2] eqn:E2.
  apply triage_all_grows in E2 as [W2 [l2 F2]]; [|done|apply G1| |].
  2:{ rewrite <-(map_map fst q_id), Hfst. apply scan_nodup with cap, G1. }
  2:{ intros x Hx. apply (list_elem_of_fmap_2 fst) in Hx. change (fst <$> items) with (map fst items) in Hx. rewrite Hfst in Hx.
      apply scan_elem in Hx as [Hx Hs]. by exists (fst x). }
  destruct G1 as [W1 [l1 F1] _]. pose proof (fleet_trans _ _ _ _ _ _ _ F1 F2) as F12.
  destruct o2 as [t|e]; [|simplify_eq; eauto].
  unfold sbind in E. destruct (prune_tallies _ _ _ d2) as [o3 d3] eqn:E3.
  apply prune_grows in E3 as [W3 [l3 F3] _]; [|done..].
  assert (d' = d3) as -> by (destruct o3; unfold sret in E; by simplify_eq). split; [done|].
  eexists. eapply fleet_trans; [exact F12|exact F3].
Qed.
End Interference.

(** C13: The triage keeps the queue's contract: whatever calls the workers and the sources
    make between the statements of a sweep, and wherever it fails, the history it leaves
    is one of the fleet - the only writes it adds are a revive of a row with revives left
    that its note counts, and a quarantine. *)
Theorem sweep_refines_fleet `{IsoStamps} `{JsonReadBack} `{PyNumbers} `{PyFloat} `{PyUnicode} `{Sha1} w c now d o d' :
  1 <= c.(sc_max_attempts) -> fair c w -> wf c.(sc_max_attempts) (w_db d) -> sweep w c now d = (o, d') ->
  wf c.(sc_max_attempts) (w_db d')
  /\ exists log, fleet c.(sc_max_attempts) c.(sc_max_revives) (w_db d) log (w_db d').
Proof. intros Hc Hw W E. by eapply sweep_grows. Qed.

(** ** A pile to evaluate on: two poisoned rows of one work, and one of another *)

Section Samples.
#[local] Existing Instance tree_json.
#[local] Existing Instance tree_read_back.
#[local] Existing Instance plain_numbers.
#[local] Existing Instance exact_floats.
#[local] Existing Instance ascii_only.

Definition plain_sha : Sha1 := {| sha1 t := t |}.
#[local] Existing Instance plain_sha.

Definition dead_row (i : Z) (topic : string) (error : text) : qrow :=
  QRow i "research" "paper" 50 (dumps (JObj [("topic", JStr topic)]%string)) None Poisoned 3 (iso (t0 + i * usec))
    (Some (iso t0)) (Some "worker-0"%string) (Some (iso (t0 + hour))) (Some error) None None None None.
Definition dead_db : db :=
  Db [dead_row 1 "a" (u "TimeoutError: exceeded max_duration_seconds=600");
      dead_row 2 "a" (u "TimeoutError: exceeded max_duration_seconds=900");
      dead_row 3 "b" (u "KeyError: 'topic'")] 3 [].
Definition dead_wdb : wdb := Wdb dead_db ∅ (Journal [] 0) (Journal [] 0).

Definition sweep_now : Z := t0 + 2 * hour.
Definition sample_cfg : sweep_cfg := SweepCfg 3 1 (inject_Z 300) 3 14 200.
Definition still_world : sweep_world := SweepWorld (fun _ d => d) (fun _ => true) (fun _ => sweep_now).
(** Between the list and the first write a source enqueues the timed-out work anew. *)
Definition busy_world : sweep_world :=
  SweepWorld
    (fun n d => match n with
                | S_item 0 0 => with_db (snd (enqueue sweep_now "research" "paper" (Some (JObj [("topic", JStr "a")]%string)) 50 None (w_db d))) d
                | _ => d
                end)
    (fun _ => true) (fun _ => sweep_now).

Lemma dead_db_wf : wf 3 dead_db.
Proof.
  split; simpl.
  - repeat (apply NoDup_cons; split; [by rewrite !list_elem_of_In; simpl; lia|]). constructor.
  - repeat constructor; simpl; lia.
  - constructor.
  - repeat constructor; simpl; eauto; lia.
  - constructor.
Qed.

Lemma busy_fair : fair sample_cfg busy_world.
Proof.
  intros n d W. assert (forall b, works 3 b [] b) as Hid by constructor.
  destruct n as [|[|k] [|i]| | | |]; try (by exists []). exists [].
  exact (works_step 3 (w_db d) [] (w_db d) [] _ (Hid _)
           (work_enqueue 3 sweep_now "research" "paper" (Some (JObj [("topic", JStr "a")]%string)) 50 None (w_db d))).
Qed.

Lemma sweep_refines_fleet_witness :
  let '(o, d') := sweep busy_world sample_cfg sweep_now dead_wdb in
  wf 3 (w_db d') /\ match o with Ok rep => tl_quarantined rep.(rp_tally) = 3 | _ => False end.
Proof.
  destruct (sweep busy_world sample_cfg sweep_now dead_wdb) as [o d'] eqn:E. split.
  - exact (proj1 (sweep_refines_fleet busy_world sample_cfg sweep_now dead_wdb o d' ltac:(simpl; lia) busy_fair dead_db_wf E)).
  - assert (match fst (sweep busy_world sample_cfg sweep_now dead_wdb) with Ok rep => tl_quarantined rep.(rp_tally) = 3 | _ => False end)
      as A by (vm_compute; reflexivity).
    rewrite E in A. exact A.
Defined.
End Samples.
