(* ===== verification/TriageVerdict.v ===== *)
(** * Poison triage: what a sweep decides

    A sweep nobody interferes with: it returns, every row it scans is decided, no work is
    duplicated, the rest of the queue is left alone, and sweep after sweep drains the
    pile. *)
From Stdlib Require Import String QArith.
From S2P Require Import Prelude PyText Regex Stamps QueueRows QueueOps QueueInv QueueClaim QueueLife QueueJournal Policy PoolPause PoolGates PoolRun PoolRunFacts Triage JsonCodec Fleet TriageFacts.

Local Open Scope Z_scope.

(** ** Dicts and tallies *)

Lemma obj_put_keys k v fs k' : k' ∈ map fst (obj_put k v fs) <-> k' = k \/ k' ∈ map fst fs.
Proof.
  induction fs as [|[k0 v0] fs IH]; simpl; [set_solver|].
  destruct (String.eqb_spec k k0) as [<-|N]; simpl; [set_solver|]. rewrite !elem_of_cons, IH. naive_solver.
Qed.

Lemma obj_put_flat k v fs : plain v = true -> flat fs -> flat (obj_put k v fs).
Proof.
  intros Hv [Hn Hp]. split.
  - induction fs as [|[k0 v0] fs IH]; simpl; [by apply NoDup_singleton|].
    simpl in Hn, Hp. apply NoDup_cons in Hn as [Hk Hn]. apply andb_true_iff in Hp as [_ Hp].
    destruct (String.eqb_spec k k0) as [<-|N]; simpl; constructor; auto.
    change ((fix map l := match l with [] => [] | a :: t => fst a :: map t end) (obj_put k v fs)) with (map fst (obj_put k v fs)).
    rewrite obj_put_keys. naive_solver.
  - clear Hn. induction fs as [|[k0 v0] fs IH]; simpl in *; [by rewrite Hv|].
    apply andb_true_iff in Hp as [H0 Hp]. destruct (String.eqb k k0); simpl; [by rewrite Hv, Hp|].
    rewrite H0. auto.
Qed.

Lemma wm_all_get source key raw m : (key, raw) ∈ map_to_list (wm_all source m) -> wm_get source key m = Some raw.
Proof.
  rewrite elem_of_map_to_list. unfold wm_all. intros E%elem_of_list_to_map_2.
  apply list_elem_of_omap in E as ([[s k] [v at_]] & Hin & E). case_bool_decide; simplify_eq.
  apply elem_of_map_to_list in Hin. unfold wm_get, watermarks in *. by rewrite Hin.
Qed.

Section Verdict.
Context `{IsoStamps} `{JsonReadBack} `{PyNumbers} `{PyFloat} `{PyUnicode} `{Sha1} (c : sweep_cfg) (now : Z).
Abbreviation cap := c.(sc_max_attempts).
Abbreviation mr := c.(sc_max_revives).

(** A tally as a sweep writes it. *)
Definition tally_ok (raw : string) : Prop :=
  exists fs count seen, raw = dumps_ascii (JObj fs) /\ flat fs /\ obj_get "count" fs = Some (JInt count)
    /\ obj_get "last_seen" fs = Some (JStr (iso seen)) /\ in_range seen = true.
Definition tallies_ok (m : watermarks) : Prop :=
  forall key raw, wm_get SOURCE key m = Some raw -> String.prefix TALLY_PREFIX key = true -> tally_ok raw.

(** A row whose columns parse, its payload rendered as [enqueue] renders it. *)
Definition row_readable (r : qrow) (v : json) : Prop :=
  item_payload r = Ok v /\ r.(q_payload_json) = dumps (or_empty (or_blank v)) /\ exists n, revives_of r = Ok n.

Record readable (d : wdb) : Prop := {
  rd_wf : wf cap (w_db d);
  rd_rows r : r ∈ poisoned_rows (w_db d) -> exists v, row_readable r v;
  rd_tallies : tallies_ok (w_marks d)
}.

(** Nobody interferes, every statement runs, and no date leaves the calendar. *)
Record calm (w : sweep_world) : Prop := {
  cm_env n d : w.(sw_env) n d = d;
  cm_ok n : w.(sw_ok) n = true;
  cm_delay : exists us, delay_us c.(sc_delay) = Ok us /\ forall n, in_range (w.(sw_clk) n + us) = true;
  cm_now : in_range now = true;
  cm_cutoff : Z.max 1 c.(sc_retention) <= 999999999 /\ in_range (now - Z.max 1 c.(sc_retention) * Triage.day_us) = true
}.

Lemma stmt_calm {A} w n (f : wdb -> A * wdb) d : calm w -> stmt w n f d = (Ok (fst (f d)), snd (f d)).
Proof. intros Hw. unfold stmt. rewrite (cm_env _ Hw), (cm_ok _ Hw). by destruct (f d). Qed.

(** ** Counting up *)

Lemma tally_loads raw : tally_ok raw -> exists fs count seen,
  loads_or_none (Some raw) = Some fs /\ flat fs /\ obj_get "count" fs = Some (JInt count)
  /\ obj_get "last_seen" fs = Some (JStr (iso seen)) /\ in_range seen = true.
Proof. intros (fs & n & t & -> & Hf & Hc & Hs & Ht). exists fs, n, t. by rewrite read_back. Qed.

Lemma bump_ok source sig error m key :
  in_range now = true -> tallies_ok m -> String.prefix TALLY_PREFIX key = true ->
  exists count fs, bump_tally now source sig error (wm_get SOURCE key m) = Ok (count, fs)
    /\ tally_ok (dumps_ascii (JObj fs)).
Proof.
  intros Hnow Hm Hk. unfold bump_tally.
  set (fresh := [("source", JStr source); ("signature", JStr (encode sig)); ("count", JInt 0); ("first_seen", JStr (iso now))]%string).
  assert (exists fs count, (match loads_or_none (wm_get SOURCE key m) with Some ((_ :: _) as fs) => fs | _ => fresh end) = fs
    /\ flat fs /\ obj_get "count" fs = Some (JInt count)) as (fs & count & -> & Hf & Hc).
  { assert (flat fresh) by (split; [|done]; apply (bool_decide_eq_true _); reflexivity).
    destruct (wm_get SOURCE key m) as [raw|] eqn:E; [|by exists fresh, 0].
    destruct (tally_loads raw (Hm key raw E Hk)) as (fs & n & t & -> & Hf & Hc & _).
    destruct fs as [|kv fs]; [done|]. by exists (kv :: fs), n. }
  rewrite Hc. simpl. rewrite int_of_int. simpl. eexists _, _. split; [reflexivity|].
  eexists _, (count + 1), now. split; [reflexivity|]. split; [by repeat apply obj_put_flat|].
  by rewrite !obj_get_put.
Qed.

Lemma tally_key_prefix source sig : String.prefix TALLY_PREFIX (tally_key source sig) = true.
Proof. unfold tally_key. simpl. by destruct (encode _). Qed.

Lemma tallies_set m key raw at_ : tallies_ok m -> tally_ok raw -> tallies_ok (wm_set at_ SOURCE key raw m).
Proof.
  intros Hm Hr key' raw'. unfold wm_get, wm_set, watermarks. destruct (decide (key' = key)) as [->|N].
  - rewrite lookup_insert_eq. simpl. by intros [= <-].
  - rewrite lookup_insert_ne by congruence. apply Hm.
Qed.

(** ** One row *)

Definition same_work (a b : qrow) : Prop :=
  q_source a = q_source b /\ q_kind a = q_kind b /\ q_payload_json a = q_payload_json b.

(** What becomes of a scanned row, told by the queue the sweep leaves. *)
Definition revived_fate (b' : db) (item x : qrow) (n : Z) : Prop :=
  q_state x = Queued /\ q_attempts x = Z.max 0 (cap - 1) /\ revives_of x = Ok (n + 1)
  /\ classify item.(q_error) = Transient /\ n < mr
  /\ forall s, s ∈ b'.(queue) -> same_work s item -> is_live s = true -> s = x.
Definition quarantined_fate (b' : db) (item x : qrow) (n : Z) : Prop :=
  q_state x = Quarantined /\ revives_of x = Ok n
  /\ (classify item.(q_error) = Structural \/ mr <= n
      \/ exists s, s ∈ b'.(queue) /\ same_work s item /\ is_live s = true).
Definition fate (b' : db) (item x : qrow) : Prop :=
  q_id x = q_id item /\ same_work x item
  /\ exists n, revives_of item = Ok n /\ (revived_fate b' item x n \/ quarantined_fate b' item x n).

Lemma sibling_spec item v b : row_readable item v ->
  has_open_sibling item.(q_source) item.(q_kind) (or_blank v) item.(q_id) b = true
  <-> exists s, s ∈ b.(queue) /\ same_work s item /\ is_live s = true /\ q_id s <> q_id item.
Proof.
  intros (_ & Hc & _). unfold has_open_sibling. destruct (sel1 _ _) as [s|] eqn:E.
  - split; [|done]. intros _. apply sel1_Some in E as [Hs E]. exists s. split; [done|].
    unfold is_id in E. bool_simp. unfold same_work. rewrite Hc. repeat split; try done; try congruence.
  - split; [done|]. intros (s & Hs & (W1 & W2 & W3) & Hl & Hi). rewrite sel1_None in E. specialize (E s Hs).
    rewrite <-Hc, Hl, !bool_decide_true in E by done.
    unfold is_id in E. by rewrite (proj2 (Z.eqb_neq _ _) Hi) in E.
Qed.

(** The rewritten rows of a queue: the item, and nothing else. *)
Lemma upd_item item f b x :
  wf cap b -> item ∈ queue b -> q_state item = Poisoned ->
  x ∈ upd (fun r => is_id item.(q_id) r && in_state Poisoned r) f (queue b)
  <-> x = f item \/ (x ∈ queue b /\ x <> item).
Proof.
  intros W Hi Hs. rewrite elem_of_upd. split.
  - intros (r & Hr & ->). destruct (_ && _) eqn:E.
    + left. apply andb_true_iff in E as [E%Z.eqb_eq _]. f_equal. by apply (ids_unique cap b).
    + right. split; [done|]. intros ->. unfold is_id, in_state in E. by rewrite Z.eqb_refl, bool_decide_true in E.
  - intros [->|[Hx Hn]].
    + exists item. split; [done|]. unfold is_id, in_state. by rewrite Z.eqb_refl, bool_decide_true.
    + exists x. split; [done|]. destruct (_ && _) eqn:E; [|done].
      apply andb_true_iff in E as [E%Z.eqb_eq _]. destruct Hn. by apply (ids_unique cap b).
Qed.

Lemma live_not_poisoned s : is_live s = true -> q_state s <> Poisoned.
Proof. unfold is_live, in_flight, in_state. by destruct (q_state s). Qed.

Lemma alone_after item f b :
  wf cap b -> item ∈ queue b -> q_state item = Poisoned ->
  ~ (exists s, s ∈ queue b /\ same_work s item /\ is_live s = true /\ q_id s <> q_id item) ->
  forall s, s ∈ upd (fun r => is_id item.(q_id) r && in_state Poisoned r) f (queue b) -> same_work s item ->
            is_live s = true -> s = f item.
Proof.
  intros W Hi Hs Hno s Hin Hw Hl. apply (upd_item item f b s W Hi Hs) in Hin as [->|[Hin Hne]]; [done|].
  destruct Hno. exists s. repeat split; try apply Hw; [done|done|]. intros E. destruct Hne. by apply (ids_unique cap b).
Qed.

Lemma sbind_calm {A B} w n (f : wdb -> A * wdb) (k : A -> st wdb B) d :
  calm w -> sbind (stmt w n f) k d = k (fst (f d)) (snd (f d)).
Proof. intros Hw. unfold sbind. by rewrite stmt_calm. Qed.

Lemma sbind_lift {A B} (a : A) (k : A -> st wdb B) d : sbind (slift (Ok a)) k d = k a d.
Proof. done. Qed.

(** The write, for the decision the round has come to. *)
Lemma settle_calm w k item reason note n d :
  1 <= cap -> calm w -> wf cap (w_db d) -> item ∈ queue (w_db d) -> q_state item = Poisoned ->
  flat note -> obj_get "revives" note = Some (JInt n) ->
  exists f, settle_item w k c item reason note d
      = (Ok true, with_db (update (fun r => is_id item.(q_id) r && in_state Poisoned r) f (w_db d)) d)
    /\ (forall r, q_id (f r) = q_id r) /\ same_work (f item) item /\ revives_of (f item) = Ok n
    /\ wf cap (update (fun r => is_id item.(q_id) r && in_state Poisoned r) f (w_db d))
    /\ match reason with
       | Some _ => q_state (f item) = Quarantined
       | None => q_state (f item) = Queued /\ q_attempts (f item) = Z.max 0 (cap - 1)
       end.
Proof.
  intros Hc Hw W Hi Hs Hfl Hg.
  assert (0 <? rowcount (fun r => is_id (q_id item) r && in_state Poisoned r) (queue (w_db d)) = true) as Hcount.
  { apply Z.ltb_lt. unfold rowcount. destruct (sel _ _) as [|r l] eqn:E; [|simpl; lia].
    rewrite sel_nil_iff in E. specialize (E item Hi). unfold is_id, in_state in E. by rewrite Z.eqb_refl, bool_decide_true in E. }
  unfold settle_item. destruct reason as [why|].
  - rewrite stmt_calm by done. unfold on_queue, quarantine. rewrite Hcount. eexists. split; [reflexivity|].
    split; [done|]. split; [done|]. split; [by apply (revives_of_note _ note)|]. split; [|done].
    apply (wf_quarantine cap _ (q_id item) (Some (JObj note)) (w_db d) W).
  - destruct (cm_delay _ Hw) as (us & -> & Hr). rewrite sbind_lift, Hr, stmt_calm by done.
    unfold on_queue, revive. rewrite Hcount. eexists. split; [reflexivity|].
    split; [done|]. split; [done|]. split; [by apply (revives_of_note _ note)|]. split; [|done].
    apply (wf_revive cap _ _ (q_id item) _ us (Some (JObj note)) (w_db d)); [lia|done].
Qed.

(** One round of the loop: the item is rewritten in place, its fate decided. *)
Lemma triage_item_calm w k item v t d :
  1 <= cap -> calm w -> wf cap (w_db d) -> tallies_ok (w_marks d) -> item ∈ queue (w_db d) -> q_state item = Poisoned ->
  row_readable item v ->
  exists t' d' f, triage_item w k c now item v t d = (Ok t', d')
    /\ w_db d' = update (fun r => is_id item.(q_id) r && in_state Poisoned r) f (w_db d)
    /\ wf cap (w_db d') /\ tallies_ok (w_marks d') /\ fate (w_db d') item (f item)
    /\ tl_revived t' + tl_quarantined t' = tl_revived t + tl_quarantined t + 1.
Proof.
  intros Hc Hw W Hm Hi Hs Hr. pose proof Hr as (_ & _ & n & Hn). unfold triage_item.
  set (sig := signature (q_error item)). set (cls := classify (q_error item)). set (key := tally_key (q_source item) sig).
  set (error := default [] (q_error item)).
  rewrite sbind_calm by done. cbn [fst snd].
  destruct (bump_ok (q_source item) sig error (w_marks d) key (cm_now _ Hw) Hm (tally_key_prefix _ _)) as (count & fs & -> & Ht).
  rewrite sbind_lift, sbind_calm by done. cbn [fst snd on_marks].
  set (d1 := with_marks _ d). assert (tallies_ok (w_marks d1)) as Hm1 by (by apply tallies_set).
  rewrite Hn, sbind_lift.
  set (asked := asks_sibling cls n mr).
  set (open := has_open_sibling (q_source item) (q_kind item) (or_blank v) (q_id item) (w_db d)).
  set (sibling := if asked then open else false).
  match goal with |- context [sbind (if asked then ?m else ?m') ?k d1] =>
    assert (sbind (if asked then m else m') k d1 = k sibling d1) as -> end.
  { unfold sibling. destruct asked; [by rewrite sbind_calm|done]. }
  set (reason := condemned cls n mr sibling).
  set (note := triage_note now sig cls count error reason n).
  destruct (settle_calm w k item reason note (match reason with Some _ => n | None => n + 1 end) d1)
    as (f & Ef & Hid & Hwk & Hrev & W' & Hst); [done|done|done|done|done|apply flat_note|apply note_revives|].
  unfold sbind at 1. rewrite Ef. eexists _, _, f. split; [reflexivity|]. split; [done|]. split; [exact W'|].
  split; [exact Hm1|].
  assert (is_Some reason -> cls = Structural \/ mr <= n \/ open = true) as Hwhy.
  { intros [why E]. unfold reason, condemned in E. destruct cls; [|by left]. right.
    destruct (Z.leb_spec mr n); [by left|]. right. unfold sibling in E. destruct asked, open; done. }
  pose proof (sibling_spec item v (w_db d) Hr) as Hsib. fold open in Hsib. split.
  - split; [apply Hid|]. split; [done|]. exists n. split; [done|]. destruct reason as [why|] eqn:Er; [right|left].
    + split; [done|]. split; [done|]. destruct (Hwhy ltac:(by eexists)) as [?|[?|Ho]]; [by left|by right; left|].
      right. right. apply Hsib in Ho as (s & Hs1 & Hs2 & Hs3 & Hs4). exists s. split; [|by split].
      apply upd_item; [done..|]. right. split; [done|]. by intros ->.
    + destruct Hst as [Hq Ha]. split; [done|]. split; [done|]. split; [done|].
      apply condemned_None in Er as (E1 & E2 & E3). split; [done|]. split; [done|].
      apply alone_after; [done..|]. intros Hex. apply Hsib in Hex.
      unfold sibling, asked, asks_sibling in E3. rewrite E1, Hex in E3. simpl in E3.
      by rewrite (proj2 (Z.leb_gt _ _) E2) in E3.
  - unfold count_in. destruct reason; simpl; lia.
Qed.
(** ** The loop *)

(** A fate decided in the middle of the sweep is the fate at its end. *)
Lemma fate_later b1 b' item x (items : list qrow) :
  fate b1 item x -> x ∈ queue b' ->
  (forall r, r ∈ items -> q_state r = Poisoned) ->
  (forall r, r ∈ queue b1 -> r ∉ items -> r ∈ queue b') ->
  (forall r, r ∈ queue b' -> r ∈ queue b1 \/ exists i, i ∈ items /\ fate b' i r) ->
  fate b' item x.
Proof.
  intros (Hid & Hw & n & Hn & F) Hx Hp Hstay Hback. split; [done|]. split; [done|]. exists n. split; [done|].
  assert (forall s, is_live s = true -> s ∉ items) as Hlive.
  { intros s Hl Hin. by apply (live_not_poisoned s Hl), Hp. }
  destruct F as [(Hs & Ha & Hr & Hc & Hm & Hu)|(Hs & Hr & Hwhy)]; [left|right].
  - repeat (split; [done|]). intros s Hin Hws Hl. destruct (Hback s Hin) as [Hb|(i & Hi & _ & Hwi & k & _ & Fi)]; [by apply Hu|].
    destruct Fi as [(_ & _ & _ & _ & _ & Hui)|(Hq & _)]; [|by unfold is_live, in_flight, in_state in Hl; rewrite Hq in Hl].
    symmetry. apply Hui; [done| |by unfold is_live, in_flight, in_state; rewrite Hs].
    unfold same_work in *. repeat split; (etrans; [|apply Hwi]); (etrans; [apply Hw|]); symmetry; apply Hws.
  - split; [done|]. split; [done|]. destruct Hwhy as [?|[?|(s & Hin & Hws & Hl)]]; [by left|by right; left|].
    right. right. exists s. split; [by apply Hstay, Hlive|done].
Qed.

Lemma triage_all_calm w k (items : list (qrow * json)) t d :
  1 <= cap -> calm w -> wf cap (w_db d) -> tallies_ok (w_marks d) -> NoDup (map q_id (map fst items)) ->
  (forall x, x ∈ items -> fst x ∈ queue (w_db d) /\ q_state (fst x) = Poisoned /\ row_readable (fst x) (snd x)) ->
  exists t' d', triage_all w k c now items t d = (Ok t', d')
    /\ wf cap (w_db d') /\ tallies_ok (w_marks d')
    /\ (forall r, r ∈ queue (w_db d) -> r ∉ map fst items -> r ∈ queue (w_db d'))
    /\ (forall r, r ∈ queue (w_db d') -> (r ∈ queue (w_db d) /\ r ∉ map fst items)
          \/ exists i, i ∈ map fst items /\ fate (w_db d') i r)
    /\ (forall i, i ∈ map fst items -> exists x, x ∈ queue (w_db d') /\ fate (w_db d') i x)
    /\ tl_revived t' + tl_quarantined t' = tl_revived t + tl_quarantined t + Z.of_nat (length items).
Proof.
  intros Hc Hw. revert k t d. induction items as [|[item v] items IH]; intros k t d W Hm Hnd Hit.
  { exists t, d. split; [done|]. split; [done|]. split; [done|]. split; [done|]. split.
    - intros r Hr. left. split; [done|apply not_elem_of_nil].
    - split; [|simpl; lia]. intros i Hi. by apply elem_of_nil in Hi. }
  simpl in Hnd. apply NoDup_cons in Hnd as [Hnew Hnd].
  destruct (Hit (item, v) ltac:(by left)) as (Hi & Hs & Hr). simpl in Hi, Hs, Hr.
  destruct (triage_item_calm w k item v t d Hc Hw W Hm Hi Hs Hr) as (t1 & d1 & f & E1 & Eb & W1 & Hm1 & F1 & T1).
  assert (forall r, r ∈ queue (w_db d1) <-> r = f item \/ (r ∈ queue (w_db d) /\ r <> item)) as Hq1.
  { intros r. rewrite Eb. by apply upd_item. }
  assert (item ∉ map fst items) as Hnot.
  { intros Hin. apply Hnew. by apply (list_elem_of_fmap_2 q_id). }
  assert (f item ∉ map fst items) as Hfnot.
  { intros Hin. apply Hnew. destruct F1 as [<- _]. by apply (list_elem_of_fmap_2 q_id). }
  destruct (IH (S k) t1 d1) as (t' & d' & E' & W' & Hm' & Hstay & Hback & Hfate & T'); [done|done|done| |].
  { intros x Hx. destruct (Hit x ltac:(by right)) as (Hx1 & Hx2 & Hx3). split; [|done]. apply Hq1. right. split; [done|].
    intros E. apply Hnot. rewrite <-E. by apply (list_elem_of_fmap_2 fst). }
  assert (f item ∈ queue (w_db d')) as Hfin by (apply Hstay; [by apply Hq1; left|done]).
  assert (fate (w_db d') item (f item)) as F'.
  { eapply (fate_later (w_db d1) _ _ _ (map fst items)); [done|done| |done|].
    - intros r Hx. apply list_elem_of_fmap in Hx as (x & -> & Hx). by apply (Hit x); right.
    - intros r Hx. destruct (Hback r Hx) as [[? _]|?]; [by left|by right]. }
  exists t', d'. split; [simpl; unfold sbind; by rewrite E1|]. split; [done|]. split; [done|]. split; [|split; [|split]].
  - intros r Hx Hn. simpl in Hn. apply not_elem_of_cons in Hn as [Hn1 Hn2]. apply Hstay; [|done]. apply Hq1. by right.
  - intros r Hx. destruct (Hback r Hx) as [[Hx1 Hx2]|(i & Hx1 & Hx2)].
    + apply Hq1 in Hx1 as [->|[Hx1 Hx3]]; [right; exists item; split; [by left|done]|].
      left. split; [done|]. simpl. by apply not_elem_of_cons.
    + right. exists i. split; [by right|done].
  - intros i Hx. simpl in Hx. apply elem_of_cons in Hx as [->|Hx]; [by exists (f item)|by apply Hfate].
  - rewrite T', T1. simpl. lia.
Qed.

(** ** Forgetting *)

Lemma stale_ok cutoff raw : tally_ok raw -> exists b, stale_tally cutoff raw = Ok b.
Proof.
  intros (fs & count & seen & Er & Hf & Hc & Hs & Ht)%tally_loads.
  unfold stale_tally. assert (loads raw = Some (JObj fs)) as ->.
  { unfold loads_or_none in Er. destruct raw; [done|]. destruct (loads _) as [[]|]; congruence. }
  destruct fs as [|kv fs]; [done|]. cbn [json_true nonnil]. rewrite Hs. cbn [from_option id]. rewrite iso_parse_iso by done. by eexists.
Qed.

Lemma prune_calm w d :
  calm w -> tallies_ok (w_marks d) ->
  exists n d', prune_tallies w c.(sc_retention) now d = (Ok n, d') /\ w_db d' = w_db d /\ tallies_ok (w_marks d').
Proof.
  intros Hw Hm. unfold prune_tallies. destruct (cm_cutoff _ Hw) as [Hd Hi].
  rewrite (proj2 (Z.leb_le _ _) Hd), Hi. cbn [andb negb]. rewrite sbind_calm by done. cbn [fst snd].
  generalize (now - Z.max 1 (sc_retention c) * Triage.day_us). intros cutoff.
  assert (forall key raw, (key, raw) ∈ map_to_list (wm_all SOURCE (w_marks d)) -> String.prefix TALLY_PREFIX key = true -> tally_ok raw) as Hl.
  { intros key raw Hin. by apply Hm, wm_all_get. }
  revert Hl. generalize (map_to_list (wm_all SOURCE (w_marks d))) as l. intros l. generalize 0%nat 0. revert d Hm.
  induction l as [|[key raw] l IH]; intros d Hm j z Hl; simpl; [by exists z, d|].
  destruct (String.prefix TALLY_PREFIX key) eqn:Ek; simpl.
  2:{ apply IH; [done|]. intros key' raw' Hin. apply Hl. by right. }
  destruct (stale_ok cutoff raw) as [[] ->]; [by eapply Hl; [left|]| |]; rewrite sbind_lift; cbn beta iota.
  - rewrite sbind_calm by done. cbn [fst snd on_marks].
    destruct (IH (with_marks (wm_delete SOURCE key (w_marks d)) d)) with (n := S j) (z := z + 1) as (n & d' & E & Eb & Hm').
    + intros key' raw'. unfold wm_get, wm_delete, watermarks. simpl. destruct (decide (key' = key)) as [->|N].
      * by rewrite lookup_delete_eq.
      * rewrite lookup_delete_ne by congruence. apply Hm.
    + intros key' raw' Hin. apply Hl. by right.
    + by exists n, d'.
  - apply IH; [done|]. intros key' raw' Hin. apply Hl. by right.
Qed.

Lemma with_payloads_ok rows :
  (forall r, r ∈ rows -> exists v, row_readable r v) ->
  exists items, with_payloads rows = Ok items /\ map fst items = rows /\ forall x, x ∈ items -> row_readable (fst x) (snd x).
Proof.
  induction rows as [|r rows IH]; intros Hr; simpl.
  { exists []. split; [done|]. split; [done|]. intros x Hx. by apply elem_of_nil in Hx. }
  destruct (Hr r ltac:(by left)) as [v Hv]. destruct IH as (items & -> & Hf & Hi); [intros x Hx; apply Hr; by right|].
  pose proof Hv as [-> _]. simpl. eexists. split; [reflexivity|]. simpl. rewrite Hf. split; [done|].
  intros x [->|Hx]%elem_of_cons; [done|by apply Hi].
Qed.

(** The sweep as a whole. *)
Record swept_clean (d d' : wdb) (rep : report) : Prop := {
  sw_stays r : r ∈ queue (w_db d) -> r ∉ scan c (w_db d) -> r ∈ queue (w_db d');
  sw_back r : r ∈ queue (w_db d') -> (r ∈ queue (w_db d) /\ r ∉ scan c (w_db d))
                \/ exists i, i ∈ scan c (w_db d) /\ fate (w_db d') i r;
  sw_fate i : i ∈ scan c (w_db d) -> exists x, x ∈ queue (w_db d') /\ fate (w_db d') i x;
  sw_count : rep.(rp_scanned) = Z.of_nat (length (scan c (w_db d)))
             /\ tl_revived rep.(rp_tally) + tl_quarantined rep.(rp_tally) = rep.(rp_scanned)
}.

Lemma sweep_calm w d :
  1 <= cap -> calm w -> readable d ->
  exists rep d', sweep w c now d = (Ok rep, d') /\ wf cap (w_db d') /\ tallies_ok (w_marks d') /\ swept_clean d d' rep.
Proof.
  intros Hc Hw [W Hr Hm]. unfold sweep. rewrite sbind_calm by done. cbn [fst snd].
  assert (forall r, r ∈ scan c (w_db d) -> r ∈ queue (w_db d) /\ q_state r = Poisoned /\ exists v, row_readable r v) as Hscan.
  { intros r Hx. apply scan_elem in Hx as [Hx Hs]. split; [done|]. split; [done|]. apply Hr. unfold poisoned_rows.
    apply elem_of_sel. split; [done|]. unfold in_state. by rewrite bool_decide_true. }
  destruct (with_payloads_ok (scan c (w_db d))) as (items & -> & Hf & Hi); [by intros r Hx; apply Hscan|].
  rewrite sbind_lift. pose proof (scan_nodup c cap _ W) as Hnd.
  destruct (triage_all_calm w 0 items no_tally d) as (t & d1 & E1 & W1 & Hm1 & Hstay & Hback & Hfate & T1);
    [done|done|done|done|by rewrite Hf| |].
  { intros x Hx. assert (fst x ∈ scan c (w_db d)) as Hin by (rewrite <-Hf; by apply (list_elem_of_fmap_2 fst)).
    split; [by apply Hscan|]. split; [by apply Hscan|by apply Hi]. }
  rewrite Hf in Hstay, Hback, Hfate. unfold sbind at 1. rewrite E1.
  destruct (prune_calm w d1 Hw Hm1) as (n & d2 & E2 & Eb & Hm2). unfold sbind. rewrite E2.
  eexists _, d2. split; [reflexivity|]. rewrite Eb. split; [done|]. split; [done|].
  split; rewrite ?Eb; [done..|]. split; [done|]. cbn [rp_tally rp_scanned]. rewrite T1. simpl. rewrite <-Hf, length_map. lia.
Qed.
End Verdict.

(** A sweep nobody interferes with decides every row it scans, and returns. A row is
    revived, for exactly one more claim, just when its error is transient, it has revives
    left and nothing live does the same work; in the queue the sweep leaves, the revived
    row is then the only live row of its work, so two poisoned rows of one work are never
    both put back. Every other scanned row is quarantined, with its count of revives kept;
    the rows not scanned stay as they are, and the report counts the decisions. *)
Theorem sweep_decides `{IsoStamps} `{JsonReadBack} `{PyNumbers} `{PyFloat} `{PyUnicode} `{Sha1} c now w d :
  1 <= c.(sc_max_attempts) -> calm c now w -> readable c d ->
  exists rep d', sweep w c now d = (Ok rep, d')
    /\ (forall r, r ∈ queue (w_db d) -> r ∉ scan c (w_db d) -> r ∈ queue (w_db d'))
    /\ (forall i, i ∈ scan c (w_db d) -> exists x, x ∈ queue (w_db d') /\ fate c (w_db d') i x)
    /\ tl_revived rep.(rp_tally) + tl_quarantined rep.(rp_tally) = Z.of_nat (length (scan c (w_db d))).
Proof.
  intros Hc Hw Hr. destruct (sweep_calm c now w d Hc Hw Hr) as (rep & d' & E & _ & _ & S).
  exists rep, d'. split; [done|]. split; [apply S|]. split; [apply S|]. destruct (sw_count _ _ _ _ S) as [<- ?]. done.
Qed.

(** ** Sweep after sweep *)

Section Drain.
Context `{IsoStamps} `{JsonReadBack} `{PyNumbers} `{PyFloat} `{PyUnicode} `{Sha1} (c : sweep_cfg).

(** The sweeps of a schedule: each has its world and its clock. *)
Fixpoint sweeps (ws : list (sweep_world * Z)) : st wdb unit :=
  match ws with
  | [] => sret tt
  | (w, now) :: ws => _ <-s sweep w c now ;; sweeps ws
  end.

(** The poisoned rows left are those that were not scanned. *)
Lemma poisoned_left d d' rep :
  wf c.(sc_max_attempts) (w_db d) -> wf c.(sc_max_attempts) (w_db d') -> swept_clean c d d' rep ->
  poisoned_rows (w_db d) ≡ₚ scan c (w_db d) ++ poisoned_rows (w_db d').
Proof.
  intros W W' S. assert (forall b, wf c.(sc_max_attempts) b -> NoDup (poisoned_rows b)) as Hn.
  { intros b Wb. eapply sublist_NoDup; [|apply sublist_sel]. eapply NoDup_fmap_1. apply (wf_ids _ _ Wb). }
  assert (forall r, r ∈ poisoned_rows (w_db d') -> r ∈ queue (w_db d) /\ r ∉ scan c (w_db d) /\ q_state r = Poisoned) as Hback.
  { intros r [Hr Es]%elem_of_sel. unfold in_state in Es. bool_simp.
    destruct (sw_back _ _ _ _ S r Hr) as [[? ?]|(i & _ & _ & _ & k & _ & [(Hq & _)|(Hq & _)])]; [done|congruence..]. }
  apply NoDup_Permutation; [by apply Hn| |].
  - apply NoDup_app. split; [|split; [|by apply Hn]].
    + eapply NoDup_fmap_1. by apply (scan_nodup c (sc_max_attempts c)).
    + intros r Hr Hr'. by apply Hback in Hr' as (_ & ? & _).
  - intros r. rewrite elem_of_app. split.
    + intros [Hr Es]%elem_of_sel. destruct (decide (r ∈ scan c (w_db d))) as [|Hno]; [by left|right].
      apply elem_of_sel. split; [by apply S|done].
    + intros [Hr|Hr].
      * apply scan_elem in Hr as [Hr Hs]. apply elem_of_sel. split; [done|]. unfold in_state. by rewrite bool_decide_true.
      * apply Hback in Hr as (Hr & _ & Hs). apply elem_of_sel. split; [done|]. unfold in_state. by rewrite bool_decide_true.
Qed.

Lemma length_scan b : 0 <= c.(sc_limit) ->
  length (scan c b) = Nat.min (Z.to_nat c.(sc_limit)) (length (poisoned_rows b)).
Proof.
  intros Hl. destruct (scan_limit c b) as (t & Ht & ->). unfold limit. rewrite (proj2 (Z.ltb_ge _ _) Hl), length_take, Ht. done.
Qed.

Lemma sweeps_left ws d :
  1 <= c.(sc_max_attempts) -> 0 <= c.(sc_limit) -> (forall w now, (w, now) ∈ ws -> calm c now w) -> readable c d ->
  exists d', sweeps ws d = (Ok tt, d') /\ readable c d'
    /\ length (poisoned_rows (w_db d')) = (length (poisoned_rows (w_db d)) - length ws * Z.to_nat c.(sc_limit))%nat.
Proof.
  intros Hc Hl. revert d. induction ws as [|[w now] ws IH]; intros d Hws Hr.
  { exists d. split; [done|]. split; [done|]. simpl. lia. }
  destruct (sweep_calm c now w d Hc ltac:(apply Hws; by left) Hr) as (rep & d1 & E1 & W1 & Hm1 & S1).
  pose proof (poisoned_left d d1 rep (rd_wf _ _ Hr) W1 S1) as P.
  assert (readable c d1) as Hr1.
  { split; [done| |done]. intros r Hx. apply (rd_rows _ _ Hr). rewrite P. apply elem_of_app. by right. }
  destruct (IH d1 ltac:(intros; apply Hws; by right) Hr1) as (d' & E' & Hr' & L).
  exists d'. split; [simpl; unfold sbind; by rewrite E1|]. split; [done|].
  apply Permutation_length in P. rewrite length_app, length_scan in P by done. simpl. lia.
Qed.
End Drain.

(** The pile drains: every sweep nobody interferes with takes its share off the
    poisoned rows - as many as its limit allows - whatever their errors, so that enough
    sweeps leave none. *)
Theorem sweeps_drain `{IsoStamps} `{JsonReadBack} `{PyNumbers} `{PyFloat} `{PyUnicode} `{Sha1} c ws d :
  1 <= c.(sc_max_attempts) -> 1 <= c.(sc_limit) -> (forall w now, (w, now) ∈ ws -> calm c now w) -> readable c d ->
  exists d', sweeps c ws d = (Ok tt, d')
    /\ length (poisoned_rows (w_db d')) = (length (poisoned_rows (w_db d)) - length ws * Z.to_nat c.(sc_limit))%nat
    /\ ((length (poisoned_rows (w_db d)) <= length ws)%nat -> poisoned_rows (w_db d') = []).
Proof.
  intros Hc Hl Hws Hr. destruct (sweeps_left c ws d Hc ltac:(lia) Hws Hr) as (d' & E & _ & L).
  exists d'. split; [done|]. split; [done|]. intros Hle. apply nil_length_inv. rewrite L. nia.
Qed.

(** ** Witnesses *)

Section Samples.
#[local] Existing Instance tree_json.
#[local] Existing Instance tree_read_back.
#[local] Existing Instance plain_numbers.
#[local] Existing Instance exact_floats.
#[local] Existing Instance ascii_only.
#[local] Existing Instance plain_sha.

Lemma still_calm : calm sample_cfg sweep_now still_world.
Proof.
  split; [done|done| |by vm_compute|split; [done|by vm_compute]].
  exists (300 * usec). split; [by vm_compute|intros n; by vm_compute].
Qed.

Lemma dead_readable : readable sample_cfg dead_wdb.
Proof.
  assert (forall i topic error, row_readable (dead_row i topic error) (JObj [("topic", JStr topic)]%string)) as Hr.
  { intros i topic error. split; [|split].
    - change (match read_json (write_json (JObj [("topic", JStr topic)]%string)) with Some v => Ok v | None => Raise ValueError end
              = Ok (JObj [("topic", JStr topic)]%string)). by rewrite read_write.
    - done.
    - by exists 0. }
  split; [exact dead_db_wf| |].
  - intros r Hr'. unfold poisoned_rows in Hr'. apply elem_of_sel in Hr' as [Hr' _].
    simpl in Hr'. rewrite !elem_of_cons, elem_of_nil in Hr'.
    destruct Hr' as [->|[->|[->|[]]]]; eexists; apply Hr.
  - intros key raw Hk. unfold wm_get, dead_wdb, watermarks in Hk. simpl in Hk. by rewrite lookup_empty in Hk.
Qed.

(** The newest row of the work is revived, its twin and the broken row are not. *)
Lemma sweep_decides_witness :
  exists rep d', sweep still_world sample_cfg sweep_now dead_wdb = (Ok rep, d')
    /\ tl_revived rep.(rp_tally) + tl_quarantined rep.(rp_tally) = 3
    /\ exists x, x ∈ queue (w_db d') /\ fate sample_cfg (w_db d') (dead_row 2 "a" (u "TimeoutError: exceeded max_duration_seconds=900")) x.
Proof.
  destruct (sweep_decides sample_cfg sweep_now still_world dead_wdb ltac:(simpl; lia) still_calm dead_readable)
    as (rep & d' & E & _ & F & T).
  exists rep, d'. split; [exact E|]. split; [rewrite T; vm_compute; reflexivity|]. apply F.
  apply (bool_decide_eq_true _). vm_compute. reflexivity.
Defined.

Lemma sweeps_drain_witness :
  exists d', sweeps sample_cfg [(still_world, sweep_now)] dead_wdb = (Ok tt, d') /\ length (poisoned_rows (w_db d')) = 0%nat.
Proof.
  destruct (sweeps_drain sample_cfg [(still_world, sweep_now)] dead_wdb) as (d' & E & L & _).
  - simpl. lia.
  - simpl. lia.
  - intros w now Hin. apply list_elem_of_singleton in Hin. injection Hin as -> ->. exact still_calm.
  - exact dead_readable.
  - exists d'. split; [exact E|]. rewrite L. vm_compute. reflexivity.
Defined.

(** What the sweep makes of the pile. *)
Example sample_sweep :
  map (fun r => (q_id r, q_state r, q_attempts r)) (queue (w_db (snd (sweep still_world sample_cfg sweep_now dead_wdb))))
  = [(1, Quarantined, 3); (2, Queued, 2); (3, Quarantined, 3)].
Proof. vm_compute. reflexivity. Qed.
End Samples.
