(* ===== verification/TriageClasses.v ===== *)
(** * Poison triage: the errors

    What the classes and the signatures make of the error texts of the program: the
    timeouts the pool records, and the exceptions named in the lists. *)
From Stdlib Require Import String.
From S2P Require Import Prelude PyText Regex Triage.

Local Open Scope N_scope.

Definition is_digit (c : N) : bool := (48 <=? c) && (c <=? 57).

Lemma is_digit_cases c : is_digit c = true -> c ∈ [48; 49; 50; 51; 52; 53; 54; 55; 56; 57].
Proof.
  unfold is_digit. rewrite andb_true_iff, !N.leb_le. intros [? ?]. rewrite !elem_of_cons, elem_of_nil. lia.
Qed.

(** What holds of the ten digits holds of a digit. *)
Lemma digit_class (p : N -> bool) c :
  forallb p [48; 49; 50; 51; 52; 53; 54; 55; 56; 57] = true -> is_digit c = true -> p c = true.
Proof. rewrite forallb_forall. intros Hp Hc%is_digit_cases. by apply Hp, list_elem_of_In. Qed.

Lemma digits_class (p : N -> bool) s :
  forallb p [48; 49; 50; 51; 52; 53; 54; 55; 56; 57] = true -> forallb is_digit s = true -> forallb p s = true.
Proof. rewrite !(forallb_forall _ s). intros Hp Hs c Hc. by apply digit_class, Hs. Qed.

(** ** Decimal numerals *)

Lemma digits_fuel_spec fuel n acc k :
  n < 10 ^ N.of_nat fuel -> n < 10 ^ N.of_nat k -> (0 < fuel)%nat -> (0 < k)%nat -> forallb is_digit acc = true ->
  forallb is_digit (digits_fuel fuel n acc) = true /\ (length acc < length (digits_fuel fuel n acc) <= k + length acc)%nat.
Proof.
  revert n acc k. induction fuel as [|fuel IH]; intros n acc k Hn Hk Hf Hk0 Ha; [lia|]. simpl.
  assert (is_digit (48 + n mod 10) = true) as Hd.
  { pose proof (N.mod_lt n 10 ltac:(done)) as Hm. unfold is_digit. rewrite andb_true_iff, !N.leb_le.
    revert Hm. generalize (n mod 10). clear. lia. }
  assert (forallb is_digit ((48 + n mod 10) :: acc) = true) as Ha' by (simpl; by rewrite Hd).
  destruct (N.ltb_spec n 10) as [|Hge]; [split; [done|simpl; lia]|].
  destruct fuel as [|fuel]; [change (n < 10) in Hn; lia|].
  destruct k as [|[|k]]; [lia|change (n < 10) in Hk; lia|].
  rewrite Nat2N.inj_succ, N.pow_succ_r' in Hn, Hk.
  destruct (IH (n / 10) ((48 + n mod 10) :: acc) (S k)) as [? Hl]; [by apply N.Div0.div_lt_upper_bound..|clear; lia|clear; lia|done|].
  split; [done|]. cbn [length] in Hl. lia.
Qed.

Lemma show_spec z k : (0 <= z < 10 ^ Z.of_nat k)%Z -> (0 < k)%nat ->
  forallb is_digit (show z) = true /\ (0 < length (show z) <= k)%nat.
Proof.
  intros Hz Hk. assert (show z = show_N (Z.to_N z)) as -> by (destruct z; [done|done|lia]).
  unfold show_N. destruct (digits_fuel_spec (S (N.to_nat (N.size (Z.to_N z)))) (Z.to_N z) [] k) as [? Hl]; [| |lia|done|done|].
  - rewrite Nat2N.inj_succ, N2Nat.id. eapply N.lt_le_trans; [apply N.size_gt|].
    etrans; [apply N.pow_le_mono_l with (b := 10); lia|]. apply N.pow_le_mono_r; lia.
  - apply N2Z.inj_lt. rewrite Z2N.id, N2Z.inj_pow, nat_N_Z by lia. simpl. lia.
  - split; [done|]. cbn [length] in Hl. lia.
Qed.

Section Timeouts.
Context `{PyUnicode}.

(** The error of a run the pool timed out, short of its number. *)
Definition TIMED_OUT : text := u "TimeoutError: exceeded max_duration_seconds=".

Lemma digits_avoid r ds :
  nullable r = false -> forallb (fun c => negb (can_start r c)) [48; 49; 50; 51; 52; 53; 54; 55; 56; 57] = true ->
  forallb is_digit ds = true -> avoids r ds.
Proof.
  intros Hn Hr Hd. split; [done|]. intros c Hc. apply (digits_class _ _ Hr) in Hd. rewrite forallb_forall in Hd.
  by apply negb_true_iff, Hd, list_elem_of_In.
Qed.

Lemma timeout_not_structural ds : forallb is_digit ds = true -> search STRUCTURAL (TIMED_OUT ++ ds) = false.
Proof.
  intros Hd. assert (search STRUCTURAL (TIMED_OUT ++ ds) = search_from STRUCTURAL (Some 61) ds) as -> by (vm_compute; reflexivity).
  apply search_avoids, digits_avoid; [done|vm_compute; done|done].
Qed.

Lemma timeout_transient ds : search TRANSIENT (TIMED_OUT ++ ds) = true.
Proof. vm_compute. reflexivity. Qed.

(** What each substitution makes of the text. *)
Lemma timeout_paths ds : forallb is_digit ds = true -> sub path_re (u "<path>") (TIMED_OUT ++ ds) = TIMED_OUT ++ ds.
Proof.
  intros Hd. apply sub_avoids. split; [reflexivity|]. intros c [Hc|Hc]%elem_of_app.
  - assert (forallb (fun c => negb (can_start path_re c)) TIMED_OUT = true) as G by (vm_compute; reflexivity).
    rewrite forallb_forall in G. by apply list_elem_of_In, G, negb_true_iff in Hc.
  - by apply (digits_avoid path_re ds).
Qed.

Lemma timeout_hex ds : forallb is_digit ds = true -> (length ds < 8)%nat ->
  sub hex_re (u "<id>") (TIMED_OUT ++ ds) = TIMED_OUT ++ ds.
Proof.
  intros Hd Hl.
  assert (sub hex_re (u "<id>") (TIMED_OUT ++ ds) = TIMED_OUT ++ sub_from (S (length ds)) hex_re (u "<id>") (Some 61) ds) as ->
    by (vm_compute; reflexivity).
  f_equal. apply sub_from_none. intros prev w s' ->. unfold match_at. destruct (bt hex_re prev s' _) as [x|] eqn:E; [|done].
  apply bt_sound in E as (p' & s2 & M & _). inversion M as [| |? ? ? ? ? ? ? ? Mw M2| | | | |]; subst.
  inversion Mw; subst. inversion M2 as [| |? ? ? ? ? ? ? ? M3 _| | | | |]; subst.
  inversion M3 as [| |? ? ? ? ? ? ? ? M4 _| | | | |]; subst. apply (times_chr 8) in M4 as [? _].
  rewrite length_app in Hl. lia.
Qed.

Lemma timeout_number ds : forallb is_digit ds = true -> ds <> [] ->
  sub number_re (u "<n>") (TIMED_OUT ++ ds) = TIMED_OUT ++ u "<n>".
Proof.
  intros Hd Hne.
  assert (sub number_re (u "<n>") (TIMED_OUT ++ ds) = TIMED_OUT ++ sub_from (S (length ds)) number_re (u "<n>") (Some 61) ds) as ->
    by (vm_compute; reflexivity).
  f_equal. destruct ds as [|d ds]; [done|]. simpl in Hd. apply andb_true_iff in Hd as [H0 Hd].
  assert (forall c, is_digit c = true -> cdigit c = true /\ cword c = true) as Hc.
  { intros c Hc. split; by apply digit_class. }
  assert (match_at number_re (Some 61) (d :: ds) = Some (before (Some d) ds, [])) as E.
  { unfold match_at, number_re, plus. cbn [bt]. unfold boundary at 1. cbn [word_at]. rewrite (proj2 (Hc d H0)). cbn [xorb].
    replace (xorb (cword 61) true) with true by reflexivity. rewrite (proj1 (Hc d H0)).
    apply (bt_star_all cdigit (Some d) ds).
    - by apply digits_class.
    - unfold boundary. cbn [word_at]. destruct (before (Some d) ds) as [c|] eqn:B.
      2:{ unfold before in B. by destruct (list.last ds). }
      assert (is_digit c = true) as Hdc.
      { unfold before in B. destruct (list.last ds) as [e|] eqn:L; simplify_eq; [|done].
        rewrite forallb_forall in Hd. apply Hd, list_elem_of_In. apply last_Some in L as [l' ->]. set_solver. }
      by rewrite (proj2 (Hc c Hdc)). }
  cbn [sub_from]. rewrite E. cbn [length]. rewrite sub_from_nil. apply app_nil_r.
Qed.

(** The whole signature. *)
Lemma timeout_strip ds : forallb is_digit ds = true -> strip (TIMED_OUT ++ ds) = TIMED_OUT ++ ds.
Proof.
  intros Hd. unfold strip. assert (lstrip (TIMED_OUT ++ ds) = TIMED_OUT ++ ds) as -> by (vm_compute; reflexivity).
  assert (rstrip ds = ds) as Er.
  { induction ds as [|d ds IH]; [done|]. simpl in Hd. apply andb_true_iff in Hd as [Hd Hds]. simpl. rewrite IH by done.
    destruct ds; [|done]. apply (digit_class (fun c => negb (isspace c))), negb_true_iff in Hd; [by rewrite Hd|done]. }
  revert Er. generalize ds as s. intros s Er.
  assert (forall w, (forall c, list.last w = Some c -> isspace c = false) -> rstrip (w ++ s) = w ++ s) as G; [|by apply G; intros c [= <-]].
  induction w as [|c w IH]; intros Hl; simpl; [done|]. rewrite IH.
  - destruct (w ++ s) eqn:E; [|done]. apply app_nil in E as [-> ->]. by rewrite (Hl c).
  - intros e He. apply Hl. simpl. destruct w; [done|exact He].
Qed.

Lemma one_line t : t <> [] -> forallb (fun c => negb (isline c)) t = true -> splitlines t = [t].
Proof.
  intros Hne Hl. destruct t as [|c t]; [done|]. simpl in Hl. apply andb_true_iff in Hl as [Hc%negb_true_iff Hl].
  unfold splitlines. simpl. rewrite Hc. change (c :: t) with ([c] ++ t). assert ([c] <> []) as Hcur by done.
  revert Hcur. generalize [c]. clear Hne Hc. induction t as [|d t IH]; intros cur Hcur; simpl in *.
  { rewrite app_nil_r. by destruct cur. }
  apply andb_true_iff in Hl as [Hd%negb_true_iff Hl]. rewrite Hd, IH by (done || by destruct cur). by rewrite <-app_assoc.
Qed.

Lemma timeout_line ds : forallb is_digit ds = true -> splitlines (TIMED_OUT ++ ds) = [TIMED_OUT ++ ds].
Proof.
  intros Hd. apply one_line; [done|]. rewrite forallb_app. apply andb_true_iff.
  split; [vm_compute; reflexivity|]. by apply digits_class.
Qed.

Lemma timeout_signature ds : forallb is_digit ds = true -> ds <> [] -> (length ds < 8)%nat ->
  signature (Some (TIMED_OUT ++ ds)) = TIMED_OUT ++ u "<n>".
Proof.
  intros Hd Hne Hl. unfold signature. cbn [from_option id]. rewrite timeout_strip by done.
  destruct (TIMED_OUT ++ ds) as [|c t] eqn:E; [done|]. rewrite <-E, timeout_line by done. cbn [head from_option id].
  unfold upto. rewrite (take_ge (TIMED_OUT ++ ds)) by (rewrite length_app; simpl; lia).
  cbn [SIG_SUBS fold_left]. rewrite timeout_paths, timeout_hex, timeout_number by done.
  vm_compute. reflexivity.
Qed.
End Timeouts.

(** The errors of the pool's own timeouts are sorted as the sweep means them to be: a
    run that hit its limit, whatever the limit, failed transiently, so the item may be
    tried again; and the texts of two limits have one signature, so the tally counts them
    as one cause however often the limit was tuned. *)
Theorem timeouts_sort_together `{PyUnicode} z :
  (0 <= z < 10000000)%Z ->
  classify (Some (TIMED_OUT ++ show z)) = Transient
  /\ signature (Some (TIMED_OUT ++ show z))
     = TIMED_OUT ++ u "<n>".
Proof.
  intros Hz. destruct (show_spec z 7) as [Hd Hl]; [done|lia|]. split.
  - unfold classify. cbn [from_option id]. by rewrite timeout_not_structural, timeout_transient.
  - rewrite timeout_signature; [done|done| |lia]. intros E. rewrite E in Hl. simpl in Hl. lia.
Qed.

Lemma timeouts_sort_together_witness :
  (0 <= 600 < 10000000)%Z
  /\ signature (H := ascii_only) (Some (TIMED_OUT ++ show 600))
     = TIMED_OUT ++ u "<n>".
Proof. split; [lia|]. apply (timeouts_sort_together (H := ascii_only) 600). lia. Defined.

(** The exceptions the transient list means to name by a prefix - [ConnectionResetError],
    [ConnectionAbortedError], [ConnectionRefusedError], [IncompleteReadError] - are not
    named by it: the word boundary after the prefix fails before [Error]. Unless the
    message repeats the cause in words, the item is quarantined. *)
Lemma connection_errors_structural `{PyUnicode} :
  map (fun error => classify (Some error))
    [u "ConnectionResetError: Connection lost";
     u "ConnectionAbortedError: [Errno 103] Software caused connection abort";
     u "ConnectionRefusedError: [Errno 111] Connect call failed ('127.0.0.1', 8091)";
     u "IncompleteReadError: 0 bytes read on a total of 2 expected bytes";
     u "ConnectionReset: Connection lost"]
  = [Structural; Structural; Structural; Structural; Transient].
Proof. vm_compute. reflexivity. Qed.
