(* ===== verification/Drill.v ===== *)
(** * The mitigation drill's seat

    [maybe_run_mitigation_drill] of [workers/maintenance.py], a tenant of the scheduler
    loop: the child it spawned, the watermark that spaces the drills across restarts, and
    the line each firing ends with. *)
From Stdlib Require Import String.
From S2P Require Import Prelude PyText Stamps QueueRows QueueOps QueueJournal Policy PoolPause PoolGates PoolRun Triage.

Local Open Scope Z_scope.

Definition LAST_DRILL_AT : string := "last_drill_at".
Definition MITIGATION_DRILL_DEFAULTS : list (string * json) :=
  [("enabled", JBool false); ("interval_seconds", JInt 3600); ("wait_free_window_seconds", JInt 3600)]%string.

(** The three process-local globals: the child, the stamp this process wrote for it, and
    the stamp it has pronounced on. *)
Record seat := Seat { drill_proc : option Z; drill_stamp_here : option string; drill_outcome_reported : option string }.
Definition new_seat : seat := Seat None None None.

(** What the log is told. *)
Inductive drill_line :=
| Drill_exited (rc : Z) (note : text)
| Drill_unknown (stamp : string) (note : text).

Inductive drill_outcome :=
| Drill_disabled
| Inside_a_drill
| Already_running (pid : Z)
| Not_due (left_us : Z)
| Spawn_failed
| Spawned (argv : list text) (pid : Z).

(** What one tick meets: whether this process is a drill, what polling the child answers,
    the clock, the newest reading of the state file, the clock of the mark, whether the
    two statements run, and whether the spawn gives a child. *)
Record drill_world := DrillWorld {
  dw_inside : bool;
  dw_poll : option Z;
  dw_now : Z;
  dw_newest : option Z;
  dw_wrote : Z;
  dw_read_ok : bool;
  dw_write_ok : bool;
  dw_python : text;
  dw_spawn : option Z
}.

Section Seat.
Context `{IsoStamps} `{JsonText} `{PyNumbers}.

Definition drill_stamp_of (value : option string) : option Z :=
  match value with None | Some EmptyString => None | Some s => iso_parse s end.

Definition drill_state_note (newest spawned_at : option Z) : text :=
  match newest with
  | None => u "the state file holds no reading with a usable timestamp"
  | Some n =>
      match spawned_at with
      | Some at_ =>
          if n <? at_ - at_ mod usec then
            u "the newest reading predates the spawn (" ++ utf8 (iso n) ++ u " against " ++ utf8 (iso at_)
            ++ u "), so this drill recorded nothing"
          else u "newest reading " ++ utf8 (iso n)
      | None => u "newest reading " ++ utf8 (iso n)
      end
  end.

(** [{**MITIGATION_DRILL_DEFAULTS, **((cfg or {}).get("mitigation_drill") or {})}]. *)
Definition drill_settings (cfg : json) : outcome (list (string * json)) :=
  sub <-? sub_config "mitigation_drill" (if json_true cfg then cfg else JObj []) ;;
  match sub with JObj fs => Ok (obj_merge MITIGATION_DRILL_DEFAULTS fs) | _ => Raise TypeError end.

Definition mitigation_drill_argv (python : text) (settings : list (string * json)) : outcome (list text) :=
  window <-? int_of (default JNull (obj_get "wait_free_window_seconds" settings)) ;;
  Ok [python; u "-m"; u "scripts.mitigation_drill"; u "--wait-free-window"; show window].

(** The seat, the database and the log. *)
Record drill_state := DrillState { ds_seat : seat; ds_db : wdb; ds_log : list drill_line }.
Definition with_seat (s : seat) (d : drill_state) : drill_state := DrillState s d.(ds_db) d.(ds_log).
Definition say (l : drill_line) (d : drill_state) : drill_state := DrillState d.(ds_seat) d.(ds_db) (d.(ds_log) ++ [l]).

(** A child that has ended is reaped, with what it left. *)
Definition reap (w : drill_world) (d : drill_state) : drill_state :=
  match d.(ds_seat).(drill_proc), w.(dw_poll) with
  | Some _, Some rc =>
      let s := d.(ds_seat) in
      with_seat (Seat None s.(drill_stamp_here) s.(drill_outcome_reported))
        (say (Drill_exited rc (drill_state_note w.(dw_newest) (drill_stamp_of s.(drill_stamp_here)))) d)
  | _, _ => d
  end.

(** A mark this process did not write, with no child of its own to poll: told once. *)
Definition report_orphan (w : drill_world) (last : option string) (d : drill_state) : drill_state :=
  let s := d.(ds_seat) in
  match last with
  | Some ((String _ _) as l) =>
      if bool_decide (s.(drill_proc) = None) && negb (bool_decide (last = s.(drill_stamp_here)))
         && negb (bool_decide (last = s.(drill_outcome_reported)))
      then with_seat (Seat s.(drill_proc) s.(drill_stamp_here) (Some l))
             (say (Drill_unknown l (drill_state_note w.(dw_newest) (drill_stamp_of last))) d)
      else d
  | _ => d
  end.

(** The microseconds left before the next drill, if any. *)
Definition drill_left (now interval : Z) (last : option string) : option Z :=
  match last with
  | None | Some EmptyString => None
  | Some s =>
      let elapsed := match iso_parse s with Some t => now - t | None => interval * usec end in
      if elapsed <? interval * usec then Some (interval * usec - elapsed) else None
  end.

Definition drill_mark (d : drill_state) : option string := wm_get SOURCE LAST_DRILL_AT d.(ds_db).(w_marks).

Definition maybe_run_mitigation_drill (w : drill_world) (cfg : json) (d : drill_state) : outcome drill_outcome * drill_state :=
  match drill_settings cfg with
  | Raise e => (Raise e, d)
  | Ok settings =>
      if negb (json_true (default JNull (obj_get "enabled" settings))) then (Ok Drill_disabled, d)
      else if w.(dw_inside) then (Ok Inside_a_drill, d)
      else
        match d.(ds_seat).(drill_proc), w.(dw_poll) with
        | Some pid, None => (Ok (Already_running pid), d)
        | _, _ =>
            let d := reap w d in
            match int_of (default JNull (obj_get "interval_seconds" settings)) with
            | Raise e => (Raise e, d)
            | Ok interval =>
                if negb w.(dw_read_ok) then (Raise DatabaseError, d)
                else
                  let last := drill_mark d in
                  let d := report_orphan w last d in
                  match drill_left w.(dw_now) interval last with
                  | Some left_us => (Ok (Not_due left_us), d)
                  | None =>
                      if negb w.(dw_write_ok) then (Raise DatabaseError, d)
                      else
                        let stamp := iso w.(dw_now) in
                        let s := d.(ds_seat) in
                        let d := DrillState (Seat s.(drill_proc) (Some stamp) s.(drill_outcome_reported))
                                   (with_marks (wm_set w.(dw_wrote) SOURCE LAST_DRILL_AT stamp d.(ds_db).(w_marks)) d.(ds_db))
                                   d.(ds_log) in
                        match mitigation_drill_argv w.(dw_python) settings with
                        | Raise e => (Raise e, d)
                        | Ok argv =>
                            match w.(dw_spawn) with
                            | None => (Ok Spawn_failed, d)
                            | Some pid =>
                                (Ok (Spawned argv pid),
                                 with_seat (Seat (Some pid) (Some stamp) d.(ds_seat).(drill_outcome_reported)) d)
                            end
                        end
                  end
            end
        end
  end.

(** ** Histories: ticks, and restarts that lose the handle *)

Inductive drill_event := Tick (w : drill_world) | Restart.

(** When the drills of a history were fired - the mark is written then, whatever becomes
    of the spawn - with the state it ends in. *)
Definition fired (o : outcome drill_outcome) : bool :=
  match o with Ok (Spawned _ _ | Spawn_failed) => true | _ => false end.

Fixpoint drill_history (cfg : json) (evs : list drill_event) (d : drill_state) : list Z * drill_state :=
  match evs with
  | [] => ([], d)
  | Restart :: evs => drill_history cfg evs (with_seat new_seat d)
  | Tick w :: evs =>
      let '(o, d) := maybe_run_mitigation_drill w cfg d in
      let '(ts, d) := drill_history cfg evs d in
      (if fired o then w.(dw_now) :: ts else ts, d)
  end.

(** ** Facts *)

Variable cfg : json.
Variable settings : list (string * json).
Variable interval : Z.
Hypothesis cfg_settings : drill_settings cfg = Ok settings.
Hypothesis cfg_interval : int_of (default JNull (obj_get "interval_seconds" settings)) = Ok interval.

Lemma reap_db w d : ds_db (reap w d) = ds_db d.
Proof. unfold reap. by destruct (drill_proc _), (dw_poll w). Qed.
Lemma report_db w last d : ds_db (report_orphan w last d) = ds_db d.
Proof. unfold report_orphan. destruct last as [[|a l]|]; [done| |done]. by destruct (_ && _). Qed.

(** A tick either leaves the mark, or stamps it with the time of a drill that was due. *)
Lemma tick_mark w d o d' : maybe_run_mitigation_drill w cfg d = (o, d') ->
  (fired o = false /\ drill_mark d' = drill_mark d)
  \/ (drill_mark d' = Some (iso w.(dw_now)) /\ drill_left w.(dw_now) interval (drill_mark d) = None).
Proof.
  unfold maybe_run_mitigation_drill. rewrite cfg_settings. intros E.
  assert (forall d1, drill_mark (report_orphan w (drill_mark d1) d1) = drill_mark d1) as Hrep.
  { intros d1. unfold drill_mark at 1. by rewrite report_db. }
  assert (drill_mark (reap w d) = drill_mark d) as Hreap by (unfold drill_mark; by rewrite reap_db).
  destruct (negb _); [by injection E as <- <-; left|]. destruct (dw_inside w); [by injection E as <- <-; left|].
  rewrite cfg_interval in E.
  assert (forall x y, (match drill_proc (ds_seat d), dw_poll w with Some pid, None => (Ok (Already_running pid), d) | _, _ => x end) = y ->
    x = y \/ (fired (fst y) = false /\ snd y = d)) as Hcase.
  { intros x y. destruct (drill_proc (ds_seat d)), (dw_poll w); intros <-; auto. }
  apply Hcase in E as [E|[Ef Ed]]; [|left; simpl in Ef, Ed; by subst].
  destruct (dw_read_ok w); simpl in E; [|injection E as <- <-; by left].
  rewrite Hreap in E. destruct (drill_left _ _ _) as [left_us|] eqn:L.
  { injection E as <- <-. left. split; [done|]. by rewrite <-Hreap, Hrep. }
  destruct (dw_write_ok w); simpl in E; [|injection E as <- <-; left; split; [done|by rewrite <-Hreap, Hrep]].
  right. split; [|done]. unfold drill_mark, wm_get, wm_set, watermarks in *.
  destruct (mitigation_drill_argv _ _) as [argv|e]; [destruct (dw_spawn w)|]; injection E as <- <-; simpl;
    by rewrite lookup_insert_eq.
Qed.

Lemma drill_left_stamp now t : in_range t = true -> drill_left now interval (Some (iso t)) = None -> t + interval * usec <= now.
Proof.
  intros Ht. unfold drill_left. pose proof (iso_nonempty t). destruct (iso t) as [|a l] eqn:E; [done|].
  rewrite <-E, iso_parse_iso by done. destruct (Z.ltb_spec (now - t) (interval * usec)); [done|lia].
Qed.

Definition apart (a b : Z) : Prop := a + interval * usec <= b.
Hypothesis interval_pos : 0 <= interval.

Lemma history_spaced evs d ts d' :
  (forall w, Tick w ∈ evs -> in_range w.(dw_now) = true) -> drill_history cfg evs d = (ts, d') ->
  Sorted apart ts /\ forall t, in_range t = true -> drill_mark d = Some (iso t) -> HdRel apart t ts.
Proof.
  revert d ts d'. induction evs as [|[w|] evs IH]; intros d ts d' Hr E; simpl in E.
  - injection E as <- _. by repeat constructor.
  - destruct (maybe_run_mitigation_drill w cfg d) as [o d1] eqn:E1.
    destruct (drill_history cfg evs d1) as [ts1 d2] eqn:E2. injection E as <- _.
    apply IH in E2 as [S1 Hh]; [|intros w' Hw; apply Hr; by right].
    pose proof (Hr w ltac:(by left)) as Hw. apply tick_mark in E1 as [[-> Em]|[Em El]].
    + split; [done|]. intros t Ht Hm. apply Hh; [done|congruence].
    + specialize (Hh _ Hw Em). assert (forall t, in_range t = true -> drill_mark d = Some (iso t) -> apart t (dw_now w)) as Hap.
      { intros t Ht Hm. rewrite Hm in El. by apply drill_left_stamp. }
      destruct (fired o); [split; [by constructor|intros t Ht Hm; constructor; by apply Hap]|].
      split; [done|]. intros t Ht Hm. specialize (Hap t Ht Hm). destruct Hh as [|b l Hb]; constructor.
      unfold apart, usec in *. lia.
  - apply IH in E; [exact E|intros w' Hw; apply Hr; by right].
Qed.

(** ** One child at a time *)

Lemma report_keeps w last d :
  drill_proc (ds_seat (report_orphan w last d)) = drill_proc (ds_seat d) /\ ds_log d `prefix_of` ds_log (report_orphan w last d).
Proof.
  unfold report_orphan. destruct last as [[|a l]|]; [done| |done]. destruct (_ && _); [|done]. split; [done|].
  by apply prefix_app_r.
Qed.

(** A drill is spawned only by an enabled seat of a process that is no drill itself, and
    only when the child before it is gone - reaped, its exit in the log. *)
Lemma tick_spawns w d argv pid d' : maybe_run_mitigation_drill w cfg d = (Ok (Spawned argv pid), d') ->
  json_true (default JNull (obj_get "enabled" settings)) = true /\ w.(dw_inside) = false
  /\ d'.(ds_seat).(drill_proc) = Some pid
  /\ (forall child, d.(ds_seat).(drill_proc) = Some child ->
        exists rc, w.(dw_poll) = Some rc /\ exists note, Drill_exited rc note ∈ d'.(ds_log)).
Proof.
  unfold maybe_run_mitigation_drill. rewrite cfg_settings. intros E.
  destruct (json_true _) eqn:En; simpl in E; [|done]. destruct (dw_inside w); [done|].
  split; [done|]. split; [done|]. rewrite cfg_interval in E.
  assert (forall child, drill_proc (ds_seat d) = Some child ->
    exists rc, dw_poll w = Some rc /\ exists note, Drill_exited rc note ∈ ds_log (reap w d)) as Hreap.
  { intros child Hc. unfold reap. rewrite Hc in E |- *. destruct (dw_poll w) as [rc|]; [|done].
    exists rc. split; [done|]. eexists. simpl. apply elem_of_app. right. by left. }
  assert (forall x y, (match drill_proc (ds_seat d), dw_poll w with Some pid, None => (Ok (Already_running pid), d) | _, _ => x end)
    = (Ok (Spawned argv pid), y) -> x = (Ok (Spawned argv pid), y)) as Hcase.
  { intros x y. by destruct (drill_proc (ds_seat d)), (dw_poll w). }
  apply Hcase in E. destruct (dw_read_ok w); simpl in E; [|done].
  destruct (report_keeps w (drill_mark (reap w d)) (reap w d)) as [_ [extra Hlog]].
  destruct (drill_left _ _ _); [done|]. destruct (dw_write_ok w); simpl in E; [|done].
  destruct (mitigation_drill_argv _ _); [|done]. destruct (dw_spawn w); [|done]. injection E as _ -> <-. split; [done|].
  intros child Hc. destruct (Hreap child Hc) as (rc & Hp & note & Hin). exists rc. split; [done|]. exists note.
  simpl. rewrite Hlog. apply elem_of_app. by left.
Qed.
End Seat.

(** Drills are spaced: over any history of the seat - ticks that find whatever they
    find, spawns that fail, and restarts that lose the child's handle - two firings are
    never closer than the interval, because the mark outlives the process and is written
    before the spawn. *)
Theorem drills_spaced `{IsoStamps} `{JsonText} `{PyNumbers} cfg settings interval evs d ts d' :
  drill_settings cfg = Ok settings -> int_of (default JNull (obj_get "interval_seconds" settings)) = Ok interval ->
  0 <= interval -> (forall w, Tick w ∈ evs -> in_range w.(dw_now) = true) -> drill_history cfg evs d = (ts, d') ->
  Sorted (fun a b => a + interval * usec <= b) ts.
Proof. intros Hs Hi Hp Hr E. by eapply (history_spaced cfg settings interval). Qed.

(** ** Witness: a drill, a restart, a tick too early and one in time *)

Section Samples.
#[local] Existing Instance blank_json.
#[local] Existing Instance plain_numbers.

Definition drill_cfg : json := JObj [("mitigation_drill", JObj [("enabled", JBool true)])]%string.
Definition drill_tick (minutes : Z) : drill_world :=
  DrillWorld false (Some 0) (1790000000 * usec + minutes * 60 * usec) None 0 true true (u "python") (Some 77).
Definition drill_day : list drill_event :=
  [Tick (drill_tick 0); Restart; Tick (drill_tick 30); Tick (drill_tick 60); Tick (drill_tick 61)].
Definition drill_start : drill_state := DrillState new_seat (Wdb empty_db ∅ (Journal [] 0) (Journal [] 0)) [].

Lemma drills_spaced_witness :
  let '(ts, d') := drill_history drill_cfg drill_day drill_start in
  Sorted (fun a b => a + 3600 * usec <= b) ts /\ length ts = 2%nat
  /\ length (ds_log d') = 2%nat.
Proof.
  assert (length (fst (drill_history drill_cfg drill_day drill_start)) = 2%nat
          /\ length (ds_log (snd (drill_history drill_cfg drill_day drill_start))) = 2%nat) as A by (vm_compute; by split).
  destruct (drill_history drill_cfg drill_day drill_start) as [ts d'] eqn:E. split; [|exact A].
  apply (drills_spaced drill_cfg (obj_merge MITIGATION_DRILL_DEFAULTS [("enabled", JBool true)]%string) 3600 drill_day drill_start ts d').
  - reflexivity.
  - reflexivity.
  - lia.
  - intros w Hw. unfold drill_day in Hw. rewrite !elem_of_cons, elem_of_nil in Hw.
    destruct Hw as [Hw|[Hw|[Hw|[Hw|[Hw|[]]]]]]; apply (f_equal (fun e => match e with Tick w => dw_now w | Restart => 0 end)) in Hw; cbn [dw_now drill_tick] in Hw;
      rewrite Hw; vm_compute; reflexivity.
  - exact E.
Defined.
End Samples.
