(* ===== verification/Meter.v ===== *)
(** * Token counts: what the engine reported, and where the window stands

    [app/harness/loop.py] ([_merge_usage], [_accumulate_iteration_usage]) and
    [app/harness/context_meter.py]: the usage of one request, its fold into the turn's
    totals, and the meter every relief decision reads. *)
From Stdlib Require Import String.
From S2P Require Import Prelude PyText QueueRows Messages.

Local Open Scope Z_scope.

(** ** Usage counts *)

(** What [isinstance(v, int)] admits: an [int], or a [bool]. *)
Inductive count := CInt (z : Z) | CBool (b : bool).

Definition count_of (v : json) : option count :=
  match v with JInt z => Some (CInt z) | JBool b => Some (CBool b) | _ => None end.

(** [int(v)]. *)
Definition count_int (c : count) : Z := match c with CInt z => z | CBool b => Z.b2z b end.

(** [isinstance(v, int) and not isinstance(v, bool)]. *)
Definition plain_int (c : count) : option Z := match c with CInt z => Some z | CBool _ => None end.

(** One request's counts, and a turn's totals, by key. *)
Abbreviation usage := (gmap string count).
Abbreviation totals := (gmap string Z).

Definition _USAGE_KEY_REMAP (k : string) : string :=
  (if String.eqb k "prompt_tokens" then "input_tokens"
   else if String.eqb k "completion_tokens" then "output_tokens" else k)%string.

(** [out[k] = v] where [v] is read from a nested dict and kept only as a count. *)
Definition put_nested (dst src : string) (details : option json) (out : usage) : usage :=
  match details with
  | Some (JObj fs) => match obj_get src fs ≫= count_of with Some c => <[dst := c]> out | None => out end
  | _ => out
  end.

Definition _merge_usage (acc : usage) (chunk : list (string * json)) : usage :=
  let out := fold_left (fun out '(k, v) => match count_of v with
                                           | Some c => <[_USAGE_KEY_REMAP k := c]> out
                                           | None => out
                                           end) chunk acc in
  let details := obj_get "prompt_tokens_details" chunk in
  let out := put_nested "cache_read" "cached_tokens" details out in
  let out := put_nested "cache_create" "created_cache_tokens" details out in
  match obj_get "completion_tokens_details" chunk with
  | Some (JObj fs) =>
      match obj_get "reasoning_tokens" fs with
      | Some (JInt z) => <["reasoning_tokens" := CInt z]> out
      | _ => out
      end
  | _ => out
  end%string.

Definition _PEAK_USAGE_KEYS : list string := ["input_tokens"; "cache_read"]%string.
Definition _EXPLICIT_SUM_USAGE_KEYS : list string := ["prompt_tokens_sum"; "cache_read_sum"]%string.

(** The first key that carries an integer. *)
Fixpoint _int_usage (it : usage) (keys : list string) : Z :=
  match keys with
  | [] => 0
  | k :: keys => match it !! k ≫= plain_int with Some z => z | None => _int_usage it keys end
  end.

Definition count_at (k : string) (t : totals) : Z := default 0 (t !! k).

(** One step of the loop over the iteration's counts. *)
Definition fold_count (k : string) (c : count) (out : totals) : totals :=
  match plain_int c with
  | None => out
  | Some v =>
      if bool_decide (k ∈ _EXPLICIT_SUM_USAGE_KEYS) then out
      else if bool_decide (k ∈ _PEAK_USAGE_KEYS) then <[k := Z.max (count_at k out) v]> out
      else <[k := count_at k out + v]> out
  end.

(** [if out[part] > out[whole]: out[part] = out[whole]]. *)
Definition clamp (part whole : string) (out : totals) : totals :=
  if count_at whole out <? count_at part out then <[part := count_at whole out]> out else out.

Definition _accumulate_iteration_usage (total : totals) (it : usage) : totals :=
  let out := map_fold fold_count total it in
  let out := <["prompt_tokens_sum" :=
                 count_at "prompt_tokens_sum" out + Z.max 0 (_int_usage it ["input_tokens"; "prompt_tokens"])]> out in
  let out := <["cache_read_sum" :=
                 count_at "cache_read_sum" out + Z.max 0 (_int_usage it ["cache_read"; "prompt_tokens_cached"])]> out in
  clamp "cache_read_sum" "prompt_tokens_sum" (clamp "cache_read" "input_tokens" out)%string.

(** The pair of figures a reader divides is a fraction. *)
Definition bounded_pairs (t : totals) : Prop :=
  count_at "cache_read" t <= count_at "input_tokens" t /\
  count_at "cache_read_sum" t <= count_at "prompt_tokens_sum" t.

(** ** The meter *)

Record meter := Meter {
  mt_window : Z;
  mt_reported : Z;
  mt_reported_at_len : Z;
  mt_appended : Z;
  mt_offset : Z
}.

Definition _DEFAULT_WINDOW : Z := 128000.

(** [ContextMeter(window)]. *)
Definition new_meter (window : Z) : meter :=
  Meter (if 0 <? window then window else _DEFAULT_WINDOW) 0 0 0 0.

Definition measured (m : meter) : bool := 0 <? m.(mt_reported).
Definition used (m : meter) : Z := if measured m then m.(mt_reported) + m.(mt_appended) else 0.
Definition headroom (m : meter) : Z :=
  if measured m then Z.max 0 (m.(mt_window) - used m) else m.(mt_window).
Definition threshold (m : meter) : Z := truncation_threshold m.(mt_window).

Definition observe_usage (us : usage) (n_messages : Z) (m : meter) : meter :=
  let reported := default 0 (count_int <$> us !! "input_tokens"%string) in
  if reported <=? 0 then m
  else Meter m.(mt_window) reported (Z.max 0 n_messages) 0 m.(mt_offset).

Section Estimated.
Context {JT : JsonText}.
Variable image_tokens : Z.

Definition _estimate (ms : list message) : Z := estimate_conversation_tokens image_tokens ms [].

Definition observe_append (ms : list message) (m : meter) : meter :=
  if negb (measured m) then m
  else
    let tail := slice_from m.(mt_reported_at_len) ms in
    let appended := match tail with [] => 0 | _ => _estimate tail end in
    let prefix_est := Z.max 0 (_estimate ms - appended) in
    Meter m.(mt_window) m.(mt_reported) m.(mt_reported_at_len) appended (Z.max 0 (m.(mt_reported) - prefix_est)).

Definition resync (ms : list message) (m : meter) : meter :=
  if negb (measured m) then m
  else Meter m.(mt_window) (Z.max 1 (m.(mt_offset) + _estimate ms)) (Z.of_nat (length ms)) 0 m.(mt_offset).

(** What the code keeps of a meter: a window, and nothing negative. *)
Definition meter_ok (m : meter) : Prop :=
  0 < m.(mt_window) /\ 0 <= m.(mt_reported) /\ 0 <= m.(mt_reported_at_len) /\ 0 <= m.(mt_appended) /\ 0 <= m.(mt_offset).
End Estimated.

(** ** The totals *)

Lemma count_at_insert k k' v (t : totals) :
  count_at k (<[k' := v]> t) = if decide (k = k') then v else count_at k t.
Proof. unfold count_at. rewrite lookup_insert. do 2 case_decide; simplify_eq; done. Qed.

Lemma count_at_clamp k part whole t :
  count_at k (clamp part whole t) = if decide (k = part) then Z.min (count_at part t) (count_at whole t) else count_at k t.
Proof.
  unfold clamp. destruct (count_at whole t <? count_at part t) eqn:E; bool_simp; rewrite ?count_at_insert; case_decide; subst; lia.
Qed.

(** What the loop leaves under one key. *)
Lemma fold_count_at total (it : usage) k :
  count_at k (map_fold fold_count total it) =
  match it !! k ≫= plain_int with
  | None => count_at k total
  | Some v => if bool_decide (k ∈ _EXPLICIT_SUM_USAGE_KEYS) then count_at k total
              else if bool_decide (k ∈ _PEAK_USAGE_KEYS) then Z.max (count_at k total) v
              else count_at k total + v
  end.
Proof.
  apply (map_fold_weak_ind (fun out m => count_at k out = match m !! k ≫= plain_int with
    | None => count_at k total
    | Some v => if bool_decide (k ∈ _EXPLICIT_SUM_USAGE_KEYS) then count_at k total
                else if bool_decide (k ∈ _PEAK_USAGE_KEYS) then Z.max (count_at k total) v
                else count_at k total + v
    end)); [by rewrite lookup_empty|].
  intros i c m out Hi IH. unfold fold_count. destruct (decide (i = k)) as [->|Hne].
  - rewrite Hi in IH. simpl in IH. rewrite lookup_insert_eq. simpl. destruct (plain_int c) as [v|]; [|done].
    destruct (bool_decide (k ∈ _EXPLICIT_SUM_USAGE_KEYS)); [done|].
    destruct (bool_decide (k ∈ _PEAK_USAGE_KEYS)); rewrite count_at_insert, decide_True by done; by rewrite IH.
  - rewrite lookup_insert_ne by done. destruct (plain_int c) as [v|]; [|done].
    destruct (bool_decide (i ∈ _EXPLICIT_SUM_USAGE_KEYS)); [done|].
    destruct (bool_decide (i ∈ _PEAK_USAGE_KEYS)); by rewrite count_at_insert, decide_False by done.
Qed.

(** Every figure of a fold, by the keys its reader divides. *)
Lemma accumulate_at total it :
  let prompt := Z.max 0 (_int_usage it ["input_tokens"; "prompt_tokens"]) in
  let cached := Z.max 0 (_int_usage it ["cache_read"; "prompt_tokens_cached"]) in
  let folded k := count_at k (map_fold fold_count total it) in
  let out := _accumulate_iteration_usage total it in
  count_at "input_tokens" out = folded "input_tokens" /\
  count_at "cache_read" out = Z.min (folded "cache_read") (folded "input_tokens") /\
  count_at "prompt_tokens_sum" out = count_at "prompt_tokens_sum" total + prompt /\
  count_at "cache_read_sum" out = Z.min (count_at "cache_read_sum" total + cached) (count_at "prompt_tokens_sum" total + prompt) /\
  forall k, k ∉ (_PEAK_USAGE_KEYS ++ _EXPLICIT_SUM_USAGE_KEYS) -> count_at k out = folded k.
Proof.
  intros prompt cached folded out. subst out. unfold _accumulate_iteration_usage. fold prompt cached.
  assert (Hp : folded "prompt_tokens_sum" = count_at "prompt_tokens_sum" total).
  { subst folded. simpl. rewrite fold_count_at. destruct (it !! _ ≫= plain_int); [|done].
    by rewrite bool_decide_true by (unfold _EXPLICIT_SUM_USAGE_KEYS; set_solver). }
  assert (Hc : folded "cache_read_sum" = count_at "cache_read_sum" total).
  { subst folded. simpl. rewrite fold_count_at. destruct (it !! _ ≫= plain_int); [|done].
    by rewrite bool_decide_true by (unfold _EXPLICIT_SUM_USAGE_KEYS; set_solver). }
  subst folded. simpl in *.
  set (m := map_fold fold_count total it) in *. clearbody m prompt cached.
  repeat split; try intros k Hk;
    rewrite !count_at_clamp, !count_at_insert; simpl.
  5: unfold _PEAK_USAGE_KEYS, _EXPLICIT_SUM_USAGE_KEYS in Hk; rewrite !decide_False by set_solver; done.
  all: lia.
Qed.

Lemma accumulate_bounded total it : bounded_pairs (_accumulate_iteration_usage total it).
Proof. destruct (accumulate_at total it) as (E1 & E2 & E3 & E4 & _). unfold bounded_pairs. lia. Qed.

(** An engine's report for one request: a prompt, and no more of it cached than it had. *)
Definition sane (it : usage) : Prop :=
  exists p c, it !! "input_tokens"%string = Some (CInt p) /\ it !! "cache_read"%string = Some (CInt c) /\ 0 <= c <= p.

Definition figure (k : string) (it : usage) : Z := _int_usage it [k].
Definition peak (l : list Z) : Z := foldr Z.max 0 l.
Definition total (l : list Z) : Z := foldr Z.add 0 l.

Lemma peak_snoc l z : 0 <= z -> peak (l ++ [z]) = Z.max (peak l) z.
Proof. unfold peak. induction l as [|a l IH]; simpl; lia. Qed.
Lemma total_snoc l z : total (l ++ [z]) = total l + z.
Proof. unfold total. induction l as [|a l IH]; simpl; lia. Qed.

Lemma peak_map_le {A} (f g : A -> Z) l : (forall a, a ∈ l -> f a <= g a) -> peak (map f l) <= peak (map g l).
Proof.
  unfold peak. induction l as [|a l IH]; intros Hl; simpl; [lia|].
  pose proof (Hl a ltac:(set_solver)). specialize (IH ltac:(set_solver)). lia.
Qed.
Lemma total_map_le {A} (f g : A -> Z) l : (forall a, a ∈ l -> f a <= g a) -> total (map f l) <= total (map g l).
Proof.
  unfold total. induction l as [|a l IH]; intros Hl; simpl; [lia|].
  pose proof (Hl a ltac:(set_solver)). specialize (IH ltac:(set_solver)). lia.
Qed.

Lemma sane_figures it : sane it -> 0 <= figure "cache_read" it <= figure "input_tokens" it.
Proof. intros (p & c & Hp & Hc & Hle). unfold figure. simpl. rewrite Hp, Hc. simpl. lia. Qed.

Section Meters.
Context {JT : JsonText}.
Variable image_tokens : Z.
Hypothesis image_tokens_nonneg : 0 <= image_tokens.

Notation est := (_estimate image_tokens).
Notation append := (observe_append image_tokens).
Notation sync := (resync image_tokens).

Lemma est_nonneg ms : 0 <= est ms.
Proof.
  unfold _estimate, estimate_conversation_tokens.
  pose proof (sum_tokens_nonneg image_tokens ms image_tokens_nonneg). pose proof (estimate_nonneg []). lia.
Qed.

Lemma est_app a b : est (a ++ b) = est a + est b.
Proof.
  unfold _estimate, estimate_conversation_tokens. rewrite sum_tokens_app. change (estimate_tokens []) with 0. lia.
Qed.

Lemma est_nil : est [] = 0.
Proof. done. Qed.

Lemma slice_from_len {A} (n : Z) (l : list A) : 0 <= n -> slice_from n l = drop (Z.to_nat n) l.
Proof. intros Hn. unfold slice_from, slice_pos. by rewrite (proj2 (Z.ltb_ge n 0)) by lia. Qed.

(** The re-estimate, without its case on an empty tail. *)
Lemma append_fields ms m : measured m = true -> 0 <= m.(mt_reported_at_len) ->
  let n := Z.to_nat m.(mt_reported_at_len) in
  mt_appended (append ms m) = est (drop n ms) /\
  mt_offset (append ms m) = Z.max 0 (m.(mt_reported) - est (take n ms)).
Proof.
  intros Hm Hn n. subst n. unfold observe_append. rewrite Hm, slice_from_len by done. simpl.
  assert (E : match drop (Z.to_nat (mt_reported_at_len m)) ms with [] => 0 | _ => est (drop (Z.to_nat (mt_reported_at_len m)) ms) end
              = est (drop (Z.to_nat (mt_reported_at_len m)) ms)) by (by destruct (drop _ ms)).
  rewrite E. split; [done|]. do 2 f_equal.
  rewrite <- (take_drop (Z.to_nat (mt_reported_at_len m)) ms) at 1. rewrite est_app.
  pose proof (est_nonneg (take (Z.to_nat (mt_reported_at_len m)) ms)). lia.
Qed.

Lemma append_measured ms m : measured (append ms m) = measured m.
Proof. unfold observe_append. destruct (measured m) eqn:E; simpl; [by unfold measured in *|done]. Qed.

Lemma append_keeps ms m :
  mt_window (append ms m) = mt_window m /\ mt_reported (append ms m) = mt_reported m /\
  mt_reported_at_len (append ms m) = mt_reported_at_len m.
Proof. unfold observe_append. destruct (negb (measured m)); done. Qed.

Lemma resync_measured ms m : measured (sync ms m) = measured m.
Proof.
  unfold resync. destruct (measured m) eqn:E; simpl; [|done]. unfold measured. simpl. apply Z.ltb_lt. lia.
Qed.

Lemma append_ok ms m : meter_ok m -> meter_ok (append ms m).
Proof.
  intros (H1 & H2 & H3 & H4 & H5). destruct (measured m) eqn:E.
  - destruct (append_fields ms m E H3) as [Ha Ho]. destruct (append_keeps ms m) as (K1 & K2 & K3).
    unfold meter_ok. rewrite Ha, Ho, K1, K2, K3. pose proof (est_nonneg (drop (Z.to_nat (mt_reported_at_len m)) ms)). lia.
  - unfold observe_append. rewrite E. done.
Qed.

Lemma resync_ok ms m : meter_ok m -> meter_ok (sync ms m).
Proof. intros (H1 & H2 & H3 & H4 & H5). unfold resync. destruct (negb (measured m)); unfold meter_ok; simpl; lia. Qed.

Lemma report_ok us n m : meter_ok m -> meter_ok (observe_usage us n m).
Proof.
  intros (H1 & H2 & H3 & H4 & H5). unfold observe_usage.
  destruct (_ <=? 0) eqn:E; [done|]. bool_simp. unfold meter_ok. simpl. lia.
Qed.

Lemma take_app_len {A} (a b : list A) n : n = Z.of_nat (length a) ->
  take (Z.to_nat n) (a ++ b) = a /\ drop (Z.to_nat n) (a ++ b) = b.
Proof. intros ->. rewrite Nat2Z.id. by rewrite take_app_length, drop_app_length. Qed.

(** The meter accounts for the prompt. Once the engine has reported a prompt of [p]
    tokens for the rows [sent], whatever was appended since counts on top of [p], and
    looking twice counts nothing twice; and when the list is then rewritten in place,
    the meter reads the fixed cost the list does not contain (what [p] exceeds the
    estimate of [sent] by) plus the estimate of the rewritten list, so a relief pass
    frees by the meter exactly what it freed by the estimate; later looks keep that
    reading. *)
Theorem meter_accounts us p sent new rewritten m :
  us !! "input_tokens"%string = Some (CInt p) -> 0 < p -> est sent <= p -> 0 < p - est sent + est rewritten ->
  let m := append (sent ++ new) (observe_usage us (Z.of_nat (length sent)) m) in
  used m = p + est new /\
  append (sent ++ new) m = m /\
  used (sync rewritten m) = p - est sent + est rewritten /\
  used m - used (sync rewritten m) = est (sent ++ new) - est rewritten /\
  append rewritten (sync rewritten m) = sync rewritten m.
Proof.
  intros Hu Hp Hs Hr m'. subst m'.
  assert (Ho : observe_usage us (Z.of_nat (length sent)) m
             = Meter (mt_window m) p (Z.of_nat (length sent)) 0 (mt_offset m)).
  { unfold observe_usage. rewrite Hu. simpl. rewrite (proj2 (Z.leb_gt p 0)) by lia. f_equal. lia. }
  rewrite Ho. set (m0 := Meter _ _ _ _ _).
  assert (M0 : measured m0 = true) by (apply Z.ltb_lt; done).
  assert (A : forall a o, append (sent ++ new) (Meter (mt_window m) p (Z.of_nat (length sent)) a o)
    = Meter (mt_window m) p (Z.of_nat (length sent)) (est new) (p - est sent)).
  { intros a o. set (m1 := Meter _ _ _ a o).
    assert (M1 : measured m1 = true) by (apply Z.ltb_lt; done).
    destruct (append_fields (sent ++ new) m1 M1) as [Ea Eo]; [simpl; lia|].
    destruct (append_keeps (sent ++ new) m1) as (K1 & K2 & K3).
    simpl in *. destruct (take_app_len sent new _ eq_refl) as [Et Ed]. rewrite Et in Eo. rewrite Ed in Ea.
    destruct (append (sent ++ new) m1); simpl in *. subst. f_equal. lia. }
  subst m0. rewrite A. rewrite A. unfold used, resync, measured. simpl.
  rewrite (proj2 (Z.ltb_lt 0 p)) by done. simpl. rewrite (proj2 (Z.ltb_lt 0 _)) by lia.
  split; [done|]. split; [done|]. split; [lia|]. split; [rewrite est_app; lia|].
  set (m2 := Meter _ _ _ _ _).
  assert (M2 : measured m2 = true) by (apply Z.ltb_lt; simpl; lia).
  destruct (append_fields rewritten m2 M2) as [Ea Eo]; [simpl; lia|].
  destruct (append_keeps rewritten m2) as (K1 & K2 & K3). simpl in *.
  rewrite Nat2Z.id, drop_all in Ea. rewrite Nat2Z.id, take_ge in Eo by done.
  destruct (append rewritten m2); simpl in *. subst. subst m2. f_equal. lia.
Qed.
End Meters.

Lemma totals_step its it : sane it ->
  let t := fold_left _accumulate_iteration_usage its ∅ in
  let t' := _accumulate_iteration_usage t it in
  count_at "cache_read" t <= count_at "input_tokens" t -> count_at "cache_read_sum" t <= count_at "prompt_tokens_sum" t ->
  count_at "input_tokens" t' = Z.max (count_at "input_tokens" t) (figure "input_tokens" it) /\
  count_at "cache_read" t' = Z.max (count_at "cache_read" t) (figure "cache_read" it) /\
  count_at "prompt_tokens_sum" t' = count_at "prompt_tokens_sum" t + figure "input_tokens" it /\
  count_at "cache_read_sum" t' = count_at "cache_read_sum" t + figure "cache_read" it /\
  count_at "output_tokens" t' = count_at "output_tokens" t + figure "output_tokens" it.
Proof.
  intros (p & c & Hp & Hc & Hle) t t' B1 B2. subst t'.
  destruct (accumulate_at t it) as (E1 & E2 & E3 & E4 & E5).
  specialize (E5 "output_tokens"%string ltac:(unfold _PEAK_USAGE_KEYS, _EXPLICIT_SUM_USAGE_KEYS; set_solver)).
  rewrite fold_count_at in E1, E2, E5. unfold figure. simpl in *. rewrite Hp in *. rewrite Hc in *. simpl in *.
  rewrite fold_count_at in E2. rewrite Hp in E2. simpl in E2.
  repeat match type of E1 with context [ bool_decide ?b ] => change (bool_decide b) with true in E1 || change (bool_decide b) with false in E1 end.
  repeat match type of E2 with context [ bool_decide ?b ] => change (bool_decide b) with true in E2 || change (bool_decide b) with false in E2 end.
  repeat match type of E5 with context [ bool_decide ?b ] => change (bool_decide b) with true in E5 || change (bool_decide b) with false in E5 end.
  cbn iota in *. repeat split; try lia.
  destruct (it !! "output_tokens"%string) as [[z|b]|]; simpl in *; lia.
Qed.

(** What a turn reports is what its requests were, on engines that report no more
    cached tokens than prompt tokens: the prompt and the cached figure are the largest of
    any one request, their sums and the output are the sums over all of them, and both
    cached figures stay within the prompt figures they are divided by. *)
Theorem usage_totals its :
  Forall sane its ->
  let t := fold_left _accumulate_iteration_usage its ∅ in
  count_at "input_tokens" t = peak (map (figure "input_tokens") its) /\
  count_at "cache_read" t = peak (map (figure "cache_read") its) /\
  count_at "prompt_tokens_sum" t = total (map (figure "input_tokens") its) /\
  count_at "cache_read_sum" t = total (map (figure "cache_read") its) /\
  count_at "output_tokens" t = total (map (figure "output_tokens") its) /\
  bounded_pairs t.
Proof.
  intros Hs. assert (B : forall it, it ∈ its -> figure "cache_read" it <= figure "input_tokens" it)
    by (intros it Hit; apply sane_figures; by eapply Forall_forall in Hit).
  induction its as [|it its IH] using rev_ind.
  - cbn zeta. unfold bounded_pairs. simpl. unfold count_at. rewrite !lookup_empty. simpl. lia.
  - apply Forall_app in Hs as [Hs Hit]. rewrite Forall_singleton in Hit.
    destruct (IH Hs ltac:(set_solver)) as (E1 & E2 & E3 & E4 & E5 & B1 & B2). cbn zeta.
    rewrite fold_left_app. simpl.
    destruct (totals_step its it Hit B1 B2) as (F1 & F2 & F3 & F4 & F5).
    pose proof (sane_figures it Hit).
    rewrite !map_app. simpl. rewrite !peak_snoc, !total_snoc by lia.
    rewrite F1, F2, F3, F4, F5, E1, E2, E3, E4, E5.
    repeat split; apply accumulate_bounded.
Qed.

Definition report (p c o : Z) : usage :=
  {["input_tokens"%string := CInt p; "cache_read"%string := CInt c; "output_tokens"%string := CInt o]}.

Lemma meter_accounts_witness :
  let sent := [text_row "user" (repeat 120%N 400)] in
  let m := @observe_append blank_json 0 (sent ++ [text_row "tool" (repeat 120%N 800)])
             (observe_usage (report 5000 0 1) (Z.of_nat (length sent)) (new_meter 20000)) in
  used m = 5200 /\ used (@resync blank_json 0 sent m) = 5000.
Proof.
  intros sent m.
  destruct (@meter_accounts blank_json 0 ltac:(lia) (report 5000 0 1) 5000 sent
              [text_row "tool" (repeat 120%N 800)] sent (new_meter 20000)) as (E1 & _ & E3 & _).
  - reflexivity.
  - lia.
  - vm_compute. discriminate.
  - vm_compute. reflexivity.
  - split; [etransitivity; [exact E1|]; vm_compute; reflexivity|]. etransitivity; [exact E3|]. vm_compute. reflexivity.
Defined.

Lemma usage_totals_witness :
  let its := [report 1000 0 20; report 1500 900 30; report 1400 1300 5] in
  let t := fold_left _accumulate_iteration_usage its ∅ in
  count_at "input_tokens" t = 1500 /\ count_at "cache_read" t = 1300 /\
  count_at "prompt_tokens_sum" t = 3900 /\ count_at "output_tokens" t = 55.
Proof.
  intros its t. destruct (usage_totals its) as (E1 & E2 & E3 & _ & E5 & _).
  - repeat constructor; unfold sane; [exists 1000, 0|exists 1500, 900|exists 1400, 1300]; repeat split; lia.
  - split; [exact E1|]. split; [exact E2|]. split; [exact E3|exact E5].
Defined.
