(* ===== verification/ToolCatalog.v ===== *)
(** * The tools a turn is shown

    [app/harness/tool_schema.py], [app/harness/tool_search.py] and
    [app/harness/tool_search_cache.py]: MCP discovery becomes the list of tools a
    request advertises, each with a display [summary] parameter; with ToolSearch on
    only a baseline and what the model has loaded are advertised. *)
From Stdlib Require Import String.
From S2P Require Import Prelude PyText Stamps QueueRows Messages Microcompact Policy PoolRun JsonCodec.

Local Open Scope Z_scope.

(** A tool as a server declares it: [inputSchema] is the fields of an object, empty
    when the tool declares none. *)
Record mcp_tool := McpTool {
  d_name : text;
  d_desc : text;
  d_schema : list (string * json);
  d_read_only : bool                 (** [annotations.readOnlyHint] *)
}.

(** [pool.discovered]: the tools of each server. *)
Abbreviation discovery := (list (text * list mcp_tool)).

(** A tool as it is advertised. *)
Record tool := Tool { t_name : text; t_desc : text; t_params : list (string * json) }.

#[export] Instance json_eq_dec : EqDecision json.
Proof.
  refine (fun a b => match decide (to_tree a = to_tree b) with left E => left _ | right N => right _ end).
  - by rewrite <- (of_to_tree a), <- (of_to_tree b), E.
  - intros ->. by apply N.
Defined.

(** ** Schemas ([tool_schema.py]) *)

Definition OPENAI_TOOL_NAME_MAX : Z := 64.
Definition SUMMARY_ARG : string := "summary".
Definition SUMMARY_PROPERTY : json :=
  JObj [("type"%string, JStr "string");
        ("description"%string, JStr (encode (
          u "Short present-tense summary of what this call is doing, for the human watching the transcript — e.g. " ++ [34%N]
          ++ u "Reading server.py" ++ [34%N] ++ u ", " ++ [34%N] ++ u "Restarting the backend" ++ [34%N] ++ u ", "
          ++ [34%N] ++ u "Searching the vault for voice notes" ++ [34%N]
          ++ u ". Under ~8 words, no trailing period, and don't repeat the tool name. "
          ++ u "Display only: stripped before the tool runs.")))].

(** [{"type": "object", "properties": {}}]. *)
Definition EMPTY_SCHEMA : list (string * json) :=
  [("type"%string, JStr "object"); ("properties"%string, JObj [])].
Definition or_empty (fs : list (string * json)) : list (string * json) :=
  match fs with [] => EMPTY_SCHEMA | _ => fs end.

Definition props_of (params : list (string * json)) : list (string * json) :=
  match obj_get "properties" params with Some (JObj fs) => fs | _ => [] end.
Definition required_of (params : list (string * json)) : list json :=
  match obj_get "required" params with Some (JList l) => l | _ => [] end.

(** One tool of the loop: the tool, and whether the parameter was injected. *)
Definition add_summary (t : tool) : tool * bool :=
  let params := or_empty t.(t_params) in
  let props := props_of params in
  if bool_decide (is_Some (obj_get SUMMARY_ARG props)) then (t, false)
  else
    let required := required_of params in
    let required := if bool_decide (JStr SUMMARY_ARG ∈ required) then required else JStr SUMMARY_ARG :: required in
    (Tool t.(t_name) t.(t_desc)
       (obj_put "required" (JList required)
          (obj_put "properties" (JObj ((SUMMARY_ARG, SUMMARY_PROPERTY) :: props)) params)), true).

Definition add_summary_param (tools : list tool) : list tool * list text :=
  (map (fun t => fst (add_summary t)) tools, omap (fun t => if snd (add_summary t) then Some t.(t_name) else None) tools).

(** [args.pop(k, None)]. *)
Definition obj_pop (k : string) (fs : list (string * json)) : list (string * json) :=
  sel (fun kv => negb (String.eqb k kv.1)) fs.

(** [pop_summary]: the caption, and the arguments without it. *)
Definition pop_summary (args : list (string * json)) : text * list (string * json) :=
  (match obj_get SUMMARY_ARG args with Some (JStr s) => strip (utf8 s) | _ => [] end, obj_pop SUMMARY_ARG args).

(** [mcp_tool_to_openai]. *)
Definition mcp_tool_to_openai (d : mcp_tool) : outcome tool :=
  if OPENAI_TOOL_NAME_MAX <? len d.(d_name) then Raise ValueError
  else Ok (Tool d.(d_name) d.(d_desc) (or_empty d.(d_schema))).

(** Two servers that export one name. *)
Inductive discovery_error := NameCollision (name first_server second_server : text).

(** What [build_tool_list] skips. *)
Definition hidden_tool (server : text) (d : mcp_tool) (disallowed : list text) : bool :=
  startswith (u "_") d.(d_name)
  || bool_decide (d.(d_name) ∈ disallowed)
  || bool_decide ((u "mcp__" ++ server ++ u "__" ++ d.(d_name)) ∈ disallowed).

(** The inner loop over one server's tools; [seen] maps a name to its server. *)
Fixpoint build_server (server : text) (disallowed : list text) (ds : list mcp_tool)
    (seen : gmap text text) (tools : list tool) : discovery_error + gmap text text * list tool :=
  match ds with
  | [] => inr (seen, tools)
  | d :: ds =>
      if hidden_tool server d disallowed then build_server server disallowed ds seen tools
      else
        match seen !! d.(d_name) with
        | Some other =>
            if negb (bool_decide (other = server)) then inl (NameCollision d.(d_name) other server)
            else match mcp_tool_to_openai d with
                 | Ok t => build_server server disallowed ds (<[d.(d_name) := server]> seen) (tools ++ [t])
                 | Raise _ => build_server server disallowed ds seen tools
                 end
        | None =>
            match mcp_tool_to_openai d with
            | Ok t => build_server server disallowed ds (<[d.(d_name) := server]> seen) (tools ++ [t])
            | Raise _ => build_server server disallowed ds seen tools
            end
        end
  end.

Fixpoint build_from (disallowed : list text) (discovered : discovery) (seen : gmap text text) (tools : list tool)
    : discovery_error + list tool :=
  match discovered with
  | [] => inr tools
  | (server, ds) :: rest =>
      match build_server server disallowed ds seen tools with
      | inl e => inl e
      | inr (seen, tools) => build_from disallowed rest seen tools
      end
  end.

Definition build_tool_list (discovered : discovery) (disallowed : list text) : discovery_error + list tool :=
  build_from disallowed discovered ∅ [].

(** ** The loaded set ([tool_search.py]) *)

Definition TOOLSEARCH_TOOL_NAME : text := u "ToolSearch".

Definition TOOLSEARCH_DESCRIPTION : text :=
  u "Fetches full schema definitions for deferred tools so they can be called." ++ nl ++ nl
  ++ u "Deferred tools appear by name in <system-reminder> messages. Until fetched, only the name is known — there is no parameter schema, so the tool cannot be invoked. This tool takes a query, matches it against the deferred tool list, and returns the matched tools' complete JSONSchema definitions inside a <functions> block. Once a tool's schema appears in that result, it is callable exactly like any tool defined at the top of the prompt." ++ nl ++ nl
  ++ u "Result format: each matched tool appears as one <function>{" ++ [34%N] ++ u "description" ++ [34%N] ++ u ": " ++ [34%N]
  ++ u "..." ++ [34%N] ++ u ", " ++ [34%N] ++ u "name" ++ [34%N] ++ u ": " ++ [34%N] ++ u "..." ++ [34%N] ++ u ", "
  ++ [34%N] ++ u "parameters" ++ [34%N] ++ u ": {...}}</function> line inside the <functions> block — the same encoding as the tool list at the top of this prompt." ++ nl ++ nl
  ++ u "Query forms:" ++ nl
  ++ u "- " ++ [34%N] ++ u "select:Read,Edit,Grep" ++ [34%N] ++ u " — fetch these exact tools by name" ++ nl
  ++ u "- " ++ [34%N] ++ u "notebook jupyter" ++ [34%N] ++ u " — keyword search, up to max_results best matches" ++ nl
  ++ u "- " ++ [34%N] ++ u "+slack send" ++ [34%N] ++ u " — require " ++ [34%N] ++ u "slack" ++ [34%N] ++ u " in the name, rank by remaining terms".

Definition dq (t : text) : text := [34%N] ++ t ++ [34%N].

Definition TOOLSEARCH_OPENAI_TOOL : tool :=
  Tool TOOLSEARCH_TOOL_NAME TOOLSEARCH_DESCRIPTION
    [("type"%string, JStr "object");
     ("properties"%string, JObj
        [("query"%string, JObj [("type"%string, JStr "string");
            ("description"%string, JStr (encode (u "Query to find deferred tools. Use " ++ dq (u "select:<tool_name>")
                                            ++ u " for direct selection, or keywords to search.")))]);
         ("max_results"%string, JObj [("type"%string, JStr "integer");
            ("description"%string, JStr "Maximum number of results to return (default: 5)");
            ("default"%string, JInt 5)])]);
     ("required"%string, JList [JStr "query"])].

Definition TOOLSEARCH_OPENAI_TOOL_WITH_SUMMARY : tool := fst (add_summary TOOLSEARCH_OPENAI_TOOL).

Record loaded_set := LoadedToolSet {
  ls_catalog : list tool;
  ls_baseline : gset text;
  ls_loaded : gset text;
  ls_enabled : bool;
  ls_signature : text;
  ls_summaries : bool
}.

Definition visible_tools (ls : loaded_set) (extra : gset text) : list tool :=
  let shown t := negb (bool_decide (t.(t_name) ∈ extra)) in
  if negb ls.(ls_enabled) then sel shown ls.(ls_catalog)
  else
    sel (fun t => bool_decide (t.(t_name) ∈ ls.(ls_baseline) ∪ ls.(ls_loaded)) && shown t) ls.(ls_catalog)
    ++ [if ls.(ls_summaries) then TOOLSEARCH_OPENAI_TOOL_WITH_SUMMARY else TOOLSEARCH_OPENAI_TOOL].

Definition catalog_names (catalog : list tool) : list text := map t_name catalog.

(** [is_visible(name)], with no extra names hidden. *)
Definition is_visible (ls : loaded_set) (name : text) : bool :=
  if negb ls.(ls_enabled) then bool_decide (name ∈ catalog_names ls.(ls_catalog))
  else bool_decide (name = TOOLSEARCH_TOOL_NAME) || bool_decide (name ∈ ls.(ls_baseline)) || bool_decide (name ∈ ls.(ls_loaded)).

Definition mark_loaded (names : list text) (ls : loaded_set) : loaded_set :=
  LoadedToolSet ls.(ls_catalog) ls.(ls_baseline)
    (list_to_set (sel (fun n => bool_decide (n ∈ catalog_names ls.(ls_catalog))) names) ∪ ls.(ls_loaded))
    ls.(ls_enabled) ls.(ls_signature) ls.(ls_summaries).

(** [sorted()] of strings: by code points. *)
Definition tle (a b : text) : bool := sle (encode a) (encode b).

(** The keys of a dict in the order they were first set, each with its last value. *)
Fixpoint dict_put {V} (k : text) (v : V) (d : list (text * V)) : list (text * V) :=
  match d with
  | [] => [(k, v)]
  | (k', v') :: d => if bool_decide (k = k') then (k', v) :: d else (k', v') :: dict_put k v d
  end.
Fixpoint dict_get {V} (k : text) (d : list (text * V)) : option V :=
  match d with
  | [] => None
  | (k', v) :: d => if bool_decide (k = k') then Some v else dict_get k d
  end.
Definition by_name (catalog : list tool) : list (text * tool) :=
  fold_left (fun d t => dict_put t.(t_name) t d) catalog [].

(** [s.split(None, 1)]: the first word, and the rest where there is any. *)
Definition split_once (s : text) : list text :=
  let '(w, rest) := span (fun c => negb (isspace c)) (lstrip s) in
  match w, lstrip rest with
  | [], _ => []
  | _, [] => [w]
  | _, r => [w; r]
  end.

Section Search.
(** [json.dumps(v, separators=(",", ":"))]. *)
Variable dump_compact : json -> text.
(** [str.lower]. *)
Variable lower_text : text -> text.

Definition format_tool_as_function_block (t : tool) : text :=
  u "<function>"
  ++ dump_compact (JObj [("description"%string, JStr (encode t.(t_desc))); ("name"%string, JStr (encode t.(t_name)));
                      ("parameters"%string, JObj (or_empty t.(t_params)))])
  ++ u "</function>".

Definition _render_functions_block (tools : list tool) (note : text) : text :=
  join nl ([u "<functions>"] ++ map format_tool_as_function_block tools ++ [u "</functions>"]
           ++ match note with [] => [] | _ => [[]; note] end).

Definition score_of (require : option text) (tokens : list text) (t : tool) : option Z :=
  let name_l := lower_text t.(t_name) in
  let desc_l := lower_text t.(t_desc) in
  if match require with Some r => nonempty r && negb (contains r name_l) | None => false end then None
  else
    let score := foldr Z.add 0 (map (fun tok => (if contains tok name_l then 3 else 0) + (if contains tok desc_l then 1 else 0)) tokens) in
    let required := match require with Some r => nonempty r | None => false end in
    let score := if required then score + 2 else score in
    if (0 <? score) || (required && match tokens with [] => true | _ => false end) then Some score else None.

(** The order of the sort key [(-score, len(name), name)]. *)
Definition better (a b : Z * text) : bool :=
  if negb (a.1 =? b.1) then b.1 <? a.1
  else if negb (len a.2 =? len b.2) then len a.2 <? len b.2
  else tle a.2 b.2.

Definition tools_named (d : list (text * tool)) (names : list text) : list tool := omap (fun n => dict_get n d) names.

Definition SELECT_PREFIX : text := u "select:".

Definition search_tools (query : text) (max_results : Z) (catalog : list tool) : outcome (list text * text) :=
  let d := by_name catalog in
  let q := strip query in
  match q with
  | [] =>
      let ordered := slice_to max_results (sort_by tle (map fst d)) in
      Ok (ordered, _render_functions_block (tools_named d ordered)
                     (u "(empty query — showing first matches alphabetically; supply keywords or 'select:<name>' for targeted results)"))
  | c :: _ =>
      if startswith SELECT_PREFIX q then
        let wanted := sel nonempty (map strip (split_char 44 [] (drop (length SELECT_PREFIX) q))) in
        let matched := sel (fun n => bool_decide (is_Some (dict_get n d))) wanted in
        let missing := sel (fun n => negb (bool_decide (is_Some (dict_get n d)))) wanted in
        Ok (matched, _render_functions_block (tools_named d matched)
                       (match missing with [] => [] | _ => u "(not found: " ++ join (u ", ") missing ++ u ")" end))
      else
        rr <-? (if (c =? 43)%N
                then match split_once (drop 1 q) with
                     | [] => Raise IndexError
                     | [r] => Ok (Some (lower_text r), [])
                     | r :: rest :: _ => Ok (Some (lower_text r), rest)
                     end
                else Ok (None, q)) ;;
        let '(require, rest) := rr in
        let tokens := sel nonempty (map lower_text (split_ws rest)) in
        let scored := omap (fun '(n, t) => (fun s => (s, n)) <$> score_of require tokens t) d in
        let matched := slice_to max_results (map snd (sort_by better scored)) in
        Ok (matched, _render_functions_block (tools_named d matched)
                       (match matched with
                        | [] => u "(no matches — try different keywords, or 'select:<exact-name>' if you know the tool name)"
                        | _ => []
                        end))
  end.

(** ** The reminder in the system message *)

Definition CATALOG_GIST_CHARS : Z := 110.

(** [s.rstrip(chars)]. *)
Definition rstrip_of (chars : list N) (s : text) : text :=
  rev (snd (span (fun c => bool_decide (c ∈ chars)) (rev s))).

(** [_gist] of a description that is not empty. *)
Definition _gist (desc : text) : text :=
  let first_line := strip (hd [] (splitlines desc)) in
  let first_line := match find (u ". ") first_line with
                    | Some i => if 28 <=? Z.of_nat i then take i first_line ++ u "." else first_line
                    | None => first_line
                    end in
  if CATALOG_GIST_CHARS <? len first_line
  then rstrip_of [32; 44; 59; 58]%N (upto first_line CATALOG_GIST_CHARS) ++ u "…"
  else first_line.

Definition reminder_line (t : tool) : text :=
  match strip t.(t_desc) with
  | [] => u "- " ++ t.(t_name)
  | desc => u "- " ++ t.(t_name) ++ u " — " ++ _gist desc
  end.

Definition format_catalog_reminder (catalog : list tool) (loaded : gset text) : text :=
  match catalog with
  | [] => []
  | _ =>
      let is_loaded t := bool_decide (t.(t_name) ∈ loaded) in
      let loaded_lines := map reminder_line (sel is_loaded catalog) in
      let unloaded_lines := map reminder_line (sel (fun t => negb (is_loaded t)) catalog) in
      join nl
        ([u "<system-reminder>"]
         ++ match loaded_lines with
            | [] => []
            | _ => [u "The following tools are loaded and callable now. They stay loaded for the rest of this session — do not re-call ToolSearch for them:"; []]
                   ++ loaded_lines ++ match unloaded_lines with [] => [] | _ => [[]] end
            end
         ++ match unloaded_lines with
            | [] => []
            | _ => [u "The following deferred tools are available via ToolSearch. Use ToolSearch with query " ++ dq (u "select:<name>[,<name>...]")
                    ++ u " to load schemas in advance, or keyword search to discover tools by topic. Direct calls also work — the harness auto-loads on first use — but ToolSearch is more efficient when planning a parallel batch of calls to the same tool:"; []]
                   ++ unloaded_lines
            end
         ++ [u "</system-reminder>"])
  end.

(** ** The session's cache ([tool_search_cache.py]) *)

(** [hashlib.sha1(...).hexdigest()]. *)
Variable sha1_hex : text -> text.

Definition pair_le (a b : text * text) : bool :=
  if bool_decide (a.1 = b.1) then tle a.2 b.2 else tle a.1 b.1.

Definition catalog_signature (catalog : list tool) : text :=
  let pairs := sort_by pair_le (map (fun t => (t.(t_name), t.(t_desc))) catalog) in
  take 16 (sha1_hex (dump_compact (JList (map (fun '(n, d) => JList [JStr (encode n); JStr (encode d)]) pairs)))).

Abbreviation set_cache := (gmap text loaded_set).

(** [get_or_create]: the session's set, made afresh when the catalog has changed. *)
Definition get_or_create (session_id : text) (catalog : list tool) (baseline : gset text) (enabled summaries : bool)
    (cache : set_cache) : loaded_set * set_cache :=
  let sig := catalog_signature catalog in
  let fresh := LoadedToolSet catalog baseline ∅ enabled sig summaries in
  match session_id with
  | [] => (fresh, cache)
  | _ =>
      let ls := match cache !! session_id with
                | Some c => if bool_decide (c.(ls_signature) = sig)
                            then LoadedToolSet catalog baseline c.(ls_loaded) enabled c.(ls_signature) summaries
                            else fresh
                | None => fresh
                end in
      (ls, <[session_id := ls]> cache)
  end.
End Search.

(** ** Lemmas *)

Lemma elem_visible ls extra t :
  t ∈ visible_tools ls extra ->
  (t ∈ ls.(ls_catalog) /\ t.(t_name) ∉ extra) \/ (ls.(ls_enabled) = true /\ t.(t_name) = TOOLSEARCH_TOOL_NAME).
Proof.
  unfold visible_tools. destruct (ls_enabled ls); simpl.
  - rewrite elem_of_app, elem_of_sel, list_elem_of_singleton. intros [[Hs Hc]|Ht].
    + left. by bool_simp.
    + right. split; [done|]. subst. by destruct (ls_summaries ls).
  - rewrite elem_of_sel. intros [Hs Hc]. left. by bool_simp.
Qed.
