(* ===== verification/ToolCalls.v ===== *)
(** * Tool calls on their way from the stream to the history

    [app/harness/loop.py]: the pieces of a call put together and parsed, the assistant
    message and the tool messages they leave in the history, the captions, which
    batches may overlap, and the order a batch's messages are put back in. *)
From Stdlib Require Import String.
From S2P Require Import Prelude PyText Stamps QueueRows Regex Spill Messages Microcompact Policy PoolRun Meter ToolCatalog.

Local Open Scope Z_scope.

(** ** Streamed pieces *)

(** A [tool_calls] delta: empty text where the field is absent or falsy. *)
Record tc_delta := TcDelta {
  td_index : Z;
  td_id : text;
  td_type : text;
  td_name : text;
  td_args : text
}.

(** A call under construction. *)
Record raw_call := RawCall { rc_id : text; rc_type : text; rc_name : text; rc_args : text }.

Definition or_text (t dflt : text) : text := match t with [] => dflt | _ => t end.

Definition _accumulate_tool_call (acc : gmap Z raw_call) (d : tc_delta) : gmap Z raw_call :=
  let cur := default (RawCall [] (u "function") [] []) (acc !! d.(td_index)) in
  <[d.(td_index) := RawCall (or_text d.(td_id) cur.(rc_id)) (or_text d.(td_type) cur.(rc_type))
                      (cur.(rc_name) ++ d.(td_name)) (cur.(rc_args) ++ d.(td_args))]> acc.

(** [sorted(acc)], with each call. *)
Definition in_order (acc : gmap Z raw_call) : list (Z * raw_call) :=
  sort_by (fun a b => a.1 <=? b.1) (map_to_list acc).

(** A committed call: what history replays ([arguments]), what MCP gets
    ([_args_dict]), and the caption ([_summary], empty when there is none). *)
Record call := Call {
  c_id : text;
  c_type : text;
  c_name : text;
  c_arguments : text;
  c_summary : text;
  c_args : list (string * json)
}.

Definition PARSE_ERROR : string := "__parse_error__".

(** [args.get("__parse_error__")], for its truth. *)
Definition is_parse_error (args : list (string * json)) : bool :=
  match obj_get PARSE_ERROR args with Some v => negb (falsy v) | None => false end.

(** [JSONDecoder().raw_decode]: the first JSON value of a text, and where it ends; and
    the message of the error [json.loads] raises. *)
Class JsonDecoder := { raw_decode : text -> option (json * nat); decode_error : text -> text }.

Section Calls.
Context {PJ : PyJson} {JD : JsonDecoder}.

(** What [_parse_tool_args_tolerant] answers. *)
Inductive parsed_args :=
| Parsed (args : list (string * json))
| Repaired (args : list (string * json)) (raw : text)
| Unparsed (why : text).

Definition NOT_AN_OBJECT : text := u "tool arguments must be a JSON object".
(** The characters of the stray tail: braces, commas and blanks. *)
Definition stray (c : N) : bool := bool_decide (c ∈ [125; 44; 32; 9; 13; 10]%N).

Definition _parse_tool_args_tolerant (raw : text) : parsed_args :=
  match raw with
  | [] => Parsed []
  | _ =>
      match parse_json raw with
      | Some (JObj fs) => Parsed fs
      | Some _ => Unparsed NOT_AN_OBJECT
      | None =>
          let first_err := decode_error raw in
          match raw_decode raw with
          | None => Unparsed first_err
          | Some (v, end_) =>
              match v with
              | JObj fs =>
                  let trailing := strip (drop end_ raw) in
                  if forallb stray trailing then Repaired fs (take end_ raw) else Unparsed first_err
              | _ => Unparsed NOT_AN_OBJECT
              end
          end
      end
  end.

(** The arguments of a call that could not be parsed. *)
Definition parse_failure_args (raw err finish_reason : text) : list (string * json) :=
  [(PARSE_ERROR, JBool true); ("raw"%string, JStr (encode raw)); ("error"%string, JStr (encode err));
   ("finish_reason"%string, JStr (encode finish_reason)); ("raw_len"%string, JInt (len raw))].

(** One call of the loop; [fresh] is the id made up for a call that came without one. *)
Definition commit_call (summary_tools : gset text) (finish_reason fresh : text) (rc : raw_call) : option call :=
  match rc.(rc_name) with
  | [] => None
  | name =>
      let raw_args := or_text rc.(rc_args) (u "{}") in
      let '(args, arguments) :=
        match _parse_tool_args_tolerant raw_args with
        | Parsed args => (args, rc.(rc_args))
        | Repaired args repaired => (args, repaired)
        | Unparsed err => (parse_failure_args raw_args err finish_reason, u "{}")
        end in
      let '(summary, args) :=
        if bool_decide (name ∈ summary_tools) && negb (is_parse_error args) then pop_summary args else ([], args) in
      Some (Call (or_text rc.(rc_id) fresh) rc.(rc_type) name arguments summary args)
  end.

Definition _commit_tool_calls (summary_tools : gset text) (finish_reason : text) (fresh : Z -> text)
    (acc : gmap Z raw_call) : list call :=
  omap (fun '(i, rc) => commit_call summary_tools finish_reason (fresh i) rc) (in_order acc).

(** ** The assistant message *)

Section Fidelity.
Context {PU : PyUnicode}.

(** [app/thinking_fidelity.py]: the marks of a trace about a request nobody made. *)
Definition possessive : re := alts [iword (u "my"); iword (u "your"); iword (u "the")].
Definition FABRICATION_MARKERS : list re :=
  [iword (u "previous thinking");
   Seq (iword (u "reproduce")) (Seq (plus space) (Seq possessive (Seq (plus space)
     (Seq (opt (alts [Seq (iword (u "complete")) (plus space); Seq (iword (u "previous")) (plus space)]))
          (alts [iword (u "thinking"); iword (u "reasoning")])))));
   Seq (iword (u "no actual")) (Seq (plus space) (alts [iword (u "task"); iword (u "question")]));
   iword (u "no substantive reasoning");
   iword (u "just a system reminder");
   Seq Wb (Seq (iword (u "audit tool")) Wb)].

Definition flag_fabricated_reasoning (t : text) : bool := nonempty t && search (alts FABRICATION_MARKERS) t.

Definition history_call (c : call) : tool_call :=
  ToolCall c.(c_id) [] c.(c_name) (Some (JStr (encode c.(c_arguments)))) [] JNull
    (JObj [("type"%string, JStr (encode c.(c_type)))]).

Definition _assistant_message_for_history (txt : text) (calls : list call) (reasoning : text) : message :=
  let reasoning := if flag_fabricated_reasoning reasoning then [] else reasoning in
  Msg None "assistant"
    (match calls, txt with _ :: _, [] => COther (u "None") | _, _ => CStr txt end)
    None (map history_call calls) [] (match reasoning with [] => None | r => Some r end) 0 None JNull.
End Fidelity.

(** ** Preserved reasoning *)

Definition drop_reasoning (m : message) : message :=
  Msg m.(m_id) m.(m_role) m.(m_content) m.(m_turn_id) m.(m_tool_calls) m.(m_call_id) None
      m.(m_image_refs) m.(m_images) m.(m_rest).

Definition has_reasoning (m : message) : bool :=
  is_assistant m && match m.(m_reasoning) with Some _ => true | None => false end.

(** The loop over the reversed list: [seen] counts the traces met so far. *)
Fixpoint prune_from (keep seen : Z) (rms : list message) : list message :=
  match rms with
  | [] => []
  | m :: rms =>
      if has_reasoning m
      then (if keep <? seen + 1 then drop_reasoning m else m) :: prune_from keep (seen + 1) rms
      else m :: prune_from keep seen rms
  end.

Definition _prune_reasoning (keep : Z) (ms : list message) : list message := rev (prune_from keep 0 (rev ms)).

Definition _cap_history_reasoning (keep : Z) (ms : list message) : list message :=
  if keep <=? 0 then ms else _prune_reasoning keep ms.

(** ** Captions *)

Record caption_count := Captions { cap_total : Z; cap_present : Z; cap_nudged : bool }.

(** [_account_captions]: the counts, and the id of the call that carries the nudge. *)
Fixpoint _account_captions (calls : list call) (summary_tools : gset text) (c : caption_count) (nudge_id : text)
    : caption_count * text :=
  match calls with
  | [] => (c, nudge_id)
  | tc :: calls =>
      if negb (bool_decide (tc.(c_name) ∈ summary_tools)) then _account_captions calls summary_tools c nudge_id
      else if nonempty tc.(c_summary)
      then _account_captions calls summary_tools (Captions (c.(cap_total) + 1) (c.(cap_present) + 1) c.(cap_nudged)) nudge_id
      else if c.(cap_nudged)
      then _account_captions calls summary_tools (Captions (c.(cap_total) + 1) c.(cap_present) true) nudge_id
      else _account_captions calls summary_tools (Captions (c.(cap_total) + 1) c.(cap_present) true) tc.(c_id)
  end.

(** The call the nudge is appended to, by its place in the batch. *)
Definition nudged_call (summary_tools : gset text) (nudge_id : text) (tc : call) : bool :=
  nonempty nudge_id && bool_decide (tc.(c_id) = nudge_id) && bool_decide (tc.(c_name) ∈ summary_tools)
  && negb (nonempty tc.(c_summary)).

Fixpoint index_of {A} (p : A -> bool) (l : list A) : option nat :=
  match l with [] => None | a :: l => if p a then Some 0%nat else S <$> index_of p l end.

Definition nudge_at (calls : list call) (summary_tools : gset text) (nudge_id : text) : option nat :=
  index_of (nudged_call summary_tools nudge_id) calls.

(** ** Which batches may overlap *)

Definition _read_only_names (discovered : discovery) : gset text :=
  list_to_set (map d_name (sel d_read_only (concat (map snd discovered)))).

Definition _TASK_TOOL_NAMES : list text := [u "Task"; u "mcp__lloyd-mcp__Task"].
Definition GENERAL_PURPOSE : text := u "general-purpose".

(** [str(args.get(k) or dflt)]. *)
Definition arg_text (k : string) (dflt : text) (args : list (string * json)) : text :=
  match obj_get k args with
  | Some v => if falsy v then dflt else str_or_empty v
  | None => dflt
  end.

Definition _is_parallel_safe_task (profiles : gset text) (tc : call) : bool :=
  bool_decide (tc.(c_name) ∈ _TASK_TOOL_NAMES) && negb (bool_decide (profiles = ∅))
  && negb (nonempty (strip (arg_text "task_id" [] tc.(c_args))))
  && bool_decide (arg_text "subagent_type" GENERAL_PURPOSE tc.(c_args) ∈ profiles).

Definition _batch_is_read_only (calls : list call) (read_only profiles : gset text) : bool :=
  forallb (fun tc => is_parse_error tc.(c_args) || bool_decide (tc.(c_name) = TOOLSEARCH_TOOL_NAME)
                     || bool_decide (tc.(c_name) ∈ read_only) || _is_parallel_safe_task profiles tc) calls.

Definition _is_task_fanout (calls : list call) (profiles : gset text) : bool :=
  let live := sel (fun tc => negb (is_parse_error tc.(c_args))) calls in
  forallb (_is_parallel_safe_task profiles) live && match live with [] => false | _ => true end.

(** ** Results and the tool messages they leave *)

(** A screenshot of a result, as [shape_tool_images] describes it. *)
Record shot := Shot { sh_path : text; sh_native : bool; sh_deduped : bool; sh_described : bool }.

Inductive error_class :=
| EDenied | EDisabled | EParseError | ETransport | EMcpError | ECancelled | EDispatchFailed | EToolError.

(** A [tool_result] event; [r_raw_chars] is the length of the answer before it was spilled. *)
Record tool_result := ToolResult {
  r_call_id : text;
  r_name : text;
  r_content : text;
  r_is_error : bool;
  r_raw_chars : Z;
  r_images : list shot;
  r_error_class : option error_class
}.

(** [events.tool_result]: an error without a class is a [tool_error]. *)
Definition result_event (call_id name content : text) (is_error : bool) (raw_chars : option Z) (images : list shot)
    (cls : option error_class) : tool_result :=
  ToolResult call_id name content is_error (default (len content) raw_chars) images
    (match cls with None => if is_error then Some EToolError else None | c => c end).

Definition _CAPTION_NUDGE : text :=
  nl ++ nl ++ u "[harness] That call carried no `summary`. Every tool takes a short `summary` as its first argument — a phrase like "
  ++ dq (u "Reading server.py") ++ u " or " ++ dq (u "Restarting the backend")
  ++ u " — and it is what the transcript shows in place of a bare tool name. Include one on every call from here on.".

Definition _with_caption_nudge (r : tool_result) : tool_result :=
  ToolResult r.(r_call_id) r.(r_name) (r.(r_content) ++ _CAPTION_NUDGE) r.(r_is_error) r.(r_raw_chars)
    r.(r_images) r.(r_error_class).

Definition shown_shots (r : tool_result) : list shot :=
  sel (fun s => s.(sh_native) && negb s.(sh_deduped) && negb s.(sh_described)) r.(r_images).

Definition tool_row (call_id txt : text) (refs : nat) : message :=
  Msg None "tool" (CStr txt) None [] call_id None refs None JNull.

Definition _tool_history_message (call_id : text) (r : tool_result) (allow_images : bool) : message :=
  match shown_shots r with
  | [] => tool_row call_id r.(r_content) 0
  | s :: rest =>
      if allow_images then tool_row call_id r.(r_content) (length (s :: rest))
      else tool_row call_id
             (r.(r_content) ++ nl ++ u "[screenshot kept on disk at " ++ or_text s.(sh_path) (u "the tool-results directory")
              ++ u "; this turn's image input was refused, so it was not shown - drive by the element list and that file]") 0
  end.

(** ** A batch's messages back in wire order *)

Definition _reorder_batch_messages (base : nat) (ms : list message) : list message :=
  let tail := drop base ms in
  if (length tail <? 2)%nat then ms
  else
    let tools := sel is_tool tail in
    let others := sel (fun m => negb (is_tool m)) tail in
    match others, tools with
    | [], _ | _, [] => ms
    | _, _ => take base ms ++ tools ++ others
    end.

(** ** Screenshots on the wire ([app/harness/tool_images.py]) *)

Definition EVICTED_PLACEHOLDER : text := u "[screenshot removed to save context]".

(** What the [bytes] of a message's screenshots add up to. *)
Variable shot_bytes : message -> Z.

Definition has_refs (m : message) : bool := (0 <? m.(m_image_refs))%nat.

Definition drop_refs (m : message) : message := set_images 0 m.(m_images) m.

Definition _evict (m : message) : message :=
  let m := drop_refs m in
  match m.(m_content) with
  | CStr c => if contains EVICTED_PLACEHOLDER c then m else set_content (CStr (c ++ nl ++ EVICTED_PLACEHOLDER)) m
  | _ => m
  end.

Definition _ref_count_and_bytes (ms : list message) : Z * Z :=
  (foldr Z.add 0 (map (fun m => Z.of_nat m.(m_image_refs)) ms),
   foldr Z.add 0 (map (fun m => if has_refs m then shot_bytes m else 0) ms)).

Record images_cfg := ImagesCfg { ic_max_n : Z; ic_max_bytes : Z; ic_batch : Z; ic_keep : Z }.

Definition over_cap (c : images_cfg) (ms : list message) : bool :=
  let '(n, b) := _ref_count_and_bytes ms in negb ((n <=? c.(ic_max_n)) && (b <=? c.(ic_max_bytes))).

(** The loop from index [i] up to [limit], over the messages before and from [i]. *)
Fixpoint evict_from (c : images_cfg) (limit : nat) (evicted : Z) (pre ms : list message) : list message :=
  match ms with
  | [] => pre
  | m :: rest =>
      if (limit <=? length pre)%nat then pre ++ ms
      else if has_refs m then
        let pre' := pre ++ [_evict m] in
        if (Z.max 1 c.(ic_batch) <=? evicted + 1) && negb (over_cap c (pre' ++ rest)) then pre' ++ rest
        else evict_from c limit (evicted + 1) pre' rest
      else evict_from c limit evicted (pre ++ [m]) rest
  end.

Definition enforce_outbound_cap (c : images_cfg) (protect_from : nat) (ms : list message) : list message :=
  if negb (over_cap c ms) then ms
  else match ms with
       | [] => []
       | m :: rest => evict_from c (Nat.max 1 protect_from) 0 [m] rest
       end.

Definition _cap_images (c : images_cfg) (batch_base : nat) (ms : list message) : list message :=
  if existsb has_refs ms then enforce_outbound_cap c batch_base ms else ms.

(** [idx[:-keep] if keep > 0 else idx]: every image-bearing message but the newest. *)
Definition keep_newest (keep : Z) (ms : list message) : list message * Z :=
  let idx := positions has_refs ms in
  let gone := if 0 <? keep then slice_to (- keep) idx else idx in
  (imap (fun i m => if bool_decide (i ∈ gone) then _evict m else m) ms, Z.of_nat (length gone)).

Definition strip_all_image_refs (ms : list message) : list message := map drop_refs ms.
End Calls.
