(* ===== verification/Relief.v ===== *)
(** * Freeing context inside a turn

    [app/harness/loop.py]: the relief ladder ([_relieve_context]) with its rungs -
    old screenshots, stale tool results, preserved reasoning, argument bodies, and the
    truncation of the largest results - and the latch that runs it once per crossing. *)
From Stdlib Require Import String.
From S2P Require Import Prelude PyText Stamps QueueRows Regex Spill Messages Microcompact Policy Compaction PoolRun Meter ToolCatalog ToolCalls.

Local Open Scope Z_scope.

(** The relief options of a run; the two fractions are what they make of a threshold. *)
Record relief_options := ReliefOptions {
  ro_enabled : bool;
  ro_session_id : text;
  ro_model_context : option Z;             (** the model's configured [context_length] *)
  ro_trigger : Z -> Z;                     (** [int(threshold * trigger_fraction)] *)
  ro_target : Z -> Z;
  ro_min_chars : Z;
  ro_non_compactable : option (list text);
  ro_stubs : bool;
  ro_head_chars : Z;
  ro_name_record : bool;
  ro_sidecar : bool;
  ro_disallowed : list text;
  ro_preserve_thinking : Z;
  ro_reasoning_keep : Z;                   (** [context_relief_reasoning_keep_under_pressure] *)
  ro_shrink : bool;
  ro_shrink_min_chars : Z;
  ro_shrink_tools : list text;
  ro_images : images_cfg
}.

(** ** The latch *)

Record relief_latch := ReliefLatch { la_passes : Z; la_rearm : Z; la_announced : bool }.
Definition latch0 : relief_latch := ReliefLatch 0 0 false.
Definition latch_closed (used : Z) (l : relief_latch) : bool := (0 <? l.(la_passes)) && (used <? l.(la_rearm)).

Definition _relief_target (o : relief_options) (m : meter) : Z := o.(ro_target) (threshold m).
Definition _relief_rearm_level (o : relief_options) (m : meter) : Z := o.(ro_trigger) (threshold m).

(** ** What a pass works on, and what it reports *)

Record relief_state := ReliefState {
  rs_msgs : list message;
  rs_meter : meter;
  rs_fs : fs;
  rs_sidecars : gmap text sidecar
}.

Inductive rung := RImages (n : Z) | RToolResults (n : Z) | RReasoning (keep : Z) | RArguments (n : Z) | RTruncate (n : Z).

Definition rung_text (r : rung) : text :=
  match r with
  | RImages n => u "images:" ++ show n
  | RToolResults n => u "tool_results:" ++ show n
  | RReasoning k => u "reasoning:" ++ show k
  | RArguments n => u "arguments:" ++ show n
  | RTruncate n => u "truncate:" ++ show n
  end.

Record relief_report := ReliefReport {
  rr_rungs : list rung;
  rr_freed : Z;
  rr_before : Z;
  rr_after : Z;
  rr_target : Z;
  rr_latched : bool;       (** the latch was closed: no rung ran *)
  rr_ran : bool            (** the ladder ran to its end *)
}.

Definition no_relief : relief_report := ReliefReport [] 0 0 0 0 false false.

Section Relief.
Context {DK : Disk} {JT : JsonText} {PJ : PyJson}.
Variable sessions_dir : text.
(** [Path.resolve]. *)
Variable resolve : text -> text.
Variable image_tokens : Z.
Variable shot_bytes : message -> Z.
(** Whether the sidecar can be written. *)
Variable sidecar_writable : bool.

Notation estimate := (_estimate image_tokens).

(** ** Rung 1: stale tool results *)

Definition rung_one_options (o : relief_options) (keep_recent budget : Z) : mc_options :=
  McOptions keep_recent 20 DEFAULT_COMPACTABLE_TOOLS (Some budget) (Some estimate)
    o.(ro_min_chars) o.(ro_session_id) false o.(ro_disallowed) o.(ro_non_compactable) o.(ro_stubs)
    o.(ro_head_chars) o.(ro_name_record) [].

Definition _intra_turn_microcompact (o : relief_options) (keep_recent : Z) (s : relief_state) : Z * relief_state :=
  let wall := truncation_threshold (get_context_window o.(ro_model_context)) in
  let trigger := o.(ro_trigger) wall in
  let target := o.(ro_target) wall in
  let m := if measured s.(rs_meter) then observe_append image_tokens s.(rs_msgs) s.(rs_meter) else s.(rs_meter) in
  let current := if measured m then used m else estimate s.(rs_msgs) in
  let offset := if measured m then m.(mt_offset) else 0 in
  if current <=? trigger then (0, ReliefState s.(rs_msgs) m s.(rs_fs) s.(rs_sidecars))
  else
    let r := microcompact sessions_dir resolve (rung_one_options o keep_recent (Z.max 1 (target - offset))) s.(rs_msgs) s.(rs_fs) in
    let msgs := if r.(mc_cleared) =? 0 then s.(rs_msgs) else r.(mc_out) in
    let sidecars := match r.(mc_reduced) with
                    | [] => s.(rs_sidecars)
                    | ids => if o.(ro_sidecar)
                             then snd (record_reduced_calls sessions_dir sidecar_writable o.(ro_session_id) ids s.(rs_sidecars))
                             else s.(rs_sidecars)
                    end in
    (r.(mc_cleared), ReliefState msgs m r.(mc_fs) sidecars).

(** ** Rung 4: the largest results *)

(** The notice that stands for a result saved at [path]. *)
Definition cleared_notice (size : Z) (path route : text) (read_denied : bool) : text :=
  let recovery :=
    if read_denied
    then u "the Read tool is not available on this turn, so that path cannot be opened from here — re-run the call with a narrower query (fewer hops, higher min_confidence, fewer max_results) for the part you need."
    else u "Read that path if you need it again." in
  u "[harness: tool result cleared under context pressure — " ++ show_commas size ++ u " chars, full content at " ++ path ++ u ". "
  ++ recovery ++ match route with [] => [] | _ => u " " ++ route end ++ u "]".

(** The notice where nothing could be saved. *)
Definition truncated_notice (size : Z) : text :=
  u "[harness: tool result truncated by context-overflow recovery — original was " ++ show size
  ++ u " chars. The combined tool history exceeded the model's context window. Re-run the call with a narrower query (smaller hops, higher min_confidence, fewer max_results) or use a more targeted tool.]".

(** One message replaced: its text is saved first where there is a session and an id. *)
Definition truncate_message (session_id route : text) (read_denied : bool) (m : message) (d : fs) : message * Z * fs :=
  let txt := text_of m.(m_content) in
  let '(path, d) :=
    match session_id, m.(m_call_id), txt with
    | _ :: _, (_ :: _) as cid, _ :: _ => persist_for_compaction sessions_dir txt (m.(m_call_id) ++ u ".truncated") session_id d
    | _, _, _ => (None, d)
    end in
  let notice := match path with
                | Some p => cleared_notice (len txt) p route read_denied
                | None => truncated_notice (len txt)
                end in
  let content := match m.(m_content) with CBlocks _ => CBlocks [BText notice] | _ => CStr notice end in
  (drop_refs (set_content content m), len txt - len notice, d).

(** The tool messages over [min_chars], the largest first, the later first among equals. *)
Definition truncation_candidates (min_chars : Z) (ms : list message) : list nat :=
  map snd
    (sort_by (fun a b : Z * nat => if a.1 =? b.1 then (b.2 <=? a.2)%nat else b.1 <? a.1)
       (omap (fun i => match ms !! i with
                       | Some m => let size := len (text_of m.(m_content)) in
                                   if is_tool m && (min_chars <? size) then Some (size, i) else None
                       | None => None
                       end) (seq 0 (length ms)))).

Fixpoint truncate_from (session_id route : text) (read_denied : bool) (target_chars : Z) (idxs : list nat)
    (freed n : Z) (ms : list message) (d : fs) : list message * Z * Z * fs :=
  match idxs with
  | [] => (ms, n, freed, d)
  | i :: idxs =>
      match ms !! i with
      | None => (ms, n, freed, d)
      | Some m =>
          let '(m', f, d) := truncate_message session_id route read_denied m d in
          let ms := <[i := m']> ms in
          if target_chars <=? freed + f then (ms, n + 1, freed + f, d)
          else truncate_from session_id route read_denied target_chars idxs (freed + f) (n + 1) ms d
      end
  end.

Definition _truncate_largest_tool_results (target_chars : Z) (session_id : text) (min_chars : Z) (disallowed : list text)
    (name_session_record : bool) (ms : list message) (d : fs) : list message * Z * Z * fs :=
  let route := if name_session_record && nonempty session_id
               then session_record_route sessions_dir session_id disallowed d else [] in
  truncate_from session_id route (tool_is_denied READ_TOOL disallowed) target_chars
    (truncation_candidates min_chars ms) 0 0 ms d.

(** ** The ladder *)

Definition over_target (target : Z) (s : relief_state) : bool := measured s.(rs_meter) && (target <? used s.(rs_meter)).

(** The list rewritten and the meter re-anchored on it. *)
Definition rewritten (ms : list message) (s : relief_state) : relief_state :=
  ReliefState ms (resync image_tokens ms s.(rs_meter)) s.(rs_fs) s.(rs_sidecars).

Definition rung_images (o : relief_options) (target : Z) (s : relief_state) : list rung * relief_state :=
  if over_target target s && existsb has_refs s.(rs_msgs) then
    let '(ms, dropped) := keep_newest o.(ro_images).(ic_keep) s.(rs_msgs) in
    if dropped =? 0 then ([], s) else ([RImages dropped], rewritten ms s)
  else ([], s).

Definition rung_tool_results (o : relief_options) (keep_recent : Z) (s : relief_state) : list rung * relief_state :=
  let '(cleared, s) := _intra_turn_microcompact o keep_recent s in
  (if cleared =? 0 then [] else [RToolResults cleared], rewritten s.(rs_msgs) s).

(** The two passes over preserved reasoning: the configured window, then the narrow one. *)
Fixpoint rung_reasoning (keeps : list Z) (target : Z) (s : relief_state) : list rung * relief_state :=
  match keeps with
  | [] => ([], s)
  | keep :: keeps =>
      if negb (over_target target s) then ([], s)
      else if keep <=? 0 then rung_reasoning keeps target s
      else let '(rungs, s') := rung_reasoning keeps target (rewritten (_prune_reasoning keep s.(rs_msgs)) s) in
           (RReasoning keep :: rungs, s')
  end.

Definition rung_arguments (o : relief_options) (keep_recent target : Z) (s : relief_state) : list rung * relief_state :=
  if over_target target s && o.(ro_shrink) then
    let '(ms, n, _, d) := shrink_assistant_arguments sessions_dir keep_recent o.(ro_shrink_min_chars) o.(ro_session_id)
                            o.(ro_shrink_tools) s.(rs_msgs) s.(rs_fs) in
    let s := ReliefState s.(rs_msgs) s.(rs_meter) d s.(rs_sidecars) in
    if n =? 0 then ([], s) else ([RArguments n], rewritten ms s)
  else ([], s).

Definition rung_truncate (o : relief_options) (target : Z) (s : relief_state) : list rung * relief_state :=
  if over_target target s then
    let over_tokens := Z.max 0 (used s.(rs_meter) - target) in
    let '(ms, n, _, d) := _truncate_largest_tool_results (Z.max 20000 (over_tokens * 4)) o.(ro_session_id) o.(ro_min_chars)
                            o.(ro_disallowed) o.(ro_name_record) s.(rs_msgs) s.(rs_fs) in
    let s := ReliefState s.(rs_msgs) s.(rs_meter) d s.(rs_sidecars) in
    if n =? 0 then ([], s) else ([RTruncate n], rewritten ms s)
  else ([], s).

(** The rungs in cost order, each on what the one before left. *)
Definition ladder (o : relief_options) (keep_recent target : Z) (s : relief_state) : list rung * relief_state :=
  let '(r0, s) := rung_images o target s in
  let '(r1, s) := rung_tool_results o keep_recent s in
  let '(r2, s) := rung_reasoning [o.(ro_preserve_thinking); o.(ro_reasoning_keep)] target s in
  let '(r3, s) := rung_arguments o keep_recent target s in
  let '(r4, s) := rung_truncate o target s in
  (r0 ++ r1 ++ r2 ++ r3 ++ r4, s).

(** [_relieve_context]; [target0] is 0 where the caller names none, and the wall callers
    pass no latch. *)
Definition _relieve_context (o : relief_options) (target0 keep_recent : Z) (latch : option relief_latch) (s : relief_state)
    : relief_report * option relief_latch * relief_state :=
  if negb o.(ro_enabled) then (no_relief, latch, s)
  else
    let before := used s.(rs_meter) in
    let target := if target0 =? 0 then _relief_target o s.(rs_meter) else target0 in
    let rearm := _relief_rearm_level o s.(rs_meter) in
    match latch with
    | Some l =>
        if measured s.(rs_meter) && latch_closed before l
        then (ReliefReport [] 0 0 0 0 true false, Some (ReliefLatch l.(la_passes) l.(la_rearm) true), s)
        else
          let '(rungs, s) := ladder o keep_recent target s in
          let after := used s.(rs_meter) in
          let report := ReliefReport rungs (Z.max 0 (before - after)) before after target false true in
          if rearm <=? 0 then (report, Some (ReliefLatch l.(la_passes) l.(la_rearm) true), s)
          else (report, Some (ReliefLatch (l.(la_passes) + 1) rearm l.(la_announced)), s)
    | None =>
        let '(rungs, s) := ladder o keep_recent target s in
        let after := used s.(rs_meter) in
        (ReliefReport rungs (Z.max 0 (before - after)) before after target false true, None, s)
    end.
End Relief.
