(* ===== verification/Turn.v ===== *)
(** * One turn of the harness: its state, and what it asks of the outside

    [app/harness/turn_state.py], [options.py], [events.py], [hooks.py] and the calls
    [loop.py] makes: a turn's state, the questions it puts to the engine, the hooks, the
    tools and the caller, and the gates and the dispatch of one tool call. *)
From Stdlib Require Import String.
From S2P Require Import Prelude PyText Stamps QueueRows Regex Spill Messages Microcompact Policy PoolRun Meter ToolCatalog ToolCalls Relief.

Local Open Scope Z_scope.

(** ** Options *)

(** A PreToolUse callback of the registry: the tool it watches, and whether a raise
    denies. *)
Record pre_hook := PreHook { ph_name : text; ph_matcher : option text; ph_fail_closed : bool }.

(** [RunOptions], the fields the loop reads. An optional object or callable is whether
    it was supplied. *)
Record run_options := RunOptions {
  o_max_turns : Z;
  o_max_turns_wrapup : bool;
  o_wrapup_base_urls : list text;
  o_base_url : text;
  o_system_prompt : text;
  o_session_id : text;
  o_keep_recent : Z;                       (** [intra_turn_microcompact_keep_recent] *)
  o_microcompact : bool;
  o_microcompact_threshold : Z;
  o_disallowed : list text;
  o_allowed : option (list text);
  o_surface_hidden : list text;            (** what the surface's table hides *)
  o_discovered : discovery;                (** [pool.discovered] *)
  o_cancellable : bool;                    (** [cancel_event] *)
  o_hooks : option (list pre_hook);
  o_drain : bool;
  o_anchor : bool;
  o_refresh : bool;
  o_tool_call_summaries : bool;
  o_stream_retry_max : Z;
  o_max_recoveries : Z;                    (** [max_context_overflow_recoveries] *)
  o_terminal_floor : Z;
  o_min_completion : Z;
  o_relief : relief_options;
  o_parallel : bool;
  o_max_concurrency : Z;
  o_safe_profiles : gset text;
  o_echo_guard : bool;
  o_echo_reissue : bool;                   (** [echo_guard_mode == tool_choice] *)
  o_tool_search : bool;
  o_tool_search_threshold : Z;
  o_tool_search_baseline : list text;
  o_tool_search_default : Z;
  o_tool_search_cap : Z;
  o_final_schema : option json;
  o_final_prompt : text
}.

(** ** Events *)

Inductive event :=
| EvSystem
| EvText (t : text)
| EvThinking (t : text)
| EvThinkingDone (t : text)
| EvToolCall (id name args_json : text) (args : list (string * json)) (summary : text)
| EvToolResult (r : tool_result)
| EvAssistant (txt thinking : text) (calls : list call) (us : usage) (iteration : Z) (finish : text)
              (position : option (Z * Z * Z))     (** used, window and headroom *)
| EvRetry (reason : text) (attempt discarded_text discarded_thinking : Z)
| EvRaw (raw error : text)
| EvResult (stop_reason : text) (us : totals) (num_turns : Z) (response : text) (c : caption_count)
           (structured : option json) (structured_error : text) (wrapped_up : bool).

(** ** The engine *)

(** The choice of a chunk: absent text is [None] where the code tells it from empty. *)
Record delta := Delta {
  dl_content : text;
  dl_reasoning_content : option text;
  dl_reasoning : option text;
  dl_tool_calls : list tc_delta;
  dl_finish : text
}.

Record chunk := Chunk { ch_usage : list (string * json); ch_choice : option delta }.

(** How a stream breaks: a malformed line, a stall, the transport, an HTTP status, or an
    exception the loop has no handler for. *)
Inductive broken := BParse (raw error : text) | BStalled | BTransport | BStatus (code : Z) | BOther.

(** What [stream_chat] gives: the request refused for its length or its images, before
    any chunk, or chunks and how they ended. *)
Inductive reply :=
| RefusedOverflow (requested : option Z)
| RefusedImages (why : text)
| Streamed (chunks : list chunk) (ending : option broken).

Record request := Request {
  rq_messages : list message;
  rq_tools : list tool;
  rq_tool_choice : text;
  rq_iteration : Z
}.

(** ** The tools *)

(** A call as it goes to [pool.call_tool]. *)
Record dispatch := Dispatch {
  dp_id : text;
  dp_name : text;
  dp_args : list (string * json);
  dp_summary : text;
  dp_disallowed : list text            (** only a Task carries it *)
}.

Record tool_answer := ToolAnswer { ta_content : text; ta_is_error : bool; ta_shots : bool }.
Inductive tool_end := Answered (a : tool_answer) | DispatchError (why : text) | Crashed (why : text).

(** A callback's answer: its decision, its reason and what it would deliver. *)
Record hook_out := HookOut { ho_deny : bool; ho_reason : text; ho_deliver : option text }.
Inductive hook_end := Passed | Said (out : hook_out) | Threw (why : text).

(** ** What is asked of the outside *)

Inductive ask : Type -> Type :=
| AskStream (r : request) : ask reply
| AskBackoff : ask unit
| AskDrain : ask (option (list message))           (** [None]: it raised *)
| AskAnchor (iteration : Z) : ask (option (list message))
| AskRefresh : ask (option (list text))
| AskIds : ask (Z -> text)                         (** fresh ids, by index *)
| AskYield (e : event) : ask unit
| AskOnEvent (e : event) : ask unit
| AskPreHook (i : nat) (name : text) (args : list (string * json)) (id summary : text) : ask hook_end
| AskPostHook (name response : text) (failed : bool) (id : text) : ask unit
| AskTool (d : dispatch) : ask (tool_end * bool)   (** and whether a Stop came first *)
| AskShape (id name content : text) : ask (text * list shot)
| AskNext (running : list nat) : ask nat           (** which of them lands next *)
| AskFinalizer (msgs : list message) (tools : list tool) (schema : json) (prompt : text)
    : ask (option json * text * usage).

(** The outside: its own state, the disk, the sidecars and the tool-search cache. *)
Record outside (E : Type) := Outside {
  w_env : E;
  w_fs : fs;
  w_sidecars : gmap text sidecar;
  w_cache : gmap text loaded_set;
  w_active_runs : Z
}.
Arguments Outside {E} _ _ _ _ _.
Arguments w_env {E} _.
Arguments w_fs {E} _.
Arguments w_sidecars {E} _.
Arguments w_cache {E} _.
Arguments w_active_runs {E} _.

(** An environment answers a question, may append rows to the run's list while the
    question is open (an observer's inject), and moves the world on. *)
Record environment (E : Type) := Environment {
  answer : forall {A}, ask A -> outside E -> A * list message * outside E;
  cancelled : outside E -> bool
}.
Arguments Environment {E} _ _.
Arguments answer {E} _ {A} _ _.
Arguments cancelled {E} _ _.

(** What a trace keeps of a question and its answer. *)
Inductive entry :=
| Sent (r : request)
| Yielded (e : event)
| Dispatched (d : dispatch)
| Consulted (i : nat) (id : text) (said : hook_end).

Definition entries {A} (q : ask A) : A -> list entry :=
  match q with
  | AskStream r => fun _ => [Sent r]
  | AskYield e => fun _ => [Yielded e]
  | AskTool d => fun _ => [Dispatched d]
  | AskPreHook i _ _ id _ => fun said => [Consulted i id said]
  | _ => fun _ => []
  end.

(** ** The state *)

Inductive wrapup := WNone | WRequested | WDone.

(** [TurnState], what changes over a turn. *)
Record turn := Turn {
  t_meter : meter;
  t_latch : relief_latch;
  t_loaded : loaded_set;
  t_surface_hidden : gset text;
  t_summary_tools : gset text;
  t_accumulated : text;
  t_total : totals;
  t_captions : caption_count;
  t_num_turns : Z;
  t_stop_reason : text;
  t_recoveries : Z;
  t_images_latched : bool;
  t_reprompts : Z;
  t_stream_retries : Z;
  t_broken : bool;
  t_forced : option text;
  t_wrapup : wrapup;
  t_visible : list tool;
  t_prelude_for : Z
}.

(** [Iteration]. *)
Record iteration := Iteration {
  it_disallowed : gset text;
  it_usage : usage;
  it_text : text;
  it_thinking : text;
  it_acc : gmap Z raw_call;
  it_finish : text;
  it_calls : list call;
  it_base : nat;
  it_injected : bool
}.

(** Assignments to one field. *)
Definition set_meter (v : meter) (t : turn) : turn :=
  Turn v t.(t_latch) t.(t_loaded) t.(t_surface_hidden) t.(t_summary_tools) t.(t_accumulated) t.(t_total)
    t.(t_captions) t.(t_num_turns) t.(t_stop_reason) t.(t_recoveries) t.(t_images_latched) t.(t_reprompts)
    t.(t_stream_retries) t.(t_broken) t.(t_forced) t.(t_wrapup) t.(t_visible) t.(t_prelude_for).
Definition set_latch (v : relief_latch) (t : turn) : turn :=
  Turn t.(t_meter) v t.(t_loaded) t.(t_surface_hidden) t.(t_summary_tools) t.(t_accumulated) t.(t_total)
    t.(t_captions) t.(t_num_turns) t.(t_stop_reason) t.(t_recoveries) t.(t_images_latched) t.(t_reprompts)
    t.(t_stream_retries) t.(t_broken) t.(t_forced) t.(t_wrapup) t.(t_visible) t.(t_prelude_for).
Definition set_loaded (v : loaded_set) (t : turn) : turn :=
  Turn t.(t_meter) t.(t_latch) v t.(t_surface_hidden) t.(t_summary_tools) t.(t_accumulated) t.(t_total)
    t.(t_captions) t.(t_num_turns) t.(t_stop_reason) t.(t_recoveries) t.(t_images_latched) t.(t_reprompts)
    t.(t_stream_retries) t.(t_broken) t.(t_forced) t.(t_wrapup) t.(t_visible) t.(t_prelude_for).
Definition set_accumulated (v : text) (t : turn) : turn :=
  Turn t.(t_meter) t.(t_latch) t.(t_loaded) t.(t_surface_hidden) t.(t_summary_tools) v t.(t_total)
    t.(t_captions) t.(t_num_turns) t.(t_stop_reason) t.(t_recoveries) t.(t_images_latched) t.(t_reprompts)
    t.(t_stream_retries) t.(t_broken) t.(t_forced) t.(t_wrapup) t.(t_visible) t.(t_prelude_for).
Definition set_total (v : totals) (t : turn) : turn :=
  Turn t.(t_meter) t.(t_latch) t.(t_loaded) t.(t_surface_hidden) t.(t_summary_tools) t.(t_accumulated) v
    t.(t_captions) t.(t_num_turns) t.(t_stop_reason) t.(t_recoveries) t.(t_images_latched) t.(t_reprompts)
    t.(t_stream_retries) t.(t_broken) t.(t_forced) t.(t_wrapup) t.(t_visible) t.(t_prelude_for).
Definition set_captions (v : caption_count) (t : turn) : turn :=
  Turn t.(t_meter) t.(t_latch) t.(t_loaded) t.(t_surface_hidden) t.(t_summary_tools) t.(t_accumulated)
    t.(t_total) v t.(t_num_turns) t.(t_stop_reason) t.(t_recoveries) t.(t_images_latched) t.(t_reprompts)
    t.(t_stream_retries) t.(t_broken) t.(t_forced) t.(t_wrapup) t.(t_visible) t.(t_prelude_for).
Definition set_num_turns (v : Z) (t : turn) : turn :=
  Turn t.(t_meter) t.(t_latch) t.(t_loaded) t.(t_surface_hidden) t.(t_summary_tools) t.(t_accumulated)
    t.(t_total) t.(t_captions) v t.(t_stop_reason) t.(t_recoveries) t.(t_images_latched) t.(t_reprompts)
    t.(t_stream_retries) t.(t_broken) t.(t_forced) t.(t_wrapup) t.(t_visible) t.(t_prelude_for).
Definition set_stop_reason (v : text) (t : turn) : turn :=
  Turn t.(t_meter) t.(t_latch) t.(t_loaded) t.(t_surface_hidden) t.(t_summary_tools) t.(t_accumulated)
    t.(t_total) t.(t_captions) t.(t_num_turns) v t.(t_recoveries) t.(t_images_latched) t.(t_reprompts)
    t.(t_stream_retries) t.(t_broken) t.(t_forced) t.(t_wrapup) t.(t_visible) t.(t_prelude_for).
Definition set_recoveries (v : Z) (t : turn) : turn :=
  Turn t.(t_meter) t.(t_latch) t.(t_loaded) t.(t_surface_hidden) t.(t_summary_tools) t.(t_accumulated)
    t.(t_total) t.(t_captions) t.(t_num_turns) t.(t_stop_reason) v t.(t_images_latched) t.(t_reprompts)
    t.(t_stream_retries) t.(t_broken) t.(t_forced) t.(t_wrapup) t.(t_visible) t.(t_prelude_for).
Definition set_images_latched (v : bool) (t : turn) : turn :=
  Turn t.(t_meter) t.(t_latch) t.(t_loaded) t.(t_surface_hidden) t.(t_summary_tools) t.(t_accumulated)
    t.(t_total) t.(t_captions) t.(t_num_turns) t.(t_stop_reason) t.(t_recoveries) v t.(t_reprompts)
    t.(t_stream_retries) t.(t_broken) t.(t_forced) t.(t_wrapup) t.(t_visible) t.(t_prelude_for).
Definition set_reprompts (v : Z) (t : turn) : turn :=
  Turn t.(t_meter) t.(t_latch) t.(t_loaded) t.(t_surface_hidden) t.(t_summary_tools) t.(t_accumulated)
    t.(t_total) t.(t_captions) t.(t_num_turns) t.(t_stop_reason) t.(t_recoveries) t.(t_images_latched) v
    t.(t_stream_retries) t.(t_broken) t.(t_forced) t.(t_wrapup) t.(t_visible) t.(t_prelude_for).
Definition set_stream_retries (v : Z) (t : turn) : turn :=
  Turn t.(t_meter) t.(t_latch) t.(t_loaded) t.(t_surface_hidden) t.(t_summary_tools) t.(t_accumulated)
    t.(t_total) t.(t_captions) t.(t_num_turns) t.(t_stop_reason) t.(t_recoveries) t.(t_images_latched)
    t.(t_reprompts) v t.(t_broken) t.(t_forced) t.(t_wrapup) t.(t_visible) t.(t_prelude_for).
Definition set_broken (v : bool) (t : turn) : turn :=
  Turn t.(t_meter) t.(t_latch) t.(t_loaded) t.(t_surface_hidden) t.(t_summary_tools) t.(t_accumulated)
    t.(t_total) t.(t_captions) t.(t_num_turns) t.(t_stop_reason) t.(t_recoveries) t.(t_images_latched)
    t.(t_reprompts) t.(t_stream_retries) v t.(t_forced) t.(t_wrapup) t.(t_visible) t.(t_prelude_for).
Definition set_forced (v : option text) (t : turn) : turn :=
  Turn t.(t_meter) t.(t_latch) t.(t_loaded) t.(t_surface_hidden) t.(t_summary_tools) t.(t_accumulated)
    t.(t_total) t.(t_captions) t.(t_num_turns) t.(t_stop_reason) t.(t_recoveries) t.(t_images_latched)
    t.(t_reprompts) t.(t_stream_retries) t.(t_broken) v t.(t_wrapup) t.(t_visible) t.(t_prelude_for).
Definition set_wrapup (v : wrapup) (t : turn) : turn :=
  Turn t.(t_meter) t.(t_latch) t.(t_loaded) t.(t_surface_hidden) t.(t_summary_tools) t.(t_accumulated)
    t.(t_total) t.(t_captions) t.(t_num_turns) t.(t_stop_reason) t.(t_recoveries) t.(t_images_latched)
    t.(t_reprompts) t.(t_stream_retries) t.(t_broken) t.(t_forced) v t.(t_visible) t.(t_prelude_for).
Definition set_visible (v : list tool) (t : turn) : turn :=
  Turn t.(t_meter) t.(t_latch) t.(t_loaded) t.(t_surface_hidden) t.(t_summary_tools) t.(t_accumulated)
    t.(t_total) t.(t_captions) t.(t_num_turns) t.(t_stop_reason) t.(t_recoveries) t.(t_images_latched)
    t.(t_reprompts) t.(t_stream_retries) t.(t_broken) t.(t_forced) t.(t_wrapup) v t.(t_prelude_for).
Definition set_prelude_for (v : Z) (t : turn) : turn :=
  Turn t.(t_meter) t.(t_latch) t.(t_loaded) t.(t_surface_hidden) t.(t_summary_tools) t.(t_accumulated)
    t.(t_total) t.(t_captions) t.(t_num_turns) t.(t_stop_reason) t.(t_recoveries) t.(t_images_latched)
    t.(t_reprompts) t.(t_stream_retries) t.(t_broken) t.(t_forced) t.(t_wrapup) t.(t_visible) v.
