(* ===== verification/Dispatch.v ===== *)
(** * Dispatching tool calls

    [app/harness/loop.py] ([_pre_dispatch], [_execute_tool_call], [_dispatch_batch]) and
    the hook walk of [app/harness/hooks.py]: the gates a call passes, the call itself,
    and a batch admitted in wire order with a bounded number of calls in flight. *)
From Stdlib Require Import String.
From S2P Require Import Prelude PyText Stamps QueueRows Regex Spill Messages Microcompact Policy PoolRun Meter ToolCatalog ToolCalls Relief Turn.

Local Open Scope Z_scope.

(** The run: the turn's state, its message list, the outside, and the trace. *)
Record run_state (E : Type) := RunState {
  x_turn : turn;
  x_msgs : list message;
  x_out : outside E;
  x_log : list entry
}.
Arguments RunState {E} _ _ _ _.
Arguments x_turn {E} _.
Arguments x_msgs {E} _.
Arguments x_out {E} _.
Arguments x_log {E} _.

Section Dispatching.
Context {E : Type} (env : environment E).
Context {DK : Disk} {JT : JsonText} {PJ : PyJson}.
Variable sessions_dir : text.
Variable image_tokens : Z.
Variable shot_bytes : message -> Z.
(** [str.lower], and the compact spelling of [json.dumps]. *)
Variables (lower_text : text -> text) (dump_compact : json -> text).

Abbreviation M := (st (run_state E)).

(** ** Reading and writing the run *)

Definition get_turn : M turn := fun s => (Ok s.(x_turn), s).
Definition get_msgs : M (list message) := fun s => (Ok s.(x_msgs), s).
Definition modify (f : turn -> turn) : M unit :=
  fun s => (Ok tt, RunState (f s.(x_turn)) s.(x_msgs) s.(x_out) s.(x_log)).
Definition put_msgs (ms : list message) : M unit := fun s => (Ok tt, RunState s.(x_turn) ms s.(x_out) s.(x_log)).
Definition extend (rows : list message) : M unit :=
  fun s => (Ok tt, RunState s.(x_turn) (s.(x_msgs) ++ rows) s.(x_out) s.(x_log)).

(** A question to the outside, with the rows that arrive while it is open. *)
Definition query {A} (q : ask A) : M A :=
  fun s => let '(a, rows, w) := answer env q s.(x_out) in
           (Ok a, RunState s.(x_turn) (s.(x_msgs) ++ rows) w (s.(x_log) ++ entries q a)).

(** [cancel_event.is_set()], where there is one. *)
Definition is_cancelled (o : run_options) : M bool :=
  fun s => (Ok (o.(o_cancellable) && cancelled env s.(x_out)), s).

Definition get_fs : M fs := fun s => (Ok s.(x_out).(w_fs), s).
Definition put_fs (d : fs) : M unit :=
  fun s => let w := s.(x_out) in
           (Ok tt, RunState s.(x_turn) s.(x_msgs) (Outside w.(w_env) d w.(w_sidecars) w.(w_cache) w.(w_active_runs)) s.(x_log)).

Definition yield_ (e : event) : M unit := query (AskYield e).
Definition fire_on_event (o : run_options) (e : event) : M unit :=
  match o.(o_hooks) with None => sret tt | Some _ => query (AskOnEvent e) end.

(** [meter.observe_append(chat_messages)]. *)
Definition remeter : M unit :=
  ms <-s get_msgs ;; modify (fun t => set_meter (observe_append image_tokens ms t.(t_meter)) t).

(** The loaded set of a turn is the session's cached one, unless the turn has an
    allow-list or no session. *)
Definition put_loaded (o : run_options) (ls : loaded_set) : M unit :=
  fun s => let w := s.(x_out) in
           let cache := match o.(o_allowed), o.(o_session_id) with
                        | None, _ :: _ => <[o.(o_session_id) := ls]> w.(w_cache)
                        | _, _ => w.(w_cache)
                        end in
           (Ok tt, RunState (set_loaded ls s.(x_turn)) s.(x_msgs)
                     (Outside w.(w_env) w.(w_fs) w.(w_sidecars) cache w.(w_active_runs)) s.(x_log)).

(** ** The hook walk ([fire_pre_tool_use]) *)

Definition gate_raised (h : pre_hook) (why : text) : hook_out :=
  HookOut true (u "gate " ++ h.(ph_name) ++ u " raised " ++ why
                ++ u " — denied because a gate that cannot evaluate must not open") None.

(** The walk from the [i]-th callback; [deliver] is the first delivery held so far. *)
Fixpoint walk_hooks (name : text) (args : list (string * json)) (id summary : text) (i : nat) (hs : list pre_hook)
    (deliver : option hook_out) : M (option hook_out) :=
  match hs with
  | [] => sret deliver
  | h :: hs =>
      let next d := walk_hooks name args id summary (S i) hs d in
      if match h.(ph_matcher) with Some m => negb (bool_decide (m = name)) | None => false end then next deliver
      else
        out <-s query (AskPreHook i name args id summary) ;;
        match out with
        | Passed => next deliver
        | Threw why => if h.(ph_fail_closed) then sret (Some (gate_raised h why)) else next deliver
        | Said out =>
            if out.(ho_deny) then sret (Some out)
            else next (match deliver, out.(ho_deliver) with None, Some _ => Some out | d, _ => d end)
        end
  end.

(** ** The text of a call whose arguments did not parse *)

Definition field_int (k : string) (args : list (string * json)) : Z :=
  match obj_get k args with Some (JInt z) => z | Some (JBool b) => Z.b2z b | _ => 0 end.
Definition field_text (k : string) (dflt : text) (args : list (string * json)) : text :=
  match obj_get k args with Some v => (match v with JStr s => utf8 s | _ => py_shown v end) | None => dflt end.

Definition _parse_failure_text (args : list (string * json)) (m : meter) : text :=
  let base := u "Tool call arguments could not be parsed as JSON: " ++ field_text "error" (u "unknown") args in
  let raw_len := field_int "raw_len" args in
  let room := if measured m then Some (headroom m) else None in
  let cut_by_wall :=
    bool_decide (field_text "finish_reason" [] args = u "length")
    || match room with Some h => (h * 10 <? m.(mt_window)) && (2000 <? raw_len) | None => false end in
  let call_k := Z.max 1 (raw_len / 4000) in
  if cut_by_wall then
    base ++ nl ++ nl ++ u "The completion was cut off by the context window: "
    ++ match room with Some h => u "~" ++ show (h / 1000) ++ u "k" | None => u "very little" end
    ++ u " of " ++ show (m.(mt_window) / 1000) ++ u "k remain, and this call was ~" ++ show call_k
    ++ u "k tokens. The tool did NOT run." ++ nl ++ nl
    ++ u "Do not re-send this call. The retry is generated with less room than this attempt had, so each one comes back shorter. Instead: commit what is already on disk, gate, and land or abort. If content still has to be written, write it in pieces well under "
    ++ show (Z.max 1 (call_k / 2)) ++ u "k tokens each — prefer small Edits over whole-file Writes, and do not Read whole files."
  else match room with
       | Some h =>
           if h * 100 <? m.(mt_window) * 15
           then base ++ nl ++ nl ++ u "Re-send the call with valid JSON. Note the context window is nearly full (~" ++ show (h / 1000)
                ++ u "k tokens of headroom remain), so keep the arguments small."
           else base
       | None => base
       end.

(** ** The gates of one call ([_pre_dispatch]) *)

Definition _allowed_names (o : run_options) : option (list text) := map normalize_tool_name <$> o.(o_allowed).

Definition quote_name (name : text) : text := [39%N] ++ name ++ [39%N].

(** [max_results] as ToolSearch takes it from the arguments. *)
Definition search_limit (o : run_options) (args : list (string * json)) : Z :=
  let n := match obj_get "max_results" args with
           | Some (JInt z) => if z <? 1 then o.(o_tool_search_default) else z
           | Some (JBool true) => 1
           | _ => o.(o_tool_search_default)
           end in
  Z.min n o.(o_tool_search_cap).

(** The gates no hook takes part in: a refusal, a ToolSearch, or the call may go on. *)
Inductive gate_answer := Refused (r : tool_result) | Search (query : text) | Onward.

Definition gates_before_hooks (o : run_options) (disallowed : gset text) (ls : loaded_set) (m : meter) (tc : call) : gate_answer :=
  let name := normalize_tool_name tc.(c_name) in
  let refuse msg cls := Refused (result_event tc.(c_id) tc.(c_name) msg true None [] (Some cls)) in
  if is_parse_error tc.(c_args) then refuse (_parse_failure_text tc.(c_args) m) EParseError
  else if bool_decide (name ∈ map normalize_tool_name (elements disallowed))
  then refuse (u "Tool " ++ quote_name name ++ u " is disabled by configuration.") EDisabled
  else
    match _allowed_names o with
    | Some allowed =>
        if bool_decide (name ∈ allowed)
        then if bool_decide (name = TOOLSEARCH_TOOL_NAME) && ls.(ls_enabled) then Search (arg_text "query" [] tc.(c_args)) else Onward
        else refuse (u "Tool " ++ quote_name name ++ u " is not available on this turn. Available: "
                     ++ join (u ", ") (sort_by tle (remove_dups allowed)) ++ u ".") EDisabled
    | None =>
        if bool_decide (name = TOOLSEARCH_TOOL_NAME) && ls.(ls_enabled) then Search (arg_text "query" [] tc.(c_args)) else Onward
    end.

(** A deferred tool called directly is loaded on the way. *)
Definition deferred (name : text) (ls : loaded_set) : bool :=
  ls.(ls_enabled) && negb (is_visible ls name) && bool_decide (name ∈ catalog_names ls.(ls_catalog)).

Definition _pre_dispatch (o : run_options) (disallowed : gset text) (tc : call) : M (option tool_result) :=
  let name := normalize_tool_name tc.(c_name) in
  t <-s get_turn ;;
  match gates_before_hooks o disallowed t.(t_loaded) t.(t_meter) tc with
  | Refused r => sret (Some r)
  | Search q =>
      found <-s slift (search_tools dump_compact lower_text q (search_limit o tc.(c_args)) t.(t_loaded).(ls_catalog)) ;;
      _ <-s put_loaded o (mark_loaded found.1 t.(t_loaded)) ;;
      sret (Some (result_event tc.(c_id) tc.(c_name) found.2 false None [] None))
  | Onward =>
      _ <-s (if deferred name t.(t_loaded) then put_loaded o (mark_loaded [name] t.(t_loaded)) else sret tt) ;;
      match o.(o_hooks) with
      | None => sret None
      | Some hs =>
          out <-s walk_hooks name tc.(c_args) tc.(c_id) tc.(c_summary) 0 hs None ;;
          match out with
          | None => sret None
          | Some out =>
              match out.(ho_deliver) with
              | Some content => sret (Some (result_event tc.(c_id) tc.(c_name) content false None [] None))
              | None =>
                  sret (Some (result_event tc.(c_id) tc.(c_name)
                                (u "Tool call denied: " ++ or_text out.(ho_reason) (u "denied by hook")) true None [] (Some EDenied)))
              end
          end
      end
  end.

(** ** The call itself ([_execute_tool_call]) *)

Definition TASK_TOOL : text := u "Task".
Definition MCP_ERROR_PREFIX : text := u "MCP error calling ".

Definition post_hook (o : run_options) (name response : text) (failed : bool) (id : text) : M unit :=
  match o.(o_hooks) with None => sret tt | Some _ => query (AskPostHook name response failed id) end.

Definition dispatch_of (disallowed : gset text) (tc : call) : dispatch :=
  Dispatch tc.(c_id) tc.(c_name) tc.(c_args) tc.(c_summary)
    (if bool_decide (normalize_tool_name tc.(c_name) = TASK_TOOL) then sort_by tle (elements disallowed) else []).

Definition _execute_tool_call (o : run_options) (disallowed : gset text) (tc : call) : M tool_result :=
  let name := tc.(c_name) in
  let hook_name := normalize_tool_name name in
  let failed msg cls := result_event tc.(c_id) name msg true None [] (Some cls) in
  answered <-s query (AskTool (dispatch_of disallowed tc)) ;;
  let '(ending, stopped) := answered in
  if o.(o_cancellable) && stopped
  then sret (failed (u "Tool " ++ quote_name name ++ u " cancelled by user.") ECancelled)
  else
    match ending with
    | DispatchError why =>
        _ <-s post_hook o hook_name why true tc.(c_id) ;;
        sret (failed why ETransport)
    | Crashed why =>
        _ <-s post_hook o hook_name why true tc.(c_id) ;;
        sret (failed (u "Tool dispatch failed: " ++ why) EDispatchFailed)
    | Answered a =>
        let raw_chars := len a.(ta_content) in
        let content := if a.(ta_is_error) then a.(ta_content) else fallback_for_empty_result (Some a.(ta_content)) name in
        d <-s get_fs ;;
        let '(content, d) := maybe_spill sessions_dir content name tc.(c_id) o.(o_session_id) SPILL_THRESHOLD_CHARS o.(o_disallowed) d in
        _ <-s put_fs d ;;
        shaped <-s (if a.(ta_shots) then query (AskShape tc.(c_id) name content) else sret (content, [])) ;;
        let '(content, shots) := shaped in
        _ <-s post_hook o hook_name content false tc.(c_id) ;;
        sret (result_event tc.(c_id) name content a.(ta_is_error) (Some raw_chars) shots
                (if a.(ta_is_error)
                 then Some (if startswith MCP_ERROR_PREFIX a.(ta_content) then EMcpError else EToolError)
                 else None))
    end.

(** ** A batch ([_dispatch_batch]) *)

(** The calls of a batch with their places in it. *)
Definition numbered (calls : list call) : list (nat * call) := zip (seq 0 (length calls)) calls.

(** What a batch has in hand: the calls not yet admitted, the results not yet handed
    out, the calls in flight, the results by place and how many are in the history. *)
Record batch := Batch {
  b_calls : list (nat * call);
  b_ready : list (nat * tool_result);
  b_running : list (nat * call);
  b_results : gmap nat tool_result;
  b_written : nat
}.

Definition announce (o : run_options) (tc : call) : M unit :=
  let e := EvToolCall tc.(c_id) tc.(c_name) tc.(c_arguments) tc.(c_args) tc.(c_summary) in
  _ <-s yield_ e ;; fire_on_event o e.

(** Announce and pre-dispatch as many calls as there are free slots. *)
Fixpoint admit_calls (o : run_options) (disallowed : gset text) (slots : nat) (calls : list (nat * call))
    (ready : list (nat * tool_result)) (admitted : list (nat * call))
    : M (list (nat * call) * list (nat * tool_result) * list (nat * call)) :=
  match slots, calls with
  | S slots, (i, tc) :: rest =>
      _ <-s announce o tc ;;
      pre <-s _pre_dispatch o disallowed tc ;;
      match pre with
      | Some r => admit_calls o disallowed slots rest (ready ++ [(i, r)]) admitted
      | None => admit_calls o disallowed slots rest ready (admitted ++ [(i, tc)])
      end
  | _, _ => sret (calls, ready, admitted)
  end.

(** At one slot the call is awaited here. *)
Fixpoint execute_all (o : run_options) (disallowed : gset text) (admitted : list (nat * call))
    : M (list (nat * tool_result)) :=
  match admitted with
  | [] => sret []
  | (i, tc) :: rest =>
      r <-s _execute_tool_call o disallowed tc ;;
      rs <-s execute_all o disallowed rest ;;
      sret ((i, r) :: rs)
  end.

(** The call in flight that lands next, and the others. *)
Definition pick_landed (n : nat) (running : list (nat * call)) : option ((nat * call) * list (nat * call)) :=
  let n := (n mod Nat.max 1 (length running))%nat in
  match running !! n with Some c => Some (c, take n running ++ drop (S n) running) | None => None end.

(** The history: the results at hand from the [written]-th call on, without a gap. *)
Fixpoint write_results (fuel : nat) (calls : list call) (allow_images : bool) (b : batch) : M batch :=
  match fuel with
  | O => sret b
  | S fuel =>
      match calls !! b.(b_written), b.(b_results) !! b.(b_written) with
      | Some tc, Some r =>
          _ <-s extend [_tool_history_message tc.(c_id) r allow_images] ;;
          write_results fuel calls allow_images
            (Batch b.(b_calls) b.(b_ready) b.(b_running) b.(b_results) (S b.(b_written)))
      | _, _ => sret b
      end
  end.

(** One round of the loop: admit, then hand out one result. *)
Definition batch_round (o : run_options) (disallowed : gset text) (calls : list call) (nudge : option nat)
    (concurrency : nat) (b : batch) : M batch :=
  adm <-s admit_calls o disallowed (concurrency - (length b.(b_running) + length b.(b_ready)))%nat b.(b_calls) b.(b_ready) [] ;;
  let '(rest, ready, admitted) := adm in
  started <-s (if (concurrency =? 1)%nat
               then rs <-s execute_all o disallowed admitted ;; sret (ready ++ rs, b.(b_running))
               else sret (ready, b.(b_running) ++ admitted)) ;;
  let '(ready, running) := started in
  taken <-s (match ready with
             | (i, r) :: ready => sret (Some (i, r, ready, running))
             | [] =>
                 n <-s query (AskNext (map fst running)) ;;
                 match pick_landed n running with
                 | Some ((i, tc), running) =>
                     r <-s _execute_tool_call o disallowed tc ;;
                     sret (Some (i, r, [], running))
                 | None => sret None
                 end
             end) ;;
  match taken with
  | None => sret (Batch rest ready running b.(b_results) b.(b_written))
  | Some (i, r, ready, running) =>
      let r := if bool_decide (nudge = Some i) then _with_caption_nudge r else r in
      _ <-s yield_ (EvToolResult r) ;;
      _ <-s fire_on_event o (EvToolResult r) ;;
      t <-s get_turn ;;
      write_results (length calls) calls (negb t.(t_images_latched))
        (Batch rest ready running (<[i := r]> b.(b_results)) b.(b_written))
  end.

Definition batch_done (b : batch) : bool :=
  match b.(b_calls), b.(b_ready), b.(b_running) with [], [], [] => true | _, _, _ => false end.

Fixpoint batch_loop (fuel : nat) (o : run_options) (disallowed : gset text) (calls : list call) (nudge : option nat)
    (concurrency : nat) (b : batch) : M batch :=
  match fuel with
  | O => sret b
  | S fuel =>
      if batch_done b then sret b
      else b <-s batch_round o disallowed calls nudge concurrency b ;;
           batch_loop fuel o disallowed calls nudge concurrency b
  end.

(** Whether a batch overlaps, and how widely. *)
Definition batch_concurrency (o : run_options) (calls : list call) : nat :=
  let parallel :=
    (1 <? length calls)%nat
    && _batch_is_read_only calls (_read_only_names o.(o_discovered)) o.(o_safe_profiles)
    && (o.(o_parallel) || _is_task_fanout calls o.(o_safe_profiles)) in
  if parallel then Z.to_nat (Z.max 1 o.(o_max_concurrency)) else 1%nat.

Definition _dispatch_batch (o : run_options) (it : iteration) : M unit :=
  let calls := it.(it_calls) in
  t <-s get_turn ;;
  let '(captions, nudge_id) := _account_captions calls t.(t_summary_tools) t.(t_captions) [] in
  _ <-s modify (set_captions captions) ;;
  _ <-s batch_loop (length calls) o it.(it_disallowed) calls (nudge_at calls t.(t_summary_tools) nudge_id)
          (batch_concurrency o calls) (Batch (numbered calls) [] [] ∅ 0) ;;
  ms <-s get_msgs ;;
  put_msgs (_cap_images shot_bytes o.(o_relief).(ro_images) it.(it_base) (_reorder_batch_messages it.(it_base) ms)).
End Dispatching.
