(* ===== verification/TurnLoop.v ===== *)
(** * The turn loop

    [app/harness/loop.py]: [run_query] and its phases - [_open_turn], [_prelude],
    [_stream_iteration], [_end_without_tools], the batch of [Dispatch], [_after_batch],
    [_close_turn] with its finalizer ([finalizer.py]) - over one turn's state. *)
From Stdlib Require Import String.
From S2P Require Import Prelude PyText Stamps QueueRows Regex Spill Messages Microcompact Policy PoolRun Meter ToolCatalog ToolCalls Relief Turn Dispatch.

Local Open Scope Z_scope.

(** ** Texts and tests of the loop *)

Definition _ECHO_GUARD_NUDGE : text :=
  u "You wrote a shell command inside a code block but did not actually call a tool, so nothing ran. If you intended to execute it, call the Bash tool now with that exact command. If you were only showing the command to the user for reference, reply normally and do not include a fenced shell block.".
Definition _MAX_ECHO_GUARD_REPROMPTS : Z := 1.

Definition wrapup_prompt (n : Z) : text :=
  u "You have used all " ++ show n
  ++ u " iterations and cannot call tools now. In a few sentences: what was done, what was not, where the work stands and the next step.".

(** A message the loop writes: a role and a string. *)
Definition plain_row (role : string) (t : text) : message :=
  Msg None role (CStr t) None [] [] None 0 None JNull.

Definition _wrapup_applies (o : run_options) : bool :=
  o.(o_max_turns_wrapup) && negb (o.(o_max_turns) <=? 0)
  && bool_decide (rstrip_of [47%N] o.(o_base_url) ∈ map (rstrip_of [47%N]) o.(o_wrapup_base_urls)).

Definition _stream_error_reason (b : broken) : text :=
  match b with
  | BParse _ _ => u "parse_error"
  | BStalled => u "stream_stalled"
  | BStatus c => u "http_" ++ show c
  | BTransport | BOther => u "transport"
  end.
Definition _is_client_error (b : broken) : bool := match b with BStatus c => c <? 500 | _ => false end.
Definition unhandled (b : broken) : bool := match b with BOther => true | _ => false end.
Definition is_parse (b : broken) : bool := match b with BParse _ _ => true | _ => false end.

Section Fence.
Context {PU : PyUnicode}.
(** [_EXEC_FENCE_RE]. *)
Definition _EXEC_FENCE_RE : re :=
  Seq (iword (u "```")) (Seq (Star (Chr (fun c => (c =? 32)%N || (c =? 9)%N)))
    (Seq (alts [iword (u "bash"); iword (u "sh"); iword (u "shell"); iword (u "zsh"); iword (u "console")]) Wb)).
Definition _looks_like_unexecuted_command (t : text) : bool := nonempty t && search _EXEC_FENCE_RE t.
End Fence.

(** ** The finalizer ([app/harness/finalizer.py]) *)

Definition FINALIZABLE_STOP_REASONS : list text := [u "stop"; u "end_turn"].

Definition should_finalize (stop_reason : text) (schema : option json) : bool * text :=
  match schema with
  | None => (false, [])
  | Some s =>
      if falsy s then (false, [])
      else if bool_decide (stop_reason ∈ FINALIZABLE_STOP_REASONS) then (true, [])
      else (false, u "skipped: stop_reason=" ++ stop_reason)
  end.

Definition _SCALAR_CAPS : list string := ["integer"; "number"; "boolean"; "null"]%string.

Definition kind_is (k : string) (fs : list (string * json)) : bool :=
  match obj_get "type" fs with Some (JStr s) => String.eqb s k | _ => false end.
Definition has_key (k : string) (fs : list (string * json)) : bool := bool_decide (is_Some (obj_get k fs)).
Definition no_kind (fs : list (string * json)) : bool :=
  match obj_get "type" fs with None | Some JNull => true | _ => false end.

(** [_node_is_bounded]; the fuel is the depth of the schema. *)
Fixpoint _node_is_bounded (fuel : nat) (node : json) : bool :=
  match fuel, node with
  | S fuel, JObj fs =>
      let go := _node_is_bounded fuel in
      if match obj_get "enum" fs with Some v => negb (falsy v) | None => false end then true
      else if existsb (fun k => kind_is k fs) _SCALAR_CAPS then true
      else if kind_is "string" fs then match obj_get "maxLength" fs with Some (JInt n) => 0 <? n | _ => false end
      else if kind_is "array" fs || (no_kind fs && has_key "items" fs) then
        match obj_get "items" fs with
        | Some (JList l) => match l with [] => false | _ => forallb go l end
        | Some v => go v
        | None => false
        end
      else if kind_is "object" fs || has_key "properties" fs then
        match obj_get "properties" fs with
        | Some (JObj ((_ :: _) as inner)) => forallb (fun kv => go kv.2) inner
        | _ => false
        end
      else
        match omap (fun k => match obj_get k fs with Some (JList ((_ :: _) as l)) => Some l | _ => None end)
                ["anyOf"; "oneOf"; "allOf"]%string with
        | l :: _ => forallb go l
        | [] => false
        end
  | _, _ => false
  end.

Fixpoint depth (v : json) : nat :=
  match v with
  | JList l => S (foldr (fun v n => Nat.max (depth v) n) 0%nat l)
  | JObj fs => S (foldr (fun kv n => Nat.max (depth kv.2) n) 0%nat fs)
  | _ => 0%nat
  end.

Definition _schema_is_bounded (schema : json) : bool :=
  match schema with
  | JObj fs =>
      match obj_get "properties" fs with
      | Some (JObj ((_ :: _) as props)) => forallb (fun kv => _node_is_bounded (S (depth kv.2)) kv.2) props
      | _ => false
      end
  | _ => false
  end.

Definition DIVERGENCE_MARKER : text := u "not a budget".
Definition should_resample_divergence (error : text) (schema : json) : bool :=
  nonempty error && contains DIVERGENCE_MARKER error && negb (contains (u "raise harness.finalizer.max_tokens") error)
  && _schema_is_bounded schema.

(** The extra completion's tokens, folded into the turn's. *)
Definition usage_at (k : string) (us : usage) : Z := default 0 (count_int <$> us !! k).
Definition fold_key (src dst : string) (us : usage) (t : totals) : totals :=
  if usage_at src us =? 0 then t else <[dst := count_at dst t + usage_at src us]> t.
Definition fold_finalizer (us : usage) (t : totals) : totals :=
  fold_key "reasoning_tokens" "finalizer_reasoning_tokens" us
    (fold_key "input_tokens" "finalizer_input_tokens" us
       (fold_key "output_tokens" "finalizer_output_tokens" us
          (fold_key "total_tokens" "total_tokens" us (fold_key "output_tokens" "output_tokens" us t)))).

Section Loop.
Context {E : Type} (env : environment E).
Context {DK : Disk} {JT : JsonText} {PJ : PyJson} {JD : JsonDecoder} {PU : PyUnicode}.
Variables (sessions_dir : text) (resolve : text -> text) (image_tokens : Z) (shot_bytes : message -> Z)
          (sidecar_writable : bool).
Variables (lower_text : text -> text) (dump_compact : json -> text) (sha1_hex : text -> text).

Abbreviation M := (st (run_state E)).

(** ** Relief, on the run's own state *)

Definition relieve (o : run_options) (target0 keep_recent : Z) (latched : bool) : M relief_report :=
  fun s =>
    let w := s.(x_out) in
    let t := s.(x_turn) in
    let '(report, latch, r) :=
      _relieve_context sessions_dir resolve image_tokens sidecar_writable o.(o_relief) target0 keep_recent
        (if latched then Some t.(t_latch) else None)
        (ReliefState s.(x_msgs) t.(t_meter) w.(w_fs) w.(w_sidecars)) in
    let t := match latch with Some l => set_latch l t | None => t end in
    (Ok report,
     RunState (set_meter r.(rs_meter) t) r.(rs_msgs)
       (Outside w.(w_env) r.(rs_fs) r.(rs_sidecars) w.(w_cache) w.(w_active_runs)) s.(x_log)).

(** ** [_prelude] *)

(** Rows a callback asked to have appended: none where it raised. *)
Definition splice (rows : option (list message)) : M unit :=
  match rows with
  | Some ((_ :: _) as rows) => _ <-s extend rows ;; remeter image_tokens
  | _ => sret tt
  end.

(** The budget: whether the iteration may go on. *)
Definition check_budget (o : run_options) : M bool :=
  t <-s get_turn ;;
  if t.(t_num_turns) <=? o.(o_max_turns) then sret true
  else
    _ <-s modify (set_stop_reason (u "max_turns")) ;;
    stopped <-s is_cancelled env o ;;
    let first := match t.(t_wrapup) with WNone => true | _ => false end in
    if first && _wrapup_applies o && negb stopped then
      _ <-s modify (set_wrapup WRequested) ;;
      _ <-s extend [plain_row "user" (wrapup_prompt o.(o_max_turns))] ;;
      _ <-s remeter image_tokens ;;
      _ <-s modify (set_prelude_for t.(t_num_turns)) ;;
      sret true
    else
      match t.(t_wrapup) with
      | WRequested => _ <-s modify (set_prelude_for t.(t_num_turns)) ;; sret true
      | _ => sret false
      end.

Definition current_disallowed (o : run_options) : M (gset text) :=
  t <-s get_turn ;;
  listed <-s (if o.(o_refresh) then query env AskRefresh else sret None) ;;
  sret (list_to_set (default o.(o_disallowed) listed) ∪ t.(t_surface_hidden)).

Definition _prelude (o : run_options) : M (option iteration) :=
  _ <-s modify (fun t => set_num_turns (t.(t_num_turns) + 1) t) ;;
  go <-s check_budget o ;;
  if negb go then sret None
  else
    stopped <-s is_cancelled env o ;;
    if (stopped : bool) then _ <-s modify (set_stop_reason (u "cancelled")) ;; sret None
    else
      t <-s get_turn ;;
      let prelude_due := negb (t.(t_prelude_for) =? t.(t_num_turns)) in
      _ <-s modify (set_prelude_for t.(t_num_turns)) ;;
      _ <-s (if prelude_due && o.(o_drain) then rows <-s query env AskDrain ;; splice rows else sret tt) ;;
      _ <-s (if prelude_due && o.(o_anchor) then rows <-s query env (AskAnchor t.(t_num_turns)) ;; splice rows else sret tt) ;;
      disallowed <-s current_disallowed o ;;
      _ <-s modify (fun t => set_visible (visible_tools t.(t_loaded) disallowed) t) ;;
      t <-s get_turn ;;
      _ <-s (if o.(o_relief).(ro_enabled) && measured t.(t_meter) && (headroom t.(t_meter) <? o.(o_min_completion))
             then _ <-s relieve o 0 o.(o_keep_recent) false ;; sret tt
             else sret tt) ;;
      sret (Some (Iteration disallowed ∅ [] [] ∅ [] [] 0 false)).

(** ** [_stream_iteration] *)

(** How a phase wants the loop to go on. *)
Inductive flow := Through | Continue | Break.

Definition set_stream (us : usage) (txt thinking : text) (acc : gmap Z raw_call) (fin : text) (it : iteration) : iteration :=
  Iteration it.(it_disallowed) us txt thinking acc fin it.(it_calls) it.(it_base) it.(it_injected).
Definition set_finish (fin : text) (it : iteration) : iteration :=
  set_stream it.(it_usage) it.(it_text) it.(it_thinking) it.(it_acc) fin it.
Definition set_commit (calls : list call) (base : nat) (injected : bool) (it : iteration) : iteration :=
  Iteration it.(it_disallowed) it.(it_usage) it.(it_text) it.(it_thinking) it.(it_acc) it.(it_finish) calls base injected.

(** [reasoning_content], or [reasoning] where the engine sends that. *)
Definition reasoning_of (d : delta) : text :=
  match d.(dl_reasoning_content) with Some t => t | None => default [] d.(dl_reasoning) end.

(** One chunk of the stream. *)
Definition take_chunk (c : chunk) (it : iteration) : M iteration :=
  let us := match c.(ch_usage) with [] => it.(it_usage) | fs => _merge_usage it.(it_usage) fs end in
  match c.(ch_choice) with
  | None => sret (set_stream us it.(it_text) it.(it_thinking) it.(it_acc) it.(it_finish) it)
  | Some d =>
      _ <-s (if nonempty d.(dl_content) then yield_ env (EvText d.(dl_content)) else sret tt) ;;
      _ <-s (if nonempty (reasoning_of d) then yield_ env (EvThinking (reasoning_of d)) else sret tt) ;;
      sret (set_stream us (it.(it_text) ++ d.(dl_content)) (it.(it_thinking) ++ reasoning_of d)
              (fold_left _accumulate_tool_call d.(dl_tool_calls) it.(it_acc)) (or_text d.(dl_finish) it.(it_finish)) it)
  end.

Fixpoint take_chunks (cs : list chunk) (it : iteration) : M iteration :=
  match cs with [] => sret it | c :: cs => it <-s take_chunk c it ;; take_chunks cs it end.

Definition uncount_turn : M unit := modify (fun t => set_num_turns (t.(t_num_turns) - 1) t).

Definition yield_retry (reason : text) (attempt : Z) (it : iteration) : M unit :=
  yield_ env (EvRetry reason attempt (len it.(it_text)) (len it.(it_thinking))).

(** A broken stream: sent again, kept as text, or raised. *)
Definition broken_stream (o : run_options) (b : broken) (it : iteration) : M (flow * iteration) :=
  if unhandled b || _is_client_error b then sraise EngineError
  else
    _ <-s (match b with BParse raw error => yield_ env (EvRaw raw error) | _ => sret tt end) ;;
    stopped <-s is_cancelled env o ;;
    t <-s get_turn ;;
    if is_parse b && nonempty it.(it_finish) && negb stopped then sret (Through, it)
    else if bool_decide (it.(it_acc) = ∅) && negb stopped && (t.(t_stream_retries) <? o.(o_stream_retry_max)) then
      _ <-s modify (set_stream_retries (t.(t_stream_retries) + 1)) ;;
      _ <-s yield_retry (_stream_error_reason b) (t.(t_stream_retries) + 1) it ;;
      _ <-s query env AskBackoff ;;
      _ <-s uncount_turn ;;
      sret (Continue, it)
    else if is_parse b then
      _ <-s modify (set_broken true) ;;
      sret (Through, set_finish (u "stream_error") it)
    else sraise EngineError.

(** The prompt was too long: relieve and ask again, a bounded number of times. *)
Definition recovery_note (attempt : Z) (r : relief_report) (requested : option Z) : text :=
  u "context_overflow_recovery: attempt=" ++ show attempt ++ u ", rungs="
  ++ or_text (join (u ",") (map rung_text r.(rr_rungs))) (u "none")
  ++ u ", freed_tokens=" ++ show r.(rr_freed) ++ u ", requested_input_tokens="
  ++ match requested with Some n => show n | None => u "None" end.

Definition overflowed (o : run_options) (requested : option Z) (msgs_len : Z) (it : iteration) : M (flow * iteration) :=
  t <-s get_turn ;;
  if o.(o_max_recoveries) <=? t.(t_recoveries) then sraise EngineError
  else
    _ <-s modify (set_recoveries (t.(t_recoveries) + 1)) ;;
    let n := default 0 requested in
    _ <-s (if 0 <? n
           then _ <-s modify (fun t => set_meter (observe_usage {["input_tokens"%string := CInt n]} msgs_len t.(t_meter)) t) ;;
                remeter image_tokens
           else sret tt) ;;
    t <-s get_turn ;;
    report <-s relieve o (_relief_target o.(o_relief) t.(t_meter)) o.(o_keep_recent) false ;;
    _ <-s yield_ env (EvRaw [] (recovery_note t.(t_recoveries) report requested)) ;;
    _ <-s uncount_turn ;;
    sret (Continue, it).

(** The engine takes no images: strip them all and ask again, once. *)
Definition images_refused (why : text) (it : iteration) : M (flow * iteration) :=
  t <-s get_turn ;;
  if t.(t_images_latched) then sraise EngineError
  else
    _ <-s modify (set_images_latched true) ;;
    ms <-s get_msgs ;;
    _ <-s put_msgs (strip_all_image_refs ms) ;;
    _ <-s yield_ env (EvRaw [] (u "multimodal_rejected: " ++ why)) ;;
    _ <-s uncount_turn ;;
    sret (Continue, it).

Definition position (m : meter) : option (Z * Z * Z) :=
  if measured m then Some (used m, m.(mt_window), headroom m) else None.

(** The completion is in: commit its calls, book its usage, append its message. *)
Definition commit (o : run_options) (msgs_len : Z) (it : iteration) : M (flow * iteration) :=
  _ <-s (if nonempty it.(it_thinking) then yield_ env (EvThinkingDone it.(it_thinking)) else sret tt) ;;
  _ <-s modify (set_forced None) ;;
  t <-s get_turn ;;
  fresh <-s query env AskIds ;;
  let wrapping := match t.(t_wrapup) with WRequested => true | _ => false end in
  let committed := if t.(t_broken) then []
                   else _commit_tool_calls t.(t_summary_tools) it.(it_finish) fresh it.(it_acc) in
  let calls := if wrapping then [] else committed in
  _ <-s modify (fun t => set_total (_accumulate_iteration_usage t.(t_total) it.(it_usage)) t) ;;
  _ <-s modify (fun t => set_meter (observe_usage it.(it_usage) msgs_len t.(t_meter)) t) ;;
  _ <-s remeter image_tokens ;;
  t <-s get_turn ;;
  let asst_evt := EvAssistant it.(it_text) it.(it_thinking) calls it.(it_usage) t.(t_num_turns)
                    (or_text it.(it_finish) (u "stop")) (position t.(t_meter)) in
  _ <-s yield_ env asst_evt ;;
  _ <-s modify (fun t => set_accumulated (t.(t_accumulated) ++ it.(it_text)) t) ;;
  _ <-s extend [_assistant_message_for_history it.(it_text) calls
                  (if 0 <? o.(o_relief).(ro_preserve_thinking) then it.(it_thinking) else [])] ;;
  ms <-s get_msgs ;;
  let base := length ms in
  _ <-s fire_on_event env o asst_evt ;;
  ms <-s get_msgs ;;
  let it := set_commit calls base (base <? length ms)%nat it in
  if wrapping then _ <-s modify (set_wrapup WDone) ;; sret (Break, it)
  else sret (Through, it).

Definition _stream_iteration (o : run_options) (it : iteration) : M (flow * iteration) :=
  t <-s get_turn ;;
  ms <-s get_msgs ;;
  let msgs_len := Z.of_nat (length ms) in
  let choice := match t.(t_wrapup) with WRequested => u "none" | _ => default (u "auto") t.(t_forced) end in
  answered <-s query env (AskStream (Request ms t.(t_visible) choice t.(t_num_turns))) ;;
  match answered with
  | RefusedOverflow requested => overflowed o requested msgs_len it
  | RefusedImages why => images_refused why it
  | Streamed chunks ending =>
      it <-s take_chunks chunks it ;;
      went <-s (match ending with Some b => broken_stream o b it | None => sret (Through, it) end) ;;
      let '(how, it) := went in
      match how with
      | Through =>
          stopped <-s is_cancelled env o ;;
          if (stopped : bool) then
            _ <-s modify (fun t => set_accumulated (t.(t_accumulated) ++ it.(it_text)) (set_stop_reason (u "cancelled") t)) ;;
            sret (Break, it)
          else commit o msgs_len it
      | _ => sret (how, it)
      end
  end.

(** ** [_end_without_tools] *)

Definition below_floor (o : run_options) (m : meter) : bool := measured m && (headroom m <? o.(o_terminal_floor)).

(** An observer appended something after the answer: go on if there is room to read it. *)
Definition answer_inject (o : run_options) : M flow :=
  _ <-s remeter image_tokens ;;
  t <-s get_turn ;;
  _ <-s (if below_floor o t.(t_meter) then _ <-s relieve o 0 o.(o_keep_recent) false ;; sret tt else sret tt) ;;
  t <-s get_turn ;;
  if below_floor o t.(t_meter) then _ <-s modify (set_stop_reason (u "context_exhausted")) ;; sret Break
  else sret Continue.

(** [s[:len(s) - n]]. *)
Definition drop_end (n : nat) (s : text) : text := take (length s - n) s.

(** The answer printed a command instead of calling Bash. *)
Definition echo_reprompt (o : run_options) (it : iteration) : M flow :=
  t <-s get_turn ;;
  _ <-s modify (set_reprompts (t.(t_reprompts) + 1)) ;;
  if o.(o_echo_reissue) then
    ms <-s get_msgs ;;
    _ <-s put_msgs (take (length ms - 1) ms) ;;
    _ <-s remeter image_tokens ;;
    _ <-s modify (fun t => set_accumulated (drop_end (length it.(it_text)) t.(t_accumulated)) t) ;;
    _ <-s yield_retry (u "echo_guard") (t.(t_reprompts) + 1) it ;;
    _ <-s modify (set_forced (Some (u "required"))) ;;
    _ <-s uncount_turn ;;
    sret Continue
  else
    _ <-s extend [plain_row "user" _ECHO_GUARD_NUDGE] ;;
    sret Continue.

Definition _end_without_tools (o : run_options) (it : iteration) : M flow :=
  t <-s get_turn ;;
  if t.(t_broken) then _ <-s modify (set_stop_reason (u "stream_error")) ;; sret Break
  else if it.(it_injected) then answer_inject o
  else if o.(o_echo_guard) && (t.(t_reprompts) <? _MAX_ECHO_GUARD_REPROMPTS)
          && _looks_like_unexecuted_command it.(it_text)
          && negb (bool_decide (u "Bash" ∈ it.(it_disallowed)))
  then echo_reprompt o it
  else _ <-s modify (set_stop_reason (or_text it.(it_finish) (u "stop"))) ;; sret Break.

(** ** [_after_batch] *)

Definition _after_batch (o : run_options) (it : iteration) : M unit :=
  _ <-s remeter image_tokens ;;
  ms <-s get_msgs ;;
  if match it.(it_calls) with [] => false | _ => true end && o.(o_microcompact) && (o.(o_microcompact_threshold) <=? Z.of_nat (length (sel is_tool ms)))
  then _ <-s relieve o 0 o.(o_keep_recent) true ;; sret tt
  else sret tt.

(** ** [_close_turn] and the finalizer *)

(** One guided request, and its tokens booked. *)
Definition finalizer_attempt (o : run_options) (schema : json) : M (option json * text) :=
  t <-s get_turn ;;
  ms <-s get_msgs ;;
  answered <-s query env (AskFinalizer ms t.(t_visible) schema o.(o_final_prompt)) ;;
  let '(parsed, error, us) := answered in
  _ <-s modify (fun t => set_total (fold_finalizer us t.(t_total)) t) ;;
  sret (parsed, error).

Definition _maybe_finalize (o : run_options) : M (option json * text) :=
  t <-s get_turn ;;
  let '(run, skip_reason) := should_finalize t.(t_stop_reason) o.(o_final_schema) in
  match run, o.(o_final_schema) with
  | true, Some schema =>
      first <-s finalizer_attempt o schema ;;
      if should_resample_divergence first.2 schema then
        again <-s finalizer_attempt o schema ;;
        sret (again.1, if nonempty again.2 then u "[attempts=2] " ++ again.2 else again.2)
      else sret first
  | _, _ => sret (None, skip_reason)
  end.

Definition _close_turn (o : run_options) : M unit :=
  final <-s _maybe_finalize o ;;
  t <-s get_turn ;;
  let done_ := EvResult t.(t_stop_reason) t.(t_total) t.(t_num_turns) t.(t_accumulated) t.(t_captions) final.1 final.2
                 (match t.(t_wrapup) with WDone => true | _ => false end) in
  _ <-s yield_ env done_ ;;
  fire_on_event env o done_.

(** ** The loop *)

(** One pass of [while True]: how it ends. *)
Definition pass (o : run_options) : M flow :=
  head <-s _prelude o ;;
  match head with
  | None => sret Break
  | Some it =>
      went <-s _stream_iteration o it ;;
      let '(how, it) := went in
      match how with
      | Through =>
          match it.(it_calls) with
          | [] => _end_without_tools o it
          | _ =>
              _ <-s _dispatch_batch env sessions_dir shot_bytes lower_text dump_compact o it ;;
              _ <-s _after_batch o it ;;
              sret Continue
          end
      | _ => sret how
      end
  end.

(** [None]: the fuel ran out before the loop ended. *)
Fixpoint loop (fuel : nat) (o : run_options) : M (option unit) :=
  match fuel with
  | O => sret None
  | S fuel =>
      how <-s pass o ;;
      match how with
      | Continue => loop fuel o
      | _ => sret (Some tt)
      end
  end.

(** ** [run_query] *)

Definition RECALL_OBSERVATION_TOOL : text := u "recall_observation".
Definition _CATALOG_REMINDER_MARKER : text := u "<!--lloyd-toolsearch-catalog-reminder-->".
Definition _DEFAULT_BASELINE_TOOLS : list text :=
  [u "Bash"; u "Read"; u "Write"; u "Edit"; u "Grep"; u "Glob"; u "Task"].

Definition is_system (m : message) : bool := String.eqb m.(m_role) "system".
Definition _has_system (ms : list message) : bool := existsb is_system ms.

(** [m.get("content") or ""], of a system message, which is text. *)
Definition system_text (m : message) : text := match m.(m_content) with CStr t => t | _ => [] end.

Definition _inject_catalog_reminder (ls : loaded_set) (ms : list message) : list message :=
  let body := format_catalog_reminder ls.(ls_catalog) ls.(ls_loaded) in
  match body with
  | [] => ms
  | _ =>
      let addendum := nl ++ nl ++ _CATALOG_REMINDER_MARKER ++ nl ++ body in
      if existsb (fun m => is_system m && contains _CATALOG_REMINDER_MARKER (system_text m)) ms then ms
      else match ms with
           | m :: rest => if is_system m then set_content (CStr (system_text m ++ addendum)) m :: rest
                          else plain_row "system" (lstrip addendum) :: ms
           | [] => [plain_row "system" (lstrip addendum)]
           end
  end.

Definition _allow_list_hidden (o : run_options) : list text :=
  match _allowed_names o with
  | None => []
  | Some allowed =>
      sel (fun n => negb (bool_decide (normalize_tool_name n ∈ allowed))) (map d_name (concat (map snd o.(o_discovered))))
  end.

Definition surface_hidden (o : run_options) : gset text :=
  list_to_set (o.(o_surface_hidden) ++ _allow_list_hidden o
               ++ (if o.(o_relief).(ro_stubs) then [] else [RECALL_OBSERVATION_TOOL])).

Definition _resolve_loaded_tool_set (o : run_options) (catalog : list tool) (cache : gmap text loaded_set)
    : loaded_set * gmap text loaded_set :=
  let candidates := match o.(o_tool_search_baseline) with [] => _DEFAULT_BASELINE_TOOLS | l => l end in
  let baseline : gset text :=
    list_to_set (sel (fun n => bool_decide (n ∈ catalog_names catalog) && negb (bool_decide (n ∈ o.(o_disallowed)))) candidates) in
  let enabled := o.(o_tool_search) && negb (bool_decide (TOOLSEARCH_TOOL_NAME ∈ o.(o_disallowed)))
                 && (o.(o_tool_search_threshold) <=? Z.of_nat (length catalog)) in
  match _allowed_names o with
  | Some allowed =>
      (LoadedToolSet catalog baseline ∅ (enabled && bool_decide (TOOLSEARCH_TOOL_NAME ∈ allowed))
         (catalog_signature dump_compact sha1_hex catalog) o.(o_tool_call_summaries), cache)
  | None =>
      get_or_create dump_compact sha1_hex o.(o_session_id) catalog baseline enabled o.(o_tool_call_summaries) cache
  end.

(** [_open_turn]: the catalog, the refusal of a turn without tools, the turn's state. *)
Definition _open_turn (o : run_options) (m : meter) (ms : list message) (w : outside E)
    : outcome (turn * list message * outside E) :=
  let hidden := surface_hidden o in
  match build_tool_list o.(o_discovered) (o.(o_disallowed) ++ elements hidden) with
  | inl _ => Raise ToolDiscoveryError
  | inr catalog =>
      let '(catalog, summary_tools) :=
        if o.(o_tool_call_summaries)
        then let '(c, names) := add_summary_param catalog in (c, TOOLSEARCH_TOOL_NAME :: names)
        else (catalog, []) in
      if forallb (fun '(_, tools) => match tools with [] => true | _ => false end) o.(o_discovered) then Raise ToolDiscoveryError
      else
        let '(ls, cache) := _resolve_loaded_tool_set o catalog w.(w_cache) in
        let ms := if ls.(ls_enabled) then _inject_catalog_reminder ls ms else ms in
        Ok (Turn m latch0 ls hidden (list_to_set summary_tools) [] ∅ (Captions 0 0 false) 0 (u "stop") 0 false 0 0 false
              None WNone [] 0, ms, Outside w.(w_env) w.(w_fs) w.(w_sidecars) cache w.(w_active_runs))
  end.

Definition _run_started (n : Z) : Z := n + 1.
Definition _run_finished (n : Z) : Z := Z.max 0 (n - 1).
Definition set_active (n : Z) (w : outside E) : outside E :=
  Outside w.(w_env) w.(w_fs) w.(w_sidecars) w.(w_cache) n.

(** The list a run works on: the system prompt goes first unless the list has one. *)
Definition opening_messages (o : run_options) (ms : list message) : list message :=
  if nonempty o.(o_system_prompt) && negb (_has_system ms) then plain_row "system" o.(o_system_prompt) :: ms else ms.

(** A run after its pool is open: how it ended, and everything it leaves. *)
Definition run_body (fuel : nat) (o : run_options) : M (option unit) :=
  _ <-s yield_ env EvSystem ;;
  ms <-s get_msgs ;;
  _ <-s put_msgs (_cap_history_reasoning o.(o_relief).(ro_preserve_thinking) ms) ;;
  ended <-s loop fuel o ;;
  match ended with
  | None => sret None
  | Some _ => _ <-s _close_turn o ;; sret (Some tt)
  end.

(** What a run comes to: refused at the opening, or run, ending well or by an exception. *)
Inductive ran := NotOpened (e : exn) (w : outside E) | Ran (o : outcome (option unit)) (s : run_state E).

Definition run_query (fuel : nat) (o : run_options) (m : meter) (ms : list message) (w : outside E) : ran :=
  let w := set_active (_run_started w.(w_active_runs)) w in
  let finish w := set_active (_run_finished w.(w_active_runs)) w in
  match _open_turn o m (opening_messages o ms) w with
  | Raise e => NotOpened e (finish w)
  | Ok (t, ms, w) =>
      let '(r, s) := run_body fuel o (RunState t ms w []) in
      Ran r (RunState s.(x_turn) s.(x_msgs) (finish s.(x_out)) s.(x_log))
  end.
End Loop.
