(* ===== verification/TurnLogic.v ===== *)
(** * Reasoning about a run

    Weakest preconditions for code that threads a state and may raise, what an operation
    keeps, and the operations of a run under both. *)
From Stdlib Require Import String.
From S2P Require Import Prelude PyText Stamps QueueRows Regex Spill Messages Microcompact Policy PoolRun Meter ToolCatalog ToolCalls Relief Turn Dispatch TurnLoop.

Local Open Scope Z_scope.

(** ** Weakest preconditions *)

Section Wp.
Context {S : Type}.

Definition wp {A} (m : st S A) (Q : outcome A -> S -> Prop) (s : S) : Prop := Q (m s).1 (m s).2.

Lemma wp_ret {A} (a : A) Q s : Q (Ok a) s -> wp (sret a) Q s.
Proof. done. Qed.
Lemma wp_raise {A} e (Q : outcome A -> S -> Prop) s : Q (Raise e) s -> wp (sraise e) Q s.
Proof. done. Qed.
Lemma wp_lift {A} (o : outcome A) Q s : Q o s -> wp (slift o) Q s.
Proof. done. Qed.
Lemma wp_bind {A B} (m : st S A) (k : A -> st S B) Q s :
  wp m (fun o s1 => match o with Ok a => wp (k a) Q s1 | Raise e => Q (Raise e) s1 end) s -> wp (sbind m k) Q s.
Proof. intros Hm. unfold wp, sbind in *. by destruct (m s) as [[a|e] s1]. Qed.
Lemma wp_mono {A} (m : st S A) (P Q : outcome A -> S -> Prop) s :
  wp m P s -> (forall o s', P o s' -> Q o s') -> wp m Q s.
Proof. unfold wp. intros HP Himp. by apply Himp. Qed.
Lemma wp_run {A} (m : st S A) Q s o s' : wp m Q s -> m s = (o, s') -> Q o s'.
Proof. intros HQ Hm. unfold wp in HQ. by rewrite Hm in HQ. Qed.
Lemma wp_of {A} (m : st S A) (Q : outcome A -> S -> Prop) s : (forall o s', m s = (o, s') -> Q o s') -> wp m Q s.
Proof. intros HQ. apply HQ. apply surjective_pairing. Qed.

(** An operation that relates the states before and after it, however it ends. *)
Definition moves {A} (R : S -> S -> Prop) (m : st S A) : Prop := forall s, wp m (fun _ s' => R s s') s.

Lemma wp_moves {A} R (m : st S A) (Q : outcome A -> S -> Prop) s :
  moves R m -> (forall o s', R s s' -> Q o s') -> wp m Q s.
Proof. intros Hm HQ. eapply wp_mono; [apply Hm|]. auto. Qed.

Context (R : S -> S -> Prop) `{!PreOrder R}.

Lemma moves_ret {A} (a : A) : moves R (sret a).
Proof. intros s. unfold wp. simpl. reflexivity. Qed.
Lemma moves_raise {A} e : moves R (@sraise S A e).
Proof. intros s. unfold wp. simpl. reflexivity. Qed.
Lemma moves_lift {A} (o : outcome A) : moves R (slift o).
Proof. intros s. unfold wp. simpl. reflexivity. Qed.
Lemma moves_bind {A B} (m : st S A) (k : A -> st S B) :
  moves R m -> (forall a, moves R (k a)) -> moves R (sbind m k).
Proof.
  intros Hm Hk s. apply wp_bind. eapply wp_mono; [apply Hm|]. intros [a|e] s1 Hs1; [|done].
  eapply wp_mono; [apply Hk|]. intros o s2 Hs2. simpl in *. by etransitivity.
Qed.
End Wp.

Create HintDb moves.

(** Split a [moves] goal along the code. *)
Ltac moves_step :=
  match goal with
  | |- moves _ (sret _) => apply moves_ret; exact _
  | |- moves _ (sraise _) => apply moves_raise; exact _
  | |- moves _ (slift _) => apply moves_lift; exact _
  | |- moves _ (sbind _ _) => apply moves_bind; [exact _| |intros ?]
  | |- moves _ (if ?b then _ else _) => destruct b
  | |- moves _ (let '(_, _) := ?p in _) => destruct p
  | |- moves _ (match ?x with _ => _ end) => destruct x
  end.
Ltac moves_auto := repeat first [solve [eauto with moves] | moves_step].

(** Run a [wp] goal along the code. *)
Ltac wp_step :=
  match goal with
  | |- wp (sret _) _ _ => apply wp_ret
  | |- wp (sraise _) _ _ => apply wp_raise
  | |- wp (slift _) _ _ => apply wp_lift
  | |- wp (sbind _ _) _ _ => apply wp_bind
  end.

(** ** The operations of a run *)

Section Ops.
Context {E : Type} (env : environment E).
Context {DK : Disk} {JT : JsonText} {PJ : PyJson} {JD : JsonDecoder} {PU : PyUnicode}.

Lemma wp_get_turn (Q : outcome turn -> run_state E -> Prop) s : Q (Ok s.(x_turn)) s -> wp get_turn Q s.
Proof. done. Qed.
Lemma wp_get_msgs (Q : outcome (list message) -> run_state E -> Prop) s : Q (Ok s.(x_msgs)) s -> wp get_msgs Q s.
Proof. done. Qed.
Lemma wp_modify f (Q : outcome unit -> run_state E -> Prop) s :
  Q (Ok tt) (RunState (f s.(x_turn)) s.(x_msgs) s.(x_out) s.(x_log)) -> wp (modify f) Q s.
Proof. done. Qed.
Lemma wp_put_msgs ms (Q : outcome unit -> run_state E -> Prop) s :
  Q (Ok tt) (RunState s.(x_turn) ms s.(x_out) s.(x_log)) -> wp (put_msgs ms) Q s.
Proof. done. Qed.
Lemma wp_extend rows (Q : outcome unit -> run_state E -> Prop) s :
  Q (Ok tt) (RunState s.(x_turn) (s.(x_msgs) ++ rows) s.(x_out) s.(x_log)) -> wp (extend rows) Q s.
Proof. done. Qed.
Lemma wp_is_cancelled o (Q : outcome bool -> run_state E -> Prop) s :
  (forall b, Q (Ok b) s) -> wp (is_cancelled env o) Q s.
Proof. unfold wp, is_cancelled. simpl. auto. Qed.
Lemma wp_query {A} (q : ask A) (Q : outcome A -> run_state E -> Prop) s :
  (forall a rows w, answer env q s.(x_out) = (a, rows, w) ->
     Q (Ok a) (RunState s.(x_turn) (s.(x_msgs) ++ rows) w (s.(x_log) ++ entries q a))) -> wp (query env q) Q s.
Proof. unfold wp, query. intros HQ. destruct (answer env q (x_out s)) as [[a rows] w] eqn:Ea. by apply HQ. Qed.

(** ** What most of a run leaves alone *)

(** The counters and texts only the phases themselves write. *)
Definition tallies (t : turn) : Z * Z * bool * Z * Z * wrapup * text * text * bool * option text * Z :=
  (t.(t_num_turns), t.(t_recoveries), t.(t_images_latched), t.(t_reprompts), t.(t_stream_retries), t.(t_wrapup),
   t.(t_accumulated), t.(t_stop_reason), t.(t_broken), t.(t_forced), t.(t_prelude_for)).

(** The questions a trace tells apart: the requests, the events and the tools. *)
Definition loud {A} (q : ask A) : bool :=
  match q with AskStream _ | AskYield _ | AskTool _ => true | _ => false end.

(** The events a listener pieces the answer together from, and the one that ends it. *)
Definition chatter (e : event) : bool :=
  match e with EvText _ | EvThinking _ | EvRetry _ _ _ _ | EvAssistant _ _ _ _ _ _ _
  | EvResult _ _ _ _ _ _ _ _ => true | _ => false end.

(** A relation kept by writes that leave the tallies and the messages, and by the
    questions nobody hears, is kept by the operations that make no others; the sections
    within add those that yield, those that stream, those that dispatch and those that rewrite
    the messages. *)
Section Keeps.
Context (R : run_state E -> run_state E -> Prop) `{!PreOrder R}.
Hypothesis R_turn : forall s t w, tallies s.(x_turn) = tallies t -> R s (RunState t s.(x_msgs) w s.(x_log)).
Hypothesis R_ask : forall A (q : ask A), loud q = false -> moves R (query env q).

Ltac quiet := intros s; unfold wp; simpl; by apply R_turn.

Lemma moves_get_turn : moves R get_turn.
Proof. intros s. unfold wp. simpl. reflexivity. Qed.
Lemma moves_get_msgs : moves R get_msgs.
Proof. intros s. unfold wp. simpl. reflexivity. Qed.
Lemma moves_is_cancelled o : moves R (is_cancelled env o).
Proof. intros s. unfold wp. simpl. reflexivity. Qed.
Lemma moves_get_fs : moves R (@get_fs E).
Proof. intros s. unfold wp. simpl. reflexivity. Qed.
Lemma moves_put_fs d : moves R (put_fs d).
Proof. quiet. Qed.
Lemma moves_put_loaded o ls : moves R (put_loaded o ls).
Proof. quiet. Qed.
Lemma moves_modify f : (forall t, tallies t = tallies (f t)) -> moves R (modify f).
Proof. intros Hf s. unfold wp. simpl. by apply R_turn. Qed.
Lemma moves_remeter n : moves R (remeter n).
Proof. apply moves_bind; [done|apply moves_get_msgs|]. intros ms. by apply moves_modify. Qed.
Lemma moves_fire o e : moves R (fire_on_event env o e).
Proof. unfold fire_on_event. destruct (o_hooks o); [by apply R_ask|by apply moves_ret]. Qed.
Lemma moves_post o n r f i : moves R (post_hook env o n r f i).
Proof. unfold post_hook. destruct (o_hooks o); [by apply R_ask|by apply moves_ret]. Qed.

Hint Resolve moves_get_turn moves_get_msgs moves_is_cancelled moves_get_fs
  moves_put_fs moves_put_loaded moves_remeter moves_fire moves_post : moves.
Hint Extern 1 (moves R (query env _)) => by apply R_ask : moves.
Hint Extern 1 (moves R (modify _)) => by apply moves_modify : moves.

Lemma moves_walk name args id summary hs : forall i d, moves R (walk_hooks env name args id summary i hs d).
Proof.
  induction hs as [|h hs IH]; intros i d; simpl; [by apply moves_ret|].
  destruct (match ph_matcher h with Some m => _ | None => _ end); [apply IH|].
  apply moves_bind; [done|by apply R_ask|]. intros [|out|why]; [apply IH| |].
  - destruct (ho_deny out); [by apply moves_ret|apply IH].
  - destruct (ph_fail_closed h); [by apply moves_ret|apply IH].
Qed.
Hint Resolve moves_walk : moves.

Variables (sessions_dir : text) (image_tokens : Z) (shot_bytes : message -> Z).
Variables (lower_text : text -> text) (dump_compact : json -> text).
Variables (resolve : text -> text) (sidecar_writable : bool).

Lemma moves_pre o dis tc : moves R (_pre_dispatch env lower_text dump_compact o dis tc).
Proof. unfold _pre_dispatch. moves_auto. Qed.
Lemma moves_disallowed o : moves R (current_disallowed env o).
Proof. unfold current_disallowed. moves_auto. Qed.
Lemma moves_attempt o schema : moves R (finalizer_attempt env o schema).
Proof. unfold finalizer_attempt. moves_auto. Qed.
Hint Resolve moves_pre moves_attempt : moves.
Lemma moves_finalize o : moves R (_maybe_finalize env o).
Proof. unfold _maybe_finalize. moves_auto. Qed.
Hint Resolve moves_finalize : moves.

Section Talking.
Hypothesis R_yield : forall e, chatter e = false -> moves R (query env (AskYield e)).

Lemma moves_yield e : chatter e = false -> moves R (yield_ env e).
Proof. apply R_yield. Qed.
Hint Extern 1 (moves R (yield_ env _)) => by apply moves_yield : moves.
Lemma moves_announce o tc : moves R (announce env o tc).
Proof. unfold announce. moves_auto. Qed.
Hint Resolve moves_announce : moves.
Lemma moves_admit o dis slots : forall calls ready admitted,
  moves R (admit_calls env lower_text dump_compact o dis slots calls ready admitted).
Proof. induction slots as [|n IH]; intros [|[i tc] calls] ready adm; simpl; moves_auto. Qed.
Hint Resolve moves_admit : moves.
Section Streaming.
Hypothesis R_chat : forall e, chatter e = true -> moves R (query env (AskYield e)).

Lemma moves_say e : moves R (yield_ env e).
Proof. destruct (chatter e) eqn:Ec; [by apply R_chat|by apply R_yield]. Qed.
Hint Resolve moves_say : moves.
Lemma moves_chunk c it : moves R (take_chunk env c it).
Proof. unfold take_chunk. moves_auto. Qed.
Lemma moves_chunks cs : forall it, moves R (take_chunks env cs it).
Proof. induction cs as [|c cs IH]; intros it; simpl; moves_auto. apply moves_chunk. Qed.
Lemma moves_retry r a it : moves R (yield_retry env r a it).
Proof. unfold yield_retry. moves_auto. Qed.
Lemma moves_close o : moves R (_close_turn env o).
Proof. unfold _close_turn. moves_auto. Qed.
End Streaming.

Hypothesis R_tool : forall d, moves R (query env (AskTool d)).
Hint Extern 0 (moves R (query env (AskTool _))) => apply R_tool : moves.

Lemma moves_exec o dis tc : moves R (_execute_tool_call env sessions_dir o dis tc).
Proof. unfold _execute_tool_call. moves_auto. Qed.
Hint Resolve moves_exec : moves.
Lemma moves_execute_all o dis admitted : moves R (execute_all env sessions_dir o dis admitted).
Proof. induction admitted as [|[i tc] rest IH]; simpl; moves_auto. Qed.
Hint Resolve moves_execute_all : moves.

Section Rewriting.
Hypothesis R_msgs : forall s ms, R s (RunState s.(x_turn) ms s.(x_out) s.(x_log)).

Lemma moves_put_msgs ms : moves R (put_msgs ms).
Proof. intros s. unfold wp. simpl. by apply R_msgs. Qed.
Lemma moves_extend rows : moves R (extend rows).
Proof. intros s. unfold wp. simpl. by apply R_msgs. Qed.
Lemma moves_relieve sd rs n sw o t0 kr l : moves R (relieve sd rs n sw o t0 kr l).
Proof.
  intros s. unfold wp, relieve.
  destruct (_relieve_context sd rs n sw (o_relief o) t0 kr _ _) as [[report latch] r]. simpl.
  match goal with |- R s (RunState ?t ?ms ?w ?lg) =>
    transitivity (RunState t (x_msgs s) w lg); [apply R_turn; by destruct latch|apply (R_msgs (RunState t (x_msgs s) w lg))]
  end.
Qed.
Hint Resolve moves_put_msgs moves_extend moves_relieve : moves.

Lemma moves_write fuel calls allow : forall b, moves R (write_results fuel calls allow b).
Proof. induction fuel as [|n IH]; intros b; simpl; moves_auto. Qed.
Hint Resolve moves_write : moves.
Lemma moves_round o dis calls nudge c b :
  moves R (batch_round env sessions_dir lower_text dump_compact o dis calls nudge c b).
Proof. unfold batch_round. moves_auto. Qed.
Hint Resolve moves_round : moves.
Lemma moves_batch_loop fuel o dis calls nudge c : forall b,
  moves R (batch_loop env sessions_dir lower_text dump_compact fuel o dis calls nudge c b).
Proof. induction fuel as [|n IH]; intros b; simpl; moves_auto. Qed.
Hint Resolve moves_batch_loop : moves.
Lemma moves_dispatch o it :
  moves R (_dispatch_batch env sessions_dir shot_bytes lower_text dump_compact o it).
Proof. unfold _dispatch_batch. moves_auto. Qed.
Lemma moves_after o it : moves R (_after_batch sessions_dir resolve image_tokens sidecar_writable o it).
Proof. unfold _after_batch. moves_auto. Qed.
Lemma moves_splice rows : moves R (splice image_tokens rows).
Proof. unfold splice. moves_auto. Qed.
End Rewriting.
End Talking.
End Keeps.
End Ops.
