(* ===== verification/TurnSamples.v ===== *)
(** * A small turn to try the harness on

    An engine that plays a script, tools that answer at once, an observer that leaves a
    note when a result is announced, and options to run them with: what the theorems of
    the turn loop are applied to. *)
From Stdlib Require Import String.
From S2P Require Import Prelude PyText Stamps QueueRows Regex Spill Messages Microcompact Policy PoolRun Meter ToolCatalog ToolCalls Relief Turn Dispatch TurnLoop.

Local Open Scope Z_scope.

Definition sample_relief : relief_options :=
  ReliefOptions false [] None (fun n => n) (fun n => n) 0 None false 0 false false [] 0 1 false 0 []
    (ImagesCfg 4 1000000 1 1).

Definition sample_tools : discovery :=
  [(u "lloyd", [McpTool (u "Read") (u "Read a file") [] true; McpTool (u "Bash") (u "Run a command") [] false])].

(** Two iterations, two calls at once, [denied] disabled. *)
Definition sample_options (max_turns : Z) (denied : list text) (hooks : option (list pre_hook)) : run_options :=
  RunOptions max_turns false [] [] (u "You are Lloyd.") (u "s1") 4 false 8 denied None [] sample_tools false hooks
    false false false false 1 1 0 0 sample_relief true 2 ∅ false false false 0 [] 5 20 None [].

(** The answers: the engine plays [script] by iteration, the last call in flight lands
    first, every tool answers with its own name. *)
Definition sample_answer (script : Z -> reply) {A} (q : ask A) : A :=
  match q in ask A return A with
  | AskStream r => script r.(rq_iteration)
  | AskBackoff => tt
  | AskDrain => None
  | AskAnchor _ => None
  | AskRefresh => None
  | AskIds => fun _ => u "made-up"
  | AskYield _ => tt
  | AskOnEvent _ => tt
  | AskPreHook _ _ _ _ _ => Passed
  | AskPostHook _ _ _ _ => tt
  | AskTool d => (Answered (ToolAnswer d.(dp_name) false false), false)
  | AskShape _ _ content => (content, [])
  | AskNext running => (length running - 1)%nat
  | AskFinalizer _ _ _ _ => (None, [], ∅)
  end.

Definition note : message := plain_row "user" (u "an observer's note").

(** What arrives meanwhile: a note with each announced result. *)
Definition sample_rows {A} (q : ask A) : list message :=
  match q with AskOnEvent (EvToolResult _) => [note] | _ => [] end.

Definition sample_env (script : Z -> reply) : environment unit :=
  Environment (fun A q w => (sample_answer script q, sample_rows q, w)) (fun _ => false).

Definition sample_outside : outside unit := Outside tt ∅ ∅ ∅ 0.

Definition sample_call (id name : string) : call := Call (u id) (u "function") (u name) (u "{}") [] [].

Definition sample_turn : turn :=
  Turn (new_meter 1000) latch0 (LoadedToolSet [] ∅ ∅ false [] false) ∅ ∅ [] ∅ (Captions 0 0 false) 0 (u "stop") 0 false 0 0
    false None WNone [] 0.

(** Chunks of a completion: one of text, one with these calls. *)
Definition said_text (t : string) : chunk := Chunk [] (Some (Delta (u t) None None [] (u "stop"))).
Definition said_calls (calls : list (string * string)) : chunk :=
  Chunk [] (Some (Delta [] None None
    (imap (fun i c => TcDelta (Z.of_nat i) (u c.1) (u "function") (u c.2) (u "{}")) calls) (u "tool_calls"))).

(** A codec that reads the empty object. *)
Definition sample_py : PyJson :=
  {| py_repr _ := []; py_shown _ := [];
     parse_json t := if decide (t = u "{}") then Some (JObj []) else None; dump_json _ := [] |}.
Definition sample_decoder : JsonDecoder := {| raw_decode _ := None; decode_error _ := u "no JSON" |}.

(** Two calls at once that land in the opposite order, then an answer. *)
Definition two_calls (n : Z) : reply :=
  if n =? 1 then Streamed [said_calls [("a", "Read"); ("b", "Read")]%string] None
  else Streamed [said_text "done"] None.
