(* ===== verification/LoopFacts.v ===== *)
(** * The turn loop ends, and asks the engine a bounded number of times

    Whatever the engine, the tools, the hooks and the caller answer, a run of
    [run_query] comes to an end, within a number of requests its options fix. *)
From Stdlib Require Import String.
From S2P Require Import Prelude PyText Stamps QueueRows Regex Spill Messages Microcompact Policy PoolRun Meter ToolCatalog ToolCalls Relief Turn Dispatch TurnLoop TurnLogic.

Local Open Scope Z_scope.

(** The requests of a trace. *)
Definition requests (log : list entry) : list request :=
  omap (fun e => match e with Sent r => Some r | _ => None end) log.

Lemma requests_app a b : requests (a ++ b) = requests a ++ requests b.
Proof. apply omap_app. Qed.

(** What is left of the retries a run may make of one iteration. *)
Definition credit (o : run_options) (t : turn) : Z :=
  Z.max 0 (o.(o_stream_retry_max) - t.(t_stream_retries)) + Z.max 0 (o.(o_max_recoveries) - t.(t_recoveries))
  + (if t.(t_images_latched) then 0 else 1) + Z.max 0 (_MAX_ECHO_GUARD_REPROMPTS - t.(t_reprompts)).

(** The measure of the loop: the iterations left and the retries left. *)
Definition left_to_do (o : run_options) (t : turn) : Z :=
  Z.max 0 (o.(o_max_turns) - t.(t_num_turns)) + credit o t.

(** A run makes at most this many requests. *)
Definition request_bound (o : run_options) : Z :=
  Z.max 0 o.(o_max_turns) + Z.max 0 o.(o_stream_retry_max) + Z.max 0 o.(o_max_recoveries) + 3.

Section Facts.
Context {E : Type} (env : environment E).
Context {DK : Disk} {JT : JsonText} {PJ : PyJson} {JD : JsonDecoder} {PU : PyUnicode}.
Variables (sessions_dir : text) (resolve : text -> text) (image_tokens : Z) (shot_bytes : message -> Z)
          (sidecar_writable : bool).
Variables (lower_text : text -> text) (dump_compact : json -> text) (sha1_hex : text -> text).

Notation prelude := (_prelude env sessions_dir resolve image_tokens sidecar_writable).
Notation stream := (_stream_iteration env sessions_dir resolve image_tokens sidecar_writable).
Notation finish := (_end_without_tools env sessions_dir resolve image_tokens sidecar_writable).
Notation pass := (pass env sessions_dir resolve image_tokens shot_bytes sidecar_writable lower_text dump_compact).
Notation loop := (loop env sessions_dir resolve image_tokens shot_bytes sidecar_writable lower_text dump_compact).
Notation run := (run_query env sessions_dir resolve image_tokens shot_bytes sidecar_writable lower_text dump_compact sha1_hex).

Implicit Types (s : run_state E) (o : run_options).

(** What the measure reads of a state. *)
Definition counts (t : turn) : Z * Z * bool * Z * Z * wrapup :=
  (t.(t_num_turns), t.(t_recoveries), t.(t_images_latched), t.(t_reprompts), t.(t_stream_retries), t.(t_wrapup)).

(** The counters and the requests so far are as they were. *)
Definition same s s' : Prop :=
  counts (x_turn s') = counts (x_turn s) /\ requests (x_log s') = requests (x_log s).

#[local] Instance same_preorder : PreOrder same.
Proof. split; [by intros s|]. intros s1 s2 s3 [H1 H2] [H3 H4]. split; congruence. Qed.

Lemma same_turn s t w : tallies (x_turn s) = tallies t -> same s (RunState t (x_msgs s) w (x_log s)).
Proof. intros Ht. split; [|done]. unfold tallies, counts in *. simpl. congruence. Qed.

Lemma same_msgs s ms : same s (RunState (x_turn s) ms (x_out s) (x_log s)).
Proof. done. Qed.

Lemma same_query A (q : ask A) : (forall a, requests (entries q a) = []) -> moves same (query env q).
Proof.
  intros Hq s. apply wp_query. intros a rows w _. split; [done|]. simpl. by rewrite requests_app, Hq, app_nil_r.
Qed.
Lemma same_ask A (q : ask A) : loud q = false -> moves same (query env q).
Proof. intros Hq. apply same_query. by destruct q. Qed.
Lemma same_yield e : moves same (query env (AskYield e)).
Proof. by apply same_query. Qed.
Lemma same_tool d : moves same (query env (AskTool d)).
Proof. by apply same_query. Qed.

Lemma same_modify (f : turn -> turn) : (forall t, counts (f t) = counts t) -> moves same (modify f).
Proof. intros Hf s. apply wp_modify. split; [apply Hf|done]. Qed.

Hint Resolve same_turn same_msgs same_ask same_yield same_tool same_modify : same.
Hint Extern 1 (moves same (modify _)) => by apply same_modify : moves.
Hint Extern 1 (moves same (query env _)) => by apply same_ask : moves.

(** Discharge a [moves same] goal with the lemma of its operation. *)
Ltac same_by L := eapply L; solve [eauto with same | exact _].
Hint Extern 1 (moves same get_turn) => same_by @moves_get_turn : moves.
Hint Extern 1 (moves same get_msgs) => same_by @moves_get_msgs : moves.
Hint Extern 1 (moves same (is_cancelled _ _)) => same_by @moves_is_cancelled : moves.
Hint Extern 1 (moves same (put_msgs _)) => same_by @moves_put_msgs : moves.
Hint Extern 1 (moves same (extend _)) => same_by @moves_extend : moves.
Hint Extern 1 (moves same (remeter _)) => same_by @moves_remeter : moves.
Hint Extern 1 (moves same (yield_ _ _)) => same_by @moves_say : moves.
Hint Extern 1 (moves same (yield_retry _ _ _ _)) => same_by @moves_retry : moves.
Hint Extern 1 (moves same (fire_on_event _ _ _)) => same_by @moves_fire : moves.
Hint Extern 1 (moves same (relieve _ _ _ _ _ _ _ _)) => same_by @moves_relieve : moves.
Hint Extern 1 (moves same (splice _ _)) => same_by @moves_splice : moves.
Hint Extern 1 (moves same (current_disallowed _ _)) => same_by @moves_disallowed : moves.
Hint Extern 1 (moves same (take_chunks _ _ _)) => same_by @moves_chunks : moves.
Hint Extern 1 (moves same (_dispatch_batch _ _ _ _ _ _ _)) => same_by @moves_dispatch : moves.
Hint Extern 1 (moves same (_after_batch _ _ _ _ _ _)) => same_by @moves_after : moves.
Hint Extern 1 (moves same (_close_turn _ _)) => same_by @moves_close : moves.

(** ** The phases, by their counters *)

(** [wp] of a move: what it keeps is all that is known afterwards. *)
Lemma wp_same {A} (m : st (run_state E) A) (Q : outcome A -> run_state E -> Prop) s :
  moves same m -> (forall r s', same s s' -> Q r s') -> wp m Q s.
Proof. apply wp_moves. Qed.

Lemma budget_counts o s :
  wp (check_budget env image_tokens o) (fun r s' =>
    requests (x_log s') = requests (x_log s) /\
    (counts (x_turn s') = counts (x_turn s)
       /\ (r = Ok true -> t_num_turns (x_turn s) <= o_max_turns o \/ t_wrapup (x_turn s) = WRequested)
     \/ counts (x_turn s') = ((counts (x_turn s)).1, WRequested))) s.
Proof.
  unfold check_budget. apply wp_bind, wp_get_turn. destruct (_ <=? _) eqn:Eb; bool_simp.
  { apply wp_ret. split; [done|]. left. split; [done|]. by left. }
  apply wp_bind, wp_modify, wp_bind, wp_is_cancelled. intros stopped.
  destruct (_ && _ && _).
  - apply wp_bind, wp_modify. apply wp_bind.
    apply wp_same; [moves_auto|]. intros [?|e] s1 [Hc1 Hr1]; [|split; [done|]; by right].
    apply wp_same; [moves_auto|]. intros r s2 [Hc2 Hr2]. split; [by rewrite Hr2, Hr1|]. right. by rewrite Hc2, Hc1.
  - destruct (t_wrapup (x_turn s)) eqn:Ew.
    + apply wp_ret. split; [done|]. by left.
    + apply wp_bind, wp_modify, wp_ret. split; [done|]. left. split; [done|]. by right.
    + apply wp_ret. split; [done|]. by left.
Qed.

(** After the head of an iteration that goes on: one more turn counted, within the
    budget or on the wrap-up request. *)
Lemma prelude_counts o s :
  wp (prelude o) (fun r s' =>
    let t := set_num_turns (t_num_turns (x_turn s) + 1) (x_turn s) in
    requests (x_log s') = requests (x_log s) /\
    (counts (x_turn s') = counts t
       /\ (forall it, r = Ok (Some it) -> t_num_turns t <= o_max_turns o \/ t_wrapup t = WRequested)
     \/ counts (x_turn s') = ((counts t).1, WRequested))) s.
Proof.
  unfold _prelude. apply wp_bind, wp_modify, wp_bind.
  eapply wp_mono; [apply budget_counts|]. intros [go|e] s1 [Hr Hc]; cbn [x_turn x_log] in Hr, Hc.
  2: { split; [done|]. destruct Hc as [[Hc _]|Hc]; [left|right]; done. }
  assert (Rest : forall (m : st (run_state E) (option iteration)) (s2 : run_state E),
    (forall it, (m s2).1 = Ok (Some it) -> go = true) -> moves same m -> same s1 s2 ->
    wp m (fun r s' => requests (x_log s') = requests (x_log s) /\
      (counts (x_turn s') = counts (set_num_turns (t_num_turns (x_turn s) + 1) (x_turn s))
         /\ (forall it, r = Ok (Some it) -> t_num_turns (set_num_turns (t_num_turns (x_turn s) + 1) (x_turn s)) <= o_max_turns o
              \/ t_wrapup (set_num_turns (t_num_turns (x_turn s) + 1) (x_turn s)) = WRequested)
       \/ counts (x_turn s') = ((counts (set_num_turns (t_num_turns (x_turn s) + 1) (x_turn s))).1, WRequested))) s2).
  { intros m s2 Hgo Hm [Hc2 Hr2]. apply wp_of. intros r s' Em. rewrite Em in Hgo. cbn [fst] in Hgo.
    destruct (wp_run _ _ _ _ _ (Hm s2) Em) as [Hc' Hr'].
    split; [congruence|]. destruct Hc as [[Hc Hb]|Hc]; [left|right; congruence].
    split; [congruence|]. intros it ->. apply Hb. f_equal. by eapply Hgo. }
  destruct go; simpl.
  - apply Rest; [done| |done]. moves_auto.
  - apply Rest; [by intros it [=]|apply moves_ret; exact _|done].
Qed.

(** A request that is to be repeated: one retry of its kind spent, the turn not counted. *)
Definition retried o (t t' : turn) : Prop :=
  t_num_turns t' = t_num_turns t - 1 /\ credit o t' < credit o t.

Lemma counts_inv t t' : counts t' = counts t ->
  t_num_turns t' = t_num_turns t /\ t_wrapup t' = t_wrapup t /\ forall o, credit o t' = credit o t.
Proof.
  unfold counts. intros [= E1 E2 E3 E4 E5 E6]. split; [done|]. split; [done|].
  intros o. unfold credit. by rewrite E2, E3, E4, E5.
Qed.

Lemma retried_same o s1 s2 s : same s1 s2 -> retried o (x_turn s) (x_turn s1) -> retried o (x_turn s) (x_turn s2).
Proof. intros [(En & _ & Ec)%counts_inv _] [Hn Hd]. split; [congruence|]. by rewrite Ec. Qed.

(** Step over an operation that keeps the counters. *)
Tactic Notation "skip" "to" ident(s1) :=
  apply wp_bind; apply wp_same; [solve [moves_auto]|]; intros [?|?] s1 [? ?]; cbn beta iota zeta;
  cbn [x_turn x_log] in *;
  [|split; [congruence|done]].

(** The end of every retry: the turn is not counted. *)
Lemma uncount_retried o t0 {A} (a : A) (Q : outcome A -> run_state E -> Prop) s :
  t_num_turns (x_turn s) = t_num_turns t0 -> credit o (x_turn s) < credit o t0 ->
  (forall s', requests (x_log s') = requests (x_log s) -> retried o t0 (x_turn s') -> Q (Ok a) s') ->
  wp (sbind uncount_turn (fun _ => sret a)) Q s.
Proof.
  intros Hn Hd HQ. apply wp_bind, wp_modify, wp_ret. apply HQ; [done|].
  unfold retried, credit in *. simpl. split; [congruence|lia].
Qed.

Lemma broken_counts o b it s :
  wp (broken_stream env o b it) (fun r s' => requests (x_log s') = requests (x_log s) /\
    match r with
    | Ok (Continue, _) => retried o (x_turn s) (x_turn s')
    | Ok (Through, _) => counts (x_turn s') = counts (x_turn s)
    | Ok (Break, _) => False
    | Raise _ => True
    end) s.
Proof.
  unfold broken_stream. destruct (_ || _); [by apply wp_raise|].
  apply wp_bind. apply wp_same; [moves_auto|]. intros [?|e] s1 [Hc1 Hr1]; [|done].
  apply wp_bind, wp_is_cancelled. intros stopped. apply wp_bind, wp_get_turn.
  destruct (_ && _ && _); [by apply wp_ret|]. destruct (_ && _ && _) eqn:Eg.
  - bool_simp. apply wp_bind, wp_modify, wp_bind.
    apply wp_same; [moves_auto|]. intros [?|e] s2 [Hc2 Hr2]; [|split; [by rewrite Hr2|done]].
    apply wp_bind. apply wp_same; [moves_auto|]. intros [?|e] s3 [Hc3 Hr3]; [|split; [by rewrite Hr3, Hr2|done]].
    apply counts_inv in Hc1 as (N1 & _ & C1), Hc2 as (N2 & _ & C2), Hc3 as (N3 & _ & C3).
    apply (uncount_retried o (x_turn s)); [by rewrite N3, N2|rewrite C3, C2, <- (C1 o); unfold credit; simpl; lia|].
    intros s4 Hr4 Hd. split; [by rewrite Hr4, Hr3, Hr2|done].
  - destruct (is_parse b); [|by apply wp_raise]. apply wp_bind, wp_modify, wp_ret. done.
Qed.

Lemma overflow_counts o requested n it s :
  wp (overflowed env sessions_dir resolve image_tokens sidecar_writable o requested n it)
     (fun r s' => requests (x_log s') = requests (x_log s) /\
        forall a, r = Ok a -> a = (Continue, it) /\ retried o (x_turn s) (x_turn s')) s.
Proof.
  unfold overflowed. apply wp_bind, wp_get_turn. destruct (_ <=? _) eqn:Eb; bool_simp; [by apply wp_raise|].
  apply wp_bind, wp_modify, wp_bind.
  apply wp_same; [moves_auto|]. intros [?|e] s1 [Hc1 Hr1]; [|done].
  apply wp_bind, wp_get_turn, wp_bind. apply wp_same; [moves_auto|].
  intros [?|e] s2 [Hc2 Hr2]; [|split; [by rewrite Hr2|done]].
  apply wp_bind. apply wp_same; [moves_auto|]. intros [?|e] s3 [Hc3 Hr3]; [|split; [by rewrite Hr3, Hr2|done]].
  apply counts_inv in Hc1 as (N1 & _ & C1), Hc2 as (N2 & _ & C2), Hc3 as (N3 & _ & C3).
  apply (uncount_retried o (x_turn s)); [by rewrite N3, N2, N1|rewrite C3, C2, C1; unfold credit; simpl; lia|].
  intros s4 Hr4 Hd. split; [by rewrite Hr4, Hr3, Hr2|]. by intros ? [= <-].
Qed.

Lemma images_counts o why it s :
  wp (images_refused env why it)
     (fun r s' => requests (x_log s') = requests (x_log s) /\
        forall a, r = Ok a -> a = (Continue, it) /\ retried o (x_turn s) (x_turn s')) s.
Proof.
  unfold images_refused. apply wp_bind, wp_get_turn. destruct (t_images_latched (x_turn s)) eqn:El; [by apply wp_raise|].
  apply wp_bind, wp_modify, wp_bind, wp_get_msgs, wp_bind, wp_put_msgs, wp_bind.
  apply wp_same; [moves_auto|]. intros [?|e] s3 [Hc3 Hr3]; [|done].
  apply counts_inv in Hc3 as (N3 & _ & C3).
  apply (uncount_retried o (x_turn s)); [by rewrite N3|rewrite C3; unfold credit; simpl; rewrite El; lia|].
  intros s4 Hr4 Hd. split; [by rewrite Hr4, Hr3|]. by intros ? [= <-].
Qed.

Lemma commit_counts o n it s :
  wp (commit env image_tokens o n it) (fun r s' => requests (x_log s') = requests (x_log s) /\
    match r with
    | Ok (Through, _) => counts (x_turn s') = counts (x_turn s) /\ t_wrapup (x_turn s) <> WRequested
    | Ok (Continue, _) => False
    | _ => True
    end) s.
Proof.
  unfold commit. skip to s1. skip to s2. apply wp_bind, wp_get_turn. skip to s3. skip to s4. skip to s5. skip to s6.
  skip to s7. skip to s8. skip to s9. skip to s10. skip to s11. skip to s12. skip to s13.
  assert (W : t_wrapup (x_turn s2) = t_wrapup (x_turn s)) by (unfold counts in *; congruence).
  destruct (t_wrapup (x_turn s2)) eqn:Ew.
  - apply wp_ret. split; [congruence|]. split; congruence.
  - apply wp_bind, wp_modify, wp_ret. split; [simpl; congruence|done].
  - apply wp_ret. split; [congruence|]. split; congruence.
Qed.

Lemma stream_counts o it s :
  wp (stream o it) (fun r s' =>
    length (requests (x_log s')) = S (length (requests (x_log s))) /\
    match r with
    | Ok (Continue, _) => retried o (x_turn s) (x_turn s')
    | Ok (Through, _) => counts (x_turn s') = counts (x_turn s) /\ t_wrapup (x_turn s) <> WRequested
    | _ => True
    end) s.
Proof.
  unfold _stream_iteration. apply wp_bind, wp_get_turn, wp_bind, wp_get_msgs, wp_bind, wp_query.
  intros answered rows w _. set (s1 := RunState _ _ _ _).
  assert (L : length (requests (x_log s1)) = S (length (requests (x_log s)))).
  { subst s1. simpl. rewrite requests_app, length_app. simpl. lia. }
  assert (Hs : counts (x_turn s1) = counts (x_turn s)) by done.
  destruct answered as [requested|why|chunks ending].
  - eapply wp_mono; [apply overflow_counts|]. intros r s' [Hr Ha]. split; [by rewrite Hr|].
    destruct r as [[how it']|e]; [|done]. by destruct (Ha _ eq_refl) as [[= -> ->] Hd].
  - eapply wp_mono; [apply images_counts|]. intros r s' [Hr Ha]. split; [by rewrite Hr|].
    destruct r as [[how it']|e]; [|done]. by destruct (Ha _ eq_refl) as [[= -> ->] Hd].
  - apply wp_bind. apply wp_same; [moves_auto|]. intros [it1|e] s2 [Hc2 Hr2]; [|split; [congruence|done]].
    apply wp_bind. eapply (wp_mono _ (fun r s3 => requests (x_log s3) = requests (x_log s2) /\ match r with
      | Ok (Continue, _) => retried o (x_turn s2) (x_turn s3)
      | Ok (Through, _) => counts (x_turn s3) = counts (x_turn s2)
      | Ok (Break, _) => False | Raise _ => True end)).
    { destruct ending as [b|]; [apply broken_counts|by apply wp_ret]. }
    intros [[how it2]|e] s3 [Hr3 H3]; [|split; [congruence|done]]. cbn beta iota.
    destruct how; [| |done].
    + apply wp_bind, wp_is_cancelled. intros [|].
      * apply wp_bind, wp_modify, wp_ret. split; [simpl; congruence|done].
      * eapply wp_mono; [apply commit_counts|]. intros r s4 [Hr4 H4]. split; [congruence|].
        destruct r as [[[] ?]|e]; try done. destruct H4 as [Hc4 Hw].
        assert (Ec : counts (x_turn s3) = counts (x_turn s)) by congruence. split; [congruence|].
        destruct (counts_inv _ _ Ec) as (_ & Ew & _). congruence.
    + apply wp_ret. split; [congruence|]. destruct H3 as [Hn Hd].
      assert (Ec : counts (x_turn s2) = counts (x_turn s)) by congruence.
      destruct (counts_inv _ _ Ec) as (En & _ & Eo). unfold retried. rewrite <- En, <- Eo. done.
Qed.

Definition goes_on o (t t' : turn) : Prop :=
  t_num_turns t' = t_num_turns t /\ credit o t' <= credit o t \/ retried o t t'.

Lemma finish_counts o it s :
  wp (finish o it) (fun r s' => requests (x_log s') = requests (x_log s) /\
    (r = Ok Continue -> goes_on o (x_turn s) (x_turn s'))) s.
Proof.
  unfold _end_without_tools. apply wp_bind, wp_get_turn.
  destruct (t_broken (x_turn s)); [by apply wp_bind, wp_modify, wp_ret|].
  destruct (it_injected it).
  { unfold answer_inject. skip to s1. apply wp_bind, wp_get_turn. skip to s2. apply wp_bind, wp_get_turn.
    destruct (below_floor o (t_meter (x_turn s2))); [apply wp_bind, wp_modify, wp_ret|apply wp_ret]; (split; [simpl; congruence|]); [done|].
    intros _. left. destruct (counts_inv (x_turn s) (x_turn s2)) as (En & _ & Ec); [congruence|]. by rewrite En, Ec. }
  destruct (_ && _ && _ && _) eqn:Eg; [|by apply wp_bind, wp_modify, wp_ret]. bool_simp.
  unfold echo_reprompt. apply wp_bind, wp_get_turn, wp_bind, wp_modify. destruct (o_echo_reissue o).
  - apply wp_bind, wp_get_msgs. skip to s1. skip to s2. skip to s3. skip to s4. skip to s5.
    match goal with H : counts (x_turn s1) = _ |- _ => rename H into C1 end.
    destruct (counts_inv (set_reprompts (t_reprompts (x_turn s) + 1) (x_turn s)) (x_turn s5)) as (En & _ & Ec); [congruence|].
    apply (uncount_retried o (x_turn s)); [done| |].
    + rewrite Ec. unfold credit. simpl. unfold _MAX_ECHO_GUARD_REPROMPTS in *. lia.
    + intros s6 Hr6 Hd. split; [simpl in *; congruence|]. intros _. by right.
  - apply wp_bind, wp_extend, wp_ret. split; [done|]. intros _. left. unfold credit. simpl. lia.
Qed.

Lemma pass_counts o s :
  wp (pass o) (fun r s' =>
    (length (requests (x_log s')) <= S (length (requests (x_log s))))%nat /\
    (r = Ok Continue -> left_to_do o (x_turn s') < left_to_do o (x_turn s))) s.
Proof.
  unfold TurnLoop.pass. apply wp_bind. eapply wp_mono; [apply prelude_counts|].
  intros [[it|]|e] s1 [Hr1 Hc1]; cbn beta iota; [|apply wp_ret; split; [rewrite Hr1; lia|done]|split; [rewrite Hr1; lia|done]].
  assert (B1 : credit o (x_turn s1) = credit o (x_turn s) /\ t_num_turns (x_turn s1) = t_num_turns (x_turn s) + 1
    /\ (t_num_turns (x_turn s) + 1 <= o_max_turns o \/ t_wrapup (x_turn s1) = WRequested)).
  { destruct Hc1 as [[Hc Hb]|Hc].
    - destruct (counts_inv _ _ Hc) as (En & Ew & Ec). rewrite Ec, En. split; [done|]. split; [done|].
      destruct (Hb it eq_refl) as [?|?]; [by left|right]. congruence.
    - unfold counts in Hc. injection Hc as E1 E2 E3 E4 E5 E6. unfold credit. rewrite E2, E3, E4, E5.
      split; [done|]. split; [done|]. by right. }
  destruct B1 as (C1 & N1 & W1). clear Hc1.
  apply wp_bind. eapply wp_mono; [apply stream_counts|]. intros [[how it2]|e] s2 [Hr2 H2]; cbn beta iota;
    [|split; [rewrite Hr2, Hr1; lia|done]].
  destruct how.
  - destruct H2 as [Hc2 Hw2]. destruct W1 as [W1|W1]; [|done]. destruct (counts_inv _ _ Hc2) as (N2 & _ & C2). specialize (C2 o).
    destruct (it_calls it2).
    + eapply wp_mono; [apply finish_counts|]. intros r s3 [Hr3 H3]. split; [rewrite Hr3, Hr2, Hr1; lia|].
      intros Hr. specialize (H3 Hr). unfold left_to_do. destruct H3 as [[N3 C3]|[N3 C3]]; lia.
    + apply wp_bind. apply wp_same; [moves_auto|]. intros [?|e] s3 [Hc3 Hr3]; [|split; [rewrite Hr3, Hr2, Hr1; lia|done]].
      apply wp_bind. apply wp_same; [moves_auto|]. intros [?|e] s4 [Hc4 Hr4]; [|split; [rewrite Hr4, Hr3, Hr2, Hr1; lia|done]].
      apply wp_ret. split; [rewrite Hr4, Hr3, Hr2, Hr1; lia|]. intros _.
      destruct (counts_inv _ _ Hc3) as (N3 & _ & C3), (counts_inv _ _ Hc4) as (N4 & _ & C4).
      specialize (C3 o). specialize (C4 o). unfold left_to_do. lia.
  - apply wp_ret. split; [rewrite Hr2, Hr1; lia|]. intros _. destruct H2 as [N2 D2]. unfold left_to_do. lia.
  - apply wp_ret. split; [rewrite Hr2, Hr1; lia|done].
Qed.

(** The loop ends within the measure, a request to a pass. *)
Lemma loop_counts o fuel : forall s, left_to_do o (x_turn s) < Z.of_nat fuel ->
  wp (loop fuel o) (fun r s' =>
    r <> Ok None /\
    Z.of_nat (length (requests (x_log s'))) <= Z.of_nat (length (requests (x_log s))) + left_to_do o (x_turn s) + 1) s.
Proof.
  induction fuel as [|fuel IH]; intros s Hf.
  { exfalso. unfold left_to_do, credit in Hf. destruct (t_images_latched (x_turn s)); lia. }
  assert (P : 0 <= left_to_do o (x_turn s)) by (unfold left_to_do, credit; destruct (t_images_latched (x_turn s)); lia).
  simpl. apply wp_bind. eapply wp_mono; [apply pass_counts|]. intros [how|e] s1 [Hr1 Hd]; cbn beta iota.
  2: { split; [done|]. lia. }
  destruct how; [apply wp_ret; split; [done|lia]| |apply wp_ret; split; [done|lia]].
  specialize (Hd eq_refl). eapply wp_mono; [apply IH; lia|]. intros r s2 [Hn Hr2]. split; [done|]. lia.
Qed.

Notation body := (run_body env sessions_dir resolve image_tokens shot_bytes sidecar_writable lower_text dump_compact).

Lemma body_counts o fuel s : left_to_do o (x_turn s) < Z.of_nat fuel -> requests (x_log s) = [] ->
  wp (body fuel o) (fun r s' =>
    r <> Ok None /\ Z.of_nat (length (requests (x_log s'))) <= left_to_do o (x_turn s) + 1) s.
Proof.
  intros Hf Hs. assert (P : 0 <= left_to_do o (x_turn s)) by (unfold left_to_do, credit; destruct (t_images_latched (x_turn s)); lia).
  unfold run_body. apply wp_bind. apply wp_same; [moves_auto|]. intros [?|e] s1 [Hc1 Hr1]; [|split; [done|rewrite Hr1, Hs; simpl; lia]].
  apply wp_bind, wp_get_msgs, wp_bind, wp_put_msgs, wp_bind.
  assert (L1 : left_to_do o (x_turn s1) = left_to_do o (x_turn s)).
  { destruct (counts_inv _ _ Hc1) as (En & _ & Ec). unfold left_to_do. by rewrite En, Ec. }
  eapply wp_mono; [apply loop_counts; cbn [x_turn]; by rewrite L1|].
  cbn [x_turn x_log]. rewrite L1, Hr1, Hs. intros [[[]|]|e] s2 [Hn Hr2]; cbn beta iota; [|done|split; [done|simpl in *; lia]].
  apply wp_bind. apply wp_same; [moves_auto|]. intros [?|e] s3 [Hc3 Hr3];
    [apply wp_ret|]; (split; [done|rewrite Hr3; simpl in *; lia]).
Qed.

(** C20: A run ends. Whatever the engine, the tools, the hooks and the caller answer, the
    loop of [run_query] comes to its end (more fuel than the bound never changes that),
    and it has sent at most [max_turns] requests, the wrap-up, the stream retries and the
    overflow recoveries the options allow, one resend without images and one of the echo
    guard. *)
Theorem run_terminates o m ms w extra :
  match run (Z.to_nat (request_bound o) + extra) o m ms w with
  | NotOpened _ _ => True
  | Ran r s => r <> Ok None /\ Z.of_nat (length (requests (x_log s))) <= request_bound o
  end.
Proof.
  unfold TurnLoop.run_query. destruct (_open_turn _ _ o m _ _) as [[[t ms1] w1]|e] eqn:Eo; [|done].
  assert (L0 : left_to_do o t <= request_bound o - 1).
  { unfold _open_turn in Eo. destruct (build_tool_list _ _) as [|catalog]; [done|].
    destruct (if o_tool_call_summaries o then _ else _) as [c names]. destruct (forallb _ _); [done|].
    destruct (_resolve_loaded_tool_set _ _ _ _ _). injection Eo as <- _ _.
    unfold left_to_do, credit, request_bound, _MAX_ECHO_GUARD_REPROMPTS. simpl. lia. }
  destruct (body (Z.to_nat (request_bound o) + extra) o (RunState t ms1 w1 [])) as [r s] eqn:Er. cbn [x_log].
  assert (B : left_to_do o (x_turn (RunState t ms1 w1 [])) < Z.of_nat (Z.to_nat (request_bound o) + extra)) by (simpl; lia).
  destruct (wp_run _ _ _ _ _ (body_counts o _ _ B eq_refl) Er) as [Hn Hr]. split; [done|]. simpl in Hr. lia.
Qed.
End Facts.
