(* ===== verification/BatchFacts.v ===== *)
(** * What a batch of tool calls does

    Every call the model made is announced once, in wire order, and answered once; only
    calls that pass the gates reach the tools; and the history holds the answers in wire
    order, whatever lands first and whatever observers append meanwhile. *)
From Stdlib Require Import String.
From S2P Require Import Prelude PyText Stamps QueueRows Regex Spill Messages Microcompact Policy PoolRun Meter ToolCatalog ToolCalls Relief Turn Dispatch TurnLoop TurnLogic TurnSamples.

Local Open Scope Z_scope.

(** ** The trace of a batch *)

Definition announced (log : list entry) : list text :=
  omap (fun e => match e with Yielded (EvToolCall id _ _ _ _) => Some id | _ => None end) log.
Definition resulted (log : list entry) : list text :=
  omap (fun e => match e with Yielded (EvToolResult r) => Some r.(r_call_id) | _ => None end) log.
Definition dispatched (log : list entry) : list dispatch :=
  omap (fun e => match e with Dispatched d => Some d | _ => None end) log.

(** The gates no hook takes part in: arguments that parsed, a tool that is neither
    disabled nor outside the allow-list. *)
Definition admissible (o : run_options) (dis : gset text) (tc : call) : Prop :=
  is_parse_error tc.(c_args) = false /\
  normalize_tool_name tc.(c_name) ∉ map normalize_tool_name (elements dis) /\
  match _allowed_names o with Some allowed => normalize_tool_name tc.(c_name) ∈ allowed | None => True end.

(** [l] holds the elements of [a] and those of [b], each in its own order. *)
Inductive weave {A} : list A -> list A -> list A -> Prop :=
| weave_nil : weave [] [] []
| weave_left x a b l : weave a b l -> weave (x :: a) b (x :: l)
| weave_right x a b l : weave a b l -> weave a (x :: b) (x :: l).

Lemma weave_lefts {A} (a : list A) : weave a [] a.
Proof. induction a; by constructor. Qed.
Lemma weave_rights {A} (a : list A) : weave [] a a.
Proof. induction a; by constructor. Qed.
Lemma weave_app {A} (a b l a' b' l' : list A) : weave a b l -> weave a' b' l' -> weave (a ++ a') (b ++ b') (l ++ l').
Proof. induction 1; intros; simpl; [done| |]; constructor; auto. Qed.

Lemma weave_sel {A} (p : A -> bool) a b l :
  weave a b l -> Forall (fun x => p x = true) a -> Forall (fun x => p x = false) b ->
  sel p l = a /\ sel (fun x => negb (p x)) l = b.
Proof.
  induction 1 as [|x a b l W IH|x a b l W IH]; intros Ha Hb; simpl; [done| |].
  - apply Forall_cons in Ha as [Hx Ha]. rewrite Hx. simpl. destruct (IH Ha Hb) as [E1 E2]. by rewrite E1, E2.
  - apply Forall_cons in Hb as [Hx Hb]. rewrite Hx. simpl. destruct (IH Ha Hb) as [E1 E2]. by rewrite E1, E2.
Qed.

(** The tool messages of the history, each that of its call's result. *)
Definition tool_rows (calls : list call) (rows : list message) : Prop :=
  Forall2 (fun tc m => exists r allow, m = _tool_history_message tc.(c_id) r allow /\ r.(r_call_id) = tc.(c_id)) calls rows.

Lemma tool_history_row id r allow :
  let m := _tool_history_message id r allow in
  is_tool m = true /\ m.(m_call_id) = id /\ m.(m_tool_calls) = [].
Proof. unfold _tool_history_message. destruct (shown_shots r) as [|sh rest]; [done|]. by destruct allow. Qed.

(** A search raises on a bare plus, and on nothing else. *)
Lemma split_once_blank t : split_once t = [] -> Forall (fun c => isspace c = true) t.
Proof.
  unfold split_once. assert (K : lstrip t = [] -> Forall (fun c => isspace c = true) t).
  { clear. induction t as [|c t IH]; simpl; [done|]. destruct (isspace c) eqn:Ec; [auto|done]. }
  assert (H : match lstrip t with c :: _ => isspace c = false | [] => True end).
  { clear. induction t as [|c t IH]; simpl; [done|]. by destruct (isspace c) eqn:Ec. }
  destruct (lstrip t) as [|c r]; [by intros _; apply K|]. simpl. rewrite H. simpl.
  destruct (span _ r) as [w rest]. by destruct (lstrip rest).
Qed.

Lemma search_raises dump lower q n catalog e :
  search_tools dump lower q n catalog = Raise e <-> e = IndexError /\ strip q = u "+".
Proof.
  unfold search_tools. split.
  2: { intros [-> ->]. done. }
  destruct (strip q) as [|c t] eqn:Eq; [done|]. destruct (startswith _ _); [done|].
  destruct (c =? 43)%N eqn:Ec; [|done]. apply N.eqb_eq in Ec as ->.
  change (drop 1 (43%N :: t)) with (drop 0 t). rewrite drop_0.
  destruct (split_once t) as [|w [|rest l]] eqn:Es; [|done|done]. simpl.
  intros [= <-]. split; [done|]. apply split_once_blank in Es.
  destruct (list.last t) as [d|] eqn:El; [|apply last_None in El as ->; vm_compute; reflexivity].
  exfalso. assert (isspace d = false) as Hd.
  { apply (rstrip_last (lstrip q)). fold (strip q). rewrite Eq. by destruct t. }
  apply last_Some_elem_of in El. rewrite Forall_forall in Es. specialize (Es d El). congruence.
Qed.

(** The call whose query is a bare plus. *)
Definition bare_plus {PJ : PyJson} (tc : call) : Prop :=
  normalize_tool_name tc.(c_name) = TOOLSEARCH_TOOL_NAME /\ strip (arg_text "query" [] tc.(c_args)) = u "+".

Lemma sent_more {A} (D r adm taken R : list A) : D ++ r ⊆+ taken -> (D ++ adm) ++ r ⊆+ taken ++ (R ++ adm).
Proof.
  intros Hs. transitivity ((D ++ r) ++ adm).
  - rewrite <- !app_assoc. by rewrite (Permutation_app_comm adm r).
  - apply submseteq_app; [done|]. by apply submseteq_inserts_l.
Qed.

Lemma numbered_lookup calls i tc : (i, tc) ∈ numbered calls -> calls !! i = Some tc.
Proof.
  unfold numbered. intros Hin. apply list_elem_of_lookup in Hin as [k Hk].
  apply lookup_zip_Some in Hk as [Hi Hc]. rewrite lookup_seq in Hi. destruct Hi as [-> _]. done.
Qed.
Lemma lookup_numbered calls i tc : calls !! i = Some tc -> (i, tc) ∈ numbered calls.
Proof.
  intros Hc. apply list_elem_of_lookup. exists i. apply lookup_zip_Some. split; [|done].
  apply lookup_seq. split; [done|]. by apply lookup_lt_Some in Hc.
Qed.
Lemma numbered_snd calls : map snd (numbered calls) = calls.
Proof. unfold numbered. apply snd_zip. by rewrite length_seq. Qed.
Lemma length_numbered calls : length (numbered calls) = length calls.
Proof. unfold numbered. rewrite length_zip_with, length_seq. lia. Qed.

(** At least one call is in flight. *)
Lemma concurrency_pos {PJ : PyJson} o calls : (0 < batch_concurrency o calls)%nat.
Proof. unfold batch_concurrency. destruct (_ && _); lia. Qed.

(** The reordering, whatever there is to move. *)
Lemma reorder_eq base ms :
  _reorder_batch_messages base ms
    = take base ms ++ sel is_tool (drop base ms) ++ sel (fun m => negb (is_tool m)) (drop base ms).
Proof.
  assert (Hs : forall (p : message -> bool) l, sel (fun m => negb (p m)) l = [] -> sel p l = l).
  { clear. intros p l. induction l as [|m l IH]; simpl; [done|]. destruct (p m); simpl; [|done]. intros Hl. by rewrite IH. }
  assert (Hs' : forall (p : message -> bool) l, sel p l = [] -> sel (fun m => negb (p m)) l = l).
  { clear. intros p l. induction l as [|m l IH]; simpl; [done|]. destruct (p m); simpl; [done|]. intros Hl. by rewrite IH. }
  unfold _reorder_batch_messages. destruct (_ <? _)%nat eqn:El; [symmetry; etransitivity; [|apply (take_drop base)]; f_equal|].
  - apply Nat.ltb_lt in El. destruct (drop base ms) as [|m [|m' l]]; simpl in *; [done| |lia]. by destruct (is_tool m).
  - destruct (sel (fun m => negb (is_tool m)) (drop base ms)) as [|x xs] eqn:Eo.
    { by rewrite (Hs _ _ Eo), app_nil_r, take_drop. }
    destruct (sel is_tool (drop base ms)) as [|y ys] eqn:Et; [|done]. rewrite <- Eo, (Hs' _ _ Et). simpl. by rewrite take_drop.
Qed.

Section Facts.
Context {E : Type} (env : environment E).
Context {DK : Disk} {JT : JsonText} {PJ : PyJson}.
Variables (sessions_dir : text) (shot_bytes : message -> Z) (lower_text : text -> text) (dump_compact : json -> text).
(** What is known of the rows the outside appends. *)
Context (P : message -> Prop).
Hypothesis env_rows : forall A (q : ask A) w, Forall P (answer env q w).1.2.

Notation pre := (_pre_dispatch env lower_text dump_compact).
Notation exec := (_execute_tool_call env sessions_dir).

Implicit Types (s : run_state E) (o : run_options) (dis : gset text).

(** From [s] to [s']: these announcements, results and dispatches, and rows satisfying
    [P] at the end of the history. *)
Definition did (an re : list text) (di : list dispatch) s s' : Prop :=
  announced (x_log s') = announced (x_log s) ++ an /\
  resulted (x_log s') = resulted (x_log s) ++ re /\
  dispatched (x_log s') = dispatched (x_log s) ++ di /\
  exists rows, x_msgs s' = x_msgs s ++ rows /\ Forall P rows.

Definition hushed : run_state E -> run_state E -> Prop := did [] [] [].

Lemma did_trans an re di an' re' di' s s1 s2 :
  did an re di s s1 -> did an' re' di' s1 s2 -> did (an ++ an') (re ++ re') (di ++ di') s s2.
Proof.
  intros (A1 & B1 & C1 & r1 & E1 & F1) (A2 & B2 & C2 & r2 & E2 & F2). unfold did.
  rewrite A2, A1, B2, B1, C2, C1, E2, E1, !app_assoc. do 3 (split; [done|]).
  exists (r1 ++ r2). split; [by rewrite app_assoc|]. by apply Forall_app.
Qed.

Lemma did_refl s : hushed s s.
Proof. unfold hushed, did. rewrite !app_nil_r. do 3 (split; [done|]). exists []. by rewrite app_nil_r. Qed.

#[local] Instance hushed_preorder : PreOrder hushed.
Proof. split; [intros s; apply did_refl|]. intros s1 s2 s3 H1 H2. by apply (did_trans [] [] [] [] [] [] s1 s2 s3). Qed.

Lemma did_query {A} (q : ask A) s : wp (query env q) (fun r s' => exists a, r = Ok a /\
  did (announced (entries q a)) (resulted (entries q a)) (dispatched (entries q a)) s s') s.
Proof.
  apply wp_query. intros a rows w Ha. exists a. split; [done|]. unfold did. simpl.
  unfold announced, resulted, dispatched. rewrite !omap_app. do 3 (split; [done|]). exists rows. split; [done|].
  pose proof (env_rows A q (x_out s)) as Hr. by rewrite Ha in Hr.
Qed.

Lemma hushed_turn s t w : tallies (x_turn s) = tallies t -> hushed s (RunState t (x_msgs s) w (x_log s)).
Proof. intros _. apply (did_refl s). Qed.

Lemma hushed_ask A (q : ask A) : loud q = false -> moves hushed (query env q).
Proof.
  intros Hq s. eapply wp_mono; [apply did_query|]. intros r s' (a & _ & Hd). destruct q; simpl in Hq; done.
Qed.

Hint Resolve hushed_turn hushed_ask : hush.
Ltac hush_by L := eapply L; solve [eauto with hush | exact _].

(** ** One call *)

Lemma announce_did o tc s :
  wp (announce env o tc) (fun r s' => r = Ok tt /\ did [tc.(c_id)] [] [] s s') s.
Proof.
  unfold announce. apply wp_bind. eapply wp_mono; [apply did_query|]. intros r s1 ([] & -> & H1).
  unfold fire_on_event. destruct (o_hooks o); [|by apply wp_ret].
  eapply wp_mono; [apply did_query|]. intros r s2 ([] & -> & H2). split; [done|]. apply (did_trans _ _ _ _ _ _ _ _ _ H1 H2).
Qed.

Lemma pre_hushed o dis tc : moves hushed (pre o dis tc).
Proof. hush_by @moves_pre. Qed.

(** What the gates decide without the hooks. *)
Lemma gates_onward o dis ls m tc :
  match gates_before_hooks o dis ls m tc with
  | Refused r => r.(r_call_id) = tc.(c_id)
  | Search q => normalize_tool_name tc.(c_name) = TOOLSEARCH_TOOL_NAME /\ q = arg_text "query" [] tc.(c_args)
  | Onward => admissible o dis tc
  end.
Proof.
  unfold gates_before_hooks, admissible. destruct (is_parse_error _) eqn:Ep; [done|].
  case_bool_decide; [done|]. cbn zeta.
  destruct (_allowed_names o) as [allowed|]; [case_bool_decide; [|done]|];
    (destruct (bool_decide (_ = TOOLSEARCH_TOOL_NAME)) eqn:Et, (ls_enabled ls); simpl; bool_simp; done).
Qed.

(** An operation that answers, unheard. *)
Definition answers {A} (m : st (run_state E) A) : Prop := forall s, wp m (fun r s' => (exists a, r = Ok a) /\ hushed s s') s.

Lemma wp_answers {A B} (m : st (run_state E) A) (k : A -> st (run_state E) B) Q s :
  answers m -> (forall a s', hushed s s' -> wp (k a) Q s') -> wp (sbind m k) Q s.
Proof. intros Hm Hk. apply wp_bind. eapply wp_mono; [apply Hm|]. intros r s' [[a ->] H]. by apply Hk. Qed.

Lemma answers_ret {A} (a : A) : answers (sret a).
Proof. intros s. apply wp_ret. split; [by exists a|apply did_refl]. Qed.
Lemma answers_query {A} (q : ask A) : loud q = false -> answers (query env q).
Proof.
  intros Hq s. eapply wp_mono; [apply did_query|]. intros r s' (a & -> & Hd). split; [by exists a|].
  by destruct q.
Qed.
Lemma answers_post o n t f i : answers (post_hook env o n t f i).
Proof. unfold post_hook. destruct (o_hooks o); [by apply answers_query|apply answers_ret]. Qed.
Lemma answers_fire o e : answers (fire_on_event env o e).
Proof. unfold fire_on_event. destruct (o_hooks o); [by apply answers_query|apply answers_ret]. Qed.
Lemma answers_write o ls : answers (put_loaded o ls).
Proof. intros s. unfold wp. simpl. split; [by eexists|]. by apply (hushed_turn s (set_loaded ls (x_turn s))). Qed.

Lemma walk_answers name args id summary hs : forall i d s,
  wp (walk_hooks env name args id summary i hs d) (fun r _ => exists out, r = Ok out) s.
Proof.
  induction hs as [|h hs IH]; intros i d s; simpl; [apply wp_ret; by eexists|].
  destruct (match ph_matcher h with Some m => _ | None => _ end); [apply IH|].
  apply wp_bind, wp_query. intros [|out|why] rows w _; [apply IH| |].
  - destruct (ho_deny out); [apply wp_ret; by eexists|apply IH].
  - destruct (ph_fail_closed h); [apply wp_ret; by eexists|apply IH].
Qed.

Lemma pre_answers o dis tc s :
  wp (pre o dis tc) (fun r s' => hushed s s' /\
    match r with
    | Ok (Some x) => x.(r_call_id) = tc.(c_id)
    | Ok None => admissible o dis tc
    | Raise e => e = IndexError /\ bare_plus tc
    end) s.
Proof.
  apply wp_of. intros r s' Er. split; [apply (wp_run _ _ _ _ _ (pre_hushed o dis tc s) Er)|]. revert r s' Er.
  cut (wp (pre o dis tc) (fun r _ => match r with
    | Ok (Some x) => x.(r_call_id) = tc.(c_id)
    | Ok None => admissible o dis tc
    | Raise e => e = IndexError /\ bare_plus tc
    end) s).
  { intros H r s' Er. apply (wp_run _ _ _ _ _ H Er). }
  unfold _pre_dispatch. apply wp_bind, wp_get_turn.
  pose proof (gates_onward o dis (t_loaded (x_turn s)) (t_meter (x_turn s)) tc) as Hg.
  destruct (gates_before_hooks _ _ _ _ _) as [r|q|]; [by apply wp_ret| |].
  - apply wp_bind, wp_lift. destruct (search_tools _ _ _ _ _) as [found|e] eqn:Es.
    + apply wp_answers; [apply answers_write|]. intros. by apply wp_ret.
    + apply search_raises in Es as [-> Es]. destruct Hg as [Hn ->]. by split.
  - apply wp_answers; [destruct (deferred _ _); [apply answers_write|apply answers_ret]|]. intros _ s1 _.
    destruct (o_hooks o) as [hs|]; [|by apply wp_ret]. apply wp_bind. eapply wp_mono; [apply walk_answers|].
    intros r s2 [out ->]. destruct out as [out|]; [|by apply wp_ret]. destruct (ho_deliver out); by apply wp_ret.
Qed.

Lemma exec_did o dis tc s :
  wp (exec o dis tc) (fun r s' => exists x, r = Ok x /\ x.(r_call_id) = tc.(c_id) /\
    did [] [] [dispatch_of dis tc] s s') s.
Proof.
  unfold _execute_tool_call. apply wp_bind. eapply wp_mono; [apply did_query|].
  intros r s1 ([ending stopped] & -> & H1). cbn beta iota zeta.
  assert (Fin : forall x s2, hushed s1 s2 -> r_call_id x = c_id tc ->
    wp (sret x) (fun r s' => exists x, r = Ok x /\ r_call_id x = c_id tc /\ did [] [] [dispatch_of dis tc] s s') s2).
  { intros x s2 H2 Hx. apply wp_ret. exists x. do 2 (split; [done|]). apply (did_trans _ _ _ _ _ _ _ _ _ H1 H2). }
  destruct (_ && _); [by apply Fin|].
  destruct ending as [a|why|why]; [|apply wp_answers; [apply answers_post|]; intros; by apply Fin..].
  apply wp_answers; [intros s2; split; [by eexists|apply did_refl]|]. intros d s2 H2.
  destruct (maybe_spill _ _ _ _ _ _ _ _) as [content d'].
  apply wp_answers; [intros s3; split; [by eexists|apply (did_refl s3)]|]. intros _ s3 H3.
  apply wp_answers; [destruct (ta_shots a); [by apply answers_query|apply answers_ret]|].
  intros [shown shots] s4 H4. apply wp_answers; [apply answers_post|]. intros _ s5 H5. apply Fin; [|done].
  by rewrite H2, H3, H4.
Qed.

(** ** The batch *)

Variables (o : run_options) (dis : gset text) (calls : list call) (nudge : option nat).
Notation numbered_ids l := (map (fun ic : nat * call => c_id ic.2) l).

(** The answers at hand are those of these calls. *)
Definition answered (R : list (nat * call)) (ready : list (nat * tool_result)) : Prop :=
  Forall2 (fun ic ir => ir.1 = ic.1 /\ ir.2.(r_call_id) = ic.2.(c_id)) R ready.

Definition cleared (l : list (nat * call)) : Prop := Forall (fun ic => admissible o dis ic.2) l.

(** What a batch has in hand, of the calls [taken] so far, of which [H] are handed out
    and [D] went to the tools. *)
Record holding (taken H D : list (nat * call)) (b : batch) : Prop := Holding {
  h_taken : numbered calls = taken ++ b_calls b;
  h_split : exists R, H ++ R ++ b_running b ≡ₚ taken /\ answered R (b_ready b);
  h_sent : D ++ b_running b ⊆+ taken;
  h_cleared : cleared (D ++ b_running b);
  h_has : forall i tc, (i, tc) ∈ H -> is_Some (b_results b !! i);
  h_of : forall i r, b_results b !! i = Some r -> exists tc, (i, tc) ∈ H /\ r_call_id r = c_id tc
}.

(** What the trace and the history tell of it, [w] results being written. *)
Definition told s0 (taken H D : list (nat * call)) (w : nat) s : Prop :=
  announced (x_log s) = announced (x_log s0) ++ numbered_ids taken /\
  resulted (x_log s) = resulted (x_log s0) ++ numbered_ids H /\
  dispatched (x_log s) = dispatched (x_log s0) ++ map (fun ic => dispatch_of dis ic.2) D /\
  exists a p rows, x_msgs s = x_msgs s0 ++ rows /\ weave a p rows /\ tool_rows (take w calls) a /\ Forall P p.

Lemma told_did s0 taken H D w s s' t' h' d' :
  told s0 taken H D w s -> did (numbered_ids t') (numbered_ids h') (map (fun ic => dispatch_of dis ic.2) d') s s' ->
  told s0 (taken ++ t') (H ++ h') (D ++ d') w s'.
Proof.
  intros (A1 & B1 & C1 & a & p & rows & E1 & W & T & F) (A2 & B2 & C2 & more & E2 & F2). unfold told.
  rewrite A2, A1, B2, B1, C2, C1, !map_app, !app_assoc. do 3 (split; [done|]).
  exists a, (p ++ more), (rows ++ more). split; [by rewrite E2, E1, app_assoc|].
  split; [|split; [done|by apply Forall_app]]. rewrite <- (app_nil_r a). apply weave_app; [done|apply weave_rights].
Qed.

Lemma told_hushed s0 taken H D w s s' : told s0 taken H D w s -> hushed s s' -> told s0 taken H D w s'.
Proof.
  intros T Hh. pose proof (told_did s0 taken H D w s s' [] [] [] T Hh) as T'. by rewrite !app_nil_r in T'.
Qed.

(** *** Admission *)

Definition stuck (r : exn) : Prop := r = IndexError /\ exists tc, tc ∈ calls /\ bare_plus tc.

Lemma admit_spec slots : forall rest0 ready0 adm0 s,
  (forall ic, ic ∈ rest0 -> ic.2 ∈ calls) ->
  wp (admit_calls env lower_text dump_compact o dis slots rest0 ready0 adm0) (fun r s' =>
    match r with
    | Ok (rest, ready, adm) => exists took R ready' adm',
        rest0 = took ++ rest /\ length took = Nat.min slots (length rest0) /\
        ready = ready0 ++ ready' /\ adm = adm0 ++ adm' /\
        R ++ adm' ≡ₚ took /\ answered R ready' /\ cleared adm' /\ did (numbered_ids took) [] [] s s'
    | Raise e => stuck e
    end) s.
Proof.
  induction slots as [|slots IH]; intros rest0 ready0 adm0 s Hin; destruct rest0 as [|[i tc] rest0]; simpl;
    try (apply wp_ret; exists [], [], [], []; rewrite !app_nil_r; repeat (split; [by try constructor|]); apply did_refl).
  apply wp_bind. eapply wp_mono; [apply announce_did|]. intros r s1 [-> H1].
  apply wp_bind. eapply wp_mono; [apply pre_answers|]. intros [[x|]|e] s2 [H2 Hx].
  - eapply wp_mono; [apply IH; set_solver|]. intros [[[rest ready] adm]|e] s3; [|done].
    intros (took & R & ready' & adm' & E1 & E2 & E3 & E4 & E5 & E6 & E7 & E8).
    exists ((i, tc) :: took), ((i, tc) :: R), ((i, x) :: ready'), adm'. simpl.
    split; [by rewrite E1|]. split; [by rewrite E2|]. split; [by rewrite E3, <- app_assoc|]. split; [done|].
    split; [by rewrite E5|]. split; [by constructor|]. split; [done|].
    apply (did_trans _ _ _ _ _ _ _ _ _ (did_trans _ _ _ _ _ _ _ _ _ H1 H2) E8).
  - eapply wp_mono; [apply IH; set_solver|]. intros [[[rest ready] adm]|e] s3; [|done].
    intros (took & R & ready' & adm' & E1 & E2 & E3 & E4 & E5 & E6 & E7 & E8).
    exists ((i, tc) :: took), R, ready', ((i, tc) :: adm'). simpl.
    split; [by rewrite E1|]. split; [by rewrite E2|]. split; [done|]. split; [by rewrite E4, <- app_assoc|].
    split; [by rewrite <- Permutation_middle, E5|]. split; [done|]. split; [by constructor|].
    apply (did_trans _ _ _ _ _ _ _ _ _ (did_trans _ _ _ _ _ _ _ _ _ H1 H2) E8).
  - destruct Hx as [-> Hx]. split; [done|]. exists tc. split; [|done]. apply (Hin (i, tc)). by left.
Qed.

Lemma execute_all_did adm : forall s,
  wp (execute_all env sessions_dir o dis adm) (fun r s' => exists rs, r = Ok rs /\ answered adm rs /\
    did [] [] (map (fun ic => dispatch_of dis ic.2) adm) s s') s.
Proof.
  induction adm as [|[i tc] adm IH]; intros s; simpl.
  - apply wp_ret. exists []. split; [done|]. split; [constructor|apply did_refl].
  - apply wp_bind. eapply wp_mono; [apply exec_did|]. intros r s1 (x & -> & Hx & H1).
    apply wp_bind. eapply wp_mono; [apply IH|]. intros r s2 (rs & -> & Hrs & H2). apply wp_ret.
    exists ((i, x) :: rs). split; [done|]. split; [by constructor|]. apply (did_trans _ _ _ _ _ _ _ _ _ H1 H2).
Qed.

Lemma pick_perm n running : running <> [] ->
  exists c others, pick_landed n running = Some (c, others) /\ c :: others ≡ₚ running.
Proof.
  intros Hne. unfold pick_landed. set (k := (n mod Nat.max 1 (length running))%nat).
  assert (k < length running)%nat as Hk.
  { pose proof (Nat.mod_upper_bound n (Nat.max 1 (length running))) as Hm. fold k in Hm.
    destruct running; [done|]. simpl in *. lia. }
  apply lookup_lt_is_Some in Hk as [c Hc]. rewrite Hc. exists c, (take k running ++ drop (S k) running).
  split; [done|]. by rewrite Permutation_middle, take_drop_middle.
Qed.
(** *** A round *)

Definition waiting (b : batch) : Prop := b_ready b <> [] \/ b_running b <> [].

(** Start the admitted calls: at one slot they run at once. *)
Lemma start_spec s c b taken took R H D rest ready' adm :
  holding taken H D b -> b_calls b = took ++ rest -> R ++ adm ≡ₚ took -> answered R ready' -> cleared adm ->
  (b_ready b <> [] \/ b_running b <> [] \/ took <> []) ->
  wp (if (c =? 1)%nat then rs <-s execute_all env sessions_dir o dis adm ;; sret ((b_ready b ++ ready') ++ rs, b_running b)
      else sret (b_ready b ++ ready', b_running b ++ adm)) (fun r s' => exists ready running d',
    r = Ok (ready, running) /\ waiting (Batch rest ready running (b_results b) (b_written b)) /\
    holding (taken ++ took) H (D ++ d') (Batch rest ready running (b_results b) (b_written b)) /\
    did [] [] (map (fun ic => dispatch_of dis ic.2) d') s s') s.
Proof.
  intros [Ht (R0 & Hp & HR) Hs Hc Hhas Hof] Hb Hsplit HR' Hadm Hne.
  assert (Hlen : took <> [] -> R <> [] \/ adm <> []).
  { intros Htook. destruct R; [|by left]. right. intros ->. by apply Permutation_nil in Hsplit. }
  assert (HlenR : R <> [] -> ready' <> []) by (intros HR1 ->; by inversion HR'; subst).
  assert (Ht' : numbered calls = (taken ++ took) ++ rest) by (by rewrite Ht, Hb, app_assoc).
  destruct (c =? 1)%nat.
  - apply wp_bind. eapply wp_mono; [apply execute_all_did|]. intros r s1 (rs & -> & Hrs & Hd). apply wp_ret.
    exists ((b_ready b ++ ready') ++ rs), (b_running b), adm. split; [done|]. split; [|split; [|done]].
    + unfold waiting. simpl. destruct Hne as [Hr|[Hr|Hr]]; [left|by right|left].
      * by destruct (b_ready b).
      * intros Hnil. apply app_nil in Hnil as [Hnil ->]. apply app_nil in Hnil as [_ ->].
        destruct (Hlen Hr) as [HR1|Ha]; [by apply HlenR|]. inversion Hrs; subst. done.
    + split; simpl; try done.
      * exists ((R0 ++ R) ++ adm). split; [|by repeat apply Forall2_app]. rewrite <- Hp, <- Hsplit. solve_Permutation.
      * rewrite <- Hsplit. by apply sent_more.
      * unfold cleared in *. rewrite !Forall_app in *. tauto.
  - apply wp_ret. exists (b_ready b ++ ready'), (b_running b ++ adm), []. rewrite app_nil_r.
    split; [done|]. split; [|split; [|apply did_refl]].
    + unfold waiting. simpl. destruct Hne as [Hr|[Hr|Hr]]; [left|right|].
      * by destruct (b_ready b).
      * by destruct (b_running b).
      * destruct (Hlen Hr) as [HR1|Ha]; [left|right]; intros Hnil; apply app_nil in Hnil as [_ ->]; [by apply HlenR|done].
    + split; simpl; try done.
      * exists (R0 ++ R). split; [|by apply Forall2_app]. rewrite <- Hp, <- Hsplit. solve_Permutation.
      * rewrite <- Hsplit. rewrite app_assoc, (Permutation_app_comm (D ++ b_running b)).
        rewrite (Permutation_app_comm taken), (Permutation_app_comm R), <- app_assoc.
        apply submseteq_app; [done|]. by apply submseteq_inserts_l.
      * unfold cleared in *. rewrite !Forall_app in *. tauto.
Qed.

(** Take the answer to hand out: one at hand, or that of the call that lands next. *)
Lemma take_spec s taken H D b :
  holding taken H D b -> waiting b ->
  wp (match b_ready b with
      | (i, r) :: ready => sret (Some (i, r, ready, b_running b))
      | [] =>
          n <-s query env (AskNext (map fst (b_running b))) ;;
          match pick_landed n (b_running b) with
          | Some ((i, tc), running) =>
              r <-s exec o dis tc ;;
              sret (Some (i, r, [], running))
          | None => sret None
          end
      end) (fun x s' => exists i r tc ready running d',
    x = Ok (Some (i, r, ready, running)) /\ r_call_id r = c_id tc /\
    did [] [] (map (fun ic => dispatch_of dis ic.2) d') s s' /\
    forall r', r_call_id r' = r_call_id r ->
      holding taken (H ++ [(i, tc)]) (D ++ d') (Batch (b_calls b) ready running (<[i := r']> (b_results b)) (b_written b))) s.
Proof.
  intros [Ht (R0 & Hp & HR) Hs Hc Hhas Hof] Hw. unfold waiting in Hw.
  assert (Hres : forall i tc r, r_call_id r = c_id tc ->
    (forall i' tc', (i', tc') ∈ H ++ [(i, tc)] -> is_Some (<[i := r]> (b_results b) !! i')) /\
    (forall i' r', <[i := r]> (b_results b) !! i' = Some r' -> exists tc', (i', tc') ∈ H ++ [(i, tc)] /\ r_call_id r' = c_id tc')).
  { intros i tc r Hr. split.
    - intros i' tc' Hi. rewrite lookup_insert_is_Some. destruct (decide (i = i')) as [|Hne]; [by left|right].
      split; [done|]. apply elem_of_app in Hi as [Hi|Hi]; [by eapply Hhas|]. set_solver.
    - intros i' r' Hi. rewrite lookup_insert_Some in Hi. destruct Hi as [[<- <-]|[_ Hi]].
      + exists tc. split; [set_solver|done].
      + destruct (Hof i' r' Hi) as (tc' & Htc & E1). exists tc'. split; [set_solver|done]. }
  destruct (b_ready b) as [|[i r] ready].
  - inversion HR; subst R0. apply wp_bind. eapply wp_mono; [apply (did_query (AskNext _))|]. intros x s1 (n & -> & H1).
    destruct (pick_perm n (b_running b)) as ([i tc] & running & -> & Hrun); [by destruct Hw|].
    apply wp_bind. eapply wp_mono; [apply exec_did|]. intros x s2 (r & -> & Hr & H2). apply wp_ret.
    exists i, r, tc, [], running, [(i, tc)]. split; [done|]. split; [done|].
    split; [apply (did_trans _ _ _ _ _ _ _ _ _ H1 H2)|]. intros r' Hr'. destruct (Hres i tc r') as [Q1 Q2]; [congruence|].
    split; simpl; try done.
    + exists []. split; [|done]. by rewrite <- Hp, <- Hrun, <- app_assoc.
    + rewrite <- Hrun in Hs. by rewrite <- app_assoc.
    + unfold cleared in *. rewrite <- Hrun in Hc. by rewrite <- app_assoc.
  - inversion HR as [|[i' tc] ? R ? [Ei Er] HR1]; subst R0. simpl in *. subst. apply wp_ret.
    exists i', r, tc, ready, (b_running b), []. split; [done|]. split; [done|]. split; [apply did_refl|].
    intros r' Hr'. destruct (Hres i' tc r') as [Q1 Q2]; [congruence|]. rewrite app_nil_r. split; simpl; try done.
    exists R. split; [|done]. by rewrite <- Hp, <- app_assoc.
Qed.

(** Write what can be written. *)
Definition gapped (b : batch) : Prop := (length calls <= b_written b)%nat \/ b_results b !! b_written b = None.

Lemma write_spec allow s0 taken H D fuel : forall b s,
  (length calls <= b_written b + fuel)%nat -> holding taken H D b -> told s0 taken H D (b_written b) s ->
  (b_written b <= length calls)%nat ->
  wp (write_results fuel calls allow b) (fun r s' => exists b', r = Ok b' /\
    holding taken H D b' /\ told s0 taken H D (b_written b') s' /\ (b_written b' <= length calls)%nat /\ gapped b') s.
Proof.
  induction fuel as [|fuel IH]; intros b s Hf Hh Ht Hw; simpl.
  { apply wp_ret. exists b. do 4 (split; [done|]). left. lia. }
  destruct (calls !! b_written b) as [tc|] eqn:Ec.
  2: { apply wp_ret. exists b. do 4 (split; [done|]). left. by apply lookup_ge_None in Ec. }
  destruct (b_results b !! b_written b) as [r|] eqn:Er.
  2: { apply wp_ret. exists b. do 4 (split; [done|]). by right. }
  apply wp_bind, wp_extend. pose proof (lookup_lt_Some _ _ _ Ec). apply IH; cbn [b_written].
  - lia.
  - destruct Hh. by split.
  - destruct Ht as (A1 & B1 & C1 & a & p & rows & E1 & W & T & F). split; [done|]. split; [done|]. split; [done|].
    exists (a ++ [_tool_history_message (c_id tc) r allow]), p, (rows ++ [_tool_history_message (c_id tc) r allow]).
    split; [by rewrite E1, <- app_assoc|]. split; [rewrite <- (app_nil_r p); apply weave_app; [done|apply weave_lefts]|].
    split; [|done]. rewrite (take_S_r _ _ _ Ec). apply Forall2_app; [done|]. constructor; [|constructor].
    exists r, allow. split; [done|]. destruct Hh as [Hta (R0 & Hp & _) _ _ _ Hof].
    destruct (Hof _ _ Er) as (tc' & Hin & ->). assert (Hn : (b_written b, tc') ∈ numbered calls).
    { rewrite Hta, <- Hp. set_solver. }
    apply numbered_lookup in Hn. congruence.
  - lia.
Qed.
Definition standing s0 (taken H D : list (nat * call)) b s : Prop :=
  holding taken H D b /\ told s0 taken H D (b_written b) s /\ (b_written b <= length calls)%nat /\ gapped b.

Notation round := (batch_round env sessions_dir lower_text dump_compact o dis calls nudge).
Notation rounds := (batch_loop env sessions_dir lower_text dump_compact).

(** A round of a batch that is not done hands out one answer. *)
Lemma round_spec s0 taken H D b c s :
  (0 < c)%nat -> batch_done b = false -> standing s0 taken H D b s ->
  wp (round c b) (fun r s' =>
    match r with
    | Ok b' => exists taken' H' D', length H' = S (length H) /\ standing s0 taken' H' D' b' s'
    | Raise e => stuck e
    end) s.
Proof.
  intros Hpos Hdone (Hh & Ht & Hw & _). unfold batch_round. apply wp_bind.
  eapply wp_mono; [apply admit_spec|].
  { intros ic Hic. rewrite <- (numbered_snd calls), (h_taken _ _ _ _ Hh). apply list_elem_of_fmap. exists ic.
    split; [done|]. set_solver. }
  intros [[[rest ready] adm]|e] s1; [|done]. intros (took & R & ready' & adm' & E1 & E2 & -> & -> & E5 & E6 & E7 & E8).
  rewrite app_nil_l. apply wp_bind.
  eapply wp_mono; [eapply (start_spec s1 c b taken took R H D rest ready' adm'); try done|].
  { unfold batch_done in Hdone. destruct (b_ready b); [|by left]. destruct (b_running b); [|by right; left]. right; right.
    destruct (b_calls b); [done|]. intros ->. simpl in E2. lia. }
  intros r s2 (ready & running & d1 & -> & Hwait & Hh2 & H2). apply wp_bind.
  eapply wp_mono; [apply (take_spec s2 _ _ _ _ Hh2 Hwait)|]. cbn [b_calls b_results b_written].
  intros x s3 (i & r & tc & ready2 & running2 & d2 & -> & Er & H3 & Hh3).
  set (r' := if bool_decide _ then _ else r). assert (Er' : r_call_id r' = c_id tc) by (unfold r'; by destruct (bool_decide _)).
  apply wp_bind. eapply wp_mono; [apply (did_query (AskYield _))|]. intros y s4 ([] & -> & H4).
  apply wp_answers; [apply answers_fire|]. intros _ s5 H5. apply wp_bind, wp_get_turn.
  eapply wp_mono; [eapply (write_spec _ s0 (taken ++ took) (H ++ [(i, tc)]) ((D ++ d1) ++ d2))|].
  - cbn [b_written]. lia.
  - apply Hh3. congruence.
  - cbn [b_written]. eapply told_hushed; [|exact H5].
    pose proof (told_did _ _ _ _ _ _ _ took [] [] Ht E8) as T1. rewrite !app_nil_r in T1.
    pose proof (told_did _ _ _ _ _ _ _ [] [] d1 T1 H2) as T2. rewrite !app_nil_r in T2.
    pose proof (told_did _ _ _ _ _ _ _ [] [] d2 T2 H3) as T3. rewrite !app_nil_r in T3.
    assert (did [] [c_id tc] [] s3 s4) as H4' by (simpl in H4; by rewrite Er' in H4).
    pose proof (told_did _ _ _ _ _ _ _ [] [(i, tc)] [] T3 H4') as T4. by rewrite !app_nil_r in T4.
  - done.
  - intros z s6 (b' & -> & Hb'). exists (taken ++ took), (H ++ [(i, tc)]), ((D ++ d1) ++ d2).
    split; [rewrite length_app; simpl; lia|done].
Qed.

Lemma handed_le taken H D b : holding taken H D b ->
  (length H <= length calls)%nat /\ (batch_done b = false -> length H < length calls)%nat.
Proof.
  intros [Ht (R & Hp & HR) _ _ _ _]. apply (f_equal length) in Ht. rewrite length_numbered, length_app in Ht.
  apply Permutation_length in Hp. rewrite !length_app in Hp. apply Forall2_length in HR.
  split; [lia|]. unfold batch_done. intros Hd.
  destruct (b_calls b), (b_ready b), (b_running b); simpl in *; try done; lia.
Qed.

Lemma batch_loop_spec s0 c fuel : forall taken H D b s, (0 < c)%nat ->
  (length calls <= length H + fuel)%nat -> standing s0 taken H D b s ->
  wp (rounds fuel o dis calls nudge c b) (fun r s' =>
    match r with
    | Ok b' => batch_done b' = true /\ exists taken' H' D', standing s0 taken' H' D' b' s'
    | Raise e => stuck e
    end) s.
Proof.
  induction fuel as [|fuel IH]; intros taken H D b s Hc Hf Hst; simpl;
    destruct (handed_le taken H D b (proj1 Hst)) as [Hle Hlt]; destruct (batch_done b) eqn:Hd.
  - apply wp_ret. eauto 10.
  - specialize (Hlt eq_refl). lia.
  - apply wp_ret. eauto 10.
  - apply wp_bind. eapply wp_mono; [by apply (round_spec s0 taken H D)|]. intros [b'|e] s'; [|done].
    intros (taken' & H' & D' & El & Hst'). apply (IH taken' H' D'); [done|lia|done].
Qed.

(** A batch that is done has handed out and written everything. *)
Lemma done_spec s0 taken H D b s : batch_done b = true -> standing s0 taken H D b s ->
  taken = numbered calls /\ H ≡ₚ numbered calls /\ D ⊆+ numbered calls /\ cleared D /\ b_written b = length calls.
Proof.
  intros Hd ([Ht (R & Hp & HR) Hs Hc Hhas Hof] & _ & Hw & Hg). unfold batch_done in Hd.
  destruct (b_calls b), (b_ready b), (b_running b); try done. inversion HR; subst R.
  rewrite !app_nil_r in *. subst taken. do 4 (split; [done|]). destruct Hg as [Hg|Hg]; [lia|].
  destruct (calls !! b_written b) as [tc|] eqn:Ec; [|apply lookup_ge_None in Ec; lia].
  apply lookup_numbered in Ec. rewrite <- Hp in Ec. apply Hhas in Ec as [r Hr]. congruence.
Qed.

(** *** The whole batch *)

Lemma batch_spec s :
  wp (rounds (length calls) o dis calls nudge (batch_concurrency o calls) (Batch (numbered calls) [] [] ∅ 0)) (fun r s' =>
    match r with
    | Ok _ => exists H D a p rows, H ≡ₚ calls /\ D ⊆+ calls /\ Forall (admissible o dis) D /\
        did (map c_id calls) (map c_id H) (map (dispatch_of dis) D) s (RunState (x_turn s') (x_msgs s) (x_out s') (x_log s')) /\
        x_msgs s' = x_msgs s ++ rows /\ weave a p rows /\ tool_rows calls a /\ Forall P p
    | Raise e => stuck e
    end) s.
Proof.
  eapply wp_mono; [apply (batch_loop_spec s _ _ [] [] [])|]; [apply concurrency_pos|simpl; lia| |].
  { split; [|split; [|split; [simpl; lia|right; done]]].
    - split; simpl; try done; [exists []; split; [done|constructor]|constructor|set_solver].
    - unfold told. simpl. rewrite !app_nil_r. do 3 (split; [done|]). exists [], [], []. rewrite app_nil_r.
      split; [done|]. split; [constructor|]. split; constructor. }
  intros [b'|e] s'; [|done]. intros (Hd & taken & H & D & Hst).
  destruct (done_spec _ _ _ _ _ _ Hd Hst) as (-> & HpH & HpD & HcD & Hw).
  destruct Hst as (_ & (A1 & B1 & C1 & a & p & rows & E1 & W & T & F) & _). rewrite Hw, firstn_all in T.
  exists (map snd H), (map snd D), a, p, rows.
  assert (map snd H ≡ₚ calls) as HpH' by (rewrite <- (numbered_snd calls); by apply fmap_Permutation).
  assert (map snd D ⊆+ calls) as HpD' by (rewrite <- (numbered_snd calls); by apply fmap_submseteq).
  split; [done|]. split; [done|].
  split; [apply Forall_map; exact HcD|]. split; [|done].
  assert (numbered_ids (numbered calls) = map c_id calls) as Hids by (rewrite <- (numbered_snd calls) at 2; by rewrite map_map).
  unfold did. cbn [x_log x_msgs]. rewrite A1, B1, C1, Hids, !map_map. do 3 (split; [done|]). exists []. by rewrite app_nil_r.
Qed.
End Facts.

(** ** The claim *)

Section Claim.
Context {E : Type} (env : environment E).
Context {DK : Disk} {JT : JsonText} {PJ : PyJson}.
Variables (sessions_dir : text) (shot_bytes : message -> Z) (lower_text : text -> text) (dump_compact : json -> text).

Notation dispatch := (_dispatch_batch env sessions_dir shot_bytes lower_text dump_compact).

(** What a batch leaves, in terms of the state it began in. *)
Definition batch_outcome (P : message -> Prop) (o : run_options) (it : iteration) (s : run_state E)
    (r : outcome unit) (s' : run_state E) : Prop :=
  match r with
  | Ok _ => exists handed sent rows others,
      announced (x_log s') = announced (x_log s) ++ map c_id it.(it_calls) /\
      resulted (x_log s') = resulted (x_log s) ++ map c_id handed /\ handed ≡ₚ it.(it_calls) /\
      dispatched (x_log s') = dispatched (x_log s) ++ map (dispatch_of it.(it_disallowed)) sent /\
      sent ⊆+ it.(it_calls) /\ Forall (admissible o it.(it_disallowed)) sent /\
      tool_rows it.(it_calls) rows /\ Forall P others /\
      x_msgs s' = _cap_images shot_bytes o.(o_relief).(ro_images) it.(it_base)
                    (take it.(it_base) (x_msgs s) ++ rows ++ others)
  | Raise e => e = IndexError /\ exists tc, tc ∈ it.(it_calls) /\ bare_plus tc
  end.

Lemma dispatch_spec (P : message -> Prop) (o : run_options) (it : iteration) (s : run_state E) :
  (forall m, P m -> is_tool m = false) ->
  (forall A (q : ask A) w, Forall P (answer env q w).1.2) ->
  (it.(it_base) <= length (x_msgs s))%nat ->
  Forall P (drop it.(it_base) (x_msgs s)) ->
  wp (dispatch o it) (batch_outcome P o it s) s.
Proof.
  intros HP Henv Hbase Htail.
  unfold _dispatch_batch. apply wp_bind, wp_get_turn. destruct (_account_captions _ _ _ _) as [captions nudge_id].
  apply wp_bind, wp_modify, wp_bind.
  eapply wp_mono; [apply (batch_spec env sessions_dir lower_text dump_compact _ Henv)|]. cbn [x_log x_msgs x_turn].
  intros [b|e] s1; [|done]. intros (handed & sent & a & p & rows & Hh & Hs & Ha & (A1 & B1 & C1 & _) & E1 & Wv & Ht & Hp).
  apply wp_bind, wp_get_msgs, wp_put_msgs. exists handed, sent, a, (drop (it_base it) (x_msgs s) ++ p). cbn [x_log x_msgs] in *.
  assert (HF : forall l, Forall P l -> Forall (fun m => is_tool m = false) l) by (intros l Hl; by apply (Forall_impl P)).
  do 7 (split; [done|]). split; [by apply Forall_app|]. f_equal. rewrite reorder_eq, E1, take_app_le, drop_app_le by done.
  f_equal. rewrite !sel_app.
  destruct (weave_sel is_tool a p rows Wv) as [-> ->]; [|by apply HF|].
  { clear -Ht. induction Ht as [|tc m l k (r & allow & -> & _) _ IH]; constructor; [|done]. apply (tool_history_row (c_id tc) r allow). }
  apply HF in Htail. rewrite (proj2 (sel_nil_iff _ _)); [|by apply Forall_forall]. simpl. do 2 f_equal.
  clear -Htail. induction Htail as [|m l Hm _ IH]; simpl; [done|]. rewrite Hm. simpl. by rewrite IH.
Qed.

(** C21: a batch of tool calls announces every call once, in wire order, answers every
    call exactly once, and hands to the tools only calls whose arguments parsed and whose
    tool is neither disabled nor outside the allow-list, each at most once; the history
    then holds, right after the message the calls came in, the answers in wire order and
    behind them whatever observers appended meanwhile, whatever order the calls landed in
    and however many ran at once. The one way it fails is a ToolSearch for a bare plus. *)
Theorem batch_exactly_once (o : run_options) (it : iteration) (s : run_state E) :
  (forall A (q : ask A) w, Forall (fun m => is_tool m = false) (answer env q w).1.2) ->
  (it.(it_base) <= length (x_msgs s))%nat ->
  Forall (fun m => is_tool m = false) (drop it.(it_base) (x_msgs s)) ->
  let '(r, s') := dispatch o it s in
  batch_outcome (fun m => is_tool m = false) o it s r s'.
Proof.
  intros Henv Hbase Htail. pose proof (dispatch_spec _ o it s (fun _ H => H) Henv Hbase Htail) as W.
  unfold wp in W. by destruct (dispatch o it s).
Qed.
End Claim.

#[local] Existing Instance blank_json.
#[local] Existing Instance blank_py.
#[local] Existing Instance sound_disk.

(** Three calls, two at once, the middle one disabled, a note after every result. *)
Lemma batch_exactly_once_witness :
  let o := sample_options 3 [u "Bash"] (Some []) in
  let calls := [sample_call "a" "Read"; sample_call "b" "Bash"; sample_call "c" "Read"] in
  let it := Iteration (list_to_set [u "Bash"]) ∅ [] [] ∅ [] calls 1 false in
  let s := RunState sample_turn [plain_row "user" (u "go")] sample_outside [] in
  let s' := (_dispatch_batch (sample_env (fun _ => Streamed [] None)) [] (fun _ => 0) (fun t => t) (fun _ => []) o it s).2 in
  announced (x_log s') = [u "a"; u "b"; u "c"] /\
  (exists handed, resulted (x_log s') = map c_id handed /\ handed ≡ₚ calls) /\
  map dp_id (dispatched (x_log s')) = [u "a"; u "c"] /\
  map m_call_id (x_msgs s') = [[]; u "a"; u "b"; u "c"; []; []; []].
Proof.
  intros o calls it s s'.
  assert (H := batch_exactly_once (sample_env (fun _ => Streamed [] None)) [] (fun _ => 0) (fun t => t) (fun _ => []) o it s).
  destruct (_dispatch_batch _ _ _ _ _ o it s) as [r s1] eqn:Es.
  assert (r = Ok tt) as ->.
  { change r with (r, s1).1. rewrite <- Es. vm_compute. reflexivity. }
  destruct H as (handed & sent & rows & others & H1 & H2 & H3 & _).
  - intros A q w. destruct q; repeat constructor. by destruct e; repeat constructor.
  - vm_compute. lia.
  - constructor.
  - split; [exact H1|]. split; [exists handed; split; [exact H2|exact H3]|]. subst s'. rewrite <- Es. split; vm_compute; reflexivity.
Defined.
