(* ===== verification/WireFacts.v ===== *)
(** * What goes on the wire is well formed

    Every list a run sends to the engine answers each assistant message's calls at once,
    in order, by their ids: through batches that land in any order, through what observers
    append, and through every rewriting the relief ladder makes. *)
From Stdlib Require Import String.
From S2P Require Import Prelude PyText Stamps QueueRows Regex Spill Messages Microcompact MicroFacts Policy PoolRun Meter ToolCatalog ToolCalls Relief Turn Dispatch TurnLoop TurnLogic TurnSamples LoopFacts BatchFacts.

Local Open Scope Z_scope.

(** ** The shape of a list *)

(** What is still owed after a list: the ids of the calls not answered yet, or [None]
    where an answer comes out of turn or something comes between. *)
Fixpoint wire (owed : list text) (ms : list message) : option (list text) :=
  match ms with
  | [] => Some owed
  | m :: ms =>
      if is_tool m
      then match owed with id :: owed => if decide (m.(m_call_id) = id) then wire owed ms else None | [] => None end
      else match owed with [] => wire (if is_assistant m then map tc_id m.(m_tool_calls) else []) ms | _ => None end
  end.

Definition settled (ms : list message) : Prop := wire [] ms = Some [].

(** A row that neither asks for a tool nor answers one. *)
Definition plain (m : message) : Prop := is_tool m = false /\ (is_assistant m = true -> m.(m_tool_calls) = []).

(** The part of a row the shape depends on. *)
Definition bone (m : message) : string * text * list text := (m.(m_role), m.(m_call_id), map tc_id m.(m_tool_calls)).
Definition bones (ms : list message) := map bone ms.

Lemma wire_bones a : forall b owed, bones a = bones b -> wire owed a = wire owed b.
Proof.
  unfold bones. induction a as [|m a IH]; intros [|m' b] owed H; simpl in H; try done.
  injection H as Hr Hc Ht H. simpl. unfold is_tool, is_assistant. rewrite Hr, Hc, Ht.
  destruct (String.eqb _ "tool").
  - destruct owed as [|id owed]; [done|]. destruct (decide _); [by apply IH|done].
  - destruct owed; [by apply IH|done].
Qed.

Lemma settled_bones a b : bones a = bones b -> settled a -> settled b.
Proof. intros H. unfold settled. by rewrite (wire_bones a b _ H). Qed.

Lemma wire_app a b : forall owed, wire owed (a ++ b) = wire owed a ≫= fun owed => wire owed b.
Proof.
  induction a as [|m a IH]; intros owed; simpl; [done|]. destruct (is_tool m).
  - destruct owed as [|id owed]; [done|]. destruct (decide _); [apply IH|done].
  - destruct owed; [apply IH|done].
Qed.

Lemma wire_plain l : Forall plain l -> wire [] l = Some [].
Proof.
  induction 1 as [|m l [Ht Ha] _ IH]; simpl; [done|]. rewrite Ht. destruct (is_assistant m); [|done].
  by rewrite (Ha eq_refl).
Qed.

Lemma settled_app a b : settled a -> settled b -> settled (a ++ b).
Proof. unfold settled. intros Ha Hb. by rewrite wire_app, Ha. Qed.

Lemma settled_plain a l : settled a -> Forall plain l -> settled (a ++ l).
Proof. intros Ha Hl. by apply settled_app, wire_plain. Qed.

Lemma wire_answers calls rows : tool_rows calls rows -> wire (map c_id calls) rows = Some [].
Proof.
  induction 1 as [|tc m calls rows (r & allow & -> & _) _ IH]; [done|].
  destruct (tool_history_row (c_id tc) r allow) as (Ht & Hc & _). cbn [wire map]. rewrite Ht, Hc.
  by destruct (decide _).
Qed.

(** The last row of a settled list comes off when it asks for nothing. *)
Lemma settled_pop a m : settled (a ++ [m]) -> is_tool m = false -> settled a.
Proof.
  unfold settled. rewrite wire_app. destruct (wire [] a) as [q|]; [|done]. simpl. intros H Ht. rewrite Ht in H.
  by destruct q.
Qed.

(** ** What leaves the shape alone *)

Lemma bones_app a b : bones (a ++ b) = bones a ++ bones b.
Proof. apply map_app. Qed.

Lemma bones_map f ms : (forall m, bone (f m) = bone m) -> bones (map f ms) = bones ms.
Proof. intros Hf. unfold bones. rewrite map_map. apply map_ext. auto. Qed.

Lemma bones_Forall2 a b : Forall2 (fun m m' => bone m' = bone m) a b -> bones b = bones a.
Proof. unfold bones. induction 1 as [|m m' a b H _ IH]; simpl; [done|]. by rewrite H, IH. Qed.

Lemma bone_evict m : bone (_evict m) = bone m.
Proof. unfold _evict. destruct m as [? ? c]. destruct c; simpl; try done. by destruct (contains _ _). Qed.

Lemma bones_prune keep ms : bones (_prune_reasoning keep ms) = bones ms.
Proof.
  unfold _prune_reasoning. assert (H : forall rms seen, bones (prune_from keep seen rms) = bones rms).
  { induction rms as [|m rms IH]; intros seen; simpl; [done|].
    destruct (has_reasoning m); simpl; rewrite IH; [|done]. by destruct (_ <? _). }
  unfold bones in *. by rewrite map_rev, H, map_rev, rev_involutive.
Qed.

Lemma bones_cap_history keep ms : bones (_cap_history_reasoning keep ms) = bones ms.
Proof. unfold _cap_history_reasoning. destruct (_ <=? _); [done|]. apply bones_prune. Qed.

Lemma bones_strip ms : bones (strip_all_image_refs ms) = bones ms.
Proof. by apply bones_map. Qed.

Section Facts.
Context {DK : Disk} {JT : JsonText} {PJ : PyJson}.
Variables (sessions_dir : text) (resolve : text -> text) (image_tokens : Z) (shot_bytes : message -> Z)
          (sidecar_writable : bool).

Lemma bones_cap_images c base ms : bones (_cap_images shot_bytes c base ms) = bones ms.
Proof.
  unfold _cap_images. destruct (existsb _ ms); [|done]. unfold enforce_outbound_cap.
  destruct (negb _); [done|]. destruct ms as [|m rest]; [done|].
  assert (H : forall ms limit n pre, bones (evict_from shot_bytes c limit n pre ms) = bones (pre ++ ms)).
  { clear. induction ms as [|m ms IH]; intros limit n pre; simpl; [by rewrite app_nil_r|].
    destruct (_ <=? _)%nat; [done|]. destruct (has_refs m).
    - destruct (_ && _); [|rewrite IH]; rewrite <- app_assoc, !bones_app; simpl; by rewrite bone_evict.
    - by rewrite IH, <- app_assoc. }
  apply H.
Qed.

Lemma bones_keep_newest keep ms : bones (keep_newest keep ms).1 = bones ms.
Proof.
  unfold keep_newest. simpl. apply bones_Forall2, Forall2_same_length_lookup.
  split; [by rewrite length_imap|]. intros i m m' Hm Hm'. rewrite list_lookup_imap, Hm in Hm'. simpl in Hm'.
  injection Hm' as <-. destruct (bool_decide _); [apply bone_evict|done].
Qed.

Lemma bones_microcompact o ms d : bones (mc_out (microcompact sessions_dir resolve o ms d)) = bones ms.
Proof.
  apply bones_Forall2. eapply Forall2_impl; [apply microcompact_Forall2|]. intros m m' [->|[_ [t ->]]]; [done|].
  unfold bone. by rewrite replace_role, replace_call_id.
Qed.

Lemma bones_shrink keep min_chars sid tools ms d :
  bones (shrink_assistant_arguments sessions_dir keep min_chars sid tools ms d).1.1.1 = bones ms.
Proof.
  unfold shrink_assistant_arguments. destruct (sel nonempty tools) as [|t ts]; [done|]. destruct ms as [|m ms]; [done|].
  destruct (shrink_rows _ _ _ _ _ _ _ _) as [[[out n] f] d'] eqn:Es. apply shrink_rows_rel in Es.
  apply (bones_Forall2 (m :: ms) out). eapply Forall2_impl; [exact Es|]. intros x x' [->|(_ & tcs & -> & F)]; [done|].
  unfold bone. simpl. f_equal. induction F as [|tc tc' l k Htc _ IH]; simpl; [done|]. rewrite IH. f_equal.
  by destruct Htc as [->|(_ & _ & v & ->)].
Qed.

Lemma bone_truncate sid route rd m d : bone (truncate_message sessions_dir sid route rd m d).1.1 = bone m.
Proof.
  unfold truncate_message. destruct (match sid with [] => _ | _ => _ end) as [path d']. done.
Qed.

Lemma bones_truncate target sid min_chars denied named ms d :
  bones (_truncate_largest_tool_results sessions_dir target sid min_chars denied named ms d).1.1.1 = bones ms.
Proof.
  unfold _truncate_largest_tool_results. generalize (truncation_candidates min_chars ms) as idxs.
  generalize (if named && nonempty sid then session_record_route sessions_dir sid denied d else []) as route.
  generalize (tool_is_denied READ_TOOL denied) as rd. intros rd route idxs.
  generalize 0 at 1. generalize 0 at 1. revert ms d. induction idxs as [|i idxs IH]; intros ms d n freed; simpl; [done|].
  destruct (ms !! i) as [m|] eqn:Em; [|done].
  destruct (truncate_message sessions_dir sid route rd m d) as [[m' f] d'] eqn:Et.
  assert (Hb : bones (<[i := m']> ms) = bones ms).
  { unfold bones. rewrite list_fmap_insert. apply list_insert_id. rewrite list_lookup_fmap, Em. simpl. f_equal.
    pose proof (bone_truncate sid route rd m d) as H. by rewrite Et in H. }
  destruct (_ <=? _); [done|]. by rewrite IH.
Qed.

(** The ladder, rung by rung. *)
Notation relief_bones m := (forall s, bones (rs_msgs (m s).2) = bones (rs_msgs s)).

Lemma bones_intra o keep : relief_bones (_intra_turn_microcompact sessions_dir resolve image_tokens sidecar_writable o keep).
Proof.
  intros s. unfold _intra_turn_microcompact. cbv zeta. destruct (_ <=? _); [done|]. cbn [snd rs_msgs].
  destruct (_ =? 0); [done|]. apply bones_microcompact.
Qed.

Lemma bones_ladder o keep target :
  relief_bones (ladder sessions_dir resolve image_tokens sidecar_writable o keep target).
Proof.
  intros s. unfold ladder.
  destruct (rung_images image_tokens o target s) as [r0 s0] eqn:E0.
  assert (H0 : bones (rs_msgs s0) = bones (rs_msgs s)).
  { revert E0. unfold rung_images. destruct (_ && _); [|by intros [= <- <-]].
    pose proof (bones_keep_newest (ic_keep (ro_images o)) (rs_msgs s)) as H. destruct (keep_newest _ _) as [ms n].
    destruct (n =? 0); by intros [= <- <-]. }
  destruct (rung_tool_results _ _ _ _ _ _ s0) as [r1 s1] eqn:E1.
  assert (H1 : bones (rs_msgs s1) = bones (rs_msgs s0)).
  { revert E1. unfold rung_tool_results. pose proof (bones_intra o keep s0) as H.
    destruct (_intra_turn_microcompact _ _ _ _ _ _ _) as [n s']. by intros [= <- <-]. }
  destruct (rung_reasoning image_tokens _ target s1) as [r2 s2] eqn:E2.
  assert (H2 : bones (rs_msgs s2) = bones (rs_msgs s1)).
  { assert (K : forall keeps, relief_bones (rung_reasoning image_tokens keeps target)).
    { clear. induction keeps as [|k keeps IH]; intros s; simpl; [done|]. destruct (negb _); [done|].
      destruct (k <=? 0); [apply IH|]. pose proof (IH (rewritten image_tokens (_prune_reasoning k (rs_msgs s)) s)) as H.
      destruct (rung_reasoning _ _ _ _). simpl in *. by rewrite H, bones_prune. }
    specialize (K [ro_preserve_thinking o; ro_reasoning_keep o] s1). by rewrite E2 in K. }
  destruct (rung_arguments _ _ _ _ _ s2) as [r3 s3] eqn:E3.
  assert (H3 : bones (rs_msgs s3) = bones (rs_msgs s2)).
  { revert E3. unfold rung_arguments. destruct (_ && _); [|by intros [= <- <-]].
    pose proof (bones_shrink keep (ro_shrink_min_chars o) (ro_session_id o) (ro_shrink_tools o) (rs_msgs s2) (rs_fs s2)) as H.
    destruct (shrink_assistant_arguments _ _ _ _ _ _ _) as [[[ms n] f] d]. destruct (n =? 0); by intros [= <- <-]. }
  destruct (rung_truncate _ _ _ _ s3) as [r4 s4] eqn:E4. cbn [snd].
  rewrite <- H0, <- H1, <- H2, <- H3.
  revert E4. unfold rung_truncate. destruct (over_target _ _); [|by intros [= <- <-]].
  pose proof (bones_truncate (Z.max 20000 (Z.max 0 (used (rs_meter s3) - target) * 4)) (ro_session_id o) (ro_min_chars o)
                (ro_disallowed o) (ro_name_record o) (rs_msgs s3) (rs_fs s3)) as H.
  destruct (_truncate_largest_tool_results _ _ _ _ _ _ _ _) as [[[ms n] f] d]. destruct (n =? 0); by intros [= <- <-].
Qed.

Lemma bones_relieve_context o t0 keep l :
  relief_bones (_relieve_context sessions_dir resolve image_tokens sidecar_writable o t0 keep l).
Proof.
  intros s. unfold _relieve_context. destruct (negb _); [done|]. cbv zeta.
  pose proof (bones_ladder o keep (if t0 =? 0 then _relief_target o (rs_meter s) else t0) s) as H.
  destruct (ladder _ _ _ _ _ _ _ s) as [rungs s']. destruct l as [l|]; [|done].
  destruct (_ && _); [done|]. by destruct (_ <=? 0).
Qed.
End Facts.

(** ** A run *)

Section Run.
Context {E : Type} (env : environment E).
Context {DK : Disk} {JT : JsonText} {PJ : PyJson} {JD : JsonDecoder} {PU : PyUnicode}.
Variables (sessions_dir : text) (resolve : text -> text) (image_tokens : Z) (shot_bytes : message -> Z)
          (sidecar_writable : bool).
Variables (lower_text : text -> text) (dump_compact : json -> text) (sha1_hex : text -> text).

(** What the observers and the callbacks append is plain. *)
Record plain_env : Prop := PlainEnv {
  pe_rows : forall A (q : ask A) w, Forall plain (answer env q w).1.2;
  pe_drain : forall w rows, (answer env AskDrain w).1.1 = Some rows -> Forall plain rows;
  pe_anchor : forall n w rows, (answer env (AskAnchor n) w).1.1 = Some rows -> Forall plain rows
}.
Hypothesis Henv : plain_env.

Implicit Types (s : run_state E) (o : run_options).

Definition sent_well s : Prop := Forall (fun r => settled (rq_messages r)) (requests (x_log s)).
Definition good s : Prop := settled (x_msgs s) /\ sent_well s.
(** A good state stays good. *)
Definition stays s s' : Prop := good s -> good s'.

#[local] Instance stays_preorder : PreOrder stays.
Proof. split; unfold stays; [by intros s|]. intros s1 s2 s3; auto. Qed.

Lemma stays_query A (q : ask A) : (forall a, requests (entries q a) = []) -> moves stays (query env q).
Proof.
  intros Hq s. apply wp_query. intros a rows w Ha [Hs Hr]. split; unfold sent_well; cbn [x_msgs x_log].
  - apply settled_plain; [done|]. pose proof (pe_rows Henv A q (x_out s)) as H. by rewrite Ha in H.
  - by rewrite requests_app, Hq, app_nil_r.
Qed.
Lemma stays_turn s t w : tallies (x_turn s) = tallies t -> stays s (RunState t (x_msgs s) w (x_log s)).
Proof. by intros _ H. Qed.
Lemma stays_ask A (q : ask A) : loud q = false -> moves stays (query env q).
Proof. intros Hq. apply stays_query. by destruct q. Qed.
Lemma stays_yield e : moves stays (query env (AskYield e)).
Proof. by apply stays_query. Qed.
Lemma stays_modify f : moves stays (@modify E f).
Proof. intros s. apply wp_modify. by intros H. Qed.
Lemma stays_extend rows : Forall plain rows -> moves stays (@extend E rows).
Proof. intros Hp s. apply wp_extend. intros [Hs Hr]. split; [by apply settled_plain|done]. Qed.

Hint Resolve stays_turn stays_ask stays_yield : stays.
Hint Resolve stays_modify stays_extend : moves.
Hint Extern 1 (moves stays (query env _)) => by apply stays_ask : moves.
Ltac stays_by L := eapply L; solve [eauto with stays | exact _].
Hint Extern 1 (moves stays get_turn) => stays_by @moves_get_turn : moves.
Hint Extern 1 (moves stays get_msgs) => stays_by @moves_get_msgs : moves.
Hint Extern 1 (moves stays (is_cancelled _ _)) => stays_by @moves_is_cancelled : moves.
Hint Extern 1 (moves stays (remeter _)) => stays_by @moves_remeter : moves.
Hint Extern 1 (moves stays (yield_ _ _)) => stays_by @moves_say : moves.
Hint Extern 1 (moves stays (yield_retry _ _ _ _)) => stays_by @moves_retry : moves.
Hint Extern 1 (moves stays (fire_on_event _ _ _)) => stays_by @moves_fire : moves.
Hint Extern 1 (moves stays (current_disallowed _ _)) => stays_by @moves_disallowed : moves.
Hint Extern 1 (moves stays (take_chunks _ _ _)) => stays_by @moves_chunks : moves.
Hint Extern 1 (moves stays (_close_turn _ _)) => stays_by @moves_close : moves.

Lemma stays_relieve o t0 keep l :
  moves stays (relieve sessions_dir resolve image_tokens sidecar_writable o t0 keep l).
Proof.
  intros s. unfold wp, relieve. set (r0 := ReliefState _ _ _ _).
  pose proof (bones_relieve_context sessions_dir resolve image_tokens sidecar_writable (o_relief o) t0 keep
                (if l then Some (t_latch (x_turn s)) else None) r0) as H.
  destruct (_relieve_context _ _ _ _ _ _ _ _ _) as [[report latch] r]. intros [Hs Hr].
  split; [|done]. cbn [x_msgs]. by eapply settled_bones.
Qed.
Hint Resolve stays_relieve : moves.

Lemma plain_user t : Forall plain [plain_row "user" t].
Proof. by repeat constructor. Qed.
Hint Resolve plain_user : moves.

Lemma stays_splice rows : (forall l, rows = Some l -> Forall plain l) -> moves stays (splice image_tokens rows : st (run_state E) unit).
Proof. intros Hp. unfold splice. destruct rows as [[|r rows]|]; moves_auto. Qed.

Lemma stays_budget o : moves stays (check_budget env image_tokens o).
Proof. unfold check_budget. moves_auto. Qed.

Lemma stays_answered A (q : ask (option (list message))) (k : option (list message) -> st (run_state E) A) :
  loud q = false ->
  (forall w rows, (answer env q w).1.1 = Some rows -> Forall plain rows) ->
  (forall rows, (forall l, rows = Some l -> Forall plain l) -> moves stays (k rows)) ->
  moves stays (rows <-s query env q ;; k rows).
Proof.
  intros Hq Hp Hk s. apply wp_bind. apply wp_of. intros r s1 Er.
  pose proof (wp_run _ _ _ _ _ (stays_ask _ q Hq s) Er) as H1. revert Er. unfold query.
  pose proof (Hp (x_out s)) as Hp'. destruct (answer env q (x_out s)) as [[a rows] w].
  intros [= <- <-]. eapply wp_mono; [apply Hk|]; [by intros l ->; apply Hp'|]. intros r s2 H2 Hg. auto.
Qed.

Lemma stays_prelude o : moves stays (_prelude env sessions_dir resolve image_tokens sidecar_writable o).
Proof.
  pose proof (stays_budget o).
  assert (moves stays (rows <-s query env AskDrain ;; splice image_tokens rows))
    by (apply stays_answered; [done|apply (pe_drain Henv)|apply stays_splice]).
  assert (forall n, moves stays (rows <-s query env (AskAnchor n) ;; splice image_tokens rows))
    by (intros n; apply stays_answered; [done|apply (pe_anchor Henv)|apply stays_splice]).
  unfold _prelude. moves_auto.
Qed.

(** ** The stream *)

Lemma stays_put_bones f : (forall ms, bones (f ms) = bones ms) ->
  moves stays (ms <-s get_msgs ;; put_msgs (f ms) : st (run_state E) unit).
Proof.
  intros Hf s. apply wp_bind, wp_get_msgs, wp_put_msgs. intros [Hs Hr]. split; [|done]. cbn [x_msgs].
  by eapply settled_bones; [symmetry; apply Hf|].
Qed.

Lemma stays_broken o b it : moves stays (broken_stream env o b it).
Proof. unfold broken_stream. moves_auto. Qed.
Lemma stays_overflow o n len it :
  moves stays (overflowed env sessions_dir resolve image_tokens sidecar_writable o n len it).
Proof. unfold overflowed, uncount_turn. moves_auto. Qed.
Lemma stays_images why it : moves stays (images_refused env why it : st (run_state E) (flow * iteration)).
Proof.
  unfold images_refused, uncount_turn. pose proof bones_strip as Hb.
  apply moves_bind; [exact _|moves_auto|]. intros t. destruct (t_images_latched t); [moves_auto|].
  apply moves_bind; [exact _|moves_auto|]. intros _.
  intros s. apply wp_bind, wp_get_msgs, wp_bind, wp_put_msgs.
  assert (H1 : stays s (RunState (x_turn s) (strip_all_image_refs (x_msgs s)) (x_out s) (x_log s))).
  { intros [Hs Hr]. split; [|done]. cbn [x_msgs]. by eapply settled_bones; [symmetry; apply Hb|]. }
  eapply (wp_moves stays); [moves_auto|]. intros r s2 H2. by transitivity (RunState (x_turn s) (strip_all_image_refs (x_msgs s)) (x_out s) (x_log s)).
Qed.

Lemma overflow_not_through o n len it s it' :
  (overflowed env sessions_dir resolve image_tokens sidecar_writable o n len it s).1 <> Ok (Through, it').
Proof.
  apply (wp_of _ (fun r _ => r <> Ok (Through, it'))). intros r s1 Er. revert r s1 Er.
  cut (wp (overflowed env sessions_dir resolve image_tokens sidecar_writable o n len it) (fun r _ => r <> Ok (Through, it')) s).
  { intros H r s1 Er. by apply (wp_run _ _ _ _ _ H Er). }
  unfold overflowed. apply wp_bind, wp_get_turn. destruct (_ <=? _); [by apply wp_raise|].
  repeat (apply wp_bind; apply wp_of; intros [?|e] ? _; [|done]). by apply wp_ret.
Qed.
Lemma images_not_through why it s it' : (images_refused env why it s).1 <> Ok (Through, it').
Proof.
  apply (wp_of _ (fun r _ => r <> Ok (Through, it'))). intros r s1 Er. revert r s1 Er.
  cut (wp (images_refused env why it) (fun r _ => r <> Ok (Through, it')) s).
  { intros H r s1 Er. by apply (wp_run _ _ _ _ _ H Er). }
  unfold images_refused. apply wp_bind, wp_get_turn. destruct (t_images_latched _); [by apply wp_raise|].
  repeat (apply wp_bind; apply wp_of; intros [?|e] ? _; [|done]). by apply wp_ret.
Qed.

(** After the completion is in: its message closes a settled list, and behind it lies
    what came while it was announced. *)
Definition owing (it : iteration) s : Prop := sent_well s /\
  exists before asst, settled before /\ is_tool asst = false /\ is_assistant asst = true /\
    map tc_id asst.(m_tool_calls) = map c_id it.(it_calls) /\
    take it.(it_base) (x_msgs s) = before ++ [asst] /\ (it.(it_base) <= length (x_msgs s))%nat /\
    Forall plain (drop it.(it_base) (x_msgs s)) /\
    (it.(it_injected) = false -> drop it.(it_base) (x_msgs s) = []).

Lemma owing_settles it s : it.(it_calls) = [] -> owing it s -> good s.
Proof.
  intros Hc (Hr & before & asst & Hb & Ht & Ha & Htc & Etk & _ & Hp & _). split; [|done].
  rewrite <- (take_drop (it_base it) (x_msgs s)), Etk. apply settled_plain; [|done]. apply settled_app; [done|].
  rewrite Hc in Htc. unfold settled. simpl. by rewrite Ht, Ha, Htc.
Qed.

Lemma fire_rows o e s : wp (fire_on_event env o e) (fun r s' => r = Ok tt /\
  requests (x_log s') = requests (x_log s) /\ exists rows, x_msgs s' = x_msgs s ++ rows /\ Forall plain rows) s.
Proof.
  unfold fire_on_event. destruct (o_hooks o).
  - apply wp_query. intros [] rows w Ha. cbn [x_log x_msgs]. rewrite requests_app, app_nil_r.
    do 2 (split; [done|]). exists rows. split; [done|]. pose proof (pe_rows Henv _ (AskOnEvent e) (x_out s)) as H. by rewrite Ha in H.
  - apply wp_ret. do 2 (split; [done|]). exists []. by rewrite app_nil_r.
Qed.

Definition streamed (r : outcome (flow * iteration)) s : Prop :=
  match r with
  | Ok (Through, it) => owing it s
  | Ok _ => good s
  | Raise _ => sent_well s
  end.

Lemma wp_stays {A B} (m : st (run_state E) A) (k : A -> st (run_state E) B) (Q : outcome B -> run_state E -> Prop) s :
  moves stays m -> good s -> (forall e s', good s' -> Q (Raise e) s') ->
  (forall a s', good s' -> wp (k a) Q s') -> wp (sbind m k) Q s.
Proof.
  intros Hm Hg Hr Hk. apply wp_bind. eapply (wp_moves stays); [exact Hm|]. intros [a|e] s' Hs'; [by apply Hk, Hs'|by apply Hr, Hs'].
Qed.

Lemma good_sent s : good s -> sent_well s.
Proof. by intros [_ H]. Qed.

Lemma commit_owing o n it s : good s -> wp (commit env image_tokens o n it) streamed s.
Proof.
  intros Hg. unfold commit.
  do 2 (apply wp_stays; [moves_auto|done|intros; by apply good_sent|]; clear s Hg; intros ? s Hg).
  apply wp_stays; [moves_auto|done|intros; by apply good_sent|]. clear s Hg. intros t s Hg.
  apply wp_stays; [moves_auto|done|intros; by apply good_sent|]. clear s Hg. intros fresh s Hg. cbv zeta.
  set (wrapping := match t_wrapup t with WRequested => true | _ => false end).
  set (committed := if t_broken t then [] else _commit_tool_calls _ _ _ _).
  do 6 (apply wp_stays; [moves_auto|done|intros; by apply good_sent|]; clear s Hg; intros ? s Hg).
  apply wp_bind, wp_extend, wp_bind, wp_get_msgs. cbn [x_msgs].
  set (asst := _assistant_message_for_history _ _ _). apply wp_bind.
  eapply wp_mono; [apply fire_rows|]. cbn [x_msgs x_log]. intros r s1 (-> & Hr & rows & Em & Hp).
  apply wp_bind, wp_get_msgs.
  assert (Ho : owing (set_commit (if wrapping then [] else committed) (length (x_msgs s ++ [asst])) (length (x_msgs s ++ [asst]) <? length (x_msgs s1))%nat it) s1).
  { destruct Hg as [Hs Hsw]. split; [unfold sent_well; by rewrite Hr|].
    exists (x_msgs s), asst. split; [done|]. do 2 (split; [done|]). split; [unfold asst; cbn; rewrite map_map; done|].
    cbn [set_commit it_base it_injected]. rewrite Em, take_app_length, drop_app_length.
    split; [done|]. split; [rewrite (length_app _ rows); lia|]. split; [done|]. intros Hl. apply Nat.ltb_ge in Hl.
    rewrite (length_app _ rows) in Hl. apply length_zero_iff_nil. clear -Hl. lia. }
  destruct wrapping; [|by apply wp_ret].
  apply wp_bind, wp_modify, wp_ret. apply (owing_settles _ _) in Ho; [|done]. destruct Ho. by split.
Qed.

Lemma stream_streamed o it s : good s ->
  wp (_stream_iteration env sessions_dir resolve image_tokens sidecar_writable o it) streamed s.
Proof.
  intros Hg. unfold _stream_iteration. apply wp_bind, wp_get_turn, wp_bind, wp_get_msgs, wp_bind, wp_query.
  intros a rows w Ha. set (s1 := RunState _ _ _ _).
  assert (Hg1 : good s1).
  { destruct Hg as [Hs Hr]. split; unfold sent_well; cbn [s1 x_msgs x_log].
    - apply settled_plain; [done|]. pose proof (pe_rows Henv _ (AskStream (Request (x_msgs s) (t_visible (x_turn s))
        match t_wrapup (x_turn s) with WRequested => u "none" | _ => default (u "auto") (t_forced (x_turn s)) end
        (t_num_turns (x_turn s)))) (x_out s)) as H. by rewrite Ha in H.
    - rewrite requests_app. apply Forall_app. split; [done|]. by constructor. }
  cbv zeta. generalize (Z.of_nat (length (x_msgs s))) as n. intros n.
  clearbody s1. clear s Hg Ha. rename s1 into s.
  assert (Hend : forall (m : st (run_state E) (flow * iteration)), moves stays m ->
    (forall s0 it', (m s0).1 <> Ok (Through, it')) -> wp m streamed s).
  { intros m Hm Hn. apply wp_of. intros r s' Er. pose proof (wp_run _ _ _ _ _ (Hm s) Er Hg1) as Hg'.
    pose proof (fun it' => Hn s it') as Hn'. rewrite Er in Hn'.
    destruct r as [[[] it']|e]; [by destruct (Hn' it')|done|done|by apply good_sent]. }
  destruct a as [requested|why|chunks ending].
  - apply Hend; [apply stays_overflow|]. intros s0 it'. apply overflow_not_through.
  - apply Hend; [apply stays_images|]. intros s0 it'. apply images_not_through.
  - apply wp_stays; [moves_auto|done|intros; by apply good_sent|]. clear s Hg1 Hend. intros it1 s Hg.
    apply wp_stays; [destruct ending; [apply stays_broken|moves_auto]|done|intros; by apply good_sent|].
    clear s Hg. intros [how it2] s Hg. destruct how; [|by apply wp_ret..].
    apply wp_bind, wp_is_cancelled. intros [|]; [|by apply commit_owing].
    apply wp_bind, wp_modify, wp_ret. destruct Hg. by split.
Qed.

(** ** The rest of a pass *)

Definition kept {A} (r : outcome A) s : Prop := match r with Ok _ => good s | Raise _ => sent_well s end.

Lemma wp_kept {A} (m : st (run_state E) A) s : moves stays m -> good s -> wp m kept s.
Proof. intros Hm Hg. eapply (wp_moves stays); [exact Hm|]. intros [a|e] s' H; [by apply H|by apply good_sent, H]. Qed.

Lemma echo_kept o it s : it.(it_calls) = [] -> it.(it_injected) = false -> owing it s ->
  wp (echo_reprompt env image_tokens o it) kept s.
Proof.
  intros Hc Hi Ho. pose proof (owing_settles it s Hc Ho) as Hg.
  destruct Ho as (Hr & before & asst & Hb & Ht & Ha & Htc & Etk & _ & _ & Hd). specialize (Hd Hi).
  assert (Em : x_msgs s = before ++ [asst]) by (rewrite <- Etk; rewrite <- (take_drop (it_base it) (x_msgs s)) at 1; by rewrite Hd, app_nil_r).
  unfold echo_reprompt. apply wp_bind, wp_get_turn, wp_bind, wp_modify. destruct (o_echo_reissue o).
  - apply wp_bind, wp_get_msgs, wp_bind, wp_put_msgs. cbn [x_msgs x_turn x_out x_log].
    apply wp_kept; [unfold uncount_turn; moves_auto|]. split; [|done]. cbn [x_msgs].
    rewrite Em, length_app, Nat.add_sub, take_app_length. exact Hb.
  - apply wp_kept; [moves_auto|exact Hg].
Qed.

Lemma end_kept o it s : it.(it_calls) = [] -> owing it s ->
  wp (_end_without_tools env sessions_dir resolve image_tokens sidecar_writable o it) kept s.
Proof.
  intros Hc Ho. pose proof (owing_settles it s Hc Ho) as Hg. unfold _end_without_tools.
  apply wp_bind, wp_get_turn. destruct (t_broken _); [apply wp_kept; [moves_auto|done]|].
  destruct (it_injected it) eqn:Ei; [apply wp_kept; [unfold answer_inject; moves_auto|done]|].
  destruct (_ && _); [by apply echo_kept|]. apply wp_kept; [moves_auto|done].
Qed.

Lemma asked_dispatch o it s s' r :
  _dispatch_batch env sessions_dir shot_bytes lower_text dump_compact o it s = (r, s') ->
  requests (x_log s') = requests (x_log s).
Proof.
  intros Er. set (asked := fun s s' : run_state E => requests (x_log s') = requests (x_log s)).
  assert (PreOrder asked) by (split; unfold asked; [by intros ?|intros ???; congruence]).
  assert (forall A (q : ask A), (forall a, requests (entries q a) = []) -> moves asked (query env q)) as Hq.
  { intros A q H0 s0. apply wp_query. intros a rows w _. unfold asked. cbn [x_log]. by rewrite requests_app, H0, app_nil_r. }
  refine (wp_run _ _ _ _ _ (moves_dispatch env asked _ _ _ _ _ _ _ _ _ o it s) Er); try done;
    first [by intros A q Hl; apply Hq; destruct q | by intros ?; apply Hq].
Qed.

Lemma dispatch_kept o it s : owing it s ->
  wp (_dispatch_batch env sessions_dir shot_bytes lower_text dump_compact o it) kept s.
Proof.
  intros (Hr & before & asst & Hb & Ht & Ha & Htc & Etk & Hle & Hp & _).
  apply wp_of. intros r s' Er. pose proof (asked_dispatch _ _ _ _ _ Er) as Hreq.
  assert (Hsw : sent_well s') by (unfold sent_well; by rewrite Hreq).
  pose proof (wp_run _ _ _ _ _ (dispatch_spec env sessions_dir shot_bytes lower_text dump_compact plain o it s
    (fun m H => proj1 H) (pe_rows Henv) Hle Hp) Er) as Hb'.
  destruct r as [[]|e]; [|done]. destruct Hb' as (handed & sent & rows & others & _ & _ & _ & _ & _ & _ & Hrows & Hoth & Em).
  split; [|done]. rewrite Em. eapply settled_bones; [symmetry; apply bones_cap_images|].
  rewrite Etk. unfold settled in *. rewrite <- app_assoc, wire_app, Hb. simpl. rewrite Ht, Ha, Htc, wire_app, (wire_answers _ _ Hrows).
  by apply wire_plain.
Qed.

Lemma pass_kept o s : good s ->
  wp (pass env sessions_dir resolve image_tokens shot_bytes sidecar_writable lower_text dump_compact o) kept s.
Proof.
  intros Hg. unfold pass. apply wp_stays; [apply stays_prelude|done|intros; by apply good_sent|].
  clear s Hg. intros [it|] s Hg; [|by apply wp_ret].
  apply wp_bind. eapply wp_mono; [by apply stream_streamed|]. intros [[how it']|e] s1 Hs; [|done].
  destruct how; [|by apply wp_ret..]. simpl in Hs. destruct (it_calls it') as [|c calls] eqn:Ec; [by apply end_kept|].
  apply wp_bind. eapply wp_mono; [by apply dispatch_kept|]. intros [[]|e] s2 Hk; [|done]. simpl in Hk.
  apply wp_kept; [|done]. unfold _after_batch. moves_auto.
Qed.

Lemma loop_kept o fuel : forall s, good s ->
  wp (loop env sessions_dir resolve image_tokens shot_bytes sidecar_writable lower_text dump_compact fuel o) kept s.
Proof.
  induction fuel as [|fuel IH]; intros s Hg; simpl; [by apply wp_ret|].
  apply wp_bind. eapply wp_mono; [by apply pass_kept|]. intros [how|e] s1 Hk; [|done].
  destruct how; [by apply wp_ret|by apply IH|by apply wp_ret].
Qed.

Lemma body_kept fuel o s : good s ->
  wp (run_body env sessions_dir resolve image_tokens shot_bytes sidecar_writable lower_text dump_compact fuel o) kept s.
Proof.
  intros Hg. unfold run_body. apply wp_stays; [moves_auto|done|intros; by apply good_sent|]. clear s Hg. intros _ s Hg.
  apply wp_bind, wp_get_msgs, wp_bind, wp_put_msgs. apply wp_bind. eapply wp_mono; [apply loop_kept|].
  { destruct Hg as [Hs Hr]. split; [|done]. cbn [x_msgs]. eapply settled_bones; [symmetry; apply bones_cap_history|done]. }
  intros [[[]|]|e] s1 Hk; [|by apply wp_ret|done]. apply wp_kept; [moves_auto|done].
Qed.

(** ** From the opening on *)

Lemma settled_cons m ms : plain m -> settled ms -> settled (m :: ms).
Proof. intros Hp Hs. apply (settled_app [m] ms); [|done]. by apply wire_plain; constructor. Qed.

Lemma settled_opening o ms : settled ms -> settled (opening_messages o ms).
Proof. intros Hs. unfold opening_messages. destruct (_ && _); [by apply settled_cons|done]. Qed.

Lemma settled_reminder ls ms : settled ms -> settled (_inject_catalog_reminder ls ms).
Proof.
  intros Hs. unfold _inject_catalog_reminder. destruct (format_catalog_reminder _ _) as [|c body]; [done|]. cbv zeta.
  generalize (nl ++ nl ++ _CATALOG_REMINDER_MARKER ++ nl ++ c :: body) as addendum. intros addendum.
  destruct (existsb _ ms); [done|].
  assert (Hp : plain (plain_row "system" (lstrip addendum))) by done.
  destruct ms as [|m rest]; [by apply settled_cons|]. destruct (is_system m); [|by apply settled_cons].
  by eapply settled_bones; [|exact Hs].
Qed.

Lemma settled_open o m ms w t ms' w' : settled ms ->
  _open_turn dump_compact sha1_hex o m ms w = Ok (t, ms', w') -> settled ms' /\ w_active_runs (E := E) w' = w_active_runs w.
Proof.
  intros Hs. unfold _open_turn. destruct (build_tool_list _ _) as [e|catalog]; [done|].
  destruct (if o_tool_call_summaries o then _ else _) as [catalog' summary]. destruct (forallb _ _); [done|].
  destruct (_resolve_loaded_tool_set _ _ _ _ _) as [ls cache]. intros [= <- <- <-]. split; [|done].
  destruct (ls_enabled ls); [by apply settled_reminder|done].
Qed.
End Run.

(** C22: on every request of a run, and in the history it ends with, each assistant
    message's tool calls are answered right behind it, each once, in order and by id, with
    nothing in between - whatever order the calls landed in, whatever the observers, the
    drain and the anchor appended, and whatever the relief ladder, the image caps, the
    reasoning window and the echo guard rewrote - provided the history it was given was
    so and what others append are plain rows. *)
Theorem requests_well_formed {E : Type} (env : environment E)
    {DK : Disk} {JT : JsonText} {PJ : PyJson} {JD : JsonDecoder} {PU : PyUnicode}
    (sessions_dir : text) (resolve : text -> text) (image_tokens : Z) (shot_bytes : message -> Z) (sidecar_writable : bool)
    (lower_text : text -> text) (dump_compact : json -> text) (sha1_hex : text -> text)
    (fuel : nat) (o : run_options) (m : meter) (ms : list message) (w : outside E) :
  plain_env env -> settled ms ->
  match run_query env sessions_dir resolve image_tokens shot_bytes sidecar_writable lower_text dump_compact sha1_hex
          fuel o m ms w with
  | NotOpened _ _ => True
  | Ran r s => Forall (fun rq => settled (rq_messages rq)) (requests (x_log s)) /\
               (forall x, r = Ok x -> settled (x_msgs s))
  end.
Proof.
  intros Henv Hs. unfold run_query. cbv zeta. destruct (_open_turn _ _ _ _ _ _) as [[[t ms'] w']|e] eqn:Eo; [|done].
  apply settled_open in Eo as [Hs' _]; [|by apply settled_opening].
  destruct (run_body _ _ _ _ _ _ _ _ _ _ _) as [r s] eqn:Er.
  assert (Hk : kept r s).
  { refine (wp_run _ _ _ _ _ (body_kept env _ _ _ _ _ _ _ Henv fuel o _ _) Er). split; [done|]. constructor. }
  cbn [x_log x_msgs]. destruct r as [a|e]; [|by split].
  destruct Hk as [H1 H2]. by split.
Qed.

#[local] Existing Instance blank_json.
#[local] Existing Instance sample_py.
#[local] Existing Instance sample_decoder.
#[local] Existing Instance sound_disk.
#[local] Existing Instance ascii_only.

Lemma sample_plain script : plain_env (sample_env script).
Proof.
  split; [|done|done]. intros A q w. destruct q; repeat constructor. by destruct e; repeat constructor.
Qed.

(** How a run ended, its requests and the length of its history. *)
Definition outline (x : ran (E := unit)) : outcome (option unit) * nat * nat :=
  match x with
  | Ran r s => (r, length (requests (x_log s)), length (x_msgs s))
  | NotOpened e _ => (Raise e, 0%nat, 0%nat)
  end.

Lemma requests_well_formed_witness :
  let o := sample_options 3 [] (Some []) in
  let first := [plain_row "user" (u "go")] in
  exists r s, run_query (sample_env two_calls) [] (fun p => p) 0 (fun _ => 0) false (fun t => t) (fun _ => []) (fun t => t)
                10 o (new_meter 1000) first sample_outside = Ran r s /\
    r = Ok (Some tt) /\ length (requests (x_log s)) = 2%nat /\ length (x_msgs s) = 8%nat /\
    Forall (fun rq => settled (rq_messages rq)) (requests (x_log s)).
Proof.
  intros o first.
  assert (H := requests_well_formed (sample_env two_calls) [] (fun p => p) 0 (fun _ => 0) false (fun t => t) (fun _ => []) (fun t => t)
                10 o (new_meter 1000) first sample_outside (sample_plain two_calls) eq_refl).
  destruct (run_query _ _ _ _ _ _ _ _ _ _ _ _ _ _) as [e w|r s] eqn:Er; [exfalso; vm_compute in Er; discriminate|].
  exists r, s. split; [reflexivity|].
  assert (K : outline (Ran r s) = (Ok (Some tt), 2%nat, 8%nat)) by (rewrite <- Er; vm_compute; reflexivity).
  injection K as K1 K2 K3. split; [exact K1|]. split; [exact K2|]. split; [exact K3|]. exact (proj1 H).
Defined.
