(* ===== verification/SpokenFacts.v ===== *)
(** * What a listener hears is what the turn answers

    A listener of a run's events puts the text together as it streams, takes back what a
    retried attempt had said, and sets a segment aside when tool calls follow it. This file
    shows that, whatever breaks and is asked again, its text is the turn's own. *)
From Stdlib Require Import String.
From S2P Require Import Prelude PyText Stamps QueueRows Regex Spill Messages Microcompact Policy PoolRun Meter ToolCatalog ToolCalls Relief Turn Dispatch TurnLoop TurnLogic.

Local Open Scope Z_scope.

(** ** Listening *)

(** The events of a trace. *)
Definition heard (log : list entry) : list event :=
  omap (fun e => match e with Yielded e => Some e | _ => None end) log.

(** [trim_discarded] ([app/harness/events.py]). *)
Definition trim (s : text) (n : Z) : text :=
  let n := Z.max 0 n in
  if n =? 0 then s else take (Z.to_nat (Z.max 0 (len s - n))) s.
Definition trim_discarded (txt thinking : text) (n_text n_think : Z) : text * text := (trim txt n_text, trim thinking n_think).

(** What was set aside, and what is pending. *)
Definition voice_step (v : text * text) (e : event) : text * text :=
  match e with
  | EvText t => (v.1, v.2 ++ t)
  | EvRetry _ _ n _ => (v.1, trim v.2 n)
  | EvAssistant _ _ (_ :: _) _ _ _ _ => if nonempty (strip v.2) then (v.1 ++ v.2, []) else v
  | _ => v
  end.
Definition voice (log : list entry) : text * text := fold_left voice_step (heard log) ([], []).

Lemma heard_app a b : heard (a ++ b) = heard a ++ heard b.
Proof. apply omap_app. Qed.
Lemma voice_app a b : voice (a ++ b) = fold_left voice_step (heard b) (voice a).
Proof. unfold voice. by rewrite heard_app, fold_left_app. Qed.

Lemma trim_suffix p t : trim (p ++ t) (len t) = p.
Proof.
  unfold trim, len. destruct t as [|c t]; [by rewrite app_nil_r|].
  rewrite Z.max_r by lia. destruct (_ =? 0) eqn:E0; bool_simp; [simpl in E0; lia|].
  rewrite length_app. replace (Z.to_nat _) with (length p) by lia. apply take_app_length.
Qed.

Lemma drop_end_suffix p t : drop_end (length t) (p ++ t) = p.
Proof. unfold drop_end. rewrite length_app, Nat.add_sub. apply take_app_length. Qed.

(** No result yet. *)
Definition unfinished (events : list event) : Prop :=
  Forall (fun e => match e with EvResult _ _ _ _ _ _ _ _ => False | _ => True end) events.

Section Facts.
Context {E : Type} (env : environment E).
Context {DK : Disk} {JT : JsonText} {PJ : PyJson} {JD : JsonDecoder} {PU : PyUnicode}.
Variables (sessions_dir : text) (resolve : text -> text) (image_tokens : Z) (shot_bytes : message -> Z)
          (sidecar_writable : bool).
Variables (lower_text : text -> text) (dump_compact : json -> text) (sha1_hex : text -> text).

Implicit Types (s : run_state E) (o : run_options).

Notation said s := (voice (x_log s)).
Notation acc s := (t_accumulated (x_turn s)).

(** Nothing said, nothing booked, nothing concluded. *)
Definition mute s s' : Prop :=
  said s' = said s /\ acc s' = acc s /\ (unfinished (heard (x_log s)) -> unfinished (heard (x_log s'))).

#[local] Instance mute_preorder : PreOrder mute.
Proof. split; [by intros s|]. intros s1 s2 s3 (? & ? & ?) (? & ? & ?). split; [congruence|]. split; [congruence|auto]. Qed.

Lemma mute_turn s t w : tallies (x_turn s) = tallies t -> mute s (RunState t (x_msgs s) w (x_log s)).
Proof. intros Ht. split; [done|]. split; [|done]. unfold tallies in Ht. simpl. congruence. Qed.
Lemma mute_msgs s ms : mute s (RunState (x_turn s) ms (x_out s) (x_log s)).
Proof. done. Qed.
Lemma mute_query A (q : ask A) : (forall a, Forall (fun e => chatter e = false) (heard (entries q a))) -> moves mute (query env q).
Proof.
  intros Hq s. apply wp_query. intros a rows w _. specialize (Hq a). cbv beta. unfold mute. cbn [x_log x_turn]. split; [|split; [done|]].
  - rewrite voice_app. generalize (voice (x_log s)) as v.
    induction Hq as [|e l He _ IH]; intros v; [done|]. simpl. rewrite IH. by destruct e.
  - rewrite heard_app. intros Hu. apply Forall_app. split; [done|]. eapply Forall_impl; [exact Hq|]. intros e He. by destruct e.
Qed.
Lemma mute_ask A (q : ask A) : loud q = false -> moves mute (query env q).
Proof. intros Hq. apply mute_query. intros a. destruct q; by constructor. Qed.
Lemma mute_yield e : chatter e = false -> moves mute (query env (AskYield e)).
Proof. intros He. apply mute_query. intros a. by repeat constructor. Qed.
Lemma mute_tool d : moves mute (query env (AskTool d)).
Proof. apply mute_query. by constructor. Qed.
Lemma mute_modify (f : turn -> turn) : (forall t, t_accumulated (f t) = t_accumulated t) -> moves mute (@modify E f).
Proof. intros Hf s. apply wp_modify. split; [done|]. split; [apply Hf|done]. Qed.

Hint Resolve mute_turn mute_msgs mute_ask mute_yield mute_tool : mute.
Hint Extern 1 (moves mute (modify _)) => by apply mute_modify : moves.
Hint Extern 1 (moves mute (query env _)) => by apply mute_ask : moves.
Ltac mute_by L := eapply L; solve [eauto with mute | exact _].
Hint Extern 1 (moves mute get_turn) => mute_by @moves_get_turn : moves.
Hint Extern 1 (moves mute get_msgs) => mute_by @moves_get_msgs : moves.
Hint Extern 1 (moves mute (is_cancelled _ _)) => mute_by @moves_is_cancelled : moves.
Hint Extern 1 (moves mute (put_msgs _)) => mute_by @moves_put_msgs : moves.
Hint Extern 1 (moves mute (extend _)) => mute_by @moves_extend : moves.
Hint Extern 1 (moves mute (remeter _)) => mute_by @moves_remeter : moves.
Hint Extern 1 (moves mute (yield_ _ _)) => by apply mute_yield : moves.
Hint Extern 1 (moves mute (fire_on_event _ _ _)) => mute_by @moves_fire : moves.
Hint Extern 1 (moves mute (relieve _ _ _ _ _ _ _ _)) => mute_by @moves_relieve : moves.
Hint Extern 1 (moves mute (splice _ _)) => mute_by @moves_splice : moves.
Hint Extern 1 (moves mute (current_disallowed _ _)) => mute_by @moves_disallowed : moves.
Hint Extern 1 (moves mute (_dispatch_batch _ _ _ _ _ _ _)) => mute_by @moves_dispatch : moves.
Hint Extern 1 (moves mute (_after_batch _ _ _ _ _ _)) => mute_by @moves_after : moves.
Hint Extern 1 (moves mute (_maybe_finalize _ _)) => mute_by @moves_finalize : moves.

Lemma mute_prelude o : moves mute (_prelude env sessions_dir resolve image_tokens sidecar_writable o).
Proof. unfold _prelude, check_budget. moves_auto. Qed.
Lemma mute_overflow o n len it : moves mute (overflowed env sessions_dir resolve image_tokens sidecar_writable o n len it).
Proof. unfold overflowed, uncount_turn. moves_auto. Qed.
Lemma mute_images why it : moves mute (images_refused env why it : st (run_state E) (flow * iteration)).
Proof. unfold images_refused, uncount_turn. moves_auto. Qed.

(** A mute operation, then the rest. *)
Lemma wp_mute {A B} (m : st (run_state E) A) (k : A -> st (run_state E) B) (Q : outcome B -> run_state E -> Prop) s :
  moves mute m -> (forall e s', mute s s' -> Q (Raise e) s') ->
  (forall a s', mute s s' -> wp (k a) Q s') -> wp (sbind m k) Q s.
Proof. intros Hm Hr Hk. apply wp_bind. eapply (wp_moves mute); [exact Hm|]. intros [a|e] s' Hs'; [by apply Hk|by apply Hr]. Qed.

(** ** The stream *)

(** All that was heard is booked. *)
Definition booked s : Prop := (said s).1 ++ (said s).2 = acc s /\ unfinished (heard (x_log s)).

(** All but this attempt's text, which is the end of what is pending. *)
Definition streaming (it : iteration) s : Prop :=
  (exists p, (said s).2 = p ++ it.(it_text) /\ (said s).1 ++ p = acc s) /\ unfinished (heard (x_log s)).

Lemma wp_yield e (Q : outcome unit -> run_state E -> Prop) s :
  (forall s', said s' = voice_step (said s) e -> acc s' = acc s -> heard (x_log s') = heard (x_log s) ++ [e] -> Q (Ok tt) s') ->
  wp (yield_ env e) Q s.
Proof. intros HQ. apply wp_query. intros [] rows w _. apply HQ; cbn [x_log]; [by rewrite voice_app|done|by rewrite heard_app]. Qed.

Lemma unfinished_more events e : chatter e = true -> (match e with EvResult _ _ _ _ _ _ _ _ => False | _ => True end) ->
  unfinished events -> unfinished (events ++ [e]).
Proof. intros _ He Hu. apply Forall_app. split; [done|]. by constructor. Qed.

Lemma chunk_streaming c it s : streaming it s ->
  wp (take_chunk env c it) (fun r s' => forall it', r = Ok it' -> streaming it' s') s.
Proof.
  intros ((p & Hp & Ha) & Hu). unfold take_chunk. cbv zeta.
  match goal with |- context [set_stream ?us0 _ _ _ _ _] => generalize us0 as us end. intros us. destruct (ch_choice c) as [d|].
  2: { apply wp_ret. intros it' [= <-]. split; [by exists p|done]. }
  assert (Hend : forall s1, (said s1).1 = (said s).1 -> (said s1).2 = (said s).2 ++ dl_content d -> acc s1 = acc s ->
    unfinished (heard (x_log s1)) ->
    wp (_ <-s (if nonempty (reasoning_of d) then yield_ env (EvThinking (reasoning_of d)) else sret tt) ;;
        sret (set_stream us
                (it_text it ++ dl_content d) (it_thinking it ++ reasoning_of d)
                (fold_left _accumulate_tool_call (dl_tool_calls d) (it_acc it)) (or_text (dl_finish d) (it_finish it)) it))
      (fun r s' => forall it', r = Ok it' -> streaming it' s') s1).
  { intros s1 H1 H2 H3 H4. apply wp_bind. assert (K : forall s2, said s2 = said s1 -> acc s2 = acc s1 -> unfinished (heard (x_log s2)) ->
      streaming (set_stream us
                (it_text it ++ dl_content d) (it_thinking it ++ reasoning_of d)
                (fold_left _accumulate_tool_call (dl_tool_calls d) (it_acc it)) (or_text (dl_finish d) (it_finish it)) it) s2).
    { intros s2 E1 E2 E3. split; [|done]. exists p. cbn [set_stream it_text]. rewrite E1, E2, H1, H2, H3, Hp, app_assoc. by split. }
    destruct (nonempty (reasoning_of d)).
    - apply wp_yield. intros s2 E1 E2 E3. apply wp_ret. intros it' [= <-]. apply K; [done|done|]. rewrite E3. by apply unfinished_more.
    - apply wp_ret, wp_ret. intros it' [= <-]. by apply K. }
  apply wp_bind. destruct (nonempty (dl_content d)) eqn:En.
  - apply wp_yield. intros s1 E1 E2 E3. refine (Hend s1 _ _ _ _); [by rewrite E1|by rewrite E1|done|].
    rewrite E3. by apply unfinished_more.
  - apply wp_ret. refine (Hend s _ _ _ _); [done| |done|done]. destruct (dl_content d); [by rewrite app_nil_r|done].
Qed.

Lemma chunks_streaming cs : forall it s, streaming it s ->
  wp (take_chunks env cs it) (fun r s' => forall it', r = Ok it' -> streaming it' s') s.
Proof.
  induction cs as [|c cs IH]; intros it s Hs; simpl; [apply wp_ret; by intros it' [= <-]|].
  apply wp_bind. eapply wp_mono; [by apply chunk_streaming|]. intros [it1|e] s1 H1; [|done]. by apply IH, H1.
Qed.

Lemma streaming_mute it s s' : mute s s' -> streaming it s -> streaming it s'.
Proof. intros (H1 & H2 & H3) ((p & Hp & Ha) & Hu). split; [|auto]. exists p. by rewrite H1, H2. Qed.
Lemma booked_mute s s' : mute s s' -> booked s -> booked s'.
Proof. intros (H1 & H2 & H3) [Hb Hu]. split; [|auto]. by rewrite H1, H2. Qed.

(** Taking an attempt back. *)
Lemma retry_books r n it s : streaming it s ->
  wp (yield_retry env r n it) (fun _ s' => booked s') s.
Proof.
  intros ((p & Hp & Ha) & Hu). unfold yield_retry. apply wp_yield. intros s' E1 E2 E3.
  split; [|rewrite E3; by apply unfinished_more]. rewrite E1, E2. simpl. by rewrite Hp, trim_suffix.
Qed.

Definition broke (r : outcome (flow * iteration)) s : Prop :=
  match r with
  | Ok (Through, it) => streaming it s
  | Ok _ => booked s
  | Raise _ => True
  end.

Lemma broken_books o b it s : streaming it s -> wp (broken_stream env o b it) broke s.
Proof.
  intros Hs. unfold broken_stream. destruct (_ || _); [by apply wp_raise|].
  apply wp_mute; [moves_auto|done|]. intros _ s1 H1. apply (streaming_mute it) in H1; [|done]. clear s Hs.
  apply wp_mute; [moves_auto|done|]. intros stopped s2 H2. apply (streaming_mute it) in H2; [|done]. clear s1 H1.
  apply wp_bind, wp_get_turn. destruct (_ && _ && _); [by apply wp_ret|]. destruct (_ && _ && _).
  - apply wp_mute; [moves_auto|done|]. intros _ s3 H3. apply (streaming_mute it) in H3; [|done].
    apply wp_bind. eapply wp_mono; [by apply retry_books|]. intros [[]|e] s4 H4; [|done].
    apply wp_mute; [moves_auto|done|]. intros _ s5 H5. apply booked_mute in H5; [|done].
    unfold uncount_turn. apply wp_mute; [moves_auto|done|]. intros _ s6 H6. apply wp_ret. by eapply booked_mute.
  - destruct (is_parse b); [|by apply wp_raise]. apply wp_mute; [moves_auto|done|]. intros _ s3 H3. apply wp_ret.
    apply (streaming_mute it) in H3; [|done]. exact H3.
Qed.

(** When the completion is in: its text is booked too, and without calls it is still the
    end of what is pending. *)
Definition closed (r : outcome (flow * iteration)) s : Prop :=
  match r with
  | Ok (Through, it) => booked s /\ (it.(it_calls) = [] -> exists p q, (said s).2 = p ++ it.(it_text) /\ acc s = q ++ it.(it_text))
  | Ok _ => booked s
  | Raise _ => True
  end.

Lemma commit_books o n it s : streaming it s -> wp (commit env image_tokens o n it) closed s.
Proof.
  intros Hs. unfold commit.
  do 2 (apply wp_mute; [moves_auto|done|]; intros ? s1 H1; apply (streaming_mute it) in H1; [|done]; clear s Hs; rename s1 into s, H1 into Hs).
  apply wp_bind, wp_get_turn. generalize (x_turn s) as t. intros t.
  apply wp_mute; [moves_auto|done|]. intros fresh s1 H1. apply (streaming_mute it) in H1; [|done]. clear s Hs. rename s1 into s, H1 into Hs. cbv zeta.
  set (wrapping := match t_wrapup t with WRequested => true | _ => false end).
  set (committed := if t_broken t then [] else _commit_tool_calls _ _ _ _).
  set (calls := if wrapping then [] else committed).
  do 4 (apply wp_mute; [moves_auto|done|]; intros ? s1 H1; apply (streaming_mute it) in H1; [|done]; clear s Hs; rename s1 into s, H1 into Hs).
  apply wp_bind, wp_yield. intros s1 E1 E2 E3. apply wp_bind, wp_modify.
  set (s2 := RunState _ _ _ _).
  assert (H2 : booked s2 /\ (calls = [] -> exists p q, (said s2).2 = p ++ it_text it /\ acc s2 = q ++ it_text it)).
  { destruct Hs as ((p & Hp & Ha) & Hu).
    pose proof E1 as Es. change (said s1) with (said s2) in Es.
    assert (Ea : acc s2 = acc s ++ it_text it) by (cbn [s2 x_turn set_accumulated t_accumulated]; by rewrite E2).
    split.
    - split; [|change (x_log s2) with (x_log s1); rewrite E3; by apply unfinished_more].
      rewrite Es, Ea, <- Ha, <- app_assoc, <- Hp. simpl. destruct calls; [done|].
      destruct (nonempty _); [simpl; by rewrite app_nil_r|done].
    - intros Hc. exists p, (acc s). split; [|done]. rewrite Es, Hc. exact Hp. }
  clearbody s2. clear s1 E1 E2 E3 s Hs.
  assert (Hend : forall (m : st (run_state E) (flow * iteration)), moves mute m ->
    (forall s0, wp m (fun r _ => forall how it', r = Ok (how, it') -> it_calls it' = calls /\ it_text it' = it_text it) s0) ->
    wp m closed s2).
  { intros m Hm Hn. apply wp_of. intros r s' Er. pose proof (wp_run _ _ _ _ _ (Hm s2) Er) as M. destruct (M) as (M1 & M2 & _).
    pose proof (wp_run _ _ _ _ _ (Hn s2) Er) as Hn2. destruct r as [[how it']|e]; [|done].
    destruct (Hn2 how it' eq_refl) as [Hc Ht]. destruct H2 as [Hb Hx].
    assert (Hb' : booked s') by (by apply (booked_mute s2)).
    destruct how; simpl; [|done..]. split; [done|]. intros Hnil. rewrite Hc in Hnil.
    destruct (Hx Hnil) as (p & q & X1 & X2). exists p, q. by rewrite M1, M2, Ht. }
  apply Hend; [moves_auto|].
  intros s0. do 4 (apply wp_bind; apply wp_of; intros [?|e] ? _; [|done]).
  destruct wrapping; [apply wp_bind, wp_modify|]; apply wp_ret; by intros how it' [= <- <-].
Qed.

Lemma stream_books o it s : it.(it_text) = [] -> booked s ->
  wp (_stream_iteration env sessions_dir resolve image_tokens sidecar_writable o it) closed s.
Proof.
  intros Ht Hb. assert (Hs : streaming it s).
  { destruct Hb as [Hb Hu]. split; [|done]. exists (said s).2. by rewrite Ht, app_nil_r. }
  unfold _stream_iteration. apply wp_bind, wp_get_turn, wp_bind, wp_get_msgs, wp_bind, wp_query.
  intros a rows w _. set (s1 := RunState _ _ _ _).
  assert (H1 : mute s s1).
  { split; [cbn [s1 x_log]; by rewrite voice_app|]. split; [done|]. cbn [s1 x_log]. by rewrite heard_app, app_nil_r. }
  apply (streaming_mute it s s1 H1) in Hs. apply (booked_mute s s1 H1) in Hb. clear Ht. cbv zeta.
  generalize (Z.of_nat (length (x_msgs s))) as n. intros n. clearbody s1. clear s H1. rename s1 into s.
  assert (Hm : forall (m : st (run_state E) (flow * iteration)), moves mute m ->
    (forall s0, wp m (fun r _ => forall it', r <> Ok (Through, it')) s0) -> wp m closed s).
  { intros m Hm Hn. apply wp_of. intros r s' Er. pose proof (wp_run _ _ _ _ _ (Hm s) Er) as M.
    pose proof (wp_run _ _ _ _ _ (Hn s) Er) as Hn2. apply booked_mute in M; [|done].
    destruct r as [[[] it']|e]; [by destruct (Hn2 it')|done..]. }
  destruct a as [requested|why|chunks ending].
  - apply Hm; [apply mute_overflow|]. intros s0. unfold overflowed. apply wp_bind, wp_get_turn.
    destruct (_ <=? _); [by apply wp_raise|]. do 6 (apply wp_bind; apply wp_of; intros [?|e] ? _; [|done]). by apply wp_ret.
  - apply Hm; [apply mute_images|]. intros s0. unfold images_refused. apply wp_bind, wp_get_turn.
    destruct (t_images_latched _); [by apply wp_raise|].
    do 5 (apply wp_bind; apply wp_of; intros [?|e] ? _; [|done]). by apply wp_ret.
  - clear Hm Hb. apply wp_bind. eapply wp_mono; [by apply chunks_streaming|]. intros [it1|e] s1 H1; [|done].
    specialize (H1 it1 eq_refl). clear s Hs it. apply wp_bind.
    assert (Hbr : wp (match ending with Some b => broken_stream env o b it1 | None => sret (Through, it1) end) broke s1).
    { destruct ending; [by apply broken_books|by apply wp_ret]. }
    eapply wp_mono; [exact Hbr|]. intros [[how it2]|e] s2 H2; [|done].
    destruct how; [|by apply wp_ret..]. apply wp_bind, wp_is_cancelled. intros [|]; [|by apply commit_books].
    apply wp_bind, wp_modify, wp_ret. destruct H2 as ((p & Hp & Ha) & Hu). split; [|done].
    cbn [x_log x_turn set_accumulated t_accumulated]. rewrite Hp, app_assoc. f_equal. exact Ha.
Qed.

(** ** The rest of a pass *)

Definition ends {A} (r : outcome A) s : Prop := match r with Ok _ => booked s | Raise _ => True end.

Lemma wp_ends {A} (m : st (run_state E) A) s : moves mute m -> booked s -> wp m ends s.
Proof. intros Hm Hb. eapply (wp_moves mute); [exact Hm|]. intros [a|e] s' H; [by apply (booked_mute s)|done]. Qed.

Lemma echo_books o it s : booked s ->
  (exists p q, (said s).2 = p ++ it.(it_text) /\ acc s = q ++ it.(it_text)) ->
  wp (echo_reprompt env image_tokens o it) ends s.
Proof.
  intros Hb (p & q & Hp & Hq). unfold echo_reprompt. apply wp_bind, wp_get_turn, wp_bind, wp_modify.
  destruct (o_echo_reissue o); [|apply wp_ends; [moves_auto|exact Hb]].
  apply wp_bind, wp_get_msgs, wp_bind, wp_put_msgs. cbn [x_turn x_msgs x_out x_log].
  apply wp_mute; [moves_auto|done|]. intros _ s1 (M1 & M2 & M3). cbn [x_turn x_log set_reprompts t_accumulated] in M1, M2, M3.
  apply wp_bind, wp_modify, wp_bind. unfold yield_retry. apply wp_yield. intros s2 E1 E2 E3.
  cbn [x_turn x_log set_accumulated t_accumulated] in E1, E2, E3. destruct Hb as [Hb Hu].
  apply wp_ends; [unfold uncount_turn; moves_auto|]. split; [|rewrite E3; by apply unfinished_more, M3].
  rewrite E1, E2, M1, M2, Hq, drop_end_suffix. simpl. rewrite Hp, trim_suffix. rewrite Hp, Hq, app_assoc in Hb. by apply app_inv_tail in Hb.
Qed.

Lemma end_books o it s : booked s ->
  (exists p q, (said s).2 = p ++ it.(it_text) /\ acc s = q ++ it.(it_text)) ->
  wp (_end_without_tools env sessions_dir resolve image_tokens sidecar_writable o it) ends s.
Proof.
  intros Hb Hx. unfold _end_without_tools. apply wp_bind, wp_get_turn.
  destruct (t_broken _); [apply wp_ends; [moves_auto|done]|].
  destruct (it_injected it); [apply wp_ends; [unfold answer_inject; moves_auto|done]|].
  destruct (_ && _); [by apply echo_books|]. apply wp_ends; [moves_auto|done].
Qed.

Lemma prelude_blank o s : wp (_prelude env sessions_dir resolve image_tokens sidecar_writable o)
  (fun r _ => forall it, r = Ok (Some it) -> it_text it = []) s.
Proof.
  unfold _prelude. apply wp_bind, wp_modify, wp_bind, wp_of. intros [go|e] s1 _; [|done].
  destruct (negb go); [by apply wp_ret|]. apply wp_bind, wp_is_cancelled. intros [|].
  { by apply wp_bind, wp_modify, wp_ret. }
  do 8 (apply wp_bind; apply wp_of; intros [?|e] ? _; [|done]). apply wp_ret. by intros it [= <-].
Qed.

Lemma pass_books o s : booked s ->
  wp (pass env sessions_dir resolve image_tokens shot_bytes sidecar_writable lower_text dump_compact o) ends s.
Proof.
  intros Hb. unfold pass. apply wp_bind. apply wp_of. intros r s1 Er.
  pose proof (wp_run _ _ _ _ _ (prelude_blank o s) Er) as Hbl.
  pose proof (booked_mute _ _ (wp_run _ _ _ _ _ (mute_prelude o s) Er) Hb) as Hb1.
  destruct r as [[it|]|e]; [|by apply wp_ret|done]. specialize (Hbl it eq_refl).
  apply wp_bind. eapply wp_mono; [by apply stream_books|]. intros [[how it']|e] s2 Hs; [|done].
  destruct how; [|by apply wp_ret..]. destruct Hs as [Hb2 Hx].
  destruct (it_calls it') as [|c calls]; [by apply end_books, Hx|].
  apply wp_ends; [moves_auto|done].
Qed.

Lemma loop_books o fuel : forall s, booked s ->
  wp (loop env sessions_dir resolve image_tokens shot_bytes sidecar_writable lower_text dump_compact fuel o) ends s.
Proof.
  induction fuel as [|fuel IH]; intros s Hb; simpl; [by apply wp_ret|].
  apply wp_bind. eapply wp_mono; [by apply pass_books|]. intros [how|e] s1 Hk; [|done].
  destruct how; [by apply wp_ret|by apply IH|by apply wp_ret].
Qed.

(** The last event of a run that ends is its result, with the text that was heard. *)
Definition concluded s : Prop :=
  exists front stop us n c st err wrapped, let v := fold_left voice_step front ([], []) in
    unfinished front /\ heard (x_log s) = front ++ [EvResult stop us n (v.1 ++ v.2) c st err wrapped].

Lemma close_concludes o s : booked s -> wp (_close_turn env o) (fun r s' => forall x, r = Ok x -> concluded s') s.
Proof.
  intros Hb. unfold _close_turn. apply wp_mute; [moves_auto|done|]. intros final s1 H1. apply booked_mute in H1; [|done].
  apply wp_bind, wp_get_turn, wp_bind. unfold yield_. apply wp_query. intros [] rows w _. cbn [x_turn x_msgs x_log].
  apply wp_of. intros r s2 Er x _. assert (El : heard (x_log s2) = heard (x_log s1 ++ entries (AskYield (EvResult (t_stop_reason (x_turn s1)) (t_total (x_turn s1))
        (t_num_turns (x_turn s1)) (acc s1) (t_captions (x_turn s1)) final.1 final.2
        match t_wrapup (x_turn s1) with WDone => true | _ => false end)) tt)).
  { revert Er. unfold fire_on_event. destruct (o_hooks o); [|by intros [= <- <-]]. unfold query. cbn [x_out x_turn x_msgs x_log].
    destruct (answer _ _ _) as [[a rows'] w']. intros [= <- <-]. cbn [x_log]. by rewrite (heard_app _ []), app_nil_r. }
  eexists (heard (x_log s1)), _, _, _, _, _, _, _. cbv zeta. fold (voice (x_log s1)).
  destruct H1 as [H1 Hu]. split; [done|]. rewrite H1, El, heard_app. reflexivity.
Qed.

Lemma body_concludes fuel o s : x_log s = [] -> acc s = [] ->
  wp (run_body env sessions_dir resolve image_tokens shot_bytes sidecar_writable lower_text dump_compact fuel o)
    (fun r s' => r = Ok (Some tt) -> concluded s') s.
Proof.
  intros Hl Ha. assert (Hb : booked s) by (unfold booked; rewrite Hl, Ha; by split; constructor).
  unfold run_body. apply wp_mute; [moves_auto|done|]. intros _ s1 H1. apply booked_mute in H1; [|done].
  apply wp_mute; [moves_auto|done|]. intros ms s2 H2. apply booked_mute in H2; [|done].
  apply wp_mute; [moves_auto|done|]. intros _ s3 H3. apply booked_mute in H3; [|done].
  apply wp_bind. eapply wp_mono; [by apply loop_books|]. intros [[[]|]|e] s4 H4; [|by apply wp_ret|done].
  apply wp_bind. eapply wp_mono; [by apply close_concludes|]. intros [x|e] s5 H5; [|done]. apply wp_ret. intros _. by eapply H5.
Qed.
End Facts.

Lemma run_concludes {E : Type} (env : environment E)
    {DK : Disk} {JT : JsonText} {PJ : PyJson} {JD : JsonDecoder} {PU : PyUnicode}
    (sessions_dir : text) (resolve : text -> text) (image_tokens : Z) (shot_bytes : message -> Z) (sidecar_writable : bool)
    (lower_text : text -> text) (dump_compact : json -> text) (sha1_hex : text -> text)
    (fuel : nat) (o : run_options) (m : meter) (ms : list message) (w : outside E) s :
  run_query env sessions_dir resolve image_tokens shot_bytes sidecar_writable lower_text dump_compact sha1_hex
    fuel o m ms w = Ran (Ok (Some tt)) s -> concluded s.
Proof.
  unfold run_query. cbv zeta. destruct (_open_turn _ _ _ _ _ _) as [[[t ms'] w']|e] eqn:Eo; [|done].
  destruct (run_body _ _ _ _ _ _ _ _ _ _ _) as [r s1] eqn:Er. intros [= -> <-].
  refine (wp_run _ _ _ _ _ (body_concludes env _ _ _ _ _ _ _ fuel o (RunState t ms' w' []) eq_refl _) Er eq_refl).
  cbn [x_turn]. revert Eo. unfold _open_turn. destruct (build_tool_list _ _); [done|].
  destruct (if o_tool_call_summaries o then _ else _). destruct (forallb _ _); [done|].
  destruct (_resolve_loaded_tool_set _ _ _ _ _). by intros [= <- _ _].
Qed.

(** C23: what a listener pieced together is what the turn answers. However often attempts
    broke off and were sent again, however they were cut short, and whatever was retracted
    for being a command in a code fence, the text a listener holds when the result arrives
    - what it set aside at each batch of calls, and what is pending - is the result's own
    response, and the result is the last event and the only one of its kind. *)
Theorem heard_is_answered {E : Type} (env : environment E)
    {DK : Disk} {JT : JsonText} {PJ : PyJson} {JD : JsonDecoder} {PU : PyUnicode}
    (sessions_dir : text) (resolve : text -> text) (image_tokens : Z) (shot_bytes : message -> Z) (sidecar_writable : bool)
    (lower_text : text -> text) (dump_compact : json -> text) (sha1_hex : text -> text)
    (fuel : nat) (o : run_options) (m : meter) (ms : list message) (w : outside E) :
  match run_query env sessions_dir resolve image_tokens shot_bytes sidecar_writable lower_text dump_compact sha1_hex
          fuel o m ms w with
  | Ran (Ok (Some _)) s => concluded s
  | _ => True
  end.
Proof.
  destruct (run_query _ _ _ _ _ _ _ _ _ _ _ _ _ _) as [e w'|[[[]|]|e] s] eqn:Er; try done. by eapply run_concludes.
Qed.
