(* ===== verification/TurnUsage.v ===== *)
(** * A turn's token row, its telemetry and its prefix misses

    [app/turn_usage.py] and [app/prefix_miss.py]: the figures both writers of a usage row
    take from a turn's events, and the tracker that tells a re-prefilled prompt from a
    field nobody reads. *)
From Stdlib Require Import String.
From S2P Require Import Prelude PyText Stamps QueueRows Regex Spill Messages Microcompact Policy PoolRun Meter ToolCatalog ToolCalls Relief Turn.

Local Open Scope Z_scope.

(** ** The row ([turn_usage_row]) *)

(** [_int]: the first key that carries an integer, and no less than 0. *)
Fixpoint _int (source : usage) (keys : list string) : Z :=
  match keys with
  | [] => 0
  | k :: keys => match source !! k ≫= plain_int with Some z => Z.max 0 z | None => _int source keys end
  end.

Record token_row := TokenRow { tk_input : Z; tk_cache : Z; tk_prompt_sum : Z; tk_cache_sum : Z }.

Definition turn_usage_row (us : usage) : token_row :=
  let peak_prompt := _int us ["input_tokens"; "prompt_tokens"]%string in
  let peak_cache := _int us ["cache_read"; "prompt_tokens_cached"]%string in
  let sum_prompt := let n := _int us ["prompt_tokens_sum"%string] in if n =? 0 then peak_prompt else n in
  let sum_prompt := Z.max sum_prompt peak_prompt in
  let sum_cache := let n := _int us ["cache_read_sum"%string] in if n =? 0 then peak_cache else n in
  TokenRow peak_prompt (Z.min peak_cache peak_prompt) sum_prompt (Z.min sum_cache sum_prompt).

(** A turn's totals as the dict its result event carries. *)
Definition as_usage (t : totals) : usage := CInt <$> t.

(** ** The telemetry of a turn ([TurnTelemetry]) *)

Definition error_class_text (c : error_class) : text :=
  match c with
  | EDenied => u "denied" | EDisabled => u "disabled" | EParseError => u "parse_error" | ETransport => u "transport"
  | EMcpError => u "mcp_error" | ECancelled => u "cancelled" | EDispatchFailed => u "dispatch_failed"
  | EToolError => u "tool_error"
  end.

Record telemetry := Telemetry {
  tm_reasoning : option Z;
  tm_calls : Z;
  tm_errors : Z;
  tm_by_class : gmap text Z;
  tm_stop : option text;
  tm_wrapped : option bool;
  tm_result_reasoning : option Z;
  tm_peak_input : Z;
  tm_peak_cache : Z;
  tm_output : Z;
  tm_create : Z;
  tm_iterations : Z
}.

Definition telemetry0 : telemetry := Telemetry None 0 0 ∅ None None None 0 0 0 0 0.

Definition reasoning_in (us : usage) : option Z := Z.max 0 <$> (us !! "reasoning_tokens"%string ≫= plain_int).

Definition note_assistant (us : usage) (t : telemetry) : telemetry :=
  Telemetry
    (match reasoning_in us with Some n => Some (default 0 t.(tm_reasoning) + n) | None => t.(tm_reasoning) end)
    t.(tm_calls) t.(tm_errors) t.(tm_by_class) t.(tm_stop) t.(tm_wrapped) t.(tm_result_reasoning)
    (Z.max t.(tm_peak_input) (_int us ["input_tokens"; "prompt_tokens"]%string))
    (Z.max t.(tm_peak_cache) (_int us ["cache_read"; "prompt_tokens_cached"]%string))
    (t.(tm_output) + _int us ["output_tokens"; "completion_tokens"]%string)
    (t.(tm_create) + _int us ["cache_create"%string]) (t.(tm_iterations) + 1).

Definition note_tool_result (r : tool_result) (t : telemetry) : telemetry :=
  let cls := match r.(r_error_class) with Some c => error_class_text c | None => u "tool_error" end in
  Telemetry t.(tm_reasoning) (t.(tm_calls) + 1)
    (if r.(r_is_error) then t.(tm_errors) + 1 else t.(tm_errors))
    (if r.(r_is_error) then <[cls := default 0 (t.(tm_by_class) !! cls) + 1]> t.(tm_by_class) else t.(tm_by_class))
    t.(tm_stop) t.(tm_wrapped) t.(tm_result_reasoning) t.(tm_peak_input) t.(tm_peak_cache) t.(tm_output) t.(tm_create)
    t.(tm_iterations).

Definition note_result (stop : text) (us : usage) (wrapped : bool) (t : telemetry) : telemetry :=
  Telemetry t.(tm_reasoning) t.(tm_calls) t.(tm_errors) t.(tm_by_class)
    (match stop with [] => None | _ => Some stop end) (Some wrapped)
    (match reasoning_in us with Some n => Some n | None => t.(tm_result_reasoning) end)
    t.(tm_peak_input) t.(tm_peak_cache) t.(tm_output) t.(tm_create) t.(tm_iterations).

(** [note]: any other event is ignored. *)
Definition note (e : event) (t : telemetry) : telemetry :=
  match e with
  | EvAssistant _ _ _ us _ _ _ => note_assistant us t
  | EvToolResult r => note_tool_result r t
  | EvResult stop us _ _ _ _ _ wrapped => note_result stop (as_usage us) wrapped t
  | _ => t
  end.

Definition reasoning_tokens (t : telemetry) : option Z :=
  match t.(tm_result_reasoning) with Some n => Some n | None => t.(tm_reasoning) end.

(** [partial_row]: input, output, cache read, cache create and iterations. *)
Definition partial_row (t : telemetry) : Z * Z * Z * Z * Z :=
  (t.(tm_peak_input), t.(tm_output), Z.min t.(tm_peak_cache) t.(tm_peak_input), t.(tm_create), t.(tm_iterations)).

(** ** Prefix misses ([app/prefix_miss.py]) *)

(** [usage_numbers]: the first figure that is not zero. *)
Fixpoint first_number (us : usage) (keys : list string) : Z :=
  match keys with
  | [] => 0
  | k :: keys =>
      match count_int <$> us !! k with
      | Some z => if z =? 0 then first_number us keys else z
      | None => first_number us keys
      end
  end.

Definition usage_numbers (us : usage) : Z * Z :=
  (first_number us ["input_tokens"; "prompt_tokens"]%string, first_number us ["cache_read"; "prompt_tokens_cached"]%string).

Record miss := Miss { ms_iteration : Z; ms_input : Z; ms_cache : Z }.
Definition uncached (m : miss) : Z := Z.max 0 (m.(ms_input) - m.(ms_cache)).

(** What counts as a miss: the first iteration that may, the least prompt, and the share
    of it that must be reused, as a quotient. *)
Record miss_rule := MissRule { mr_min_iteration : Z; mr_min_input : Z; mr_reuse_num : Z; mr_reuse_den : Z }.
Definition MIN_ITERATION : Z := 3.
Definition MIN_INPUT_TOKENS : Z := 100000.
Definition default_rule : miss_rule := MissRule MIN_ITERATION MIN_INPUT_TOKENS 1 2.

Record tracker := Tracker {
  tr_cache_seen : bool;
  tr_counted : Z;
  tr_confirmed : list miss;
  tr_pending : list miss
}.
Definition tracker0 : tracker := Tracker false 0 [] [].

(** [cached >= fraction * inp]. *)
Definition reused (r : miss_rule) (inp cached : Z) : bool := r.(mr_reuse_num) * inp <=? cached * r.(mr_reuse_den).

(** [observe]: the tracker, and the misses this call confirmed. *)
Definition observe (r : miss_rule) (iteration : Z) (us : usage) (t : tracker) : tracker * list miss :=
  let '(inp, cached) := usage_numbers us in
  let seen := (0 <? cached) || t.(tr_cache_seen) in
  let released := if seen then t.(tr_pending) else [] in
  let pending := if seen then [] else t.(tr_pending) in
  let confirmed := t.(tr_confirmed) ++ released in
  if iteration <? r.(mr_min_iteration) then (Tracker seen t.(tr_counted) confirmed pending, released)
  else
    let counted := t.(tr_counted) + 1 in
    if (inp <? r.(mr_min_input)) || reused r inp cached then (Tracker seen counted confirmed pending, released)
    else
      let m := Miss iteration inp cached in
      if seen then (Tracker seen counted (confirmed ++ [m]) pending, released ++ [m])
      else (Tracker seen counted confirmed (pending ++ [m]), released).

Definition tracker_measured (t : tracker) : bool := t.(tr_cache_seen) || (t.(tr_counted) =? 0).
Definition reprefill_tokens (t : tracker) : Z := foldr Z.add 0 (map uncached t.(tr_confirmed)).

(** [summary]: the tokens and the misses, or neither where nothing was measured. *)
Definition summary (t : tracker) : option (Z * Z) :=
  if tracker_measured t then Some (reprefill_tokens t, Z.of_nat (length t.(tr_confirmed))) else None.

(** ** The figures are what they stand for *)

Lemma _int_nonneg us keys : 0 <= _int us keys.
Proof. induction keys as [|k keys IH]; simpl; [lia|]. destruct (us !! k ≫= plain_int); [lia|done]. Qed.

(** Every pair a reader divides is a fraction, whatever the engine reported. *)
Lemma turn_usage_row_bounded us :
  let r := turn_usage_row us in
  0 <= tk_cache r <= tk_input r /\ 0 <= tk_cache_sum r <= tk_prompt_sum r /\ tk_input r <= tk_prompt_sum r.
Proof.
  cbv zeta. unfold turn_usage_row. cbv zeta. cbn [tk_cache tk_input tk_cache_sum tk_prompt_sum].
  pose proof (_int_nonneg us ["input_tokens"; "prompt_tokens"]%string).
  pose proof (_int_nonneg us ["cache_read"; "prompt_tokens_cached"]%string).
  pose proof (_int_nonneg us ["prompt_tokens_sum"]%string). pose proof (_int_nonneg us ["cache_read_sum"]%string).
  destruct (_int us ["prompt_tokens_sum"]%string =? 0), (_int us ["cache_read_sum"]%string =? 0); lia.
Qed.

(** The reference: every iteration that may miss and did, in order. *)
Definition missed (r : miss_rule) (iu : Z * usage) : option miss :=
  let '(inp, cached) := usage_numbers iu.2 in
  if (r.(mr_min_iteration) <=? iu.1) && (r.(mr_min_input) <=? inp) && negb (reused r inp cached)
  then Some (Miss iu.1 inp cached) else None.

Definition reads_cache (iu : Z * usage) : bool := 0 <? (usage_numbers iu.2).2.

Definition observe_all (r : miss_rule) (its : list (Z * usage)) : tracker :=
  fold_left (fun t iu => (observe r iu.1 iu.2 t).1) its tracker0.

#[local] Opaque usage_numbers.

Lemma observe_all_state r its :
  let t := observe_all r its in
  tr_cache_seen t = existsb reads_cache its /\
  tr_counted t = Z.of_nat (length (sel (fun iu => r.(mr_min_iteration) <=? iu.1) its)) /\
  tr_confirmed t = (if existsb reads_cache its then omap (missed r) its else []) /\
  tr_pending t = (if existsb reads_cache its then [] else omap (missed r) its).
Proof.
  cbn zeta. induction its as [|[i us] its IH] using rev_ind; [done|].
  destruct IH as (E1 & E2 & E3 & E4). unfold observe_all in *. rewrite fold_left_app, existsb_app, omap_app, sel_app. simpl.
  revert E1 E2 E3 E4. destruct (fold_left _ its tracker0) as [seen counted confirmed pending]. simpl.
  intros -> -> -> ->. generalize (existsb reads_cache its) as b, (omap (missed r) its) as l.
  generalize (sel (fun iu : Z * usage => mr_min_iteration r <=? iu.1) its) as k. intros k b l.
  unfold observe, missed, reads_cache. simpl.
  destruct (usage_numbers us) as [inp cached]. simpl. rewrite orb_false_r, Z.leb_antisym, (Z.leb_antisym inp).
  destruct b, (0 <? cached), (i <? mr_min_iteration r), (inp <? mr_min_input r), (reused r inp cached);
    simpl; rewrite ?app_nil_r, ?length_app; simpl; repeat split; try done; lia.
Qed.

(** The misses of a turn are exactly those a second look at all of its iterations
    would find, in order, once any of them has read from the cache; a turn that never
    did reports none and says it measured nothing, unless no iteration could miss. *)
Theorem misses_exact r its :
  summary (observe_all r its) =
    if existsb reads_cache its
    then Some (foldr Z.add 0 (map uncached (omap (missed r) its)), Z.of_nat (length (omap (missed r) its)))
    else if existsb (fun iu => r.(mr_min_iteration) <=? iu.1) its then None else Some (0, 0).
Proof.
  destruct (observe_all_state r its) as (E1 & E2 & E3 & _). unfold summary, tracker_measured, reprefill_tokens.
  rewrite E1, E2, E3. destruct (existsb reads_cache its); [done|]. simpl.
  destruct (sel (fun iu => mr_min_iteration r <=? iu.1) its) as [|iu l] eqn:Es.
  - rewrite sel_nil_iff in Es. replace (existsb _ its) with false; [done|]. symmetry. apply not_true_iff_false.
    rewrite existsb_exists. intros (x & Hx & Hm). apply list_elem_of_In in Hx. rewrite (Es x Hx) in Hm. done.
  - replace (existsb _ its) with true; [by rewrite (proj2 (Z.eqb_neq _ 0)) by (simpl; lia)|].
    symmetry. apply existsb_exists. exists iu. assert (H : iu ∈ sel (fun iu => mr_min_iteration r <=? iu.1) its) by (rewrite Es; by left).
    apply elem_of_sel in H as [H1 H2]. split; [by apply list_elem_of_In|done].
Qed.
