(* ===== verification/Recorder.v ===== *)
(** * The recorder of a background run

    [app/transcript_entries.py] and [app/run_recorder.py]: the rows of a transcript, and
    the recorder that writes them from a run's events, at every moment what a reader
    would need if the run were killed there. *)
From Stdlib Require Import String.
From S2P Require Import Prelude PyText Stamps QueueRows Regex Spill Messages Microcompact Policy PoolRun Meter ToolCatalog ToolCalls Relief Turn Dispatch TurnLoop TurnLogic TurnUsage SpokenFacts.

Local Open Scope Z_scope.

(** ** The text of a result row *)

Definition TOOL_RESULT_MAX_CHARS : Z := 2000.

Definition truncate_tool_result (t : text) : text :=
  if TOOL_RESULT_MAX_CHARS <? len t then take (Z.to_nat TOOL_RESULT_MAX_CHARS) t ++ u "...(truncated)" else t.

(** [persisted_path_of]: the file a pointer block names in its first 2048 characters. *)
Definition persisted_path_of (t : text) : text :=
  if negb (startswith PERSISTED_OUTPUT_TAG t) then []
  else
    let head := take 2048 t in
    match find SAVED_TO head with
    | None => []
    | Some i => strip (fst (span (fun c => negb (c =? 10)%N) (drop (i + length SAVED_TO) head)))
    end.

(** ** Rows *)

(** A field of a row, where it has one. *)
Definition field (k : string) (v : option json) : list (string * json) :=
  match v with Some v => [(k, v)] | None => [] end.
Definition jtext (t : text) : json := JStr (encode t).
Definition when (b : bool) (v : json) : option json := if b then Some v else None.
Definition turn_field (turn_id : text) : option text := match turn_id with [] => None | _ => Some turn_id end.
Definition reasoning_field (t : text) : option text := match t with [] => None | _ => Some t end.
Definition named_source (source : text) : bool := nonempty source && negb (bool_decide (source = u "user")).

Definition build_assistant_text_entry (id txt stamp : text) (stats : option json) (reasoning source : text)
    (structured : option json) (cancelled synthetic : bool) (turn_id : text) : message :=
  Msg (Some id) "assistant" (CBlocks [BText txt]) (turn_field turn_id) [] [] (reasoning_field reasoning) 0 None
    (JObj (("timestamp"%string, jtext stamp) :: field "stats" stats
           ++ field "structured" (match structured with Some v => when (negb (falsy v)) v | None => None end)
           ++ field "cancelled" (when cancelled (JBool true))
           ++ field "synthetic_empty_terminal" (when synthetic (JBool true))
           ++ field "source" (when (named_source source) (jtext source)))).

Definition build_tool_call (call_id name args_json summary : text) : tool_call :=
  ToolCall call_id call_id name (Some (jtext args_json)) [] JNull
    (JObj (("type"%string, jtext (u "function")) :: field "summary" (when (nonempty summary) (jtext summary)))).

Definition build_tool_call_entry (tc : tool_call) (stamp : text) (stats : list (string * json)) (turn_id : text) : message :=
  Msg (Some (u "msg_" ++ tc.(tc_call_id) ++ u "_tc")) "assistant" (CBlocks [BText []]) (turn_field turn_id) [tc] [] None 0 None
    (JObj (("timestamp"%string, jtext stamp) :: field "stats" (match stats with [] => None | _ => Some (JObj stats) end))).

Definition build_thinking_entry (turn_id txt : text) (seq iteration : Z) (stamp : text) : message :=
  Msg (Some (u "think_" ++ turn_id ++ u "_" ++ show seq)) "thinking" (CBlocks []) None [] [] (Some txt) 0 None
    (JObj [("timestamp"%string, jtext stamp);
           ("thinking"%string, JObj [("chars"%string, JInt (len txt)); ("iteration"%string, JInt iteration);
                                     ("turn_id"%string, jtext turn_id)])]).

Definition build_user_entry (id txt stamp source turn_id : text) : message :=
  Msg (Some id) "user" (CBlocks [BText txt]) (turn_field turn_id) [] [] None 0 None
    (JObj (("timestamp"%string, jtext stamp) :: field "source" (when (named_source source) (jtext source)))).

Section Recording.
Context {DK : Disk}.
Variable sessions_dir : text.
(** [compaction.transcript_spill.enabled]. *)
Variable transcript_spill_enabled : bool.
(** What a row keeps of a screenshot ([row_refs]). *)
Variable row_ref : shot -> json.
(** The clock and the fresh ids, by the number of appends so far, and whether that
    append reaches the session's file. *)
Variables (now fresh : nat -> text) (lands : nat -> bool).
(** [harness.prefix_miss]: whether misses are counted, and which are. *)
Variables (miss_enabled : bool) (rule : miss_rule).

Definition shape_tool_result_for_transcript (t call_id session_id tool_name : text) (disallowed : list text) (d : fs)
    : text * fs :=
  if startswith PERSISTED_OUTPUT_TAG t then (t, d)
  else if negb (nonempty session_id) || negb (nonempty call_id) || negb transcript_spill_enabled
  then (truncate_tool_result t, d)
  else
    let '(out, d) := maybe_spill sessions_dir t tool_name call_id session_id TOOL_RESULT_MAX_CHARS disallowed d in
    (if bool_decide (out = t) then truncate_tool_result t else out, d).

Definition build_tool_result_entry (call_id result stamp : text) (is_error : option bool) (raw_chars : option Z)
    (images : list shot) (turn_id : text) : message :=
  let path := persisted_path_of result in
  Msg (Some (u "msg_" ++ call_id ++ u "_result")) "tool" (CBlocks [BText result]) (turn_field turn_id) [] call_id None 0
    (match images with [] => None | _ => Some (map (fun s => ImageRef (row_ref s) false) images) end)
    (JObj [("timestamp"%string, jtext stamp);
           ("stats"%string,
             JObj (("result_chars"%string, JInt (len result))
                   :: field "persisted_path" (when (nonempty path) (jtext path))
                   ++ field "raw_chars" (JInt <$> raw_chars) ++ field "is_error" (JBool <$> is_error)))]).

(** ** The recorder *)

Record recording := Recording {
  rg_session : text;
  rg_turn : text;
  rg_model : text;
  rg_source : text;
  rg_disallowed : list text
}.

(** A usage row as it goes to the store. *)
Record usage_row := UsageRow {
  ur_input : Z; ur_output : Z; ur_cache_read : Z; ur_cache_create : Z; ur_num_turns : Z;
  ur_misses : option (Z * Z); ur_telemetry : telemetry; ur_stop : option text
}.

Record recorder := Rec {
  k_text : text;
  k_thinking : text;
  k_seq : Z;                       (** [thinking_seq] *)
  k_iteration : Z;
  k_stats : list (string * json);  (** [iteration_stats] *)
  k_calls : list tool_call;
  k_results : gmap text text;
  k_pairs : gset text;             (** [persisted_pairs] *)
  k_saw : bool;
  k_stop : option text;
  k_miss : tracker;
  k_telemetry : telemetry;
  k_usage : list usage_row;
  k_booked : bool;
  k_rows : list message;           (** the session's transcript *)
  k_appends : nat;
  k_fs : fs
}.

Definition recorder0 (rows : list message) (d : fs) : recorder :=
  Rec [] [] 0 0 [] [] ∅ ∅ false None tracker0 telemetry0 [] false rows 0 d.

(** [_append]: a write that fails costs its rows and nothing else. *)
Definition append (entries : list message) (k : recorder) : recorder :=
  match entries with
  | [] => k
  | _ => Rec k.(k_text) k.(k_thinking) k.(k_seq) k.(k_iteration) k.(k_stats) k.(k_calls) k.(k_results) k.(k_pairs) k.(k_saw)
           k.(k_stop) k.(k_miss) k.(k_telemetry) k.(k_usage) k.(k_booked)
           (if lands k.(k_appends) then k.(k_rows) ++ entries else k.(k_rows)) (S k.(k_appends)) k.(k_fs)
  end.

Definition set_buffers (txt thinking : text) (k : recorder) : recorder :=
  Rec txt thinking k.(k_seq) k.(k_iteration) k.(k_stats) k.(k_calls) k.(k_results) k.(k_pairs) k.(k_saw) k.(k_stop)
    k.(k_miss) k.(k_telemetry) k.(k_usage) k.(k_booked) k.(k_rows) k.(k_appends) k.(k_fs).

Definition book_row (stop : option text) (input output cache_read cache_create turns : Z) (misses : option (Z * Z))
    (k : recorder) : recorder :=
  if k.(k_booked) || ((input =? 0) && (output =? 0)) then k
  else Rec k.(k_text) k.(k_thinking) k.(k_seq) k.(k_iteration) k.(k_stats) k.(k_calls) k.(k_results) k.(k_pairs) k.(k_saw)
         k.(k_stop) k.(k_miss) k.(k_telemetry)
         (k.(k_usage) ++ [UsageRow input output cache_read cache_create turns misses k.(k_telemetry)
                            (match stop with Some t => Some t | None => k.(k_telemetry).(tm_stop) end)])
         true k.(k_rows) k.(k_appends) k.(k_fs).

(** [a or b or 0] of two counts. *)
Definition or_count (us : usage) (a b : string) : Z := if usage_at a us =? 0 then usage_at b us else usage_at a us.

Definition stats_of (us : usage) (iteration : Z) (model : text) : list (string * json) :=
  [("input_tokens"%string, JInt (or_count us "input_tokens" "prompt_tokens"));
   ("output_tokens"%string, JInt (or_count us "output_tokens" "completion_tokens"));
   ("cache_read"%string, JInt (or_count us "cache_read" "prompt_tokens_cached"));
   ("cache_create"%string, JInt (usage_at "cache_create" us));
   ("iteration"%string, JInt iteration); ("model"%string, jtext model)].

(** The rows of a call whose result never came, or came too late. *)
Fixpoint unpersisted (turn_id stamp : text) (stats : list (string * json)) (results : gmap text text) (pairs : gset text)
    (calls : list tool_call) : list message * gset text :=
  match calls with
  | [] => ([], pairs)
  | tc :: calls =>
      let cid := tc.(tc_call_id) in
      if bool_decide (cid ∈ pairs) then unpersisted turn_id stamp stats results pairs calls
      else
        let '(rows, pairs) := unpersisted turn_id stamp stats results ({[cid]} ∪ pairs) calls in
        (build_tool_call_entry tc stamp stats turn_id
           :: build_tool_result_entry cid (default [] (results !! cid)) stamp None None [] turn_id :: rows, pairs)
  end.

Definition set_pairs (pairs : gset text) (k : recorder) : recorder :=
  Rec k.(k_text) k.(k_thinking) k.(k_seq) k.(k_iteration) k.(k_stats) k.(k_calls) k.(k_results) pairs k.(k_saw) k.(k_stop)
    k.(k_miss) k.(k_telemetry) k.(k_usage) k.(k_booked) k.(k_rows) k.(k_appends) k.(k_fs).
Definition set_results (id t : text) (d : fs) (k : recorder) : recorder :=
  Rec k.(k_text) k.(k_thinking) k.(k_seq) k.(k_iteration) k.(k_stats) k.(k_calls) (<[id := t]> k.(k_results)) k.(k_pairs)
    k.(k_saw) k.(k_stop) k.(k_miss) k.(k_telemetry) k.(k_usage) k.(k_booked) k.(k_rows) k.(k_appends) d.

Definition _unpersisted_pairs (g : recording) (k : recorder) : list message * recorder :=
  let '(rows, pairs) := unpersisted g.(rg_turn) (now k.(k_appends)) k.(k_stats) k.(k_results) k.(k_pairs) k.(k_calls) in
  (rows, set_pairs pairs k).

(** The final answer's stats. *)
Definition final_stats (us : usage) (turns : Z) (model : text) (misses : option (Z * Z)) : json :=
  let row := turn_usage_row us in
  JObj [("input_tokens"%string, JInt row.(tk_input));
        ("output_tokens"%string, JInt (or_count us "output_tokens" "completion_tokens"));
        ("cache_read"%string, JInt row.(tk_cache)); ("cache_create"%string, JInt (usage_at "cache_create" us));
        ("prompt_tokens_sum"%string, JInt row.(tk_prompt_sum)); ("cache_read_sum"%string, JInt row.(tk_cache_sum));
        ("num_turns"%string, JInt turns); ("model"%string, jtext model);
        ("reprefill_tokens"%string, match misses with Some (t, _) => JInt t | None => JNull end);
        ("prefix_misses"%string, match misses with Some (_, n) => JInt n | None => JNull end)].

Definition source_or_background (g : recording) : text := or_text g.(rg_source) (u "background").

(** ** One event ([handle]) *)

Definition on_assistant (g : recording) (calls : list call) (us : usage) (iteration : Z) (k : recorder) : recorder :=
  let it := if iteration =? 0 then k.(k_iteration) + 1 else iteration in
  let stats := stats_of us iteration g.(rg_model) in
  let miss := if miss_enabled then (observe rule it us k.(k_miss)).1 else k.(k_miss) in
  let k := Rec k.(k_text) k.(k_thinking) k.(k_seq) it stats k.(k_calls) k.(k_results) k.(k_pairs) k.(k_saw) k.(k_stop)
             miss k.(k_telemetry) k.(k_usage) k.(k_booked) k.(k_rows) k.(k_appends) k.(k_fs) in
  match calls with
  | _ :: _ =>
      if nonempty (strip k.(k_text))
      then set_buffers [] []
             (append [build_assistant_text_entry (fresh k.(k_appends)) k.(k_text) (now k.(k_appends)) (Some (JObj stats))
                        k.(k_thinking) [] None false false g.(rg_turn)] k)
      else k
  | [] => k
  end.

Definition on_thinking_done (g : recording) (t : text) (k : recorder) : recorder :=
  match t with
  | [] => set_buffers k.(k_text) [] k
  | _ =>
      let k := append [build_thinking_entry g.(rg_turn) t k.(k_seq) (k.(k_iteration) + 1) (now k.(k_appends))] k in
      Rec k.(k_text) [] (k.(k_seq) + 1) k.(k_iteration) k.(k_stats) k.(k_calls) k.(k_results) k.(k_pairs) k.(k_saw) k.(k_stop)
        k.(k_miss) k.(k_telemetry) k.(k_usage) k.(k_booked) k.(k_rows) k.(k_appends) k.(k_fs)
  end.

Definition on_tool_call (id name args_json summary : text) (k : recorder) : recorder :=
  Rec k.(k_text) k.(k_thinking) k.(k_seq) k.(k_iteration) k.(k_stats) (k.(k_calls) ++ [build_tool_call id name args_json summary])
    k.(k_results) k.(k_pairs) k.(k_saw) k.(k_stop) k.(k_miss) k.(k_telemetry) k.(k_usage) k.(k_booked) k.(k_rows)
    k.(k_appends) k.(k_fs).

Definition call_of (id : text) (k : recorder) : option tool_call :=
  head (sel (fun tc => bool_decide (tc.(tc_call_id) = id)) k.(k_calls)).

Definition on_tool_result (g : recording) (r : tool_result) (k : recorder) : recorder :=
  let id := r.(r_call_id) in
  let '(result, d) := shape_tool_result_for_transcript r.(r_content) id g.(rg_session) r.(r_name) g.(rg_disallowed) k.(k_fs) in
  let k := set_results id result d k in
  match call_of id k with
  | Some tc =>
      if bool_decide (id ∈ k.(k_pairs)) then k
      else
        let k := set_pairs ({[id]} ∪ k.(k_pairs)) k in
        let ts := now k.(k_appends) in
        append [build_tool_call_entry tc ts k.(k_stats) g.(rg_turn);
                build_tool_result_entry id result ts (Some r.(r_is_error)) (Some r.(r_raw_chars)) r.(r_images) g.(rg_turn)] k
  | None => k
  end.

Definition CANCELLED : text := u "cancelled".

Definition on_result (g : recording) (stop : text) (total : totals) (turns : Z) (response : text) (structured : option json)
    (k : recorder) : recorder :=
  let us := as_usage total in
  let row := turn_usage_row us in
  let misses := summary k.(k_miss) in
  let k := Rec k.(k_text) k.(k_thinking) k.(k_seq) k.(k_iteration) k.(k_stats) k.(k_calls) k.(k_results) k.(k_pairs) true
             (Some stop) k.(k_miss) k.(k_telemetry) k.(k_usage) k.(k_booked) k.(k_rows) k.(k_appends) k.(k_fs) in
  let k := book_row None row.(tk_input) (or_count us "output_tokens" "completion_tokens") row.(tk_cache)
             (usage_at "cache_create" us) turns misses k in
  let '(tail, k) := _unpersisted_pairs g k in
  let final_text := or_text k.(k_text) response in
  let tail :=
    if nonempty (strip final_text)
    then tail ++ [build_assistant_text_entry (fresh k.(k_appends)) final_text (now k.(k_appends))
                    (Some (final_stats us turns g.(rg_model) misses)) k.(k_thinking) (source_or_background g) structured
                    (bool_decide (stop = CANCELLED)) false g.(rg_turn)]
    else tail in
  set_buffers [] [] (append tail k).

Definition handle (g : recording) (e : event) (k : recorder) : recorder :=
  let k := Rec k.(k_text) k.(k_thinking) k.(k_seq) k.(k_iteration) k.(k_stats) k.(k_calls) k.(k_results) k.(k_pairs) k.(k_saw)
             k.(k_stop) k.(k_miss) (note e k.(k_telemetry)) k.(k_usage) k.(k_booked) k.(k_rows) k.(k_appends) k.(k_fs) in
  match e with
  | EvText t => set_buffers (k.(k_text) ++ t) k.(k_thinking) k
  | EvThinking t => set_buffers k.(k_text) (k.(k_thinking) ++ t) k
  | EvRetry _ _ n_text n_think =>
      let '(txt, thinking) := trim_discarded k.(k_text) k.(k_thinking) n_text n_think in set_buffers txt thinking k
  | EvThinkingDone t => on_thinking_done g t k
  | EvAssistant _ _ calls us iteration _ _ => on_assistant g calls us iteration k
  | EvToolCall id name args_json _ summary => on_tool_call id name args_json summary k
  | EvToolResult r => on_tool_result g r k
  | EvResult stop total turns response _ structured _ _ => on_result g stop total turns response structured k
  | EvSystem | EvRaw _ _ => k
  end.

(** ** The end ([close_interrupted]) *)

(** The exceptions that are a run stopped from outside. *)
Definition _CANCEL_REASONS : list text :=
  [u "CancelledError"; u "TimeoutError"; u "GeneratorExit"; u "KeyboardInterrupt"; u "TurnTimeout"].

Definition close_interrupted (g : recording) (reason : text) (k : recorder) : recorder :=
  if k.(k_saw) then k
  else
    let '(tail, k) := _unpersisted_pairs g k in
    let tail :=
      if nonempty (strip k.(k_text))
      then tail ++ [build_assistant_text_entry (fresh k.(k_appends)) k.(k_text) (now k.(k_appends)) None k.(k_thinking)
                      (source_or_background g) None true false g.(rg_turn)]
      else tail in
    let k := append tail k in
    let '(input, output, cache_read, cache_create, turns) := partial_row k.(k_telemetry) in
    book_row (Some (if bool_decide (reason ∈ _CANCEL_REASONS) then CANCELLED else u "error"))
      input output cache_read cache_create turns (summary k.(k_miss)) k.

(** [open]: the prompt's row. *)
Definition open_recording (g : recording) (prompt : text) (k : recorder) : recorder :=
  match prompt with
  | [] => k
  | _ => append [build_user_entry (fresh k.(k_appends)) prompt (now k.(k_appends)) (source_or_background g) g.(rg_turn)] k
  end.

(** [record_events]: the events as they are re-yielded, and the recorder when they end;
    [reason] names the exception that ended them, if one did. *)
Definition record_events (enabled : bool) (g : recording) (prompt : text) (events : list event) (reason : text)
    (rows : list message) (d : fs) : list event * recorder :=
  if negb enabled then (events, recorder0 rows d)
  else
    let k := open_recording g prompt (recorder0 rows d) in
    let k := fold_left (fun k e => handle g e k) events k in
    (events, close_interrupted g reason k).
End Recording.
