(* ===== verification/RecorderFacts.v ===== *)
(** * What a background run leaves behind

    However a recorded run ends - its result, its deadline, a crash - the transcript holds
    every call it made once, with its answer behind it, and everything it said; and the
    one case where the transcript says something twice. *)
From Stdlib Require Import String.
From S2P Require Import Prelude PyText Stamps QueueRows Regex Spill Messages Microcompact Policy PoolRun Meter ToolCatalog ToolCalls Relief Turn Dispatch TurnLoop TurnLogic TurnSamples LoopFacts BatchFacts WireFacts TurnUsage SpokenFacts Recorder.

Local Open Scope Z_scope.

(** ** Reading a transcript *)

(** What a row says: the text of an assistant row that carries no call. *)
Definition row_text (m : message) : text :=
  match is_assistant m, m.(m_tool_calls), m.(m_content) with
  | true, [], CBlocks [BText t] => t
  | _, _, _ => []
  end.
Definition said_by (rows : list message) : text := concat (map row_text rows).

(** The calls a transcript holds, by id. *)
Definition call_ids (rows : list message) : list text := concat (map (fun m => map tc_call_id m.(m_tool_calls)) rows).

(** The calls a stream of events announced. *)
Definition called (events : list event) : list text :=
  omap (fun e => match e with EvToolCall id _ _ _ _ => Some id | _ => None end) events.

Definition nonblank (t : text) : bool := nonempty (strip t).
Definition if_nonblank (t : text) : text := if nonblank t then t else [].

Lemma said_nil (a : text) : a ++ said_by [] = a.
Proof. apply app_nil_r. Qed.
Lemma said_one (a : text) m : a ++ said_by [m] = a ++ row_text m.
Proof. unfold said_by. simpl. by rewrite app_nil_r. Qed.
Lemma said_by_app a b : said_by (a ++ b) = said_by a ++ said_by b.
Proof. unfold said_by. by rewrite map_app, concat_app. Qed.
Lemma call_ids_app a b : call_ids (a ++ b) = call_ids a ++ call_ids b.
Proof. unfold call_ids. by rewrite map_app, concat_app. Qed.
Lemma called_app a b : called (a ++ b) = called a ++ called b.
Proof. apply omap_app. Qed.

Section Facts.
Context {DK : Disk}.
Variables (sessions_dir : text) (spill_on : bool) (row_ref : shot -> json).
Variables (now fresh : nat -> text) (lands : nat -> bool) (miss_enabled : bool) (rule : miss_rule).

Notation handle := (handle sessions_dir spill_on row_ref now fresh lands miss_enabled rule).
Notation append := (append lands).

(** ** One step *)

Definition own_id (tc : tool_call) : Prop := tc.(tc_id) = tc.(tc_call_id).

(** The rows one step adds, from [k] to [k']: they stand for themselves, and the pairs
    written are the calls among them. *)
Record adds (entries : list message) (k k' : recorder) : Prop := Adds {
  ad_rows : k_rows k' = k_rows k ++ entries \/ k_rows k' = k_rows k /\ ~ (forall n, lands n = true);
  ad_settled : settled entries;
  ad_ids : NoDup (call_ids entries);
  ad_new : forall id, id ∈ call_ids entries -> id ∉ k_pairs k /\ id ∈ map tc_call_id (k_calls k');
  ad_pairs : k_pairs k' = list_to_set (call_ids entries) ∪ k_pairs k;
  ad_own : Forall own_id (k_calls k) -> Forall own_id (k_calls k')
}.

Lemma append_rows entries k :
  k_rows (append entries k) = k_rows k ++ entries \/ k_rows (append entries k) = k_rows k /\ ~ (forall n, lands n = true).
Proof.
  destruct entries as [|m entries]; [left; by rewrite app_nil_r|]. simpl. destruct (lands _) eqn:El; [by left|right].
  split; [done|]. intros H. congruence.
Qed.

Lemma append_saw entries k : k_saw (append entries k) = k_saw k.
Proof. by destruct entries. Qed.

(** A call's two rows. *)
Lemma pair_settled tc stamp stats turn result ts err raw imgs : own_id tc ->
  let rows := [build_tool_call_entry tc stamp stats turn; build_tool_result_entry row_ref (tc_call_id tc) result ts err raw imgs turn] in
  settled rows /\ said_by rows = [] /\ call_ids rows = [tc_call_id tc].
Proof.
  intros Ho. cbn zeta. split; [|by split]. unfold settled. simpl. rewrite Ho. by destruct (decide _).
Qed.

Lemma unpersisted_spec turn stamp stats results calls : forall pairs rows pairs',
  Forall own_id calls ->
  unpersisted row_ref turn stamp stats results pairs calls = (rows, pairs') ->
  settled rows /\ said_by rows = [] /\ NoDup (call_ids rows) /\ pairs' = list_to_set (call_ids rows) ∪ pairs /\
  (forall id, id ∈ call_ids rows -> id ∉ pairs /\ id ∈ map tc_call_id calls) /\
  (forall tc, tc ∈ calls -> tc_call_id tc ∈ pairs').
Proof.
  induction calls as [|tc calls IH]; intros pairs rows pairs' Ho E; simpl in E.
  { simplify_eq. repeat split; try done; [constructor|set_solver|set_solver..]. }
  apply Forall_cons in Ho as [Htc Ho]. case_bool_decide as Hin.
  - destruct (IH _ _ _ Ho E) as (H1 & H2 & H3 & H4 & H5 & H6). repeat split; try done.
    + by apply H5.
    + simpl. right. by apply H5.
    + intros tc' Htc'. apply elem_of_cons in Htc' as [->|Htc']; [set_solver|by apply H6].
  - destruct (unpersisted _ _ _ _ _ _ calls) as [rows1 pairs1] eqn:E1. simplify_eq.
    destruct (IH _ _ _ Ho E1) as (H1 & H2 & H3 & H4 & H5 & H6).
    destruct (pair_settled tc stamp stats turn (default [] (results !! tc_call_id tc)) stamp None None [] Htc) as (P1 & P2 & P3).
    match goal with |- settled (?a :: ?b :: ?l) /\ _ => change (a :: b :: l) with ([a; b] ++ l) end.
    rewrite said_by_app, call_ids_app, P2, P3, H2. simpl.
    split; [exact (settled_app _ rows1 P1 H1)|]. split; [done|]. split; [|split; [|split]].
    + constructor; [|done]. intros Hc. apply H5 in Hc. set_solver.
    + rewrite H4. set_solver.
    + intros id Hid. apply elem_of_cons in Hid as [->|Hid]; [split; [done|by left]|]. apply H5 in Hid. set_solver.
    + intros tc' Htc'. apply elem_of_cons in Htc' as [->|Htc']; [rewrite H4; set_solver|by apply H6].
Qed.

(** What a step makes of the calls and of the text, [e] not being the result. *)
Definition hears (e : event) (entries : list message) (k k' : recorder) : Prop :=
  map tc_call_id (k_calls k') = map tc_call_id (k_calls k) ++ called [e] /\
  forall a, voice_step (a, k_text k) e = (a ++ said_by entries, k_text k').

Lemma adds_none k k' : k_rows k' = k_rows k -> k_pairs k' = k_pairs k ->
  (Forall own_id (k_calls k) -> Forall own_id (k_calls k')) -> adds [] k k'.
Proof.
  intros Hr Hp Ho. split; try done; [left; by rewrite app_nil_r|constructor|set_solver|]. rewrite Hp. set_solver.
Qed.

(** Rows that pair no call. *)
Lemma adds_append entries k k' : k_rows k' = k_rows (append entries k) -> k_pairs k' = k_pairs k -> k_calls k' = k_calls k ->
  settled entries -> call_ids entries = [] -> adds entries k k'.
Proof.
  intros Hr Hp Hc Hs Hi. split; rewrite ?Hi, ?Hr, ?Hc; try done; [apply append_rows|constructor|set_solver|].
  rewrite Hp. set_solver.
Qed.

Lemma plain_settled m : plain m -> settled [m].
Proof. intros Hm. by apply wire_plain; constructor. Qed.

Notation on_assistant := (on_assistant now fresh lands miss_enabled rule).
Notation on_tool_result := (on_tool_result sessions_dir spill_on row_ref now lands).

Lemma assistant_step g calls us it k : exists entries, adds entries k (on_assistant g calls us it k) /\
  k_calls (on_assistant g calls us it k) = k_calls k /\
  (forall a txt th n fin pos, voice_step (a, k_text k) (EvAssistant txt th calls us n fin pos)
     = (a ++ said_by entries, k_text (on_assistant g calls us it k))).
Proof.
  unfold Recorder.on_assistant. cbv zeta. set (k1 := Rec _ _ _ _ _ _ _ _ _ _ _ _ _ _ _ _ _).
  destruct calls as [|c calls].
  { exists []. split; [by apply adds_none|]. split; [done|]. intros. by rewrite said_nil. }
  change (k_text k1) with (k_text k). destruct (nonempty (strip (k_text k))) eqn:Et.
  2: { exists []. split; [by apply adds_none|]. split; [done|]. intros. rewrite said_nil. simpl. by rewrite Et. }
  set (row := build_assistant_text_entry _ _ _ _ _ _ _ _ _ _). exists [row].
  split; [|split; [done|intros; rewrite said_one; simpl; by rewrite Et]].
  apply adds_append; [by destruct (append_rows [row] k1)|done|done|by apply plain_settled|done].
Qed.

Lemma thinking_step g t k : exists entries, adds entries k (on_thinking_done now lands g t k) /\
  k_calls (on_thinking_done now lands g t k) = k_calls k /\ said_by entries = [] /\
  k_text (on_thinking_done now lands g t k) = k_text k.
Proof.
  destruct t as [|c t]; simpl.
  - exists []. split; [by apply adds_none|done].
  - set (row := build_thinking_entry _ _ _ _ _). exists [row]. split; [|done].
    apply adds_append; [done|done|done|by apply plain_settled|done].
Qed.

Lemma call_of_own id k tc : call_of id k = Some tc -> tc ∈ k_calls k /\ tc_call_id tc = id.
Proof.
  unfold call_of. intros H. apply head_Some_elem_of, elem_of_sel in H as [H1 H2]. by apply bool_decide_eq_true in H2.
Qed.

Lemma result_row_step g r k : Forall own_id (k_calls k) ->
  exists entries, adds entries k (on_tool_result g r k) /\
  k_calls (on_tool_result g r k) = k_calls k /\ said_by entries = [] /\ k_text (on_tool_result g r k) = k_text k.
Proof.
  intros Ho. unfold Recorder.on_tool_result. cbv zeta.
  destruct (shape_tool_result_for_transcript _ _ _ _ _ _ _ _) as [result d]. set (k1 := set_results _ _ _ k).
  destruct (call_of _ k1) as [tc|] eqn:Ec.
  2: { exists []. split; [by apply adds_none|done]. }
  case_bool_decide as Hin; [exists []; split; [by apply adds_none|done]|].
  apply call_of_own in Ec as [Htc Hid]. assert (Hown : own_id tc) by (by eapply Forall_forall in Ho).
  match goal with |- context [append ?l _] => set (rows := l) in * end.
  assert (settled rows /\ said_by rows = [] /\ call_ids rows = [tc_call_id tc]) as (P1 & P2 & P3)
    by (unfold rows; rewrite <- Hid; exact (pair_settled _ _ _ _ _ _ _ _ _ Hown)).
  exists rows. split; [|done]. split.
  - exact (append_rows rows k).
  - exact P1.
  - rewrite P3. apply NoDup_singleton.
  - rewrite P3. intros id ->%list_elem_of_singleton. split; [rewrite Hid; exact Hin|].
    change (tc_call_id tc ∈ map tc_call_id (k_calls k)). by apply list_elem_of_fmap_2.
  - rewrite P3. change ({[r_call_id r]} ∪ k_pairs k = list_to_set [tc_call_id tc] ∪ k_pairs k). rewrite Hid. set_solver.
  - done.
Qed.

Lemma handle_step g e k : (forall stop us n r c st er w, e <> EvResult stop us n r c st er w) -> Forall own_id (k_calls k) ->
  exists entries, adds entries k (handle g e k) /\ hears e entries k (handle g e k).
Proof.
  intros Hne Ho. unfold Recorder.handle. set (k1 := Rec _ _ _ _ _ _ _ _ _ _ _ _ _ _ _ _ _).
  assert (Hquiet : forall k', k_rows k' = k_rows k -> k_pairs k' = k_pairs k -> k_calls k' = k_calls k -> called [e] = [] ->
    (forall a, voice_step (a, k_text k) e = (a, k_text k')) -> exists entries, adds entries k k' /\ hears e entries k k').
  { intros k' H1 H2 H3 H4 H5. exists []. split; [apply adds_none; by rewrite ?H3|]. split; [by rewrite H3, H4, app_nil_r|].
    intros a. by rewrite H5, said_nil. }
  destruct e as [|t|t|t|id name aj args sm|r|txt th calls us n fin pos|reason n nt nk|raw er|stop us n resp c st er w];
    try (by apply Hquiet).
  - destruct (thinking_step g t k1) as (entries & Ha & Hc & Hs & Ht). exists entries. split; [by destruct Ha|].
    split; [by rewrite Hc, app_nil_r|]. intros a. by rewrite Hs, Ht, app_nil_r.
  - exists []. split; [apply adds_none; [done|done|]|].
    + intros _. simpl. apply Forall_app. split; [done|]. by repeat constructor.
    + split; [simpl; by rewrite map_app|]. intros a. by rewrite said_nil.
  - destruct (result_row_step g r k1 Ho) as (entries & Ha & Hc & Hs & Ht). exists entries. split; [by destruct Ha|].
    split; [by rewrite Hc, app_nil_r|]. intros a. by rewrite Hs, Ht, app_nil_r.
  - destruct (assistant_step g calls us n k1) as (entries & Ha & Hc & Hv). exists entries. split; [by destruct Ha|].
    split; [by rewrite Hc, app_nil_r|]. intros a. apply Hv.
  - by destruct (Hne stop us n resp c st er w).
Qed.

(** ** A stream of events *)

Definition all_land : Prop := forall n, lands n = true.

(** Where a recorder stands after some events. *)
Definition standing (rows0 : list message) (events : list event) (k : recorder) : Prop :=
  Forall own_id (k_calls k) /\ map tc_call_id (k_calls k) = called events /\
  exists new, k_rows k = rows0 ++ new /\ settled new /\
    (all_land -> NoDup (call_ids new) /\ k_pairs k = list_to_set (call_ids new) /\
       (forall id, id ∈ call_ids new -> id ∈ called events) /\
       fold_left voice_step events ([], []) = (said_by new, k_text k)).

Lemma standing_step rows0 events g e k : (forall stop us n r c st er w, e <> EvResult stop us n r c st er w) ->
  standing rows0 events k -> standing rows0 (events ++ [e]) (handle g e k).
Proof.
  intros Hne (Ho & Hc & new & Hr & Hs & Hall).
  destruct (handle_step g e k Hne Ho) as (entries & [Er Es Ei En Ep Eo] & Hcall & Hv).
  split; [by apply Eo|]. split; [by rewrite Hcall, Hc, called_app|].
  destruct Er as [Er|[Er Hno]].
  - exists (new ++ entries). split; [by rewrite Er, Hr, app_assoc|]. split; [by apply settled_app|].
    intros Hl. destruct (Hall Hl) as (H1 & H2 & H3 & H4). rewrite call_ids_app, said_by_app, fold_left_app, H4. simpl.
    rewrite Hv. split; [|split; [|split; [|done]]].
    + apply NoDup_app. split; [done|]. split; [|done]. intros id Hid Hid'. apply En in Hid' as [Hn _]. set_solver.
    + rewrite Ep, H2, list_to_set_app_L. apply union_comm_L.
    + intros id Hid. apply elem_of_app in Hid as [Hid|Hid]; [rewrite called_app; set_solver|].
      apply En in Hid as [_ Hid]. by rewrite Hcall, Hc, <- called_app in Hid.
  - exists new. split; [by rewrite Er|]. split; [done|]. done.
Qed.

Lemma standing_open rows0 g prompt d : standing rows0 [] (open_recording now fresh lands g prompt (recorder0 rows0 d)).
Proof.
  assert (H0 : standing rows0 [] (recorder0 rows0 d)).
  { split; [constructor|]. split; [done|]. exists []. split; [by rewrite app_nil_r|]. split; [done|]. intros _.
    split; [constructor|]. split; [done|]. split; [set_solver|done]. }
  destruct prompt as [|c prompt]; [done|]. simpl. set (row := build_user_entry _ _ _ _ _).
  split; [constructor|]. split; [done|]. destruct (lands 0) eqn:El.
  - exists [row]. split; [done|]. split; [by apply plain_settled|]. intros _.
    split; [constructor|]. split; [done|]. split; [set_solver|done].
  - exists []. split; [by rewrite app_nil_r|]. split; [done|]. intros Hl. specialize (Hl 0%nat). congruence.
Qed.

Lemma standing_stream rows0 g prompt d events : unfinished events ->
  standing rows0 events (fold_left (fun k e => handle g e k) events (open_recording now fresh lands g prompt (recorder0 rows0 d))).
Proof.
  induction events as [|e events IH] using rev_ind; intros Hu; [apply standing_open|].
  apply Forall_app in Hu as [Hu He]. rewrite Forall_singleton in He. rewrite fold_left_app. simpl.
  apply standing_step; [by intros * ->|by apply IH].
Qed.

(** ** The end of it *)

(** What the transcript holds when the recorder is done: whole calls, each once, and
    this text. *)
Definition told_all (rows0 : list message) (events : list event) (says : text) (k : recorder) : Prop :=
  exists new, k_rows k = rows0 ++ new /\ settled new /\
    (all_land -> NoDup (call_ids new) /\ (forall id, id ∈ call_ids new <-> id ∈ called events) /\ said_by new = says).

(** The last append: the calls without rows, then a text, unless it is blank. *)
Lemma tail_told rows0 events g k k1 txt row : standing rows0 events k ->
  row_text row = txt -> plain row -> m_tool_calls row = [] ->
  k_rows k1 = k_rows k -> k_calls k1 = k_calls k -> k_pairs k1 = k_pairs k ->
  let '(tail, k2) := _unpersisted_pairs row_ref now g k1 in
  told_all rows0 events ((fold_left voice_step events ([], [])).1 ++ if_nonblank txt)
    (append (if nonblank txt then tail ++ [row] else tail) k2).
Proof.
  intros (Ho & Hc & new & Hr & Hs & Hall) Hrow Hplain Hnc Er Ec Ep. unfold _unpersisted_pairs.
  destruct (unpersisted _ _ _ _ _ _ _) as [tail pairs] eqn:Eu. rewrite Ec, Ep in Eu.
  destruct (unpersisted_spec _ _ _ _ _ _ _ _ Ho Eu) as (U1 & U2 & U3 & U4 & U5 & U6).
  set (entries := if nonblank txt then tail ++ [row] else tail).
  assert (E1 : settled entries) by (unfold entries; destruct (nonblank txt); [apply settled_app; [done|by apply plain_settled]|done]).
  assert (E2 : said_by entries = if_nonblank txt).
  { unfold entries, if_nonblank. destruct (nonblank txt); [|done]. rewrite said_by_app, U2, said_one. exact Hrow. }
  assert (E3 : call_ids entries = call_ids tail).
  { unfold entries. destruct (nonblank txt); [|done]. rewrite call_ids_app. unfold call_ids at 2. simpl. by rewrite Hnc, app_nil_r. }
  destruct (append_rows entries (set_pairs pairs k1)) as [Ea|[Ea Hno]].
  - exists (new ++ entries). split; [rewrite Ea; cbn [set_pairs k_rows]; by rewrite Er, Hr, app_assoc|].
    split; [by apply settled_app|]. intros Hl. destruct (Hall Hl) as (H1 & H2 & H3 & H4).
    rewrite call_ids_app, said_by_app, E2, E3, H4. split; [|split; [|done]].
    + apply NoDup_app. split; [done|]. split; [|done]. intros id Hid Hid'. apply U5 in Hid' as [Hn _]. set_solver.
    + intros id. rewrite elem_of_app. split.
      * intros [Hid|Hid]; [by apply H3|]. apply U5 in Hid as [_ Hid]. by rewrite Hc in Hid.
      * rewrite <- Hc. intros Hid. apply list_elem_of_fmap in Hid as (tc & -> & Htc). apply U6 in Htc. rewrite U4, H2 in Htc.
        apply elem_of_union in Htc as [Htc|Htc]; [right|left]; by apply elem_of_list_to_set in Htc.
  - exists new. split; [rewrite Ea; cbn [set_pairs k_rows]; by rewrite Er|]. split; done.
Qed.

Lemma told_rows rows0 events says k k' : k_rows k' = k_rows k -> told_all rows0 events says k -> told_all rows0 events says k'.
Proof. intros Hr (new & H). exists new. by rewrite Hr. Qed.

Lemma book_rows stop a b c d e m k :
  k_rows (book_row stop a b c d e m k) = k_rows k /\ k_calls (book_row stop a b c d e m k) = k_calls k /\
  k_pairs (book_row stop a b c d e m k) = k_pairs k /\ k_text (book_row stop a b c d e m k) = k_text k /\
  k_saw (book_row stop a b c d e m k) = k_saw k /\ k_appends (book_row stop a b c d e m k) = k_appends k.
Proof. unfold book_row. by destruct (_ || _). Qed.

Lemma close_told rows0 events g reason k : standing rows0 events k -> k_saw k = false ->
  told_all rows0 events ((fold_left voice_step events ([], [])).1 ++ if_nonblank (k_text k))
    (close_interrupted row_ref now fresh lands g reason k).
Proof.
  intros Hst Hsaw. unfold close_interrupted. rewrite Hsaw.
  pose proof (fun row H1 H2 H3 => tail_told rows0 events g k k (k_text k) row Hst H1 H2 H3 eq_refl eq_refl eq_refl) as T.
  unfold _unpersisted_pairs in *. destruct (unpersisted _ _ _ _ _ _ _) as [tail pairs]. cbn [set_pairs k_text k_appends k_thinking] in *.
  set (row := build_assistant_text_entry _ _ _ _ _ _ _ _ _ _). specialize (T row eq_refl).
  destruct (partial_row _) as [[[[a b] c] d] e]. eapply told_rows; [apply (proj1 (book_rows _ _ _ _ _ _ _ _))|].
  apply T; done.
Qed.

Lemma saw_step g e k : (forall stop us n r c st er w, e <> EvResult stop us n r c st er w) -> k_saw (handle g e k) = k_saw k.
Proof.
  intros Hne. unfold Recorder.handle. set (k1 := Rec _ _ _ _ _ _ _ _ _ _ _ _ _ _ _ _ _).
  destruct e as [|t|t|t|id name aj args sm|r|txt th calls us n fin pos|reason n nt nk|raw er|stop us n resp c st er w]; try done.
  - destruct t; [done|]. unfold on_thinking_done. cbv zeta. cbn [k_saw]. by rewrite append_saw.
  - unfold Recorder.on_tool_result. cbv zeta. destruct (shape_tool_result_for_transcript _ _ _ _ _ _ _ _) as [result d].
    destruct (call_of _ _); [|done]. case_bool_decide; [done|]. by rewrite append_saw.
  - unfold Recorder.on_assistant. cbv zeta. destruct calls; [done|]. destruct (nonempty _); [|done]. cbn [set_buffers k_saw]. by rewrite append_saw.
  - by destruct (Hne stop us n resp c st er w).
Qed.

Lemma saw_stream g events : unfinished events -> forall k, k_saw (fold_left (fun k e => handle g e k) events k) = k_saw k.
Proof.
  induction 1 as [|e events He _ IH]; intros k; [done|]. simpl. rewrite IH. apply saw_step. by intros * ->.
Qed.

Lemma saw_open g prompt k : k_saw (open_recording now fresh lands g prompt k) = k_saw k.
Proof. destruct prompt; [done|]. unfold open_recording. by rewrite append_saw. Qed.

(** The result's own step. *)
Lemma result_told rows0 events g k stop us n resp c st er w : standing rows0 events k ->
  told_all rows0 events ((fold_left voice_step events ([], [])).1 ++ if_nonblank (or_text (k_text k) resp))
    (handle g (EvResult stop us n resp c st er w) k) /\
  k_saw (handle g (EvResult stop us n resp c st er w) k) = true.
Proof.
  intros Hst. unfold Recorder.handle, on_result. cbv zeta. set (k1 := book_row _ _ _ _ _ _ _ _).
  assert (Hk1 : k_rows k1 = k_rows k /\ k_calls k1 = k_calls k /\ k_pairs k1 = k_pairs k /\ k_text k1 = k_text k /\ k_saw k1 = true).
  { destruct (book_rows None (tk_input (turn_usage_row (as_usage us))) (or_count (as_usage us) "output_tokens" "completion_tokens")
      (tk_cache (turn_usage_row (as_usage us))) (usage_at "cache_create" (as_usage us)) n (summary (k_miss k))
      (Rec (k_text k) (k_thinking k) (k_seq k) (k_iteration k) (k_stats k) (k_calls k) (k_results k) (k_pairs k) true (Some stop)
         (k_miss k) (note (EvResult stop us n resp c st er w) (k_telemetry k)) (k_usage k) (k_booked k) (k_rows k) (k_appends k) (k_fs k)))
      as (H1 & H2 & H3 & H4 & H5 & _). by repeat split. }
  destruct Hk1 as (H1 & H2 & H3 & H4 & H5). clearbody k1.
  pose proof (fun row R1 R2 R3 => tail_told rows0 events g k k1 (or_text (k_text k) resp) row Hst R1 R2 R3 H1 H2 H3) as T.
  unfold _unpersisted_pairs in *. destruct (unpersisted _ _ _ _ _ _ _) as [tail pairs]. cbn [set_pairs k_text k_appends k_thinking] in *.
  rewrite H4. set (row := build_assistant_text_entry _ _ _ _ _ _ _ _ _ _). specialize (T row eq_refl).
  set (entries := if nonempty _ then _ else tail).
  split.
  - eapply told_rows; [|apply T; done]. done.
  - cbn [set_buffers k_saw]. by rewrite append_saw.
Qed.

(** ** The whole recording *)

Notation record := (record_events sessions_dir spill_on row_ref now fresh lands miss_enabled rule).

Lemma record_cut g prompt events reason rows0 d : unfinished events ->
  told_all rows0 events ((fold_left voice_step events ([], [])).1
      ++ if_nonblank (k_text (fold_left (fun k e => handle g e k) events (open_recording now fresh lands g prompt (recorder0 rows0 d)))))
    (record true g prompt events reason rows0 d).2.
Proof.
  intros Hu. cbn [record_events negb snd]. apply close_told; [by apply standing_stream|].
  by rewrite saw_stream, saw_open.
Qed.

Lemma told_voice rows0 events g prompt d txt says k :
  unfinished events ->
  txt = k_text (fold_left (fun k e => handle g e k) events (open_recording now fresh lands g prompt (recorder0 rows0 d))) ->
  told_all rows0 events (says txt) k ->
  told_all rows0 events (says (fold_left voice_step events ([], [])).2) k.
Proof.
  intros Hu -> (new & Hr & Hs & Hall). exists new. split; [done|]. split; [done|]. intros Hl.
  destruct (standing_stream rows0 g prompt d events Hu) as (_ & _ & new' & _ & _ & Hv).
  destruct (Hv Hl) as (_ & _ & _ & Ev). rewrite Ev. by apply Hall.
Qed.
End Facts.

(** C24: a background run killed at any moment leaves a usable transcript. Whatever events
    had come before its deadline, a cancellation or a crash, every one of them was passed
    on unchanged, and the transcript holds what was there before, then rows in which
    every call the run announced stands exactly once with one result right behind it, and
    the assistant rows say, in order, exactly the text the run had streamed and not taken
    back (a blank end apart); a write that fails loses its own rows and leaves the rest
    well formed. *)
Theorem killed_run_recorded {DK : Disk} (sessions_dir : text) (spill_on : bool) (row_ref : shot -> json) (now fresh : nat -> text)
    (lands : nat -> bool) (miss_enabled : bool) (rule : miss_rule)
    (g : recording) (prompt : text) (events : list event) (reason : text) (rows : list message) (d : fs) :
  unfinished events ->
  let '(seen, k) := record_events sessions_dir spill_on row_ref now fresh lands miss_enabled rule true g prompt events reason rows d in
  let v := fold_left voice_step events ([], []) in
  seen = events /\ told_all lands rows events (v.1 ++ if_nonblank v.2) k.
Proof.
  intros Hu. split; [done|].
  apply (told_voice sessions_dir spill_on row_ref now fresh lands miss_enabled rule rows events g prompt d _
           (fun t => (fold_left voice_step events ([], [])).1 ++ if_nonblank t) _ Hu eq_refl).
  by apply (record_cut sessions_dir spill_on row_ref now fresh lands miss_enabled rule g prompt events reason rows d).
Qed.

(** The transcript of a recorded run that reached its result. Its calls are paired as
    in a killed run's, and its assistant rows say what was set aside at each batch and
    then the pending text - which is the turn's response - except that a run whose last
    iteration said nothing has its whole response written again behind the rows that
    already hold it. *)
Theorem recorded_run_says {E : Type} (env : environment E)
    {DK : Disk} {JT : JsonText} {PJ : PyJson} {JD : JsonDecoder} {PU : PyUnicode}
    (sessions_dir : text) (resolve : text -> text) (image_tokens : Z) (shot_bytes : message -> Z) (sidecar_writable : bool)
    (lower_text : text -> text) (dump_compact : json -> text) (sha1_hex : text -> text)
    (fuel : nat) (o : run_options) (m : meter) (ms : list message) (w : outside E)
    (spill_on : bool) (row_ref : shot -> json) (now fresh : nat -> text) (lands : nat -> bool) (miss_enabled : bool) (rule : miss_rule)
    (g : recording) (prompt reason : text) (rows : list message) (d : fs) :
  match run_query env sessions_dir resolve image_tokens shot_bytes sidecar_writable lower_text dump_compact sha1_hex
          fuel o m ms w with
  | Ran (Ok (Some _)) s =>
      let events := heard (x_log s) in
      let v := fold_left voice_step events ([], []) in
      told_all lands rows events (v.1 ++ if_nonblank (or_text v.2 v.1))
        (record_events sessions_dir spill_on row_ref now fresh lands miss_enabled rule true g prompt events reason rows d).2
  | _ => True
  end.
Proof.
  destruct (run_query _ _ _ _ _ _ _ _ _ _ _ _ _ _) as [e w'|[[[]|]|e] s] eqn:Er; try done.
  apply run_concludes in Er as (front & stop & us & n & c & st & err & wrapped & Hu & Eh).
  cbv zeta. rewrite Eh, fold_left_app. set (v := fold_left voice_step front ([], [])) in *. cbn [fold_left voice_step].
  set (res := EvResult _ _ _ _ _ _ _ _).
  pose proof (standing_stream sessions_dir spill_on row_ref now fresh lands miss_enabled rule rows g prompt d front Hu) as Hst.
  destruct (result_told sessions_dir spill_on row_ref now fresh lands miss_enabled rule rows front g _ stop us n (v.1 ++ v.2) c st err wrapped Hst)
    as [Ht Hsaw].
  apply (told_voice sessions_dir spill_on row_ref now fresh lands miss_enabled rule rows front g prompt d _
           (fun t => v.1 ++ if_nonblank (or_text t (v.1 ++ v.2))) _ Hu eq_refl) in Ht.
  fold v in Ht. fold res in Ht, Hsaw. cbn [record_events negb snd]. rewrite fold_left_app. cbn [fold_left].
  unfold close_interrupted. rewrite Hsaw.
  destruct Ht as (new & Hr & Hs & Hall). exists new. split; [done|]. split; [done|]. intros Hl.
  destruct (Hall Hl) as (H1 & H2 & H3). split; [done|]. rewrite called_app, app_nil_r. split; [done|].
  rewrite H3. destruct v as [v1 [|x v2]]; simpl; [by rewrite app_nil_r|done].
Qed.

(** The doubled response, in a run of two iterations whose second is over the budget. *)
#[local] Existing Instance blank_json.
#[local] Existing Instance sample_py.
#[local] Existing Instance sample_decoder.
#[local] Existing Instance sound_disk.
#[local] Existing Instance ascii_only.

Definition look_then_call (n : Z) : reply :=
  Streamed [said_text "Looking."; said_calls [("a", "Read")]%string] None.

Definition sample_recording : recording := Recording (u "s1") (u "t1") (u "primary") (u "autonomy") [].

Lemma killed_run_recorded_witness :
  let events := [EvSystem; EvText (u "Looking."); EvAssistant (u "Looking.") [] [sample_call "a" "Read"] ∅ 1 (u "stop") None;
                 EvToolCall (u "a") (u "Read") (u "{}") [] []] in
  exists k new, record_events [] true (fun _ => JNull) (fun _ => []) (fun _ => []) (fun _ => true) true default_rule true
                  sample_recording (u "go") events (u "TimeoutError") [] ∅ = (events, k) /\
    k_rows k = new /\ settled new /\ said_by new = u "Looking." /\ call_ids new = [u "a"].
Proof.
  intros events.
  pose proof (killed_run_recorded [] true (fun _ => JNull) (fun _ => []) (fun _ => []) (fun _ => true) true default_rule
    sample_recording (u "go") events (u "TimeoutError") [] ∅ ltac:(repeat constructor)) as H.
  destruct (record_events _ _ _ _ _ _ _ _ _ _ _ _ _ _ _) as [seen k] eqn:Ek. destruct H as [-> (new & Hr & Hs & Hall)].
  exists k, new. split; [reflexivity|]. split; [exact Hr|]. split; [exact Hs|].
  destruct (Hall (fun _ => eq_refl)) as (_ & _ & Hsay). split; [rewrite Hsay; vm_compute; reflexivity|].
  assert (Hk : k = (record_events [] true (fun _ => JNull) (fun _ => []) (fun _ => []) (fun _ => true) true default_rule true
                  sample_recording (u "go") events (u "TimeoutError") [] ∅).2) by (by rewrite Ek).
  assert (Hn : new = k_rows k) by (symmetry; exact Hr). rewrite Hn, Hk. vm_compute. reflexivity.
Defined.

Lemma silent_end_doubles :
  match run_query (sample_env look_then_call) [] (fun p => p) 0 (fun _ => 0) false (fun t => t) (fun _ => []) (fun t => t)
          10 (sample_options 1 [] None) (new_meter 1000) [plain_row "user" (u "go")] sample_outside with
  | Ran (Ok (Some _)) s =>
      said_by (k_rows (record_events [] true (fun _ => JNull) (fun _ => []) (fun _ => []) (fun _ => true) true default_rule true
                         sample_recording (u "go") (heard (x_log s)) [] [] ∅).2) = u "Looking.Looking."
  | _ => False
  end.
Proof. vm_compute. reflexivity. Qed.
