(* ===== verification/GateFacts.v ===== *)
(** * No call reaches a tool past a gate

    Over a whole run: a call that was dispatched is on the allow-list where the turn has
    one, and every pre-tool hook that watches it was asked about it before, let it
    through, and - where the hook is one that fails closed - did not raise. *)
From Stdlib Require Import String.
From S2P Require Import Prelude PyText Stamps QueueRows Regex Spill Messages Microcompact Policy PoolRun Meter ToolCatalog ToolCalls Relief Turn Dispatch TurnLoop TurnLogic TurnSamples.

Local Open Scope Z_scope.

(** An answer that lets the call go on to the tools. *)
Definition opens (h : pre_hook) (said : hook_end) : Prop :=
  match said with
  | Passed => True
  | Said out => ho_deny out = false /\ ho_deliver out = None
  | Threw _ => ph_fail_closed h = false
  end.
Definition watches (h : pre_hook) (name : text) : Prop := match ph_matcher h with Some m => m = name | None => True end.

Definition asked (hs : list pre_hook) (log : list entry) (id name : text) : Prop :=
  forall i h, hs !! i = Some h -> watches h name -> exists said, Consulted i id said ∈ log /\ opens h said.

Definition let_through (o : run_options) (log : list entry) (id name : text) : Prop :=
  (forall allowed, _allowed_names o = Some allowed -> normalize_tool_name name ∈ allowed) /\
  (forall hs, o_hooks o = Some hs -> asked hs log id (normalize_tool_name name)).

(** Every dispatch of a trace was let through before it. *)
Definition gated (o : run_options) (log : list entry) : Prop :=
  forall k d, log !! k = Some (Dispatched d) -> let_through o (take k log) (dp_id d) (dp_name d).

Lemma asked_more hs log ext id name : asked hs log id name -> asked hs (log ++ ext) id name.
Proof. intros H i h Hi Hw. destruct (H i h Hi Hw) as (said & Hin & Ho). exists said. split; [set_solver|done]. Qed.
Lemma let_more o log ext id name : let_through o log id name -> let_through o (log ++ ext) id name.
Proof. intros [H1 H2]. split; [done|]. intros hs Hh. by apply asked_more, H2. Qed.

Lemma gated_nil o : gated o [].
Proof. by intros k d. Qed.
Lemma gated_snoc o log e :
  gated o log -> (forall d, e = Dispatched d -> let_through o log (dp_id d) (dp_name d)) -> gated o (log ++ [e]).
Proof.
  intros Hg He k d Hk. destruct (decide (k < length log)%nat) as [Hlt|Hge].
  - rewrite lookup_app_l in Hk by done. rewrite take_app_le by lia. by apply Hg.
  - rewrite lookup_app_r in Hk by lia. destruct (k - length log)%nat as [|n] eqn:En; [|done].
    injection Hk as ->. replace k with (length log) by lia. rewrite take_app_length. by apply He.
Qed.
Lemma gated_quiet o log ext : Forall (fun e => match e with Dispatched _ => False | _ => True end) ext -> gated o log -> gated o (log ++ ext).
Proof.
  intros He. revert log. induction He as [|e ext He _ IH]; intros log Hg; [by rewrite app_nil_r|].
  rewrite (app_assoc log [e] ext : log ++ e :: ext = _). apply IH, gated_snoc; [done|]. by intros d ->.
Qed.

Section Facts.
Context {E : Type} (env : environment E).
Context {DK : Disk} {JT : JsonText} {PJ : PyJson} {JD : JsonDecoder} {PU : PyUnicode}.
Variables (sessions_dir : text) (resolve : text -> text) (image_tokens : Z) (shot_bytes : message -> Z)
          (sidecar_writable : bool).
Variables (lower_text : text -> text) (dump_compact : json -> text).
Variable o : run_options.

Implicit Types (s : run_state E) (dis : gset text).

(** The trace grows, and a gated one stays so. *)
Definition holds s s' : Prop := (exists ext, x_log s' = x_log s ++ ext) /\ (gated o (x_log s) -> gated o (x_log s')).

Lemma holds_refl s : holds s s.
Proof. split; [exists []; by rewrite app_nil_r|done]. Qed.

#[local] Instance holds_preorder : PreOrder holds.
Proof.
  split; [exact holds_refl|].
  intros s1 s2 s3 [[e1 H1] G1] [[e2 H2] G2]. split; [exists (e1 ++ e2); by rewrite H2, H1, app_assoc|auto].
Qed.

Lemma holds_query A (q : ask A) : (forall a, Forall (fun e => match e with Dispatched _ => False | _ => True end) (entries q a)) ->
  moves holds (query env q).
Proof. intros Hq s. apply wp_query. intros a rows w _. split; [by eexists|]. by apply gated_quiet. Qed.
Lemma holds_ask A (q : ask A) : loud q = false -> moves holds (query env q).
Proof. intros Hq. apply holds_query. intros a. destruct q; by repeat constructor. Qed.
Lemma holds_yield e : moves holds (query env (AskYield e)).
Proof. apply holds_query. intros a. by repeat constructor. Qed.
Lemma holds_stream r : moves holds (query env (AskStream r)).
Proof. apply holds_query. intros a. by repeat constructor. Qed.
Lemma holds_turn s t w : tallies (x_turn s) = tallies t -> holds s (RunState t (x_msgs s) w (x_log s)).
Proof. intros _. exact (holds_refl s). Qed.
Lemma holds_msgs s ms : holds s (RunState (x_turn s) ms (x_out s) (x_log s)).
Proof. exact (holds_refl s). Qed.
Lemma holds_modify f : moves holds (@modify E f).
Proof. intros s. apply wp_modify. exact (holds_refl s). Qed.

Hint Resolve holds_turn holds_msgs holds_ask holds_yield : holds.
Hint Resolve holds_modify holds_stream : moves.
Hint Extern 1 (moves holds (query env _)) => by apply holds_ask : moves.
Ltac holds_by L := eapply L; solve [eauto with holds | exact _].
Hint Extern 1 (moves holds get_turn) => holds_by @moves_get_turn : moves.
Hint Extern 1 (moves holds get_msgs) => holds_by @moves_get_msgs : moves.
Hint Extern 1 (moves holds (is_cancelled _ _)) => holds_by @moves_is_cancelled : moves.
Hint Extern 1 (moves holds (put_msgs _)) => holds_by @moves_put_msgs : moves.
Hint Extern 1 (moves holds (extend _)) => holds_by @moves_extend : moves.
Hint Extern 1 (moves holds (remeter _)) => holds_by @moves_remeter : moves.
Hint Extern 1 (moves holds (yield_ _ _)) => holds_by @moves_say : moves.
Hint Extern 1 (moves holds (yield_retry _ _ _ _)) => holds_by @moves_retry : moves.
Hint Extern 1 (moves holds (fire_on_event _ _ _)) => holds_by @moves_fire : moves.
Hint Extern 1 (moves holds (relieve _ _ _ _ _ _ _ _)) => holds_by @moves_relieve : moves.
Hint Extern 1 (moves holds (splice _ _)) => holds_by @moves_splice : moves.
Hint Extern 1 (moves holds (current_disallowed _ _)) => holds_by @moves_disallowed : moves.
Hint Extern 1 (moves holds (take_chunks _ _ _)) => holds_by @moves_chunks : moves.
Hint Extern 1 (moves holds (_after_batch _ _ _ _ _ _)) => holds_by @moves_after : moves.
Hint Extern 1 (moves holds (_close_turn _ _)) => holds_by @moves_close : moves.
Hint Extern 1 (moves holds (announce _ _ _)) => holds_by @moves_announce : moves.
Hint Extern 1 (moves holds (_pre_dispatch _ _ _ _ _ _)) => holds_by @moves_pre : moves.
Hint Extern 1 (moves holds (post_hook _ _ _ _ _ _)) => holds_by @moves_post : moves.
Hint Extern 1 (moves holds get_fs) => holds_by @moves_get_fs : moves.
Hint Extern 1 (moves holds (put_fs _)) => holds_by @moves_put_fs : moves.
Hint Extern 1 (moves holds (write_results _ _ _ _)) => holds_by @moves_write : moves.

(** ** The walk *)

Lemma walk_some name args id summary hs : forall i out s,
  wp (walk_hooks env name args id summary i hs (Some out)) (fun r _ => r <> Ok None) s.
Proof.
  induction hs as [|h hs IH]; intros i out s; simpl; [by apply wp_ret|].
  destruct (match ph_matcher h with Some m => _ | None => _ end); [apply IH|].
  apply wp_bind, wp_query. intros [|out'|why] rows w _; [apply IH| |].
  - destruct (ho_deny out'); [by apply wp_ret|apply IH].
  - destruct (ph_fail_closed h); [by apply wp_ret|apply IH].
Qed.

(** Let through by the hooks from the [i]-th on. *)
Definition asked_from (i : nat) (hs : list pre_hook) (log : list entry) (id name : text) : Prop :=
  forall j h, hs !! j = Some h -> watches h name -> exists said, Consulted (i + j) id said ∈ log /\ opens h said.

Lemma walk_asks name args id summary hs : forall i s,
  wp (walk_hooks env name args id summary i hs None) (fun r s' =>
    (exists ext, x_log s' = x_log s ++ ext) /\ (r = Ok None -> asked_from i hs (x_log s') id name)) s.
Proof.
  induction hs as [|h hs IH]; intros i s; simpl; [apply wp_ret; split; [exists []; by rewrite app_nil_r|by intros _ j]|].
  assert (Hnext : forall s1, (exists ext, x_log s1 = x_log s ++ ext) ->
    (watches h name -> exists said, Consulted i id said ∈ x_log s1 /\ opens h said) ->
    wp (walk_hooks env name args id summary (S i) hs None) (fun r s' =>
      (exists ext, x_log s' = x_log s ++ ext) /\ (r = Ok None -> asked_from i (h :: hs) (x_log s') id name)) s1).
  { intros s1 [e1 H1] Hh. eapply wp_mono; [apply IH|]. intros r s2 [[e2 H2] Ha].
    split; [exists (e1 ++ e2); by rewrite H2, H1, app_assoc|]. intros Hr [|j] h' Hj Hw.
    - injection Hj as <-. rewrite Nat.add_0_r. destruct (Hh Hw) as (said & Hin & Ho). exists said. rewrite H2. split; [set_solver|done].
    - destruct (Ha Hr j h' Hj Hw) as (said & Hin & Ho). exists said. by replace (i + S j)%nat with (S i + j)%nat by lia. }
  destruct (match ph_matcher h with Some m => _ | None => _ end) eqn:Em.
  { apply Hnext; [exists []; by rewrite app_nil_r|]. unfold watches. destruct (ph_matcher h) as [m|]; [|done]. intros ->.
    apply negb_true_iff, bool_decide_eq_false in Em. done. }
  apply wp_bind, wp_query. intros said rows w _. set (s1 := RunState _ _ _ _).
  assert (H1 : exists ext, x_log s1 = x_log s ++ ext) by (by eexists).
  assert (Hin : Consulted i id said ∈ x_log s1) by (cbn [s1 x_log entries]; set_solver).
  destruct said as [|out|why].
  - apply Hnext; [done|]. intros _. by exists Passed.
  - destruct (ho_deny out) eqn:Ed; [by apply wp_ret|]. destruct (ho_deliver out) eqn:El.
    + apply wp_of. intros r s2 Er. pose proof (wp_run _ _ _ _ _ (walk_some name args id summary hs (S i) out s1) Er) as Hn.
      split; [|done]. pose proof (wp_run _ _ _ _ _ (moves_walk env holds holds_ask name args id summary hs (S i) (Some out) s1) Er) as [[e2 H2] _].
      destruct H1 as [e1 H1]. exists (e1 ++ e2). by rewrite H2, H1, app_assoc.
    + apply Hnext; [done|]. intros _. by exists (Said out).
  - destruct (ph_fail_closed h) eqn:Ef; [by apply wp_ret|]. apply Hnext; [done|]. intros _. by exists (Threw why).
Qed.

(** A call the gates let go on is let through. *)
Lemma pre_lets dis tc s :
  wp (_pre_dispatch env lower_text dump_compact o dis tc) (fun r s' =>
    holds s s' /\ (r = Ok None -> let_through o (x_log s') (c_id tc) (c_name tc))) s.
Proof.
  apply wp_of. intros r s' Er. assert (Hm : moves holds (_pre_dispatch env lower_text dump_compact o dis tc)) by moves_auto.
  split; [apply (wp_run _ _ _ _ _ (Hm s) Er)|]. revert r s' Er.
  cut (wp (_pre_dispatch env lower_text dump_compact o dis tc) (fun r s' => r = Ok None -> let_through o (x_log s') (c_id tc) (c_name tc)) s).
  { intros H r s' Er. apply (wp_run _ _ _ _ _ H Er). }
  unfold _pre_dispatch. apply wp_bind, wp_get_turn.
  assert (Hg : gates_before_hooks o dis (t_loaded (x_turn s)) (t_meter (x_turn s)) tc = Onward ->
    forall allowed, _allowed_names o = Some allowed -> normalize_tool_name (c_name tc) ∈ allowed).
  { unfold gates_before_hooks. destruct (is_parse_error _); [done|]. case_bool_decide; [done|]. cbn zeta.
    intros Hon allowed Ha. rewrite Ha in Hon. by case_bool_decide. }
  destruct (gates_before_hooks _ _ _ _ _) as [r|q|]; [by apply wp_ret| |].
  - apply wp_bind, wp_lift. destruct (search_tools _ _ _ _ _); [|done]. apply wp_bind, wp_of. intros [[]|e] s1 _; [by apply wp_ret|done].
  - specialize (Hg eq_refl). apply wp_bind, wp_of. intros [[]|e] s1 _; [|done].
    destruct (o_hooks o) as [hs|] eqn:Eh.
    2: { apply wp_ret. intros _. split; [done|]. by rewrite Eh. }
    apply wp_bind. eapply wp_mono; [apply walk_asks|]. intros [[out|]|e] s2 [_ Ha]; [| |done].
    + destruct (ho_deliver out); by apply wp_ret.
    + apply wp_ret. intros _. split; [done|]. rewrite Eh. intros hs' [= <-] i h Hi Hw. by apply (Ha eq_refl i h).
Qed.

(** ** The call and the batch *)

(** The calls at hand are let through. *)
Definition lets (s : run_state E) (l : list (nat * call)) : Prop :=
  Forall (fun ic => let_through o (x_log s) (c_id ic.2) (c_name ic.2)) l.

Lemma lets_more s s' l : holds s s' -> lets s l -> lets s' l.
Proof.
  intros [[ext He] _] Hl. unfold lets in *. rewrite He. eapply Forall_impl; [exact Hl|]. intros ic. apply let_more.
Qed.

Lemma tool_holds dis tc s : let_through o (x_log s) (c_id tc) (c_name tc) ->
  wp (query env (AskTool (dispatch_of dis tc))) (fun _ s' => holds s s') s.
Proof.
  intros Hl. apply wp_query. intros a rows w _. split; [by eexists|]. intros Hg. apply gated_snoc; [done|].
  by intros d [= <-].
Qed.

Lemma exec_holds dis tc s : let_through o (x_log s) (c_id tc) (c_name tc) ->
  wp (_execute_tool_call env sessions_dir o dis tc) (fun _ s' => holds s s') s.
Proof.
  intros Hl. unfold _execute_tool_call. apply wp_bind. eapply wp_mono; [by apply tool_holds|].
  intros [[ending stopped]|e] s1 H1; [|done]. cbn beta iota zeta.
  match goal with |- wp ?m _ _ => assert (Hm : moves holds m) by moves_auto end.
  eapply (wp_moves holds); [exact Hm|]. intros r s2 H2. by transitivity s1.
Qed.

Lemma execute_all_holds dis adm : forall s, lets s adm ->
  wp (execute_all env sessions_dir o dis adm) (fun _ s' => holds s s') s.
Proof.
  induction adm as [|[i tc] adm IH]; intros s Hl; simpl; [apply wp_ret, holds_refl|].
  apply Forall_cons in Hl as [Htc Hl]. apply wp_bind. eapply wp_mono; [by apply exec_holds|].
  intros [x|e] s1 H1; [|done]. apply wp_bind. eapply wp_mono; [apply IH; by eapply lets_more|].
  intros [rs|e] s2 H2; [apply wp_ret|]; by transitivity s1.
Qed.

Lemma admit_lets dis slots : forall rest ready adm s, lets s adm ->
  wp (admit_calls env lower_text dump_compact o dis slots rest ready adm) (fun r s' =>
    holds s s' /\ forall rest' ready' adm', r = Ok (rest', ready', adm') -> lets s' adm') s.
Proof.
  induction slots as [|slots IH]; intros [|[i tc] rest] ready adm s Hl; simpl;
    try (apply wp_ret; split; [apply holds_refl|by intros ??? [= _ _ <-]]).
  apply wp_bind. apply wp_of. intros r s1 Er.
  assert (Ha : moves holds (announce env o tc)) by moves_auto. pose proof (wp_run _ _ _ _ _ (Ha s) Er) as H1.
  destruct r as [x|e]; [|by split]. apply wp_bind. eapply wp_mono; [apply pre_lets|]. intros [[res|]|e] s2 [H2 Hp];
    pose proof (lets_more _ _ _ H2 (lets_more _ _ _ H1 Hl)) as Hl2; assert (H12 : holds s s2) by (by transitivity s1).
  - eapply wp_mono; [by apply IH|]. intros r s3 [H3 H4].
    split; [by transitivity s2|done].
  - eapply wp_mono; [apply IH|].
    + apply Forall_app. split; [done|]. constructor; [by apply Hp|constructor].
    + intros r s3 [H3 H4]. split; [by transitivity s2|done].
  - by split.
Qed.

Lemma pick_elems n running c others : pick_landed n running = Some (c, others) -> c ∈ running /\ forall x, x ∈ others -> x ∈ running.
Proof.
  unfold pick_landed. destruct (running !! _) as [c'|] eqn:El; [|done]. intros [= <- <-]. split; [by eapply list_elem_of_lookup_2|].
  intros x Hx. apply elem_of_app in Hx as [Hx|Hx]; [by apply elem_of_take in Hx as (k & Hk & _); eapply list_elem_of_lookup_2|].
  apply list_elem_of_lookup in Hx as [k Hk]. rewrite lookup_drop in Hk. by eapply list_elem_of_lookup_2.
Qed.

Notation round := (batch_round env sessions_dir lower_text dump_compact o).
Notation rounds := (batch_loop env sessions_dir lower_text dump_compact).

Lemma write_running fuel calls allow : forall b s,
  wp (write_results fuel calls allow b) (fun r s' => holds s s' /\ forall b', r = Ok b' -> b_running b' = b_running b) s.
Proof.
  induction fuel as [|fuel IH]; intros b s; simpl; [apply wp_ret; split; [apply holds_refl|by intros b' [= <-]]|].
  destruct (calls !! b_written b) as [tc|]; [|apply wp_ret; split; [apply holds_refl|by intros b' [= <-]]].
  destruct (b_results b !! b_written b) as [r|]; [|apply wp_ret; split; [apply holds_refl|by intros b' [= <-]]].
  apply wp_bind, wp_extend. eapply wp_mono; [apply IH|]. intros r' s' [H1 H2]. by split.
Qed.

(** Handing out an answer, and writing what can be written. *)
Lemma hand_out_holds calls allow_of (r : tool_result) b s :
  wp (_ <-s yield_ env (EvToolResult r) ;; _ <-s fire_on_event env o (EvToolResult r) ;;
      t <-s get_turn ;; write_results (length calls) calls (allow_of t) b)
    (fun x s' => holds s s' /\ forall b', x = Ok b' -> b_running b' = b_running b) s.
Proof.
  apply wp_bind. eapply (wp_moves holds); [moves_auto|]. intros [x|e] s1 H1; [|by split].
  apply wp_bind. eapply (wp_moves holds); [moves_auto|]. intros [y|e] s2 H2; [|split; [by transitivity s1|done]].
  apply wp_bind, wp_get_turn. eapply wp_mono; [apply write_running|]. intros z s3 [H3 H4].
  split; [by transitivity s1; [|by transitivity s2]|done].
Qed.

Lemma round_lets dis calls nudge c b s : lets s (b_running b) ->
  wp (round dis calls nudge c b) (fun r s' => holds s s' /\ forall b', r = Ok b' -> lets s' (b_running b')) s.
Proof.
  intros Hl. unfold batch_round. apply wp_bind. eapply wp_mono; [apply (admit_lets dis _ _ _ []); constructor|].
  intros [[[rest ready] adm]|e] s1 [H1 Ha]; [|by split]. specialize (Ha _ _ _ eq_refl).
  assert (Hl1 : lets s1 (b_running b)) by (by eapply lets_more). apply wp_bind.
  assert (Hst : wp (if (c =? 1)%nat then rs <-s execute_all env sessions_dir o dis adm ;; sret (ready ++ rs, b_running b)
                    else sret (ready, b_running b ++ adm))
                 (fun r s' => holds s1 s' /\ forall ready' running', r = Ok (ready', running') -> lets s' running') s1).
  { destruct (c =? 1)%nat.
    - apply wp_bind. eapply wp_mono; [by apply execute_all_holds|]. intros [rs|e] s2 H2; [|by split].
      apply wp_ret. split; [done|]. intros ? ? [= _ <-]. by eapply lets_more.
    - apply wp_ret. split; [apply holds_refl|]. intros ? ? [= _ <-]. by apply Forall_app. }
  eapply wp_mono; [exact Hst|]. intros [[ready2 running]|e] s2 [H2 Hl2]; [|split; [by transitivity s1|done]].
  specialize (Hl2 _ _ eq_refl). assert (H12 : holds s s2) by (by transitivity s1). apply wp_bind.
  assert (Htk : wp (match ready2 with
      | (i, r) :: ready => sret (Some (i, r, ready, running))
      | [] => n <-s query env (AskNext (map fst running)) ;;
              match pick_landed n running with
              | Some ((i, tc), running) => r <-s _execute_tool_call env sessions_dir o dis tc ;; sret (Some (i, r, [], running))
              | None => sret None
              end
      end) (fun r s' => holds s2 s' /\ (r = Ok None -> lets s' running) /\ forall i x rdy run, r = Ok (Some (i, x, rdy, run)) -> lets s' run) s2).
  { destruct ready2 as [|[i r] ready2]; [|apply wp_ret; split; [apply holds_refl|]; split; [done|by intros ? ? ? ? [= _ _ _ <-]]].
    apply wp_bind. eapply (wp_moves holds); [moves_auto|]. intros [n|e] s3 H3; [|by split].
    assert (Hl3 : lets s3 running) by (by eapply lets_more).
    destruct (pick_landed n running) as [[[i tc] others]|] eqn:Ep; [|by apply wp_ret].
    apply pick_elems in Ep as [Hc Hoth]. unfold lets in Hl3. rewrite Forall_forall in Hl3.
    apply wp_bind. eapply wp_mono; [apply (exec_holds dis tc), (Hl3 (i, tc) Hc)|]. intros [x|e] s4 H4; [|split; [by transitivity s3|done]].
    apply wp_ret. split; [by transitivity s3|]. split; [done|]. intros ? ? ? ? [= _ _ _ <-].
    eapply lets_more; [exact H4|]. apply Forall_forall. intros y Hy. by apply Hl3, Hoth. }
  eapply wp_mono; [exact Htk|]. intros [[[[[i r] rdy] run]|]|e] s3 (H3 & Hn & Hs); [| |split; [by transitivity s2|done]].
  - cbv zeta. set (r' := if bool_decide _ then _ else r). specialize (Hs _ _ _ _ eq_refl).
    eapply wp_mono; [apply (hand_out_holds calls (fun t => negb (t_images_latched t)) r' (Batch rest rdy run (<[i:=r']> (b_results b)) (b_written b)))|].
    intros x s4 [H4 Hb]. split; [by transitivity s2; [|by transitivity s3]|].
    intros b' ->. rewrite (Hb b' eq_refl). by eapply lets_more.
  - apply wp_ret. split; [by transitivity s2|]. intros b' [= <-]. by apply Hn.
Qed.

Lemma rounds_hold dis calls nudge c fuel : forall b s, lets s (b_running b) ->
  wp (rounds fuel o dis calls nudge c b) (fun _ s' => holds s s') s.
Proof.
  induction fuel as [|fuel IH]; intros b s Hl; simpl; [apply wp_ret, holds_refl|].
  destruct (batch_done b); [apply wp_ret, holds_refl|]. apply wp_bind. eapply wp_mono; [by apply round_lets|].
  intros [b'|e] s1 [H1 Hb]; [|done]. eapply wp_mono; [by apply IH, Hb|]. intros r s2 H2. by transitivity s1.
Qed.

Lemma dispatch_holds it : moves holds (_dispatch_batch env sessions_dir shot_bytes lower_text dump_compact o it).
Proof.
  intros s. unfold _dispatch_batch. apply wp_bind, wp_get_turn. destruct (_account_captions _ _ _ _) as [captions nudge_id].
  apply wp_bind, wp_modify, wp_bind. eapply wp_mono; [apply rounds_hold; constructor|].
  intros [b|e] s1 H1; [|exact H1]. apply wp_bind, wp_get_msgs, wp_put_msgs. exact H1.
Qed.

(** ** The run *)

Lemma run_gated fuel :
  moves holds (run_body env sessions_dir resolve image_tokens shot_bytes sidecar_writable lower_text dump_compact fuel o).
Proof.
  pose proof dispatch_holds as Hd.
  assert (Hp : moves holds (_prelude env sessions_dir resolve image_tokens sidecar_writable o))
    by (unfold _prelude, check_budget; moves_auto).
  assert (Hs : forall it, moves holds (_stream_iteration env sessions_dir resolve image_tokens sidecar_writable o it)).
  { intros it. unfold _stream_iteration, overflowed, images_refused, broken_stream, commit, uncount_turn. moves_auto. }
  assert (He : forall it, moves holds (_end_without_tools env sessions_dir resolve image_tokens sidecar_writable o it)).
  { intros it. unfold _end_without_tools, answer_inject, echo_reprompt, uncount_turn. moves_auto. }
  assert (Hpass : moves holds (pass env sessions_dir resolve image_tokens shot_bytes sidecar_writable lower_text dump_compact o))
    by (unfold pass; moves_auto).
  assert (Hloop : forall n, moves holds (loop env sessions_dir resolve image_tokens shot_bytes sidecar_writable lower_text dump_compact n o))
    by (intros n; induction n as [|n IH]; simpl; moves_auto).
  unfold run_body. moves_auto.
Qed.
End Facts.

(** C19: over a whole run, whatever the engine, the tools, the hooks and the observers do
    and however many calls run at once, no call reaches a tool past a gate: when a call is
    dispatched it is on the turn's allow-list, where there is one, and every pre-tool hook
    that watches its tool had been asked about it and neither denied it, nor answered in
    its place, nor - for a hook that fails closed - raised. *)
Theorem no_call_past_a_gate {E : Type} (env : environment E)
    {DK : Disk} {JT : JsonText} {PJ : PyJson} {JD : JsonDecoder} {PU : PyUnicode}
    (sessions_dir : text) (resolve : text -> text) (image_tokens : Z) (shot_bytes : message -> Z) (sidecar_writable : bool)
    (lower_text : text -> text) (dump_compact : json -> text) (sha1_hex : text -> text)
    (fuel : nat) (o : run_options) (m : meter) (ms : list message) (w : outside E) :
  match run_query env sessions_dir resolve image_tokens shot_bytes sidecar_writable lower_text dump_compact sha1_hex
          fuel o m ms w with
  | Ran _ s => gated o (x_log s)
  | NotOpened _ _ => True
  end.
Proof.
  unfold run_query. cbv zeta. destruct (_open_turn _ _ _ _ _ _) as [[[t ms'] w']|e] eqn:Eo; [|done].
  destruct (run_body _ _ _ _ _ _ _ _ _ _ _) as [r s1] eqn:Er.
  apply (wp_run _ _ _ _ _ (run_gated env _ _ _ _ _ _ _ o fuel (RunState t ms' w' [])) Er). apply gated_nil.
Qed.
