(* ===== verification/Binary64.v ===== *)
(** * Python's floats and durations

    A float is an IEEE 754 binary64 number, computed with as the machine does
    ([SpecFloat], rounding to nearest, ties to even). A [timedelta] is its whole number of
    microseconds: [secs] is [total_seconds()], the correctly rounded quotient, and
    [duration] is [timedelta(seconds=x)]. Integers of up to 53 bits are exact, and so are
    their sums and products that fit ([fplus_exact], [fmul_exact]); a duration compares
    with a whole number of seconds as the integers do ([secs_lt], [secs_le]). *)
From Stdlib Require Import SpecFloat.
From S2P Require Import Prelude.

Local Open Scope Z_scope.

Notation float := spec_float.
Definition fdiv : float -> float -> float := SFdiv 53 1024.
Definition fmul : float -> float -> float := SFmul 53 1024.
Definition fminus : float -> float -> float := SFsub 53 1024.
Definition fplus : float -> float -> float := SFadd 53 1024.
Definition blt : float -> float -> bool := SFltb.
Definition ble : float -> float -> bool := SFleb.

(** An integer as a float, rounded; and [float(z)], which overflows. *)
Definition fz (z : Z) : float := binary_normalize 53 1024 z 0 false.
Definition float_of_int (z : Z) : outcome float :=
  match fz z with S754_infinity _ => Raise OverflowError | x => Ok x end.

(** [a / b] of integers, [b] positive: the quotient rounded once. *)
Definition int_div (a b : Z) : float :=
  match a, b with
  | Zpos m, Zpos n => SFdiv 53 1024 (S754_finite false m 0) (S754_finite false n 0)
  | Zneg m, Zpos n => SFdiv 53 1024 (S754_finite true m 0) (S754_finite false n 0)
  | _, _ => S754_zero false
  end.

(** [min(a, b)] and [max(a, b)]: the first of them unless the second is strictly better. *)
Definition bmin (a b : float) : float := if blt b a then b else a.
Definition bmax (a b : float) : float := if blt a b then b else a.

(** ** Durations *)

Definition SECOND : Z := 1000000.
Definition HOUR : Z := 3600 * SECOND.
Definition DAY : Z := 24 * HOUR.

Definition secs (d : Z) : float := int_div d SECOND.

(** [a / b] to the nearest integer, ties to even. *)
Definition half_even (a b : Z) : Z :=
  let q := a / b in
  let r := a mod b in
  if 2 * r <? b then q else if b <? 2 * r then q + 1 else if Z.even q then q else q + 1.

(** The integer part of [m * 2^e], and the rest as a float. *)
Definition whole (m : positive) (e : Z) : Z := if 0 <=? e then Zpos m * 2 ^ e else Zpos m / 2 ^ (- e).
Definition fraction (m : positive) (e : Z) : float :=
  if 0 <=? e then S754_zero false else binary_normalize 53 1024 (Zpos m mod 2 ^ (- e)) e false.

(** A float of microseconds to the nearest of them. *)
Definition nearest (x : float) : Z :=
  match x with
  | S754_finite false m e => if 0 <=? e then Zpos m * 2 ^ e else half_even (Zpos m) (2 ^ (- e))
  | _ => 0
  end.

Definition MAX_DAYS : Z := 999999999.
Definition in_timedelta (us : Z) : outcome Z :=
  if (- MAX_DAYS <=? us / DAY) && (us / DAY <=? MAX_DAYS) then Ok us else Raise OverflowError.

(** [timedelta(seconds=x)] in microseconds: the whole seconds exactly, the fraction
    multiplied out as a float and rounded. *)
Definition duration (x : float) : outcome Z :=
  match x with
  | S754_nan => Raise ValueError
  | S754_infinity _ => Raise OverflowError
  | S754_zero _ => Ok 0
  | S754_finite s m e =>
      let us := whole m e * SECOND + nearest (fmul (fz SECOND) (fraction m e)) in
      in_timedelta (if s then - us else us)
  end.

Example duration_tenth : duration (int_div 1 10) = Ok 100000.
Proof. vm_compute. reflexivity. Qed.
Example duration_seventh : duration (int_div 86400 7) = Ok 12342857143.
Proof. vm_compute. reflexivity. Qed.
Example duration_minus : duration (int_div (-5) 2) = Ok (-2500000).
Proof. vm_compute. reflexivity. Qed.
Example secs_exact : secs 2500000 = int_div 5 2.
Proof. vm_compute. reflexivity. Qed.

(** ** Full mantissas *)

Lemma digits_bounds p : 2 ^ (Zpos (digits2_pos p) - 1) <= Zpos p < 2 ^ Zpos (digits2_pos p).
Proof.
  induction p as [p IH|p IH|]; cbn [digits2_pos]; [..|done];
    rewrite Pos2Z.inj_succ; set (n := Zpos (digits2_pos p)) in *; replace (Z.succ n - 1) with n by lia;
    rewrite Z.pow_succ_r by lia; assert (2 ^ n = 2 * 2 ^ (n - 1)) by (rewrite <-Z.pow_succ_r by lia; f_equal; lia); lia.
Qed.

Lemma digits_unique p k : 0 <= k -> 2 ^ k <= Zpos p < 2 ^ (k + 1) -> Zpos (digits2_pos p) = k + 1.
Proof.
  intros Hk [H1 H2]. destruct (digits_bounds p) as [B1 B2]. set (n := Zpos (digits2_pos p)) in *.
  assert (2 ^ k < 2 ^ n) as A%Z.pow_lt_mono_r_iff by lia; [|lia..].
  assert (2 ^ (n - 1) < 2 ^ (k + 1)) as C%Z.pow_lt_mono_r_iff by lia; lia.
Qed.

Lemma ble_not_blt x y : ble x y = true -> blt y x = false.
Proof.
  unfold ble, blt, SFleb, SFltb. destruct x as [[]|[]| |[] m e], y as [[]|[]| |[] n f]; try done; cbn [SFcompare];
    rewrite (Z.compare_antisym e f); destruct (e ?= f); cbn [CompOpp]; try done;
    change (Pos.compare_cont Eq ?a ?b) with (a ?= b)%positive; rewrite (Pos.compare_antisym m n); by destruct (m ?= n)%positive.
Qed.

Lemma blt_not_ble m e x : ble (S754_finite false m e) x = false -> x <> S754_nan -> blt x (S754_finite false m e) = true.
Proof.
  unfold ble, blt, SFleb, SFltb. destruct x as [[]|[]| |[] n f]; try done; cbn [SFcompare].
  rewrite (Z.compare_antisym e f). destruct (e ?= f); cbn [CompOpp]; try done.
  change (Pos.compare_cont Eq ?a ?b) with (a ?= b)%positive. rewrite (Pos.compare_antisym m n). by destruct (m ?= n)%positive.
Qed.

(** A float of full precision, and when one is below another. *)
Definition full (m : positive) : Prop := 2 ^ 52 <= Zpos m < 2 ^ 53.

Lemma blt_full m e n f : full m -> full n ->
  blt (S754_finite false m e) (S754_finite false n f) = true <-> Zpos m * 2 ^ (e - Z.min e f) < Zpos n * 2 ^ (f - Z.min e f).
Proof.
  intros [Hm1 Hm2] [Hn1 Hn2]. unfold blt, SFltb. cbn [SFcompare].
  destruct (Z.compare_spec e f) as [->|L|L].
  - rewrite Z.min_id, Z.sub_diag, !Z.mul_1_r. change (Pos.compare_cont Eq m n) with (m ?= n)%positive.
    destruct (Pos.compare_spec m n); subst; split; done || lia.
  - rewrite Z.min_l, Z.sub_diag, Z.mul_1_r by lia. split; [intros _|done].
    pose proof (Z.pow_le_mono_r 2 1 (f - e) ltac:(lia) ltac:(lia)). nia.
  - rewrite Z.min_r, Z.sub_diag, Z.mul_1_r by lia. split; [done|].
    pose proof (Z.pow_le_mono_r 2 1 (e - f) ltac:(lia) ltac:(lia)). nia.
Qed.

Lemma ble_full m e n f : full m -> full n ->
  ble (S754_finite false m e) (S754_finite false n f) = true <-> Zpos m * 2 ^ (e - Z.min e f) <= Zpos n * 2 ^ (f - Z.min e f).
Proof.
  intros Hm Hn. pose proof (blt_full n f m e Hn Hm) as B. rewrite (Z.min_comm f e) in B.
  rewrite <-Z.nlt_ge, <-B, not_true_iff_false. unfold ble, blt, SFleb, SFltb. cbn [SFcompare].
  rewrite (Z.compare_antisym e f). destruct (e ?= f); cbn [CompOpp]; [|done..].
  change (Pos.compare_cont Eq ?a ?b) with (a ?= b)%positive. rewrite (Pos.compare_antisym m n). by destruct (m ?= n)%positive.
Qed.

Lemma shr_fexp_full m e l : full m -> -1074 <= e -> shr_fexp 53 1024 (Zpos m) e l = (shr_record_of_loc (Zpos m) l, e).
Proof.
  intros Hm He. unfold shr_fexp. cbn [Zdigits2]. rewrite (digits_unique m 52) by (unfold full in Hm; lia).
  unfold fexp, emin. replace (_ - e) with 0 by lia. done.
Qed.

(** Rounding keeps a mantissa of 53 bits, or gives the next power of two. *)
Lemma round_up_full m e r : full m -> Zpos r = Zpos m \/ Zpos r = Zpos m + 1 -> -1074 <= e ->
  exists n k, shr_fexp 53 1024 (Zpos r) e loc_Exact = (Build_shr_record (Zpos n) false false, e + k) /\
    full n /\ 0 <= k <= 1 /\ Zpos n * 2 ^ k = Zpos r.
Proof.
  intros Hm Hr He. unfold full in *. destruct (Z.eq_dec (Zpos r) (2 ^ 53)) as [E|N].
  - exists 4503599627370496%positive, 1. replace r with 9007199254740992%positive by (change (2 ^ 53) with 9007199254740992 in E; congruence).
    unfold shr_fexp, fexp, emin. replace (Z.max (_ - _) _ - e) with 1 by (change (Zdigits2 _) with 54; lia).
    split; [done|]. split; [done|]. split; [lia|done].
  - exists r, 0. rewrite shr_fexp_full by (unfold full; lia). rewrite Z.add_0_r. split; [done|]. split; [lia|]. split; [lia|]. change (2 ^ 0) with 1; lia.
Qed.

(** ** What is exact *)

Lemma iter_pos_nat {A} (f : A -> A) n x : SpecFloat.iter_pos f n x = Nat.iter (Pos.to_nat n) f x.
Proof.
  revert x. induction n as [n IH|n IH|]; intros x; [..|done].
  - change (SpecFloat.iter_pos f n~1 x) with (SpecFloat.iter_pos f n (SpecFloat.iter_pos f n (f x))).
    rewrite !IH, Pos2Nat.inj_xI, Nat.iter_succ_r, <-Nat.iter_add. f_equal. lia.
  - change (SpecFloat.iter_pos f n~0 x) with (SpecFloat.iter_pos f n (SpecFloat.iter_pos f n x)).
    rewrite !IH, Pos2Nat.inj_xO, <-Nat.iter_add. f_equal. lia.
Qed.

Lemma iter_pos_S {A} (f : A -> A) n x : SpecFloat.iter_pos f (Pos.succ n) x = f (SpecFloat.iter_pos f n x).
Proof. by rewrite !iter_pos_nat, Pos2Nat.inj_succ. Qed.

Lemma doubled p q : Zpos (Pos.iter xO p q) = Zpos p * 2 ^ Zpos q.
Proof.
  induction q as [|q IH] using Pos.peano_ind; [cbn; lia|]. rewrite Pos.iter_succ.
  change (Zpos (Pos.iter xO p q)~0) with (2 * Zpos (Pos.iter xO p q)). rewrite IH, Pos2Z.inj_succ, Z.pow_succ_r by lia. lia.
Qed.

(** A mantissa shifted up, and down again. *)
Lemma shr_doubled m q : SpecFloat.iter_pos shr_1 q (Build_shr_record (Zpos (Pos.iter xO m q)) false false) = Build_shr_record (Zpos m) false false.
Proof.
  revert m. induction q as [|q IH] using Pos.peano_ind; intros m; [done|]. rewrite iter_pos_S, Pos.iter_succ_r, IH. done.
Qed.

(** A value of 53 bits is rounded to itself, however many zeros follow it. *)
Lemma round_exact s m e n : full m -> -1074 <= e -> 0 <= n ->
  binary_round_aux 53 1024 s (Zpos m * 2 ^ n) (e - n) loc_Exact = if e <=? 971 then S754_finite s m e else S754_infinity s.
Proof.
  intros Fm He Hn. unfold binary_round_aux.
  assert (R : shr_fexp 53 1024 (Zpos m * 2 ^ n) (e - n) loc_Exact = (Build_shr_record (Zpos m) false false, e)).
  { destruct n as [|q|]; [rewrite Z.mul_1_r, Z.sub_0_r, shr_fexp_full by (done || lia); done| |lia].
    rewrite <-doubled. unfold shr_fexp. cbn [Zdigits2].
    rewrite (digits_unique _ (52 + Zpos q)) by (lia || (rewrite doubled; unfold full in Fm; replace (52 + Zpos q + 1) with (53 + Zpos q) by lia;
      rewrite !Z.pow_add_r by lia; nia)).
    replace (fexp 53 1024 _ - _) with (Zpos q) by (unfold fexp, emin; lia). cbn [shr shr_record_of_loc]. rewrite shr_doubled. f_equal. lia. }
  rewrite R. cbn [shr_m loc_of_shr_record round_nearest_even]. rewrite shr_fexp_full by (done || lia). done.
Qed.

(** So is any integer times a power of two that is one. *)
Lemma binary_round_exact s p e m f a b : full m -> -1074 <= f -> 0 <= a -> 0 <= b -> Zpos p * 2 ^ a = Zpos m * 2 ^ b -> e - a = f - b ->
  binary_round 53 1024 s p e = if f <=? 971 then S754_finite s m f else S754_infinity s.
Proof.
  intros Fm Hf Ha Hb V E. unfold binary_round. destruct (digits_bounds p) as [B1 B2]. set (d := Zpos (digits2_pos p)) in *.
  assert (D : d + a = 53 + b).
  { destruct Fm as [F1 F2]. assert (1 <= d) by lia. assert (P1 : 2 ^ (d - 1 + a) < 2 ^ (53 + b)).
    { rewrite !Z.pow_add_r by lia. pose proof (Z.pow_pos_nonneg 2 a ltac:(lia) Ha). pose proof (Z.pow_pos_nonneg 2 b ltac:(lia) Hb). nia. }
    assert (P2 : 2 ^ (52 + b) < 2 ^ (d + a)).
    { rewrite !Z.pow_add_r by lia. pose proof (Z.pow_pos_nonneg 2 a ltac:(lia) Ha). pose proof (Z.pow_pos_nonneg 2 b ltac:(lia) Hb). nia. }
    apply Z.pow_lt_mono_r_iff in P1; [|lia..]. apply Z.pow_lt_mono_r_iff in P2; lia. }
  replace (fexp 53 1024 (d + e)) with f by (unfold fexp, emin; lia). unfold shl_align.
  assert (K : forall g z, 0 <= g -> z = Zpos m * 2 ^ g -> e - f = - g -> binary_round_aux 53 1024 s z e loc_Exact = if f <=? 971 then S754_finite s m f else S754_infinity s).
  { intros g z Hg -> Eg. replace e with (f - g) by lia. by apply round_exact. }
  destruct (f - e) as [|q|q] eqn:Q.
  - apply (K 0); [lia| |lia]. assert (a = b) as -> by lia. apply Z.mul_cancel_r in V; [lia|apply Z.pow_nonzero; lia].
  - apply (K (Zpos q)); [lia| |lia]. apply (Z.mul_cancel_r _ _ (2 ^ a)); [apply Z.pow_nonzero; lia|]. rewrite V, <-Z.mul_assoc, <-Z.pow_add_r by lia. do 2 f_equal. lia.
  - assert (Zpos (Pos.iter xO p q) = Zpos m) as ->; [|pose proof (round_exact s m f 0 Fm Hf ltac:(lia)) as R; by rewrite Z.mul_1_r, Z.sub_0_r in R].
    rewrite doubled. apply (Z.mul_cancel_r _ _ (2 ^ b)); [apply Z.pow_nonzero; lia|]. rewrite <-V, <-Z.mul_assoc, <-Z.pow_add_r by lia. do 2 f_equal. lia.
Qed.

(** An integer of at most 53 bits as a float. *)
Lemma fz_whole z : 0 < z < 2 ^ 53 -> exists m f, fz z = S754_finite false m f /\ full m /\ -53 < f <= 0 /\ Zpos m = z * 2 ^ (- f).
Proof.
  intros Hz. destruct z as [|p|]; [lia| |lia]. destruct (digits_bounds p) as [B1 B2]. set (d := Zpos (digits2_pos p)) in *.
  assert (d <= 53) by (destruct (Z.le_gt_cases d 53); [done|]; pose proof (Z.pow_le_mono_r 2 53 (d - 1) ltac:(lia) ltac:(lia)); lia).
  assert (1 <= d) by lia.
  assert (F : 2 ^ 52 <= Zpos p * 2 ^ (53 - d) < 2 ^ 53).
  { assert (P1 : 2 ^ 52 = 2 ^ (d - 1) * 2 ^ (53 - d)) by (rewrite <-Z.pow_add_r by lia; f_equal; lia).
    assert (P2 : 2 ^ 53 = 2 ^ d * 2 ^ (53 - d)) by (rewrite <-Z.pow_add_r by lia; f_equal; lia).
    rewrite P1, P2. pose proof (Z.pow_pos_nonneg 2 (53 - d) ltac:(lia) ltac:(lia)). nia. }
  destruct (Zpos p * 2 ^ (53 - d)) as [|m|] eqn:Em; [lia| |lia]. exists m, (d - 53). split; [|split; [done|split; [lia|]]].
  - unfold fz, binary_normalize. rewrite (binary_round_exact false p 0 m (d - 53) (53 - d) 0) by (done || lia). by replace (d - 53 <=? 971) with true by lia.
  - rewrite <-Em. do 2 f_equal. lia.
Qed.

Lemma fz_exact z m f a : 0 < z -> full m -> -1074 <= f <= 971 -> 0 <= a -> 0 <= f + a -> z * 2 ^ a = Zpos m * 2 ^ (f + a) -> fz z = S754_finite false m f.
Proof.
  intros Hz Fm Hf Ha Hfa V. destruct z as [|p|]; [lia| |lia]. unfold fz, binary_normalize.
  rewrite (binary_round_exact false p 0 m f a (f + a)) by (done || lia). by replace (f <=? 971) with true by lia.
Qed.

Lemma fz_full z : 0 < z < 2 ^ 31 -> exists n f, fz z = S754_finite false n f /\ full n /\ -53 <= f < 0 /\ Zpos n = z * 2 ^ (- f).
Proof.
  intros Hz. destruct (fz_whole z ltac:(lia)) as (m & f & E & Fm & Hf & Em). exists m, f. split; [done|]. split; [done|]. split; [|done].
  destruct (Z.eq_dec f 0) as [->|]; [|lia]. change (2 ^ (- 0)) with 1 in Em. unfold full in Fm. lia.
Qed.

(** Sums and products that fit are those of the integers. *)
Lemma fmul_exact a b : 0 < a -> 0 < b -> a * b < 2 ^ 53 -> fmul (fz a) (fz b) = fz (a * b).
Proof.
  intros Ha Hb L. destruct (fz_whole a ltac:(nia)) as (m & f & -> & Fm & Hf & Em). destruct (fz_whole b ltac:(nia)) as (n & g & -> & Fn & Hg & En).
  destruct (fz_whole (a * b) ltac:(nia)) as (k & h & -> & Fk & Hh & Ek). unfold fmul, SFmul. cbn [xorb].
  assert (V : Zpos (m * n) * 2 ^ (- h) = Zpos k * 2 ^ (- f - g)).
  { rewrite Pos2Z.inj_mul, Em, En, Ek. replace (- f - g) with (- f + - g) by lia. rewrite Z.pow_add_r by lia. lia. }
  assert (0 <= h - f - g).
  { destruct (Z.le_gt_cases 0 (h - f - g)); [done|]. exfalso. unfold full in *. assert (2 ^ (- f - g) <= 2 ^ (- h)) by (apply Z.pow_le_mono_r; lia).
    pose proof (Z.pow_pos_nonneg 2 (- h) ltac:(lia) ltac:(lia)).
    assert (Zpos k < Zpos (m * n)) by (rewrite Pos2Z.inj_mul; apply Z.lt_le_trans with (2 ^ 52 * 2 ^ 52); [lia|]; apply Z.mul_le_mono_nonneg; lia).
    assert (Zpos k * 2 ^ (- f - g) <= Zpos k * 2 ^ (- h)) by (apply Z.mul_le_mono_nonneg_l; lia).
    assert (Zpos k * 2 ^ (- h) < Zpos (m * n) * 2 ^ (- h)) by (by apply Z.mul_lt_mono_pos_r). lia. }
  replace (Zpos (m * n)) with (Zpos k * 2 ^ (h - f - g)).
  - replace (f + g) with (h - (h - f - g)) by lia. rewrite round_exact by (done || lia). by replace (h <=? 971) with true by lia.
  - apply (Z.mul_cancel_r _ _ (2 ^ (- h))); [apply Z.pow_nonzero; lia|]. rewrite V, <-Z.mul_assoc, <-Z.pow_add_r by lia. do 2 f_equal. lia.
Qed.

Lemma aligned m e e' : e' <= e -> Zpos (fst (shl_align m e e')) = Zpos m * 2 ^ (e - e').
Proof.
  intros L. unfold shl_align. destruct (e' - e) as [|q|q] eqn:Q; [|lia|]; cbn [fst].
  - replace (e - e') with 0 by lia. lia.
  - rewrite doubled. do 2 f_equal. lia.
Qed.

Lemma fplus_exact a b : 0 < a -> 0 < b -> a + b < 2 ^ 53 -> fplus (fz a) (fz b) = fz (a + b).
Proof.
  intros Ha Hb L. destruct (fz_whole a ltac:(lia)) as (m & f & -> & Fm & Hf & Em). destruct (fz_whole b ltac:(lia)) as (n & g & -> & Fn & Hg & En).
  destruct (fz_whole (a + b) ltac:(lia)) as (k & h & -> & Fk & Hh & Ek). unfold fplus, SFadd. cbn [cond_Zopp]. cbv zeta. set (e := Z.min f g).
  rewrite !aligned by lia.
  assert (S : Zpos m * 2 ^ (f - e) + Zpos n * 2 ^ (g - e) = (a + b) * 2 ^ (- e)).
  { rewrite Em, En, <-!Z.mul_assoc, <-!Z.pow_add_r by lia. replace (- f + (f - e)) with (- e) by lia. replace (- g + (g - e)) with (- e) by lia. lia. }
  rewrite S. assert (0 < (a + b) * 2 ^ (- e)) by (apply Z.mul_pos_pos; [lia|apply Z.pow_pos_nonneg; lia]).
  destruct ((a + b) * 2 ^ (- e)) as [|p|] eqn:Ep; [lia| |lia]. unfold binary_normalize.
  rewrite (binary_round_exact false p e k h (- h) (- e)) by (done || lia || (rewrite <-Ep, Ek; lia)). by replace (h <=? 971) with true by lia.
Qed.

(** A power of two, and what it multiplies. *)
Lemma fz_pow2 j : 0 <= j <= 1023 -> fz (2 ^ j) = S754_finite false 4503599627370496 (j - 52).
Proof.
  intros Hj. apply (fz_exact _ _ _ 52); [by apply Z.pow_pos_nonneg; lia|done|lia..|]. replace (j - 52 + 52) with j by lia. change (Zpos 4503599627370496) with (2 ^ 52). lia.
Qed.

Lemma fmul_pow2 m e j : full m -> 0 <= j <= 1023 -> -1074 <= e + j ->
  fmul (S754_finite false m e) (fz (2 ^ j)) = if e + j <=? 971 then S754_finite false m (e + j) else S754_infinity false.
Proof.
  intros Fm Hj He. rewrite fz_pow2 by done. unfold fmul, SFmul. cbn [xorb]. rewrite Pos2Z.inj_mul. change (Zpos 4503599627370496) with (2 ^ 52).
  replace (e + (j - 52)) with (e + j - 52) by lia. by rewrite round_exact by (done || lia).
Qed.

(** ** Durations and whole seconds *)

(** The quotient of [d] microseconds by a million has 53 or 54 bits before it is rounded. *)
Lemma quotient_digits p : Zpos p < 2 ^ 51 ->
  let s := 73 - Zpos (digits2_pos p) in
  22 <= s <= 72 /\ 2 ^ 52 <= Zpos p * 2 ^ s / SECOND < 2 ^ 54.
Proof.
  intros Hp s. destruct (digits_bounds p) as [B1 B2]. set (n := Zpos (digits2_pos p)) in *.
  assert (n <= 51) by (destruct (Z.le_gt_cases n 51); [done|]; pose proof (Z.pow_le_mono_r 2 51 (n - 1) ltac:(lia) ltac:(lia)); lia).
  assert (1 <= n) by lia. split; [unfold s; lia|].
  assert (P : 2 ^ 72 <= Zpos p * 2 ^ s < 2 ^ 73).
  { replace 72 with (n - 1 + s) by (unfold s; lia). replace 73 with (n + s) by (unfold s; lia). rewrite !Z.pow_add_r by (unfold s; lia). nia. }
  unfold SECOND. split; [apply Z.div_le_lower_bound; lia|apply Z.div_lt_upper_bound; lia].
Qed.

(** [secs d] for a positive [d]: a full mantissa, less than two units off the quotient. *)
Lemma secs_full p : Zpos p < 2 ^ 51 ->
  let s := 73 - Zpos (digits2_pos p) in
  let q := Zpos p * 2 ^ s / SECOND in
  exists m k, secs (Zpos p) = S754_finite false m (k - s) /\ full m /\ 0 <= k <= 2 /\
    Zpos m * 2 ^ k <= q + 2 /\ (q <= Zpos m * 2 ^ k \/ 2 * (q / 2) <= Zpos m * 2 ^ k /\ 1 <= k) /\
    (Zpos p * 2 ^ s = q * SECOND -> Z.even q = true -> Zpos m * 2 ^ k = q).
Proof.
  intros Hp s q. destruct (quotient_digits p Hp) as [Hs Hq]. fold s q in Hs, Hq.
  unfold secs, int_div. unfold SECOND at 1. unfold SFdiv, SFdiv_core_binary. cbn [Zdigits2 xorb].
  change (Zpos (digits2_pos 1000000)) with 20.
  replace (Z.min (fexp 53 1024 _) (0 - 0)) with (- s) by (unfold fexp, emin, s in *; lia).
  destruct (0 - 0 - - s) as [|t|] eqn:E; [lia| |lia]. replace (Zpos t) with s by lia.
  rewrite Z.shiftl_mul_pow2 by lia. destruct (Z.div_eucl (Zpos p * 2 ^ s) 1000000) as [q' r] eqn:D.
  assert (q' = q) as -> by (unfold q, SECOND, Z.div; by rewrite D).
  assert (Hl : Zpos p * 2 ^ s = q * SECOND -> new_location 1000000 r = loc_Exact).
  { intros Hx. pose proof (Z_div_mod (Zpos p * 2 ^ s) 1000000 ltac:(lia)) as M. rewrite D in M. unfold SECOND in Hx.
    assert (r = 0) as -> by lia. done. }
  set (l := new_location 1000000 r) in *.
  unfold binary_round_aux. destruct q as [|mq|] eqn:Eq; [lia| |lia].
  destruct (Z.lt_ge_cases (Zpos mq) (2 ^ 53)) as [L|L].
  - assert (F : full mq) by (unfold full; lia). rewrite shr_fexp_full by (done || lia).
    assert (R : exists r', round_nearest_even (shr_m (shr_record_of_loc (Zpos mq) l)) (loc_of_shr_record (shr_record_of_loc (Zpos mq) l)) = Zpos r' /\
      (Zpos r' = Zpos mq \/ Zpos r' = Zpos mq + 1) /\ (l = loc_Exact -> r' = mq)).
    { destruct l as [|[| |]]; cbn [shr_record_of_loc shr_m loc_of_shr_record round_nearest_even]; try (destruct (Z.even _));
        (exists mq; split; [reflexivity|split; [lia|done]]) || (exists (mq + 1)%positive; split; [reflexivity|split; [lia|done]]). }
    destruct R as (r' & -> & Hr & Hex). destruct (round_up_full mq (- s) r' F Hr ltac:(lia)) as (n & k & -> & Fn & Hk & En). cbn [shr_m].
    replace (- s + k <=? 1024 - 53) with true by lia. exists n, k. split; [by rewrite Z.add_comm|]. split; [done|].
    split; [lia|]. split; [lia|]. split; [lia|]. intros Hx _. rewrite En. by rewrite (Hex (Hl Hx)).
  - unfold shr_fexp at 1. cbn [Zdigits2]. rewrite (digits_unique mq 53) by (simpl Z.add; lia).
    replace (fexp 53 1024 (53 + 1 + - s) - - s) with 1 by (unfold fexp, emin; lia). cbn [shr iter_pos].
    assert (R : exists h r1 s1, shr_1 (shr_record_of_loc (Zpos mq) l) = Build_shr_record (Zpos h) r1 s1 /\ Zpos h = Zpos mq / 2 /\
      (l = loc_Exact -> Z.even (Zpos mq) = true -> r1 = false /\ s1 = false)).
    { destruct mq as [h|h|]; [exists h|exists h|lia]; destruct l as [|[| |]]; cbn [shr_record_of_loc shr_1]; do 2 eexists;
        (split; [reflexivity|split; [by rewrite <-Z.div2_div|done]]). }
    destruct R as (h & r1 & s1 & Er & Hh & Hrs). change (SpecFloat.iter_pos shr_1 1 (shr_record_of_loc (Zpos mq) l)) with (shr_1 (shr_record_of_loc (Zpos mq) l)). rewrite Er. cbn [shr_m].
    assert (F : full h) by (unfold full; rewrite Hh; split; [apply Z.div_le_lower_bound; lia|apply Z.div_lt_upper_bound; lia]).
    assert (R : exists r', round_nearest_even (Zpos h) (loc_of_shr_record (Build_shr_record (Zpos h) r1 s1)) = Zpos r' /\ (Zpos r' = Zpos h \/ Zpos r' = Zpos h + 1) /\
      (r1 = false /\ s1 = false -> r' = h)).
    { clear Hrs. destruct r1, s1; cbn [loc_of_shr_record round_nearest_even]; try (destruct (Z.even (Zpos h)));
        (exists h; split; [reflexivity|split; [lia|naive_solver]]) || (exists (h + 1)%positive; split; [reflexivity|split; [lia|naive_solver]]). }
    destruct R as (r' & -> & Hr & Hex). destruct (round_up_full h (- s + 1) r' F Hr ltac:(lia)) as (n & k & -> & Fn & Hk & En). cbn [shr_m].
    replace (- s + 1 + k <=? 1024 - 53) with true by lia. exists n, (k + 1). split; [f_equal; lia|]. split; [done|].
    rewrite Z.pow_add_r, Z.mul_assoc, En by lia. change (2 ^ 1) with 2. pose proof (Z.mul_div_le (Zpos mq) 2 ltac:(lia)).
    split; [lia|]. split; [lia|]. split; [lia|]. intros Hx He. rewrite (Hex (Hrs (Hl Hx) He)), Hh.
    pose proof (Z.div_mod (Zpos mq) 2 ltac:(done)). rewrite Zmod_even, He in *. lia.
Qed.

(** A duration below 71 years is less than a whole number of seconds just when it has
    fewer microseconds; and a longer one is not less than what it reaches. *)
Lemma secs_lt d z : 0 <= d < 2 ^ 51 -> 0 < z < 2 ^ 31 -> blt (secs d) (fz z) = (d <? z * SECOND).
Proof.
  intros Hd Hz. destruct (fz_full z Hz) as (n & f & -> & Fn & Hf & En).
  destruct d as [|p|]; [rewrite (proj2 (Z.ltb_lt _ _)) by (unfold SECOND; lia); done| |lia].
  destruct (secs_full p ltac:(lia)) as (m & k & -> & Fm & Hk & Hup & Hlow & _). destruct (quotient_digits p ltac:(lia)) as [Hs _].
  set (s := 73 - Zpos (digits2_pos p)) in *. set (q := Zpos p * 2 ^ s / SECOND) in *.
  assert (V : blt (S754_finite false m (k - s)) (S754_finite false n f) = true <-> Zpos m * 2 ^ k < z * 2 ^ s).
  { rewrite blt_full by done. set (g := Z.min (k - s) f).
    assert (Zpos m * 2 ^ (k - s - g) * 2 ^ (s + g + 200) = Zpos m * 2 ^ k * 2 ^ 200) as A
      by (rewrite <-!Z.mul_assoc, <-!Z.pow_add_r by lia; do 2 f_equal; lia).
    assert (Zpos n * 2 ^ (f - g) * 2 ^ (s + g + 200) = z * 2 ^ s * 2 ^ 200) as B
      by (rewrite En, <-!Z.mul_assoc, <-!Z.pow_add_r by lia; do 2 f_equal; lia).
    assert (0 < 2 ^ (s + g + 200)) by (apply Z.pow_pos_nonneg; lia). nia. }
  assert (T : 2 ^ 22 <= 2 ^ s) by (apply Z.pow_le_mono_r; lia). change (2 ^ 22) with 4194304 in T.
  assert (Q : q * SECOND <= Zpos p * 2 ^ s < (q + 1) * SECOND).
  { pose proof (Z.div_mod (Zpos p * 2 ^ s) SECOND ltac:(done)). pose proof (Z.mod_pos_bound (Zpos p * 2 ^ s) SECOND ltac:(done)). lia. }
  destruct (Z.ltb_spec (Zpos p) (z * SECOND)) as [L|L].
  - apply V. unfold SECOND in *. nia.
  - apply not_true_iff_false. rewrite V. unfold SECOND in *.
    assert (z * 2 ^ s <= q) by nia.
    destruct Hlow as [|[Hlow _]]; [lia|].
    assert (z * 2 ^ s = 2 * (z * 2 ^ (s - 1))) as -> by (replace s with (s - 1 + 1) at 1 by lia; rewrite Z.pow_add_r by lia; lia).
    assert (z * 2 ^ (s - 1) <= q / 2); [|lia].
    apply Z.div_le_lower_bound; [lia|]. replace (2 * (z * 2 ^ (s - 1))) with (z * 2 ^ s); [done|].
    replace s with (s - 1 + 1) at 1 by lia. rewrite Z.pow_add_r by lia. lia.
Qed.

(** And it is at most a whole number of seconds just when its microseconds are. *)
Lemma secs_le d z : 0 <= d < 2 ^ 51 -> 0 < z < 2 ^ 31 -> ble (secs d) (fz z) = (d <=? z * SECOND).
Proof.
  intros Hd Hz. pose proof (secs_lt d z Hd Hz) as LT. destruct (fz_full z Hz) as (n & f & Ez & Fn & Hf & En). rewrite Ez in *.
  destruct d as [|p|]; [rewrite (proj2 (Z.leb_le _ _)) by (unfold SECOND; lia); done| |lia].
  destruct (secs_full p ltac:(lia)) as (m & k & -> & Fm & Hk & Hup & Hlow & Hex). destruct (quotient_digits p ltac:(lia)) as [Hs _].
  set (s := 73 - Zpos (digits2_pos p)) in *. set (q := Zpos p * 2 ^ s / SECOND) in *.
  assert (V : ble (S754_finite false m (k - s)) (S754_finite false n f) = true <-> Zpos m * 2 ^ k <= z * 2 ^ s).
  { rewrite ble_full by done. set (g := Z.min (k - s) f).
    assert (Zpos m * 2 ^ (k - s - g) * 2 ^ (s + g + 200) = Zpos m * 2 ^ k * 2 ^ 200) as A
      by (rewrite <-!Z.mul_assoc, <-!Z.pow_add_r by lia; do 2 f_equal; lia).
    assert (Zpos n * 2 ^ (f - g) * 2 ^ (s + g + 200) = z * 2 ^ s * 2 ^ 200) as B
      by (rewrite En, <-!Z.mul_assoc, <-!Z.pow_add_r by lia; do 2 f_equal; lia).
    assert (0 < 2 ^ (s + g + 200)) by (apply Z.pow_pos_nonneg; lia). nia. }
  assert (T : 2 ^ 22 <= 2 ^ s) by (apply Z.pow_le_mono_r; lia). change (2 ^ 22) with 4194304 in T.
  assert (Q : q * SECOND <= Zpos p * 2 ^ s < (q + 1) * SECOND).
  { pose proof (Z.div_mod (Zpos p * 2 ^ s) SECOND ltac:(done)). pose proof (Z.mod_pos_bound (Zpos p * 2 ^ s) SECOND ltac:(done)). lia. }
  destruct (Z.leb_spec (Zpos p) (z * SECOND)) as [L|L].
  - destruct (Z.eq_dec (Zpos p) (z * SECOND)) as [E|N].
    + assert (q = z * 2 ^ s) as Eq by (unfold q; rewrite E; replace (z * SECOND * 2 ^ s) with (z * 2 ^ s * SECOND) by lia; by apply Z.div_mul).
      apply V. rewrite Hex; [lia| |].
      * rewrite E, Eq. unfold SECOND. lia.
      * rewrite Eq. replace s with (1 + (s - 1)) by lia. rewrite Z.pow_add_r by lia.
        replace (z * (2 ^ 1 * 2 ^ (s - 1))) with (2 * (z * 2 ^ (s - 1))) by lia. by rewrite Z.even_mul.
    + apply V. rewrite (proj2 (Z.ltb_lt _ _)) in LT by lia.
      assert (Zpos m * 2 ^ k < z * 2 ^ s); [|lia]. unfold SECOND in *. nia.
  - apply not_true_iff_false. rewrite V. unfold SECOND in *. pose proof (Z.mul_div_le q 2 ltac:(lia)).
    assert (z * 2 ^ s + 2 <= q) by nia. pose proof (Z.div_mod q 2 ltac:(done)). pose proof (Z.mod_pos_bound q 2 ltac:(done)). lia.
Qed.

Lemma round_opp m e l : binary_round_aux 53 1024 true m e l = SFopp (binary_round_aux 53 1024 false m e l).
Proof.
  unfold binary_round_aux. destruct (shr_fexp 53 1024 m e l) as [r e1]. destruct (shr_fexp 53 1024 _ e1 loc_Exact) as [r2 e2].
  destruct (shr_m r2); [done| |done]. by destruct (e2 <=? 1024 - 53).
Qed.

Lemma secs_opp p : secs (Zneg p) = SFopp (secs (Zpos p)).
Proof.
  unfold secs, int_div, SECOND, SFdiv. cbn [xorb]. destruct (SFdiv_core_binary 53 1024 (Zpos p) 0 1000000 0) as [[q e] l]. apply round_opp.
Qed.

Lemma secs_below d z : - 2 ^ 51 < d < 2 ^ 51 -> 0 < z < 2 ^ 31 -> blt (secs d) (fz z) = (d <? z * SECOND).
Proof.
  intros Hd Hz. destruct (Z.le_gt_cases 0 d) as [L|L]; [apply secs_lt; lia|]. destruct d as [|p|p]; [lia..|].
  rewrite (proj2 (Z.ltb_lt _ _)) by (unfold SECOND; lia). rewrite secs_opp.
  destruct (fz_full z Hz) as (n & f & -> & _). by destruct (secs_full p ltac:(lia)) as (m & k & -> & _).
Qed.

Lemma secs_not_below d z : - 2 ^ 51 < d -> 0 < z < 2 ^ 31 -> blt (secs d) (fz z) = false -> z * SECOND <= d.
Proof.
  intros Hd Hz H. destruct (Z.lt_ge_cases d (2 ^ 51)) as [L|L]; [|unfold SECOND; lia].
  rewrite secs_below in H by lia. by apply Z.ltb_ge.
Qed.

Lemma secs_at_most d z : - 2 ^ 51 < d < 2 ^ 51 -> 0 < z < 2 ^ 31 -> ble (secs d) (fz z) = (d <=? z * SECOND).
Proof.
  intros Hd Hz. destruct (Z.le_gt_cases 0 d) as [L|L]; [apply secs_le; lia|]. destruct d as [|p|p]; [lia..|].
  rewrite (proj2 (Z.leb_le _ _)) by (unfold SECOND; lia). rewrite secs_opp.
  destruct (fz_full z Hz) as (n & f & -> & _). by destruct (secs_full p ltac:(lia)) as (m & k & -> & _).
Qed.

Lemma secs_above d z : - 2 ^ 51 < d -> 0 < z < 2 ^ 31 -> ble (secs d) (fz z) = false -> z * SECOND < d.
Proof.
  intros Hd Hz H. destruct (Z.lt_ge_cases d (2 ^ 51)) as [L|L]; [|unfold SECOND; lia].
  rewrite secs_at_most in H by lia. by apply Z.leb_gt.
Qed.

Lemma secs_gt d z : 0 <= d < 2 ^ 51 -> 0 < z < 2 ^ 31 -> blt (fz z) (secs d) = (z * SECOND <? d).
Proof.
  intros Hd Hz. pose proof (secs_le d z Hd Hz) as E. destruct (Z.ltb_spec (z * SECOND) d) as [L|L].
  - rewrite (proj2 (Z.leb_gt _ _) L) in E. destruct d as [|p|]; [unfold SECOND in L; lia| |lia].
    destruct (secs_full p ltac:(lia)) as (m & k & Es & _). rewrite Es in *. apply blt_not_ble; [done|].
    destruct (fz_full z Hz) as (n & f & -> & _). done.
  - apply ble_not_blt. rewrite E. by apply Z.leb_le.
Qed.
