(* ===== verification/PyValues.v ===== *)
(** * Python values as text

    [str(v)] of a parsed value and the idiom [str(d.get(k) or dflt)], shared by the parts
    that read dictionaries written by hand: claims and task files. *)
From Stdlib Require Import String.
From S2P Require Import Prelude PyText QueueRows Policy Microcompact PoolGates.

Section Values.
Context `{PyNumbers} `{PyJson}.

Definition str_of (v : json) : text := match v with JStr s => utf8 s | _ => py_shown v end.
Definition or_str (v : option json) (dflt : text) : text :=
  match v with Some v => if json_true v then str_of v else dflt | None => dflt end.

(** [str(d.get(k, ""))]. *)
Definition str_or_blank_of (v : option json) : text := match v with Some v => str_of v | None => [] end.

(** [str(d.get(k, "") or "").strip()]. *)
Definition stripped (k : string) (fs : list (string * json)) : text := strip (or_str (obj_get k fs) []).

(** [bool(d.get(k))]. *)
Definition given (v : option json) : bool := match v with Some v => json_true v | None => false end.

(** [d.get(k) or dflt]. *)
Definition or_else (v : option json) (dflt : json) : json :=
  match v with Some v => if json_true v then v else dflt | None => dflt end.
End Values.
