(* ===== verification/Utf8.v ===== *)
(** * Text and its bytes

    A text written in UTF-8 and read back, and the seven-bit case, where bytes and code
    points agree. *)
From Stdlib Require Import String Ascii.
From S2P Require Import Prelude PyText.

Section Utf8.
Local Open Scope N_scope.

Lemma ascii_byte b : b < 256 -> N_of_ascii (ascii_of_N b) = b.
Proof. apply N_ascii_embedding. Qed.

(** A code point written and read. *)
Lemma utf8_char c l : c < 1114112 ->
  utf8 (string_of_list_ascii (map ascii_of_N (utf8_bytes c ++ l))) = c :: utf8 (string_of_list_ascii (map ascii_of_N l)).
Proof.
  intros Hc. unfold utf8_bytes.
  pose proof (N.div_mod c 64 ltac:(lia)). pose proof (N.mod_lt c 64 ltac:(lia)).
  pose proof (N.div_mod (c / 64) 64 ltac:(lia)). pose proof (N.mod_lt (c / 64) 64 ltac:(lia)).
  pose proof (N.div_mod (c / 4096) 64 ltac:(lia)). pose proof (N.mod_lt (c / 4096) 64 ltac:(lia)).
  assert (c / 64 / 64 = c / 4096) by (by rewrite N.Div0.div_div).
  assert (c / 4096 / 64 = c / 262144) by (by rewrite N.Div0.div_div).
  set (q3 := c / 262144) in *. set (r3 := (c / 4096) mod 64) in *. set (q2 := c / 4096) in *.
  set (r2 := (c / 64) mod 64) in *. set (q1 := c / 64) in *. set (r1 := c mod 64) in *. clearbody q3 r3 q2 r2 q1 r1.
  destruct (N.ltb_spec c 128); [|destruct (N.ltb_spec c 2048); [|destruct (N.ltb_spec c 65536)]];
    cbn [app map string_of_list_ascii utf8]; rewrite !ascii_byte by lia.
  - by rewrite (proj2 (N.ltb_lt _ _)).
  - rewrite (proj2 (N.ltb_ge _ 128)), (proj2 (N.ltb_lt _ 224)) by lia. f_equal. lia.
  - rewrite (proj2 (N.ltb_ge _ 128)), (proj2 (N.ltb_ge _ 224)), (proj2 (N.ltb_lt _ 240)) by lia. f_equal. lia.
  - rewrite (proj2 (N.ltb_ge _ 128)), (proj2 (N.ltb_ge _ 224)), (proj2 (N.ltb_ge _ 240)) by lia. f_equal. lia.
Qed.

Lemma utf8_encode t : Forall (fun c => c < 1114112) t -> utf8 (encode t) = t.
Proof.
  unfold encode. induction 1 as [|c t Hc _ IH]; simpl; [done|]. by rewrite utf8_char, IH.
Qed.
End Utf8.

(** ** Seven bits *)

Definition all_chars (p : ascii -> Prop) (s : string) : Prop := Forall p (list_ascii_of_string s).
Definition seven_bit (c : ascii) : Prop := (N_of_ascii c < 128)%N.

Lemma utf8_plain s : all_chars seven_bit s -> utf8 s = map N_of_ascii (list_ascii_of_string s).
Proof.
  unfold all_chars. induction s as [|c s IH]; simpl; [done|]. intros [Hc Hs]%Forall_cons.
  by rewrite (proj2 (N.ltb_lt _ _) Hc), IH.
Qed.

Lemma encode_chars l : Forall seven_bit l -> encode (map N_of_ascii l) = string_of_list_ascii l.
Proof.
  unfold encode. induction 1 as [|c l Hc _ IH]; simpl; [done|].
  unfold utf8_bytes at 1. rewrite (proj2 (N.ltb_lt _ _) Hc). simpl. by rewrite ascii_N_embedding, IH.
Qed.

(** ** Nothing to strip *)

Lemma rstrip_solid s : Forall (fun c => isspace c = false) s -> rstrip s = s.
Proof. induction 1 as [|c s Hc _ IH]; [done|]. simpl. rewrite IH, Hc. by destruct s. Qed.

Lemma strip_solid s : Forall (fun c => isspace c = false) s -> strip s = s.
Proof.
  intros F. unfold strip. replace (lstrip s) with s; [by apply rstrip_solid|].
  destruct F as [|c s Hc _]; [done|]. simpl. by rewrite Hc.
Qed.
