(* ===== verification/Windows.v ===== *)
(** * Task files and their windows

    [app/autonomy.py]: the period a task file declares, the hours it may run in, the
    occurrences of that window, when a run stops holding the next one
    ([_elapsed_due_at]) and which slot a completion names ([_next_run_after]). A task is
    the dictionary its front matter parses to; instants are microseconds since the epoch. *)
From Stdlib Require Import String SpecFloat.
From S2P Require Import Prelude PyText Stamps QueueRows Regex Policy Spill Microcompact PoolGates Binary64 PyValues.

Local Open Scope Z_scope.

Definition task : Type := list (string * json).

(** The text of floats: [float(s)], a parsed literal, [f"{x:.0f}"], [f"{x:.1f}"] and [f"{x:g}"]. *)
Class FloatText := {
  text_float : text -> option float;
  json_float : string -> float;
  fixed0 : float -> text;
  fixed1 : float -> text;
  general : float -> text
}.

(** The zone the hours are read in: [_to_local] and [_from_local], on microseconds. *)
Class PyZone := {
  to_local : Z -> outcome Z;
  from_local : Z -> outcome Z
}.

Section Windows.
Context `{IsoStamps} `{PyNumbers} `{PyJson} `{PyUnicode} `{FloatText} `{PyZone}.

(** [float(v)]. *)
Definition to_float (v : json) : outcome float :=
  match v with
  | JBool b => Ok (fz (Z.b2z b))
  | JInt z => float_of_int z
  | JFloat r => Ok (json_float r)
  | JStr s => match text_float (utf8 s) with Some x => Ok x | None => Raise ValueError end
  | _ => Raise TypeError
  end.

(** A [datetime] moved by a number of microseconds. *)
Definition moved (t d : Z) : outcome Z := if in_range (t + d) then Ok (t + d) else Raise OverflowError.

(** The text [fromisoformat] is given, where there is one. *)
Definition iso_source (v : option json) : option string :=
  match v with
  | None => None
  | Some v =>
      if negb (json_true v) || bool_decide (lower (strip (str_of v)) ∈ [u "null"; u "none"; []]) then None
      else
        let s := strip (str_of v) in
        Some (encode (if endswith (u "Z") s then take (length s - 1) s ++ u "+00:00" else s))
  end.
Definition _parse_iso (v : option json) : option Z := iso_source v ≫= iso_parse.

(** ** The declared period *)

Definition FREQUENCY_INTERVALS : list (text * float) :=
  [(u "hourly", fz 3600); (u "every-15min", fz 900); (u "daily", fz 86400); (u "weekly", fz 604800)].

Definition named_interval (freq : text) : option float :=
  snd <$> head (sel (fun p => bool_decide (p.1 = freq)) FREQUENCY_INTERVALS).

Definition _frequency_interval_seconds (t : task) : outcome (option float) :=
  let by_name := Ok (named_interval (lower (strip (str_or_blank_of (obj_get "frequency" t))))) in
  match obj_get "runs_per_day" t with
  | Some rpd =>
      if json_true rpd then
        match to_float rpd with
        | Ok r => if blt (fz 0) r then Ok (Some (fdiv (fz 86400) r)) else by_name
        | Raise (TypeError | ValueError) => by_name
        | Raise e => Raise e
        end
      else by_name
  | None => by_name
  end.

(** ** Hours *)

Fixpoint ints (l : list json) : outcome (list Z) :=
  match l with
  | [] => Ok []
  | v :: l => z <-? int_of v ;; zs <-? ints l ;; Ok (z :: zs)
  end.

(** [_HHMM_RE.match]: the hour of a text that begins like a time of day. *)
Definition hhmm (s : text) : option text :=
  let two c d rest := if cdigit c && cdigit d then match rest with
    | colon :: m1 :: m2 :: _ => if (colon =? 58)%N && cdigit m1 && cdigit m2 then Some [c; d] else None
    | _ => None end else None in
  match lstrip s with
  | c :: 58%N :: m1 :: m2 :: _ => if cdigit c && cdigit m1 && cdigit m2 then Some [c] else None
  | c :: d :: rest => two c d rest
  | _ => None
  end.

Definition _effective_preferred_hours (t : task) : outcome (option (list Z)) :=
  match obj_get "preferred_hours" t with
  | Some (JList ((_ :: _) as hs)) =>
      match ints hs with
      | Ok zs => Ok (Some zs)
      | Raise (TypeError | ValueError) => Ok None
      | Raise e => Raise e
      end
  | _ =>
      match hhmm (or_str (obj_get "scheduled_at" t) []) with
      | Some digits => h <-? int_of (JStr (encode digits)) ;; Ok (if h <? 24 then Some [h] else None)
      | None => Ok None
      end
  end.

(** [_local_hour()] is the hour on the wall. *)
Definition _is_preferred_hour (hour : Z) (t : task) : outcome bool :=
  hours <-? _effective_preferred_hours t ;;
  Ok (match hours with Some hs => bool_decide (hour ∈ hs) | None => true end).

(** The hours of a day, in order, that are among [hs]. *)
Definition hours_of (hs : list Z) : list Z := sel (fun h => bool_decide (h ∈ map (fun x => x mod 24) hs)) (seqZ 0 24).

Definition _window_hours (t : task) : outcome (option (list Z)) :=
  hours <-? _effective_preferred_hours t ;;
  Ok (match hours with
      | Some hs => let w := hours_of hs in if (0 <? Z.of_nat (length w)) && (Z.of_nat (length w) <? 24) then Some w else None
      | None => None
      end).

(** ** Occurrences *)

Definition in_hours (h : Z) (hs : list Z) : bool := bool_decide (h mod 24 ∈ hs).

(** The [while] loop: how many hours on from [h] the window lasts. *)
Fixpoint span (fuel : nat) (h : Z) (hs : list Z) (n : Z) : Z :=
  match fuel with
  | O => n
  | S fuel => if in_hours (h + n) hs then span fuel h hs (n + 1) else n
  end.

Definition openings (hs : list Z) : list Z := sel (fun h => negb (in_hours (h - 1) hs)) hs.

Definition occ : Type := Z * Z.
Definition occ_le (a b : occ) : bool := (a.1 <? b.1) || ((a.1 =? b.1) && (a.2 <=? b.2)).

(** The occurrence that opens at hour [h] of a day, in universal time. *)
Definition occurrence (hs : list Z) (day h : Z) : outcome occ :=
  start <-? moved (day * DAY) (h * HOUR) ;;
  opens <-? from_local start ;;
  last <-? moved start (span 24 h hs 1 * HOUR) ;;
  closes <-? from_local last ;;
  Ok (opens, closes).

Fixpoint occurrences (hs : list Z) (slots : list (Z * Z)) : outcome (list occ) :=
  match slots with
  | [] => Ok []
  | (day, h) :: slots => o <-? occurrence hs day h ;; rest <-? occurrences hs slots ;; Ok (o :: rest)
  end.

(** The days and hours a window opens at, from three days before to two after. *)
Definition slots_around (hs : list Z) (base : Z) : list (Z * Z) :=
  d ← seqZ (base - 3) 6; h ← openings hs; [(d, h)].

Definition _window_occurrences (hs : list Z) (around : Z) : outcome (list occ) :=
  here <-? to_local around ;;
  os <-? occurrences hs (slots_around hs (here / DAY)) ;;
  Ok (sort_by occ_le os).

(** The last of them that has opened by [at_]. *)
Fixpoint last_open (at_ : Z) (best : option occ) (os : list occ) : option occ :=
  match os with
  | [] => best
  | o :: os => last_open at_ (if o.1 <=? at_ then Some o else best) os
  end.
Definition _latest_window_open (hs : list Z) (at_ : Z) : outcome (option occ) :=
  os <-? _window_occurrences hs at_ ;; Ok (last_open at_ None os).

Fixpoint first_in (at_ : Z) (os : list occ) : Z :=
  match os with
  | [] => at_
  | o :: os => if (o.1 <=? at_) && (at_ <? o.2) then at_ else if at_ <? o.1 then o.1 else first_in at_ os
  end.
Definition _first_in_window_at_or_after (hs : list Z) (at_ : Z) : outcome Z :=
  os <-? _window_occurrences hs at_ ;; Ok (first_in at_ os).

(** ** When the next run is due *)

Definition _window_anchored (t : task) : outcome (option (list Z)) :=
  interval <-? _frequency_interval_seconds t ;;
  match interval with
  | None => Ok None
  | Some i => if blt i (fz 86400) then Ok None else _window_hours t
  end.

Definition QUARTER : float := int_div 1 4.

Definition _due_slack_seconds (t : task) : outcome float :=
  interval <-? _frequency_interval_seconds t ;;
  hours <-? _effective_preferred_hours t ;;
  Ok (match hours with
      | Some _ => bmin (fz 3600) (fmul (default (fz 0) interval) QUARTER)
      | None => fz 0
      end).

Definition _elapsed_due_at (t : task) (last_run : Z) : outcome (option Z) :=
  interval <-? _frequency_interval_seconds t ;;
  match interval with
  | None => Ok None
  | Some i =>
      slack_s <-? _due_slack_seconds t ;;
      slack <-? duration slack_s ;;
      period <-? duration i ;;
      hours <-? _window_anchored t ;;
      opened <-? (match hours with Some hs => _latest_window_open hs last_run | None => Ok None end) ;;
      match opened with
      | None => due <-? moved last_run period ;; due <-? moved due (- slack) ;; Ok (Some due)
      | Some o =>
          slot <-? moved o.1 period ;; slot <-? moved slot (- slack) ;;
          floor <-? moved last_run (half_even period 2) ;;
          Ok (Some (Z.max slot floor))
      end
  end.

Definition _next_run_after (t : task) (completed : Z) : outcome (option Z) :=
  interval <-? _frequency_interval_seconds t ;;
  match interval with
  | None => Ok None
  | Some i =>
      hours <-? _window_anchored t ;;
      match hours with
      | None => period <-? duration i ;; next <-? moved completed period ;; Ok (Some next)
      | Some hs =>
          due <-? _elapsed_due_at t completed ;;
          match due with
          | Some due => slot <-? _first_in_window_at_or_after hs due ;; Ok (Some slot)
          | None => Raise TypeError
          end
      end
  end.

(** Does the upstream's last run stand for the cycle the dependent is in? *)
Definition _window_dependency_fresh (t dep : task) (dep_last_run now : Z) : outcome (option bool) :=
  mine <-? _window_anchored t ;;
  match mine with
  | None => Ok None
  | Some mine =>
      theirs <-? _window_hours dep ;;
      match theirs with
      | None => Ok None
      | Some _ =>
          opened <-? _latest_window_open mine now ;;
          slot <-? _next_run_after dep dep_last_run ;;
          Ok (match opened, slot with Some o, Some slot => Some (o.2 <=? slot) | _, _ => None end)
      end
  end.
End Windows.

(** ** A zone of fixed offset *)

Definition fixed_zone (offset : Z) : PyZone := {| to_local t := Ok (t + offset); from_local n := Ok (n - offset) |}.
