(* ===== verification/DueRules.v ===== *)
(** * When a scheduled task is due

    [app/autonomy.py]: the gates between a task file and the queue - the retry cooldown,
    the infra rest, the dependency on another task, the preferred hours and the run
    records - as [_is_task_due] puts them to the scheduler and [hold_reason] to the board,
    and [get_due_tasks], which asks them of every file. Warnings and log lines are left
    out, and with them the ledgers that keep them from repeating. *)
From Stdlib Require Import String SpecFloat.
From S2P Require Import Prelude PyText Stamps QueueRows QueueOps QueueJournal Regex Policy Grants Spill Microcompact PoolGates PoolRun Binary64 PyValues Windows.

Local Open Scope Z_scope.

(** ** What the gates read beside the task files *)

Record shelf := Shelf {
  sh_hour : Z;                                                   (** the hour on the wall *)
  sh_runs : text -> option (list (text * option text));  (** a task's run records by stem, in name order, with their text *)
  sh_yaml : text -> option json;
  sh_path : text -> outcome text;                                (** [str(Path(s).expanduser())] *)
  sh_size : text -> option Z;                                    (** [stat().st_size] *)
  sh_day : Z -> text;                                            (** the local date of an instant *)
  sh_utc_day : Z -> text
}.

Definition fnonzero (x : float) : bool := match x with S754_zero _ => false | _ => true end.

(** [x < z] of a float and an integer, exactly. *)
Definition below_int (x : float) (z : Z) : bool :=
  match x with
  | S754_nan => false
  | S754_infinity s => s
  | S754_zero _ => 0 <? z
  | S754_finite s m e =>
      let v := if s then Zneg m else Zpos m in
      if 0 <=? e then v * 2 ^ e <? z else v <? z * 2 ^ (- e)
  end.

Section Due.
Context `{IsoStamps} `{PyNumbers} `{PyJson} `{PyUnicode} `{FloatText} `{PyZone}.

(** ** The retry cooldown *)

Definition _FAILURE_BACKOFF_BASE : Z := 600.
Definition _FAILURE_BACKOFF_CAP_SECONDS : Z := 21600.
Definition _FAILURE_BACKOFF_PERIOD_FRACTION : float := fz 4.

(** One retry step: the integers of the bounds stay integers, as [min] and [max] hand
    them on. *)
Definition first_step (i : float) : Z + float :=
  let first := fdiv i _FAILURE_BACKOFF_PERIOD_FRACTION in
  let raised := if blt first (fz _FAILURE_BACKOFF_BASE) then inl _FAILURE_BACKOFF_BASE else inr first in
  let capped := match raised with
    | inl z => if _FAILURE_BACKOFF_CAP_SECONDS <? z then inl _FAILURE_BACKOFF_CAP_SECONDS else inl z
    | inr x => if blt (fz _FAILURE_BACKOFF_CAP_SECONDS) x then inl _FAILURE_BACKOFF_CAP_SECONDS else inr x
    end in
  match capped with
  | inl z => if below_int i z then inr i else inl z
  | inr x => if blt i x then inr i else inr x
  end.

Definition cooldown_of (i : float) (n : Z) : outcome float :=
  match first_step i with
  | inl z => let step := z * 2 ^ (n - 1) in if below_int i step then Ok i else float_of_int step
  | inr x => scale <-? float_of_int (2 ^ (n - 1)) ;; Ok (bmin (fmul x scale) i)
  end.

Definition _failure_cooldown_seconds (t : task) : outcome float :=
  count <-? int_of (or_else (obj_get "failure_count" t) (JInt 0)) ;;
  let n := Z.max 1 count in
  interval <-? _frequency_interval_seconds t ;;
  match interval with
  | None => float_of_int (Z.min (_FAILURE_BACKOFF_BASE * 2 ^ (n - 1)) _FAILURE_BACKOFF_CAP_SECONDS)
  | Some i => cooldown_of i n
  end.

Definition _in_failure_cooldown (t : task) (now : Z) : outcome bool :=
  match _parse_iso (obj_get "last_attempt" t) with
  | None => Ok false
  | Some attempt =>
      if match _parse_iso (obj_get "last_run" t) with Some run => attempt <=? run | None => false end then Ok false
      else cooldown <-? _failure_cooldown_seconds t ;; Ok (blt (secs (now - attempt)) cooldown)
  end.

(** ** The rest after too many infra failures *)

Definition _INFRA_CEILING : Z := 5.
Definition _INFRA_CEILING_HOLD : text := u "infra ceiling".

Definition _infra_failure_count (t : task) : outcome Z :=
  match int_of (or_else (obj_get "infra_failure_count" t) (JInt 0)) with
  | Ok n => Ok (Z.max 0 n)
  | Raise (TypeError | ValueError) => Ok 0
  | Raise e => Raise e
  end.

Definition _infra_ceil_window_seconds (t : task) : outcome float :=
  interval <-? _frequency_interval_seconds t ;;
  Ok (match interval with Some i => if fnonzero i then i else fz _FAILURE_BACKOFF_CAP_SECONDS
                        | None => fz _FAILURE_BACKOFF_CAP_SECONDS end).

Definition _next_infra_failure_count (t : task) (now : Z) : outcome Z :=
  match _parse_iso (obj_get "last_attempt" t) with
  | None => Ok 1
  | Some prev =>
      count <-? _infra_failure_count t ;;
      window <-? _infra_ceil_window_seconds t ;;
      Ok (if ble (secs (now - prev)) window then count + 1 else 1)
  end.

Definition _in_infra_rest (t : task) (now : Z) : bool :=
  match _parse_iso (obj_get "infra_rest_until" t) with Some until => now <? until | None => false end.

Definition _infra_rest_reason (t : task) : text :=
  _INFRA_CEILING_HOLD ++ u " (" ++ show _INFRA_CEILING ++ u " consecutive infra failures), resting until "
  ++ match iso_source (obj_get "infra_rest_until" t) with
     | Some s => match iso_parse s with Some _ => utf8 (iso_norm s) | None => u "unknown" end
     | None => u "unknown"
     end.

Definition _infra_rest_seconds (hour : Z) (t : task) (now : Z) : outcome float :=
  period <-? _infra_ceil_window_seconds t ;;
  hours <-? _effective_preferred_hours t ;;
  match hours with
  | None => Ok period
  | Some hs =>
      let ahead := default 24 (head (sel (fun k => bool_decide ((hour + k) mod 24 ∈ hs)) (seqZ 1 24))) in
      here <-? to_local now ;;
      target <-? moved here (ahead * HOUR) ;;
      wake <-? from_local target ;;
      Ok (bmax period (secs (wake - now)))
  end.

(** ** The run records *)

Definition RUN_STATUS_SUCCESS : text := u "success".
Definition FRONT_MATTER : text := u "---" ++ nl.

(** [text.split("---\n", 2)[1]]. *)
Definition second_part (s : text) : option text :=
  match find FRONT_MATTER s with
  | Some i => let rest := drop (i + 4) s in
              Some (match find FRONT_MATTER rest with Some j => take j rest | None => rest end)
  | None => None
  end.

(** The status, the instant and the id a record gives, where it can be read. *)
Definition read_record (S : shelf) (file : text * option text) : option (text * Z * text) :=
  content ← file.2; body ← second_part content; fm ← S.(sh_yaml) body;
  match fm with
  | JObj fs =>
      match obj_get "status" fs with
      | Some (JStr status) =>
          let done := match _parse_iso (obj_get "completed_at" fs) with Some t => Some t | None => _parse_iso (obj_get "started_at" fs) end in
          t ← done; Some (lower (strip (utf8 status)), t, or_str (obj_get "run_id" fs) file.1)
      | _ => None
      end
  | _ => None
  end.

Fixpoint newest_of (S : shelf) (want : option text) (not_before : option Z) (accept : Z -> outcome bool)
    (best : option (text * Z * text)) (files : list (text * option text)) : outcome (option (text * Z * text)) :=
  match files with
  | [] => Ok best
  | f :: files =>
      match read_record S f with
      | Some (status, t, id) =>
          if negb (match want with Some w => bool_decide (status = w) | None => true end)
             || match not_before with Some b => t <? b | None => false end
          then newest_of S want not_before accept best files
          else
            ok <-? accept t ;;
            let better := match best with Some (_, t', _) => t' <? t | None => true end in
            newest_of S want not_before accept (if ok && better then Some (status, t, id) else best) files
      | None => newest_of S want not_before accept best files
      end
  end.

Definition _newest_run_record (S : shelf) (task_id : json) (want : option text) (not_before : option Z) (accept : Z -> outcome bool)
    : outcome (option (text * Z * text)) :=
  match S.(sh_runs) (str_of task_id) with
  | Some files => newest_of S want not_before accept None files
  | None => Ok None
  end.

Definition newest_successful_run (S : shelf) (task_id : json) (not_before : option Z) (accept : Z -> outcome bool) : outcome (option (Z * text)) :=
  r <-? _newest_run_record S task_id (Some RUN_STATUS_SUCCESS) not_before accept ;;
  Ok ((fun '(_, t, id) => (t, id)) <$> r).

Definition _run_period_start (t : task) (now : Z) : outcome (option Z) :=
  interval <-? _frequency_interval_seconds t ;;
  match interval with
  | None => Ok None
  | Some i =>
      slack <-? _due_slack_seconds t ;;
      back <-? duration (bmax (fz 1) (fminus i slack)) ;;
      start <-? moved now (- back) ;;
      Ok (Some start)
  end.

(** The id of the run that holds the period, or none. *)
Definition _already_ran_this_period (S : shelf) (t : task) (now : Z) : outcome text :=
  match obj_get "id" t with
  | None | Some JNull => Ok []
  | Some id =>
      start <-? _run_period_start t now ;;
      match start with
      | None => Ok []
      | Some start =>
          anchored <-? _window_anchored t ;;
          let still_holds at_ := due <-? _elapsed_due_at t at_ ;; match due with Some due => Ok (now <? due) | None => Raise TypeError end in
          r <-? newest_successful_run S id (Some start) (match anchored with Some _ => still_holds | None => fun _ => Ok true end) ;;
          Ok (match r with Some (_, id) => id | None => [] end)
      end
  end.

(** ** The dependency *)

Definition RUNNABLE_STATUSES : list text := [u "up_next"; u "in_progress"; u "failed"].

Inductive blocker := BadStatus (status : text) | BadGrants (errors : list spec_error).

Definition _grant_block_errors (t : task) : outcome (list spec_error) :=
  match obj_get "grants" t with
  | None => Ok []
  | Some block => r <-? validate_task_grants block ;; Ok r.2
  end.

Definition _dispatch_blockers (t : task) : outcome (list blocker) :=
  let status := stripped "status" t in
  errors <-? _grant_block_errors t ;;
  Ok ((if bool_decide (status ∈ RUNNABLE_STATUSES) then [] else [BadStatus status])
      ++ match errors with [] => [] | _ => [BadGrants errors] end).

Definition _stale_bypass_hours (dependent : task) : outcome (option float) :=
  match to_float (or_else (obj_get "stale_bypass_hours" dependent) (JInt 0)) with
  | Ok hours => Ok (if blt (fz 0) hours then Some hours else None)
  | Raise (TypeError | ValueError) => Ok None
  | Raise e => Raise e
  end.

Definition MISSING_ARTIFACT_GRACE_HOURS : float := fz 24.
Definition _ARTIFACT_MIN_BYTES : Z := 512.
Definition _DATE_MACRO : text := u "{date}".

(** [text.replace(_DATE_MACRO, day)]. *)
Fixpoint dated (fuel : nat) (day s : text) : text :=
  match fuel with
  | O => s
  | S fuel => match find _DATE_MACRO s with Some i => take i s ++ day ++ dated fuel day (drop (i + 6) s) | None => s end
  end.

Fixpoint paths_of (S : shelf) (names out : list text) : outcome (list text) :=
  match names with
  | [] => Ok out
  | n :: names => p <-? S.(sh_path) n ;; paths_of S names (if bool_decide (p ∈ out) then out else out ++ [p])
  end.

Definition _artifact_candidates (S : shelf) (declared : text) (run_started : Z) : outcome (list text) :=
  let name := strip declared in
  match name with
  | [] => Ok []
  | _ =>
      if contains _DATE_MACRO name
      then paths_of S (map (fun day => dated (length name) day name) [S.(sh_day) run_started; S.(sh_utc_day) run_started]) []
      else paths_of S [name] []
  end.

Inductive artifact := Undeclared | OnDisk (path : text) | Missing.

Definition large_enough (S : shelf) (path : text) : bool :=
  match S.(sh_size) path with Some n => _ARTIFACT_MIN_BYTES <=? n | None => false end.

Fixpoint search_anchors (S : shelf) (declared : text) (anchors : list Z) : outcome artifact :=
  match anchors with
  | [] => Ok Missing
  | a :: anchors =>
      paths <-? _artifact_candidates S declared a ;;
      match head (sel (large_enough S) paths) with
      | Some path => Ok (OnDisk path)
      | None => search_anchors S declared anchors
      end
  end.

Definition _upstream_artifact_on_disk (S : shelf) (dep : task) (dep_last_run : option Z) (now : Z) : outcome artifact :=
  let declared := stripped "output_artifact" dep in
  match declared with
  | [] => Ok Undeclared
  | _ =>
      match dep_last_run with
      | None => search_anchors S declared [now]
      | Some ran =>
          span_s <-? (match to_float (or_else (obj_get "timeout_seconds" dep) (JInt 1800)) with
                      | Raise (TypeError | ValueError) => Ok (fz 1800) | r => r end) ;;
          span <-? duration span_s ;;
          earlier <-? moved ran (- span) ;;
          search_anchors S declared [ran; earlier]
      end
  end.

Definition is_in_progress (t : task) : bool := bool_decide (strip (str_or_blank_of (obj_get "status" t)) = u "in_progress").

Definition seconds_of (hours : float) : float := fmul hours (fz 3600).

Definition _dependency_bypassed (S : shelf) (dependent dep : task) (dep_last_run : option Z) (now : Z) : outcome bool :=
  bound <-? _stale_bypass_hours dependent ;;
  match bound with
  | None => Ok false
  | Some bound =>
      if is_in_progress dep then Ok false
      else
        let age := (fun ran => secs (now - ran)) <$> dep_last_run in
        if match age with Some age => ble age (seconds_of bound) | None => false end then Ok false
        else
          found <-? _upstream_artifact_on_disk S dep dep_last_run now ;;
          Ok (match found with
              | Missing => match age with
                           | Some age => blt (seconds_of (fplus bound MISSING_ARTIFACT_GRACE_HOURS)) age
                           | None => false end
              | _ => true
              end)
  end.

(** The text of a dependency: the id it names, where it names one. *)
Definition depends_on (t : task) : option text :=
  match obj_get "depends_on" t with
  | None => None
  | Some v => if negb (json_true v) || bool_decide (lower (strip (str_of v)) ∈ [u "null"; u "none"; []]) then None
              else Some (strip (str_of v))
  end.

Definition upstream_of (dep_id : text) (all : list task) : option task :=
  head (sel (fun t => bool_decide (strip (str_or_blank_of (obj_get "id" t)) = dep_id)) all).

(** What stands for an upstream no task file answers. *)
Definition no_such_task (dep_id : text) : task := [("id", JStr (encode dep_id)); ("status", JStr "unknown")]%string.

(** [_dependency_refusal], with the verdict on a bypass as an argument: [None] lets the
    task run, a text is why it may not. *)
Definition refusal_by (decide : list text -> task -> option Z -> outcome (option text)) (t : task) (all : list task) (now : Z) (seen : list text)
    : outcome (option text) :=
  match depends_on t with
  | None => Ok None
  | Some dep_id =>
      match upstream_of dep_id all with
      | None => decide seen (no_such_task dep_id) None
      | Some dep =>
          let ran := _parse_iso (obj_get "last_run" dep) in
          blockers <-? _dispatch_blockers dep ;;
          if nonnil blockers then decide seen dep ran
          else
            match ran with
            | None => decide seen dep None
            | Some dep_ran =>
                interval <-? _frequency_interval_seconds t ;;
                let interval := match interval with Some i => if fnonzero i then i else fz 86400 | None => fz 86400 end in
                windowed <-? _window_dependency_fresh t dep dep_ran now ;;
                let fresh := match windowed with Some b => b | None => ble (secs (now - dep_ran)) (fdiv interval (fz 2)) end in
                if negb fresh then decide (str_or_blank_of (obj_get "id" t) :: seen) dep ran
                else
                  Ok (match _parse_iso (obj_get "last_run" t) with
                      | None => None
                      | Some mine => if mine <? dep_ran then None else Some []
                      end)
            end
      end
  end.

Definition plain_decision (S : shelf) (t : task) (now : Z) (seen : list text) (dep : task) (ran : option Z) : outcome (option text) :=
  released <-? _dependency_bypassed S t dep ran now ;; Ok (if (released : bool) then None else Some []).

Definition _is_dependency_met (S : shelf) (t : task) (all : list task) (now : Z) (seen : list text) : outcome bool :=
  refusal <-? refusal_by (plain_decision S t now) t all now seen ;;
  Ok (match refusal with None => true | Some _ => false end).

(** Will the scheduler dispatch this upstream on this very tick? *)
Definition _upstream_due_in_window (S : shelf) (dep : task) (dep_last_run : Z) (all : list task) (now : Z) (seen : list text) : outcome bool :=
  if bool_decide (str_or_blank_of (obj_get "id" dep) ∈ seen) then Ok false
  else
    hours <-? _window_hours dep ;;
    match hours with
    | None => Ok false
    | Some hours =>
        if negb (bool_decide (strip (str_or_blank_of (obj_get "status" dep)) = u "up_next")) then Ok false
        else if _in_infra_rest dep now then Ok false
        else
          cooling <-? _in_failure_cooldown dep now ;;
          if (cooling : bool) then Ok false
          else
            due_at <-? _elapsed_due_at dep dep_last_run ;;
            if match due_at with Some due_at => now <? due_at | None => true end then Ok false
            else
              slot <-? _first_in_window_at_or_after hours now ;;
              if negb (slot =? now) then Ok false
              else
                met <-? _is_dependency_met S dep all now seen ;;
                if negb met then Ok false
                else ran <-? _already_ran_this_period S dep now ;; Ok (negb (nonnil ran))
    end.

Definition shown (v : option json) : text := match v with Some v => str_of v | None => u "None" end.
Definition _fmt_hours (x : float) : text := general x.

(** Why a declared bound has not released the dependent. *)
Definition _bypass_hold_detail (S : shelf) (dependent dep : task) (dep_last_run : option Z) (now : Z) (all : list task) (seen : list text)
    : outcome text :=
  bound <-? _stale_bypass_hours dependent ;;
  match bound with
  | None => Ok []
  | Some bound =>
      let uid := shown (obj_get "id" dep) in
      let age := (fun ran => fdiv (secs (now - ran)) (fz 3600)) <$> dep_last_run in
      let inside := match age with Some age => ble age bound | None => false end in
      let head := match age with
      | Some age =>
          if inside
          then (u "inside its " ++ _fmt_hours bound ++ u " h stale_bypass window: #" ++ uid ++ u " ran " ++ fixed1 age ++ u " h ago")
          else u "stale_bypass " ++ _fmt_hours bound ++ u " h passed"
      | None => u "stale_bypass " ++ _fmt_hours bound ++ u " h window applies, but #" ++ uid ++ u " has never had a successful run"
      end in
      if inside then Ok head
      else
        cause <-? (if is_in_progress dep then Ok [u "#" ++ uid ++ u " is in_progress"]
                   else found <-? _upstream_artifact_on_disk S dep dep_last_run now ;;
                        Ok (match found with Missing => [u "#" ++ uid ++ u "'s declared output_artifact is not on disk"] | _ => [] end)) ;;
        soon <-? (match dep_last_run with
                  | Some ran => due <-? _upstream_due_in_window S dep ran all now seen ;;
                                Ok (if (due : bool) then [u "#" ++ uid ++ u " is due in its window this tick"] else [])
                  | None => Ok []
                  end) ;;
        Ok (join (u "; ") ([head] ++ cause ++ soon))
  end.

Definition explained_decision (S : shelf) (t : task) (all : list task) (now : Z) (seen : list text) (dep : task) (ran : option Z)
    : outcome (option text) :=
  released <-? _dependency_bypassed S t dep ran now ;;
  if (released : bool) then Ok None
  else detail <-? _bypass_hold_detail S t dep ran now all seen ;; Ok (Some detail).

(** [_dependency_refusal(..., _explain=True)], as the board asks it. *)
Definition _dependency_refusal (S : shelf) (t : task) (all : list task) (now : Z) : outcome (option text) :=
  refusal_by (explained_decision S t all now) t all now [].

(** ** A window occurrence lost under a block *)

Definition WINDOW_LOSS_WM_SOURCE : string := "scheduled-task".
Definition WINDOW_LOSS_WM_PREFIX : text := u "window_lost:".

Definition window_loss_from_key (key : text) : option Z :=
  if startswith WINDOW_LOSS_WM_PREFIX key then
    match split_char 58 [] (drop (length WINDOW_LOSS_WM_PREFIX) key) with
    | part :: _ => match int_of (JStr (encode part)) with Ok id => Some id | Raise _ => None end
    | [] => None
    end
  else None.

Definition loss_row : Type := list (string * json).

Definition later (a b : loss_row) : bool :=
  negb (sle (encode (or_str (obj_get "window_open" a) [])) (encode (or_str (obj_get "window_open" b) []))).

(** One row of the ledger, where it can be read; the newest of a task's rows is kept. *)
Definition add_loss `{JsonText} (m : watermarks) (rows : gmap Z loss_row) (key : string) : gmap Z loss_row :=
  match window_loss_from_key (utf8 key) with
  | None => rows
  | Some id =>
      match wm_get WINDOW_LOSS_WM_SOURCE key m ≫= loads with
      | Some (JObj fs) =>
          let row := obj_put "_key" (JStr key) fs in
          match rows !! id with
          | Some prev => if later row prev then <[id := row]> rows else rows
          | None => <[id := row]> rows
          end
      | _ => rows
      end
  end.

(** [None]: the store cannot be read. *)
Definition window_loss_rows `{JsonText} (m : option watermarks) : gmap Z loss_row :=
  match m with
  | Some m => fold_left (add_loss m) (elements (wm_keys WINDOW_LOSS_WM_SOURCE m)) ∅
  | None => ∅
  end.

(** [rows.get(v)]: integers, and what equals one. *)
Definition rows_get (rows : gmap Z loss_row) (v : json) : outcome (option loss_row) :=
  match v with
  | JInt z => Ok (rows !! z)
  | JBool b => Ok (rows !! Z.b2z b)
  | JFloat r => Ok (match int_of v with Ok z => if bool_decide (float_cmp r z = Some Eq) then rows !! z else None | Raise _ => None end)
  | JNull | JStr _ => Ok None
  | JList _ | JObj _ => Raise TypeError
  end.

Definition _last_run_older_than (t : task) (instant : Z) : bool :=
  match _parse_iso (obj_get "last_run" t) with Some run => run <? instant | None => true end.

Definition window_catch_up_row (t : task) (now : Z) (rows : gmap Z loss_row) : outcome (option loss_row) :=
  hours <-? _window_hours t ;;
  match hours, obj_get "id" t with
  | None, _ | _, None | _, Some JNull => Ok None
  | Some _, Some id =>
      found <-? rows_get rows id ;;
      found <-? (match found with
                 | Some row => Ok (Some row)
                 | None => match int_of id with
                           | Ok z => Ok (rows !! z)
                           | Raise (TypeError | ValueError) => Ok None
                           | Raise e => Raise e
                           end
                 end) ;;
      match found with
      | None => Ok None
      | Some row =>
          if negb (given (obj_get "pause_since" row)) then Ok None
          else
            match _parse_iso (obj_get "window_close" row) with
            | None => Ok None
            | Some close =>
                interval <-? _frequency_interval_seconds t ;;
                age <-? duration (match interval with Some i => if fnonzero i then i else fz 172800 | None => fz 172800 end) ;;
                Ok (if age <? now - close then None else if _last_run_older_than t close then Some row else None)
            end
      end
  end.

Definition _resolve_catch_up `{JsonText} (m : option watermarks) (t : task) (now : Z) : outcome (option loss_row) :=
  window_catch_up_row t now (window_loss_rows m).

(** ** The verdict *)

Definition has_skill (t : task) : bool := nonnil (stripped "skill_name" t) || nonnil (stripped "skill_path" t).

(** The elapsed gate: the run its stamp records still holds the task. *)
Definition too_early (t : task) (now : Z) : outcome bool :=
  match _parse_iso (obj_get "last_run" t) with
  | Some run => due_at <-? _elapsed_due_at t run ;; match due_at with Some due_at => Ok (now <? due_at) | None => Raise TypeError end
  | None => Ok false
  end.

(** [catch_up] is what [_resolve_catch_up] answers; it is asked outside the hours only. *)
Definition _is_task_due (S : shelf) (t : task) (all : list task) (now : Z) (catch_up : outcome (option loss_row)) : outcome bool :=
  if negb (has_skill t) then Ok false
  else if negb (bool_decide (strip (str_or_blank_of (obj_get "status" t)) = u "up_next")) then Ok false
  else
    interval <-? _frequency_interval_seconds t ;;
    match interval with
    | None => Ok false
    | Some _ =>
        early <-? too_early t now ;;
        if (early : bool) then Ok false
        else if _in_infra_rest t now then Ok false
        else
          cooling <-? _in_failure_cooldown t now ;;
          if (cooling : bool) then Ok false
          else
            met <-? _is_dependency_met S t all now [] ;;
            if negb met then Ok false
            else
              inside <-? _is_preferred_hour S.(sh_hour) t ;;
              allowed <-? (if (inside : bool) then Ok true else row <-? catch_up ;; Ok (match row with Some _ => true | None => false end)) ;;
              if negb allowed then Ok false
              else ran <-? _already_ran_this_period S t now ;; Ok (negb (nonnil ran))
    end.

(** *** The board's account *)

Definition two_digits (h : Z) : text := (if h <? 10 then u "0" else []) ++ show h.
Definition hour_run (start prev : Z) : text := if start =? prev then two_digits start else two_digits start ++ u "-" ++ two_digits prev.

Fixpoint hour_runs (start prev : Z) (hs : list Z) : list text :=
  match hs with
  | [] => [hour_run start prev]
  | h :: hs => if h =? prev + 1 then hour_runs start h hs else hour_run start prev :: hour_runs h h hs
  end.

Definition _hour_windows (hs : list Z) : text :=
  match hours_of hs with [] => [] | h :: rest => join (u ",") (hour_runs h h rest) end.

Definition parked_declaration (t : task) : text :=
  match obj_get "parked" t with Some (JStr s) => strip (utf8 s) | Some (JBool true) => u "true" | _ => [] end.

Definition RUN_SUCCESS_HOLD : text := u "already ran this period".

Definition hold_reason (S : shelf) (t : task) (all : list task) (now : Z) (catch_up : outcome (option loss_row)) : outcome (option text) :=
  if negb (has_skill t) then Ok (Some (u "no skill"))
  else
    let status := stripped "status" t in
    if negb (bool_decide (status = u "up_next")) then Ok (Some (match status with [] => u "no status" | s => s end))
    else
      interval <-? _frequency_interval_seconds t ;;
      match interval with
      | None => Ok (Some (u "no frequency"))
      | Some _ =>
          if _in_infra_rest t now then Ok (Some (_infra_rest_reason t))
          else
            cooling <-? _in_failure_cooldown t now ;;
            if (cooling : bool) then Ok (Some (u "failure cooldown"))
            else
              refusal <-? _dependency_refusal S t all now ;;
              match refusal with
              | Some detail =>
                  ran <-? (match detail with [] => _already_ran_this_period S t now | _ => Ok [] end) ;;
                  Ok (Some (if nonnil ran then RUN_SUCCESS_HOLD
                            else u "waiting on #" ++ shown (obj_get "depends_on" t)
                                 ++ match detail with [] => [] | d => u " (" ++ d ++ u ")" end))
              | None =>
                  inside <-? _is_preferred_hour S.(sh_hour) t ;;
                  allowed <-? (if (inside : bool) then Ok true else row <-? catch_up ;; Ok (match row with Some _ => true | None => false end)) ;;
                  if negb allowed then
                    hours <-? _effective_preferred_hours t ;;
                    Ok (Some (match _hour_windows (default [] hours) with
                              | [] => u "outside hours" | w => u "outside hours " ++ w end))
                  else
                    ran <-? _already_ran_this_period S t now ;;
                    Ok (if nonnil ran then Some RUN_SUCCESS_HOLD else None)
              end
      end.

(** ** The scan *)

Definition PRIORITIES : list (text * Z) := [(u "critical", 4); (u "high", 3); (u "medium", 2); (u "low", 1); (u "background", 0)].

(** [_priority_key], the order of the scan: [wall] is the clock it reads. *)
Definition priority_of (t : task) : Z :=
  let name := lower (match obj_get "priority" t with Some v => str_of v | None => u "medium" end) in
  default 2 (snd <$> head (sel (fun p => bool_decide (p.1 = name)) PRIORITIES)).
Definition overdue_of (wall : Z) (t : task) : float :=
  match _parse_iso (obj_get "last_run" t) with Some run => secs (wall - run) | None => fz 999999 end.
Definition _priority_key (wall : Z) (a b : task) : bool :=
  (priority_of b <? priority_of a) || ((priority_of a =? priority_of b) && ble (overdue_of wall b) (overdue_of wall a)).

Fixpoint runnable (board : list task) : outcome (list task) :=
  match board with
  | [] => Ok []
  | t :: board => blockers <-? _dispatch_blockers t ;; rest <-? runnable board ;;
                  Ok (if nonnil blockers then rest else t :: rest)
  end.

Fixpoint due_among (S : shelf) (all : list task) (now : Z) (rows : gmap Z loss_row) (ts : list task) : outcome (list task) :=
  match ts with
  | [] => Ok []
  | t :: ts =>
      catch_up <-? window_catch_up_row t now rows ;;
      due <-? _is_task_due S t all now (Ok catch_up) ;;
      rest <-? due_among S all now rows ts ;;
      Ok (if (due : bool) then t :: rest else rest)
  end.

Definition get_due_tasks `{JsonText} (S : shelf) (board : list task) (m : option watermarks) (now wall : Z) : outcome (list task) :=
  candidates <-? runnable board ;;
  due <-? due_among S board now (window_loss_rows m) candidates ;;
  Ok (sort_by (_priority_key wall) due).
End Due.

(** ** A small board, for the examples *)

Definition board_shown : PyJson :=
  {| py_repr _ := []; py_shown v := match v with JInt z => show z | JBool true => u "True" | JBool false => u "False" | JNull => u "None" | _ => [] end;
     parse_json _ := None; dump_json _ := [] |}.
Definition board_floats : FloatText := {| text_float _ := None; json_float _ := fz 0; fixed0 _ := []; fixed1 _ := []; general _ := [] |}.

Definition daily (id : Z) (fields : list (string * json)) : task :=
  [("id", JInt id); ("skill_name", JStr "digest"); ("status", JStr "up_next"); ("frequency", JStr "daily")]%string ++ fields.

(** Nothing on disk but the run records of one task, at five o'clock. *)
Definition one_record (name : text) (record : list (text * option text)) (yaml : text -> option json) : shelf :=
  Shelf 5 (fun id => if bool_decide (id = name) then Some record else None) yaml Ok (fun _ => None) (fun _ => []) (fun _ => []).
Definition bare_shelf : shelf := one_record [] [] (fun _ => None).
