(* ===== verification/DueFacts.v ===== *)
(** * When a scheduled task is due: what the gates promise

    The scheduler and the board give one answer, and a success holds its task for at least
    half its period whichever account of it survives. *)
From Stdlib Require Import String SpecFloat.
From S2P Require Import Prelude PyText Stamps QueueRows QueueOps QueueJournal Regex Policy Grants Spill Microcompact PoolGates Binary64 PyValues Windows DueRules.

Local Open Scope Z_scope.

(** Run the outcome of a hypothesis one step. *)
Ltac run_ok H :=
  let x := fresh "x" in let E := fresh "E" in
  apply obind_ok in H as (x & E & H).

(** What is falsy and no text is shown as no status. *)
Class FalsyShown `{PyNumbers} `{PyJson} : Prop := falsy_shown v : json_true v = false -> strip (py_shown v) <> u "up_next".

Section Agreement.
Context `{IsoStamps} `{PyNumbers} `{PyJson} `{PyUnicode} `{FloatText} `{PyZone}.

(** Two ways to decide a bypass that release alike make one gate. *)
Lemma refusal_agrees f g (t : task) all now seen :
  (forall seen dep ran, f seen dep ran = Ok None <-> g seen dep ran = Ok None) ->
  refusal_by f t all now seen = Ok None <-> refusal_by g t all now seen = Ok None.
Proof.
  intros A. unfold refusal_by. destruct (depends_on t) as [dep_id|]; [|done]. destruct (upstream_of dep_id all) as [dep|]; [|apply A].
  cbv zeta. destruct (_dispatch_blockers dep) as [bs|]; [|done]. cbn [obind]. destruct (nonnil bs); [apply A|].
  destruct (_parse_iso (obj_get "last_run" dep)) as [ran|]; [|apply A].
  destruct (_frequency_interval_seconds t); [|done]. cbn [obind]. destruct (_window_dependency_fresh t dep ran now); [|done]. cbn [obind].
  by case_match; [apply A|].
Qed.

Lemma decisions_agree S (t : task) all now seen dep ran :
  plain_decision S t now seen dep ran = Ok None <-> explained_decision S t all now seen dep ran = Ok None.
Proof.
  unfold plain_decision, explained_decision. destruct (_dependency_bypassed S t dep ran now) as [[|]|]; cbn [obind]; [done| |done].
  destruct (_bypass_hold_detail _ _ _ _ _ _ _); done.
Qed.

Lemma met_agrees S (t : task) all now : _is_dependency_met S t all now [] = Ok true <-> _dependency_refusal S t all now = Ok None.
Proof.
  unfold _dependency_refusal. rewrite <-(refusal_agrees (plain_decision S t now)) by (intros; apply decisions_agree).
  unfold _is_dependency_met. destruct (refusal_by _ t all now []) as [[|]|]; done.
Qed.

Lemma status_agrees (t : task) : FalsyShown ->
  bool_decide (strip (str_or_blank_of (obj_get "status" t)) = u "up_next") = bool_decide (stripped "status" t = u "up_next").
Proof.
  intros F. unfold stripped, or_str, str_or_blank_of. destruct (obj_get "status" t) as [v|]; [|done]. destruct (json_true v) eqn:E; [done|].
  rewrite (bool_decide_eq_false_2 (strip [] = _)) by done. apply bool_decide_eq_false. destruct v; try (by apply F); cbn [str_of]; try by apply F.
  by destruct s.
Qed.

(** Why the board holds a task is never a blank. *)
Lemma hold_speaks S (t : task) all now catch_up why : hold_reason S t all now catch_up = Ok (Some why) -> why <> [].
Proof.
  unfold hold_reason. cbv zeta. destruct (negb (has_skill t)); [by intros [= <-]|]. destruct (negb _); [intros [= <-]; by destruct (stripped "status" t)|].
  intros K. run_ok K. destruct x as [i|]; [|by injection K as <-]. destruct (_in_infra_rest t now); [by injection K as <-|].
  run_ok K. destruct (x : bool); [by injection K as <-|]. run_ok K. destruct x0 as [detail|].
  - run_ok K. injection K as <-. by destruct (nonnil x0).
  - run_ok K. run_ok K. destruct (negb x1); [run_ok K; injection K as <-; by destruct (_hour_windows _)|].
    run_ok K. destruct (nonnil x2); by simplify_eq.
Qed.

(** C26: the board and the scheduler give one answer. The scheduler will run a task at an
    instant exactly when the board names nothing that holds it and the run its stamp
    records no longer fills its period; and a hold is always named. *)
Theorem hold_agrees_with_due S (t : task) all now catch_up : FalsyShown ->
  (_is_task_due S t all now catch_up = Ok true <-> too_early t now = Ok false /\ hold_reason S t all now catch_up = Ok None) /\
  (forall why, hold_reason S t all now catch_up = Ok (Some why) -> why <> []).
Proof.
  intros F. split; [|intros why; apply hold_speaks].
  unfold _is_task_due, hold_reason. cbv zeta. rewrite status_agrees by done.
  destruct (negb (has_skill t)); [by split; [|intros [_ ?]]|]. destruct (negb _); [by split; [|intros [_ ?]]|].
  destruct (_frequency_interval_seconds t) as [[i|]|]; cbn [obind]; [|by split; [|intros [_ ?]]..].
  destruct (too_early t now) as [[|]|]; cbn [obind]; [by split; [|intros [? _]]| |by split; [|intros [? _]]].
  destruct (_in_infra_rest t now); [by split; [|intros [_ ?]]|].
  destruct (_in_failure_cooldown t now) as [[|]|]; cbn [obind]; [by split; [|intros [_ ?]]| |by split; [|intros [_ ?]]].
  pose proof (met_agrees S t all now) as M.
  destruct (_is_dependency_met S t all now []) as [[|]|] eqn:Em; cbn [obind negb].
  - rewrite (proj1 M eq_refl). cbn [obind]. destruct (_is_preferred_hour _ t) as [inside|]; cbn [obind]; [|by split; [|intros [_ ?]]].
    destruct (if inside then _ else _) as [[|]|]; cbn [obind negb]; [| |by split; [|intros [_ ?]]].
    + destruct (_already_ran_this_period S t now) as [ran|]; cbn [obind]; [|by split; [|intros [_ ?]]].
      destruct (nonnil ran); by split; [|intros [_ ?]].
    + split; [done|intros [_ K]]. by run_ok K.
  - split; [done|intros [_ K]]. destruct (_dependency_refusal S t all now) as [[d|]|]; cbn [obind] in K; [|by discriminate (proj2 M eq_refl)|done].
    by run_ok K.
  - split; [done|intros [_ K]]. destruct (_dependency_refusal S t all now) as [[d|]|]; cbn [obind] in K; [|by discriminate (proj2 M eq_refl)|done].
    by run_ok K.
Qed.
End Agreement.

(** ** Periods *)

(** The periods of the frequency vocabulary and of a whole number of runs a day, in
    seconds. *)
Definition CADENCES : list Z := [900; 1800; 3600; 7200; 10800; 14400; 21600; 28800; 43200; 86400; 604800].
Definition paced `{PyNumbers} `{PyJson} `{FloatText} (t : task) (P : Z) : Prop :=
  P ∈ CADENCES /\ _frequency_interval_seconds t = Ok (Some (fz P)).

Definition slack_of (P : Z) : Z := Z.min 3600 (P / 4).

Ltac per_cadence HP tac := unfold CADENCES in HP; rewrite !elem_of_cons, elem_of_nil in HP;
  repeat (destruct HP as [-> | HP]; [tac|]); by destruct HP.
Ltac each_cadence := let HP := fresh in intros HP; per_cadence HP ltac:(vm_compute; reflexivity || discriminate || (split; discriminate)).

Lemma cadence_duration P : P ∈ CADENCES -> duration (fz P) = Ok (P * SECOND). Proof. each_cadence. Qed.
Lemma cadence_slack P : P ∈ CADENCES -> bmin (fz 3600) (fmul (fz P) QUARTER) = fz (slack_of P). Proof. each_cadence. Qed.
Lemma cadence_slack_us P : P ∈ CADENCES -> duration (fz (slack_of P)) = Ok (slack_of P * SECOND). Proof. each_cadence. Qed.
Lemma cadence_back P : P ∈ CADENCES -> duration (bmax (fz 1) (fminus (fz P) (fz 0))) = Ok (P * SECOND). Proof. each_cadence. Qed.
Lemma cadence_back_slack P : P ∈ CADENCES ->
  duration (bmax (fz 1) (fminus (fz P) (fz (slack_of P)))) = Ok ((P - slack_of P) * SECOND).
Proof. each_cadence. Qed.
Lemma cadence_half P : P ∈ CADENCES -> half_even (P * SECOND) 2 = P / 2 * SECOND. Proof. each_cadence. Qed.
Lemma cadence_bounds P : P ∈ CADENCES -> 900 <= P <= 604800. Proof. each_cadence. Qed.
Lemma cadence_even P : P ∈ CADENCES -> P / 2 * 2 = P. Proof. each_cadence. Qed.
Lemma cadence_slack_small P : P ∈ CADENCES -> 0 <= slack_of P <= P / 2. Proof. each_cadence. Qed.

Lemma moved_ok `{IsoStamps} t d x : moved t d = Ok x -> x = t + d.
Proof. unfold moved. case_match; [by intros [= <-]|done]. Qed.

Section Periods.
Context `{IsoStamps} `{PyNumbers} `{PyJson} `{PyUnicode} `{FloatText} `{PyZone}.

Lemma last_open_opened at_ best os o : last_open at_ best os = Some o -> best = Some o \/ o.1 <= at_.
Proof.
  revert best. induction os as [|o' os IH]; intros best; simpl; [by left|]. intros [E|?]%IH; [|by right].
  case_match eqn:L; [|by left]. injection E as <-. bool_simp. by right.
Qed.

Lemma latest_opened hs at_ o : _latest_window_open hs at_ = Ok (Some o) -> o.1 <= at_.
Proof. unfold _latest_window_open. intros K. run_ok K. injection K as K. by apply last_open_opened in K as [|]. Qed.

(** The slack of a paced task: a quarter period, at most an hour, where it has hours. *)
Lemma paced_slack t P s : paced t P -> _due_slack_seconds t = Ok s -> s = fz 0 \/ s = fz (slack_of P).
Proof.
  intros [HP Hi]. unfold _due_slack_seconds. rewrite Hi. cbn [obind]. intros K. run_ok K. injection K as <-.
  destruct x; [right; by apply cadence_slack|by left].
Qed.

Lemma paced_slack_us t P s d : paced t P -> _due_slack_seconds t = Ok s -> duration s = Ok d -> 0 <= d <= slack_of P * SECOND.
Proof.
  intros Hp Hs Hd. pose proof (cadence_slack_small P (proj1 Hp)).
  destruct (paced_slack t P s Hp Hs) as [->| ->].
  - change (duration (fz 0)) with (Ok 0 : outcome Z) in Hd. injection Hd as <-. unfold SECOND. lia.
  - rewrite (cadence_slack_us P (proj1 Hp)) in Hd. injection Hd as <-. unfold SECOND. lia.
Qed.

(** A run holds its task for half a period at least and never for more than one. *)
Lemma elapsed_due_bounds t P ran due : paced t P -> _elapsed_due_at t ran = Ok (Some due) ->
  ran + P / 2 * SECOND <= due <= ran + P * SECOND.
Proof.
  intros Hp. destruct Hp as [HP Hi]. unfold _elapsed_due_at. rewrite Hi. cbn [obind]. intros K. run_ok K. run_ok K. run_ok K.
  rewrite cadence_duration in E1 by done. injection E1 as <-. pose proof (paced_slack_us t P x x0 (conj HP Hi) E E0) as S0.
  pose proof (cadence_bounds P HP) as B. pose proof (cadence_even P HP) as HE. pose proof (cadence_slack_small P HP).
  unfold SECOND in *. run_ok K. run_ok K. destruct x2 as [o|].
  - run_ok K. run_ok K. run_ok K. injection K as <-. apply moved_ok in E3, E4, E5. subst.
    rewrite cadence_half by done. destruct x1 as [hs|]; [|done]. apply latest_opened in E2. unfold SECOND. lia.
  - run_ok K. run_ok K. injection K as <-. apply moved_ok in E3, E4. subst. lia.
Qed.

(** *** What the run records say *)

Lemma newest_none S want nb accept best files : newest_of S want nb accept best files = Ok None ->
  best = None /\ forall f status t id, f ∈ files -> read_record S f = Some (status, t, id) ->
    match want with Some w => status = w | None => True end -> match nb with Some b => b <= t | None => True end -> accept t = Ok false.
Proof.
  revert best. induction files as [|f files IH]; intros best; cbn [newest_of].
  { intros [= ->]. split; [done|]. intros f ??? Hf. by apply elem_of_nil in Hf. }
  destruct (read_record S f) as [[[status t] id]|] eqn:Er.
  - destruct (negb _ || _) eqn:Eskip; intros K.
    + apply IH in K as [Hb K]. split; [done|]. intros f' status' t' id' [->|Hf]%elem_of_cons Hr; [|by apply (K f' _ _ id')].
      rewrite Er in Hr. injection Hr as <- <- <-. intros Hw Hn. exfalso. apply orb_true_iff in Eskip as [Ew|Eb].
      * destruct want as [w|]; [|done]. subst. by rewrite bool_decide_eq_true_2 in Ew.
      * destruct nb; [bool_simp; lia|done].
    + run_ok K. destruct x.
      * apply IH in K as [K _]. cbn [andb] in K. destruct best as [[[? ?] ?]|]; [|done]. by destruct (_ <? _).
      * cbn [andb] in K. apply IH in K as [Hb K]. split; [done|]. intros f' status' t' id' [->|Hf]%elem_of_cons Hr; [|by apply (K f' _ _ id')].
        rewrite Er in Hr. by injection Hr as <- <- <-.
  - intros K. apply IH in K as [Hb K]. split; [done|]. intros f' status' t' id' [->|Hf]%elem_of_cons Hr; [by rewrite Er in Hr|by apply (K f' _ _ id')].
Qed.

Lemma newest_some S want nb accept best files status t id : newest_of S want nb accept best files = Ok (Some (status, t, id)) ->
  best = Some (status, t, id) \/ exists f, f ∈ files /\ read_record S f = Some (status, t, id) /\
    match want with Some w => status = w | None => True end /\ match nb with Some b => b <= t | None => True end /\ accept t = Ok true.
Proof.
  revert best. induction files as [|f files IH]; intros best; cbn [newest_of]; [intros [= ->]; by left|].
  assert (W : forall b, (b = Some (status, t, id) \/ exists f', f' ∈ files /\ read_record S f' = Some (status, t, id) /\
      match want with Some w => status = w | None => True end /\ match nb with Some b => b <= t | None => True end /\ accept t = Ok true) ->
    b = best \/ b = Some (status, t, id) /\ read_record S f = Some (status, t, id) /\
      match want with Some w => status = w | None => True end /\ match nb with Some b => b <= t | None => True end /\ accept t = Ok true ->
    best = Some (status, t, id) \/ exists f', f' ∈ f :: files /\ read_record S f' = Some (status, t, id) /\
      match want with Some w => status = w | None => True end /\ match nb with Some b => b <= t | None => True end /\ accept t = Ok true).
  { intros b [Hb|(f' & Hf & K)] Hbest; [|right; exists f'; split; [by right|done]].
    destruct Hbest as [<-|[_ K]]; [by left|right; exists f; split; [by left|done]]. }
  destruct (read_record S f) as [[[status' t'] id']|] eqn:Er; [|intros K%IH; apply (W best); [done|by left]].
  destruct (negb _ || _) eqn:Eskip; [intros K%IH; apply (W best); [done|by left]|].
  intros K. run_ok K. pose proof (IH _ K) as K'. destruct (x && _) eqn:Ex; [|apply (W best); [done|by left]].
  apply andb_true_iff in Ex as [-> _].
  destruct K' as [[= -> -> ->]|(f' & Hf & K')]; [|right; exists f'; split; [by right|done]].
  right. exists f. split; [by left|]. split; [done|]. apply orb_false_iff in Eskip as [Ew Eb]. split; [|split; [|done]].
  - destruct want; [|done]. apply negb_false_iff, bool_decide_eq_true in Ew. done.
  - destruct nb; [bool_simp; lia|done].
Qed.

(** A success of the task on record, at [ran]. *)
Definition on_record S (t : task) (ran : Z) : Prop :=
  exists id files f rid, obj_get "id" t = Some id /\ id <> JNull /\ sh_runs S (str_of id) = Some files /\ f ∈ files /\
    read_record S f = Some (RUN_STATUS_SUCCESS, ran, rid).

(** Every record of the task that can be read names its run. *)
Definition named_records S (t : task) : Prop :=
  forall id files f r, obj_get "id" t = Some id -> sh_runs S (str_of id) = Some files -> f ∈ files -> read_record S f = Some r -> r.2 <> [].

Lemma period_start_paced t P now start : paced t P -> _run_period_start t now = Ok (Some start) ->
  now - P * SECOND <= start <= now - P / 2 * SECOND.
Proof.
  intros Hp. destruct Hp as [HP Hi]. unfold _run_period_start. rewrite Hi. cbn [obind]. intros K. run_ok K. run_ok K. run_ok K. injection K as <-.
  apply moved_ok in E1. pose proof (cadence_slack_small P HP). pose proof (cadence_even P HP). pose proof (cadence_bounds P HP).
  destruct (paced_slack t P x (conj HP Hi) E) as [->| ->]; [rewrite cadence_back in E0 by done|rewrite cadence_back_slack in E0 by done];
    injection E0 as <-; unfold SECOND in *; lia.
Qed.

(** A run from before the period the record guard counts is one the elapsed gate no
    longer holds. *)
Lemma period_start_due t P ran now start due : paced t P -> _run_period_start t now = Ok (Some start) ->
  _elapsed_due_at t ran = Ok (Some due) -> ran < start -> due <= now.
Proof.
  intros Hp Es Ed L. pose proof Hp as [HP Hi]. unfold _run_period_start in Es. rewrite Hi in Es. cbn [obind] in Es. run_ok Es. run_ok Es. run_ok Es.
  injection Es as <-. apply moved_ok in E1. unfold _elapsed_due_at in Ed. rewrite Hi, E in Ed. cbn [obind] in Ed. run_ok Ed. run_ok Ed.
  rewrite cadence_duration in E3 by done. injection E3 as <-.
  pose proof (cadence_slack_small P HP). pose proof (cadence_even P HP). pose proof (cadence_bounds P HP).
  assert (x0 = P * SECOND - x2) as ->.
  { destruct (paced_slack t P x Hp E) as [->| ->].
    - rewrite cadence_back in E0 by done. change (duration (fz 0)) with (Ok 0 : outcome Z) in E2. injection E0 as <-. injection E2 as <-. lia.
    - rewrite cadence_back_slack in E0 by done. rewrite cadence_slack_us in E2 by done. injection E0 as <-. injection E2 as <-. unfold SECOND. lia. }
  pose proof (paced_slack_us t P x x2 Hp E E2) as S0. run_ok Ed. run_ok Ed. destruct x3 as [o|].
  - run_ok Ed. run_ok Ed. run_ok Ed. injection Ed as <-. apply moved_ok in E5, E6, E7. subst. rewrite cadence_half by done.
    destruct x0 as [hs|]; [|done]. apply latest_opened in E4. unfold SECOND in *. lia.
  - run_ok Ed. run_ok Ed. injection Ed as <-. apply moved_ok in E5, E6. subst. lia.
Qed.

(** Without hours there is no slack: a whole period. *)
Lemma period_start_plain t P now start : paced t P -> _effective_preferred_hours t = Ok None ->
  _run_period_start t now = Ok (Some start) -> start = now - P * SECOND.
Proof.
  intros [HP Hi] Hh. unfold _run_period_start, _due_slack_seconds. rewrite Hi, Hh. cbn [obind]. rewrite cadence_back by done. cbn [obind].
  intros K. run_ok K. injection K as <-. apply moved_ok in E. lia.
Qed.

Lemma elapsed_due_plain t P ran due : paced t P -> _effective_preferred_hours t = Ok None ->
  _elapsed_due_at t ran = Ok (Some due) -> due = ran + P * SECOND.
Proof.
  intros [HP Hi] Hh. unfold _elapsed_due_at, _due_slack_seconds, _window_anchored. rewrite Hi, Hh. cbn [obind].
  change (duration (fz 0)) with (Ok 0 : outcome Z). rewrite cadence_duration by done. cbn [obind].
  assert ((if blt (fz P) (fz 86400) then Ok None else _window_hours t) = Ok None) as ->.
  { unfold _window_hours. rewrite Hh. by destruct (blt _ _). }
  cbn [obind]. intros K. run_ok K. run_ok K. injection K as <-. apply moved_ok in E, E0. lia.
Qed.

(** The question the record guard puts to the records. *)
Lemma guard_asks S t now rid id : obj_get "id" t = Some id -> id <> JNull -> _already_ran_this_period S t now = Ok rid ->
  _frequency_interval_seconds t = Ok None /\ rid = [] \/
  exists start accept r, _run_period_start t now = Ok (Some start) /\
    (accept = (fun at_ => due <-? _elapsed_due_at t at_ ;; match due with Some due => Ok (now <? due) | None => Raise TypeError end) \/
     accept = (fun _ => Ok true)) /\
    match sh_runs S (str_of id) with Some files => newest_of S (Some RUN_STATUS_SUCCESS) (Some start) accept None files | None => Ok None end = Ok r /\
    match r with Some (_, _, id) => id | None => [] end = rid.
Proof.
  intros Eid Hnull. unfold _already_ran_this_period. rewrite Eid.
  assert (W : forall A (m : outcome A) k, (match id with JNull => k | _ => m end) = m) by (intros A m k; by destruct id).
  rewrite W. clear W. intros K. run_ok K. destruct x as [start|].
  - right. apply obind_ok in K as (anch & Ea & K). apply obind_ok in K as (r & En & K). injection K as <-.
    unfold newest_successful_run, _newest_run_record in En. apply obind_ok in En as (r' & En & Hr). injection Hr as <-.
    exists start. destruct anch; eexists _, r'; (split; [done|]); (split; [by left + by right|]); (split; [exact En|]); by destruct r' as [[[? ?] ?]|].
  - left. injection K as <-. split; [|done]. unfold _run_period_start in E. apply obind_ok in E as (i & -> & E).
    destruct i; [|done]. do 3 (apply obind_ok in E as (? & _ & E)). done.
Qed.

(** What the elapsed gate, asked with the stamp of the run, has let go. *)
Definition let_go (t : task) (P ran now : Z) : Prop :=
  ran + P / 2 * SECOND <= now /\ (forall due, _elapsed_due_at t ran = Ok (Some due) -> due <= now) /\
  (_effective_preferred_hours t = Ok None -> ran + P * SECOND <= now).

Lemma elapsed_lets t P due ran now : paced t P -> _elapsed_due_at t ran = Ok (Some due) -> (now <? due) = false -> let_go t P ran now.
Proof.
  intros Hp Ed L%Z.ltb_ge. pose proof (elapsed_due_bounds t P ran due Hp Ed). split; [lia|]. split; [intros due' Ed'; rewrite Ed in Ed'; injection Ed' as <-; lia|].
  intros Hh. apply (elapsed_due_plain t P ran due Hp Hh) in Ed. lia.
Qed.

(** What the record holds, the elapsed gate asked with the record's stamp would hold, or
    it is within the period as the record guard counts it. *)
Lemma guard_lets S t P now ran : paced t P -> named_records S t -> on_record S t ran ->
  _already_ran_this_period S t now = Ok [] -> let_go t P ran now.
Proof.
  intros Hp Hn (id & files & f & rid & Eid & Hnull & Efs & Hf & Er) K.
  destruct (guard_asks S t now [] id Eid Hnull K) as [[Hi _]|(start & accept & r & Es & Ha & En & Erid)].
  { pose proof Hp as [_ Hi']. by rewrite Hi in Hi'. }
  pose proof (period_start_paced t P now start Hp Es) as B. rewrite Efs in En. destruct r as [[[st' t'] id']|].
  { exfalso. apply newest_some in En as [|(f' & Hf' & Er' & _)]; [done|]. exact (Hn _ _ _ _ Eid Efs Hf' Er' Erid). }
  apply newest_none in En as [_ En]. destruct (Z.lt_ge_cases ran start) as [L|L].
  { split; [lia|]. split; [intros due Ed; by apply (period_start_due t P ran now start)|].
    intros Hh. apply (period_start_plain t P now start Hp Hh) in Es. lia. }
  pose proof (En f _ _ _ Hf Er eq_refl L) as A. destruct Ha as [-> | ->]; [|done].
  apply obind_ok in A as (due & Ed & A). destruct due as [due|]; [|done]. injection A as A. by apply (elapsed_lets t P due).
Qed.

Lemma guard_holds S t P now rid : paced t P -> _already_ran_this_period S t now = Ok rid -> rid <> [] ->
  exists ran, on_record S t ran /\ now <= ran + P * SECOND.
Proof.
  intros Hp K Hr. destruct (obj_get "id" t) as [id|] eqn:Eid; [|unfold _already_ran_this_period in K; rewrite Eid in K; by injection K as <-].
  assert (id = JNull \/ id <> JNull) as [->|Hnull] by (destruct id; (by left) || by right); [unfold _already_ran_this_period in K; rewrite Eid in K; by injection K as <-|].
  destruct (guard_asks S t now rid id Eid Hnull K) as [[_ ?]|(start & accept & r & Es & _ & En & Erid)]; [done|].
  pose proof (period_start_paced t P now start Hp Es) as B.
  destruct (sh_runs S (str_of id)) as [files|] eqn:Efs; [|injection En as <-; by subst].
  destruct r as [[[st' t'] id']|]; [|by subst].
  apply newest_some in En as [|(f & Hf & Er & -> & Hs & _)]; [done|].
  exists t'. split; [|lia]. exists id, files, f, id'. by repeat split.
Qed.

(** A success holds its task for its own period, whichever account of it survives: by the
    stamp in the task file, or by the run record alone, a task that declares a period is
    not due again before half of it has passed. *)
Lemma success_holds S (t : task) all now catch_up (P ran : Z) : paced t P -> named_records S t ->
  (_parse_iso (obj_get "last_run" t) = Some ran \/ on_record S t ran) ->
  _is_task_due S t all now catch_up = Ok true -> let_go t P ran now.
Proof.
  intros Hp Hn Hran. unfold _is_task_due. destruct (negb _); [done|]. destruct (negb _); [done|]. intros K.
  run_ok K. destruct x as [i|]; [|done]. run_ok K. destruct x; [done|]. destruct (_in_infra_rest t now); [done|].
  run_ok K. destruct x; [done|]. run_ok K. destruct (negb x); [done|]. run_ok K. run_ok K. destruct (negb x1); [done|]. run_ok K.
  destruct Hran as [Hs|Hr].
  - unfold too_early in E0. rewrite Hs in E0. run_ok E0. destruct x3 as [due|]; [|done]. injection E0 as E0. by apply (elapsed_lets t P due).
  - destruct x2; [|done]. by eapply guard_lets.
Qed.

Lemma recorded_holds S (t : task) all now catch_up (P ran : Z) : paced t P -> named_records S t -> on_record S t ran ->
  _is_task_due S t all now catch_up = Ok true -> let_go t P ran now.
Proof. intros Hp Hn Hr. apply success_holds; auto. Qed.

(** A success holds its task for its own period, and never longer. Whether the
    completion stamp is still in the task file or only the run record is on disk, a task
    that declares a period is not due again before half of it has passed - a whole one
    where it has no hours, and with hours the instant its stamp would name; and a run
    record refuses a dispatch for at most one period, so that it can stand in for a lost
    stamp and never silence the task. *)
Theorem success_holds_its_period S (t : task) all now catch_up (P ran : Z) :
  paced t P -> named_records S t ->
  (_parse_iso (obj_get "last_run" t) = Some ran \/ on_record S t ran) ->
  (_is_task_due S t all now catch_up = Ok true -> let_go t P ran now) /\
  (forall rid, _already_ran_this_period S t now = Ok rid -> rid <> [] -> exists ran', on_record S t ran' /\ now <= ran' + P * SECOND).
Proof. intros Hp Hn Hran. split; [by apply success_holds|intros rid; by apply guard_holds]. Qed.
End Periods.

(** ** Witnesses: a daily task, with its stamp and with its record alone *)

Section Samples.
#[local] Existing Instances plain_numbers board_shown ascii_only board_floats.
#[local] Instance utc_zone : PyZone := fixed_zone 0.

Definition noon : Z := 20000 * DAY + 12 * HOUR.
Definition stamped : task := daily 7 [("last_run", JStr (iso noon))]%string.

Lemma daily_paced t : _frequency_interval_seconds t = Ok (Some (fz 86400)) -> paced t 86400.
Proof. split; [apply (bool_decide_unpack _); vm_compute; exact I|done]. Qed.

Lemma board_falsy : FalsyShown.
Proof. intros v E. destruct v as [|[]|z| | | |]; try done. cbn in E. bool_simp. subst. by vm_compute. Qed.

Lemma hold_agrees_with_due_witness :
  _is_task_due bare_shelf stamped [stamped] (noon + DAY) (Ok None) = Ok true /\
  hold_reason bare_shelf (daily 8 []) [] noon (Raise TypeError) <> Ok (Some []).
Proof.
  split.
  - apply (hold_agrees_with_due bare_shelf stamped [stamped] (noon + DAY) (Ok None) board_falsy). split; vm_compute; reflexivity.
  - intros K. by destruct (proj2 (hold_agrees_with_due bare_shelf (daily 8 []) [] noon (Raise TypeError) board_falsy) [] K).
Defined.

(** The record of a run that finished at noon. *)
Definition noon_record : list (text * option text) := [(u "20241004-run", Some (u "---" ++ nl ++ u "status: success" ++ nl ++ u "---" ++ nl))].
Definition noon_yaml (_ : text) : option json :=
  Some (JObj [("status", JStr "success"); ("completed_at", JStr (iso noon)); ("run_id", JStr "r1")]%string).
Definition noon_shelf : shelf := one_record (u "7") noon_record noon_yaml.

Lemma success_holds_its_period_witness :
  _is_task_due noon_shelf (daily 7 []) [] (noon + DAY) (Ok None) = Ok false /\
  _is_task_due noon_shelf (daily 7 []) [] (noon + DAY + 1) (Ok None) = Ok true /\ noon + 86400 / 2 * SECOND <= noon + DAY + 1.
Proof.
  split; [vm_compute; reflexivity|]. assert (D : _is_task_due noon_shelf (daily 7 []) [] (noon + DAY + 1) (Ok None) = Ok true) by (vm_compute; reflexivity).
  split; [exact D|].
  assert (Hp : paced (daily 7 []) 86400) by (apply daily_paced; vm_compute; reflexivity).
  assert (Hn : named_records noon_shelf (daily 7 [])).
  { intros id files f r Eid Efs Hf E. injection Eid as <-. vm_compute in Efs. injection Efs as <-.
    apply list_elem_of_singleton in Hf as ->. vm_compute in E. by injection E as <-. }
  assert (Hr : on_record noon_shelf (daily 7 []) noon).
  { exists (JInt 7), noon_record, (default ([], None) (head noon_record)), (u "r1"). repeat split; try (vm_compute; reflexivity); [done|by left]. }
  destruct (success_holds_its_period noon_shelf (daily 7 []) [] (noon + DAY + 1) (Ok None) 86400 noon Hp Hn (or_intror Hr)) as [G _].
  exact (proj1 (G D)).
Defined.
End Samples.
