(* ===== verification/DueWaits.v ===== *)
(** * When a scheduled task is due: how long it waits

    A failed attempt holds its task for an exact time, a share of its period that doubles
    with each failure; a dependent runs on an upstream's fresh output or on the bound its
    own file declares, and past that bound it waits no longer. *)
From Stdlib Require Import String SpecFloat.
From S2P Require Import Prelude PyText Stamps QueueRows QueueOps QueueJournal Regex Policy Grants Spill Microcompact PoolGates Binary64 PyValues Windows DueRules DueFacts.

Local Open Scope Z_scope.

(** ** Whole numbers of seconds and hours *)

(** A declared number of hours in seconds, and a day more. *)
Lemma hours_exact B : 1 <= B <= 8784 ->
  seconds_of (fz B) = fz (B * 3600) /\ seconds_of (fplus (fz B) MISSING_ARTIFACT_GRACE_HOURS) = fz ((B + 24) * 3600).
Proof.
  intros HB. unfold seconds_of, MISSING_ARTIFACT_GRACE_HOURS. rewrite fplus_exact by lia. by rewrite !fmul_exact by lia.
Qed.

(** An integer as a float compares with integers as it did. *)
Lemma below_fz a z : 0 < a < 2 ^ 53 -> below_int (fz a) z = (a <? z).
Proof.
  intros Ha. destruct (fz_whole a Ha) as (m & f & -> & _ & Hf & Em). unfold below_int. destruct (Z.leb_spec 0 f).
  - assert (f = 0) as -> by lia. rewrite Em. f_equal. change (2 ^ (- 0)) with 1. change (2 ^ 0) with 1. lia.
  - rewrite Em. pose proof (Z.pow_pos_nonneg 2 (- f) ltac:(lia) ltac:(lia)). destruct (Z.ltb_spec a z), (Z.ltb_spec (a * 2 ^ (- f)) (z * 2 ^ (- f))); done || nia.
Qed.

(** A step scaled past the period is cut to the period. *)
Lemma scaled_past k P j : 0 < k < 2 ^ 53 -> 0 < P < 2 ^ 53 -> 0 <= j <= 1023 -> P < k * 2 ^ j -> bmin (fmul (fz k) (fz (2 ^ j))) (fz P) = fz P.
Proof.
  intros Hk HP Hj L. destruct (fz_whole k Hk) as (m & f & -> & Fm & Hf & Em). destruct (fz_whole P HP) as (n & g & -> & Fn & Hg & En).
  rewrite fmul_pow2 by (done || lia). unfold bmin. destruct (f + j <=? 971); [|done].
  rewrite (proj2 (blt_full n g m (f + j) Fn Fm)); [done|]. set (e := Z.min g (f + j)).
  rewrite Em, En, <-!Z.mul_assoc, <-!Z.pow_add_r by lia. replace (- g + (g - e)) with (- e) by lia. replace (- f + (f + j - e)) with (j + - e) by lia.
  rewrite Z.pow_add_r by lia. pose proof (Z.pow_pos_nonneg 2 (- e) ltac:(lia) ltac:(lia)). nia.
Qed.

(** ** The cooldown *)

(** The hold after the [n]-th failure in a row of a task with period [P], in seconds. *)
Definition first_of (P : Z) : Z := Z.min (Z.min (Z.max 600 (P / 4)) 21600) P.
Definition hold_of (P n : Z) : Z := Z.min (first_of P * 2 ^ (n - 1)) P.

Lemma first_step_is P : P ∈ CADENCES -> first_step (fz P) = inl (first_of P) \/ first_step (fz P) = inr (fz (first_of P)).
Proof.
  intros HP. per_cadence HP ltac:(by (left; vm_compute; reflexivity) || (right; vm_compute; reflexivity)).
Qed.

(** From the seventh failure on it is the period. *)
Lemma first_bounds P : P ∈ CADENCES -> 600 <= first_of P <= P. Proof. each_cadence. Qed.
Lemma seventh_reaches P : P ∈ CADENCES -> P < first_of P * 2 ^ 6. Proof. each_cadence. Qed.
Lemma scaled_reaches P n : P ∈ CADENCES -> 7 <= n -> P < first_of P * 2 ^ (n - 1).
Proof.
  intros HP Hn. pose proof (first_bounds P HP). pose proof (seventh_reaches P HP). pose proof (Z.pow_le_mono_r 2 6 (n - 1) ltac:(lia) ltac:(lia)). nia.
Qed.
Lemma hold_late P n : P ∈ CADENCES -> 7 <= n -> hold_of P n = P.
Proof. intros HP Hn. pose proof (scaled_reaches P n HP Hn). unfold hold_of. lia. Qed.

Lemma early_or_late (Q : Z -> Z -> Prop) :
  (forall P, P ∈ CADENCES -> Q P 1 /\ Q P 2 /\ Q P 3 /\ Q P 4 /\ Q P 5 /\ Q P 6) ->
  (forall P n, P ∈ CADENCES -> 7 <= n <= 1024 -> Q P n) -> forall P n, P ∈ CADENCES -> 1 <= n <= 1024 -> Q P n.
Proof.
  intros HE HL P n HP Hn. destruct (Z.le_gt_cases 7 n); [apply HL; [done|lia]|].
  assert (n = 1 \/ n = 2 \/ n = 3 \/ n = 4 \/ n = 5 \/ n = 6) as [-> | [-> | [-> | [-> | [-> | ->]]]]] by lia; by apply HE.
Qed.

Lemma cooldown_table P n : P ∈ CADENCES -> 1 <= n <= 1024 -> cooldown_of (fz P) n = Ok (fz (hold_of P n)).
Proof.
  revert P n. apply early_or_late.
  - intros P HP. per_cadence HP ltac:(split_and!; vm_compute; reflexivity).
  - intros P n HP Hn. pose proof (scaled_reaches P n HP ltac:(lia)) as L. pose proof (cadence_bounds P HP). pose proof (first_bounds P HP).
    rewrite hold_late by (done || lia). unfold cooldown_of. destruct (first_step_is P HP) as [-> | ->].
    + cbv zeta. by rewrite below_fz, (proj2 (Z.ltb_lt _ _) L) by lia.
    + unfold float_of_int at 1. rewrite (fz_pow2 (n - 1)) at 1 by lia. cbn [obind]. rewrite <-(fz_pow2 (n - 1)) by lia. by rewrite scaled_past by lia.
Qed.

Lemma hold_bounds P n : P ∈ CADENCES -> 1 <= n -> 600 <= hold_of P n <= P.
Proof.
  intros HP Hn. pose proof (first_bounds P HP) as F.
  unfold hold_of. pose proof (Z.pow_le_mono_r 2 0 (n - 1) ltac:(lia) ltac:(lia)). change (2 ^ 0) with 1 in *. nia.
Qed.

(** The next failure doubles it, up to the period. *)
Lemma hold_doubles P n : 1 <= n -> hold_of P (n + 1) = Z.min (2 * hold_of P n) P \/ P < 0.
Proof.
  intros Hn. destruct (Z.lt_ge_cases P 0); [by right|left]. unfold hold_of. replace (n + 1 - 1) with (Z.succ (n - 1)) by lia.
  rewrite Z.pow_succ_r by lia. nia.
Qed.

Section Waits.
Context `{IsoStamps} `{PyNumbers} `{PyJson} `{PyUnicode} `{FloatText} `{PyZone}.

Lemma cooldown_exact t P count attempt now : paced t P ->
  int_of (or_else (obj_get "failure_count" t) (JInt 0)) = Ok count -> count <= 1024 ->
  _parse_iso (obj_get "last_attempt" t) = Some attempt ->
  match _parse_iso (obj_get "last_run" t) with Some run => run < attempt | None => True end ->
  - 2 ^ 51 < now - attempt < 2 ^ 51 ->
  _in_failure_cooldown t now = Ok (now - attempt <? hold_of P (Z.max 1 count) * SECOND).
Proof.
  intros [HP Hi] Ec Hc Ea Hr Hn. unfold _in_failure_cooldown. rewrite Ea.
  replace (match _parse_iso (obj_get "last_run" t) with Some run => attempt <=? run | None => false end) with false
    by (destruct (_parse_iso (obj_get "last_run" t)); [symmetry; by apply Z.leb_gt|done]).
  unfold _failure_cooldown_seconds. rewrite Ec, Hi. cbn [obind]. cbv zeta. rewrite cooldown_table by (done || lia). cbn [obind].
  pose proof (hold_bounds P (Z.max 1 count) HP ltac:(lia)). pose proof (cadence_bounds P HP).
  by rewrite secs_below by lia.
Qed.

(** What the scheduler runs has passed every gate. *)
Lemma due_passes S t all now catch_up : _is_task_due S t all now catch_up = Ok true ->
  too_early t now = Ok false /\ _in_infra_rest t now = false /\ _in_failure_cooldown t now = Ok false /\
  _is_dependency_met S t all now [] = Ok true /\ _already_ran_this_period S t now = Ok [].
Proof.
  unfold _is_task_due. destruct (negb _); [done|]. destruct (negb _); [done|]. intros K.
  apply obind_ok in K as ([i|] & _ & K); [|done]. apply obind_ok in K as ([|] & -> & K); [done|].
  destruct (_in_infra_rest t now); [done|]. apply obind_ok in K as ([|] & -> & K); [done|].
  apply obind_ok in K as ([|] & -> & K); [|done]. apply obind_ok in K as (inside & _ & K). apply obind_ok in K as ([|] & _ & K); [|done].
  apply obind_ok in K as (ran & -> & K). by destruct ran.
Qed.

(** A failed attempt holds its task for an exact time. After the [n]-th failure in a
    row a task that declares a period is held for a quarter of the period - at least ten
    minutes, at most six hours and at most the period - doubled [n - 1] times and never
    past the period: the cooldown gate refuses it until then and from then on lets it go,
    so failed runs of one task start at least ten minutes apart. *)
Theorem failed_attempt_cools S t all now catch_up (P count attempt : Z) :
  paced t P -> int_of (or_else (obj_get "failure_count" t) (JInt 0)) = Ok count -> count <= 1024 ->
  _parse_iso (obj_get "last_attempt" t) = Some attempt ->
  match _parse_iso (obj_get "last_run" t) with Some run => run < attempt | None => True end ->
  - 2 ^ 51 < now - attempt < 2 ^ 51 ->
  let hold := hold_of P (Z.max 1 count) * SECOND in
  _in_failure_cooldown t now = Ok (now - attempt <? hold) /\
  600 * SECOND <= hold <= P * SECOND /\
  (_is_task_due S t all now catch_up = Ok true -> attempt + hold <= now).
Proof.
  intros Hp Ec Hc Ea Hr Hn hold. pose proof (cooldown_exact t P count attempt now Hp Ec Hc Ea Hr Hn) as E. split; [done|].
  pose proof (hold_bounds P (Z.max 1 count) (proj1 Hp) ltac:(lia)). split; [unfold hold, SECOND; lia|].
  intros (_ & _ & K & _)%due_passes. rewrite E in K. injection K as K. unfold hold. bool_simp. lia.
Qed.

(** ** The dependency *)

(** The upstream's last success is the input of this cycle, and the task has not used it. *)
Definition fresh_input (t dep : task) (ran now P : Z) : Prop :=
  (_window_dependency_fresh t dep ran now = Ok (Some true) \/
   _window_dependency_fresh t dep ran now = Ok None /\ now - ran <= P / 2 * SECOND) /\
  match _parse_iso (obj_get "last_run" t) with Some mine => mine < ran | None => True end.

(** The task's own file lets it run on what there is: the bound has passed, the upstream
    is not at work, and its file is there, or not declared, or a day overdue. *)
Definition forwarded S (t dep : task) (ran : option Z) (now B : Z) : Prop :=
  _stale_bypass_hours t = Ok (Some (fz B)) /\ is_in_progress dep = false /\
  match ran with Some ran => ran + B * HOUR < now | None => True end /\
  (exists found, _upstream_artifact_on_disk S dep ran now = Ok found /\
    (found <> Missing \/ exists r, ran = Some r /\ r + (B + 24) * HOUR < now)).

Lemma half_exact P : P ∈ CADENCES -> fdiv (fz P) (fz 2) = fz (P / 2).
Proof. each_cadence. Qed.

Lemma cadence_nonzero P : P ∈ CADENCES -> fnonzero (fz P) = true.
Proof. each_cadence. Qed.

(** The verdict of a bypass under a bound of whole hours. *)
Lemma bypass_forwards S t dep ran now B : 1 <= B <= 8784 ->
  _stale_bypass_hours t = Ok None \/ _stale_bypass_hours t = Ok (Some (fz B)) ->
  match ran with Some r => - 2 ^ 51 < now - r < 2 ^ 51 | None => True end ->
  _dependency_bypassed S t dep ran now = Ok true -> forwarded S t dep ran now B.
Proof.
  intros HB Hs Hr. unfold _dependency_bypassed. destruct Hs as [-> | Hs]; [done|]. unfold forwarded. rewrite Hs. cbn [obind].
  destruct (is_in_progress dep); [done|]. destruct (hours_exact B HB) as [-> ->]. cbv zeta.
  destruct ran as [r|]; cbn [fmap option_fmap option_map].
  - rewrite secs_at_most by lia. destruct (Z.leb_spec (now - r) (B * 3600 * SECOND)); [done|]. intros K.
    apply obind_ok in K as (found & Ef & K). injection K as K. unfold HOUR. repeat split; [lia|]. exists found. split; [done|].
    destruct found; [by left..|]. right. exists r. split; [done|].
    rewrite secs_gt in K by (unfold SECOND in *; lia). apply Z.ltb_lt in K. lia.
  - intros K. apply obind_ok in K as (found & Ef & K). injection K as K. repeat split. exists found. split; [done|]. left. by intros ->.
Qed.

Lemma bypass_releases S t dep r now B : 1 <= B <= 8784 -> _stale_bypass_hours t = Ok (Some (fz B)) -> is_in_progress dep = false ->
  now - r < 2 ^ 51 -> r + (B + 24) * HOUR < now -> _dependency_bypassed S t dep (Some r) now <> Ok false.
Proof.
  intros HB Hs Hp Hr L. unfold _dependency_bypassed. rewrite Hs. cbn [obind]. rewrite Hp. destruct (hours_exact B HB) as [-> ->]. cbv zeta.
  cbn [fmap option_fmap option_map]. unfold HOUR, SECOND in L.
  rewrite secs_at_most by lia. destruct (Z.leb_spec (now - r) (B * 3600 * SECOND)); [unfold SECOND in *; lia|].
  destruct (_upstream_artifact_on_disk S dep (Some r) now) as [[]|]; cbn [obind]; [done..| |done].
  rewrite secs_gt by (unfold SECOND in *; lia). rewrite (proj2 (Z.ltb_lt _ _)) by (unfold SECOND; lia). done.
Qed.

End Waits.

(** ** Witnesses: a task that failed twice, and one that waits on another *)

Section Samples.
#[local] Existing Instances plain_numbers board_shown ascii_only board_floats utc_zone.

Definition failed_twice : task := daily 7 [("last_attempt", JStr (iso noon)); ("failure_count", JInt 2)]%string.

Lemma failed_attempt_cools_witness :
  _in_failure_cooldown failed_twice (noon + 43199 * SECOND) = Ok true /\
  (_is_task_due bare_shelf failed_twice [] (noon + 43200 * SECOND) (Ok None) = Ok true ->
   noon + hold_of 86400 2 * SECOND <= noon + 43200 * SECOND).
Proof.
  assert (Hp : paced failed_twice 86400) by (apply daily_paced; vm_compute; reflexivity).
  assert (Ha : _parse_iso (obj_get "last_attempt" failed_twice) = Some noon) by (vm_compute; reflexivity).
  assert (Hr : match _parse_iso (obj_get "last_run" failed_twice) with Some run => run < noon | None => True end) by exact I.
  assert (Hn : forall k, 0 <= k < 2 ^ 50 -> - 2 ^ 51 < noon + k - noon < 2 ^ 51) by lia.
  pose proof (fun now => failed_attempt_cools bare_shelf failed_twice [] now (Ok None) 86400 2 noon Hp eq_refl ltac:(lia) Ha Hr) as H. split.
  - rewrite (proj1 (H (noon + 43199 * SECOND) (Hn (43199 * SECOND) ltac:(unfold SECOND; lia)))). vm_compute. reflexivity.
  - apply (H (noon + 43200 * SECOND) (Hn (43200 * SECOND) ltac:(unfold SECOND; lia))).
Defined.

(** It needs 7, and will go without it for two days. *)
Definition waiting : task := daily 8 [("depends_on", JInt 7); ("stale_bypass_hours", JInt 48)]%string.

End Samples.
