(* ===== verification/WindowFacts.v ===== *)
(** * Windows: the slot a completion names

    [LawfulZone] is what a local zone owes: at whole hours, going to local time and back
    agree with the order of instants, as they do for a zone of fixed offset and for one
    that steps by whole hours. Under it the occurrences listed around an instant are the
    window, so [_next_run_after] names the first instant at which neither the elapsed gate
    nor the hours refuse the task. *)
From Stdlib Require Import String SpecFloat.
From S2P Require Import Prelude PyText Stamps QueueRows QueueOps QueueJournal Regex Policy Spill Microcompact PoolGates Binary64 PyValues Windows DueRules DueFacts.

Local Open Scope Z_scope.

Class LawfulZone `{PyZone} : Prop :=
  zone_galois a x t l : a mod HOUR = 0 -> from_local a = Ok x -> to_local t = Ok l -> (x <= t <-> a <= l).

(** The hour of a local time. *)
Definition hour_at (l : Z) : Z := (l / HOUR) mod 24.

(** ** Hours around the clock *)

Lemma in_hours_mod h h' hs : h mod 24 = h' mod 24 -> in_hours h hs = in_hours h' hs.
Proof. unfold in_hours. by intros ->. Qed.

Lemma hour_span_spec fuel h hs n : 0 <= n ->
  let r := span fuel h hs n in
  n <= r /\ (forall k, n <= k < r -> in_hours (h + k) hs = true) /\ (r < n + Z.of_nat fuel -> in_hours (h + r) hs = false).
Proof.
  revert n. induction fuel as [|fuel IH]; intros n Hn; cbn [span]; [split; [lia|split; [lia|lia]]|].
  destruct (in_hours (h + n) hs) eqn:E; [|split; [lia|split; [lia|done]]].
  destruct (IH (n + 1) ltac:(lia)) as (H1 & H2 & H3). split; [lia|]. split; [|intros; apply H3; lia].
  intros k Hk. destruct (Z.eq_dec k n) as [->|]; [done|]. apply H2. lia.
Qed.

(** Walking back from an hour of the window one comes to its opening. *)
Lemma walk_back hs c m : in_hours c hs = true -> (exists j, 0 <= j <= Z.of_nat m /\ in_hours (c - j) hs = false) ->
  exists k, 0 <= k < Z.of_nat m /\ (forall j, 0 <= j <= k -> in_hours (c - j) hs = true) /\ in_hours (c - k - 1) hs = false.
Proof.
  revert c. induction m as [|m IH]; intros c Hc (j & Hj & Ej).
  { replace j with 0 in Ej by lia. rewrite Z.sub_0_r in Ej. congruence. }
  destruct (in_hours (c - 1) hs) eqn:E1.
  - destruct (IH (c - 1) E1) as (k & Hk & Hin & Hout).
    + assert (j <> 0) by (intros ->; rewrite Z.sub_0_r in Ej; congruence). exists (j - 1). split; [lia|]. by replace (c - 1 - (j - 1)) with (c - j) by lia.
    + exists (k + 1). split; [lia|]. split; [|by replace (c - (k + 1) - 1) with (c - 1 - k - 1) by lia].
      intros i Hi. destruct (Z.eq_dec i 0) as [->|]; [by rewrite Z.sub_0_r|]. replace (c - i) with (c - 1 - (i - 1)) by lia. apply Hin. lia.
  - exists 0. split; [lia|]. split; [|by rewrite Z.sub_0_r]. intros i Hi. replace i with 0 by lia. by rewrite Z.sub_0_r.
Qed.

(** A window: hours of the day, some and not all of them. *)
Definition proper (hs : list Z) : Prop := Forall (fun h => 0 <= h < 24) hs /\ hs <> [] /\ exists x, 0 <= x < 24 /\ x ∉ hs.

Lemma proper_hours hs h : proper hs -> h ∈ hs -> in_hours h hs = true.
Proof. intros [F _] Hh. rewrite Forall_forall in F. unfold in_hours. rewrite Z.mod_small by by apply F. by apply bool_decide_eq_true. Qed.

Lemma opening_of hs c : proper hs -> 0 <= c < 24 -> in_hours c hs = true ->
  exists h k, h ∈ openings hs /\ 0 <= k < span 24 h hs 1 /\ (h + k = c \/ h + k = c + 24).
Proof.
  intros Hp Hc Ein. destruct Hp as (F & Hne & x & Hx & Ex).
  destruct (walk_back hs c 24 Ein) as (k & Hk & Hin & Hout).
  { exists ((c - x) mod 24). pose proof (Z.mod_pos_bound (c - x) 24 ltac:(lia)). split; [lia|]. unfold in_hours.
    replace ((c - (c - x) mod 24) mod 24) with x; [by apply bool_decide_eq_false|].
    rewrite Zminus_mod_idemp_r. replace (c - (c - x)) with x by lia. by rewrite Z.mod_small. }
  set (h := (c - k) mod 24). assert (Hh : 0 <= h < 24) by (apply Z.mod_pos_bound; lia).
  assert (Hck : h = c - k \/ h = c - k + 24) by (unfold h; destruct (Z.le_gt_cases 0 (c - k)); [left; apply Z.mod_small; lia|right;
    rewrite <-(Z.mod_add _ 1) by lia; apply Z.mod_small; lia]).
  assert (Hs : forall i, in_hours (h + i) hs = in_hours (c - k + i) hs)
    by (intros i; apply in_hours_mod; destruct Hck as [-> | ->]; [done|]; replace (c - k + 24 + i) with (c - k + i + 1 * 24) by lia; by rewrite Z.mod_add).
  exists h, k. split.
  - apply elem_of_sel. split.
    + assert (in_hours h hs = true) as E by (rewrite <-(Z.add_0_r h), Hs, Z.add_0_r; apply Hin; lia).
      unfold in_hours in E. rewrite Z.mod_small in E by done. by apply bool_decide_eq_true in E.
    + replace (h - 1) with (h + -1) by lia. rewrite Hs. replace (c - k + -1) with (c - k - 1) by lia. by rewrite Hout.
  - split; [|lia]. destruct (hour_span_spec 24 h hs 1 ltac:(lia)) as (H1 & _ & H3). split; [lia|].
    destruct (Z.lt_ge_cases k (span 24 h hs 1)) as [|L]; [done|]. exfalso.
    assert (in_hours (h + span 24 h hs 1) hs = false) as E by (apply H3; lia).
    rewrite Hs, <-not_true_iff_false in E. apply E. replace (c - k + span 24 h hs 1) with (c - (k - span 24 h hs 1)) by lia. apply Hin. lia.
Qed.

(** ** Occurrences *)

Section Occurrences.
Context `{IsoStamps} `{PyZone} `{!LawfulZone}.

Lemma occurrences_all hs slots os : occurrences hs slots = Ok os ->
  (forall d h, (d, h) ∈ slots -> exists o, o ∈ os /\ occurrence hs d h = Ok o) /\
  (forall o, o ∈ os -> exists d h, (d, h) ∈ slots /\ occurrence hs d h = Ok o).
Proof.
  revert os. induction slots as [|[d h] slots IH]; intros os; cbn [occurrences].
  { intros [= <-]. split; [intros d h Hd|intros o Ho]; by apply elem_of_nil in Hd || apply elem_of_nil in Ho. }
  intros K. apply obind_ok in K as (o & Eo & K). apply obind_ok in K as (rest & Er & K). injection K as <-.
  destruct (IH _ Er) as [I1 I2]. split.
  - intros d' h' [[= -> ->]|Hd]%elem_of_cons; [exists o; split; [by left|done]|]. destruct (I1 _ _ Hd) as (o' & ? & ?). exists o'. split; [by right|done].
  - intros o' [->|Ho]%elem_of_cons; [exists d, h; split; [by left|done]|]. destruct (I2 _ Ho) as (d' & h' & ? & ?). exists d', h'. split; [by right|done].
Qed.

(** The local bounds of an occurrence decide what lies in it. *)
Lemma occurrence_local hs d h o t l : occurrence hs d h = Ok o -> to_local t = Ok l ->
  (o.1 <= t <-> d * DAY + h * HOUR <= l) /\ (t < o.2 <-> l < d * DAY + (h + span 24 h hs 1) * HOUR).
Proof.
  unfold occurrence. intros K El. apply obind_ok in K as (a & Ea & K). apply obind_ok in K as (x & Ex & K).
  apply obind_ok in K as (b & Eb & K). apply obind_ok in K as (y & Ey & K). injection K as <-. apply moved_ok in Ea, Eb. subst. cbn [fst snd].
  assert (M : forall i, (d * DAY + i * HOUR) mod HOUR = 0).
  { intros i. replace (d * DAY + i * HOUR) with ((d * 24 + i) * HOUR) by (unfold DAY; lia). by apply Z.mod_mul. }
  split; [apply (zone_galois _ _ _ _ (M h) Ex El)|].
  replace (d * DAY + h * HOUR + span 24 h hs 1 * HOUR) with (d * DAY + (h + span 24 h hs 1) * HOUR) in Ey by lia.
  pose proof (zone_galois _ _ _ _ (M _) Ey El). lia.
Qed.

(** An instant within an occurrence has an hour of the window. *)
Lemma occurrence_hours hs d h o t l : proper hs -> h ∈ openings hs -> occurrence hs d h = Ok o -> to_local t = Ok l ->
  o.1 <= t < o.2 -> hour_at l ∈ hs.
Proof.
  intros Hp [Hh _]%elem_of_sel Eo El [Ht1 Ht2]. destruct (occurrence_local hs d h o t l Eo El) as [L1 L2].
  apply L1 in Ht1. apply L2 in Ht2. destruct (hour_span_spec 24 h hs 1 ltac:(lia)) as (_ & Hin & _).
  set (k := l / HOUR - (d * 24 + h)).
  assert (Hk : 0 <= k < span 24 h hs 1).
  { unfold k. assert (d * 24 + h <= l / HOUR) by (apply Z.div_le_lower_bound; [done|]; unfold DAY in *; lia).
    assert (l / HOUR < d * 24 + h + span 24 h hs 1) by (apply Z.div_lt_upper_bound; [done|]; unfold DAY in *; lia). lia. }
  assert (in_hours (h + k) hs = true) as E by (destruct (Z.eq_dec k 0) as [->|]; [rewrite Z.add_0_r; by apply proper_hours|apply Hin; lia]).
  unfold hour_at. unfold in_hours in E. apply bool_decide_eq_true in E. replace (l / HOUR) with (h + k + d * 24) by (unfold k; lia).
  by rewrite Z.mod_add.
Qed.

(** And an instant with such an hour lies in an occurrence that opens on its day or on
    the day before. *)
Lemma hours_occurrence hs t l : proper hs -> to_local t = Ok l -> hour_at l ∈ hs ->
  exists d h, h ∈ openings hs /\ l / DAY - 1 <= d <= l / DAY /\ forall o, occurrence hs d h = Ok o -> o.1 <= t < o.2.
Proof.
  intros Hp El Hl. unfold hour_at in Hl. set (c := (l / HOUR) mod 24) in *. assert (Hc : 0 <= c < 24) by (apply Z.mod_pos_bound; lia).
  destruct (opening_of hs c Hp Hc (proper_hours hs c Hp Hl)) as (h & k & Hh & Hk & Hhk).
  assert (Hd : l / HOUR = l / DAY * 24 + c).
  { unfold c, DAY. rewrite (Z.mul_comm 24 HOUR), <-Z.div_div by done. pose proof (Z.div_mod (l / HOUR) 24 ltac:(done)). lia. }
  assert (Hb : l / HOUR * HOUR <= l < (l / HOUR + 1) * HOUR).
  { pose proof (Z.div_mod l HOUR ltac:(done)). pose proof (Z.mod_pos_bound l HOUR ltac:(done)). lia. }
  assert (Hhr : 0 <= h < 24) by (apply elem_of_sel in Hh as [Hh _]; destruct Hp as [F _]; rewrite Forall_forall in F; by apply F).
  exists (if h + k =? c then l / DAY else l / DAY - 1), h. split; [done|]. split; [case_match; lia|].
  intros o Eo. destruct (occurrence_local _ _ _ _ t l Eo El) as [L1 L2]. rewrite L1, L2. clear L1 L2 Eo.
  set (n := span 24 h hs 1) in *. set (y := l / DAY) in *.
  assert ((if h + k =? c then y else y - 1) * DAY + h * HOUR + k * HOUR = l / HOUR * HOUR) as E
    by (rewrite Hd; unfold DAY; case_match; bool_simp; nia).
  unfold HOUR, SECOND in *. lia.
Qed.

(** *** The list around an instant *)

Definition slot_at (base : Z) (hs : list Z) (d h : Z) : Prop := base - 3 <= d < base + 3 /\ h ∈ openings hs.

Lemma elem_of_slots hs base d h : (d, h) ∈ slots_around hs base <-> slot_at base hs d h.
Proof.
  unfold slots_around, slot_at. rewrite list_elem_of_bind. split.
  - intros (d' & K & Hd%elem_of_seqZ). apply list_elem_of_bind in K as (h' & [= -> ->]%list_elem_of_singleton & Hh). split; [lia|done].
  - intros [Hd Hh]. exists d. split; [|apply elem_of_seqZ; lia]. apply list_elem_of_bind. exists h. split; [by apply list_elem_of_singleton|done].
Qed.

Lemma window_occurrences_spec hs at_ os : _window_occurrences hs at_ = Ok os ->
  exists l, to_local at_ = Ok l /\ StronglySorted (fun a b => occ_le a b = true) os /\
    (forall d h, slot_at (l / DAY) hs d h -> exists o, o ∈ os /\ occurrence hs d h = Ok o) /\
    (forall o, o ∈ os -> exists d h, slot_at (l / DAY) hs d h /\ occurrence hs d h = Ok o).
Proof.
  unfold _window_occurrences. intros K. apply obind_ok in K as (l & El & K). apply obind_ok in K as (os' & Eo & K). injection K as <-.
  exists l. split; [done|]. destruct (occurrences_all _ _ _ Eo) as [O1 O2]. split; [|split].
  - apply sort_by_sorted.
    + intros a b. unfold occ_le. destruct (Z.ltb_spec a.1 b.1); [by left|]. destruct (Z.ltb_spec b.1 a.1); [by right|]. cbn [orb].
      replace (a.1 =? b.1) with true by lia. replace (b.1 =? a.1) with true by lia. cbn [andb]. lia.
    + intros a b c. unfold occ_le. rewrite !orb_true_iff, !andb_true_iff, !Z.ltb_lt, !Z.eqb_eq, !Z.leb_le. lia.
  - intros d h Hs%elem_of_slots. destruct (O1 d h Hs) as (o & ? & ?). exists o. by rewrite elem_of_sort_by.
  - intros o Ho%elem_of_sort_by. destruct (O2 o Ho) as (d & h & ? & ?). exists d, h. by rewrite <-elem_of_slots.
Qed.

Lemma first_in_spec at_ os : StronglySorted (fun a b => occ_le a b = true) os ->
  let r := first_in at_ os in
  r = at_ /\ (exists o, o ∈ os /\ o.1 <= at_ < o.2) \/
  (exists o, o ∈ os /\ r = o.1 /\ at_ < o.1 /\ forall o', o' ∈ os -> ~ (o'.1 <= at_ < o'.2) /\ (at_ < o'.1 -> r <= o'.1)) \/
  (r = at_ /\ forall o, o ∈ os -> ~ (at_ < o.1)).
Proof.
  induction 1 as [|o os Hs IH Hall]; cbn [first_in]; [right; right; split; [done|]; intros o Ho; by apply elem_of_nil in Ho|].
  assert (Hle : forall o', o' ∈ os -> o.1 <= o'.1).
  { intros o' Ho. rewrite Forall_forall in Hall. specialize (Hall o' Ho). unfold occ_le in Hall. bool_simp. destruct Hall; bool_simp; lia. }
  destruct ((o.1 <=? at_) && (at_ <? o.2)) eqn:Ein.
  { bool_simp. left. split; [done|]. exists o. split; [by left|done]. }
  assert (Hout : ~ (o.1 <= at_ < o.2)) by (bool_simp; lia).
  destruct (Z.ltb_spec at_ o.1) as [L|L].
  - right. left. exists o. split; [by left|]. split; [done|]. split; [done|].
    intros o' [->|Ho']%elem_of_cons; [split; [done|lia]|apply Hle in Ho'; split; lia].
  - destruct IH as [(E & o' & Ho' & K)|[(o' & Ho' & E & L' & K)|[E K]]].
    + left. split; [done|]. exists o'. split; [by right|done].
    + right. left. exists o'. split; [by right|]. split; [done|]. split; [done|].
      intros o'' [->|Ho'']%elem_of_cons; [split; [done|lia]|by apply K].
    + right. right. split; [done|]. intros o' [->|Ho']%elem_of_cons; [lia|by apply K].
Qed.

Lemma proper_opens hs : proper hs -> exists h, h ∈ openings hs.
Proof.
  intros Hp. destruct Hp as (F & Hne & x & Hx & Ex). destruct hs as [|c hs]; [done|]. set (w := c :: hs) in *.
  assert (Hc : c ∈ w) by (by left). rewrite Forall_forall in F.
  destruct (opening_of w c) as (h & _ & Hh & _); [split; [by rewrite Forall_forall|split; [done|by exists x]]|by apply F|..].
  - unfold in_hours. rewrite Z.mod_small by by apply F. by apply bool_decide_eq_true.
  - by exists h.
Qed.

Lemma opening_range hs h : proper hs -> h ∈ openings hs -> 0 <= h < 24.
Proof. intros (F & _) [Hh _]%elem_of_sel. rewrite Forall_forall in F. by apply F. Qed.

(** The first instant of the window from [at_] on: nothing before it has an hour of the
    window, and it has one, unless the clocks skip the occurrence it opens. *)
Lemma first_in_window hs at_ r : proper hs -> _first_in_window_at_or_after hs at_ = Ok r ->
  at_ <= r /\
  (forall s l, at_ <= s < r -> to_local s = Ok l -> hour_at l ∉ hs) /\
  (forall l, to_local r = Ok l -> hour_at l ∈ hs \/ exists d h o, occurrence hs d h = Ok o /\ o.1 = r /\ o.2 <= r).
Proof.
  intros Hp. unfold _first_in_window_at_or_after. intros K. apply obind_ok in K as (os & Eo & K). injection K as <-.
  apply window_occurrences_spec in Eo as (l & El & Hs & O1 & O2). set (base := l / DAY) in *.
  pose proof (Z.div_mod l DAY ltac:(done)) as Hl. pose proof (Z.mod_pos_bound l DAY ltac:(done)) as Hm.
  destruct (proper_opens hs Hp) as [h0 Hh0]. pose proof (opening_range hs h0 Hp Hh0) as R0.
  destruct (O1 (base - 1) h0) as (o1 & _ & E1); [split; [lia|done]|]. destruct (O1 (base + 1) h0) as (o2 & Ho2 & E2); [split; [lia|done]|].
  destruct (occurrence_local _ _ _ _ _ _ E1 El) as [A1 _]. destruct (occurrence_local _ _ _ _ _ _ E2 El) as [A2 _].
  assert (B1 : o1.1 <= at_) by (apply A1; fold base in Hl; unfold DAY, HOUR, SECOND in *; lia).
  assert (B2 : at_ < o2.1) by (destruct (Z.lt_ge_cases at_ o2.1) as [|L]; [done|apply A2 in L; fold base in Hl; unfold DAY, HOUR, SECOND in *; lia]).
  destruct (first_in_spec at_ os Hs) as [(E & o & Ho & Hin)|[(o & Ho & E & L & Hall)|[E Hnone]]]; [..|by apply Hnone in Ho2].
  - rewrite E. split; [done|]. split; [lia|]. intros l' El'. rewrite El in El'. injection El' as <-. left.
    destruct (O2 o Ho) as (d & h & [_ Hh] & Ed). by eapply occurrence_hours.
  - set (r := first_in at_ os) in *. split; [lia|]. split.
    + intros s ls Hsr Els Hhour. destruct (hours_occurrence hs s ls Hp Els Hhour) as (d & h & Hh & Hd & Hocc).
      assert (U : r <= o2.1) by (by apply Hall).
      destruct (occurrence_local _ _ _ _ _ _ E1 Els) as [C1 _]. destruct (occurrence_local _ _ _ _ _ _ E2 Els) as [C2 _].
      assert (D1 : base - 1 <= ls / DAY) by (apply Z.div_le_lower_bound; [done|]; unfold DAY, HOUR, SECOND in *; lia).
      assert (D2 : ls / DAY < base + 2) by (apply Z.div_lt_upper_bound; [done|]; unfold DAY, HOUR, SECOND in *; lia).
      destruct (O1 d h) as (o' & Ho' & Eo'); [split; [lia|done]|]. specialize (Hocc o' Eo'). destruct (Hall o' Ho') as [N1 N2]. lia.
    + intros lr Elr. destruct (O2 o Ho) as (d & h & [_ Hh] & Ed). destruct (Z.lt_ge_cases o.1 o.2) as [Lt|Ge].
      * left. eapply occurrence_hours; [done|exact Hh|exact Ed|exact Elr|lia].
      * right. exists d, h, o. repeat split; [done|lia|lia].
Qed.
End Occurrences.

Lemma hours_of_proper hs : 0 < Z.of_nat (length (hours_of hs)) < 24 -> proper (hours_of hs).
Proof.
  intros Hl. split; [|split].
  - apply Forall_forall. intros h [Hh _]%elem_of_sel. apply elem_of_seqZ in Hh. lia.
  - intros E. rewrite E in Hl. simpl in Hl. lia.
  - destruct (decide (Forall (fun h => h ∈ hours_of hs) (seqZ 0 24))) as [F|N].
    + exfalso. assert (seqZ 0 24 ⊆+ hours_of hs) as S.
      { apply NoDup_submseteq; [apply NoDup_seqZ|]. intros x Hx. rewrite Forall_forall in F. by apply F. }
      apply submseteq_length in S. change (length (seqZ 0 24)) with 24%nat in S. lia.
    + apply not_Forall_Exists in N; [|intros x; apply _]. apply Exists_exists in N as (x & Hx%elem_of_seqZ & Ex). exists x. split; [lia|done].
Qed.

Section Slot.
Context `{IsoStamps} `{PyNumbers} `{PyJson} `{PyUnicode} `{FloatText} `{PyZone} `{!LawfulZone}.

Lemma window_hours_proper t hs : _window_hours t = Ok (Some hs) -> proper hs.
Proof.
  unfold _window_hours. intros K. apply obind_ok in K as ([zs|] & _ & K); [|done]. cbv zeta in K. destruct (_ && _) eqn:E; [|done].
  injection K as <-. apply hours_of_proper. bool_simp. lia.
Qed.

Lemma anchored_hours t hs : _window_anchored t = Ok (Some hs) -> _window_hours t = Ok (Some hs).
Proof. unfold _window_anchored. intros K. apply obind_ok in K as ([i|] & _ & K); [|done]. by destruct (blt i _). Qed.

(** The task's hours are hours of a day. *)
Definition clock_hours (t : task) : Prop := forall zs, _effective_preferred_hours t = Ok (Some zs) -> Forall (fun h => 0 <= h < 24) zs.

Lemma hours_of_clock zs c : Forall (fun h => 0 <= h < 24) zs -> 0 <= c < 24 -> c ∈ hours_of zs <-> c ∈ zs.
Proof.
  intros F Hc. rewrite Forall_forall in F. unfold hours_of. rewrite elem_of_sel, elem_of_seqZ, bool_decide_eq_true. split.
  - intros [_ (h & -> & Hh)%list_elem_of_fmap]. by rewrite Z.mod_small by by apply F.
  - intros Hin. split; [lia|]. apply list_elem_of_fmap. exists c. split; [by rewrite Z.mod_small|done].
Qed.

(** The hours gate, read at a local time. *)
Lemma preferred_at t hs l : clock_hours t -> _window_hours t = Ok (Some hs) ->
  _is_preferred_hour (hour_at l) t = Ok (bool_decide (hour_at l ∈ hs)).
Proof.
  unfold _window_hours, _is_preferred_hour. intros C K. apply obind_ok in K as ([zs|] & E & K); [|done]. cbv zeta in K. destruct (_ && _); [|done].
  injection K as <-. rewrite E. cbn [obind]. f_equal. apply bool_decide_ext. symmetry. apply hours_of_clock; [by apply C|].
  unfold hour_at. by apply Z.mod_pos_bound.
Qed.

(** C28: the slot a completion names is the one dispatch will use. For a task whose cadence
    follows its window, [next_run] is the first instant that is both past the end of the
    hold its completion makes and inside its hours: up to it either the elapsed gate or
    the hours gate refuses the task, and at it both let it go - unless the clocks skip
    the very occurrence it opens. *)
Theorem next_run_is_first_slot t hs completed slot : clock_hours t ->
  _window_anchored t = Ok (Some hs) -> _next_run_after t completed = Ok (Some slot) ->
  exists due, _elapsed_due_at t completed = Ok (Some due) /\ due <= slot /\
    (forall s l, s < slot -> to_local s = Ok l -> s < due \/ _is_preferred_hour (hour_at l) t = Ok false) /\
    (forall l, to_local slot = Ok l -> _is_preferred_hour (hour_at l) t = Ok true \/
       exists d h o, occurrence hs d h = Ok o /\ o.1 = slot /\ o.2 <= slot).
Proof.
  intros C Ha. pose proof (anchored_hours t hs Ha) as Hw. pose proof (window_hours_proper t hs Hw) as Hp. unfold _next_run_after.
  intros K. apply obind_ok in K as ([i|] & Ei & K); [|done]. rewrite Ha in K. cbn [obind] in K.
  apply obind_ok in K as ([due|] & Ed & K); [|done]. apply obind_ok in K as (r & Er & K). injection K as ->.
  destruct (first_in_window hs due slot Hp Er) as (F1 & F2 & F3). exists due. split; [done|]. split; [done|]. split.
  - intros s l Hs El. destruct (Z.lt_ge_cases s due) as [|L]; [by left|right]. rewrite (preferred_at t hs l C Hw). f_equal.
    apply bool_decide_eq_false. by apply (F2 s).
  - intros l El. destruct (F3 l El) as [Hin|?]; [left|by right]. rewrite (preferred_at t hs l C Hw). f_equal. by apply bool_decide_eq_true.
Qed.
End Slot.

(** ** A zone of fixed offset *)

Lemma fixed_zone_lawful offset : @LawfulZone (fixed_zone offset).
Proof. intros a x t l _ [= <-] [= <-]. lia. Qed.

(** ** Witness: a daily task that runs at five in the morning *)

Section Samples.
#[local] Existing Instances plain_numbers board_shown ascii_only board_floats.
#[local] Instance five_zone : PyZone := fixed_zone (2 * HOUR).

Definition at_five : task := daily 7 [("preferred_hours", JList [JInt 5])]%string.
Definition completed_late : Z := 20000 * DAY + 3 * HOUR + 2000 * SECOND.

Lemma next_run_is_first_slot_witness :
  _next_run_after at_five completed_late = Ok (Some (20001 * DAY + 3 * HOUR)) /\
  exists due, _elapsed_due_at at_five completed_late = Ok (Some due) /\ due <= 20001 * DAY + 3 * HOUR.
Proof.
  split; [vm_compute; reflexivity|].
  assert (C : clock_hours at_five).
  { intros zs E. vm_compute in E. injection E as <-. repeat constructor; done. }
  destruct (@next_run_is_first_slot _ _ _ _ _ five_zone (fixed_zone_lawful _) at_five [5] completed_late (20001 * DAY + 3 * HOUR) C)
    as (due & Ed & L & _); [vm_compute; reflexivity..|].
  exists due. split; [exact Ed|exact L].
Defined.
End Samples.
