(* ===== verification/TaskFiles.v ===== *)
(** * Task files on disk

    [app/autonomy.py] and the parser it shares ([agent_mcp/_shared.py]): a task is a file
    of front matter between fences and a body. Reading one recovers what it can of front
    matter that is not valid YAML; writing fields re-reads the file, merges and dumps.
    YAML itself is a parameter; its values are JSON values, a stamp its text. Under its
    body a file keeps its activity log: one note is one line, folded onto it and put last
    under the heading, and a failure that repeats the entry already last re-stamps that
    entry and counts. Times of writing are their text. *)
From Stdlib Require Import String.
From S2P Require Import Prelude PyText Stamps QueueRows Regex Policy Spill Microcompact PoolGates PoolRun PyValues Windows DueRules.

Local Open Scope Z_scope.

(** [yaml.safe_load] ([None]: it raises), [yaml.dump] with [allow_unicode] and without. *)
Class PyYaml := {
  yaml_load : text -> option json;
  yaml_dump : task -> text;
  yaml_ascii : task -> text
}.

(** ** Small text *)

Definition is_null (v : json) : bool := match v with JNull => true | _ => false end.
Definition starts_space (s : text) : bool := match s with c :: _ => isspace c | [] => false end.
Definition blank (s : text) : bool := bool_decide (strip s = []).

(** [s.strip(cs)]. *)
Fixpoint lstrip_of (p : N -> bool) (s : text) : text :=
  match s with
  | [] => []
  | c :: s' => if p c then lstrip_of p s' else s
  end.
Definition strip_of (p : N -> bool) (s : text) : text := rev (lstrip_of p (rev (lstrip_of p s))).
Definition quote_mark (c : N) : bool := (c =? 39)%N || (c =? 34)%N.
Definition bracket (c : N) : bool := (c =? 91)%N || (c =? 93)%N.
Definition tab_or_space (c : N) : bool := (c =? 32)%N || (c =? 9)%N.

Fixpoint break_at {A} (p : A -> bool) (l : list A) : list A * list A :=
  match l with
  | [] => ([], [])
  | x :: l' => if p x then ([], l) else let '(a, b) := break_at p l' in (x :: a, b)
  end.

(** [text.split("---\n", 2)], where it gives three parts: the last two. *)
Definition three_parts (s : text) : option (text * text) :=
  i ← find FRONT_MATTER s;
  let rest := drop (i + 4) s in
  j ← find FRONT_MATTER rest;
  Some (take j rest, drop (j + 4) rest).

(** ** Front matter *)

Section Front.
Context `{PyNumbers} `{PyJson} `{PyUnicode} `{PyYaml}.

(** A line [tags: [...]]: its indent and what the brackets hold. *)
Definition tags_line (l : text) : option (text * text) :=
  let rest := lstrip l in
  if startswith (u "tags:") rest then
    match lstrip (drop 5 rest) with
    | 91%N :: inside =>
        let inside := rstrip inside in
        if endswith (u "]") inside then Some (take (length l - length rest) l, take (length inside - 1) inside) else None
    | _ => None
    end
  else None.

Definition orphan (l : text) : bool :=
  match lstrip l with 45%N :: rest => starts_space rest && negb (blank rest) | _ => false end.

Definition orphan_item (l : text) : text :=
  strip_of quote_mark (strip (strip_of bracket (strip_of quote_mark (strip (drop 1 (strip l)))))).

Definition add_item (items : list text) (l : text) : list text :=
  let it := orphan_item l in
  if nonnil it && negb (bool_decide (it ∈ items)) then items ++ [it] else items.

Fixpoint fold_lines (fuel : nat) (ls : list text) : list text :=
  match fuel, ls with
  | S fuel, l :: rest =>
      match tags_line l with
      | Some (indent, inside) =>
          let items := map (fun x => strip_of quote_mark (strip x)) (sel (fun x => negb (blank x)) (split_char 44 [] inside)) in
          match break_at (fun l => negb (orphan l)) rest with
          | ([], _) => l :: fold_lines fuel rest
          | (orphans, after) => (indent ++ u "tags: [" ++ join (u ", ") (fold_left add_item orphans items) ++ u "]") :: fold_lines fuel after
          end
      | None => l :: fold_lines fuel rest
      end
  | _, _ => ls
  end.

Definition _fold_orphaned_tag_items (fm_text : text) : text :=
  let ls := split_char 10 [] fm_text in join nl (fold_lines (length ls) ls).

(** The lines after the first that is [field:] and nothing else. *)
Fixpoint after_bare (field : text) (ls : list text) : option (list text) :=
  match ls with
  | [] => None
  | l :: rest =>
      if startswith (field ++ u ":") l && forallb tab_or_space (drop (length field + 1) l) then Some rest else after_bare field rest
  end.

Definition top_level (l : text) : bool :=
  negb (blank l) && negb (starts_space l) && negb (startswith (u "-") (lstrip l)).

Definition _recover_block_field (fm_text field : text) : option json :=
  following ← after_bare field (split_char 10 [] fm_text);
  let first := default [] (head (sel nonnil (map strip following))) in
  if negb (startswith (u "-") first) || negb (contains (u ":") first) then None
  else
    match yaml_load (field ++ u ":" ++ nl ++ join nl (break_at top_level following).1) with
    | Some (JObj fs) => match obj_get (encode field) fs with Some (JList ((_ :: _) as items)) => Some (JList items) | _ => None end
    | _ => None
    end.

(** [re.search(r"^field:\s*(.+)$", text, re.MULTILINE)] and its group, stripped: the gap
    it skips after the colon may hold line ends. *)
Definition first_line (s : text) : text := (break_at (fun c => (c =? 10)%N) s).1.
Fixpoint loose_field (field : text) (ls : list text) : option text :=
  match ls with
  | [] => None
  | l :: rest =>
      let here :=
        if startswith (field ++ u ":") l then
          let tail := join nl (drop (length field + 1) l :: rest) in
          match lstrip tail with
          | [] => if forallb (fun c => (c =? 10)%N) tail then None else Some []
          | w => Some (strip (first_line w))
          end
        else None in
      match here with Some raw => Some raw | None => loose_field field rest end
  end.

Definition recover_field (fm_text : text) (fm : task) (field : string) : task :=
  match _recover_block_field fm_text (utf8 field) with
  | Some v => obj_put field v fm
  | None =>
      match loose_field (utf8 field) (split_char 10 [] fm_text) with
      | Some raw => obj_put field (default (JStr (encode raw)) (yaml_load raw)) fm
      | None => fm
      end
  end.

Definition plain_yaml (s : text) : option task := match yaml_load s with Some (JObj fm) => Some fm | _ => None end.

Definition parse_frontmatter_text (fm_text : text) (fallback_fields : list string) : task :=
  match plain_yaml fm_text with
  | Some fm => fm
  | None =>
      let repaired := _fold_orphaned_tag_items fm_text in
      match (if bool_decide (repaired = fm_text) then None else plain_yaml repaired) with
      | Some fm => fm
      | None => fold_left (recover_field fm_text) fallback_fields [("_yaml_broken", JBool true)]%string
      end
  end.

Definition AUTONOMY_TASK_FIELDS : list string :=
  ["id"; "name"; "description"; "status"; "priority"; "frequency";
   "scheduled_at"; "next_run"; "last_run"; "last_attempt"; "agent_id";
   "skill_name"; "timeout_seconds"; "max_turns"; "preemptible"; "auto_advance";
   "depends_on"; "max_retries"; "failure_count"; "runs_per_day";
   "preferred_hours"; "model"; "stale_bypass_hours";
   "expected_error_patterns"; "inner_voice";
   "skill_path"; "pipeline"; "pipeline_mode"; "notify_on_complete";
   "cron_id"; "run_count"; "tags"; "type"; "created"; "updated"; "title";
   "infra_failure_count"; "infra_rest_until"; "grants"; "requires_slot"; "parked";
   "artifact_complete_marker"]%string.

(** ** Files *)

Record file := File { f_name : text; f_path : text; f_text : text }.

(** The number a name [NN-...] begins with. *)
Definition name_number (name : text) : option text :=
  match break_at (fun c => negb (cdigit c)) name with
  | ((_ :: _) as ds, 45%N :: _) => Some ds
  | _ => None
  end.
Definition is_task_name (name : text) : bool := bool_decide (is_Some (name_number name)).

Definition _id_from_filename (t : task) (name : text) : outcome task :=
  let declared := match obj_get "id" t with Some v => negb (is_null v) && negb (blank (str_of v)) | None => false end in
  if declared then Ok t
  else
    match name_number name with
    | Some ds => n <-? int_of (JStr (encode ds)) ;; Ok (obj_put "id" (JInt n) t)
    | None => Ok t
    end.

(** [None]: fewer than three parts. *)
Definition _parse_task_file (f : file) : option task :=
  parts ← three_parts f.(f_text);
  let fm := parse_frontmatter_text parts.1 AUTONOMY_TASK_FIELDS in
  let fm := obj_put "_path" (JStr (encode f.(f_path))) (obj_put "body" (JStr (encode parts.2)) fm) in
  match _id_from_filename fm f.(f_name) with Ok t => Some t | Raise _ => None end.

(** The files of the directory, in the order [glob] gives them. *)
Definition directory : Type := list file.

Definition holds_task (id : text) (f : file) : bool := is_task_name f.(f_name) && startswith (id ++ u "-") f.(f_name).
Definition _find_task_file (id : json) (dir : directory) : option file := head (sel (holds_task (str_of id)) dir).

Definition name_le (a b : file) : bool := sle (encode a.(f_path)) (encode b.(f_path)).
Definition _all_board_tasks (dir : directory) : list task :=
  omap _parse_task_file (sel (fun f => is_task_name f.(f_name)) (sort_by name_le dir)).

(** ** Writing fields *)

Definition hidden (k : string) : bool := startswith (u "_") (utf8 k).
Definition not_null (p : string * json) : bool := negb (is_null p.2).
Definition shown_fields (fm : task) : task := sel (fun p => negb (hidden p.1)) fm.

(** [fm.update(fields)], and the keys [None] clears; [None] is [null]. *)
Definition merged (fields fm : task) : task := sel not_null (obj_merge (shown_fields fm) fields).

Definition fenced (fm : task) (body : text) : text := FRONT_MATTER ++ yaml_dump fm ++ FRONT_MATTER ++ body.

(** The text of a file with some of its fields written; [None] leaves it. *)
Definition update_text (fields : task) (content : text) : option text :=
  parts ← three_parts content;
  Some (fenced (merged fields (parse_frontmatter_text parts.1 [])) parts.2).

(** Rewrite the text of the first file that holds a task. *)
Fixpoint rewrite_first (p : file -> bool) (g : text -> text) (dir : directory) : directory :=
  match dir with
  | [] => []
  | f :: dir => if p f then File f.(f_name) f.(f_path) (g f.(f_text)) :: dir else f :: rewrite_first p g dir
  end.

Definition _update_task_field (id : json) (fields : task) (dir : directory) : directory :=
  rewrite_first (holds_task (str_of id)) (fun content => default content (update_text fields content)) dir.
End Front.

(** ** The activity log *)

Definition ACTIVITY_LOG_HEADING : text := u "## Activity Log".
Definition ACTIVITY_NOTE_FOLD : text := u " | ".
Definition _REPEAT_COLLAPSE_MARK : text := u "FAILED".

(** [text.replace("\r\n", "\n").replace("\r", "\n")]. *)
Fixpoint unix (s : text) : text :=
  match s with
  | [] => []
  | 13%N :: s => match s with 10%N :: s' => 10%N :: unix s' | _ => 10%N :: unix s end
  | c :: s => c :: unix s
  end.

Definition fold_activity_note (note : text) : text :=
  join ACTIVITY_NOTE_FOLD (sel nonnil (map strip (split_char 10 [] (unix note)))).

(** [re.sub(r"\s+", " ", text)]. *)
Fixpoint squeeze (gap : bool) (s : text) : text :=
  match s with
  | [] => []
  | c :: s => if isspace c then (if gap then squeeze true s else 32%N :: squeeze true s) else c :: squeeze false s
  end.

Section Log.
Context `{PyNumbers} `{PyUnicode}.

(** [ACTIVITY_REPEAT_RE] on a stripped line: what is before the mark, and its digits. *)
Definition repeat_mark (line : text) : option (text * text) :=
  match break_at (fun c => negb (cdigit c)) (rev line) with
  | ((_ :: _) as ds, 215%N :: before) => Some (rstrip (rev before), rev ds)
  | _ => None
  end.

Definition digit_re : re := Chr cdigit.
Definition dash_re : re := Chr (fun c => (c =? 45)%N).
Definition colon_re : re := Chr (fun c => (c =? 58)%N).
Definition either (a b : N) : re := Chr (fun c => (c =? a)%N || (c =? b)%N).

(** [\d{8}_\d{6}]. *)
Definition _RUN_STAMP_RE : re := Seq (times 8 digit_re) (Seq (Chr (fun c => (c =? 95)%N)) (times 6 digit_re)).

(** [\d{4}-\d{2}-\d{2}(?:[T ]\d{2}:\d{2}(?::\d{2})?(?:\.\d+)?(?:Z|[+-]\d{2}:?\d{2})?)?]. *)
Definition zone_re : re := Alt (Chr (fun c => (c =? 90)%N)) (Seq (either 43 45) (Seq (times 2 digit_re) (Seq (opt colon_re) (times 2 digit_re)))).
Definition clock_re : re :=
  Seq (either 84 32) (Seq (times 2 digit_re) (Seq colon_re (Seq (times 2 digit_re)
    (Seq (opt (Seq colon_re (times 2 digit_re))) (Seq (opt (Seq (Chr (fun c => (c =? 46)%N)) (plus digit_re))) (opt zone_re)))))).
Definition _ENTRY_STAMP_RE : re :=
  Seq (times 4 digit_re) (Seq dash_re (Seq (times 2 digit_re) (Seq dash_re (Seq (times 2 digit_re) (opt clock_re))))).

Definition _activity_entry_key (line : text) : text :=
  let text0 := match repeat_mark (strip line) with Some (before, _) => before | None => strip line end in
  let text1 := if startswith (u "- ") text0 then drop 2 text0 else text0 in
  strip (squeeze false (sub _ENTRY_STAMP_RE (u "<ts>") (sub _RUN_STAMP_RE (u "<stamp>") text1))).

Definition _activity_repeat_count (line : text) : outcome Z :=
  match repeat_mark (strip line) with Some (_, ds) => int_of (JStr (encode ds)) | None => Ok 1 end.

Definition is_entry (line : text) : bool := startswith (u "- ") line && negb (startswith (u "- …") line).
Definition is_heading (line : text) : bool := startswith (u "#") (lstrip line).

(** The index of the last entry of the region that begins at line [i]; [None] for -1. *)
Fixpoint _last_activity_entry (i : nat) (last : option nat) (lines : list text) : option nat :=
  match lines with
  | [] => last
  | l :: lines => if is_heading l then last else _last_activity_entry (S i) (if is_entry l then Some i else last) lines
  end.

(** The line the heading is on. *)
Fixpoint heading_at (i : nat) (lines : list text) : option nat :=
  match lines with
  | [] => None
  | l :: lines => if bool_decide (lower (strip l) = lower ACTIVITY_LOG_HEADING) then Some i else heading_at (S i) lines
  end.

Definition append_activity_line (body note now_str : text) : outcome text :=
  let folded := fold_activity_note note in
  let new_line := u "- " ++ now_str ++ u ": " ++ folded in
  let lines := split_char 10 [] body in
  match heading_at 0 lines with
  | None => Ok (rstrip body ++ nl ++ nl ++ ACTIVITY_LOG_HEADING ++ nl ++ nl ++ new_line ++ nl)
  | Some start =>
      let repeats := i ← _last_activity_entry (S start) None (drop (S start) lines); l ← lines !! i;
        if contains _REPEAT_COLLAPSE_MARK folded && bool_decide (_activity_entry_key l = _activity_entry_key new_line) then Some (i, l) else None in
      match repeats with
      | Some (i, l) => n <-? _activity_repeat_count l ;; Ok (join nl (<[i := new_line ++ u " ×" ++ show (n + 1)]> lines))
      | None => Ok (rstrip body ++ nl ++ new_line ++ nl)
      end
  end.
End Log.

Section Append.
Context `{PyNumbers} `{PyJson} `{PyUnicode} `{PyYaml}.

(** The first file that holds the task gets one more note. *)
Fixpoint append_first (p : file -> bool) (note now_str : text) (dir : directory) : outcome directory :=
  match dir with
  | [] => Ok []
  | f :: dir =>
      if p f then new <-? append_activity_line f.(f_text) note now_str ;; Ok (File f.(f_name) f.(f_path) new :: dir)
      else rest <-? append_first p note now_str dir ;; Ok (f :: rest)
  end.
Definition _append_activity_log (id : json) (note now_str : text) (dir : directory) : outcome directory :=
  append_first (holds_task (str_of id)) note now_str dir.
End Append.
