(* ===== verification/TaskModels.v ===== *)
(** * The model a task runs on

    [app/autonomy.py], [app/config.py] and [workers/sources/scheduled_task.py]: the model
    a task file names, whether the configuration knows it, and the endpoint whose health
    decides whether the task is dispatched. *)
From Stdlib Require Import String.
From S2P Require Import Prelude PyText Stamps QueueRows Regex Policy Spill Microcompact PoolGates PoolRun PyValues Windows DueRules TaskFiles.

Local Open Scope Z_scope.

(** The configuration the process holds, and what [config.yaml] reads as now ([None]:
    unreadable). *)
Record model_config := ModelConfig { c_config : list (string * json); c_file : option json }.

Section Models.
Context `{PyNumbers} `{PyJson} `{PyUnicode}.

(** [x.get(k)] of a value: only a dict has it. *)
Definition member (k : string) (v : json) : outcome (option json) :=
  match v with JObj fs => Ok (obj_get k fs) | _ => Raise AttributeError end.

(** [v or {}]. *)
Definition or_empty_dict (v : option json) : json := or_else v (JObj []).
Definition fields_in (v : json) : outcome (list (string * json)) := match v with JObj fs => Ok fs | _ => Raise AttributeError end.

Definition MODEL_CONFIGS (c : model_config) : json := default (JObj []) (obj_get "models" c.(c_config)).

Definition resolve_model_alias (c : model_config) (name : text) : text :=
  if bool_decide (name = u "secondary") && negb (given (obj_get "secondary_enabled" c.(c_config))) then u "primary" else name.

(** ** The names a task may use *)

Definition add_name (names : list text) (v : option json) : list text :=
  match v with
  | Some v =>
      if negb (json_true v) || match v with JStr s => bool_decide (utf8 s ∈ names) | _ => false end then names else names ++ [str_of v]
  | None => names
  end.

Fixpoint names_of (models : list (string * json)) (names : list text) : outcome (list text) :=
  match models with
  | [] => Ok names
  | (key, cfg) :: models =>
      alias <-? member "alias" (or_empty_dict (Some cfg)) ;;
      names_of models (add_name (add_name names (Some (JStr key))) alias)
  end.

Definition _configured_model_names (c : model_config) : outcome (list text) :=
  models <-? fields_in (or_empty_dict (Some (MODEL_CONFIGS c))) ;; names_of models [].

(** Why a dispatch must not reach the engine. *)
Definition _model_dispatch_refusal (c : model_config) (task_id : json) (task_model : text) : outcome (option text) :=
  match task_model with
  | [] => Ok None
  | _ =>
      known <-? _configured_model_names c ;;
      Ok (if negb (nonnil known) || bool_decide (task_model ∈ known) then None
          else Some (u "Task #" ++ str_of task_id ++ u ": model '" ++ task_model ++ u "' is not a configured alias; known: "
                     ++ join (u ", ") known ++ u " — refusing dispatch instead of sending an unvalidated model id to the engine"))
  end.

Definition names_nothing (model : text) : bool := bool_decide (model = []) || bool_decide (lower model ∈ [u "null"; u "none"]).

(** [cfg.get("model", {}).get("default", "")]. *)
Definition file_default (c : model_config) : outcome text :=
  match c.(c_file) with
  | Some cfg =>
      fs <-? fields_in (or_empty_dict (Some cfg)) ;;
      d <-? member "default" (default (JObj []) (obj_get "model" fs)) ;;
      Ok (or_str d [])
  | None => Raise RuntimeError
  end.

Definition _resolve_task_model (c : model_config) (t : task) : text :=
  let model := stripped "model" t in
  let model := if names_nothing model then match file_default c with Ok d => d | Raise _ => model end else model in
  resolve_model_alias c model.

(** ** Where it is served *)

Definition DEFAULT_MODEL_BASE_URL_FALLBACK : text := u "http://127.0.0.1:8096".
Definition DEFAULT_MODEL_BASE_URL_FALLBACK_KEY : text := u "app.config fallback literal (config has no models.<default> endpoint)".
Definition _VLLM_URL_FALLBACK_KEY : text := u "config unreadable — workers/sources/scheduled_task.py fallback literal".
Definition _VLLM_HEALTH_URL : text := u "http://127.0.0.1:8096/health".
Definition HEALTH : text := u "/health".

Fixpoint rstrip_slash (s : text) : text :=
  match s with
  | [] => []
  | c :: s => match rstrip_slash s with [] => if (c =? 47)%N then [] else [c] | r => c :: r end
  end.

(** [alias == name], an absent alias being [None]; a float names no model. *)
Definition same_value (a : option json) (b : json) : bool :=
  let number v := match v with JBool b => Some (Z.b2z b) | JInt z => Some z | _ => None end in
  match default JNull a, b with
  | JNull, JNull => true
  | JStr a, JStr b => String.eqb a b
  | a, b => match number a, number b with Some a, Some b => a =? b | _, _ => false end
  end.

Fixpoint aliased (name : json) (models : list (string * json)) : outcome json :=
  match models with
  | [] => Ok (JObj [])
  | (_, c) :: models => alias <-? member "alias" c ;; if same_value alias name then Ok c else aliased name models
  end.

(** A name that cannot be hashed raises, and only a text is a key. *)
Definition _get_model_cfg (c : model_config) (name : json) : outcome json :=
  models <-? fields_in (MODEL_CONFIGS c) ;;
  match name with
  | JList _ | JObj _ => Raise TypeError
  | _ =>
      match match name with JStr s => obj_get s models | _ => None end with
      | Some cfg => Ok cfg
      | None => aliased name models
      end
  end.

(** The URL, and the configuration key it came from. *)
Definition default_model_base_url_source (c : model_config) : outcome (text * text) :=
  d <-? member "default" (or_empty_dict (obj_get "model" c.(c_config))) ;;
  let default_name := default (JStr "primary") d in
  let key rest := u "models." ++ str_of default_name ++ rest in
  cfg <-? _get_model_cfg c default_name ;;
  base <-? member "base_url" cfg ;;
  if given base then Ok (or_str base [], key (u ".base_url"))
  else
    env <-? member "env" cfg ;;
    url <-? member "ANTHROPIC_BASE_URL" (or_empty_dict env) ;;
    Ok (if given url then (or_str url [], key (u ".env.ANTHROPIC_BASE_URL"))
        else (DEFAULT_MODEL_BASE_URL_FALLBACK, DEFAULT_MODEL_BASE_URL_FALLBACK_KEY)).

Definition _primary_health_target (c : model_config) : text * text :=
  match default_model_base_url_source c with
  | Ok ((_ :: _) as base, key) => (rstrip_slash base ++ HEALTH, key)
  | _ => (_VLLM_HEALTH_URL, _VLLM_URL_FALLBACK_KEY)
  end.

Definition _read_model_table (c : model_config) : list (string * json) :=
  match c.(c_file) with
  | Some cfg => match fields_in (or_empty_dict (Some cfg)) with
                | Ok fs => match or_empty_dict (obj_get "models" fs) with JObj ms => ms | _ => [] end
                | Raise _ => [] end
  | None => []
  end.

Definition url_text (v : option json) : option text :=
  match v with Some (JStr s) => match strip (utf8 s) with [] => None | url => Some (rstrip_slash url ++ HEALTH) end | _ => None end.

Definition _model_endpoint (c : model_config) (model : text) : option text :=
  match obj_get (encode model) (_read_model_table c) with
  | Some (JObj entry) =>
      let env := match obj_get "env" entry with Some (JObj env) => env | _ => [] end in
      match url_text (obj_get "ANTHROPIC_BASE_URL" env) with
      | Some url => Some url
      | None => url_text (obj_get "base_url" entry)
      end
  | _ => None
  end.

Definition _model_health_url (c : model_config) (pin : option json) : text :=
  let model := resolve_model_alias c (strip (or_str pin [])) in
  if bool_decide (model ∈ [[]; u "primary"; u "null"; u "none"]) then (_primary_health_target c).1
  else default (_primary_health_target c).1 (_model_endpoint c model).

(** Why the gate must not enqueue a task with this pin. *)
Definition _model_pin_refusal (c : model_config) (task_id : json) (pin : option json) : option text :=
  let name := strip (or_str pin []) in
  let name := if names_nothing name
              then match member "default" (or_empty_dict (obj_get "model" c.(c_config))) with
                   | Ok d => Some (strip (or_str d []))
                   | Raise _ => None end
              else Some name in
  match name with
  | None | Some [] => None
  | Some name => match _model_dispatch_refusal c task_id (resolve_model_alias c name) with Ok r => r | Raise _ => None end
  end.
End Models.
