(* ===== verification/TaskLife.v ===== *)
(** * The life of a scheduled task

    [app/autonomy.py]: what an attempt leaves in the task file and beside it. A failure is
    recorded, counted and backed off ([_record_failure]); a success clears the account
    ([_record_artifact_success] and the end of [run_task]); a sweep frees tasks stuck in
    progress and brings retired ones back ([recover_stuck_tasks]). Alerts and log lines
    are left out, and what the change ledger adds to a record is an argument. *)
From Stdlib Require Import String SpecFloat.
From S2P Require Import Prelude PyText Stamps QueueRows QueueOps QueueJournal Regex Policy Grants Spill Microcompact PoolGates PoolRun Binary64 PyValues Windows DueRules TaskFiles.

Local Open Scope Z_scope.

Definition DISPATCH_STOPPING_STATUSES : list text := [u "draft"; u "paused"].
Definition _FAILURE_REARM_PERIODS : float := fz 1.
Definition _DEFAULT_MAX_RETRIES : Z := 5.
Definition RUN_SUMMARY_CAP : Z := 300.
Definition _INFRA_EXC_NAMES : list text :=
  [u "ConnectError"; u "ConnectTimeout"; u "ReadError"; u "ReadTimeout"; u "PoolTimeout";
   u "RemoteProtocolError"; u "ConnectionRefusedError"; u "ConnectionResetError";
   u "ToolDiscoveryError"; u "StreamStalledError"].

Inductive failure_kind := TaskFailure | InfraFailure.
#[export] Instance failure_kind_eq_dec : EqDecision failure_kind. Proof. solve_decision. Defined.
Definition kind_text (k : failure_kind) : text := match k with TaskFailure => u "task" | InfraFailure => u "infra" end.

(** By the name of the exception's class. *)
Definition _failure_kind_of (exc : text) : failure_kind := if bool_decide (exc ∈ _INFRA_EXC_NAMES) then InfraFailure else TaskFailure.

Definition _failure_summary (summary : text) : text := upto summary RUN_SUMMARY_CAP.
(** [final_response[-300:]]. *)
Definition _outcome_summary (final_response : text) : text := drop (length final_response - Z.to_nat RUN_SUMMARY_CAP) final_response.

(** Text as a JSON value. *)
Definition jtext (s : text) : json := JStr (encode s).

(** ** What is on disk: the task files, and the run records of each task by file stem *)

Record vault := Vault { v_tasks : directory; v_runs : gmap (list N) (list (text * text)) }.
Definition with_tasks (dir : directory) (v : vault) : vault := Vault dir v.(v_runs).

Fixpoint put_record (stem content : text) (rs : list (text * text)) : list (text * text) :=
  match rs with
  | [] => [(stem, content)]
  | (s, c) :: rs => if bool_decide (s = stem) then (s, content) :: rs else (s, c) :: put_record stem content rs
  end.
Definition with_record (id stem content : text) (v : vault) : vault :=
  Vault v.(v_tasks) (<[id := put_record stem content (default [] (v.(v_runs) !! id))]> v.(v_runs)).

(** One attempt: which task, which run, when it started, what it hands to its record. *)
Record attempt := Attempt {
  at_id : json;
  at_run : text;
  at_started_at : string;
  at_started : Z;
  at_active : list (string * json);  (** who asked for the run, and whether in its hours *)
  at_lands : bool;                         (** the record can be written and read back *)
  at_stamp : text                          (** the clock of the activity log *)
}.

Section Life.
Context `{IsoStamps} `{PyNumbers} `{PyJson} `{PyUnicode} `{FloatText} `{PyZone} `{PyYaml}.

Definition status_change_note (old_status new_status : option json) : option text :=
  let old := strip (or_str old_status []) in
  let new := strip (or_str new_status []) in
  if bool_decide (new = []) || bool_decide (old = new) then None
  else Some (u "status changed: " ++ match old with [] => u "(no status recorded)" | _ => old end ++ u " -> " ++ new
             ++ (if bool_decide (new ∈ DISPATCH_STOPPING_STATUSES) then u " (dispatch-stopping)" else [])).

(** ** Writing *)

Definition write_fields (id : json) (fields : task) : st vault () :=
  fun v => (Ok tt, with_tasks (_update_task_field id fields v.(v_tasks)) v).
Definition write_note (id : json) (note stamp : text) : st vault () :=
  fun v => match _append_activity_log id note stamp v.(v_tasks) with
           | Ok dir => (Ok tt, with_tasks dir v)
           | Raise e => (Raise e, v)
           end.

(** The front matter of a run record; keys with nothing in them are left out. *)
Definition record_fields (a : attempt) (status : text) (completed_at : string) (duration : float) (summary : text) (extra : list (string * json))
    : list (string * json) :=
  let fm := [("run_id", jtext a.(at_run)); ("task_id", a.(at_id)); ("status", jtext status);
             ("started_at", JStr a.(at_started_at)); ("completed_at", JStr completed_at);
             ("duration_seconds", JFloat (encode (fixed1 duration))); ("summary", jtext summary)]%string in
  let fm := obj_merge fm (sel not_null extra) in
  fold_left (fun fm p => if bool_decide (is_Some (obj_get p.1 fm)) then fm else obj_put p.1 p.2 fm) (sel not_null a.(at_active)) fm.

(** [true]: a reader can open the record. *)
Definition _write_run_record (a : attempt) (status : text) (completed_at : string) (duration : float) (summary body : text) (extra : list (string * json))
    : st vault bool :=
  fun v =>
    if a.(at_lands) then
      (Ok true, with_record (str_of a.(at_id)) a.(at_run)
                  (FRONT_MATTER ++ yaml_ascii (record_fields a status completed_at duration summary extra) ++ FRONT_MATTER ++ nl ++ body) v)
    else (Ok false, v).

Definition _record_phrase (a : attempt) (record_ok full : bool) : text :=
  let rel := u "autonomy-runs/" ++ str_of a.(at_id) ++ u "/" ++ a.(at_run) ++ u ".md" in
  if record_ok then (if full then u "[full: " ++ rel ++ u "]" else u "see " ++ rel)
  else u "RUN RECORD COULD NOT BE READ — " ++ a.(at_run) ++ u " left no readable non-empty file; expected at " ++ rel ++ u " (#1567)".

(** ** A failure *)

Definition max_retries_budget (t : task) : outcome Z := int_of (or_else (obj_get "max_retries" t) (JInt _DEFAULT_MAX_RETRIES)).

(** The count this run is charged under. *)
Definition failures_of (t : task) (kind : failure_kind) : outcome Z :=
  n <-? int_of (or_else (obj_get "failure_count" t) (JInt 0)) ;; Ok (n + match kind with TaskFailure => 1 | InfraFailure => 0 end).

(** [datetime + timedelta(seconds=x)], as text. *)
Definition stamp_after (now : Z) (x : float) : outcome json := d <-? duration x ;; t <-? moved now d ;; Ok (JStr (iso t)).

(** The infra account: its fields, and the end of the rest where the ceiling was crossed. *)
Definition infra_fields (hour : Z) (t : task) (now : Z) : outcome (task * option json) :=
  n <-? _next_infra_failure_count t now ;;
  if _INFRA_CEILING <=? n then
    rest <-? _infra_rest_seconds hour t now ;;
    until <-? stamp_after now rest ;;
    Ok ([("infra_rest_until", until); ("infra_failure_count", JInt 0)]%string, Some until)
  else
    let expired := match _parse_iso (obj_get "infra_rest_until" t) with Some _ => negb (_in_infra_rest t now) | None => false end in
    Ok ((if expired then [("infra_rest_until", JNull)]%string else []) ++ [("infra_failure_count", JInt n)]%string, None).

Record failure_verdict := FailureVerdict { fv_fields : task; fv_disabled : bool; fv_rest : option json }.

(** What a failure writes into the file. *)
Definition failure_fields (hour : Z) (t : task) (kind : failure_kind) (failures max_retries now : Z) : outcome failure_verdict :=
  let at_ := JStr (iso now) in
  let base status := [("status", JStr status); ("last_attempt", at_); ("updated", at_)]%string in
  match kind with
  | TaskFailure =>
      if max_retries <=? failures
      then Ok (FailureVerdict (base "failed"%string ++ [("failure_count", JInt failures); ("next_run", JNull)]%string) true None)
      else
        let fields := base "up_next"%string ++ [("failure_count", JInt failures)]%string in
        cooldown <-? _failure_cooldown_seconds (obj_merge t fields) ;;
        next <-? stamp_after now cooldown ;;
        Ok (FailureVerdict (fields ++ [("next_run", next)]%string) false None)
  | InfraFailure =>
      infra <-? infra_fields hour t now ;;
      let '(fields, rest) := infra in
      next <-? match rest with Some until => Ok until | None => stamp_after now (fz _FAILURE_BACKOFF_BASE) end ;;
      Ok (FailureVerdict (base "up_next"%string ++ fields ++ [("next_run", next)]%string) false rest)
  end.

Definition failure_note (a : attempt) (kind : failure_kind) (summary : text) (record_ok : bool) (failures : Z) (v : failure_verdict) : text :=
  u "Run " ++ a.(at_run) ++ u " — FAILED (" ++ kind_text kind ++ u "): " ++ upto summary 280 ++ u " " ++ _record_phrase a record_ok true
  ++ (if v.(fv_disabled)
      then u " — DISABLED after " ++ show failures ++ u " consecutive failures; set status back to up_next to re-enable" else [])
  ++ match v.(fv_rest) with
     | Some until => u " — INFRA CEILING: " ++ show _INFRA_CEILING ++ u " consecutive infra failures in one declared period, resting until "
         ++ str_of until ++ u ". Resumes by itself then; the retry budget is untouched, so nobody has to re-enable it"
     | None => [] end.

(** [hour] is the hour on the wall, [ledger] what the change ledger adds. *)
Definition _record_failure (hour : Z) (t : task) (a : attempt) (now : Z) (summary body : text) (kind : failure_kind)
    (extra ledger : list (string * json)) : st vault failure_verdict :=
  failures <-s slift (failures_of t kind) ;;
  record <-s _write_run_record a (u "failed") (iso now) (secs (now - a.(at_started))) (_failure_summary summary) body
    (obj_merge (obj_merge extra ledger) [("failure_kind", jtext (kind_text kind)); ("failure_count", JInt failures)]%string) ;;
  max_retries <-s slift (max_retries_budget t) ;;
  verdict <-s slift (failure_fields hour t kind failures max_retries now) ;;
  _ <-s write_fields a.(at_id) verdict.(fv_fields) ;;
  _ <-s write_note a.(at_id) (failure_note a kind summary record failures verdict) a.(at_stamp) ;;
  sret verdict.

(** ** A success *)

Definition success_fields (t : task) (completed : Z) : outcome task :=
  let at_ := JStr (iso completed) in
  interval <-? _frequency_interval_seconds t ;;
  next <-? match interval with Some i => if fnonzero i then _next_run_after t completed else Ok None | None => Ok None end ;;
  Ok ([("status", JStr "up_next"); ("last_run", at_); ("last_attempt", at_); ("updated", at_); ("failure_count", JInt 0);
       ("infra_failure_count", JInt 0); ("infra_rest_until", JNull)]%string
      ++ match next with Some n => [("next_run", JStr (iso n))]%string | None => [] end).

(** The end of a run that succeeded: its record, its fields and its line. *)
Definition record_success (t : task) (a : attempt) (completed : Z) (duration : float) (summary body : text) (extra : list (string * json))
    (note : bool -> text) : st vault () :=
  record <-s _write_run_record a RUN_STATUS_SUCCESS (iso completed) duration summary body extra ;;
  fields <-s slift (success_fields t completed) ;;
  _ <-s write_fields a.(at_id) fields ;;
  write_note a.(at_id) (note record) a.(at_stamp).

(** ** The sweep *)

Definition _rearm_alert_id (stem : text) : text := u "AUTOREARM " ++ stem.

Definition path_stem (name : text) : text := if endswith (u ".md") name then take (length name - 3) name else name.

Definition _rearm_after_one_period (t : task) (now : Z) (stamp : text) : st vault bool :=
  let id := default JNull (obj_get "id" t) in
  interval <-s slift (_frequency_interval_seconds t) ;;
  match interval with
  | Some i =>
      if negb (json_true id) || negb (fnonzero i) then sret false
      else
        match _parse_iso (obj_get "last_attempt" t) with
        | None => sret false
        | Some attempt =>
            let idle := secs (now - attempt) in
            if blt idle (fmul i _FAILURE_REARM_PERIODS) then sret false
            else
              next <-s slift (stamp_after now i) ;;
              found <-s (fun v => (Ok (_find_task_file id v.(v_tasks)), v)) ;;
              let stem := match found with Some f => path_stem f.(f_name) | None => str_of id end in
              _ <-s write_fields id [("status", JStr "up_next"); ("failure_count", JInt 0); ("next_run", next); ("updated", JStr (iso now))]%string ;;
              _ <-s write_note id (u "AUTO-REARMED after " ++ fixed1 (fdiv idle (fz 3600)) ++ u "h at status failed (>= its own "
                ++ fixed1 (fdiv i (fz 3600)) ++ u "h period): status back to up_next, failure_count reset, next_run set. Retire-by-failure is not permanent; alert id "
                ++ _rearm_alert_id stem ++ u ".") stamp ;;
              sret true
        end
  | None => sret false
  end.

(** [updated or last_run]. *)
Definition touched (t : task) : option Z := _parse_iso (Some (or_else (obj_get "updated" t) (default JNull (obj_get "last_run" t)))).

(** One file of the sweep: whether its task was recovered. *)
Definition recover_one (t : task) (now : Z) (stamp : text) : st vault bool :=
  let status := strip (str_or_blank_of (obj_get "status" t)) in
  if bool_decide (status = u "failed") then _rearm_after_one_period t now stamp
  else if negb (bool_decide (status = u "in_progress")) then sret false
  else
    timeout <-s slift (int_of (or_else (obj_get "timeout_seconds" t) (JInt 1800))) ;;
    let stuck := match touched t with Some updated => negb (below_int (secs (now - updated)) timeout) | None => true end in
    if stuck then
      let id := default JNull (obj_get "id" t) in
      let seconds := match touched t with Some updated => fixed0 (secs (now - updated)) | None => show (timeout + 1) end in
      _ <-s write_fields id [("status", JStr "up_next"); ("updated", JStr (iso now))]%string ;;
      _ <-s write_note id (u "Recovered from in_progress after " ++ seconds ++ u "s (timeout=" ++ show timeout ++ u "s)") stamp ;;
      sret true
    else sret false.

(** The loop reads each file when it comes to it. *)
Fixpoint recover_each (paths : list text) (now : Z) (stamp : text) : st vault (list json) :=
  match paths with
  | [] => sret []
  | p :: paths =>
      found <-s (fun v => (Ok (head (sel (fun f => bool_decide (f.(f_path) = p)) v.(v_tasks)) ≫= _parse_task_file), v)) ;;
      recovered <-s match found with Some t => recover_one t now stamp | None => sret false end ;;
      rest <-s recover_each paths now stamp ;;
      sret (match found with Some t => if (recovered : bool) then default JNull (obj_get "id" t) :: rest else rest | None => rest end)
  end.

Definition recover_stuck_tasks (now : Z) (stamp : text) : st vault (list json) :=
  fun v => recover_each (map f_path (sel (fun f => is_task_name f.(f_name)) v.(v_tasks))) now stamp v.
End Life.
