(* ===== verification/FileFacts.v ===== *)
(** * Task files: what a write leaves to be read

    The keys of a merged dictionary; a stamp read back from its text; a file whose fields
    were written, read again - and what becomes of one whose front matter had to be
    recovered; the log takes every note. *)
From Stdlib Require Import String Ascii.
From S2P Require Import Prelude PyText Stamps QueueRows Regex Policy Spill Microcompact PoolGates PoolRun PoolRunFacts PyValues Utf8 Windows DueRules TaskFiles.

Local Open Scope Z_scope.

(** ** Dictionaries *)

(** The keys of a Python dict are distinct. *)
Definition dict (fs : list (string * json)) : Prop := NoDup (map fst fs).

Lemma obj_get_none k fs : obj_get k fs = None <-> k ∉ map fst fs.
Proof.
  induction fs as [|[k' v] fs IH]; simpl; [by split; [intros _ ?%elem_of_nil|]|].
  rewrite not_elem_of_cons. destruct (String.eqb_spec k k') as [->|N]; [by split; [|intros [? _]]|]. rewrite IH. naive_solver.
Qed.

Lemma obj_put_in k v fs k' : k' ∈ map fst (obj_put k v fs) <-> k' = k \/ k' ∈ map fst fs.
Proof.
  induction fs as [|[k0 v0] fs IH]; simpl; [set_solver|]. destruct (String.eqb_spec k k0) as [->|N]; simpl; set_solver.
Qed.

Lemma dict_put k v fs : dict fs -> dict (obj_put k v fs).
Proof.
  unfold dict. induction fs as [|[k0 v0] fs IH]; simpl; [intros _; constructor; [set_solver|constructor]|].
  intros [Hk Hd]%NoDup_cons. destruct (String.eqb_spec k k0) as [->|N]; simpl; apply NoDup_cons; [done|]. split; [|by apply IH].
  rewrite obj_put_in. naive_solver.
Qed.

Lemma dict_merge fs gs : dict fs -> dict (obj_merge fs gs).
Proof. unfold obj_merge. revert fs. induction gs as [|[k v] gs IH]; intros fs Hd; simpl; [done|]. by apply IH, dict_put. Qed.

Lemma dict_sel p fs : dict fs -> dict (sel p fs).
Proof.
  unfold dict. induction fs as [|x fs IH]; simpl; [done|]. intros [Hk Hd]%NoDup_cons. case_match; [|by apply IH].
  apply NoDup_cons. split; [|by apply IH]. intros (y & E & Hy%elem_of_sel)%list_elem_of_fmap. apply Hk, list_elem_of_fmap. exists y. by split; [|apply Hy].
Qed.

Lemma get_sel_key p k fs : obj_get k (sel (fun x => p x.1) fs) = if p k then obj_get k fs else None.
Proof.
  induction fs as [|[k0 v0] fs IH]; simpl; [by destruct (p k)|].
  destruct (p k0) eqn:E; simpl; destruct (String.eqb_spec k k0) as [->|N]; rewrite ?E; try done; rewrite IH; try done.
  by rewrite E.
Qed.

Definition unless_null (v : option json) : option json := match v with Some v => if is_null v then None else Some v | None => None end.

Lemma get_not_null k fs : dict fs -> obj_get k (sel not_null fs) = unless_null (obj_get k fs).
Proof.
  unfold dict. induction fs as [|[k0 v0] fs IH]; simpl; [done|]. intros [Hk Hd]%NoDup_cons. specialize (IH Hd). unfold not_null at 1. simpl.
  destruct (is_null v0) eqn:E; simpl; destruct (String.eqb_spec k k0) as [->|N]; simpl; rewrite ?E; try done.
  rewrite IH. rewrite (proj2 (obj_get_none k0 fs)); done.
Qed.

Lemma get_merge k fs gs : dict gs -> obj_get k (obj_merge fs gs) = match obj_get k gs with Some v => Some v | None => obj_get k fs end.
Proof.
  unfold obj_merge, dict. revert fs. induction gs as [|[k0 v0] gs IH]; intros fs; simpl; [done|].
  intros [Hk Hd]%NoDup_cons. rewrite IH by done. rewrite obj_get_put. destruct (String.eqb_spec k k0) as [->|N]; [|done].
  by rewrite (proj2 (obj_get_none k0 gs)).
Qed.

(** A field after a write: the value written, unless that clears it; or what was there. *)
Lemma get_merged k fields fm : dict fields -> dict fm ->
  obj_get k (merged fields fm) = unless_null match obj_get k fields with Some v => Some v | None => if hidden k then None else obj_get k fm end.
Proof.
  intros Hf Hd. unfold merged. rewrite get_not_null by (by apply dict_merge, dict_sel). rewrite get_merge by done.
  unfold shown_fields. by rewrite (get_sel_key (fun k => negb (hidden k))), if_negb.
Qed.

Lemma get_written k fields fm v : dict fields -> dict fm -> obj_get k fields = Some v -> is_null v = false ->
  obj_get k (merged fields fm) = Some v.
Proof. intros Hf Hd E Hn. rewrite get_merged, E by done. simpl. by rewrite Hn. Qed.

Lemma get_cleared k fields fm : dict fields -> dict fm -> obj_get k fields = Some JNull -> obj_get k (merged fields fm) = None.
Proof. intros Hf Hd E. by rewrite get_merged, E. Qed.

Lemma get_kept k fields fm : dict fields -> dict fm -> obj_get k fields = None -> hidden k = false ->
  obj_get k (merged fields fm) = unless_null (obj_get k fm).
Proof. intros Hf Hd E Hh. by rewrite get_merged, E, Hh. Qed.

Lemma dict_merged fields fm : dict fm -> dict (merged fields fm).
Proof. intros. by apply dict_sel, dict_merge, dict_sel. Qed.

(** ** Stamps *)

(** A stamp the scheduler writes is read back as it is. *)
Class PlainStamps `{IsoStamps} `{PyNumbers} `{PyJson} : Prop :=
  plain_stamp t : in_range t = true -> _parse_iso (Some (JStr (iso t))) = Some t.

Definition stamp_char (c : ascii) : Prop :=
  (48 <= N_of_ascii c <= 57)%N \/ c = "-"%char \/ c = ":"%char \/ c = "."%char \/ c = "+"%char \/ c = "T"%char.

Lemma digs_chars w n : Forall (fun c => (48 <= N_of_ascii c <= 57)%N) (digs w n).
Proof.
  revert n. induction w as [|w IH]; intros n; simpl; [constructor|]. apply Forall_app. split; [done|]. constructor; [|constructor].
  unfold digit. pose proof (Z.mod_pos_bound n 10 ltac:(done)). rewrite N_ascii_embedding by lia. lia.
Qed.

Lemma digs_stamp w n : Forall stamp_char (digs w n).
Proof. eapply Forall_impl; [apply digs_chars|]. by left. Qed.

Lemma frac_stamp us : exists l, frac us = l ++ ["0"%char] /\ Forall stamp_char (frac us).
Proof.
  assert (Z0 : (48 <= N_of_ascii "0"%char <= 57)%N) by done.
  assert (T : Forall stamp_char (list_ascii_of_string "+00:00")).
  { simpl. repeat (apply Forall_cons; split; [first [by left|right; auto 6]|]). constructor. }
  unfold frac. destruct (us =? 0).
  - exists (list_ascii_of_string "+00:0"). split; [done|exact T].
  - exists ("."%char :: digs 6 us ++ list_ascii_of_string "+00:0"). split; [exact (f_equal (cons "."%char) (app_assoc (digs 6 us) (list_ascii_of_string "+00:0") ["0"%char]))|].
    rewrite <-app_comm_cons. apply Forall_cons. split; [right; auto|]. apply Forall_app. split; [apply digs_stamp|exact T].
Qed.

Lemma iso_chars_stamp t : exists c l, iso_chars t = c :: l ++ ["0"%char] /\ (48 <= N_of_ascii c <= 57)%N /\ Forall stamp_char (iso_chars t).
Proof.
  unfold iso_chars. destruct (ymd _) as [[y m] d]. set (r := t mod day_us). set (r1 := r mod _). set (r2 := r1 mod _).
  destruct (frac_stamp (r2 mod usec)) as (f & Ef & Hf). pose proof (digs_chars 4 y) as Hy.
  destruct (digs 4 y) as [|c ys] eqn:E; [apply (f_equal length) in E; by rewrite length_digs in E|].
  exists c, (ys ++ "-"%char :: digs 2 m ++ "-"%char :: digs 2 d ++ "T"%char :: digs 2 (r / (3600 * usec)) ++ ":"%char
    :: digs 2 (r1 / (60 * usec)) ++ ":"%char :: digs 2 (r2 / usec) ++ f). split; [|split].
  - rewrite Ef. repeat (rewrite <-app_assoc || rewrite <-app_comm_cons). done.
  - by apply Forall_cons in Hy as [? _].
  - rewrite <-E. repeat first [apply digs_stamp | exact Hf | apply Forall_app; split | apply Forall_cons; split]; unfold stamp_char; auto 7.
Qed.

Lemma stamp_solid c : stamp_char c -> isspace (N_of_ascii c) = false /\ seven_bit c.
Proof.
  intros [Hc|[->|[->|[->|[->| ->]]]]]; [|done..]. unfold isspace, seven_bit. split; [|lia].
  repeat match goal with |- context [(?a <=? ?b)%N] => destruct (N.leb_spec a b); try lia | |- context [(?a =? ?b)%N] => destruct (N.eqb_spec a b); try lia end; done.
Qed.

#[export] Instance iso_plain `{PyNumbers} `{PyJson} : PlainStamps.
Proof.
  intros t Ht. unfold _parse_iso. cut (iso_source (Some (JStr (iso t))) = Some (iso t)); [intros ->; by apply iso_parse_iso|].
  destruct (iso_chars_stamp t) as (c & l & E & Hc & F). change (iso t) with (iso_text t). unfold iso_source, iso_text.
  assert (Ej : json_true (JStr (string_of_list_ascii (iso_chars t))) = true) by (by rewrite E). rewrite Ej. cbn [negb orb str_of].
  assert (F7 : Forall seven_bit (iso_chars t)) by (eapply Forall_impl; [exact F|]; intros x ?; by apply stamp_solid).
  rewrite utf8_plain by (unfold all_chars; by rewrite list_ascii_of_string_of_list_ascii). rewrite list_ascii_of_string_of_list_ascii.
  set (s := map N_of_ascii (iso_chars t)).
  assert (Hs : strip s = s).
  { apply strip_solid. unfold s. apply Forall_map. eapply Forall_impl; [exact F|]. intros x ?. by apply stamp_solid. }
  rewrite Hs. replace (bool_decide _) with false.
  - replace (endswith (u "Z") s) with false; [unfold s; by rewrite encode_chars|].
    unfold endswith, s. rewrite E, <-map_rev. cbn [rev]. rewrite rev_app_distr. done.
  - symmetry. apply bool_decide_eq_false. unfold s, lower. rewrite E. cbn [map app].
    assert (Hl : lower_char (N_of_ascii c) = N_of_ascii c).
    { unfold lower_char. clear -Hc. generalize dependent (N_of_ascii c). intros n Hn.
      rewrite (proj2 (N.leb_gt 65 n)), (proj2 (N.eqb_neq n 8490)) by lia. done. }
    rewrite Hl, !elem_of_cons, elem_of_nil. intros [Hi|[Hi|[Hi|[]]]]; [..|done]; injection Hi as Hi _; clear -Hi Hc; lia.
Qed.

(** ** A file written and read *)

(** The fence is found behind what has none of its own and ends its last line. *)
Lemma find_fence (x b : text) : find FRONT_MATTER x = None -> x = [] \/ list.last x = Some 10%N ->
  find FRONT_MATTER (x ++ FRONT_MATTER ++ b) = Some (length x).
Proof.
  induction x as [|c x IH]; intros F L; [done|]. destruct L as [|L]; [done|].
  assert (Hx : x = [] \/ list.last x = Some 10%N) by (destruct x; [by left|by right]).
  cbn [find] in F. destruct (startswith FRONT_MATTER (c :: x)) eqn:E; [done|].
  assert (find FRONT_MATTER x = None) as Fx by (by destruct (find FRONT_MATTER x)). specialize (IH Fx Hx).
  change ((c :: x) ++ FRONT_MATTER ++ b) with (c :: (x ++ FRONT_MATTER ++ b)).
  assert (startswith FRONT_MATTER (c :: (x ++ FRONT_MATTER ++ b)) = false) as E'.
  { destruct x as [|a [|a2 [|a3 x]]]; simpl in L; simplify_eq; [done|simpl; by destruct (c =? 45)%N|simpl; destruct (c =? 45)%N; [|done]; by destruct (a =? 45)%N|exact E]. }
  cbn [find]. rewrite E', IH. done.
Qed.

Section RoundTrip.
Context `{PyNumbers} `{PyJson} `{PyUnicode} `{PyYaml}.

(** What [yaml] owes a dictionary it dumps: the text reads back to the same keys, ends
    its last line, and holds no fence - which a value that ends in three dashes would. *)
Definition dumped (m : task) : Prop :=
  (exists fm, plain_yaml (yaml_dump m) = Some fm /\ forall k, obj_get k fm = obj_get k m) /\
  find FRONT_MATTER (yaml_dump m) = None /\ list.last (yaml_dump m) = Some 10%N.

Lemma fenced_parts m body : dumped m -> three_parts (fenced m body) = Some (yaml_dump m, body).
Proof.
  intros (_ & F & L). unfold three_parts, fenced. change (find FRONT_MATTER (FRONT_MATTER ++ _)) with (Some 0%nat). cbn [mbind option_bind].
  change (drop (0 + 4) (FRONT_MATTER ++ yaml_dump m ++ FRONT_MATTER ++ body)) with (yaml_dump m ++ FRONT_MATTER ++ body).
  rewrite find_fence by auto. cbn [mbind option_bind]. rewrite take_app_length. do 2 f_equal.
  rewrite <-drop_drop, drop_app_length. done.
Qed.

(** Reading a file adds its body, its path and, where none is declared, the id of its name. *)
Definition numbered (name : text) : Prop := forall ds, name_number name = Some ds -> exists n, int_of (JStr (encode ds)) = Ok n.

Lemma parsed_fields name path content front body :
  three_parts content = Some (front, body) -> numbered name ->
  exists t, _parse_task_file (File name path content) = Some t /\
    forall k, k ∉ ["id"; "body"; "_path"]%string -> obj_get k t = obj_get k (parse_frontmatter_text front AUTONOMY_TASK_FIELDS).
Proof.
  intros E Hn. unfold _parse_task_file. cbn [f_text f_name f_path]. rewrite E. cbn [mbind option_bind fst snd].
  set (fm := parse_frontmatter_text front _). set (t0 := obj_put "_path" _ _).
  assert (K : forall k, k ∉ ["id"; "body"; "_path"]%string -> obj_get k t0 = obj_get k fm).
  { intros k Hk. unfold t0. rewrite !obj_get_put. destruct (String.eqb_spec k "_path") as [->|]; [set_solver|].
    destruct (String.eqb_spec k "body") as [->|]; [set_solver|done]. }
  unfold _id_from_filename. cbv zeta. match goal with |- context [if ?c then Ok _ else _] => destruct c end; [by exists t0|]. destruct (name_number name) as [ds|] eqn:En; [|by exists t0].
  destruct (Hn ds En) as [n ->]. cbn [obind]. eexists; split; [done|]. intros k Hk. rewrite obj_get_put.
  destruct (String.eqb_spec k "id") as [->|]; [set_solver|by apply K].
Qed.

Lemma parse_plain s fm fields : plain_yaml s = Some fm -> parse_frontmatter_text s fields = fm.
Proof. unfold parse_frontmatter_text. by intros ->. Qed.

(** C37: fields written to a task file are the fields read back. The body is kept to the
    byte, every field that was set reads as it was set and a cleared one is gone, and
    what was not touched is as it was - if the front matter was valid YAML. Of front
    matter that was not, nothing survives but the fields that were set. *)
Theorem update_reads_back name path content front body fields :
  three_parts content = Some (front, body) -> numbered name -> dict fields ->
  dict (parse_frontmatter_text front []) -> dumped (merged fields (parse_frontmatter_text front [])) ->
  exists new t, update_text fields content = Some new /\ _parse_task_file (File name path new) = Some t /\
    (exists front', three_parts new = Some (front', body)) /\
    (forall k, k ∉ ["id"; "body"; "_path"]%string ->
       (forall v, obj_get k fields = Some v -> obj_get k t = unless_null (Some v)) /\
       (forall fm, plain_yaml front = Some fm -> obj_get k fields = None -> hidden k = false -> obj_get k t = unless_null (obj_get k fm)) /\
       (plain_yaml front = None -> plain_yaml (_fold_orphaned_tag_items front) = None -> obj_get k fields = None -> obj_get k t = None)).
Proof.
  intros E Hn Hf Hd Hm. set (m := merged fields _) in *. pose proof (fenced_parts m body Hm) as Ep.
  destruct Hm as ((fm' & Ed & Hk) & _). destruct (parsed_fields name path (fenced m body) _ _ Ep Hn) as (t & Et & Ht).
  exists (fenced m body), t. unfold update_text. rewrite E. split; [done|]. split; [done|]. split; [by eexists|].
  intros k Hnk. rewrite (Ht k Hnk), (parse_plain _ _ _ Ed), Hk. unfold m. rewrite get_merged by done.
  split; [by intros v ->|]. split.
  - intros fm Efm -> ->. unfold parse_frontmatter_text. by rewrite Efm.
  - intros E1 E2 ->. destruct (hidden k) eqn:Eh; [done|]. unfold parse_frontmatter_text. rewrite E1. case_bool_decide; rewrite ?E2; simpl.
    all: by destruct (String.eqb_spec k "_yaml_broken") as [->|].
Qed.
End RoundTrip.

(** ** The log takes every note *)

Lemma break_at_all {A} (q : A -> bool) l : Forall (fun x => q x = false) (break_at q l).1.
Proof. induction l as [|x l IH]; simpl; [constructor|]. destruct (q x) eqn:E; [constructor|]. destruct (break_at q l). by constructor. Qed.

Section Log.
Context `{PyNumbers} `{PyUnicode}.

(** [int] reads what [\d+] matched. *)
Definition counts_readable : Prop := forall ds, ds <> [] -> Forall (fun x => cdigit x = true) ds -> exists n, int_of (JStr (encode ds)) = Ok n.

Lemma repeat_count_ok line : counts_readable -> exists n, _activity_repeat_count line = Ok n.
Proof.
  intros Hc. unfold _activity_repeat_count. destruct (repeat_mark (strip line)) as [[before ds]|] eqn:E; [|by exists 1].
  unfold repeat_mark in E. pose proof (break_at_all (fun x => negb (cdigit x)) (rev (strip line))) as F.
  destruct (break_at _ _) as [[|d0 ds'] after]; [done|].
  destruct after as [|q after]; [done|]. assert (ds = rev (d0 :: ds')) as ->.
  { destruct q as [|q]; [done|]. repeat (destruct q as [q|q|]; try done). by injection E as _ <-. }
  apply Hc; [intros K; cbn [rev] in K; by destruct (rev ds')|].
  apply Forall_rev. eapply Forall_impl; [exact F|]. intros x Hx. by apply negb_false_iff.
Qed.

Lemma append_line_ok body note now : counts_readable -> exists new, append_activity_line body note now = Ok new.
Proof.
  intros Hc. unfold append_activity_line. cbv zeta. destruct (heading_at _ _) as [start|]; [|by eexists].
  match goal with |- exists _, match ?r with Some _ => _ | None => _ end = _ => destruct r as [[i l]|] end; [|by eexists].
  destruct (repeat_count_ok l Hc) as [n ->]. by eexists.
Qed.

Lemma append_log_ok `{PyJson} id note now dir : counts_readable -> exists dir', _append_activity_log id note now dir = Ok dir'.
Proof.
  intros Hc. unfold _append_activity_log. induction dir as [|f dir IH]; simpl; [by eexists|]. destruct (holds_task _ f).
  - destruct (append_line_ok f.(f_text) note now Hc) as [new ->]. by eexists.
  - destruct IH as [rest ->]. by eexists.
Qed.
End Log.
