(* ===== verification/LifeFacts.v ===== *)
(** * The life of a scheduled task: what an attempt leaves

    Failures retire a task at its own budget and only there; the retry a failure names is
    the one the gates allow; and five infra failures in a row rest the task. *)
From Stdlib Require Import String SpecFloat.
From S2P Require Import Prelude PyText Stamps QueueRows QueueOps QueueJournal Regex Policy Grants Spill Microcompact PoolGates PoolRun PoolRunFacts Binary64 PyValues Utf8 Windows DueRules DueFacts DueWaits TaskFiles TaskLife FileFacts.

Local Open Scope Z_scope.

(** [str(None)]. *)
Class NullShown `{PyNumbers} `{PyJson} : Prop := null_shown : py_shown JNull = u "None".

Section Account.
Context `{IsoStamps} `{PyNumbers} `{PyJson} `{PyUnicode} `{FloatText} `{PyZone} `{PyYaml} `{!PlainStamps} `{!NullShown}.

(** ** Fields a write leaves alone *)

(** One field reads alike in two dictionaries: [null] is as good as absent. *)
Definition reads_alike (k : string) (t t' : task) : Prop := unless_null (obj_get k t') = unless_null (obj_get k t).

Lemma alike_cases k t t' : reads_alike k t t' ->
  obj_get k t' = obj_get k t \/ (obj_get k t' = None /\ obj_get k t = Some JNull) \/ (obj_get k t' = Some JNull /\ obj_get k t = None).
Proof.
  unfold reads_alike. destruct (obj_get k t) as [v|], (obj_get k t') as [v'|]; simpl; [|destruct v; simpl; auto; done|destruct v'; simpl; auto; done|auto].
  destruct v, v'; simpl; intros E; simplify_eq; auto.
Qed.

Lemma alike_or_else k t t' d : reads_alike k t t' -> or_else (obj_get k t') d = or_else (obj_get k t) d.
Proof. intros [->|[[-> ->]|[-> ->]]]%alike_cases; done. Qed.

Lemma alike_iso k t t' : reads_alike k t t' -> _parse_iso (obj_get k t') = _parse_iso (obj_get k t).
Proof. intros [->|[[-> ->]|[-> ->]]]%alike_cases; done. Qed.

Lemma null_interval : named_interval (lower (strip (py_shown JNull))) = None.
Proof. rewrite null_shown. vm_compute. reflexivity. Qed.

Lemma alike_interval t t' : reads_alike "frequency" t t' -> reads_alike "runs_per_day" t t' ->
  _frequency_interval_seconds t' = _frequency_interval_seconds t.
Proof.
  intros Hf Hr. unfold _frequency_interval_seconds. cbv zeta.
  replace (named_interval (lower (strip (str_or_blank_of (obj_get "frequency" t')))))
    with (named_interval (lower (strip (str_or_blank_of (obj_get "frequency" t)))))
    by (destruct (alike_cases _ _ _ Hf) as [->|[[-> ->]|[-> ->]]]; cbn [str_or_blank_of str_of]; by rewrite ?null_interval).
  destruct (alike_cases _ _ _ Hr) as [->|[[-> ->]|[-> ->]]]; done.
Qed.

Lemma written_alike k fields t : dict fields -> dict t -> obj_get k fields = None -> hidden k = false -> reads_alike k t (merged fields t).
Proof. intros Hf Hd E Hh. unfold reads_alike. rewrite get_kept by done. destruct (obj_get k t) as [[]|]; done. Qed.

Lemma int_field n : int_of (or_else (Some (JInt n)) (JInt 0)) = Ok n.
Proof. unfold or_else. simpl. destruct (Z.eqb_spec n 0) as [->|]; simpl; by rewrite int_of_int. Qed.

(** ** The shape of what a failure writes *)

Definition task_kind (k : failure_kind) : Z := match k with TaskFailure => 1 | InfraFailure => 0 end.

Lemma stamp_after_ok now x v : stamp_after now x = Ok v -> exists t, v = JStr (iso t) /\ in_range t = true /\ moved now (t - now) = Ok t.
Proof.
  unfold stamp_after. intros K. apply obind_ok in K as (d & Ed & K). apply obind_ok in K as (t & Et & K). injection K as <-.
  pose proof (moved_ok _ _ _ Et) as ->. unfold moved in *. destruct (in_range (now + d)) eqn:E; [|done]. exists (now + d).
  replace (now + (now + d - now)) with (now + d) by lia. by rewrite E.
Qed.

(** Every verdict writes distinct keys, its stamps, its status, and when to run next. *)
Lemma failure_shape hour t kind n m now v : failure_fields hour t kind n m now = Ok v ->
  let f := v.(fv_fields) in
  let retired := bool_decide (kind = TaskFailure) && (m <=? n) in
  dict f /\ (forall k, k ∉ ["status"; "last_attempt"; "updated"; "failure_count"; "next_run"; "infra_rest_until"; "infra_failure_count"]%string -> obj_get k f = None) /\
  obj_get "last_attempt" f = Some (JStr (iso now)) /\ v.(fv_disabled) = retired /\
  obj_get "status" f = Some (JStr (if retired then "failed" else "up_next")) /\
  obj_get "failure_count" f = match kind with TaskFailure => Some (JInt n) | InfraFailure => None end /\
  (if retired then obj_get "next_run" f = Some JNull else exists next, obj_get "next_run" f = Some (JStr (iso next)) /\ in_range next = true).
Proof.
  assert (D : forall f : task, bool_decide (NoDup (map fst f)) = true -> dict f) by (intros f E; by apply bool_decide_eq_true in E).
  set (keys := ["status"; "last_attempt"; "updated"; "failure_count"; "next_run"; "infra_rest_until"; "infra_failure_count"]%string).
  assert (A : forall f : task, bool_decide (Forall (fun k => k ∈ keys) (map fst f)) = true -> forall k, k ∉ keys -> obj_get k f = None).
  { intros f Hf%bool_decide_eq_true k Hk. rewrite Forall_forall in Hf. apply obj_get_none. naive_solver. }
  unfold failure_fields. destruct kind; cbv zeta.
  - destruct (m <=? n).
    + intros [= <-]. cbn [fv_fields fv_disabled app]. split_and!; [by apply D|by apply A|done..].
    + intros K. apply obind_ok in K as (c & _ & K). apply obind_ok in K as (next & En & K). injection K as <-.
      apply stamp_after_ok in En as (x & -> & Hx & _).
      cbn [fv_fields fv_disabled app]. split_and!; [by apply D|by apply A|done..|by exists x].
  - intros K. apply obind_ok in K as ([fs rest] & Ei & K). apply obind_ok in K as (next & En & K). injection K as <-.
    assert (exists x, next = JStr (iso x) /\ in_range x = true) as (x & -> & Hx).
    { destruct rest as [until|]; [injection En as <-|by apply stamp_after_ok in En as (x & ? & ? & _); exists x].
      unfold infra_fields in Ei. apply obind_ok in Ei as (c & _ & Ei). destruct (_ <=? c); [|by injection Ei].
      apply obind_ok in Ei as (r & _ & Ei). apply obind_ok in Ei as (until' & Eu & Ei). injection Ei as _ <-.
      by apply stamp_after_ok in Eu as (x & ? & ? & _); exists x. }
    assert (S : (exists until, fs = [("infra_rest_until", until); ("infra_failure_count", JInt 0)]%string) \/
      (exists c, fs = [("infra_rest_until", JNull); ("infra_failure_count", JInt c)]%string) \/ exists c, fs = [("infra_failure_count", JInt c)]%string).
    { unfold infra_fields in Ei. apply obind_ok in Ei as (c & _ & Ei). destruct (_ <=? c).
      - apply obind_ok in Ei as (r & _ & Ei). apply obind_ok in Ei as (until' & Eu & Ei). injection Ei as <- _. left. by eexists.
      - cbv zeta in Ei. injection Ei as <- _. right. destruct (match _parse_iso _ with Some _ => _ | None => _ end); [left|right]; by exists c. }
    destruct S as [[until ->]|[[c ->]|[c ->]]]; cbn [fv_fields fv_disabled app];
      (split_and!; [by apply D|by apply A|done..|by exists x]).
Qed.

(** ** Failure after failure *)

(** The front matter once a failure is charged to it. *)
Definition charged (t : task) (kind : failure_kind) (hour now : Z) : outcome task :=
  n <-? failures_of t kind ;; m <-? max_retries_budget t ;; v <-? failure_fields hour t kind n m now ;; Ok (merged v.(fv_fields) t).

Definition charge : Type := failure_kind * Z * Z.
Fixpoint charged_all (t : task) (cs : list charge) : outcome task :=
  match cs with
  | [] => Ok t
  | (kind, hour, now) :: cs => t' <-? charged t kind hour now ;; charged_all t' cs
  end.
Definition task_failures (cs : list charge) : Z := foldr (fun c n => task_kind c.1.1 + n) 0 cs.

Definition failure_count (t : task) : outcome Z := int_of (or_else (obj_get "failure_count" t) (JInt 0)).

(** One charge: the count, the budget, and where the task stands. *)
Lemma charged_once t kind hour now t' n m : dict t -> failure_count t = Ok n -> max_retries_budget t = Ok m -> charged t kind hour now = Ok t' ->
  let n' := n + task_kind kind in
  let retired := bool_decide (kind = TaskFailure) && (m <=? n') in
  dict t' /\ failure_count t' = Ok n' /\ max_retries_budget t' = Ok m /\
  obj_get "last_attempt" t' = Some (JStr (iso now)) /\
  obj_get "status" t' = Some (JStr (if retired then "failed" else "up_next")) /\
  (if retired then obj_get "next_run" t' = None else exists next, obj_get "next_run" t' = Some (JStr (iso next))) /\
  (forall k, k ∉ ["status"; "last_attempt"; "updated"; "failure_count"; "next_run"; "infra_rest_until"; "infra_failure_count"]%string ->
     hidden k = false -> reads_alike k t t').
Proof.
  intros Hd Hn Hm. unfold charged, failures_of. unfold failure_count in Hn. rewrite Hn. cbn [obind]. rewrite Hm. cbn [obind].
  intros K. apply obind_ok in K as (v & Ev & K). injection K as <-. fold (task_kind kind) in Ev.
  destruct (failure_shape _ _ _ _ _ _ _ Ev) as (Df & Hother & Ha & _ & Hs & Hc & Hnext). set (n' := n + task_kind kind) in *. cbv zeta.
  assert (Ho : forall k, k ∉ ["status"; "last_attempt"; "updated"; "failure_count"; "next_run"; "infra_rest_until"; "infra_failure_count"]%string ->
    hidden k = false -> reads_alike k t (merged (fv_fields v) t)) by (intros k Hk Hh; apply written_alike; auto).
  split_and!; [by apply dict_merged|..|by apply (get_written _ _ _ _ Df Hd Hs)| |exact Ho].
  - unfold failure_count. destruct kind.
    + rewrite (get_written _ _ _ _ Df Hd Hc eq_refl). apply int_field.
    + rewrite (alike_or_else _ t) by (by apply written_alike). rewrite Hn. unfold n'. simpl. f_equal. lia.
  - unfold max_retries_budget. by rewrite (alike_or_else _ t) by (apply Ho; [set_solver|done]).
  - by apply (get_written _ _ _ _ Df Hd Ha).
  - destruct (bool_decide (kind = TaskFailure) && (m <=? n')); [by apply get_cleared|].
    destruct Hnext as (next & Hnext & _). exists next. by apply (get_written _ _ _ _ Df Hd Hnext).
Qed.

(** C32: failures retire a task at its own budget and only there. Over any run of failures
    the count grows by the failures that were the task's own, an outage adds nothing to
    it, the budget stands, and the last failure decides: it leaves the task retired, with
    no next run, exactly if it was the task's own and the count has reached the budget;
    otherwise the task is up next - retired or not before - with a next run named. *)
Theorem failures_retire_exactly t cs kind hour now t' n m : dict t -> failure_count t = Ok n -> max_retries_budget t = Ok m ->
  charged_all t (cs ++ [(kind, hour, now)]) = Ok t' ->
  let n' := n + task_failures cs + task_kind kind in
  let retired := bool_decide (kind = TaskFailure) && (m <=? n') in
  failure_count t' = Ok n' /\ max_retries_budget t' = Ok m /\
  obj_get "status" t' = Some (JStr (if retired then "failed" else "up_next")) /\
  (if retired then obj_get "next_run" t' = None else exists next, obj_get "next_run" t' = Some (JStr (iso next))).
Proof.
  revert t n. induction cs as [|[[k h] w] cs IH]; intros t n Hd Hn Hm; cbn [app charged_all task_failures foldr fst].
  - intros K. apply obind_ok in K as (t1 & E & K). injection K as <-. rewrite Z.add_0_r.
    destruct (charged_once _ _ _ _ _ _ _ Hd Hn Hm E) as (_ & ? & ? & _ & ? & ? & _). done.
  - intros K. apply obind_ok in K as (t1 & E & K).
    destruct (charged_once _ _ _ _ _ _ _ Hd Hn Hm E) as (Hd1 & Hn1 & Hm1 & _).
    destruct (IH t1 _ Hd1 Hn1 Hm1 K) as (? & ? & ? & ?). rewrite !Z.add_assoc. done.
Qed.

(** ** When it runs again *)

Lemma charged_paced t kind hour now t' n m P : dict t -> failure_count t = Ok n -> max_retries_budget t = Ok m ->
  charged t kind hour now = Ok t' -> paced t P -> paced t' P.
Proof.
  intros Hd Hn Hm E [HP Hi]. destruct (charged_once _ _ _ _ _ _ _ Hd Hn Hm E) as (_ & _ & _ & _ & _ & _ & Ha).
  split; [done|]. rewrite (alike_interval t) by (apply Ha; [set_solver|done]). done.
Qed.

(** The cooldown of a charged task runs from the failure, by the count it was charged. *)
Lemma charged_cools t kind hour now t' n m P s : dict t -> failure_count t = Ok n -> max_retries_budget t = Ok m ->
  charged t kind hour now = Ok t' -> paced t P -> n + task_kind kind <= 1024 -> in_range now = true ->
  match _parse_iso (obj_get "last_run" t) with Some run => run < now | None => True end -> - 2 ^ 51 < s - now < 2 ^ 51 ->
  _in_failure_cooldown t' s = Ok (s - now <? hold_of P (Z.max 1 (n + task_kind kind)) * SECOND).
Proof.
  intros Hd Hn Hm E Hp Hc Hr Hrun Hs. pose proof (charged_paced _ _ _ _ _ _ _ _ Hd Hn Hm E Hp) as Hp'.
  destruct (charged_once _ _ _ _ _ _ _ Hd Hn Hm E) as (_ & Hn' & _ & Hatt & _ & _ & Ha).
  apply (cooldown_exact t' P (n + task_kind kind) now s Hp' Hn' Hc); [rewrite Hatt; by apply plain_stamp| |done].
  rewrite (alike_iso _ t) by (apply Ha; [set_solver|done]). done.
Qed.

Lemma hold_duration P n : P ∈ CADENCES -> 1 <= n <= 1024 -> duration (fz (hold_of P n)) = Ok (hold_of P n * SECOND).
Proof.
  revert P n. apply early_or_late; [|intros; rewrite hold_late by (done || lia); by apply cadence_duration].
  intros P HP. per_cadence HP ltac:(split_and!; vm_compute; reflexivity).
Qed.

(** C36: the retry a failure of its own names is the one the gates allow. When it does not
    retire a task that declares a period, the next run it writes is the very instant the
    cooldown ends. After an outage below the ceiling the file names ten minutes on; the
    gate counts the same cooldown as for a failure of its own, and lets it go no earlier
    than that. *)
Theorem failure_names_its_retry t kind hour now t' n m P : dict t -> failure_count t = Ok n -> max_retries_budget t = Ok m ->
  charged t kind hour now = Ok t' -> paced t P -> 0 <= n < 1024 -> in_range now = true ->
  match _parse_iso (obj_get "last_run" t) with Some run => run < now | None => True end ->
  let release := now + hold_of P (Z.max 1 (n + task_kind kind)) * SECOND in
  (forall s, - 2 ^ 51 < s - now < 2 ^ 51 -> _in_failure_cooldown t' s = Ok (s <? release)) /\
  match kind with
  | TaskFailure => n + 1 < m -> obj_get "next_run" t' = Some (JStr (iso release))
  | InfraFailure => forall c, _next_infra_failure_count t now = Ok c -> c < _INFRA_CEILING ->
      obj_get "next_run" t' = Some (JStr (iso (now + 600 * SECOND))) /\ now + 600 * SECOND <= release
  end.
Proof.
  intros Hd Hn Hm E Hp Hc Hr Hrun release. pose proof (hold_bounds P (Z.max 1 (n + task_kind kind)) (proj1 Hp) ltac:(lia)) as HB. split.
  { intros s Hs. rewrite (charged_cools _ _ _ _ _ _ _ _ s Hd Hn Hm E Hp) by (done || (destruct kind; simpl; lia)). f_equal. unfold release. lia. }
  unfold charged, failures_of in E. unfold failure_count in Hn. rewrite Hn in E. cbn [obind] in E. rewrite Hm in E. cbn [obind] in E.
  apply obind_ok in E as (v & Ev & E). injection E as <-. fold (task_kind kind) in Ev. pose proof (failure_shape _ _ _ _ _ _ _ Ev) as (Df & _).
  destruct kind; cbn [task_kind] in *.
  - intros Hlt. unfold failure_fields in Ev. rewrite (proj2 (Z.leb_gt m (n + 1))) in Ev by lia.
    apply obind_ok in Ev as (c & Ec & Ev). apply obind_ok in Ev as (next & En & Ev). injection Ev as <-. cbn [fv_fields] in *.
    apply get_written; [done|done| |by apply stamp_after_ok in En as (? & -> & _)]. cbn. f_equal.
    set (fields := _ ++ _) in Ec. assert (Dn : dict fields) by (by apply (bool_decide_eq_true (NoDup _))).
    unfold _failure_cooldown_seconds in Ec. rewrite get_merge in Ec by done.
    change (obj_get "failure_count" fields) with (Some (JInt (n + 1))) in Ec. cbv iota in Ec. rewrite int_field in Ec. cbn [obind] in Ec.
    assert (Hi : _frequency_interval_seconds (obj_merge t fields) = _frequency_interval_seconds t).
    { apply alike_interval; unfold reads_alike; by rewrite get_merge by done. }
    rewrite Hi, (proj2 Hp) in Ec. cbn [obind] in Ec. rewrite cooldown_table in Ec by (apply Hp || lia). injection Ec as <-.
    unfold stamp_after in En. rewrite hold_duration in En by (apply Hp || lia). cbn [obind] in En.
    apply obind_ok in En as (x & Ex & En). injection En as <-. by apply moved_ok in Ex as ->.
  - intros c Ec Hlt. unfold failure_fields, infra_fields in Ev. rewrite Ec in Ev. cbn [obind] in Ev.
    rewrite (proj2 (Z.leb_gt _ _) Hlt) in Ev. cbv zeta in Ev. set (expired := match _parse_iso _ with Some _ => _ | None => _ end) in Ev.
    cbn [obind] in Ev. apply obind_ok in Ev as (next & En & Ev). injection Ev as <-. cbn [fv_fields] in *.
    assert (next = JStr (iso (now + 600 * SECOND))) as ->.
    { unfold stamp_after in En. change (duration (fz _FAILURE_BACKOFF_BASE)) with (Ok (600 * SECOND) : outcome Z) in En. cbn [obind] in En.
      apply obind_ok in En as (x & Ex & En). injection En as <-. by apply moved_ok in Ex as ->. }
    split; [|unfold release, SECOND; lia]. apply get_written; [done|done| |done]. by destruct expired.
Qed.

(** ** The infra ceiling *)

Lemma alike_hours t t' : reads_alike "preferred_hours" t t' -> reads_alike "scheduled_at" t t' ->
  _effective_preferred_hours t' = _effective_preferred_hours t.
Proof.
  intros Hp Hs. unfold _effective_preferred_hours.
  replace (or_str (obj_get "scheduled_at" t') []) with (or_str (obj_get "scheduled_at" t) [])
    by (destruct (alike_cases _ _ _ Hs) as [->|[[-> ->]|[-> ->]]]; done).
  destruct (alike_cases _ _ _ Hp) as [->|[[-> ->]|[-> ->]]]; done.
Qed.

(** What one more infra failure inside a period does to the infra account. *)
Lemma infra_step t hour now t' n m P c a : dict t -> failure_count t = Ok n -> max_retries_budget t = Ok m ->
  charged t InfraFailure hour now = Ok t' -> paced t P -> _effective_preferred_hours t = Ok None ->
  _infra_failure_count t = Ok c -> 0 <= c -> _parse_iso (obj_get "last_attempt" t) = Some a -> - 2 ^ 51 < now - a <= P * SECOND ->
  _effective_preferred_hours t' = Ok None /\
  (if _INFRA_CEILING <=? c + 1
   then _infra_failure_count t' = Ok 0 /\ obj_get "infra_rest_until" t' = Some (JStr (iso (now + P * SECOND))) /\
        obj_get "next_run" t' = Some (JStr (iso (now + P * SECOND))) /\ in_range (now + P * SECOND) = true
   else _infra_failure_count t' = Ok (c + 1)).
Proof.
  intros Hd Hn Hm E Hp Hh Hc Hc0 Ha Hgap. pose proof Hp as [HP Hi]. pose proof (cadence_bounds P HP) as B. split.
  { destruct (charged_once _ _ _ _ _ _ _ Hd Hn Hm E) as (_ & _ & _ & _ & _ & _ & Hother).
    rewrite (alike_hours t) by (apply Hother; [set_solver|done]). done. }
  assert (Hw : _infra_ceil_window_seconds t = Ok (fz P)).
  { unfold _infra_ceil_window_seconds. rewrite Hi. cbn [obind]. by rewrite cadence_nonzero. }
  assert (Hnext : _next_infra_failure_count t now = Ok (c + 1)).
  { unfold _next_infra_failure_count. rewrite Ha, Hc, Hw. cbn [obind]. rewrite secs_at_most by (unfold SECOND in *; lia).
    by rewrite (proj2 (Z.leb_le _ _)) by lia. }
  unfold charged, failures_of in E. unfold failure_count in Hn. rewrite Hn in E. cbn [obind] in E. rewrite Hm in E. cbn [obind] in E.
  apply obind_ok in E as (v & Ev & E). injection E as <-. pose proof (failure_shape _ _ _ _ _ _ _ Ev) as (Df & _).
  unfold failure_fields, infra_fields in Ev. rewrite Hnext in Ev. cbn [obind] in Ev. destruct (_INFRA_CEILING <=? c + 1).
  - unfold _infra_rest_seconds in Ev. rewrite Hw, Hh in Ev. cbn [obind] in Ev. unfold stamp_after in Ev at 1.
    rewrite cadence_duration in Ev by done. cbn [obind] in Ev. apply obind_ok in Ev as ([fs rest] & Ei & Ev).
    apply obind_ok in Ei as (until & Eu & Ei). apply obind_ok in Eu as (x & Ex & Eu). injection Eu as <-. injection Ei as <- <-.
    cbn [obind] in Ev. injection Ev as <-. cbn [fv_fields] in *. unfold _infra_failure_count.
    rewrite (get_written "infra_failure_count" _ _ (JInt 0)) by done. unfold moved in Ex. destruct (in_range (now + P * SECOND)) eqn:R; [|done].
    injection Ex as <-. split_and!; [by rewrite int_field|by apply get_written|by apply get_written|done].
  - cbv zeta in Ev. set (expired := match _parse_iso _ with Some _ => _ | None => _ end) in Ev. cbn [obind] in Ev.
    apply obind_ok in Ev as (next & En & Ev). injection Ev as <-. cbn [fv_fields] in *. unfold _infra_failure_count.
    rewrite (get_written "infra_failure_count" _ _ (JInt (c + 1))) by (done || by destruct expired). rewrite int_field. f_equal. lia.
Qed.

(** Failures one after another, each within a period of the one before. *)
Fixpoint close_on (P a : Z) (ws : list Z) : Prop :=
  match ws with [] => True | w :: ws => (in_range w = true /\ - 2 ^ 51 < w - a <= P * SECOND) /\ close_on P w ws end.

(** C33: five outages in a row rest the task, and never retire it. Infra failures of a
    task without hours of its own, each within a period of the one before, count up and
    leave it up next, its failure count and retry budget where they were; the fifth names
    a rest of one whole period from then, zeroes the count, writes the same instant as
    the next run, and until it no scan runs the task, whatever its other fields say. *)
Theorem infra_ceiling_rests t ws hour t' n m P c a w : dict t -> failure_count t = Ok n -> max_retries_budget t = Ok m ->
  charged_all t (map (fun w => (InfraFailure, hour, w)) (ws ++ [w])) = Ok t' ->
  paced t P -> _effective_preferred_hours t = Ok None ->
  _infra_failure_count t = Ok c -> 0 <= c -> _parse_iso (obj_get "last_attempt" t) = Some a -> close_on P a (ws ++ [w]) ->
  c + Z.of_nat (length ws) + 1 <= _INFRA_CEILING ->
  failure_count t' = Ok n /\ max_retries_budget t' = Ok m /\ obj_get "status" t' = Some (JStr "up_next") /\
  if c + Z.of_nat (length ws) + 1 =? _INFRA_CEILING
  then let until := w + P * SECOND in
       _infra_failure_count t' = Ok 0 /\ obj_get "infra_rest_until" t' = Some (JStr (iso until)) /\ obj_get "next_run" t' = Some (JStr (iso until)) /\
       forall S all s catch_up, s < until -> _is_task_due S t' all s catch_up <> Ok true
  else _infra_failure_count t' = Ok (c + Z.of_nat (length ws) + 1).
Proof.
  revert t c a. induction ws as [|w1 ws IH]; intros t c a Hd Hn Hm; cbn [app map charged_all length close_on];
    intros K Hp Hh Hc Hc0 Ha Hclose Hle; apply obind_ok in K as (t1 & E & K).
  - injection K as <-. destruct Hclose as [[Hr Hg] _].
    destruct (charged_once _ _ _ _ _ _ _ Hd Hn Hm E) as (_ & Hn1 & Hm1 & _ & Hst & _). cbn [task_kind] in Hn1. rewrite Z.add_0_r in Hn1.
    split; [done|]. split; [done|]. split; [exact Hst|].
    destruct (infra_step _ _ _ _ _ _ _ _ _ Hd Hn Hm E Hp Hh Hc Hc0 Ha Hg) as [_ S]. change (Z.of_nat 0) with 0 in *. rewrite Z.add_0_r in *.
    destruct (Z.eqb_spec (c + 1) _INFRA_CEILING) as [E5|N].
    + rewrite (proj2 (Z.leb_le _ _)) in S by lia. destruct S as (S1 & S2 & S3 & S4). cbv zeta. split_and!; [done..|].
      intros S' all s catch_up Hs (_ & D & _)%due_passes. unfold _in_infra_rest in D. rewrite S2, plain_stamp in D by done.
      apply Z.ltb_ge in D. lia.
    + rewrite (proj2 (Z.leb_gt _ _)) in S by (unfold _INFRA_CEILING in *; lia). done.
  - destruct Hclose as [[Hr Hg] Hclose].
    destruct (charged_once _ _ _ _ _ _ _ Hd Hn Hm E) as (Hd1 & Hn1 & Hm1 & Hatt & _). cbn [task_kind] in Hn1. rewrite Z.add_0_r in Hn1.
    destruct (infra_step _ _ _ _ _ _ _ _ _ Hd Hn Hm E Hp Hh Hc Hc0 Ha Hg) as [Hh1 S].
    assert (c + 1 < _INFRA_CEILING) as L by lia. rewrite (proj2 (Z.leb_gt _ _)) in S by lia.
    assert (Hatt1 : _parse_iso (obj_get "last_attempt" t1) = Some w1) by (rewrite Hatt; by apply plain_stamp).
    pose proof (charged_paced _ _ _ _ _ _ _ _ Hd Hn Hm E Hp) as Hp1.
    specialize (IH t1 (c + 1) w1 Hd1 Hn1 Hm1 K Hp1 Hh1 S ltac:(lia) Hatt1 Hclose ltac:(lia)).
    replace (c + Z.of_nat (Datatypes.S (length ws)) + 1) with (c + 1 + Z.of_nat (length ws) + 1) by lia. exact IH.
Qed.
End Account.
