(* ===== verification/SweepFacts.v ===== *)
(** * The life of a scheduled task: the sweep, and what a success leaves behind

    [recover_stuck_tasks] frees and re-arms exactly the tasks whose time has come and,
    every id naming its own file, leaves every other file alone; the record a success
    writes holds the task as its stamp would have, whatever becomes of the task file. *)
From Stdlib Require Import String SpecFloat.
From S2P Require Import Prelude PyText Stamps QueueRows QueueOps QueueJournal Regex Policy Grants Spill Microcompact PoolGates PoolRun PoolRunFacts Binary64 PyValues Utf8 Windows DueRules DueFacts DueWaits TaskFiles TaskLife FileFacts LifeFacts.

Local Open Scope Z_scope.

(** ** A duration against a whole number *)

Lemma below_int_full m e z : full m -> 0 < z < 2 ^ 31 -> -1000 <= e <= 0 -> below_int (S754_finite false m e) z = blt (S754_finite false m e) (fz z).
Proof.
  intros Fm Hz He. destruct (fz_full z Hz) as (n & f & -> & Fn & Hf & En).
  assert (V : blt (S754_finite false m e) (S754_finite false n f) = true <-> Zpos m < z * 2 ^ (- e)).
  { rewrite blt_full by done. set (g := Z.min e f).
    assert (Zpos m * 2 ^ (e - g) * 2 ^ (g - e + 1000) = Zpos m * 2 ^ 1000) as A
      by (rewrite <-Z.mul_assoc, <-Z.pow_add_r by lia; do 2 f_equal; lia).
    assert (Zpos n * 2 ^ (f - g) * 2 ^ (g - e + 1000) = z * 2 ^ (- e) * 2 ^ 1000) as B
      by (rewrite En, <-!Z.mul_assoc, <-!Z.pow_add_r by lia; do 2 f_equal; lia).
    assert (0 < 2 ^ (g - e + 1000)) by (apply Z.pow_pos_nonneg; lia). assert (0 < 2 ^ 1000) by (apply Z.pow_pos_nonneg; lia).
    clear - A B H H0. revert A B. generalize (Zpos m * 2 ^ (e - g)) (Zpos n * 2 ^ (f - g)) (z * 2 ^ (- e)) (Zpos m). intros x y b c. nia. }
  unfold below_int. destruct (Z.leb_spec 0 e) as [L|L].
  - assert (e = 0) as -> by lia. change (- 0) with 0 in V. rewrite Z.pow_0_r, Z.mul_1_r in *. apply eq_iff_eq_true. rewrite V. apply Z.ltb_lt.
  - apply eq_iff_eq_true. rewrite V. apply Z.ltb_lt.
Qed.

Lemma secs_below_int d z : - 2 ^ 51 < d < 2 ^ 51 -> 0 < z < 2 ^ 31 -> below_int (secs d) z = (d <? z * SECOND).
Proof.
  intros Hd Hz. rewrite <-(secs_below d z) by done. destruct d as [|p|p].
  - change (secs 0) with (S754_zero false). simpl below_int. rewrite (proj2 (Z.ltb_lt 0 z)) by lia.
    destruct (fz_full z Hz) as (n & f & -> & _). done.
  - destruct (secs_full p ltac:(lia)) as (m & k & -> & Fm & Hk & _). destruct (quotient_digits p ltac:(lia)) as [Hs _].
    apply below_int_full; [done|done|lia].
  - rewrite secs_opp. destruct (secs_full p ltac:(lia)) as (m & k & -> & Fm & Hk & _). destruct (quotient_digits p ltac:(lia)) as [Hs _].
    destruct (fz_full z Hz) as (n & f & -> & _). unfold below_int, SFopp, blt, SFltb, SFcompare. cbn [negb].
    destruct (0 <=? _); apply Z.ltb_lt.
    + pose proof (Z.pow_nonneg 2 (k - (73 - Zpos (digits2_pos p))) ltac:(lia)). nia.
    + pose proof (Z.pow_pos_nonneg 2 (- (k - (73 - Zpos (digits2_pos p)))) ltac:(lia) ltac:(lia)). nia.
Qed.

Section Sweep.
Context `{IsoStamps} `{PyNumbers} `{PyJson} `{PyUnicode} `{FloatText} `{PyZone} `{PyYaml} `{!PlainStamps} `{!NullShown}.

Lemma cadence_rearm P : P ∈ CADENCES -> fmul (fz P) _FAILURE_REARM_PERIODS = fz P.
Proof. each_cadence. Qed.

(** A write of some fields and a line about it. *)
Definition noted (id : json) (fields : task) (note stamp : text) : st vault bool :=
  _ <-s write_fields id fields ;; _ <-s write_note id note stamp ;; sret true.

Definition rearm_fields (P now : Z) : task :=
  [("status", JStr "up_next"); ("failure_count", JInt 0); ("next_run", JStr (iso (now + P * SECOND))); ("updated", JStr (iso now))]%string.
Definition freed_fields (now : Z) : task := [("status", JStr "up_next"); ("updated", JStr (iso now))]%string.

Lemma rearm_decides t P a now stamp v : paced t P -> let id := default JNull (obj_get "id" t) in
  json_true id = true -> _parse_iso (obj_get "last_attempt" t) = Some a -> - 2 ^ 51 < now - a < 2 ^ 51 -> in_range (now + P * SECOND) = true ->
  exists note, _rearm_after_one_period t now stamp v = if now - a <? P * SECOND then (Ok false, v) else noted id (rearm_fields P now) note stamp v.
Proof.
  intros [HP Hi] id Hid Ha Hb Hr. pose proof (cadence_bounds P HP) as B. unfold _rearm_after_one_period. fold id. rewrite Hi.
  unfold sbind at 1, slift at 1. rewrite Hid, (cadence_nonzero P HP), (cadence_rearm P HP), Ha. cbn [negb orb]. cbv zeta.
  rewrite secs_below by lia. destruct (now - a <? P * SECOND); [by exists []|].
  unfold sbind at 1, slift at 1, stamp_after. rewrite cadence_duration by done. cbn [obind]. unfold moved. rewrite Hr. cbn [obind].
  unfold sbind at 1. by eexists.
Qed.

Lemma stuck_decides t now stamp v timeout : strip (str_or_blank_of (obj_get "status" t)) = u "in_progress" ->
  int_of (or_else (obj_get "timeout_seconds" t) (JInt 1800)) = Ok timeout -> 0 < timeout < 2 ^ 31 ->
  match touched t with Some w => - 2 ^ 51 < now - w < 2 ^ 51 | None => True end ->
  exists note, recover_one t now stamp v =
    if match touched t with Some w => w + timeout * SECOND <=? now | None => true end
    then noted (default JNull (obj_get "id" t)) (freed_fields now) note stamp v else (Ok false, v).
Proof.
  intros Hs Ht Hb Hw. unfold recover_one. rewrite Hs, Ht. rewrite bool_decide_eq_false_2, bool_decide_eq_true_2 by done. cbn [negb]. cbv zeta.
  unfold sbind at 1, slift at 1. destruct (touched t) as [w|]; [|by eexists]. rewrite secs_below_int by lia.
  destruct (Z.ltb_spec (now - w) (timeout * SECOND)); cbn [negb]; [rewrite (proj2 (Z.leb_gt _ _)) by lia; by exists []|].
  rewrite (proj2 (Z.leb_le _ _)) by lia. by eexists.
Qed.

Lemma rearmed_cools t P a now s : dict t -> paced t P -> _parse_iso (obj_get "last_attempt" t) = Some a ->
  match _parse_iso (obj_get "last_run" t) with Some run => run < a | None => True end ->
  a + P * SECOND <= s -> s - a < 2 ^ 51 -> _in_failure_cooldown (merged (rearm_fields P now) t) s = Ok false.
Proof.
  intros Hd [HP Hi] Ha Hr Hs Hb. pose proof (cadence_bounds P HP) as B. set (t' := merged (rearm_fields P now) t).
  assert (Df : dict (rearm_fields P now)) by (by apply (bool_decide_eq_true (NoDup _))).
  assert (A : forall k, k ∉ ["status"; "failure_count"; "next_run"; "updated"]%string -> hidden k = false -> reads_alike k t t').
  { intros k Hk Hh. apply written_alike; [done|done| |done]. apply obj_get_none. cbn. done. }
  assert (Hp' : paced t' P) by (split; [done|]; rewrite (alike_interval t) by (apply A; [set_solver|done]); done).
  assert (Hc : int_of (or_else (obj_get "failure_count" t') (JInt 0)) = Ok 0) by (unfold t'; rewrite (get_written _ _ _ (JInt 0)) by done; apply int_field).
  rewrite (cooldown_exact t' P 0 a s Hp' Hc); [|lia|by rewrite (alike_iso _ t) by (apply A; [set_solver|done])| |unfold SECOND in *; lia].
  - f_equal. pose proof (hold_bounds P 1 HP ltac:(lia)). change (Z.max 1 0) with 1. apply Z.ltb_ge. unfold SECOND in *. lia.
  - rewrite (alike_iso "last_run" t) by (apply A; [set_solver|done]). done.
Qed.

(** ** The whole sweep *)

Definition task_status (t : task) : text := strip (str_or_blank_of (obj_get "status" t)).
Definition id_of (t : task) : json := default JNull (obj_get "id" t).
Definition tried_at (t : task) : option Z := _parse_iso (obj_get "last_attempt" t).

(** What one task is due when the sweep comes to it: the fields to write, or nothing. *)
Inductive due_back (t : task) (now : Z) : option task -> Prop :=
  | back_rearmed P a : task_status t = u "failed" -> paced t P -> tried_at t = Some a -> a + P * SECOND <= now ->
      due_back t now (Some (rearm_fields P now))
  | back_resting P : task_status t = u "failed" -> paced t P -> match tried_at t with Some a => now < a + P * SECOND | None => True end ->
      due_back t now None
  | back_aimless : task_status t = u "failed" -> _frequency_interval_seconds t = Ok None -> due_back t now None
  | back_freed timeout : task_status t = u "in_progress" -> int_of (or_else (obj_get "timeout_seconds" t) (JInt 1800)) = Ok timeout ->
      match touched t with Some w => w + timeout * SECOND <= now | None => True end -> due_back t now (Some (freed_fields now))
  | back_running timeout w : task_status t = u "in_progress" -> int_of (or_else (obj_get "timeout_seconds" t) (JInt 1800)) = Ok timeout ->
      touched t = Some w -> now < w + timeout * SECOND -> due_back t now None
  | back_other : task_status t <> u "failed" -> task_status t <> u "in_progress" -> due_back t now None.

(** The task a file of the directory holds, if the sweep reads it. *)
Definition task_in (f : TaskFiles.file) : option task := if is_task_name f.(f_name) then _parse_task_file f else None.

(** A directory swept: each file as it was, or its own task's fields written into it and
    one line put under them; and the ids of the tasks that were recovered. *)
Inductive swept_board (now : Z) (stamp : text) : directory -> directory -> list json -> Prop :=
  | swept_nil : swept_board now stamp [] [] []
  | swept_left f dir dir' ids : match task_in f with Some t => due_back t now None | None => True end ->
      swept_board now stamp dir dir' ids -> swept_board now stamp (f :: dir) (f :: dir') ids
  | swept_back f t fields written note new dir dir' ids : task_in f = Some t -> due_back t now (Some fields) ->
      update_text fields f.(f_text) = Some written -> append_activity_line written note stamp = Ok new ->
      swept_board now stamp dir dir' ids -> swept_board now stamp (f :: dir) (TaskFiles.File f.(f_name) f.(f_path) new :: dir') (id_of t :: ids).

(** Fields the sweep can read: a period of the vocabulary or none, a timeout, dates near
    enough. *)
Definition sensible (now : Z) (t : task) : Prop :=
  (task_status t = u "failed" -> _frequency_interval_seconds t = Ok None \/
     json_true (id_of t) = true /\ exists P, paced t P /\ in_range (now + P * SECOND) = true) /\
  (task_status t = u "in_progress" -> exists timeout, int_of (or_else (obj_get "timeout_seconds" t) (JInt 1800)) = Ok timeout /\ 0 < timeout < 2 ^ 31) /\
  (forall a, tried_at t = Some a \/ touched t = Some a -> - 2 ^ 51 < now - a < 2 ^ 51).

(** Paths are the files' own, and the id a file declares names that file and no other:
    [_find_task_file] goes by the name. *)
Definition well_named (dir : directory) : Prop :=
  NoDup (map f_path dir) /\
  forall f t, f ∈ dir -> task_in f = Some t -> forall g, g ∈ dir -> holds_task (str_of (id_of t)) g = true <-> f_path g = f_path f.

(** What is done about a task, in terms of what is due. *)
Lemma recover_decides t now stamp v : sensible now t ->
  exists d, due_back t now d /\ exists note, recover_one t now stamp v =
    match d with Some fields => noted (id_of t) fields note stamp v | None => (Ok false, v) end.
Proof.
  intros (Hf & Hs & Hb). unfold task_status, id_of in *.
  destruct (decide (strip (str_or_blank_of (obj_get "status" t)) = u "failed")) as [E|N1].
  - unfold recover_one. rewrite bool_decide_eq_true_2 by done. destruct (Hf E) as [Hi|(Hid & P & Hp & Hr)].
    { exists None. split; [by apply back_aimless|exists []]. unfold _rearm_after_one_period. by rewrite Hi. }
    destruct (tried_at t) as [a|] eqn:Ea.
    + destruct (rearm_decides t P a now stamp v Hp Hid Ea (Hb a (or_introl eq_refl)) Hr) as [note ->].
      destruct (Z.ltb_spec (now - a) (P * SECOND)).
      * exists None. split; [apply (back_resting _ _ P); [done..|rewrite Ea; lia]|by exists []].
      * exists (Some (rearm_fields P now)). split; [apply (back_rearmed _ _ P a); (done || lia)|by exists note].
    + exists None. split; [by apply (back_resting _ _ P); [..|rewrite Ea]|exists []].
      unfold _rearm_after_one_period. destruct Hp as [HP Hi]. rewrite Hi. unfold sbind at 1, slift at 1.
      rewrite Hid, (cadence_nonzero P HP). cbn [negb orb]. unfold tried_at in Ea. by rewrite Ea.
  - destruct (decide (strip (str_or_blank_of (obj_get "status" t)) = u "in_progress")) as [E|N2].
    + destruct (Hs E) as (timeout & Ht & Hb'). destruct (stuck_decides t now stamp v timeout E Ht Hb') as [note ->].
      { destruct (touched t) as [w|]; [|done]. apply Hb. by right. }
      destruct (touched t) as [w|] eqn:Ew; [destruct (Z.leb_spec (w + timeout * SECOND) now)|].
      * exists (Some (freed_fields now)). split; [by apply (back_freed _ _ timeout); [..|rewrite Ew]|by exists note].
      * exists None. split; [by apply (back_running _ _ timeout w)|by exists []].
      * exists (Some (freed_fields now)). split; [by apply (back_freed _ _ timeout); [..|rewrite Ew]|by exists note].
    + exists None. split; [by apply back_other|exists []]. unfold recover_one. by rewrite !bool_decide_eq_false_2.
Qed.

(** A write and its line go to the one file that is named. *)
Lemma rewrite_named p g dir f dir' : (forall h, h ∈ dir -> p h = false) -> p f = true ->
  rewrite_first p g (dir ++ f :: dir') = dir ++ TaskFiles.File f.(f_name) f.(f_path) (g f.(f_text)) :: dir'.
Proof.
  intros Hn Hp. induction dir as [|h dir IH]; simpl; [by rewrite Hp|]. rewrite Hn by left. f_equal. apply IH. intros x ?. apply Hn. by right.
Qed.

Lemma append_named p note now_str dir f dir' new : (forall h, h ∈ dir -> p h = false) -> p f = true ->
  append_activity_line f.(f_text) note now_str = Ok new ->
  append_first p note now_str (dir ++ f :: dir') = Ok (dir ++ TaskFiles.File f.(f_name) f.(f_path) new :: dir').
Proof.
  intros Hn Hp E. induction dir as [|h dir IH]; simpl; [by rewrite Hp, E|]. rewrite Hn by left. rewrite IH; [done|]. intros x ?. apply Hn. by right.
Qed.

Lemma noted_named id fields note stamp past f todo runs written : counts_readable ->
  (forall h, h ∈ past -> holds_task (str_of id) h = false) -> holds_task (str_of id) f = true -> update_text fields f.(f_text) = Some written ->
  exists new, append_activity_line written note stamp = Ok new /\
    noted id fields note stamp (Vault (past ++ f :: todo) runs) = (Ok true, Vault (past ++ TaskFiles.File f.(f_name) f.(f_path) new :: todo) runs).
Proof.
  intros Hc Hn Hh Hw. destruct (append_line_ok written note stamp Hc) as [new E]. exists new. split; [done|].
  unfold noted, sbind, write_fields, write_note, with_tasks, _update_task_field, _append_activity_log. cbn [v_tasks v_runs].
  rewrite rewrite_named by done. rewrite Hw. cbn [default].
  by rewrite (append_named _ _ _ _ (TaskFiles.File f.(f_name) f.(f_path) written) _ new).
Qed.

Lemma update_parsed fields f t : task_in f = Some t -> exists written, update_text fields f.(f_text) = Some written.
Proof.
  unfold task_in, _parse_task_file, update_text. destruct (is_task_name _); [|done]. destruct (three_parts _); [|done]. by eexists.
Qed.

(** A file is found again under its own path. *)
Lemma found_at (past : directory) f todo : NoDup (map f_path (past ++ f :: todo)) ->
  head (sel (fun g => bool_decide (g.(f_path) = f.(f_path))) (past ++ f :: todo)) = Some f.
Proof.
  induction past as [|h past IH]; simpl; intros Hd; [by rewrite bool_decide_eq_true_2|].
  apply NoDup_cons in Hd as [Hh Hd]. rewrite bool_decide_eq_false_2; [by apply IH|].
  intros E. apply Hh. rewrite E, map_app. simpl. apply elem_of_app. right. by left.
Qed.
(** Where the loop stands: files behind it, files ahead; the ids ahead name their own. *)
Definition ready (now : Z) (past todo : directory) : Prop :=
  NoDup (map f_path (past ++ todo)) /\
  forall f t, f ∈ todo -> task_in f = Some t -> sensible now t /\
    forall g, g ∈ past ++ todo -> holds_task (str_of (id_of t)) g = true <-> f_path g = f_path f.

Lemma ready_step now past f f' todo : ready now past (f :: todo) -> f_name f' = f_name f -> f_path f' = f_path f -> ready now (past ++ [f']) todo.
Proof.
  intros [Hd Hr] En Ep. split; [revert Hd; rewrite !map_app; simpl; by rewrite Ep, <-app_assoc|].
  intros g t Hg Et. destruct (Hr g t (list_elem_of_further _ _ _ Hg) Et) as [S Hi]. split; [done|]. intros h. rewrite <-app_assoc. simpl.
  intros [Hh|[->|Hh]%elem_of_cons]%elem_of_app; [apply Hi, elem_of_app; by left| |apply Hi, elem_of_app; right; by right].
  unfold holds_task. rewrite En, Ep. apply (Hi f), elem_of_app. right. by left.
Qed.

Lemma ready_here now past f todo t : ready now past (f :: todo) -> task_in f = Some t ->
  sensible now t /\ (forall h, h ∈ past -> holds_task (str_of (id_of t)) h = false) /\ holds_task (str_of (id_of t)) f = true.
Proof.
  intros [Hd Hr] Et. destruct (Hr f t ltac:(left) Et) as [S Hi]. split; [done|]. split; [|apply Hi; [apply elem_of_app; right; by left|done]].
  intros h Hh. apply not_true_is_false. intros K. apply Hi in K; [|apply elem_of_app; by left].
  rewrite map_app in Hd. apply NoDup_app in Hd as (_ & Hd & _). apply (Hd (f_path h)); [by apply list_elem_of_fmap_2|]. rewrite K. by left.
Qed.

(** The loop reads file by file, and what it writes it writes into the file it is at. *)
Lemma recover_each_sweeps now stamp runs todo : counts_readable -> forall past, ready now past todo ->
  exists ids todo', recover_each (map f_path (sel (fun f => is_task_name f.(f_name)) todo)) now stamp (Vault (past ++ todo) runs)
    = (Ok ids, Vault (past ++ todo') runs) /\ swept_board now stamp todo todo' ids.
Proof.
  intros Hc. induction todo as [|f todo IH]; intros past Hr; [exists [], []; split; [done|constructor]|].
  destruct (IH (past ++ [f]) (ready_step _ _ f f _ Hr eq_refl eq_refl)) as (ids & todo' & E & W). rewrite <-!app_assoc in E. simpl in E.
  cbn [sel]. destruct (is_task_name (f_name f)) eqn:En; [|exists ids, (f :: todo'); split; [exact E|apply swept_left; [unfold task_in; by rewrite En|done]]].
  cbn [map recover_each]. unfold sbind at 1. cbn [v_tasks]. rewrite found_at by apply Hr. cbn [mbind option_bind].
  assert (T : task_in f = _parse_task_file f) by (unfold task_in; by rewrite En). rewrite <-T.
  destruct (task_in f) as [t|] eqn:Et; cycle 1.
  { exists ids, (f :: todo'). split; [|apply swept_left; [by rewrite Et|done]]. unfold sbind, sret. by rewrite E. }
  destruct (ready_here _ _ _ _ _ Hr Et) as (Hs & Hn & Hh). destruct (recover_decides t now stamp (Vault (past ++ f :: todo) runs) Hs) as ([fields|] & Hb & note & Eo).
  - destruct (update_parsed fields f t Et) as [written Hw]. destruct (noted_named (id_of t) fields note stamp past f todo runs written Hc Hn Hh Hw) as (new & Ea & Ew).
    clear E W ids todo'. set (f' := TaskFiles.File (f_name f) (f_path f) new) in *.
    destruct (IH (past ++ [f']) (ready_step _ _ f f' _ Hr eq_refl eq_refl)) as (ids & todo' & E & W). rewrite <-!app_assoc in E. simpl in E.
    exists (id_of t :: ids), (f' :: todo'). split; [|by eapply swept_back]. unfold sbind, sret. by rewrite Eo, Ew, E.
  - exists ids, (f :: todo'). split; [|apply swept_left; [by rewrite Et|done]]. unfold sbind, sret. by rewrite Eo, E.
Qed.

(** C34: the sweep recovers exactly what is due, the whole directory over. Where every
    task's fields can be read and every declared id names its own file and no other - the
    writes find their file by the id - the sweep runs to its end and answers the ids of
    the tasks it recovered, in the order of the files: a task retired by failures once a
    whole period has passed since its last attempt, and not a moment before; a task in
    progress once its timeout has passed since its file was last written. Into the file
    of each go its own fields and one line of its log; every other file, and every run
    record, is as it was - a person's pause or draft above all. A task brought back is up
    next with its count at nothing and a next run named, and no cooldown holds it. *)
Theorem sweep_recovers_exactly v now stamp : counts_readable -> well_named v.(v_tasks) ->
  (forall f t, f ∈ v.(v_tasks) -> task_in f = Some t -> sensible now t) ->
  (exists ids dir', recover_stuck_tasks now stamp v = (Ok ids, Vault dir' v.(v_runs)) /\ swept_board now stamp v.(v_tasks) dir' ids) /\
  (forall t P a, dict t -> paced t P -> tried_at t = Some a -> a + P * SECOND <= now -> let t' := merged (rearm_fields P now) t in
     obj_get "status" t' = Some (JStr "up_next") /\ failure_count t' = Ok 0 /\ obj_get "next_run" t' = Some (JStr (iso (now + P * SECOND))) /\
     (match _parse_iso (obj_get "last_run" t) with Some run => run < a | None => True end ->
      forall s, now <= s -> s - a < 2 ^ 51 -> _in_failure_cooldown t' s = Ok false)).
Proof.
  intros Hc [Hd Hw] Hs. split.
  - destruct v as [dir runs]. cbn [v_tasks v_runs] in *. apply (recover_each_sweeps now stamp runs dir Hc []).
    split; [done|]. intros f t Hf Et. split; [by apply (Hs f)|by apply Hw].
  - intros t P a Hdt Hp Ha Hdue t'. assert (Df : dict (rearm_fields P now)) by (by apply (bool_decide_eq_true (NoDup _))). split_and!.
    + by apply get_written.
    + unfold failure_count, t'. rewrite (get_written _ _ _ (JInt 0)) by done. apply int_field.
    + by apply get_written.
    + intros Hrun s Hs' Hb'. apply (rearmed_cools t P a now s Hdt Hp Ha Hrun); lia.
Qed.
End Sweep.

(** ** The record of a success *)

Section Record.
Context `{IsoStamps} `{PyNumbers} `{PyJson} `{PyUnicode} `{FloatText} `{PyZone} `{PyYaml} `{!PlainStamps} `{!NullShown}.

(** What [yaml] owes a record, as it does a task file. *)
Definition dumped_record (fm : list (string * json)) : Prop :=
  (exists fm', yaml_load (yaml_ascii fm) = Some (JObj fm') /\ forall k, obj_get k fm' = obj_get k fm) /\
  find FRONT_MATTER (yaml_ascii fm) = None /\ list.last (yaml_ascii fm) = Some 10%N.

Lemma second_part_fenced d rest : find FRONT_MATTER d = None -> list.last d = Some 10%N ->
  second_part (FRONT_MATTER ++ d ++ FRONT_MATTER ++ rest) = Some d.
Proof.
  intros F L. unfold second_part. change (find FRONT_MATTER (FRONT_MATTER ++ _)) with (Some 0%nat). cbv iota beta.
  change (drop (0 + 4) (FRONT_MATTER ++ d ++ FRONT_MATTER ++ rest)) with (d ++ FRONT_MATTER ++ rest). cbv zeta.
  rewrite find_fence by auto. by rewrite take_app_length.
Qed.

Lemma defaults_keep (ds fm : list (string * json)) k v : obj_get k fm = Some v ->
  obj_get k (fold_left (fun fm p => if bool_decide (is_Some (obj_get p.1 fm)) then fm else obj_put p.1 p.2 fm) ds fm) = Some v.
Proof.
  revert fm. induction ds as [|[k0 v0] ds IH]; intros fm E; simpl; [done|]. apply IH. case_bool_decide as B; [done|].
  rewrite obj_get_put. destruct (String.eqb_spec k k0) as [->|]; [|done]. destruct B. by eexists.
Qed.

(** A record's own keys, whatever else is handed to it. *)
Lemma record_key a status completed duration summary extra k v :
  dict extra -> k ∉ map fst extra ->
  obj_get k [("run_id", jtext a.(at_run)); ("task_id", a.(at_id)); ("status", jtext status); ("started_at", JStr a.(at_started_at));
             ("completed_at", JStr completed)]%string = Some v ->
  obj_get k (record_fields a status completed duration summary extra) = Some v.
Proof.
  intros Hd Hk E. unfold record_fields. cbv zeta. apply defaults_keep. rewrite get_merge by (by apply dict_sel).
  assert (obj_get k (sel not_null extra) = None) as ->.
  { apply obj_get_none. intros (p & -> & [Hp _]%elem_of_sel)%list_elem_of_fmap. apply Hk, list_elem_of_fmap. by exists p. }
  revert E. simpl. repeat (case_match; [done|]). done.
Qed.

(** The record a success leaves, read as the run-record gate reads it. *)
Lemma record_reads S a completed duration summary body extra :
  dict extra -> (forall k, k ∈ ["run_id"; "status"; "completed_at"]%string -> k ∉ map fst extra) ->
  let fm := record_fields a RUN_STATUS_SUCCESS (iso completed) duration summary extra in
  dumped_record fm -> S.(sh_yaml) = yaml_load -> in_range completed = true ->
  exists rid, read_record S (a.(at_run), Some (FRONT_MATTER ++ yaml_ascii fm ++ FRONT_MATTER ++ nl ++ body)) = Some (RUN_STATUS_SUCCESS, completed, rid).
Proof.
  intros Hd Hk fm ((fm' & El & Hg) & F & L) Hy Hr. unfold read_record. cbn [snd fst mbind option_bind].
  rewrite second_part_fenced by done. cbn [mbind option_bind]. rewrite Hy, El. cbn [mbind option_bind]. rewrite !Hg.
  assert (K : forall k v, k ∈ ["run_id"; "status"; "completed_at"]%string ->
    obj_get k [("run_id", jtext a.(at_run)); ("task_id", a.(at_id)); ("status", jtext RUN_STATUS_SUCCESS); ("started_at", JStr a.(at_started_at));
             ("completed_at", JStr (iso completed))]%string = Some v -> obj_get k fm = Some v) by (intros; apply record_key; auto).
  rewrite (K "status"%string (JStr "success")) by (done || set_solver). rewrite (K "completed_at"%string (JStr (iso completed))) by (done || set_solver).
  rewrite plain_stamp by done. cbn [mbind option_bind]. eexists. do 3 f_equal.
Qed.

(** Writing the record comes first, and nothing after it takes it back. *)
Lemma success_recorded t a completed duration summary body extra note v o v' :
  record_success t a completed duration summary body extra note v = (o, v') -> a.(at_lands) = true ->
  v'.(v_runs) = (with_record (str_of a.(at_id)) a.(at_run)
    (FRONT_MATTER ++ yaml_ascii (record_fields a RUN_STATUS_SUCCESS (iso completed) duration summary extra) ++ FRONT_MATTER ++ nl ++ body) v).(v_runs).
Proof.
  intros E L. unfold record_success, sbind at 1, _write_run_record in E. rewrite L in E. set (v1 := with_record _ _ _ v) in *.
  unfold sbind, slift, write_fields, write_note in E. destruct (success_fields t completed); [|by injection E as _ <-].
  destruct (_append_activity_log _ _ _ _); by injection E as _ <-.
Qed.

Lemma put_record_in stem content rs : (stem, content) ∈ put_record stem content rs.
Proof. induction rs as [|[s c] rs IH]; simpl; [by left|]. case_bool_decide as B; [subst; by left|by right]. Qed.

(** C35: a success, once recorded, holds its task whatever becomes of the task file. Let a
    run succeed and its record land; then let the completion stamp be reverted, the file
    be rewritten in any way, even the very write after the record fail. As long as the
    record is on disk and the file still declares its id and a period, no scan runs the
    task again before the instant the elapsed gate would have named from the lost stamp:
    a whole period after the success where the task has no hours, and with hours - which
    may move it forward within the period - never before half of one. *)
Theorem success_outlives_its_stamp t a completed duration summary body extra note v o v' S t2 all now catch_up P id files :
  record_success t a completed duration summary body extra note v = (o, v') ->
  a.(at_lands) = true -> in_range completed = true ->
  dict extra -> (forall k, k ∈ ["run_id"; "status"; "completed_at"]%string -> k ∉ map fst extra) ->
  dumped_record (record_fields a RUN_STATUS_SUCCESS (iso completed) duration summary extra) ->
  S.(sh_yaml) = yaml_load -> S.(sh_runs) (str_of a.(at_id)) = Some files ->
  (forall stem content, (stem, content) ∈ default [] (v'.(v_runs) !! str_of a.(at_id)) -> (stem, Some content) ∈ files) ->
  paced t2 P -> obj_get "id" t2 = Some id -> id <> JNull -> str_of id = str_of a.(at_id) -> named_records S t2 ->
  _is_task_due S t2 all now catch_up = Ok true ->
  (forall due, _elapsed_due_at t2 completed = Ok (Some due) -> due <= now) /\
  (_effective_preferred_hours t2 = Ok None -> completed + P * SECOND <= now) /\
  completed + P / 2 * SECOND <= now.
Proof.
  intros E L Hr Hd Hk Hdump Hy Hf Hkeep Hp Hid Hnull Hsame Hnamed. apply success_recorded in E; [|done].
  destruct (record_reads S a completed duration summary body extra Hd Hk Hdump Hy Hr) as [rid Er].
  intros D. cut (let_go t2 P completed now); [intros (L1 & L2 & L3); by split_and!|]. revert D.
  apply (recorded_holds S t2 all now catch_up P completed Hp Hnamed).
  exists id, files. eexists _, rid. split_and!; [done|done|by rewrite Hsame| |exact Er].
  apply Hkeep. rewrite E. unfold with_record. cbn [v_runs]. rewrite lookup_insert_eq. apply put_record_in.
Qed.
End Record.
