(* ===== verification/Evidence.v ===== *)
(** * Evidence claims

    [workers/evidence.py]: a run closes with claims about the disk, each with a check a
    program can run; the pool runs the checks when it writes the run's record, and what
    did not verify goes into the prompt of the task's next run ([_evidence_prompt] of
    [app/autonomy.py]). *)
From Stdlib Require Import String.
From S2P Require Import Prelude PyText Stamps QueueRows QueueOps QueueJournal Regex Policy Microcompact PoolGates PoolRun PyValues.

Local Open Scope Z_scope.

(** ** Grading: a check answers, or something in it raises *)

(** [re.error] and [OSError] carry their text; anything else leaves the verifier. *)
Inductive fault := ReError (why : text) | OsError (why : text) | Escapes (e : exn).
Definition grading (A : Type) : Type := (fault + A)%type.
Definition gbind {A B} (m : grading A) (k : A -> grading B) : grading B :=
  match m with inl f => inl f | inr a => k a end.
Notation "x <-g m ;; k" := (gbind m (fun x => k)) (at level 100, m at next level, right associativity) : lloyd_scope.

Definition of_outcome {A} (o : outcome A) : grading A := match o with Ok a => inr a | Raise e => inl (Escapes e) end.

(** ** The disk as the checks see it *)

(** What is at a resolved path: the bytes of a file and the error of a read that is
    denied; an entry that cannot be looked at at all. *)
Inductive node := Absent | File (bytes : list N) (denied : option text) | Directory | Special | Hidden (why : text).

(** [Path.resolve]: the names on the way from [/], an [OSError], or another exception. *)
Inductive real := Real (parts : list text) | RealError (why : text) | RealRaises (e : exn).

Record view := View {
  v_root : text;                                         (** the data root *)
  v_expand : text -> outcome text;                       (** [expanduser] *)
  v_real : text -> real;
  v_stat : list text -> node;
  v_glob : list text -> text -> grading (list (list text))
}.

Definition path_text (p : list text) : text := u "/" ++ join (u "/") p.

(** [exists], [is_dir] and [is_file] raise where the entry may not be looked at. *)
Definition looked_at (V : view) (p : list text) (f : node -> bool) : grading bool :=
  match V.(v_stat) p with Hidden why => inl (OsError why) | n => inr (f n) end.
Definition exists_ (V : view) (p : list text) : grading bool := looked_at V p (fun n => match n with Absent => false | _ => true end).
Definition is_dir (V : view) (p : list text) : grading bool := looked_at V p (fun n => match n with Directory => true | _ => false end).
Definition is_file (V : view) (p : list text) : grading bool := looked_at V p (fun n => match n with File _ _ => true | _ => false end).

(** *** Decoding with [errors="replace"]: each ill-formed piece is one U+FFFD, the piece
    being the longest that could still have begun a character. *)
Definition REPLACEMENT : N := 65533.
Definition within (lo hi b : N) : bool := ((lo <=? b) && (b <=? hi))%N.

(** How many bytes follow a lead byte, and the bounds of the first of them. *)
Definition lead (b : N) : option (nat * N * N) :=
  if within 194 223 b then Some (1%nat, 128, 191)%N
  else if (b =? 224)%N then Some (2%nat, 160, 191)%N
  else if (b =? 237)%N then Some (2%nat, 128, 159)%N
  else if within 225 239 b then Some (2%nat, 128, 191)%N
  else if (b =? 240)%N then Some (3%nat, 144, 191)%N
  else if within 241 243 b then Some (3%nat, 128, 191)%N
  else if (b =? 244)%N then Some (3%nat, 128, 143)%N
  else None.

Definition lead_bits (n : nat) (b : N) : N :=
  match n with 1%nat => b - 192 | 2%nat => b - 224 | _ => b - 240 end%N.

(** [todo] bytes to come after those in [acc], the next within [lo] and [hi]. *)
Fixpoint decode_from (todo : nat) (lo hi acc : N) (bs : list N) : text :=
  match bs with
  | [] => match todo with O => [] | S _ => [REPLACEMENT] end
  | b :: bs =>
      let fresh :=
        if (b <? 128)%N then b :: decode_from 0 0 0 0 bs
        else match lead b with
             | Some (n, lo, hi) => decode_from n lo hi (lead_bits n b) bs
             | None => REPLACEMENT :: decode_from 0 0 0 0 bs
             end in
      match todo with
      | O => fresh
      | S todo =>
          if within lo hi b then
            let acc := (acc * 64 + (b - 128))%N in
            match todo with O => acc :: decode_from 0 0 0 0 bs | _ => decode_from todo 128 191 acc bs end
          else REPLACEMENT :: fresh
      end
  end.
Definition decode_replace (bs : list N) : text := decode_from 0 0 0 0 bs.

Example decode_plain : decode_replace [97; 226; 128; 148; 98]%N = u "a—b".
Proof. reflexivity. Qed.
Example decode_broken : decode_replace [97; 226; 128; 98; 255; 237; 160; 128]%N = [97; 65533; 98; 65533; 65533; 65533; 65533]%N.
Proof. reflexivity. Qed.

(** ** What the checks take from the standard library *)

(** Whether a pattern compiles; whether it is found in a line; how many matches it has
    in a text, [^] and [$] at its lines; what [json.loads] says of text it rejects. *)
Class CheckTools := {
  re_error : text -> option text;
  re_found : text -> text -> bool;
  re_hits : text -> text -> nat;
  json_error : text -> text
}.

(** ** Constants *)

Definition CHECK_KINDS : list text := [u "file_exists"; u "count_eq"; u "json_key"; u "regex"].
Definition COUNT_MEASURES : list text := [u "files"; u "bytes"; u "lines"; u "matches"].
Definition RUN_RECORDS_DIR : text := u "autonomy-runs".
Definition RUN_RECORDS_CLOSED_GLOB : text := u "run_*.md".
Definition MAX_GAP_ITEMS : nat := 12.
Definition MAX_GAP_CHARS : Z := 400.
Definition MAX_CHECK_BYTES : Z := 8000000.
Definition MAX_BUNDLE_CLAIMS : nat := 20.
Definition _OVERSIZED_REPAIR_VALUE : text := u "bind a smaller artefact carrying the same numbers".
Definition _OVERSIZED_REPAIR_COUNT : text := u "bind a smaller artefact carrying the same count".
Definition _OVERSIZED_REPAIR_TEXT : text := u "bind a smaller artefact holding the text claimed about".

(** ** Claims out of a final response ([parse_claims_block]) *)

Definition FENCE : text := u "```".
Definition blank_char : re := Chr (fun c => (c =? 32) || (c =? 9))%N.
Definition lit (s : text) : re := foldr (fun c r => Seq (Chr (N.eqb c)) r) Eps s.

(** The opening of a block: the fence, the tag in any case, the end of the line. *)
Definition block_head : re :=
  Seq (lit FENCE) (Seq (Star blank_char) (Seq (iword (u "evidence"))
    (Seq (Star blank_char) (Seq (opt (lit [13%N])) (lit nl))))).

(** [_BLOCK.finditer]: the group of each match. A match is an opening and the text up to
    the next fence; the search goes on behind it. *)
Fixpoint blocks_from `{PyUnicode} (fuel : nat) (s : text) : list text :=
  match fuel with
  | O => []
  | S fuel =>
      let skip := match s with [] => [] | _ :: s => blocks_from fuel s end in
      match match_at block_head None s with
      | Some (_, body) =>
          match find FENCE body with
          | Some i => take i body :: blocks_from fuel (drop (i + 3) body)
          | None => skip
          end
      | None => skip
      end
  end.
Definition blocks `{PyUnicode} (s : text) : list text := blocks_from (S (length s)) s.

Definition _malformed (raw : text) : list (string * json) :=
  [("claim", JStr (encode (u "(claims block could not be parsed) " ++ upto raw 120)));
   ("check", JObj [("kind", JStr "malformed")])]%string.

Definition dicts (l : list json) : list (list (string * json)) :=
  omap (fun v => match v with JObj fs => Some fs | _ => None end) l.

Section Parsing.
Context `{PyUnicode} `{PyJson}.

(** The claims of one block. *)
Definition block_claims (body : text) : list (list (string * json)) :=
  let raw := strip body in
  match parse_json raw with
  | None => [_malformed raw]
  | Some data =>
      let items := match data with JObj fs => default JNull (obj_get "claims" fs) | v => v end in
      match items with
      | JObj fs => [fs]
      | JList ((_ :: _) as l) => dicts l
      | _ => [_malformed raw]
      end
  end.

Definition parse_claims_block (t : text) : list (list (string * json)) :=
  take MAX_BUNDLE_CLAIMS (concat (map block_claims (blocks t))).
End Parsing.

(** ** Verdicts *)

Inductive claim_status := Verified | Refuted | Insufficient.
#[export] Instance claim_status_eq_dec : EqDecision claim_status.
Proof. solve_decision. Defined.

Definition claim_status_text (s : claim_status) : string :=
  match s with Verified => "verified" | Refuted => "refuted" | Insufficient => "insufficient" end.

Record finding := Finding { f_status : claim_status; f_observed : json; f_detail : text }.
Definition insufficient (why : text) : finding := Finding Insufficient JNull why.

Section Checks.
Context `{PyNumbers} `{PyFloat} `{PyJson} `{CheckTools}.
Variable V : view.

(** [_resolve]: the path the check is about, or why there is none. *)
Definition _resolve (path_value : option json) : grading (text + list text) :=
  match path_value with
  | Some (JStr s) =>
      if negb (nonnil (strip (utf8 s))) then inr (inl (u "check has no path"))
      else
        path <-g of_outcome (V.(v_expand) (utf8 s)) ;;
        let candidate := if startswith (u "/") path then path else V.(v_root) ++ u "/" ++ path in
        match V.(v_real) candidate with
        | RealError why => inr (inl (u "path could not be resolved: " ++ why))
        | RealRaises e => inl (Escapes e)
        | Real target =>
            match V.(v_real) V.(v_root) with
            | RealError why => inr (inl (u "path could not be resolved: " ++ why))
            | RealRaises e => inl (Escapes e)
            | Real base =>
                if bool_decide (base `prefix_of` target) then inr (inr target)
                else inr (inl (u "path escapes the evidence root " ++ path_text base))
            end
        end
  | _ => inr (inl (u "check has no path"))
  end.

(** [l[:n]] of a file's bytes. *)
Fixpoint take_bytes (n : Z) (bs : list N) : list N :=
  match bs with [] => [] | b :: bs => if n <=? 0 then [] else b :: take_bytes (n - 1) bs end.

Definition _read_text (target : list text) : grading text :=
  match V.(v_stat) target with
  | File bytes None => inr (decode_replace (take_bytes MAX_CHECK_BYTES bytes))
  | File _ (Some why) | Hidden why => inl (OsError why)
  | Absent => inl (OsError (u "No such file or directory"))
  | Directory => inl (OsError (u "Is a directory"))
  | Special => inl (OsError (u "not a regular file"))
  end.

Definition file_size (target : list text) : option Z :=
  match V.(v_stat) target with File bytes _ => Some (Z.of_nat (length bytes)) | _ => None end.

(** The verdict for a body past the cap. *)
Definition _oversized_body (target : list text) (check_name repair : text) : option finding :=
  match file_size target with
  | Some size =>
      if size <=? MAX_CHECK_BYTES then None
      else Some (insufficient (repair ++ u " — " ++ path_text target ++ u " is " ++ show_commas size ++ u " bytes, over the "
                   ++ show_commas MAX_CHECK_BYTES ++ u "-byte body-read cap, so the " ++ check_name
                   ++ u " check could not read the file it was pointed at"))
  | None => None
  end.

Definition _directory_target (target : list text) (check_name : text) : finding :=
  insufficient (path_text target ++ u " is a directory, not a file — the " ++ check_name
                  ++ u " check never ran, so bind the file inside it").

(** ** [_check_file_exists] *)

Definition wants (v : json) : bool :=
  match v with
  | JStr s => negb (bool_decide (lower (strip (utf8 s)) ∈ [u "false"; u "0"; u "no"; u "absent"]))
  | _ => json_true v
  end.

Definition bool_text (b : bool) : text := if b then u "True" else u "False".

Definition _check_file_exists (check : list (string * json)) : grading finding :=
  found <-g _resolve (obj_get "path" check) ;;
  match found with
  | inl err => inr (insufficient err)
  | inr target =>
      let want := wants (default (JBool true) (obj_get "expected" check)) in
      present <-g exists_ V target ;;
      if Bool.eqb present want then inr (Finding Verified (JBool present) [])
      else inr (Finding Refuted (JBool present)
                  (u "claimed exists=" ++ bool_text want ++ u ", disk says exists=" ++ bool_text present
                     ++ u " (" ++ path_text target ++ u ")"))
  end.

(** ** [_check_count_eq] *)

Definition _whole_run_record_corpus (target : list text) (pattern : text) : bool :=
  contains (u "/") pattern
  && match V.(v_real) V.(v_root) with Real base => bool_decide (target = base ++ [RUN_RECORDS_DIR]) | _ => false end.

Definition is_number (v : json) : bool := match v with JInt _ | JFloat _ => true | _ => false end.

Fixpoint count_files (ps : list (list text)) : grading Z :=
  match ps with
  | [] => inr 0
  | p :: ps => here <-g is_file V p ;; rest <-g count_files ps ;; inr ((if (here : bool) then 1 else 0) + rest)
  end.

(** [sum(1 for ln in lines if re.search(pattern, ln))]: the pattern is compiled at the
    first line, and one that is no string is no pattern. *)
Definition count_lines (pattern : option json) (lines : list text) : grading Z :=
  match pattern with
  | Some p =>
      if json_true p then
        match lines, p with
        | [], _ => inr 0
        | _, JStr s =>
            match re_error (utf8 s) with
            | Some why => inl (ReError why)
            | None => inr (Z.of_nat (length (sel (re_found (utf8 s)) lines)))
            end
        | _, _ => inl (Escapes TypeError)
        end
      else inr (Z.of_nat (length lines))
  | None => inr (Z.of_nat (length lines))
  end.

(** [len(re.findall(pattern, text, re.MULTILINE))]. *)
Definition findall_count (pattern t : text) : grading Z :=
  match re_error pattern with Some why => inl (ReError why) | None => inr (Z.of_nat (re_hits pattern t)) end.

(** What the disk says the count is, or the verdict that spares the comparison. *)
Definition observe_count (check : list (string * json)) (measure : text) (target : list text) : grading (finding + Z) :=
  if bool_decide (measure = u "files") then
    there <-g is_dir V target ;;
    if negb there then inr (inl (Finding Refuted (JInt 0) (path_text target ++ u " is not a directory")))
    else
      let pattern := or_str (obj_get "glob" check) (u "*") in
      if _whole_run_record_corpus target pattern then
        inr (inl (insufficient (u "bind the closed set instead — path '" ++ RUN_RECORDS_DIR ++ u "/<task_id>' with glob '"
                    ++ RUN_RECORDS_CLOSED_GLOB ++ u "' (no directory separator), or a dated run id. A count over every run record ("
                    ++ py_repr (JStr (encode pattern)) ++ u " under " ++ path_text target
                    ++ u ") cannot be settled by this check: this run's own record is in that corpus before its claims are graded.")))
      else ps <-g V.(v_glob) target pattern ;; n <-g count_files ps ;; inr (inr n)
  else
    dir <-g is_dir V target ;;
    if (dir : bool) then inr (inl (_directory_target target (u "count_eq measure=" ++ measure)))
    else
      file <-g is_file V target ;;
      if negb file then inr (inl (Finding Refuted (JInt 0) (path_text target ++ u " does not exist")))
      else if bool_decide (measure = u "bytes") then inr (inr (default 0 (file_size target)))
      else
        match _oversized_body target (u "count_eq measure=" ++ measure) _OVERSIZED_REPAIR_COUNT with
        | Some capped => inr (inl capped)
        | None =>
            t <-g _read_text target ;;
            if bool_decide (measure = u "lines") then n <-g count_lines (obj_get "pattern" check) (splitlines t) ;; inr (inr n)
            else
              match obj_get "pattern" check with
              | Some (JStr ((String.String _ _) as p)) => n <-g findall_count (utf8 p) t ;; inr (inr n)
              | _ => inr (inl (insufficient (u "matches needs a `pattern`")))
              end
        end.

(** [abs(float(observed) - float(expected)) <= float(tolerance)]. *)
Definition close_to (observed : Z) (expected tolerance : json) : outcome bool :=
  o <-? float_of (JInt observed) ;;
  e <-? float_of expected ;;
  t <-? float_of tolerance ;;
  Ok (fle (fsub o e) t && fle (fsub e o) t).

Definition tolerance_of (check : list (string * json)) : json :=
  match obj_get "tolerance" check with Some v => if json_true v then v else JInt 0 | None => JInt 0 end.

Definition _check_count_eq (check : list (string * json)) : grading finding :=
  found <-g _resolve (obj_get "path" check) ;;
  match found with
  | inl err => inr (insufficient err)
  | inr target =>
      let measure := or_str (obj_get "measure" check) (u "files") in
      if negb (bool_decide (measure ∈ COUNT_MEASURES)) then
        inr (insufficient (u "unknown count measure " ++ py_repr (JStr (encode measure))
                             ++ u " (expected one of ['files', 'bytes', 'lines', 'matches'])"))
      else
        let expected := default JNull (obj_get "expected" check) in
        if negb (is_number expected) then inr (insufficient (u "count_eq needs a numeric `expected`"))
        else
          seen <-g observe_count check measure target ;;
          match seen with
          | inl settled => inr settled
          | inr observed =>
              match close_to observed expected (tolerance_of check) with
              | Ok true => inr (Finding Verified (JInt observed) [])
              | Ok false =>
                  inr (Finding Refuted (JInt observed)
                         (u "claimed " ++ measure ++ u "=" ++ str_of expected ++ u ", disk says " ++ show observed
                            ++ u " (" ++ path_text target ++ u ")"))
              | Raise (TypeError | ValueError) => inr (insufficient (u "expected/tolerance are not numeric"))
              | Raise e => inl (Escapes e)
              end
          end
  end.

(** ** [_check_json_key] *)

(** [a == b] of two parsed values: booleans are integers, a float is compared exactly,
    lists by place and dicts by key. *)
Definition int_value (v : json) : option Z := match v with JInt z => Some z | JBool b => Some (Z.b2z b) | _ => None end.
Definition num_eq (a b : json) : bool :=
  match int_value a, int_value b with
  | Some x, Some y => x =? y
  | Some x, None => match b with JFloat r => bool_decide (float_cmp r x = Some Eq) | _ => false end
  | None, Some y => match a with JFloat r => bool_decide (float_cmp r y = Some Eq) | _ => false end
  | None, None =>
      match a, b with
      | JFloat _, JFloat _ => match float_of a, float_of b with Ok x, Ok y => fle x y && fle y x | _, _ => false end
      | _, _ => false
      end
  end.

Fixpoint py_eq (a b : json) : bool :=
  match a, b with
  | JNull, JNull => true
  | JStr s, JStr t => String.eqb s t
  | JList l, JList m =>
      (fix go (l m : list json) : bool :=
         match l, m with
         | [], [] => true
         | x :: l, y :: m => py_eq x y && go l m
         | _, _ => false
         end) l m
  | JObj fs, JObj gs =>
      (length fs =? length gs)%nat
      && (fix go (fs : list (string * json)) : bool :=
            match fs with
            | [] => true
            | (k, v) :: fs => match obj_get k gs with Some w => py_eq v w && go fs | None => false end
            end) fs
  | _, _ => num_eq a b
  end.

(** [cur[i]] of a list: a negative index counts from the end. *)
Definition list_index (l : list json) (i : Z) : option json :=
  let n := Z.of_nat (length l) in
  if (0 <=? i) && (i <? n) then l !! Z.to_nat i
  else if (i <? 0) && (0 <=? n + i) then l !! Z.to_nat (n + i)
  else None.

Fixpoint dig_parts (cur : json) (parts : list text) : grading (option json) :=
  match parts with
  | [] => inr (Some cur)
  | part :: parts =>
      match cur with
      | JObj fs => match obj_get (encode part) fs with Some v => dig_parts v parts | None => inr None end
      | JList l =>
          match int_of (JStr (encode part)) with
          | Ok i => match list_index l i with Some v => dig_parts v parts | None => inr None end
          | Raise ValueError => inr None
          | Raise e => inl (Escapes e)
          end
      | _ => inr None
      end
  end.
Definition _dig (obj : json) (key : text) : grading (option json) := dig_parts obj (split_char 46 [] key).

Definition _check_json_key (check : list (string * json)) : grading finding :=
  found <-g _resolve (obj_get "path" check) ;;
  match found with
  | inl err => inr (insufficient err)
  | inr target =>
      match obj_get "key" check with
      | Some (JStr ((String.String _ _) as key)) =>
          dir <-g is_dir V target ;;
          if (dir : bool) then inr (_directory_target target (u "json_key"))
          else
            file <-g is_file V target ;;
            if negb file then inr (Finding Refuted JNull (path_text target ++ u " does not exist"))
            else
              match _oversized_body target (u "json_key") _OVERSIZED_REPAIR_VALUE with
              | Some capped => inr capped
              | None =>
                  t <-g _read_text target ;;
                  match parse_json t with
                  | None => inr (insufficient (path_text target ++ u " is not valid JSON: " ++ json_error t))
                  | Some data =>
                      dug <-g _dig data (utf8 key) ;;
                      match dug with
                      | None =>
                          inr (Finding Refuted JNull (u "key " ++ py_repr (JStr key) ++ u " absent from " ++ path_text target))
                      | Some value =>
                          let expected := default JNull (obj_get "expected" check) in
                          if match expected with JNull => true | _ => py_eq value expected end
                          then inr (Finding Verified value [])
                          else inr (Finding Refuted value
                                      (u "claimed " ++ utf8 key ++ u "=" ++ py_repr expected ++ u ", file says " ++ py_repr value
                                         ++ u " (" ++ path_text target ++ u ")"))
                      end
                  end
              end
      | _ => inr (insufficient (u "json_key needs a dotted `key`"))
      end
  end.

(** ** [_check_regex] *)

Definition _check_regex (check : list (string * json)) : grading finding :=
  found <-g _resolve (obj_get "path" check) ;;
  match found with
  | inl err => inr (insufficient err)
  | inr target =>
      match obj_get "pattern" check with
      | Some (JStr ((String.String _ _) as pattern)) =>
          let want := or_str (obj_get "expect" check) (u "match") in
          if negb (bool_decide (want ∈ [u "match"; u "absent"]))
          then inr (insufficient (u "regex `expect` must be match or absent"))
          else
            dir <-g is_dir V target ;;
            if (dir : bool) then inr (_directory_target target (u "regex"))
            else
              file <-g is_file V target ;;
              if negb file then
                inr (if bool_decide (want = u "absent")
                     then Finding Verified (JInt 0) (path_text target ++ u " does not exist, so nothing matches")
                     else Finding Refuted (JInt 0) (path_text target ++ u " does not exist"))
              else
                match _oversized_body target (u "regex") _OVERSIZED_REPAIR_TEXT with
                | Some capped => inr capped
                | None =>
                    t <-g _read_text target ;;
                    hits <-g findall_count (utf8 pattern) t ;;
                    if (if bool_decide (want = u "match") then 0 <? hits else hits =? 0) then inr (Finding Verified (JInt hits) [])
                    else inr (Finding Refuted (JInt hits)
                                (u "claimed " ++ want ++ u " for /" ++ utf8 pattern ++ u "/ on " ++ path_text target
                                   ++ u ", disk says " ++ show hits ++ u " hit(s)"))
                end
      | _ => inr (insufficient (u "regex needs a `pattern`"))
      end
  end.

(** ** [verify_claim] *)

(** A claim as it was given, and what the verifier wrote on it. *)
Record graded := Graded {
  g_claim : list (string * json);
  g_text : text;
  g_check : list (string * json);
  g_finding : finding
}.
Definition g_status (g : graded) : claim_status := g.(g_finding).(f_status).

(** [_EVALUATORS[kind]], of a kind that is one of the four. *)
Definition evaluate (kind : text) (check : list (string * json)) : grading finding :=
  if bool_decide (kind = u "file_exists") then _check_file_exists check
  else if bool_decide (kind = u "count_eq") then _check_count_eq check
  else if bool_decide (kind = u "json_key") then _check_json_key check
  else _check_regex check.

Definition claim_text (claim : list (string * json)) : text := strip (or_str (obj_get "claim" claim) []).
Definition check_of (claim : list (string * json)) : list (string * json) :=
  match obj_get "check" claim with Some (JObj check) => check | _ => [] end.
Definition kind_of (check : list (string * json)) : text := or_str (obj_get "kind" check) [].

Definition verify_claim (claim : list (string * json)) : outcome graded :=
  let check := check_of claim in
  let kind := kind_of check in
  let graded := Graded claim (claim_text claim) check in
  if negb (bool_decide (kind ∈ CHECK_KINDS)) then
    Ok (graded (insufficient (u "unknown check kind " ++ py_repr (JStr (encode kind))
                  ++ u " — no verifier ran (expected one of ['file_exists', 'count_eq', 'json_key', 'regex'])")))
  else
    match evaluate kind check with
    | inr f => Ok (graded f)
    | inl (ReError why) => Ok (graded (insufficient (u "invalid regex: " ++ why)))
    | inl (OsError why) => Ok (graded (insufficient (u "read failed: " ++ why)))
    | inl (Escapes e) => Raise e
    end.

Definition graded_json (g : graded) : json :=
  JObj (obj_merge g.(g_claim)
          [("claim", JStr (encode g.(g_text))); ("check", JObj g.(g_check));
           ("status", JStr (claim_status_text (g_status g))); ("observed", g.(g_finding).(f_observed));
           ("detail", JStr (encode g.(g_finding).(f_detail)))]%string).

(** ** [verify_bundle] *)

Record bundle := Bundle {
  b_claims : list graded;
  b_verified : list text;
  b_gap : list text;
  b_total : Z;
  b_n_verified : Z;
  b_n_refuted : Z;
  b_n_insufficient : Z;
  b_rate : option Z                      (** in thousandths *)
}.

Fixpoint verify_all (claims : list (list (string * json))) : outcome (list graded) :=
  match claims with
  | [] => Ok []
  | c :: claims => g <-? verify_claim c ;; rest <-? verify_all claims ;; Ok (g :: rest)
  end.

Definition has_status (s : claim_status) (g : graded) : bool := bool_decide (g_status g = s).
Definition in_gap (g : graded) : bool := has_status Refuted g || has_status Insufficient g.

Definition gap_line (g : graded) : text :=
  upto (u "[" ++ utf8 (claim_status_text (g_status g)) ++ u "] " ++ g.(g_text)
          ++ match g.(g_finding).(f_detail) with [] => [] | d => u " — " ++ d end) MAX_GAP_CHARS.

Definition no_claims_line (emitted : bool) : text :=
  if emitted then u "no evidence claims were emitted, so nothing this run asserted was checked against disk"
  else u "no evidence claims were emitted (the run did not complete)".

(** [round(k / n, 3)], in thousandths: to the nearest, and to the even one of two. *)
Definition thousandths (k n : Z) : Z :=
  let q := 1000 * k / n in
  let r := 1000 * k mod n in
  if 2 * r <? n then q else if n <? 2 * r then q + 1 else if Z.even q then q else q + 1.

Definition count_status (s : claim_status) (gs : list graded) : Z := Z.of_nat (length (sel (has_status s) gs)).

Definition verify_bundle (claims : list json) (emitted : bool) : outcome bundle :=
  let claims := take MAX_BUNDLE_CLAIMS (dicts claims) in
  checked <-? verify_all claims ;;
  let gap := map gap_line (sel in_gap checked) in
  let gap := match claims with [] => no_claims_line emitted :: gap | _ => gap end in
  let total := Z.of_nat (length checked) in
  let refuted := count_status Refuted checked in
  let lacking := count_status Insufficient checked in
  Ok (Bundle checked (map g_text (sel (has_status Verified) checked)) (take MAX_GAP_ITEMS gap) total
        (count_status Verified checked) refuted lacking
        (if total =? 0 then None else Some (thousandths (refuted + lacking) total))).

(** The rate as [repr] writes it. *)
Definition rate_text (r : Z) : text :=
  let digits := take 3 (drop 1 (show (1000 + r mod 1000))) in
  show (r / 1000) ++ u "." ++ take 1 digits
    ++ (if r mod 100 =? 0 then [] else take 1 (drop 1 digits)) ++ (if r mod 10 =? 0 then [] else drop 2 digits).

Definition bundle_json (b : bundle) : json :=
  JObj [("claims", JList (map graded_json b.(b_claims)));
        ("verified", JList (map (fun t => JStr (encode t)) b.(b_verified)));
        ("gap", JList (map (fun t => JStr (encode t)) b.(b_gap)));
        ("counts", JObj [("total", JInt b.(b_total)); ("verified", JInt b.(b_n_verified));
                         ("refuted", JInt b.(b_n_refuted)); ("insufficient", JInt b.(b_n_insufficient))]);
        ("refuted_or_insufficient_rate",
          match b.(b_rate) with Some r => JFloat (encode (rate_text r)) | None => JNull end)]%string.

(** What the pool takes from it: the bundle for the record, the gap to carry. *)
Definition pool_bundle (claims : list json) : outcome (json * json) :=
  b <-? verify_bundle claims true ;; Ok (bundle_json b, JList (map (fun t => JStr (encode t)) b.(b_gap))).
End Checks.

(** ** The gap in the next run's prompt *)

Section Gaps.
Context `{PyNumbers} `{PyJson} `{JsonText}.

Definition gaps_key (task_id : text) : string := (GAP_KEY_PREFIX ++ encode task_id)%string.

Definition GAPS_HEADER : text :=
  nl ++ nl ++ u "## Evidence gaps carried from your previous run" ++ nl ++ nl
  ++ u "These claims were refuted against the disk, or could not be checked, the last time this task ran. Address each one — re-verify it and bind it again, or say in your summary why it no longer applies — then close with the evidence block."
  ++ nl.

Definition gaps_prompt (gaps : list text) : text :=
  match sel nonnil (map strip gaps) with
  | [] => []
  | items => GAPS_HEADER ++ join nl (map (fun g => u "- " ++ g) (take MAX_GAP_ITEMS items)) ++ nl
  end.

Definition parse_gap_list (raw : option string) : list text :=
  match raw with
  | None | Some EmptyString => []
  | Some s => match loads s with Some (JList l) => map str_of (take MAX_GAP_ITEMS l) | _ => [] end
  end.

(** [app/autonomy.py]: the pilot's tasks, and what is appended to their prompt. [up]
    says whether the watermark could be read. *)
Definition EVIDENCE_PILOT_TASK_IDS : list Z := [24; 38; 39; 40; 42; 53; 56].
Definition _evidence_pilot (task_id : json) : bool :=
  match int_of task_id with Ok n => bool_decide (n ∈ EVIDENCE_PILOT_TASK_IDS) | Raise _ => false end.

Definition _evidence_gap_list (up : bool) (task_id : json) (m : watermarks) : list text :=
  if up then parse_gap_list (wm_get SCHEDULED_TASK (gaps_key (str_of task_id)) m) else [].

Definition _evidence_prompt (instruction : text) (up : bool) (task_id : json) (m : watermarks) : text :=
  if _evidence_pilot task_id then instruction ++ gaps_prompt (_evidence_gap_list up task_id m) else [].
End Gaps.
