(* ===== verification/EvidenceFacts.v ===== *)
(** * Evidence claims: what a verdict, a bundle and a gap are worth

    [truth] says, without the verifier, when the disk settles a check and which way; the
    verifier's verdict is that, wherever its instruments reach. A bundle accounts for
    every claim it was given, and the gap of a run stands in the prompt of the next. *)
From Stdlib Require Import String Ascii QArith.
From S2P Require Import Prelude PyText Stamps QueueRows QueueOps QueueJournal Regex Policy Microcompact JsonCodec PoolPause PoolPauseFacts PoolGates PoolRun PoolRunFacts PyValues Evidence Utf8.

Local Open Scope Z_scope.

(** Evaluate the comparisons of literals. *)
Ltac decide_text :=
  repeat match goal with
    | |- context [bool_decide (utf8 ?a = utf8 ?b)] =>
        let v := eval vm_compute in (bool_decide (utf8 a = utf8 b)) in
        replace (bool_decide (utf8 a = utf8 b)) with v by (vm_compute; reflexivity)
    end; cbn [negb andb orb]; cbv iota.

Section Truth.
Context `{PyNumbers} `{PyFloat} `{PyJson} `{CheckTools}.
Variable V : view.

(** The path a check is about: inside the data root. *)
Definition located (check : list (string * json)) (p : list text) : Prop :=
  exists s path base,
    obj_get "path" check = Some (JStr s) /\ strip (utf8 s) <> [] /\ V.(v_expand) (utf8 s) = Ok path /\
    V.(v_real) (if startswith (u "/") path then path else V.(v_root) ++ u "/" ++ path) = Real p /\
    V.(v_real) V.(v_root) = Real base /\ base `prefix_of` p.

Lemma resolve_located check p : _resolve V (obj_get "path" check) = inr (inr p) <-> located check p.
Proof.
  unfold _resolve, located. split.
  - destruct (obj_get "path" check) as [[| | | |s| |]|]; try done. destruct (strip (utf8 s)) as [|c t] eqn:Es; [done|]. cbn [nonnil negb].
    destruct (v_expand V (utf8 s)) as [path|e] eqn:Ex; [|done]. cbn [of_outcome gbind].
    destruct (v_real V _) as [target| |] eqn:Er; try done. destruct (v_real V (v_root V)) as [base| |] eqn:Eb; try done.
    case_bool_decide; [|done]. intros [= ->]. exists s, path, base. by rewrite Es.
  - intros (s & path & base & -> & Hs & Ex & Er & Eb & Hp).
    destruct (strip (utf8 s)) as [|c t]; [done|]. cbn [nonnil negb]. rewrite Ex. cbn [of_outcome gbind]. rewrite Er, Eb.
    by rewrite bool_decide_eq_true_2.
Qed.

(** There is something at [p] that is neither a directory nor a file, or nothing. *)
Definition no_file (n : node) : Prop := match n with Absent | Special => True | _ => False end.
Definition no_directory (n : node) : Prop := match n with Absent | Special | File _ _ => True | _ => False end.
Definition a_file (n : node) : bool := match n with File _ _ => true | _ => false end.
Definition seen_at (p : list text) : Prop := match V.(v_stat) p with Hidden _ => False | _ => True end.

(** The text of a file, and the lines that count. *)
Definition body_at (p : list text) (bytes : list N) : Prop := V.(v_stat) p = File bytes None.
Definition counted_line (pattern : option json) (l : text) : bool :=
  match pattern with
  | Some (JStr s) => if json_true (JStr s) then re_found (utf8 s) l else true
  | _ => true
  end.
(** A pattern that can be applied to the lines: none, or one that compiles; and any where
    there are no lines. *)
Definition line_pattern (pattern : option json) (lines : list text) : Prop :=
  match pattern with
  | Some v => json_true v = true -> lines <> [] -> exists s, v = JStr s /\ re_error (utf8 s) = None
  | None => True
  end.

(** What a count of the disk is. *)
Inductive counts (check : list (string * json)) (p : list text) : text -> Z -> Prop :=
| Counts_files ps :
    V.(v_stat) p = Directory -> V.(v_glob) p (or_str (obj_get "glob" check) (u "*")) = inr ps -> Forall seen_at ps ->
    counts check p (u "files") (Z.of_nat (length (sel (fun q => a_file (V.(v_stat) q)) ps)))
| Counts_bytes bytes denied :
    V.(v_stat) p = File bytes denied -> counts check p (u "bytes") (Z.of_nat (length bytes))
| Counts_lines bytes :
    body_at p bytes -> line_pattern (obj_get "pattern" check) (splitlines (decode_replace bytes)) ->
    counts check p (u "lines")
      (Z.of_nat (length (sel (counted_line (obj_get "pattern" check)) (splitlines (decode_replace bytes)))))
| Counts_matches bytes c s :
    body_at p bytes -> obj_get "pattern" check = Some (JStr (String.String c s)) -> re_error (utf8 (String.String c s)) = None ->
    counts check p (u "matches") (Z.of_nat (re_hits (utf8 (String.String c s)) (decode_replace bytes))).

(** [v] is at the end of the dotted path. *)
Inductive reaches : json -> list text -> json -> Prop :=
| Reaches_here v : reaches v [] v
| Reaches_field fs part parts w v :
    obj_get (encode part) fs = Some w -> reaches w parts v -> reaches (JObj fs) (part :: parts) v
| Reaches_item l part parts i w v :
    int_of (JStr (encode part)) = Ok i -> list_index l i = Some w -> reaches w parts v -> reaches (JList l) (part :: parts) v.

(** Every segment met on a list is an index or is no number at all. *)
Inductive readable : json -> list text -> Prop :=
| Readable_end v : readable v []
| Readable_field fs part parts :
    (forall w, obj_get (encode part) fs = Some w -> readable w parts) -> readable (JObj fs) (part :: parts)
| Readable_item l part parts :
    (forall i w, int_of (JStr (encode part)) = Ok i -> list_index l i = Some w -> readable w parts) ->
    (forall e, int_of (JStr (encode part)) = Raise e -> e = ValueError) -> readable (JList l) (part :: parts)
| Readable_leaf v part parts : match v with JObj _ | JList _ => False | _ => True end -> readable v (part :: parts).

Lemma dig_reaches v parts w : dig_parts v parts = inr (Some w) <-> reaches v parts w.
Proof.
  split.
  - revert v. induction parts as [|part parts IH]; intros v; simpl; [intros [= ->]; constructor|].
    destruct v as [| | | | |l|fs]; try done.
    + destruct (int_of _) as [i|[]] eqn:Ei; try done. destruct (list_index l i) as [x|] eqn:El; [|done].
      intros ?%IH. by eapply Reaches_item.
    + destruct (obj_get _ fs) as [x|] eqn:Eo; [|done]. intros ?%IH. by eapply Reaches_field.
  - induction 1 as [|fs part parts x v Eo _ IH|l part parts i x v Ei El _ IH]; simpl; [done| |].
    + by rewrite Eo.
    + by rewrite Ei, El.
Qed.

Lemma dig_readable v parts : (exists r, dig_parts v parts = inr r) <-> readable v parts.
Proof.
  split.
  - revert v. induction parts as [|part parts IH]; intros v [r Hr]; [constructor|]. simpl in Hr.
    destruct v as [| | | | |l|fs]; try (by constructor).
    + apply Readable_item.
      * intros i w Ei El. rewrite Ei, El in Hr. apply IH. by exists r.
      * intros e Ee. rewrite Ee in Hr. by destruct e.
    + apply Readable_field. intros w Eo. rewrite Eo in Hr. apply IH. by exists r.
  - induction 1 as [v|fs part parts _ IH|l part parts _ IH He|v part parts Hv]; simpl; [by eexists| | |].
    + destruct (obj_get _ fs) as [w|]; [by apply IH|by eexists].
    + destruct (int_of _) as [i|e] eqn:Ei.
      * destruct (list_index l i) as [w|] eqn:El; [by eapply IH|by eexists].
      * rewrite (He e) by done. by eexists.
    + destruct v; try done; by eexists.
Qed.

Definition expected_of (check : list (string * json)) : json := default JNull (obj_get "expected" check).
Definition measure_of (check : list (string * json)) : text := or_str (obj_get "measure" check) (u "files").
Definition want_of (check : list (string * json)) : text := or_str (obj_get "expect" check) (u "match").

(** The disk settles the check: it agrees ([true]) or disagrees ([false]). A check the
    disk does not settle has neither. *)
Inductive truth (check : list (string * json)) (p : list text) : text -> bool -> Prop :=
| Truth_exists :
    located check p -> seen_at p ->
    truth check p (u "file_exists")
      (Bool.eqb (match V.(v_stat) p with Absent => false | _ => true end) (wants (default (JBool true) (obj_get "expected" check))))
| Truth_no_files :
    located check p -> is_number (expected_of check) = true -> measure_of check = u "files" -> no_directory (V.(v_stat) p) ->
    truth check p (u "count_eq") false
| Truth_no_body :
    located check p -> is_number (expected_of check) = true -> measure_of check ∈ [u "bytes"; u "lines"; u "matches"] ->
    no_file (V.(v_stat) p) -> truth check p (u "count_eq") false
| Truth_count n b :
    located check p -> is_number (expected_of check) = true -> counts check p (measure_of check) n ->
    close_to n (expected_of check) (tolerance_of check) = Ok b -> truth check p (u "count_eq") b
| Truth_no_json c s :
    located check p -> obj_get "key" check = Some (JStr (String.String c s)) -> no_file (V.(v_stat) p) ->
    truth check p (u "json_key") false
| Truth_no_key c s bytes data :
    located check p -> obj_get "key" check = Some (JStr (String.String c s)) -> body_at p bytes ->
    parse_json (decode_replace bytes) = Some data -> readable data (split_char 46 [] (utf8 (String.String c s))) ->
    (forall v, ~ reaches data (split_char 46 [] (utf8 (String.String c s))) v) -> truth check p (u "json_key") false
| Truth_json c s bytes data v :
    located check p -> obj_get "key" check = Some (JStr (String.String c s)) -> body_at p bytes ->
    parse_json (decode_replace bytes) = Some data -> reaches data (split_char 46 [] (utf8 (String.String c s))) v ->
    truth check p (u "json_key") (match expected_of check with JNull => true | w => py_eq v w end)
| Truth_no_text c s :
    located check p -> obj_get "pattern" check = Some (JStr (String.String c s)) -> want_of check ∈ [u "match"; u "absent"] ->
    no_file (V.(v_stat) p) -> truth check p (u "regex") (bool_decide (want_of check = u "absent"))
| Truth_text c s bytes :
    located check p -> obj_get "pattern" check = Some (JStr (String.String c s)) -> want_of check ∈ [u "match"; u "absent"] ->
    body_at p bytes -> re_error (utf8 (String.String c s)) = None ->
    truth check p (u "regex")
      (Bool.eqb (bool_decide (want_of check = u "match")) (0 <? Z.of_nat (re_hits (utf8 (String.String c s)) (decode_replace bytes)))).

(** Where the instruments do not reach: a body over the cap, a count of every record. *)
Definition over_cap_at (p : list text) : bool := match file_size V p with Some n => MAX_CHECK_BYTES <? n | None => false end.
Definition beyond (kind : text) (check : list (string * json)) (p : list text) : bool :=
  if bool_decide (kind = u "count_eq") then
    if bool_decide (measure_of check = u "files")
    then match V.(v_stat) p with Directory => true | _ => false end
         && _whole_run_record_corpus V p (or_str (obj_get "glob" check) (u "*"))
    else negb (bool_decide (measure_of check = u "bytes")) && over_cap_at p
  else negb (bool_decide (kind = u "file_exists")) && over_cap_at p.

(** *** The parts of the checks *)

Lemma take_bytes_all n bs : Z.of_nat (length bs) <= n -> take_bytes n bs = bs.
Proof.
  revert n. induction bs as [|b bs IH]; intros n Hn; simpl in *; [done|].
  rewrite (proj2 (Z.leb_gt n 0)) by lia. f_equal. apply IH. lia.
Qed.

Lemma read_body p bytes : body_at p bytes -> over_cap_at p = false -> _read_text V p = inr (decode_replace bytes).
Proof.
  unfold body_at, over_cap_at, file_size, _read_text. intros ->. intros Hc%Z.ltb_ge. by rewrite take_bytes_all.
Qed.

Lemma read_inv p t : _read_text V p = inr t -> over_cap_at p = false -> exists bytes, body_at p bytes /\ t = decode_replace bytes.
Proof.
  intros E Hc. unfold _read_text in E. destruct (v_stat V p) as [|bytes [why|]| | |] eqn:Es; try done.
  exists bytes. split; [done|]. pose proof (read_body p bytes Es Hc) as R. unfold _read_text in R. rewrite Es in R. congruence.
Qed.

Lemma capped_none p name repair : over_cap_at p = false -> _oversized_body V p name repair = None.
Proof.
  unfold over_cap_at, _oversized_body. destruct (file_size V p) as [n|]; [|done]. intros Hc%Z.ltb_ge.
  by rewrite (proj2 (Z.leb_le _ _)).
Qed.
Lemma capped_some p name repair : over_cap_at p = true ->
  exists f, _oversized_body V p name repair = Some f /\ f_status f = Insufficient.
Proof.
  unfold over_cap_at, _oversized_body. destruct (file_size V p) as [n|]; [|done]. intros Hc%Z.ltb_lt.
  rewrite (proj2 (Z.leb_gt _ _)) by lia. by eexists.
Qed.

(** A body over the cap: the early verdict. *)
Ltac capped Eo :=
  match goal with
  | |- context [_oversized_body V ?p ?name ?repair] =>
      let f := fresh "f" in destruct (capped_some p name repair Eo) as (f & -> & ?); exists f
  end.

Lemma counted_lines pattern lines :
  line_pattern pattern lines -> count_lines pattern lines = inr (Z.of_nat (length (sel (counted_line pattern) lines))).
Proof.
  assert (All : forall l : list text, sel (fun _ => true) l = l) by (induction l as [|x l IH]; simpl; congruence).
  unfold line_pattern, count_lines, counted_line. destruct pattern as [v|]; [|by rewrite All].
  destruct (json_true v) eqn:Ev.
  - destruct lines as [|l ls]; [by intros _; destruct v|]. intros Hp. destruct (Hp eq_refl) as (s & -> & ->); [done|].
    by rewrite Ev.
  - intros _. destruct v; try (by rewrite All). by rewrite Ev, All.
Qed.
Lemma count_lines_inv pattern lines n : count_lines pattern lines = inr n -> line_pattern pattern lines.
Proof.
  unfold count_lines, line_pattern. destruct pattern as [v|]; [|done]. intros E Hv Hl. rewrite Hv in E.
  destruct lines; [done|]. destruct v as [| | | |s| |]; try done. exists s. by destruct (re_error _).
Qed.

Lemma counted_files ps : Forall (seen_at) ps ->
  count_files V ps = inr (Z.of_nat (length (sel (fun q => a_file (V.(v_stat) q)) ps))).
Proof.
  induction 1 as [|q ps Hq _ IH]; simpl; [done|]. rewrite IH. unfold seen_at, is_file, looked_at in *.
  destruct (v_stat V q); simpl; try done; f_equal; lia.
Qed.
Lemma count_files_inv ps n : count_files V ps = inr n -> Forall seen_at ps.
Proof.
  revert n. induction ps as [|q ps IH]; intros n; simpl; [by constructor|]. unfold is_file, looked_at.
  intros E. constructor.
  - unfold seen_at. by destruct (v_stat V q).
  - destruct (v_stat V q); simpl in E; try done; destruct (count_files V ps) as [|m] eqn:E'; try done; by eapply IH.
Qed.

Definition verdict_for (out settled : bool) : claim_status :=
  if out then Insufficient else if settled then Verified else Refuted.

(** *** Each check, on what the disk settles *)

Ltac locate Hl := rewrite (proj2 (resolve_located _ _) Hl); cbn [gbind].

Lemma exists_truth check p :
  located check p -> seen_at p ->
  exists f, _check_file_exists V check = inr f /\
    f_status f = verdict_for false (Bool.eqb (match V.(v_stat) p with Absent => false | _ => true end)
                                     (wants (default (JBool true) (obj_get "expected" check)))).
Proof.
  intros Hl Hs. unfold _check_file_exists. locate Hl. unfold exists_, looked_at, seen_at in *.
  destruct (v_stat V p); try done; cbn [gbind]; cbv beta iota; destruct (Bool.eqb _ _); by eexists.
Qed.

Lemma count_checked check p :
  located check p -> is_number (expected_of check) = true -> measure_of check ∈ COUNT_MEASURES ->
  _check_count_eq V check =
    (seen <-g observe_count V check (measure_of check) p ;;
     match seen with
     | inl settled => inr settled
     | inr observed =>
         match close_to observed (expected_of check) (tolerance_of check) with
         | Ok true => inr (Finding Verified (JInt observed) [])
         | Ok false =>
             inr (Finding Refuted (JInt observed)
                    (u "claimed " ++ measure_of check ++ u "=" ++ str_of (expected_of check) ++ u ", disk says " ++ show observed
                       ++ u " (" ++ path_text p ++ u ")"))
         | Raise (TypeError | ValueError) => inr (insufficient (u "expected/tolerance are not numeric"))
         | Raise e => inl (Escapes e)
         end
     end).
Proof.
  intros Hl Hn Hm. unfold _check_count_eq. locate Hl. unfold measure_of, expected_of in *.
  rewrite bool_decide_eq_true_2 by done. cbn [negb]. by rewrite Hn.
Qed.

(** The count, or a verdict that is [Insufficient] where the instruments do not reach. *)
Lemma observe_counts check p n :
  counts check p (measure_of check) n ->
  (beyond (u "count_eq") check p = false /\ observe_count V check (measure_of check) p = inr (inr n)) \/
  (beyond (u "count_eq") check p = true /\
   exists f, observe_count V check (measure_of check) p = inr (inl f) /\ f_status f = Insufficient).
Proof.
  unfold beyond, observe_count. intros Hc.
  inversion Hc as [ps Hs Hg Hf Em En|bytes d Hs Em En|bytes Hb Hp Em En|bytes c s Hb Hp Hr Em En];
    unfold is_dir, is_file, looked_at; unfold body_at in *; decide_text.
  - rewrite Hs. cbn [gbind negb andb]. unfold _whole_run_record_corpus. destruct (_ && _) eqn:Ew.
    + right. split; [done|]. by eexists.
    + left. split; [done|]. rewrite Hg. cbn [gbind]. by rewrite counted_files.
  - left. rewrite Hs. cbn [gbind negb]. unfold file_size. by rewrite Hs.
  - rewrite Hb. cbn [gbind negb]. destruct (over_cap_at p) eqn:Eo.
    + right. split; [done|]. by capped Eo.
    + left. split; [done|]. rewrite capped_none by done. rewrite (read_body p bytes) by done. cbn [gbind].
      by rewrite counted_lines.
  - rewrite Hb. cbn [gbind negb]. destruct (over_cap_at p) eqn:Eo.
    + right. split; [done|]. by capped Eo.
    + left. split; [done|]. rewrite capped_none by done. rewrite (read_body p bytes) by done. cbn [gbind].
      rewrite Hp. unfold findall_count. by rewrite Hr.
Qed.

Lemma no_file_looks p :
  no_file (V.(v_stat) p) -> is_dir V p = inr false /\ is_file V p = inr false /\ over_cap_at p = false.
Proof. unfold is_dir, is_file, looked_at, over_cap_at, file_size. by destruct (v_stat V p). Qed.
Lemma body_looks p bytes : body_at p bytes -> is_dir V p = inr false /\ is_file V p = inr true.
Proof. unfold is_dir, is_file, looked_at. by intros ->. Qed.

Lemma measure_split m : m ∈ [u "bytes"; u "lines"; u "matches"] -> m ∈ COUNT_MEASURES /\ bool_decide (m = u "files") = false.
Proof.
  intros [->|[->|[->|[]%elem_of_nil]%elem_of_cons]%elem_of_cons]%elem_of_cons; (split; [by repeat constructor|by vm_compute]).
Qed.

Lemma count_truth check p b :
  truth check p (u "count_eq") b ->
  exists f, _check_count_eq V check = inr f /\ f_status f = verdict_for (beyond (u "count_eq") check p) b.
Proof.
  intros Ht. remember (u "count_eq") as k eqn:Ek. destruct Ht as [| Hl Hn Hm Hd| Hl Hn Hm Hd| n b Hl Hn Hc Hb| | | | |]; try done; clear Ek.
  - rewrite (count_checked check p) by (try done; rewrite Hm; by left). eexists. rewrite Hm. unfold observe_count, is_dir, looked_at, beyond.
    rewrite Hm. decide_text. destruct (v_stat V p); done.
  - destruct (measure_split _ Hm) as [Hm1 Hm2]. rewrite (count_checked check p) by done.
    destruct (no_file_looks p Hd) as (E1 & E2 & E3). unfold observe_count, beyond. rewrite Hm2, E1, E2, E3. decide_text.
    cbn [gbind negb andb]. rewrite andb_false_r. by eexists.
  - assert (Hm : measure_of check ∈ COUNT_MEASURES) by (inversion Hc as [? ? ? ? Em|? ? ? Em|? ? ? Em|? ? ? ? ? ? Em]; by repeat constructor).
    rewrite (count_checked check p) by done. destruct (observe_counts check p n Hc) as [[-> ->]|[-> (f & -> & Hf)]]; cbn [gbind].
    + rewrite Hb. destruct b; by eexists.
    + by exists f.
Qed.

Lemma json_truth check p b :
  truth check p (u "json_key") b ->
  exists f, _check_json_key V check = inr f /\ f_status f = verdict_for (beyond (u "json_key") check p) b.
Proof.
  intros Ht. unfold beyond. decide_text. remember (u "json_key") as k eqn:Ek.
  destruct Ht as [| | | |c s Hl Hk Hd|c s bytes data Hl Hk Hd Hj Hr Hn|c s bytes data v Hl Hk Hd Hj Hr| |]; try done; clear Ek;
    unfold _check_json_key; locate Hl; rewrite Hk.
  - destruct (no_file_looks p Hd) as (-> & -> & ->). by eexists.
  - destruct (body_looks p bytes Hd) as (-> & ->). cbn [gbind negb]. destruct (over_cap_at p) eqn:Eo; [by capped Eo|].
    rewrite capped_none, (read_body p bytes) by done. cbn [gbind]. rewrite Hj.
    apply dig_readable in Hr as [[w|] Hw]; [by apply dig_reaches, Hn in Hw|]. unfold _dig. rewrite Hw. by eexists.
  - destruct (body_looks p bytes Hd) as (-> & ->). cbn [gbind negb]. destruct (over_cap_at p) eqn:Eo; [by capped Eo|].
    rewrite capped_none, (read_body p bytes) by done. cbn [gbind]. rewrite Hj. apply dig_reaches in Hr. unfold _dig. rewrite Hr.
    cbn [gbind]. fold (expected_of check). cbv zeta. destruct (expected_of check); try destruct (py_eq _ _); by eexists.
Qed.

Lemma want_split w : w ∈ [u "match"; u "absent"] -> bool_decide (w = u "match") = negb (bool_decide (w = u "absent")).
Proof. intros [->|[->|[]%elem_of_nil]%elem_of_cons]%elem_of_cons; by vm_compute. Qed.

Lemma regex_truth check p b :
  truth check p (u "regex") b ->
  exists f, _check_regex V check = inr f /\ f_status f = verdict_for (beyond (u "regex") check p) b.
Proof.
  intros Ht. unfold beyond. decide_text. remember (u "regex") as k eqn:Ek.
  destruct Ht as [| | | | | | |c s Hl Hk Hw Hd|c s bytes Hl Hk Hw Hd He]; try done; clear Ek;
    unfold _check_regex; locate Hl; rewrite Hk; cbv zeta; fold (want_of check); rewrite (bool_decide_eq_true_2 _ Hw); cbn [negb].
  - destruct (no_file_looks p Hd) as (-> & -> & ->). cbn [gbind negb]. destruct (bool_decide (want_of check = u "absent")); by eexists.
  - destruct (body_looks p bytes Hd) as (-> & ->). cbn [gbind negb]. destruct (over_cap_at p) eqn:Eo; [by capped Eo|].
    rewrite capped_none, (read_body p bytes) by done. cbn [gbind]. unfold findall_count. rewrite He. cbn [gbind].
    set (n := re_hits _ _). destruct (bool_decide (want_of check = u "match")), (Z.ltb_spec 0 (Z.of_nat n)), (Z.eqb_spec (Z.of_nat n) 0);
      try lia; by eexists.
Qed.

(** *** A verdict is the truth *)

Lemma capped_inv p name repair : _oversized_body V p name repair = None -> over_cap_at p = false.
Proof. destruct (over_cap_at p) eqn:Eo; [|done]. by destruct (capped_some p name repair Eo) as (f & -> & _). Qed.

(** What [is_dir] and [is_file] said of the entry. *)
Lemma no_file_inv p : is_dir V p = inr false -> is_file V p = inr false -> no_file (V.(v_stat) p).
Proof. unfold is_dir, is_file, looked_at. by destruct (v_stat V p). Qed.
Lemma is_file_inv p : is_file V p = inr true -> exists bytes d, V.(v_stat) p = File bytes d.
Proof. unfold is_file, looked_at. destruct (v_stat V p) as [|bytes d| | |]; try done. by exists bytes, d. Qed.

Definition settled (kind : text) (check : list (string * json)) (f : finding) : Prop :=
  f_status f = Insufficient \/ exists p, truth check p kind (bool_decide (f_status f = Verified)).

Lemma exists_sound check f : _check_file_exists V check = inr f -> settled (u "file_exists") check f.
Proof.
  unfold _check_file_exists. destruct (_resolve _ _) as [|[err|p]] eqn:El; cbn [gbind]; [done|by intros [= <-]; left|].
  apply resolve_located in El. unfold exists_. destruct (looked_at V p _) as [|present] eqn:Ep; [done|].
  assert (Hs : seen_at p /\ present = match V.(v_stat) p with Absent => false | _ => true end).
  { unfold looked_at, seen_at in *. destruct (v_stat V p); simplify_eq; done. }
  destruct Hs as [Hs ->]. cbn [gbind]. intros E. right. exists p.
  replace (bool_decide (f_status f = Verified)) with
    (Bool.eqb (match V.(v_stat) p with Absent => false | _ => true end) (wants (default (JBool true) (obj_get "expected" check)))).
  - by apply Truth_exists.
  - destruct (Bool.eqb _ _); by injection E as <-.
Qed.

Lemma observe_inv check p m s :
  m ∈ COUNT_MEASURES -> observe_count V check m p = inr s ->
  match s with
  | inr n => counts check p m n
  | inl f => f_status f = Insufficient \/
             f_status f = Refuted /\ (m = u "files" /\ no_directory (V.(v_stat) p) \/ m ∈ [u "bytes"; u "lines"; u "matches"] /\ no_file (V.(v_stat) p))
  end.
Proof.
  intros Hm. unfold observe_count. destruct (bool_decide (m = u "files")) eqn:Ef.
  - apply bool_decide_eq_true in Ef as ->. unfold is_dir, looked_at. destruct (v_stat V p) as [| | | |why] eqn:Es; try done; cbn [gbind negb];
      try (intros [= <-]; right; split; [done|]; left; done).
    destruct (_whole_run_record_corpus V p _); [intros [= <-]; by left|].
    destruct (v_glob V p _) as [|ps] eqn:Eg; [done|]. cbn [gbind]. destruct (count_files V ps) as [|n] eqn:Ec; [done|].
    intros [= <-]. pose proof (count_files_inv _ _ Ec) as Hf. rewrite counted_files in Ec by done. injection Ec as <-.
    by apply Counts_files.
  - destruct (is_dir V p) as [|[]] eqn:Ed; try done; cbn [gbind]; [intros [= <-]; by left|].
    destruct (is_file V p) as [|[]] eqn:Efl; try done; cbn [gbind negb].
    2:{ intros [= <-]. right. split; [done|]. right. split; [|by apply no_file_inv].
        apply elem_of_cons in Hm as [->|Hm]; [by vm_compute in Ef|done]. }
    apply is_file_inv in Efl as (bytes0 & d0 & Es). destruct (bool_decide (m = u "bytes")) eqn:Eb.
    { apply bool_decide_eq_true in Eb as ->. intros [= <-]. unfold file_size. rewrite Es. by eapply Counts_bytes. }
    destruct (_oversized_body V p _ _) as [f|] eqn:Eo.
    { intros [= <-]. left. revert Eo. unfold _oversized_body. destruct (file_size V p); [|done]. by destruct (_ <=? _); intros [= <-]. }
    apply capped_inv in Eo. destruct (_read_text V p) as [|t] eqn:Er; [done|]. cbn [gbind].
    destruct (read_inv p t Er Eo) as (bytes & Hb & ->). destruct (bool_decide (m = u "lines")) eqn:El.
    + apply bool_decide_eq_true in El as ->. destruct (count_lines _ _) as [|n] eqn:Ec; [done|]. intros [= <-].
      pose proof (count_lines_inv _ _ _ Ec) as Hp. rewrite counted_lines in Ec by done. injection Ec as <-. by apply Counts_lines.
    + assert (m = u "matches") as ->.
      { do 3 (apply elem_of_cons in Hm as [->|Hm]; [by vm_compute in Ef, Eb, El|]). by apply list_elem_of_singleton in Hm. }
      destruct (obj_get "pattern" check) as [[| | | |[|c s0]| |]|] eqn:Ep; try (intros [= <-]; by left).
      unfold findall_count. destruct (re_error _) eqn:Ee; [done|]. intros [= <-]. by eapply Counts_matches.
Qed.

Lemma count_sound check f : _check_count_eq V check = inr f -> settled (u "count_eq") check f.
Proof.
  unfold _check_count_eq. destruct (_resolve _ _) as [|[err|p]] eqn:El; cbn [gbind]; [done|by intros [= <-]; left|].
  apply resolve_located in El. cbv zeta. fold (measure_of check) (expected_of check).
  destruct (bool_decide (measure_of check ∈ COUNT_MEASURES)) eqn:Em; cbn [negb]; [|by intros [= <-]; left].
  apply bool_decide_eq_true in Em. destruct (is_number (expected_of check)) eqn:En; cbn [negb]; [|by intros [= <-]; left].
  destruct (observe_count V check _ p) as [|s] eqn:Eo; [done|]. apply observe_inv in Eo; [|done]. cbn [gbind].
  destruct s as [f'|n].
  - intros [= ->]. destruct Eo as [Eo|[Es [[Hm Hd]|[Hm Hd]]]]; [by left| |]; right; exists p; rewrite Es.
    + by apply Truth_no_files.
    + by apply Truth_no_body.
  - destruct (close_to n _ _) as [[]|[]] eqn:Ec; intros [= <-]; try (by left); right; exists p; by eapply Truth_count.
Qed.

Lemma json_sound check f : _check_json_key V check = inr f -> settled (u "json_key") check f.
Proof.
  unfold _check_json_key. destruct (_resolve _ _) as [|[err|p]] eqn:El; cbn [gbind]; [done|by intros [= <-]; left|].
  apply resolve_located in El. destruct (obj_get "key" check) as [[| | | |[|c s]| |]|] eqn:Ek; try (intros [= <-]; by left).
  destruct (is_dir V p) as [|[]] eqn:Ed; try done; cbn [gbind]; [intros [= <-]; by left|].
  destruct (is_file V p) as [|[]] eqn:Efl; try done; cbn [gbind negb].
  2:{ intros [= <-]. right. exists p. eapply Truth_no_json; [done..|]. by apply no_file_inv. }
  destruct (_oversized_body V p _ _) as [f'|] eqn:Eo.
  { intros [= <-]. left. revert Eo. unfold _oversized_body. destruct (file_size V p); [|done]. by destruct (_ <=? _); intros [= <-]. }
  apply capped_inv in Eo. destruct (_read_text V p) as [|t] eqn:Er; [done|]. cbn [gbind].
  destruct (read_inv p t Er Eo) as (bytes & Hb & ->). destruct (parse_json _) as [data|] eqn:Ej; [|intros [= <-]; by left].
  unfold _dig. destruct (dig_parts data _) as [|[v|]] eqn:Eg; try done; cbn [gbind].
  - apply dig_reaches in Eg. pose proof (Truth_json check p c s bytes data v El Ek Hb Ej Eg) as T. cbv zeta. fold (expected_of check).
    intros E. right. exists p. destruct (expected_of check); try destruct (py_eq _ _); by injection E as <-.
  - intros [= <-]. right. exists p. eapply Truth_no_key; [done..|apply dig_readable; by eexists|].
    intros v Hv%dig_reaches. congruence.
Qed.

Lemma regex_sound check f : _check_regex V check = inr f -> settled (u "regex") check f.
Proof.
  unfold _check_regex. destruct (_resolve _ _) as [|[err|p]] eqn:El; cbn [gbind]; [done|by intros [= <-]; left|].
  apply resolve_located in El. destruct (obj_get "pattern" check) as [[| | | |[|c s]| |]|] eqn:Ek; try (intros [= <-]; by left).
  cbv zeta. fold (want_of check). destruct (bool_decide (want_of check ∈ _)) eqn:Ew; cbn [negb]; [|intros [= <-]; by left].
  apply bool_decide_eq_true in Ew. destruct (is_dir V p) as [|[]] eqn:Ed; try done; cbn [gbind]; [intros [= <-]; by left|].
  destruct (is_file V p) as [|[]] eqn:Efl; try done; cbn [gbind negb].
  2:{ intros E. right. exists p. pose proof (Truth_no_text check p c s El Ek Ew (no_file_inv p Ed Efl)) as T.
      destruct (bool_decide (want_of check = u "absent")); by injection E as <-. }
  destruct (_oversized_body V p _ _) as [f'|] eqn:Eo.
  { intros [= <-]. left. revert Eo. unfold _oversized_body. destruct (file_size V p); [|done]. by destruct (_ <=? _); intros [= <-]. }
  apply capped_inv in Eo. destruct (_read_text V p) as [|t] eqn:Er; [done|]. cbn [gbind].
  destruct (read_inv p t Er Eo) as (bytes & Hb & ->). unfold findall_count. destruct (re_error _) eqn:Ee; [done|]. cbn [gbind].
  pose proof (Truth_text check p c s bytes El Ek Ew Hb Ee) as T. intros E. right. exists p. revert T E. set (n := re_hits _ _).
  destruct (bool_decide (want_of check = u "match")), (Z.ltb_spec 0 (Z.of_nat n)), (Z.eqb_spec (Z.of_nat n) 0);
    try lia; intros T E; by injection E as <-.
Qed.

(** *** Claims *)

Lemma kind_split k : k ∈ CHECK_KINDS -> k = u "file_exists" \/ k = u "count_eq" \/ k = u "json_key" \/ k = u "regex".
Proof. unfold CHECK_KINDS. rewrite !elem_of_cons, elem_of_nil. tauto. Qed.

Lemma evaluate_sound k check f : k ∈ CHECK_KINDS -> evaluate V k check = inr f -> settled k check f.
Proof.
  intros [->|[->|[->| ->]]]%kind_split; unfold evaluate; decide_text;
    [apply exists_sound|apply count_sound|apply json_sound|apply regex_sound].
Qed.

Lemma truth_kind check p k b : truth check p k b -> k ∈ CHECK_KINDS.
Proof. destruct 1; unfold CHECK_KINDS; rewrite !elem_of_cons; tauto. Qed.

Lemma evaluate_truth k check p b :
  truth check p k b -> exists f, evaluate V k check = inr f /\ f_status f = verdict_for (beyond k check p) b.
Proof.
  intros T. destruct (kind_split k (truth_kind _ _ _ _ T)) as [->|[->|[->| ->]]]; unfold evaluate; decide_text;
    [|by apply count_truth|by apply json_truth|by apply regex_truth].
  remember (u "file_exists") as k eqn:Ek. destruct T as [Hl Hs| | | | | | | |]; try done. clear Ek. unfold beyond. decide_text. by apply exists_truth.
Qed.

Lemma verify_claim_sound c g :
  verify_claim V c = Ok g ->
  g_status g = Insufficient \/ exists p, truth (check_of c) p (kind_of (check_of c)) (bool_decide (g_status g = Verified)).
Proof.
  unfold verify_claim. cbv zeta. destruct (bool_decide (_ ∈ CHECK_KINDS)) eqn:Ek; cbn [negb]; [|intros [= <-]; by left].
  apply bool_decide_eq_true in Ek. destruct (evaluate V _ _) as [[| |]|f] eqn:Ee; intros [= <-]; try (by left).
  by apply evaluate_sound in Ee.
Qed.

Lemma verify_claim_truth c p b :
  truth (check_of c) p (kind_of (check_of c)) b ->
  exists g, verify_claim V c = Ok g /\ g_status g = verdict_for (beyond (kind_of (check_of c)) (check_of c) p) b.
Proof.
  intros T. pose proof (truth_kind _ _ _ _ T) as Hk. apply evaluate_truth in T as (f & Ef & Hf).
  unfold verify_claim. cbv zeta. rewrite bool_decide_eq_true_2 by done. cbn [negb]. rewrite Ef. by eexists.
Qed.
End Truth.

(** C25: the verdict on a claim is what the disk says. A claim comes back verified or
    refuted only where the disk settles its check, inside the data root, and then the way
    it settles it; and a check the disk settles is graded, [verified] where the disk
    agrees and [refuted] where it does not, unless its body is over the read cap or it
    counts the whole corpus of run records, which is [insufficient]. *)
Theorem verdict_exact `{PyNumbers} `{PyFloat} `{PyJson} `{CheckTools} (V : view) (c : list (string * json)) :
  let check := check_of c in
  let kind := kind_of check in
  (forall g, verify_claim V c = Ok g ->
     g_status g = Insufficient \/ exists p, truth V check p kind (bool_decide (g_status g = Verified))) /\
  (forall p b, truth V check p kind b ->
     exists g, verify_claim V c = Ok g /\
       g_status g = if beyond V kind check p then Insufficient else if b then Verified else Refuted).
Proof. split; [apply verify_claim_sound|apply verify_claim_truth]. Qed.

(** ** Bundles *)

Section Bundles.
Context `{PyNumbers} `{PyFloat} `{PyJson} `{CheckTools}.
Variable V : view.

Lemma verify_all_spec cs gs : verify_all V cs = Ok gs -> Forall2 (fun c g => verify_claim V c = Ok g) cs gs.
Proof.
  revert gs. induction cs as [|c cs IH]; intros gs; simpl; [by intros [= <-]|].
  intros (g & Eg & (rest & Er & [= <-])%obind_ok)%obind_ok. constructor; [done|by apply IH].
Qed.

Lemma verify_claim_keeps c g : verify_claim V c = Ok g -> g_claim g = c.
Proof.
  unfold verify_claim. cbv zeta. destruct (negb _); [by intros [= <-]|].
  destruct (evaluate V _ _) as [[| |]|f]; by intros [= <-].
Qed.

Lemma statuses_add gs :
  Z.of_nat (length gs) = count_status Verified gs + count_status Refuted gs + count_status Insufficient gs.
Proof.
  unfold count_status. induction gs as [|g gs IH]; simpl; [done|]. unfold has_status in *.
  destruct (g_status g); simpl; repeat case_bool_decide; try done; simpl; lia.
Qed.

Lemma gap_length gs : Z.of_nat (length (sel in_gap gs)) = count_status Refuted gs + count_status Insufficient gs.
Proof.
  unfold count_status, in_gap. induction gs as [|g gs IH]; simpl; [done|]. unfold has_status in *.
  destruct (g_status g); simpl; repeat case_bool_decide; try done; simpl; lia.
Qed.

Lemma thousandths_bounds k n : 0 < n -> 0 <= k <= n -> 0 <= thousandths k n <= 1000.
Proof.
  intros Hn Hk. unfold thousandths. cbv zeta. pose proof (Z.div_mod (1000 * k) n ltac:(lia)). pose proof (Z.mod_pos_bound (1000 * k) n ltac:(lia)).
  assert (0 <= 1000 * k / n) by (apply Z.div_pos; lia). assert (1000 * k / n <= 1000) by nia.
  destruct (Z.ltb_spec (2 * (1000 * k mod n)) n); [lia|].
  assert (1000 * k / n < 1000) by nia. destruct (n <? _); [lia|]. destruct (Z.even _); lia.
Qed.

(** At most twenty claims: the rate rounds to zero only where nothing is unverified. *)
Lemma thousandths_zero k n : 0 < n <= 20 -> 0 <= k <= n -> thousandths k n = 0 <-> k = 0.
Proof.
  intros Hn Hk. unfold thousandths. cbv zeta. pose proof (Z.div_mod (1000 * k) n ltac:(lia)). pose proof (Z.mod_pos_bound (1000 * k) n ltac:(lia)).
  split; [|intros ->; assert (1000 * 0 / n = 0) as E by (apply Z.div_small; lia); rewrite E in *; by rewrite (proj2 (Z.ltb_lt _ _)) by lia].
  assert (0 <= 1000 * k / n) by (apply Z.div_pos; lia). intros E.
  destruct (Z.eq_dec k 0); [done|]. exfalso. assert (1 <= 1000 * k / n) by (apply Z.div_le_lower_bound; lia).
  revert E. repeat case_match; lia.
Qed.

Lemma verify_all_length cs gs : verify_all V cs = Ok gs -> length gs = length cs /\ map g_claim gs = cs.
Proof.
  intros Hf%verify_all_spec. split; [symmetry; by eapply Forall2_length|].
  induction Hf as [|c g cs gs Hg _ IH]; simpl; [done|]. by rewrite IH, (verify_claim_keeps c g).
Qed.

Lemma gap_line_short g : len (gap_line g) <= MAX_GAP_CHARS.
Proof. by apply len_upto_le. Qed.
Lemma no_claims_short emitted : len (no_claims_line emitted) <= MAX_GAP_CHARS.
Proof. destruct emitted; vm_compute; discriminate. Qed.

Lemma take_nil_iff {A} n (l : list A) : (0 < n)%nat -> take n l = [] <-> l = [].
Proof. intros Hn. destruct n, l; simpl; split; done || lia. Qed.

(** The counts and the rate of a list of verdicts. *)
Lemma counts_bounds gs :
  0 <= count_status Refuted gs + count_status Insufficient gs <= Z.of_nat (length gs) /\ (sel in_gap gs = [] <-> count_status Refuted gs + count_status Insufficient gs = 0).
Proof.
  pose proof (statuses_add gs). pose proof (gap_length gs) as G. unfold count_status in *.
  split; [lia|]. rewrite <-G. destruct (sel in_gap gs); simpl; split; done || lia.
Qed.
End Bundles.

(** A bundle accounts for every claim it is given, up to twenty. Each is graded as it
    stands, in order; the counts add up to the total; the texts of the verified ones are
    listed; every other one of the first twelve has its line, of at most 400 characters,
    in the gap; the gap is empty exactly when there were claims and all verified, so a
    run that claimed nothing has a gap and no rate, and the rate is zero only where the
    gap is empty. *)
Theorem bundle_accounts `{PyNumbers} `{PyFloat} `{PyJson} `{CheckTools} (V : view) (claims : list json) (emitted : bool) (b : bundle) :
  verify_bundle V claims emitted = Ok b ->
  map g_claim (b_claims b) = take MAX_BUNDLE_CLAIMS (dicts claims) /\
  b_total b = Z.of_nat (length (b_claims b)) /\
  b_total b = b_n_verified b + b_n_refuted b + b_n_insufficient b /\
  b_verified b = map g_text (sel (has_status Verified) (b_claims b)) /\
  (length (b_gap b) <= MAX_GAP_ITEMS)%nat /\ Forall (fun l => len l <= MAX_GAP_CHARS) (b_gap b) /\
  (forall g, g ∈ take MAX_GAP_ITEMS (sel in_gap (b_claims b)) -> gap_line g ∈ b_gap b) /\
  (b_gap b = [] <-> b_claims b <> [] /\ b_n_refuted b + b_n_insufficient b = 0) /\
  (b_rate b = None <-> b_claims b = []) /\
  (forall r, b_rate b = Some r -> 0 <= r <= 1000 /\ (r = 0 <-> b_gap b = [])).
Proof.
  unfold verify_bundle. cbv zeta. intros (gs & Eg & [= <-])%obind_ok. cbn [b_claims b_total b_n_verified b_n_refuted b_n_insufficient b_verified b_gap b_rate].
  destruct (verify_all_length V _ _ Eg) as [Hlen Hmap]. pose proof (statuses_add gs) as Hadd. destruct (counts_bounds gs) as [Hb Hz].
  assert (H20 : (length gs <= 20)%nat) by (rewrite Hlen, length_take; unfold MAX_BUNDLE_CLAIMS; lia).
  set (cs := take MAX_BUNDLE_CLAIMS (dicts claims)) in *.
  assert (Hgap : forall l, l ∈ (match cs with [] => no_claims_line emitted :: map gap_line (sel in_gap gs) | _ => map gap_line (sel in_gap gs) end) ->
    len l <= MAX_GAP_CHARS).
  { intros l. destruct cs; [rewrite elem_of_cons; intros [->|Hl]; [by apply no_claims_short|revert Hl]|];
      intros (g & -> & _)%list_elem_of_fmap; apply gap_line_short. }
  split; [done|]. split; [done|]. split; [lia|]. split; [done|]. split; [rewrite length_take; lia|].
  split; [apply Forall_forall; intros l Hl; apply Hgap; by eapply elem_of_take in Hl as (i & Hi%list_elem_of_lookup_2 & _)|].
  destruct cs as [|c cs]; destruct gs as [|g gs]; try done.
  { split; [intros g Hg; cbn in Hg; by apply elem_of_nil in Hg|]. split; [split; [done|by intros [? _]]|]. split; [done|]. done. }
  set (gs' := g :: gs) in *. change (take MAX_GAP_ITEMS (map gap_line (sel in_gap gs'))) with (take 12 (map gap_line (sel in_gap gs'))).
  assert (Hn : take 12 (map gap_line (sel in_gap gs')) = [] <-> count_status Refuted gs' + count_status Insufficient gs' = 0)
    by (rewrite <-Hz; destruct (sel in_gap gs'); done).
  split; [intros g' Hg'; unfold MAX_GAP_ITEMS in *; rewrite firstn_map; by apply list_elem_of_fmap_2|].
  split; [rewrite Hn; by split; [|intros [_ ?]]|]. replace (Z.of_nat (length gs') =? 0) with false by (symmetry; apply Z.eqb_neq; unfold gs'; simpl; lia).
  split; [done|]. intros r [= <-]. rewrite Hn. split; [apply thousandths_bounds; unfold gs' in *; simpl in *; lia|].
  apply thousandths_zero; unfold gs' in *; simpl in *; lia.
Qed.

(** A block that does not parse is not silence: it is a claim no check can settle. *)
Lemma unparsed_block_counts `{PyUnicode} `{PyNumbers} `{PyFloat} `{PyJson} `{CheckTools} (V : view) (t body : text) :
  body ∈ blocks t -> parse_json (strip body) = None ->
  _malformed (strip body) ∈ concat (map block_claims (blocks t)) /\
  exists g, verify_claim V (_malformed (strip body)) = Ok g /\ g_status g = Insufficient.
Proof.
  intros Hb Hp. split; [|by eexists].
  apply list_elem_of_In, in_concat. exists (block_claims body). split; [by apply in_map, list_elem_of_In|].
  unfold block_claims. rewrite Hp. by left.
Qed.

(** ** From one run to the next *)

Lemma join_line (sep dash : text) (items : list text) (x : text) : x ∈ items ->
  exists a c, join sep (map (fun g => dash ++ g) items) = a ++ dash ++ x ++ c.
Proof.
  induction items as [|y items IH]; intros Hx; [by apply elem_of_nil in Hx|]. apply elem_of_cons in Hx as [<-|Hx].
  - destruct items as [|z items]; [exists [], []; simpl; by rewrite app_nil_r|].
    exists [], (sep ++ join sep (map (fun g => dash ++ g) (z :: items))).
    change (join sep (map (fun g => dash ++ g) (x :: z :: items)))
      with ((dash ++ x) ++ sep ++ join sep (map (fun g => dash ++ g) (z :: items))). by rewrite <-app_assoc.
  - destruct (IH Hx) as (a & c & E). destruct items as [|z items]; [by apply elem_of_nil in Hx|].
    exists ((dash ++ y) ++ sep ++ a), c.
    change (join sep (map (fun g => dash ++ g) (y :: z :: items)))
      with ((dash ++ y) ++ sep ++ join sep (map (fun g => dash ++ g) (z :: items))). rewrite E. by rewrite <-!app_assoc.
Qed.

(** What the carry relies on about [json]: its ASCII rendering is ASCII, a rendered list
    of strings parses back, and no proper prefix of one parses. *)
Class GapText `{JsonText} := {
  dump_ascii v : encode (utf8 (dumps_ascii v)) = dumps_ascii v;
  list_read_back l : loads (dumps_ascii (JList (map JStr l))) = Some (JList (map JStr l));
  list_dump_nonempty l : dumps_ascii (JList (map JStr l)) <> EmptyString;
  list_cut l n : (n < length (utf8 (dumps_ascii (JList (map JStr l)))))%nat ->
    loads (encode (take n (utf8 (dumps_ascii (JList (map JStr l)))))) = None
}.

Section Carry.
Context `{IsoStamps} `{GapText} `{PyNumbers} `{PyFloat} `{PyJson} `{CheckTools}.
Variable V : view.

Definition gap_json (b : bundle) : json := JList (map (fun t => JStr (encode t)) (b_gap b)).

Lemma gap_json_map b : gap_json b = JList (map JStr (map encode (b_gap b))).
Proof. unfold gap_json. by rewrite map_map. Qed.

(** The stored list reads back whole, or not at all when it was cut. *)
Lemma stored_gap b :
  Forall (Forall (fun c => (c < 1114112)%N)) (b_gap b) -> (length (b_gap b) <= MAX_GAP_ITEMS)%nat ->
  parse_gap_list (Some (encode (upto (utf8 (dumps_ascii (gap_json b))) 4000)))
  = if len (utf8 (dumps_ascii (gap_json b))) <=? 4000 then b_gap b else [].
Proof.
  intros Hv Hl. unfold parse_gap_list. rewrite gap_json_map. set (s := dumps_ascii _).
  destruct (Z.leb_spec (len (utf8 s)) 4000) as [Hs|Hs].
  - unfold upto. rewrite take_ge by (unfold len in Hs; lia). unfold s. rewrite dump_ascii, list_read_back.
    destruct (dumps_ascii _) eqn:Ed; [by apply list_dump_nonempty in Ed|].
    rewrite take_ge by (by rewrite !length_map). rewrite !map_map. cbn [str_of].
    clear Hl Hs s Ed. induction Hv as [|t l Ht _ IH]; simpl; [done|]. by rewrite utf8_encode, IH.
  - unfold s. unfold upto. rewrite list_cut by (unfold len, s in Hs; lia). by destruct (encode _).
Qed.

(** A line of the gap, in the prompt. *)
Lemma prompt_line gaps g : (length gaps <= MAX_GAP_ITEMS)%nat -> g ∈ gaps -> strip g <> [] ->
  exists pre post, gaps_prompt gaps = pre ++ u "- " ++ strip g ++ post.
Proof.
  intros Hl Hg Hs. unfold gaps_prompt.
  assert (Hi : strip g ∈ sel nonnil (map strip gaps)) by (apply elem_of_sel; split; [by apply list_elem_of_fmap_2|by destruct (strip g)]).
  assert (Hn : (length (sel nonnil (map strip gaps)) <= MAX_GAP_ITEMS)%nat)
    by (etrans; [apply sel_length_le|by rewrite length_map]).
  destruct (sel nonnil (map strip gaps)) as [|x items]; [by apply elem_of_nil in Hi|].
  rewrite take_ge by done. destruct (join_line nl (u "- ") (x :: items) (strip g) Hi) as (a & c & ->).
  exists (GAPS_HEADER ++ a), (c ++ nl). generalize GAPS_HEADER, (u "- "). intros header dash. rewrite <-!app_assoc. reflexivity.
Qed.
End Carry.

(** What a run could not prove is put to the next run of its task. Once a pilot
    task's run has returned, its claims checked and its gap stored, the prompt of the
    task's next run ends in that gap, every line of it, whatever became of the run's
    record and row - provided the stored text fits its 4000 characters; a longer one is
    cut, no longer parses, and the next run is told of no gap at all. *)
Theorem gap_reaches_next_run `{IsoStamps} `{GapText} `{PyNumbers} `{PyFloat} `{PyJson} `{CheckTools}
    (V : view) (w : run_world) (item : qrow) (started : string) (result : json) (n : norm) (claims : list json) (b : bundle)
    (task_id : json) (instruction : text) (d d' : wdb) (o : outcome unit) :
  calm w -> (forall l, rw_bundle w l = pool_bundle V l) ->
  q_source item = SCHEDULED_TASK -> normalize_result item result = Ok n -> n_claims n = Some claims ->
  n_task_id n = Some (encode (str_of task_id)) -> encode (str_of task_id) <> EmptyString -> _evidence_pilot task_id = true ->
  verify_bundle V claims true = Ok b -> Forall (Forall (fun c => (c < 1114112)%N)) (b_gap b) ->
  finish_returned w item started result d = (o, d') ->
  _evidence_prompt instruction true task_id (w_marks d')
    = instruction ++ (if len (utf8 (dumps_ascii (gap_json b))) <=? 4000 then gaps_prompt (b_gap b) else []) /\
  (forall g, g ∈ b_gap b -> strip g <> [] -> exists pre post, gaps_prompt (b_gap b) = pre ++ u "- " ++ strip g ++ post).
Proof.
  intros [Q K] Hw Hsrc En Ecl Eid Hid Hpilot Eb Hv Ef.
  assert (Hl : (length (b_gap b) <= MAX_GAP_ITEMS)%nat).
  { revert Eb. unfold verify_bundle. cbv zeta. intros (gs & _ & [= <-])%obind_ok. cbn [b_gap]. rewrite length_take. lia. }
  split; [|intros g Hg Hs; by apply prompt_line].
  assert (Hm : wm_get SCHEDULED_TASK (gaps_key (str_of task_id)) (w_marks d')
             = Some (encode (upto (utf8 (dumps_ascii (gap_json b))) 4000))).
  { unfold finish_returned in Ef. rewrite En in Ef. cbv zeta in Ef. unfold bundle_of in Ef. rewrite Ecl, Hw in Ef. unfold pool_bundle in Ef.
    rewrite Eb in Ef. cbn [obind] in Ef. fold (gap_json b) in Ef. unfold carry_gaps in Ef. rewrite Q, Eid, K, Hsrc in Ef.
    unfold gaps_key. destruct (encode (str_of task_id)) as [|c s]; [done|].
    revert Ef. set (d1 := with_marks _ _).
    assert (M1 : wm_get SCHEDULED_TASK (GAP_KEY_PREFIX ++ String c s) (w_marks d1) = Some (encode (upto (utf8 (dumps_ascii (gap_json b))) 4000)))
      by (unfold wm_get, d1; cbn [w_marks with_marks]; by rewrite wm_set_same).
    clearbody d1. unfold at_db. rewrite !Q, !K. destruct (record_run _ _ _ _ _ _ _ _ _ _ _ _ _ _ (w_db d1)) as [[|e] b1];
      [|intros Ef; injection Ef as _ <-; exact M1].
    destruct (resolve_defer _ _) as [t|e]; rewrite ?Q, ?K; intros Ef; injection Ef as _ <-; exact M1. }
  unfold _evidence_prompt, _evidence_gap_list. rewrite Hpilot, Hm, stored_gap by done.
  f_equal. by destruct (_ <=? _).
Qed.

(** ** A codec for the witnesses: the tree codec's text, sealed with a full stop *)

Lemma bits_chars p : all_chars (fun c => c = "0"%char \/ c = "1"%char) (bits p).
Proof. unfold all_chars. induction p; simpl; [..|by constructor]; constructor; auto. Qed.

Fixpoint unseal (s : string) : option string :=
  match s with
  | EmptyString => None
  | String "." EmptyString => Some EmptyString
  | String c s => String c <$> unseal s
  end.

Lemma unseal_seal s : all_chars (fun c => c <> "."%char) s -> unseal (s ++ ".") = Some s.
Proof.
  unfold all_chars. induction s as [|c s IH]; simpl; [done|]. intros [Hc Hs]%Forall_cons.
  rewrite IH by done. destruct c as [[] [] [] [] [] [] [] []]; done.
Qed.
Lemma unseal_none l : Forall (fun c => c <> "."%char) l -> unseal (string_of_list_ascii l) = None.
Proof.
  induction 1 as [|c l Hc _ IH]; simpl; [done|]. rewrite IH. destruct c as [[] [] [] [] [] [] [] []]; done.
Qed.

Definition sealed_json : JsonText :=
  {| dumps v := (write_json v ++ ".")%string; dumps_ascii v := (write_json v ++ ".")%string;
     loads s := unseal s ≫= read_json; py_str v := match v with JStr s => s | _ => EmptyString end |}.

Lemma write_chars v : all_chars (fun c => seven_bit c /\ c <> "."%char) (write_json v).
Proof.
  unfold write_json, all_chars. simpl. constructor; [done|]. eapply Forall_impl; [apply bits_chars|].
  intros c [->| ->]; done.
Qed.

Lemma chars_app s t : list_ascii_of_string (s ++ t) = list_ascii_of_string s ++ list_ascii_of_string t.
Proof. induction s as [|c s IH]; simpl; [done|]. by rewrite IH. Qed.

#[local] Instance sealed_gap_text : @GapText sealed_json.
Proof.
  assert (C7 : forall v, Forall seven_bit (list_ascii_of_string (write_json v ++ "."))).
  { intros v. rewrite chars_app. apply Forall_app. split; [|by constructor].
    eapply Forall_impl; [apply write_chars|]. by intros c [? _]. }
  constructor; cbn [dumps_ascii loads sealed_json].
  - intros v. rewrite utf8_plain by apply C7. rewrite encode_chars by apply C7. apply string_of_list_ascii_of_string.
  - intros l. rewrite unseal_seal by (eapply Forall_impl; [apply write_chars|]; by intros c [_ ?]). apply read_write.
  - done.
  - intros l n Hn. set (v := JList _) in *. rewrite utf8_plain in * by apply C7. rewrite firstn_map.
    rewrite length_map, chars_app, length_app in Hn. change (length (list_ascii_of_string ".")) with 1%nat in Hn.
    rewrite chars_app, take_app_le by lia.
    assert (F : Forall (fun c => seven_bit c /\ c <> "."%char) (take n (list_ascii_of_string (write_json v))))
      by (apply Forall_take, write_chars).
    rewrite encode_chars by (eapply Forall_impl; [exact F|]; by intros c [? _]).
    rewrite unseal_none; [done|]. eapply Forall_impl; [exact F|]. by intros c [_ ?].
Qed.

(** ** Witnesses *)

Section Samples.
#[local] Existing Instance exact_floats.
#[local] Existing Instance plain_numbers.
#[local] Existing Instance sealed_json.

#[local] Instance sample_shown : PyJson :=
  {| py_repr _ := []; py_shown v := match v with JInt z => show z | _ => [] end; parse_json _ := None; dump_json _ := [] |}.
(** Patterns that are plain substrings. *)
#[local] Instance sample_tools : CheckTools :=
  {| re_error _ := None; re_found p l := contains p l; re_hits p t := if contains p t then 1%nat else 0%nat; json_error _ := [] |}.

(** A data root with a file of two lines in it. *)
Definition sample_view : view :=
  View (u "/data") Ok (fun s => Real (sel nonnil (split_char 47 [] s)))
    (fun p => if bool_decide (p = [u "data"; u "a"]) then File (u "12 rows" ++ nl ++ u "done") None else Absent)
    (fun _ _ => inr []).

Definition sample_claim (kind : string) (fields : list (string * json)) : list (string * json) :=
  [("claim", JStr "c"); ("check", JObj (("kind", JStr kind) :: fields))]%string.
Definition two_lines : list (string * json) :=
  sample_claim "count_eq" [("path", JStr "a"); ("measure", JStr "lines"); ("expected", JInt 2)]%string.
Definition nothing_there : list (string * json) := sample_claim "file_exists" [("path", JStr "b")]%string.

Definition good_claim : graded := Graded two_lines (u "c") (check_of two_lines) (Finding Verified (JInt 2) []).
Definition bad_claim : graded :=
  Graded nothing_there (u "c") (check_of nothing_there)
    (Finding Refuted (JBool false) (u "claimed exists=True, disk says exists=False (/data/b)")).

Lemma good_claim_graded : verify_claim sample_view two_lines = Ok good_claim.
Proof. vm_compute. reflexivity. Qed.
Lemma bad_claim_graded : verify_claim sample_view nothing_there = Ok bad_claim.
Proof. vm_compute. reflexivity. Qed.

Lemma verdict_exact_witness :
  (exists p, truth sample_view (check_of two_lines) p (u "count_eq") true) /\
  (exists p, truth sample_view (check_of nothing_there) p (u "file_exists") false).
Proof.
  split.
  - destruct (proj1 (verdict_exact sample_view two_lines) _ good_claim_graded) as [H|H]; [done|exact H].
  - destruct (proj1 (verdict_exact sample_view nothing_there) _ bad_claim_graded) as [H|H]; [done|exact H].
Defined.

Definition sample_bundle : bundle :=
  Bundle [good_claim; bad_claim]
    [u "c"] [u "[refuted] c — claimed exists=True, disk says exists=False (/data/b)"] 2 1 1 0 (Some 500).

Definition sample_claims : list json := [JObj two_lines; JObj nothing_there].

Lemma sample_verified : verify_bundle sample_view sample_claims true = Ok sample_bundle.
Proof. vm_compute. reflexivity. Qed.

Lemma bundle_accounts_witness :
  b_rate sample_bundle = Some 500 /\ b_gap sample_bundle <> [] /\ gap_line bad_claim ∈ b_gap sample_bundle.
Proof.
  destruct (bundle_accounts sample_view sample_claims true sample_bundle sample_verified)
    as (_ & _ & _ & _ & _ & _ & Hg & He & _).
  split; [done|]. split; [by intros [_ ?]%He|]. apply Hg. left.
Defined.

(** A check that cannot be applied leaves the verifier, and the bundle with it. *)
Lemma odd_check_escapes :
  verify_bundle sample_view
    [JObj two_lines;
     JObj (sample_claim "count_eq" [("path", JStr "a"); ("measure", JStr "lines"); ("pattern", JInt 5); ("expected", JInt 2)]%string)]
    true = Raise TypeError.
Proof. vm_compute. reflexivity. Qed.

(** A run of task 24 that claimed the two, and the gap it leaves the next one. *)
#[local] Existing Instance iso_stamps.
Definition gap_result : json := JObj [("task_id", JStr "24"); ("claims", JList sample_claims)]%string.
Definition gap_run : run_world :=
  RunWorld "run_24" (fun k => t0 + Z.of_nat k * usec) usec [] (Returned gap_result) [] [] JNull (pool_bundle sample_view)
    [] (fun _ => EmptyString) (fun _ => true) (fun _ d => d).
Definition gap_item : qrow :=
  QRow 1 SCHEDULED_TASK "task" 0 "{}" None Running 1 (iso t0) None None None None None None None None.
Definition gap_norm : norm := Norm Success [] EmptyString [] (Some "24"%string) [] (Some sample_claims) None.

Lemma gap_reaches_next_run_witness :
  exists d', finish_returned gap_run gap_item (iso t0) gap_result new_wdb = (Ok tt, d') /\
    _evidence_prompt (u "Claims.") true (JInt 24) (w_marks d') = u "Claims." ++ gaps_prompt (b_gap sample_bundle).
Proof.
  destruct (finish_returned gap_run gap_item (iso t0) gap_result new_wdb) as [o d'] eqn:E. exists d'.
  assert (Ho : (finish_returned gap_run gap_item (iso t0) gap_result new_wdb).1 = Ok tt) by (vm_compute; reflexivity).
  rewrite E in Ho. simpl in Ho. subst o. split; [done|].
  assert (Hv : Forall (Forall (fun c => (c < 1114112)%N)) (b_gap sample_bundle)) by (apply (bool_decide_unpack _); vm_compute; exact I).
  assert (Hn : normalize_result gap_item gap_result = Ok gap_norm) by (vm_compute; reflexivity).
  assert (Hc : calm gap_run) by done.
  destruct (gap_reaches_next_run sample_view gap_run gap_item (iso t0) gap_result gap_norm sample_claims sample_bundle (JInt 24)
    (u "Claims.") new_wdb d' (Ok tt) Hc (fun _ => eq_refl) eq_refl Hn eq_refl eq_refl ltac:(done) eq_refl sample_verified Hv E) as [Hp _].
  rewrite Hp. replace (len _ <=? 4000) with true; [done|]. vm_compute. reflexivity.
Defined.
End Samples.
