(* ===== verification/ServiceProbe.v ===== *)
(** * The service probe

    [workers/service_probe.py]: how long each service's port has been closed while
    supervisord holds its program, announced once when the grace has passed and once when
    the port answers again. The announcing itself and the sockets are outside. Clock
    readings are whole microseconds. *)
From Stdlib Require Import String.
From S2P Require Import Prelude PyText Binary64.

Local Open Scope Z_scope.

Definition PRIMARY_ENGINE : text := u "agent-llm-primary".
Definition PRIMARY_COST : text := u "autonomy dispatch is PAUSED while the primary is unreachable (workers/sources/scheduled_task.py), so every stall alert from here on describes a paused fleet, not a broken one. ".
Definition DEFAULT_GRACE_S : Z := 15 * 60.
Definition GRACE_S (name : text) : Z := if bool_decide (name = PRIMARY_ENGINE) then 30 * 60 else DEFAULT_GRACE_S.
Definition _STOPPED : text := u "STOPPED".

Record streak := Streak {
  sk_since : Z; sk_state : text; sk_announced : bool; sk_announcement : text; sk_display : text; sk_port : Z
}.
Record service := Service { sv_name : text; sv_display : text; sv_port : Z }.
Inductive event_kind := Down | Recovered.
Record alarm := Alarm { al_kind : event_kind; al_service : text; al_title : text; al_body : text; al_level : text }.

Abbreviation streaks := (gmap text streak).

Section Probe.
(** What supervisord says of each program ([None]: it has none by that name), and which
    ports answer. *)
Variables (procs : text -> option text) (port_open : Z -> bool) (now : Z).

Definition held (name : text) : bool := match procs name with Some state => negb (bool_decide (state = _STOPPED)) | None => false end.
Definition minutes_since (since : Z) : text := show ((now - since) / SECOND / 60).

(** One service of a pass. *)
Definition probe_one (ss : streaks) (sv : service) : streaks * list alarm :=
  let name := sv.(sv_name) in
  let state := default [] (procs name) in
  let port := u ":" ++ show sv.(sv_port) in
  if negb (held name) || port_open sv.(sv_port) then
    (delete name ss,
     match ss !! name with
     | Some k =>
         if k.(sk_announced) && held name
         then [Alarm Recovered name (sv.(sv_display) ++ u " is answering on " ++ port ++ u " again")
                 (name ++ u " was not serving for " ++ minutes_since k.(sk_since) ++ u " min.") (u "info")]
         else []
     | None => []
     end)
  else
    match ss !! name with
    | None => (<[name := Streak now state false [] sv.(sv_display) sv.(sv_port)]> ss, [])
    | Some k =>
        if negb k.(sk_announced) && (GRACE_S name * SECOND <=? now - k.(sk_since)) then
          let title := sv.(sv_display) ++ u " is not serving: " ++ port ++ u " closed while supervisord says " ++ state in
          (<[name := Streak k.(sk_since) state true title k.(sk_display) k.(sk_port)]> ss,
           [Alarm Down name title
              (name ++ u " has held supervisord state " ++ state ++ u " (or cycled through respawns) for " ++ minutes_since k.(sk_since)
               ++ u " min without " ++ port ++ u " opening — a crash loop reads as RUNNING to everything that trusts supervisord's state (#1359). "
               ++ (if bool_decide (name = PRIMARY_ENGINE) then PRIMARY_COST else []) ++ u "Its log: supervisorctl tail " ++ name ++ u " stderr.")
              (u "critical")])
        else (<[name := Streak k.(sk_since) state k.(sk_announced) k.(sk_announcement) k.(sk_display) k.(sk_port)]> ss, [])
    end.

Fixpoint probe_each (ss : streaks) (svs : list service) : streaks * list alarm :=
  match svs with
  | [] => (ss, [])
  | sv :: svs => let '(ss, here) := probe_one ss sv in let '(ss, rest) := probe_each ss svs in (ss, here ++ rest)
  end.

(** One pass. A service without a port is not probed, and one no longer listed is
    forgotten. *)
Definition probe_tick (svs : list service) (ss : streaks) : streaks * list alarm :=
  let svs := sel (fun sv => negb (sv.(sv_port) =? 0)) svs in
  let '(ss, alarms) := probe_each ss svs in
  (filter (fun x => x.1 ∈ map sv_name svs) ss, alarms).
End Probe.

(** What another watcher reads of a streak: how long, and what was said. *)
Record outage := Outage { ou_display : text; ou_port : Z; ou_down : Z; ou_announced : bool; ou_announcement : text }.
Definition outage_of (name : text) (now : Z) (ss : streaks) : option outage :=
  (fun k => Outage (match k.(sk_display) with [] => name | s => s end) k.(sk_port) (now - k.(sk_since)) k.(sk_announced) k.(sk_announcement)) <$> ss !! name.

(** ** What has been said *)

(** A streak began before a pass at [w]; and past its grace it has been announced. *)
Definition begun (w : Z) (ss : streaks) (name : text) : Prop := forall k, ss !! name = Some k -> k.(sk_since) <= w.
Definition spoken (w : Z) (ss : streaks) (name : text) : Prop := forall k, ss !! name = Some k ->
  k.(sk_since) <= w /\ (GRACE_S name * SECOND <= w - k.(sk_since) -> k.(sk_announced) = true).

Section Passes.
Variables (procs : text -> option text) (port_open : Z -> bool) (w : Z).

Lemma probe_one_other ss sv name : name <> sv.(sv_name) -> (probe_one procs port_open w ss sv).1 !! name = ss !! name.
Proof.
  intros N. unfold probe_one. cbv zeta. destruct (_ || _); [by apply lookup_delete_ne|].
  destruct (ss !! sv_name sv) as [k|]; [destruct (_ && _)|]; by apply lookup_insert_ne.
Qed.

Lemma probe_one_speaks ss sv : begun w ss sv.(sv_name) -> spoken w (probe_one procs port_open w ss sv).1 sv.(sv_name).
Proof.
  intros Hb k. assert (G : 0 < GRACE_S (sv_name sv) * SECOND) by (unfold GRACE_S, DEFAULT_GRACE_S, SECOND; case_bool_decide; lia).
  unfold probe_one. cbv zeta. destruct (_ || _); cbn [fst]; [by rewrite lookup_delete_eq|].
  destruct (ss !! sv_name sv) as [k0|] eqn:E; [|cbn [fst]; rewrite lookup_insert_eq; intros [= <-]; cbn [sk_since sk_announced]; lia].
  pose proof (Hb k0 E). destruct (negb (sk_announced k0) && _) eqn:Eb; cbn [fst]; rewrite lookup_insert_eq; intros [= <-]; cbn [sk_since sk_announced]; split; [done..|].
  intros L. apply andb_false_iff in Eb as [Eb|Eb]; [by apply negb_false_iff in Eb|apply Z.leb_gt in Eb; lia].
Qed.

Lemma spoken_begun ss name : spoken w ss name -> begun w ss name.
Proof. intros Hs k E. by apply Hs in E as [? _]. Qed.

Lemma probe_each_speaks ss svs name : (forall n, begun w ss n) -> (name ∈ map sv_name svs \/ spoken w ss name) -> spoken w (probe_each procs port_open w ss svs).1 name.
Proof.
  revert ss. induction svs as [|sv svs IH]; intros ss Hb Hn; simpl; [by destruct Hn as [?%elem_of_nil|]|].
  destruct (probe_one procs port_open w ss sv) as [ss1 es] eqn:E1. destruct (probe_each procs port_open w ss1 svs) as [ss2 rest] eqn:E2. cbn [fst].
  assert (A : spoken w ss1 (sv_name sv)) by (pose proof (probe_one_speaks ss sv (Hb _)) as K; by rewrite E1 in K).
  assert (B : forall n, n <> sv_name sv -> ss1 !! n = ss !! n) by (intros n N; pose proof (probe_one_other ss sv n N) as K; by rewrite E1 in K).
  specialize (IH ss1). rewrite E2 in IH. apply IH.
  - intros n. destruct (decide (n = sv_name sv)) as [->|N]; [by apply spoken_begun|]. intros k. rewrite B by done. apply Hb.
  - destruct (decide (name = sv_name sv)) as [->|N]; [by right|]. destruct Hn as [[->|Hn]%elem_of_cons|Hn]; [done|by left|].
    right. intros k. rewrite B by done. apply Hn.
Qed.
End Passes.

(** Passes, one after another, with what each of them sees. *)
Record pass := Pass { ps_procs : text -> option text; ps_open : Z -> bool; ps_at : Z; ps_services : list service }.
Definition take_pass (ss : streaks) (x : pass) : streaks := (probe_tick x.(ps_procs) x.(ps_open) x.(ps_at) x.(ps_services) ss).1.

Lemma pass_speaks ss x : (forall n, begun x.(ps_at) ss n) -> forall n, spoken x.(ps_at) (take_pass ss x) n.
Proof.
  intros Hb n k. unfold take_pass, probe_tick. set (svs := sel _ _). pose proof (probe_each_speaks x.(ps_procs) x.(ps_open) x.(ps_at) ss svs n Hb) as K.
  destruct (probe_each _ _ _ _ _) as [ss1 es]. cbn [fst] in *. intros [E Hn]%map_lookup_filter_Some. apply K; [by left|done].
Qed.

(** After passes in the order of their times, everything past its grace was announced. *)
Lemma passes_speak xs x : StronglySorted Z.le (map ps_at (xs ++ [x])) -> forall n, spoken x.(ps_at) (fold_left take_pass (xs ++ [x]) ∅) n.
Proof.
  rewrite fold_left_app. simpl. assert (B : forall xs w, StronglySorted Z.le (map ps_at xs ++ [w]) -> forall n, begun w (fold_left take_pass xs ∅) n).
  { clear. induction xs as [|y xs IH] using rev_ind; intros w Hs n; [intros k; cbn [fold_left]; by rewrite lookup_empty|].
    rewrite fold_left_app. simpl. rewrite map_app in Hs. simpl in Hs.
    assert (Hy : StronglySorted Z.le (map ps_at xs ++ [ps_at y])) by (by apply StronglySorted_app_1_l in Hs).
    assert (ps_at y <= w). { rewrite <-app_assoc in Hs. apply StronglySorted_app_1_r in Hs. inversion_clear Hs as [|? ? _ F]. by apply Forall_inv in F. }
    intros k E. pose proof (pass_speaks _ y (IH _ Hy) n k E) as [? _]. lia. }
  intros Hs. apply pass_speaks. intros n. apply B. by rewrite map_app in Hs.
Qed.
