(* ===== verification/RunEvidence.v ===== *)
(** * What a finished run left to be judged by

    [app/autonomy.py] and [app/silent_sentinel.py]: the failure phrases of a final text,
    the deliverable a task declares and the disk it is looked for on, the alarms a script
    prints into a tool result, and what [run_task] keeps of the event stream. *)
From Stdlib Require Import String.
From S2P Require Import Prelude PyText Stamps QueueRows Regex Policy Spill Microcompact PoolGates PoolRun Meter ToolCalls Turn SpokenFacts Evidence PyValues Windows DueRules TaskFiles.

Local Open Scope Z_scope.

(** ** The text of a run that ended *)

Section Phrases.
Context `{PyUnicode}.

(** [m.span()] of [r.search(s)]. *)
Fixpoint span_from (r : re) (prev : option N) (i : nat) (s : text) : option (nat * nat) :=
  match match_at r prev s with
  | Some (_, rest) => Some (i, (i + (length s - length rest))%nat)
  | None => match s with [] => None | c :: s => span_from r (Some c) (S i) s end
  end.
Definition first_span (r : re) (s : text) : option (nat * nat) := span_from r None 0 s.

Definition nonzero_digits : re := Seq (Chr (fun c => (49 <=? c) && (c <=? 57))%N) (Star (Chr cdigit)).
Definition error_names : list text :=
  [u "FileNotFoundError"; u "PermissionError"; u "ModuleNotFoundError"; u "ImportError"; u "KeyError"; u "AttributeError";
   u "TypeError"; u "ValueError"].

Definition _SILENT_FAILURE_PATTERNS : list re :=
  [Seq Wb (Seq (iword (u "failed because")) Wb);
   Seq Wb (lit (u "Traceback (most recent call last)"));
   Seq Wb (Seq (lit (u "exit code")) (Seq (plus space) (Seq nonzero_digits Wb)));
   Seq Wb (Seq (alts (map lit error_names)) (Seq Wb (Seq (Star space) (lit (u ":")))))].

Definition one_line (s : text) : text := map (fun c => if (c =? 10)%N then 32%N else c) s.
Definition snippet_of (s : text) (span : nat * nat) : text :=
  let start := (span.1 - 30)%nat in
  one_line (strip (take (Nat.min (length s) (span.2 + 80) - start) (drop start s))).

(** [is_silent_response], and a recorded run's own verdict before it. *)
Definition SILENT_SENTINEL : text := u "[SILENT]".
Definition is_silent_response (s : text) : bool := bool_decide (strip s = SILENT_SENTINEL).
End Phrases.

(** [re.compile(p, re.IGNORECASE)] of a pattern a task declares, and its [search];
    [None]: it does not compile. *)
Class PyPatterns := declared_pattern : text -> option (text -> bool).

Section Verdicts.
Context `{IsoStamps} `{PyNumbers} `{PyJson} `{PyUnicode} `{PyPatterns}.

(** [for x in expected or []]. *)
Definition listed (v : option json) : outcome (list json) :=
  match v with
  | Some v =>
      if negb (json_true v) then Ok []
      else match v with
           | JList l => Ok l
           | JStr s => Ok (map (fun c => JStr (encode [c])) (utf8 s))
           | JObj fs => Ok (map (fun p => JStr p.1) fs)
           | _ => Raise TypeError
           end
  | None => Ok []
  end.

(** A task declared that its run would say so. *)
Definition suppresses (snippet : text) (expected : json) : bool :=
  match declared_pattern (str_of expected) with
  | Some search => search snippet
  | None => contains (lower (str_of expected)) (lower snippet)
  end.

Definition _detect_silent_failures (s : text) (expected : option json) : outcome (list text) :=
  match s with
  | [] => Ok []
  | _ =>
      expected <-? listed expected ;;
      Ok (omap (fun r => span ← first_span r s;
                  let snippet := snippet_of s span in
                  if existsb (suppresses snippet) expected then None else Some snippet) _SILENT_FAILURE_PATTERNS)
  end.

Definition run_is_silent (meta : list (string * json)) (s : text) : bool :=
  match obj_get "silent" meta with Some v => json_true v | None => is_silent_response s end.

(** ** The deliverable *)

(** What [stat] and [read_text] say of a path: its size and its time of change, and its
    text. *)
Record disk := DiskView { dk_stat : text -> option (Z * Z); dk_text : text -> option text }.

Record artifact := Artifact { af_path : text; af_bytes : Z; af_modified : Z }.
Definition artifact_json (a : artifact) : json :=
  JObj [("path", JStr (encode a.(af_path))); ("bytes", JInt a.(af_bytes)); ("modified_at", JStr (iso a.(af_modified)))]%string.

Definition qualifies (d : disk) (run_started : Z) (path : text) : option artifact :=
  match d.(dk_stat) path with
  | Some (size, modified) =>
      if size <? _ARTIFACT_MIN_BYTES then None else if modified <? run_started then None else Some (Artifact path size modified)
  | None => None
  end.

Definition _declared_artifact_evidence (S : shelf) (d : disk) (t : task) (run_started : Z) : outcome (option artifact) :=
  match obj_get "output_artifact" t with
  | Some declared =>
      if negb (json_true declared) then Ok None
      else paths <-? _artifact_candidates S (str_of declared) run_started ;; Ok (head (omap (qualifies d run_started) paths))
  | None => Ok None
  end.

Definition _MAX_TURNS_NO_ARTIFACT : text := u "max_turns_without_declared_artifact".
Definition _MAX_TURNS_MARKER_ABSENT : text := u "max_turns_artifact_marker_absent".

(** Why a run stopped at its turn cap may not claim success, and the evidence weighed. *)
Definition _cap_out_gap (S : shelf) (d : disk) (t : task) (run_started : Z) : outcome (option text * option artifact) :=
  if negb (given (obj_get "output_artifact" t)) then Ok (None, None)
  else
    evidence <-? _declared_artifact_evidence S d t run_started ;;
    Ok (match evidence with
        | None => (Some _MAX_TURNS_NO_ARTIFACT, None)
        | Some a =>
            match stripped "artifact_complete_marker" t with
            | [] => (None, Some a)
            | marker =>
                let basis := _MAX_TURNS_MARKER_ABSENT ++ u ": " ++ marker in
                match d.(dk_text) a.(af_path) with
                | None => (Some basis, None)
                | Some content => if contains marker content then (None, Some a) else (Some basis, Some a)
                end
            end
        end).
End Verdicts.

(** ** Alarms a script printed *)

Section Alarms.
Context `{PyNumbers} `{PyUnicode}.

(** [EXIT_SENTINEL_RE] at the start of a line: the script, its code, and what is left of
    the text - from the last line end the match stops before. *)
Definition after_blank (s : text) : option text := let r := lstrip s in if (length r <? length s)%nat then Some r else None.
Definition line_end (s : text) : option text :=
  let blank := take (length s - length (lstrip s)) s in
  match lstrip s with
  | [] => Some []
  | _ => match break_at (fun c => (c =? 10)%N) (rev blank) with
         | (_, []) => None
         | (after, _) => Some (drop (length blank - length after - 1) s)
         end
  end.

Definition sentinel_at (s : text) : option (text * text * text) :=
  if startswith (u "LLOYD_SCRIPT_EXIT:") s then
    s ← after_blank (drop 18 s);
    let '(script, s) := break_at isspace s in
    s ← (if nonnil script then after_blank s else None);
    if startswith (u "exit=") s then
      let '(code, s) := break_at (fun c => negb (cdigit c)) (drop 5 s) in
      match code with
      | c :: _ => if (49 <=? c)%N && (c <=? 57)%N then s ← line_end s; Some (script, code, s) else None
      | [] => None
      end
    else None
  else None.

Fixpoint sentinels (fuel : nat) (fresh : bool) (s : text) : list (text * text) :=
  match fuel with
  | O => []
  | S fuel =>
      match (if fresh then sentinel_at s else None) with
      | Some (script, code, s) => (script, code) :: sentinels fuel false s
      | None => match s with [] => [] | c :: s => sentinels fuel (c =? 10)%N s end
      end
  end.

(** The alarms of one tool result, put over those of the run so far. *)
Definition _scan_exit_sentinels (content : text) (alarms : list (string * json)) : outcome (list (string * json)) :=
  fold_left (fun alarms found => alarms <-? alarms ;; code <-? int_of (JStr (encode found.2)) ;;
               Ok (obj_put (encode found.1) (JInt code) alarms))
    (sentinels (S (length content)) true content) (Ok alarms).
End Alarms.

(** ** What the run heard *)

Definition LAST_TOOL_RESULT_TAIL_CHARS : nat := 700.
Definition LAST_TOOL_RESULTS_KEPT : nat := 2.

Record hearing := Hearing {
  h_response : text;                     (** [final_response] *)
  h_block : option text;                 (** [last_block] *)
  h_ended : option (text * totals * Z);  (** the reason, the usage and the turns of the [result] event *)
  h_calls : list text;                   (** the names called *)
  h_errors : list text;                  (** [tool_errors] *)
  h_kept : list (text * text);           (** [last_tool_results] *)
  h_alarms : list (string * json)        (** [script_alarms] *)
}.
Definition silence : hearing := Hearing [] None None [] [] [] [].

Section Hearing.
Context `{PyNumbers} `{PyUnicode}.

Definition last_of {A} (n : nat) (l : list A) : list A := drop (length l - n) l.

Definition hear_result (r : tool_result) (h : hearing) : outcome hearing :=
  alarms <-? _scan_exit_sentinels r.(r_content) h.(h_alarms) ;;
  let keep := negb r.(r_is_error) && nonnil (strip r.(r_content)) in
  Ok (Hearing h.(h_response) h.(h_block) h.(h_ended) h.(h_calls)
        (if r.(r_is_error) then h.(h_errors) ++ [take 600 r.(r_content)] else h.(h_errors))
        (if keep then last_of LAST_TOOL_RESULTS_KEPT (h.(h_kept) ++ [(r.(r_name), r.(r_content))]) else h.(h_kept)) alarms).

Definition hear_one (h : hearing) (e : event) : outcome hearing :=
  let '(Hearing response block ended calls errors kept alarms) := h in
  match e with
  | EvText t => Ok (Hearing (response ++ t) block ended calls errors kept alarms)
  | EvRetry _ _ n _ => Ok (Hearing (trim response n) block ended calls errors kept alarms)
  | EvAssistant t _ _ _ _ _ _ => Ok (Hearing response (if nonnil t then Some t else block) ended calls errors kept alarms)
  | EvToolCall _ name _ _ _ => Ok (Hearing response block ended (calls ++ [name]) errors kept alarms)
  | EvResult stop us turns _ _ _ _ _ => Ok (Hearing response block (Some (stop, us, turns)) calls errors kept alarms)
  | EvToolResult r => hear_result r h
  | _ => Ok h
  end.

(** What is kept of a stream, up to the event that raised if one did. *)
Fixpoint hear (h : hearing) (es : list event) : hearing * option exn :=
  match es with
  | [] => (h, None)
  | e :: es => match hear_one h e with Ok h => hear h es | Raise x => (h, Some x) end
  end.

(** The run's answer: its last block, or everything it said. *)
Definition terminal_text (h : hearing) : text := default h.(h_response) h.(h_block).

Definition stop_reason (h : hearing) : option text := (fun x => x.1.1) <$> h.(h_ended).
Definition num_turns (h : hearing) : option Z := snd <$> h.(h_ended).
Definition reason_json (h : hearing) : json := match stop_reason h with Some r => JStr (encode r) | None => JNull end.
Definition usage_json (h : hearing) : json :=
  match h.(h_ended) with Some (_, us, _) => JObj (map (fun p => (p.1, JInt p.2)) (map_to_list us)) | None => JNull end.
Definition turns_json (h : hearing) : json := match num_turns h with Some n => JInt n | None => JNull end.
Definition errors_json (h : hearing) : json := JInt (Z.of_nat (length h.(h_errors))).

(** The end of the last tool results, for the record of a run that was killed. *)
Definition _tail_of_result (content : text) : text :=
  let content := strip content in
  if (length content <=? LAST_TOOL_RESULT_TAIL_CHARS)%nat then content
  else u "[…" ++ show (Z.of_nat (length content - LAST_TOOL_RESULT_TAIL_CHARS)) ++ u " chars earlier]" ++ nl ++ last_of LAST_TOOL_RESULT_TAIL_CHARS content.

Definition FENCED : text := u "```".
Definition quoted (body : text) : text := FENCED ++ nl ++ body ++ nl ++ FENCED.
Definition named (name : text) : text := match name with [] => u "unnamed" | _ => name end.

Definition _last_tool_result_section (results : list (text * text)) : text :=
  match rev results with
  | [] => []
  | (name, newest) :: prior =>
      match _tail_of_result newest with
      | [] => []
      | body =>
          nl ++ nl ++ u "## Last completed tool result before the kill" ++ nl ++ nl ++ u "Tool: `" ++ named name
          ++ u "` — the run had reached this and was waiting on something else when its wall clock expired." ++ nl ++ nl ++ quoted body
          ++ match prior with
             | (name, prior) :: _ =>
                 match _tail_of_result prior with
                 | [] => []
                 | body => nl ++ nl ++ u "One step earlier, tool `" ++ named name
                     ++ u "` — kept because a run's artefact is often written by the step before the one that last spoke:" ++ nl ++ nl ++ quoted body
                 end
             | [] => []
             end
      end
  end.
End Hearing.
