(* ===== verification/TaskRun.v ===== *)
(** * Running a scheduled task

    [app/autonomy.py]: [run_task] from the task file to the verdict - what refuses a run
    before it starts, the grants it is given, the turn it waits for, and what each way of
    ending makes of the task - and [charge_death_without_verdict], the pool's charge for
    a run that never reached a verdict. The session, the prompt-embedding record, the
    observer and the ceiling's ledger record a run and decide nothing; they are left out. *)
From Stdlib Require Import String Ascii SpecFloat.
From S2P Require Import Prelude PyText Stamps QueueRows Regex Policy Grants Spill Microcompact PoolGates PoolRun Meter ToolCalls Turn Binary64 PyValues Windows DueRules TaskFiles TaskModels TaskLife Evidence RunEvidence.

Local Open Scope Z_scope.

Definition _INFRA_EMPTY_MAX_SECONDS : Z := 15.
Definition _POOL_TIMEOUT_MARGIN : Z := 30.

(** [max(60, min(declared, max_duration - margin))], where the caller has a cap. *)
Definition run_timeout (declared : Z) (max_duration : option Z) : Z :=
  match max_duration with
  | Some cap => if cap =? 0 then declared else Z.max 60 (Z.min declared (cap - _POOL_TIMEOUT_MARGIN))
  | None => declared
  end.

Definition QUOTE : text := [34%N].

(** How the turn ended: by itself, out of time, cancelled by the pool, or by an exception
    - its class and its text. *)
Inductive ending := Finishes | TimesOut (idle : text) | Cancels | Dies (cls why : text).

(** The text Python gives to errors. *)
Record wording := Wording { wd_specs : list spec_error -> text; wd_exn : exn -> text; wd_trace : text }.

(** What a dispatch is given, and what its turn turns out to be. *)
Record dispatched := Dispatched {
  dp_id : json;
  dp_max_duration : option Z;
  dp_trigger : text;                     (** who asked for the run *)
  dp_appendix : text;                    (** what [_evidence_prompt] appends *)
  dp_started : Z;
  dp_hour : Z;                           (** the hour on the wall *)
  dp_session : text;
  dp_opening : option (text * text);     (** what raised before the grants were read *)
  dp_store_up : bool;                    (** the grant store could be opened and written *)
  dp_events : list event;
  dp_ending : ending;
  dp_ended : Z;
  dp_grade : option json;                (** the acceptance grade *)
  dp_ledger : list (string * json);      (** what the change ledger adds to a record *)
  dp_ledger_block : text;
  dp_lands : bool;
  dp_stamp : text                        (** the clock of the activity log *)
}.

(** What a run changes: the files, the grants, and the refusals already written down. *)
Record fleet := Fleet { fl_vault : vault; fl_grants : gstore; fl_refused : list text }.

Definition on_files {A} (m : st vault A) : st fleet A :=
  fun s => let '(o, v) := m s.(fl_vault) in (o, Fleet v s.(fl_grants) s.(fl_refused)).

(** [try: m except Exception as e: k e else: go]. *)
Definition tried {S A B} (m : st S A) (k : exn -> st S B) (go : A -> st S B) : st S B :=
  fun s => let '(o, s) := m s in match o with Ok a => go a s | Raise e => k e s end.
Definition caught {S A} (m : st S A) (k : exn -> st S A) : st S A := tried m k sret.

(** The run is over: what it returns, or that it was cancelled. *)
Inductive ran := Returned (result : list (string * json)) | WasCancelled.

Section Running.
Context `{IsoStamps} `{PyNumbers} `{PyJson} `{PyUnicode} `{FloatText} `{PyZone} `{PyYaml} `{PyPatterns}.
Variables (S : shelf) (c : model_config) (d : disk) (w : wording) (home vault_dir : text).

(** ** Before the run *)

Definition path_shaped (name : text) : bool := contains (u "/") name || endswith (u ".md") name.
Fixpoint tilde (s : text) : text :=
  match s with [] => [] | c :: s => if (c =? 126)%N then home ++ tilde s else c :: tilde s end.

Definition _load_skill_content (reference : text) : option text :=
  let name := strip reference in
  if names_nothing name then None
  else d.(dk_text) (if path_shaped name then tilde name else vault_dir ++ u "/skills/" ++ name ++ u "/SKILL.md").

(** The reference a task file makes, the older key after the newer. *)
Definition skill_of (t : task) : text :=
  match stripped "skill_name" t with [] => stripped "skill_path" t | name => name end.

Definition _build_task_prompt (t : task) (skill : text) : text :=
  let silent_hint := u "[SYSTEM: If you have a meaningful status report or findings, send them — that is the whole point of this task. Only respond with exactly " ++ QUOTE ++ u "[SILENT]" ++ QUOTE ++ u " (nothing else) when there is genuinely nothing new to report. [SILENT] suppresses delivery to the user. Never combine [SILENT] with content — either report your findings normally, or say [SILENT] and nothing more.]" ++ nl ++ nl in
  let name := match obj_get "name" t with Some v => str_of v | None => u "autonomy-task" end in
  join nl ([silent_hint; u "[SYSTEM: You are executing autonomy task #" ++ shown (obj_get "id" t) ++ u ": " ++ QUOTE ++ name
              ++ QUOTE ++ u ". Follow the skill instructions below.]"; []; skill]
           ++ match strip (str_or_blank_of (obj_get "description" t)) with [] => [] | text => [[]; u "Task description: " ++ text] end).
(** [strftime("%Y%m%d_%H%M%S")] of an instant. *)
Definition run_stamp (t : Z) : text :=
  let '(y, m, day) := ymd (t / day_us + epoch_day) in
  let r := t mod day_us in
  map N_of_ascii (digs 4 y ++ digs 2 m ++ digs 2 day)
  ++ u "_" ++ map N_of_ascii (digs 2 (r / (3600 * usec)) ++ digs 2 (r / (60 * usec) mod 60) ++ digs 2 (r / usec mod 60)).
Definition run_id_of (p : dispatched) : text := u "run_" ++ str_of p.(dp_id) ++ u "_" ++ run_stamp p.(dp_started).

(** What a refused run returns. *)
Definition refused (error : text) : list (string * json) := [("success", JBool false); ("error", jtext error)]%string.
Definition turned_away (p : dispatched) (why : text) (rest : list (string * json)) : list (string * json) :=
  [("success", JBool false); ("status", JStr "skipped"); ("task_id", p.(dp_id)); ("error", jtext why)]%string ++ rest.

(** The run already going, if there is one. *)
Definition already_running (p : dispatched) (t : task) : outcome (option text) :=
  if negb (bool_decide (strip (str_or_blank_of (obj_get "status" t)) = u "in_progress")) then Ok None
  else
    let updated := _parse_iso (obj_get "updated" t) in
    stale_after <-? int_of (or_else (obj_get "timeout_seconds" t) (JInt 1800)) ;;
    Ok (match updated with
        | Some at_ =>
            if below_int (secs (p.(dp_started) - at_)) stale_after
            then Some (u "Task #" ++ str_of p.(dp_id) ++ u " is already in_progress (since "
                    ++ match iso_source (obj_get "updated" t) with Some s => utf8 (iso_norm s) | None => [] end ++ u "); not starting a second run")
            else None
        | None => None
        end).

(** One line in the task's log per task and model. A note that cannot be written does not
    count. *)
Definition _record_model_refusal (p : dispatched) (task_model refusal : text) : st fleet () :=
  fun s =>
    let key := str_of p.(dp_id) ++ u ":" ++ task_model in
    if bool_decide (key ∈ s.(fl_refused)) then (Ok tt, s)
    else
      let s := Fleet s.(fl_vault) s.(fl_grants) (s.(fl_refused) ++ [key]) in
      caught (on_files (write_note p.(dp_id) refusal p.(dp_stamp))) (fun _ => sret tt) s.

(** ** Verdicts *)

Definition section (title body : text) : text := u "## " ++ title ++ nl ++ nl ++ body.
Definition paragraphs (ps : list text) : text := join (nl ++ nl) ps.
Definition prompt_section (prompt : text) : text := section (u "Prompt") (take 500 prompt ++ u "...").
Definition error_list (errors : list text) : text := paragraphs (map quoted errors).
Definition titled_errors (title : text) (errors shown : list text) : text :=
  match errors with [] => [] | _ => nl ++ nl ++ section title (error_list shown) end.

Definition turn_facts (p : dispatched) (h : hearing) : list (string * json) :=
  [("stop_reason", reason_json h); ("usage", usage_json h); ("num_turns", turns_json h); ("tool_errors", errors_json h);
   ("session_id", jtext p.(dp_session))]%string.

Definition lasted (p : dispatched) : float := secs (p.(dp_ended) - p.(dp_started)).
Definition count_text (v : json) : text := str_of v.

(** [_record_failure] and what it returns. *)
Definition record_failed (p : dispatched) (t : task) (a : attempt) (summary body : text) (kind : failure_kind) (extra : list (string * json))
    : st vault ran :=
  let body := match p.(dp_ledger_block) with [] => body | block => body ++ nl ++ nl ++ block end in
  verdict <-s _record_failure p.(dp_hour) t a p.(dp_ended) summary body kind extra p.(dp_ledger) ;;
  let kind := jtext (kind_text kind) in
  sret (Returned (
    [("success", JBool false); ("status", JStr "failed"); ("task_id", p.(dp_id)); ("run_id", jtext a.(at_run)); ("error", jtext summary);
     ("duration_seconds", JFloat (encode (fixed1 (lasted p)))); ("failure_kind", kind); ("disabled", JBool verdict.(fv_disabled));
     ("meta", JObj (obj_merge extra [("failure_kind", kind); ("disabled", JBool verdict.(fv_disabled))]))]%string
    ++ if _evidence_pilot p.(dp_id) then [("claims", JList [])]%string else [])).

Definition graded (p : dispatched) : list (string * json) := match p.(dp_grade) with Some g => [("acceptance_grade", g)]%string | None => [] end.
Definition succeeded (p : dispatched) (a : attempt) (h : hearing) (preview : text) (meta : list (string * json)) : list (string * json) :=
  [("success", JBool true); ("status", JStr "success"); ("task_id", p.(dp_id)); ("run_id", jtext a.(at_run));
   ("duration_seconds", JFloat (encode (fixed1 (lasted p)))); ("response_preview", jtext preview); ("meta", JObj meta)]%string
  ++ graded p.
Definition claimed (p : dispatched) (response : text) : list (string * json) :=
  if _evidence_pilot p.(dp_id) then [("claims", JList (map JObj (parse_claims_block response)))]%string else [].

Definition timed_out (p : dispatched) (t : task) (a : attempt) (prompt : text) (timeout : Z) (idle : text) (h : hearing) : st vault ran :=
  let partial := match h.(h_response) with
                 | [] => u "(no output before timeout)" | r => section (u "Partial response before timeout") r end in
  let errs := titled_errors (u "Tool/script errors before timeout") h.(h_errors) (last_of 5 h.(h_errors)) in
  record_failed p t a (u "timed out after " ++ show timeout ++ u "s")
    (paragraphs [prompt_section prompt; partial ++ errs ++ _last_tool_result_section h.(h_kept)]) TaskFailure
    ([("timeout", JBool true); ("timeout_seconds", JInt timeout)]%string ++ turn_facts p h
     ++ [("idle_seconds", JFloat (encode idle)); ("tool_calls_dispatched", JInt (Z.of_nat (length h.(h_calls))))]%string).

(** The failure is recorded, and the cancellation goes on. *)
Definition cancelled (p : dispatched) (t : task) (a : attempt) (prompt : text) (h : hearing) : st vault ran :=
  let partial := match h.(h_response) with
                 | [] => u "(no output before cancellation)" | r => section (u "Partial response before cancellation") r end in
  _ <-s record_failed p t a (u "cancelled by the worker pool after " ++ fixed0 (lasted p) ++ u "s") (paragraphs [prompt_section prompt; partial]) TaskFailure
    (("cancelled", JBool true)%string :: turn_facts p h) ;;
  sret WasCancelled.

(** [_record_artifact_success]. *)
Definition basename (path : text) : text := rev (break_at (fun c => (c =? 47)%N) (rev path)).1.
Definition _record_artifact_success (p : dispatched) (t : task) (a : attempt) (h : hearing) (f : artifact) : st vault ran :=
  let what := basename f.(af_path) ++ u " (" ++ show f.(af_bytes) ++ u " B)" in
  let meta := turn_facts p h ++ [("empty", JBool true); ("status_basis", JStr "artifact"); ("output_artifact", artifact_json f)]%string ++ graded p in
  _ <-s record_success t a p.(dp_ended) (lasted p) (u "empty terminal text; status from artifact " ++ what)
    (paragraphs [section (u "Response") (u "(empty — the loop's last block was a tool call, so there was no terminal text to read; #832)");
                 section (u "Status evidence") (u "Recorded SUCCESS on its declared output artifact, not on terminal text:");
                 u "- path: `" ++ f.(af_path) ++ u "`" ++ nl ++ u "- bytes: " ++ show f.(af_bytes) ++ u " (floor " ++ show _ARTIFACT_MIN_BYTES ++ u ")"
                 ++ nl ++ u "- modified_at: " ++ utf8 (iso f.(af_modified)) ++ nl ++ u "- run started: " ++ utf8 (iso a.(at_started)) ++ nl])
    meta
    (fun ok => u "Run " ++ a.(at_run) ++ u " — SUCCESS (" ++ fixed0 (lasted p) ++ u "s) ⚠ empty terminal text; status from artifact " ++ what ++ u "; "
               ++ _record_phrase a ok false) ;;
  sret (Returned (succeeded p a h [] meta ++ claimed p [])).

Definition empty_response (p : dispatched) (t : task) (a : attempt) (prompt : text) (h : hearing) : st vault ran :=
  let kind := if negb (nonnil h.(h_calls)) && below_int (lasted p) _INFRA_EMPTY_MAX_SECONDS then InfraFailure else TaskFailure in
  record_failed p t a
    (u "empty response after " ++ fixed0 (lasted p) ++ u "s (stop_reason=" ++ count_text (reason_json h) ++ u ", turns=" ++ count_text (turns_json h)
     ++ u ", tool_errors=" ++ show (Z.of_nat (length h.(h_errors))) ++ u ")")
    (paragraphs [prompt_section prompt;
                 section (u "Response") (u "(empty — the model returned no text)" ++ titled_errors (u "Tool/script errors") h.(h_errors) (take 10 h.(h_errors)))])
    kind (("empty", JBool true)%string :: turn_facts p h ++ [("saw_tool_call", JBool (nonnil h.(h_calls)))]%string).

(** A run stopped at its turn cap with nothing to show. *)
Definition capped_out (p : dispatched) (t : task) (a : attempt) (prompt : text) (h : hearing) (meta : list (string * json))
    (gap : text) (weighed : option artifact) : st vault ran :=
  let marker := stripped "artifact_complete_marker" t in
  let on_disk := negb (bool_decide (gap = _MAX_TURNS_NO_ARTIFACT)) in
  let why := if on_disk
    then u "the file was there — " ++ shown (JInt ∘ af_bytes <$> weighed) ++ u " bytes, modified `" ++ shown (JStr ∘ iso ∘ af_modified <$> weighed)
         ++ u "` — which is every claim a byte count and an mtime can make. `artifact_complete_marker` declares what completion looks like inside it, and `"
         ++ marker ++ u "` is not in the file. A run the harness stopped cannot call a skeleton its deliverable."
    else u "produced no file at or above " ++ show _ARTIFACT_MIN_BYTES ++ u " bytes with an mtime at or after the run start — the same evidence `_declared_artifact_evidence` demands of a run whose terminal text was empty. A run the harness stopped cannot call itself a success without it." in
  record_failed p t a
    (u "stopped at max_turns (" ++ count_text (turns_json h) ++ u " turns) with "
     ++ (if on_disk then u "its declared output_artifact not carrying the marker" else u "no qualifying output_artifact on disk"))
    (paragraphs [prompt_section prompt; section (u "Response") h.(h_response);
                 section (u "Why this is recorded as a failure") (u "`stop_reason: max_turns`, and the task's declared `output_artifact` " ++ why)])
    TaskFailure
    (obj_merge meta [("status_basis", jtext gap); ("declared_artifact", jtext (str_or_blank_of (obj_get "output_artifact" t)));
                     ("artifact_complete_marker", match marker with [] => JNull | _ => jtext marker end);
                     ("artifact_evidence", match weighed with Some f => artifact_json f | None => JNull end)]%string).

Definition text_success (p : dispatched) (t : task) (a : attempt) (prompt : text) (h : hearing) (meta : list (string * json)) (hits : list text)
    : st vault ran :=
  let seconds := fixed0 (lasted p) in
  let started := u "Run " ++ a.(at_run) ++ u " — success (" ++ seconds ++ u "s)" in
  let missing ok := if (ok : bool) then [] else u " ⚠ " ++ _record_phrase a false false in
  let indicators := match hits with [] => []
    | _ => [section (u "⚠ Silent failure indicators detected") (join nl (map (fun s => u "- `" ++ s ++ u "`") (take 5 hits)))] end in
  let errors := match h.(h_errors) with [] => []
    | es => [section (u "⚠ Tool/script errors during run (" ++ show (Z.of_nat (length es)) ++ u ")") (error_list (take 10 es))] end in
  _ <-s record_success t a p.(dp_ended) (lasted p) (_outcome_summary h.(h_response))
    (paragraphs ([prompt_section prompt] ++ indicators ++ errors ++ [section (u "Response") h.(h_response)])) meta
    (fun ok => match hits, h.(h_errors) with
               | hit :: _, _ => started ++ u " ⚠ silent-failure indicators: " ++ take 120 hit ++ missing ok
               | [], (_ :: _) as es => started ++ u " ⚠ " ++ show (Z.of_nat (length es)) ++ u " tool error(s); " ++ _record_phrase a ok false
               | [], [] => started ++ missing ok
               end) ;;
  sret (Returned (succeeded p a h (_outcome_summary h.(h_response)) meta ++ [("script_alarm", JObj h.(h_alarms))]%string ++ claimed p h.(h_response))).

(** The turn ended by itself. *)
Definition finished (p : dispatched) (t : task) (a : attempt) (prompt : text) (h : hearing) : st vault ran :=
  if negb (nonnil (strip h.(h_response))) then
    evidence <-s slift (_declared_artifact_evidence S d t p.(dp_started)) ;;
    match evidence with
    | Some f => _record_artifact_success p t a h f
    | None => empty_response p t a prompt h
    end
  else
    let said := terminal_text h in
    hits <-s slift (_detect_silent_failures said (obj_get "expected_error_patterns" t)) ;;
    let meta := [("stop_reason", reason_json h); ("usage", usage_json h); ("num_turns", turns_json h); ("tool_errors", errors_json h);
                 ("silent", JBool (is_silent_response said)); ("silent_failure_indicators", JInt (Z.of_nat (length hits)));
                 ("session_id", jtext p.(dp_session))]%string
                ++ graded p ++ match h.(h_alarms) with [] => [] | alarms => [("script_alarm", JObj alarms)]%string end in
    weighed <-s (if bool_decide (stop_reason h = Some (u "max_turns")) then slift (_cap_out_gap S d t p.(dp_started)) else sret (None, None)) ;;
    match weighed with
    | (Some gap, f) => capped_out p t a prompt h meta gap f
    | (None, _) => text_success p t a prompt h meta hits
    end.

(** The outer handler: whatever else was raised. *)
Definition raised (p : dispatched) (t : task) (a : attempt) (h : hearing) (cls why : text) : st vault ran :=
  let message := cls ++ u ": " ++ why in
  let errors := match h.(h_errors) with [] => []
    | es => nl ++ nl ++ section (u "Tool/script errors before failure (" ++ show (Z.of_nat (length es)) ++ u ")") (error_list (last_of 10 es)) end in
  record_failed p t a message (section (u "Error") (quoted (message ++ nl ++ nl ++ w.(wd_trace))) ++ errors) (_failure_kind_of cls)
    [("exception", jtext cls); ("tool_errors", errors_json h); ("session_id", jtext p.(dp_session))]%string.
Definition raised_exn (p : dispatched) (t : task) (a : attempt) (h : hearing) (e : exn) : st vault ran :=
  raised p t a h (utf8 (exn_name e)) (w.(wd_exn) e).

(** ** The run *)

(** The task's grants: [Some] is what a run without them returns. *)
Definition granted (p : dispatched) (t : task) : st fleet (option (list (string * json))) :=
  let id := str_of p.(dp_id) in
  let block := default JNull (obj_get "grants" t) in
  let without why := [("success", JBool false); ("task_id", p.(dp_id)); ("error", jtext (u "Task #" ++ id ++ why))]%string in
  specs <-s slift (validate_task_grants block) ;;
  match specs.2 with
  | _ :: _ => sret (Some (without (u " declares an unreadable grants: block; refusing to run ungated: " ++ w.(wd_specs) specs.2)))
  | [] =>
      fun s =>
        let failed := Some (without (u " could not materialize its grants: " ++ w.(wd_exn) GrantError)) in
        if negb p.(dp_store_up) then (Ok failed, s)
        else
          let '(o, store) := sync_task_grants id (u "autonomy-task:" ++ id) block p.(dp_started) s.(fl_grants) in
          let s := Fleet s.(fl_vault) store s.(fl_refused) in
          match o with
          | Ok _ => (Ok None, s)
          | Raise GrantError => (Ok failed, s)
          | Raise e => (Raise e, s)
          end
  end.

(** From the turn's events and its ending to the verdict. *)
Definition turned (p : dispatched) (t : task) (a : attempt) (prompt : text) (timeout : Z) : st vault ran :=
  let '(h, broke) := hear silence p.(dp_events) in
  match broke, p.(dp_ending) with
  | Some e, _ => raised_exn p t a h e
  | None, Dies cls why => raised p t a h cls why
  | None, ending =>
      caught (match ending with
              | TimesOut idle => timed_out p t a prompt timeout idle h
              | Cancels => cancelled p t a prompt h
              | _ => finished p t a prompt h
              end) (raised_exn p t a h)
  end.

Definition attempted (p : dispatched) (t : task) (a : attempt) (prompt : text) (timeout : Z) : st fleet ran :=
  match p.(dp_opening) with
  | Some (cls, why) => on_files (raised p t a silence cls why)
  | None =>
      tried (granted p t) (fun e => on_files (raised_exn p t a silence e))
        (fun refusal => match refusal with
                        | Some result => sret (Returned result)
                        | None => on_files (turned p t a prompt timeout)
                        end)
  end.

(** The task is marked, and the run made. *)
Definition started (p : dispatched) (t : task) (active : list (string * json)) (skill : text) : st fleet ran :=
  let at_ := JStr (iso p.(dp_started)) in
  _ <-s on_files (write_fields p.(dp_id) [("status", JStr "in_progress"); ("updated", at_)]%string) ;;
  let prompt := _build_task_prompt t skill ++ p.(dp_appendix) in
  declared <-s slift (int_of (or_else (obj_get "timeout_seconds" t) (JInt 1800))) ;;
  attempted p t (Attempt p.(dp_id) (run_id_of p) (iso p.(dp_started)) p.(dp_started) active p.(dp_lands) p.(dp_stamp)) prompt
    (run_timeout declared p.(dp_max_duration)).

(** The guards before the task is marked. *)
Definition run_found (p : dispatched) (t : task) : st fleet ran :=
  hours <-s slift (_effective_preferred_hours t) ;;
  inside <-s slift (match hours with Some (_ :: _) => b <-? _is_preferred_hour p.(dp_hour) t ;; Ok [("in_window", JBool b)]%string | _ => Ok [] end) ;;
  match skill_of t with
  | [] => sret (Returned (refused (u "Task #" ++ str_of p.(dp_id) ++ u " has no skill_name or skill_path")))
  | name =>
      match _load_skill_content name with
      | None | Some [] => sret (Returned (refused (u "Skill not found: " ++ name)))
      | Some skill =>
          running <-s slift (already_running p t) ;;
          match running with
          | Some why => sret (Returned (turned_away p why [("skipped", JBool true)]%string))
          | None =>
              let task_model := _resolve_task_model c t in
              refusal <-s slift (_model_dispatch_refusal c p.(dp_id) task_model) ;;
              match refusal with
              | Some why =>
                  _ <-s _record_model_refusal p task_model why ;;
                  sret (Returned (turned_away p why [("skipped", jtext why); ("refusal", JStr "unconfigured_model")]%string))
              | None => started p t (("trigger", jtext p.(dp_trigger))%string :: inside) skill
              end
          end
      end
  end.

Definition run_task (p : dispatched) : st fleet ran :=
  fun s =>
    match _find_task_file p.(dp_id) s.(fl_vault).(v_tasks) with
    | None => (Ok (Returned (refused (u "Task #" ++ str_of p.(dp_id) ++ u " not found"))), s)
    | Some f =>
        match _parse_task_file f with
        | None => (Ok (Returned (refused (u "Failed to parse task #" ++ str_of p.(dp_id)))), s)
        | Some t => run_found p t s
        end
    end.

(** ** A death that reached no verdict *)

Definition charge_death_without_verdict (id : json) (cls why run_id : text) (started_at : string) (hour now : Z)
    (ledger : list (string * json)) (lands : bool) (stamp : text) : st vault (failure_kind * bool) :=
  let kind := _failure_kind_of cls in
  fun v =>
    match f ← _find_task_file id v.(v_tasks); _parse_task_file f with
    | None => (Ok (kind, false), v)
    | Some t =>
        let a := Attempt id run_id started_at (default now (_parse_iso (Some (JStr started_at)))) [] lands stamp in
        let message := cls ++ u ": " ++ why in
        tried (_record_failure hour t a now message
                 (paragraphs [u "## Error before the task ran"; quoted message;
                    u "Raised outside `run_task`, so this run never reached the engine and wrote no verdict of its own; the pool charged it here, on the `kind="
                    ++ kind_text kind ++ u "` path `_failure_kind_of` chose."])
                 kind [("exception", jtext cls); ("unrecorded_death", JBool true)]%string ledger)
          (fun _ => sret (kind, false)) (fun _ => sret (kind, true)) v
    end.
End Running.
