(* ===== verification/RunFacts.v ===== *)
(** * Running a scheduled task: where a run leaves its task

    Whatever a turn does - finish, run out of time, be cancelled, raise - the task is up
    next or retired when the run is over, and which of the two follows from what was heard
    and what is on disk. A run that is turned away leaves the files alone; one whose
    grants cannot be read leaves its task marked as running. *)
From Stdlib Require Import String SpecFloat.
From S2P Require Import Prelude PyText Stamps QueueRows Regex Policy Grants Spill Microcompact PoolGates PoolRun Meter ToolCalls Turn Binary64 PyValues Windows DueRules DueFacts TaskFiles TaskModels TaskLife FileFacts LifeFacts SweepFacts Evidence RunEvidence TaskRun.

Local Open Scope Z_scope.

Section Runs.
Context `{IsoStamps} `{PyNumbers} `{PyJson} `{PyUnicode} `{FloatText} `{PyZone} `{PyYaml} `{PyPatterns} `{!PlainStamps} `{!NullShown}.
Variables (S : shelf) (c : model_config) (d : disk) (w : wording) (home vault_dir : text).
Implicit Types (p : dispatched) (t : task) (a : attempt) (v : vault) (h : hearing).

(** ** A settled task *)

(** The last fields written: an end to the run, not a run. *)
Definition settlement p (fields : task) : Prop :=
  (obj_get "status" fields = Some (JStr "up_next") \/ obj_get "status" fields = Some (JStr "failed")) /\
  obj_get "last_attempt" fields = Some (JStr (iso p.(dp_ended))).

Definition settled p a v' : Prop :=
  (exists fields dir, settlement p fields /\
     let wrote := _update_task_field a.(at_id) fields dir in
     v'.(v_tasks) = wrote \/ exists note, _append_activity_log a.(at_id) note a.(at_stamp) wrote = Ok v'.(v_tasks)) /\
  (a.(at_lands) = true -> exists content, (a.(at_run), content) ∈ default [] (v'.(v_runs) !! str_of a.(at_id))).

(** What a failure has to read of the file: its count, its budget, and when to go on. *)
Definition chargeable p t : Prop := forall kind, exists n m fv,
  failures_of t kind = Ok n /\ max_retries_budget t = Ok m /\ failure_fields p.(dp_hour) t kind n m p.(dp_ended) = Ok fv.

Lemma failure_settlement p t kind n m fv : failure_fields p.(dp_hour) t kind n m p.(dp_ended) = Ok fv -> settlement p fv.(fv_fields).
Proof.
  intros E. apply failure_shape in E as (_ & _ & Ha & _ & Hs & _). split; [|done]. rewrite Hs. case_match; auto.
Qed.

Lemma recorded a status completed lasted summary body extra v o v1 :
  _write_run_record a status completed lasted summary body extra v = (o, v1) ->
  v1.(v_tasks) = v.(v_tasks) /\ (exists landed, o = Ok landed) /\
  (a.(at_lands) = true -> exists content, (a.(at_run), content) ∈ default [] (v1.(v_runs) !! str_of a.(at_id))).
Proof.
  unfold _write_run_record. destruct (at_lands a); intros [= <- <-]; (split_and!; [done|by eexists|]); [|done].
  intros _. eexists. unfold with_record. cbn [v_runs]. rewrite lookup_insert_eq. apply put_record_in.
Qed.

(** Fields and a note, after a record that may have landed. *)
Lemma written_settles p a fields note v : settlement p fields ->
  (a.(at_lands) = true -> exists content, (a.(at_run), content) ∈ default [] (v.(v_runs) !! str_of a.(at_id))) ->
  settled p a (snd ((_ <-s write_fields a.(at_id) fields ;; write_note a.(at_id) note a.(at_stamp)) v)).
Proof.
  intros Hf Hr. unfold sbind, write_fields, write_note. cbn [v_tasks with_tasks].
  destruct (_append_activity_log _ _ _ _) as [dir|e] eqn:E; cbn [snd]; (split; [|done]); exists fields, v.(v_tasks); (split; [done|]); [|by left].
  right. by exists note.
Qed.

Lemma failure_settles p t a kind summary body extra ledger v : chargeable p t ->
  settled p a (snd (_record_failure p.(dp_hour) t a p.(dp_ended) summary body kind extra ledger v)).
Proof.
  intros Hc. destruct (Hc kind) as (n & m & fv & En & Em & Ef). unfold _record_failure. unfold sbind at 1, slift at 1. rewrite En.
  unfold sbind at 1. destruct (_write_run_record _ _ _ _ _ _ _ v) as [o v1] eqn:Er. apply recorded in Er as (_ & [landed ->] & Hr).
  unfold sbind at 1, slift at 1. rewrite Em. unfold sbind at 1, slift at 1. rewrite Ef.
  pose proof (written_settles p a fv.(fv_fields) (failure_note a kind summary landed n fv) v1 (failure_settlement _ _ _ _ _ _ Ef) Hr) as W.
  revert W. unfold sbind. destruct (write_fields _ _ v1) as [[] v2]; [|done]. by destruct (write_note _ _ _ v2) as [[] v3].
Qed.

Lemma failed_run_settles p t a summary body kind extra v : chargeable p t -> settled p a (snd (record_failed p t a summary body kind extra v)).
Proof.
  intros Hc. unfold record_failed. cbv zeta. set (b := match dp_ledger_block p with [] => _ | _ => _ end).
  pose proof (failure_settles p t a kind summary b extra p.(dp_ledger) v Hc) as W. revert W.
  unfold sbind. by destruct (_record_failure _ _ _ _ _ _ _ _ _ v) as [[] v1].
Qed.

Lemma raised_settles p t a h cls why v : chargeable p t -> settled p a (snd (raised w p t a h cls why v)).
Proof. apply failed_run_settles. Qed.

(** ** What may be raised, and what is settled when nothing is *)

(** A step leaves the task settled, or raises. *)
Definition settles {A} p a (m : st vault A) : Prop := forall v o v', m v = (Ok o, v') -> settled p a v'.

Lemma settles_snd {A} p a (m : st vault A) : (forall v, settled p a (snd (m v))) -> settles p a m.
Proof. intros Hm v o v' E. specialize (Hm v). by rewrite E in Hm. Qed.

Lemma settles_bind {A B} p a (m : st vault A) (k : A -> st vault B) : (forall x, settles p a (k x)) -> settles p a (x <-s m ;; k x).
Proof. intros Hk v r v'. unfold sbind. destruct (m v) as [[x|e] v1]; [apply Hk|done]. Qed.

Lemma settles_map {A B} p a (m : st vault A) (f : A -> B) : settles p a m -> settles p a (x <-s m ;; sret (f x)).
Proof. intros Hm v r v'. unfold sbind. destruct (m v) as [[x|e] v1] eqn:E; [|done]. intros [= _ <-]. by eapply Hm. Qed.

Lemma success_settles p t a duration summary body extra note : settles p a (record_success t a p.(dp_ended) duration summary body extra note).
Proof.
  intros v o v'. unfold record_success. unfold sbind at 1. destruct (_write_run_record _ _ _ _ _ _ _ v) as [o1 v1] eqn:Er.
  apply recorded in Er as (_ & [landed ->] & Hr). unfold sbind at 1, slift at 1. destruct (success_fields t p.(dp_ended)) as [fields|e] eqn:Ef; [|done].
  intros E. pose proof (written_settles p a fields (note landed) v1) as W. rewrite E in W. apply W; [|done].
  unfold success_fields in Ef. apply obind_ok in Ef as (i & _ & Ef). apply obind_ok in Ef as (next & _ & Ef). injection Ef as <-.
  split; [by left|done].
Qed.

Lemma finished_settles p t a prompt h : chargeable p t -> settles p a (finished S d p t a prompt h).
Proof.
  intros Hc. unfold finished. destruct (negb _); apply settles_bind.
  - intros [f|]; [apply settles_map, success_settles|]. apply settles_snd. intros. by apply failed_run_settles.
  - intros hits. cbv zeta. apply settles_bind. intros [[gap|] f].
    + apply settles_snd. intros. by apply failed_run_settles.
    + apply settles_map, success_settles.
Qed.

Lemma caught_settles {A} p a (m : st vault A) k v : settles p a m -> (forall e v, settled p a (snd (k e v))) -> settled p a (snd (caught m k v)).
Proof. intros Hm Hk. unfold caught, tried. destruct (m v) as [[x|e] v1] eqn:E; [|apply Hk]. by eapply Hm. Qed.

(** Whatever the turn did, and whatever writing it down raised. *)
Lemma turned_settles p t a prompt timeout v : chargeable p t -> settled p a (snd (turned S d w p t a prompt timeout v)).
Proof.
  intros Hc. unfold turned. destruct (hear silence _) as [h [e|]]; [by apply raised_settles|].
  destruct (dp_ending p) as [|idle| |cls why]; [| | |by apply raised_settles];
    (apply caught_settles; [|intros; by apply raised_settles]).
  - by apply finished_settles.
  - apply settles_snd. intros. by apply failed_run_settles.
  - apply settles_map, settles_snd. intros. by apply failed_run_settles.
Qed.

(** ** The whole run *)

Definition marked p v : vault :=
  with_tasks (_update_task_field p.(dp_id) [("status", JStr "in_progress"); ("updated", JStr (iso p.(dp_started)))]%string v.(v_tasks)) v.
Definition declared_timeout t : outcome Z := int_of (or_else (obj_get "timeout_seconds" t) (JInt 1800)).

(** A run turned away changes nothing but perhaps one line of the log. *)
Definition turned_from p v v' : Prop :=
  v' = v \/ exists note dir, _append_activity_log p.(dp_id) note p.(dp_stamp) v.(v_tasks) = Ok dir /\ v' = with_tasks dir v.

Definition attempt_of p active : attempt :=
  Attempt p.(dp_id) (run_id_of p) (iso p.(dp_started)) p.(dp_started) active p.(dp_lands) p.(dp_stamp).
Definition over p v' : Prop := exists active, settled p (attempt_of p active) v'.

Lemma on_files_run {A} (m : st vault A) s : on_files m s = (fst (m s.(fl_vault)), Fleet (snd (m s.(fl_vault))) s.(fl_grants) s.(fl_refused)).
Proof. unfold on_files. by destruct (m _). Qed.

Lemma granted_files p t s o s' : granted w p t s = (o, s') -> s'.(fl_vault) = s.(fl_vault).
Proof.
  unfold granted, sbind, slift. destruct (validate_task_grants _) as [[specs [|x es]]|]; [|by intros [= _ <-]..].
  cbn [snd]. destruct (negb _); [by intros [= _ <-]|]. destruct (sync_task_grants _ _ _ _ _) as [[n|e] store]; [by intros [= _ <-]|].
  destruct e; by intros [= _ <-].
Qed.

Lemma attempted_ends p t a prompt timeout s o s' : chargeable p t -> attempted S d w p t a prompt timeout s = (o, s') ->
  (exists result, s'.(fl_vault) = s.(fl_vault) /\ o = Ok (Returned result) /\ fst (granted w p t s) = Ok (Some result)) \/ settled p a s'.(fl_vault).
Proof.
  intros Hc. unfold attempted. destruct (dp_opening p) as [[cls why]|].
  - rewrite on_files_run. intros [= _ <-]. right. by apply raised_settles.
  - unfold tried. destruct (granted w p t s) as [[[result|]|e] s1] eqn:Eg; cbn [fst].
    + intros [= <- <-]. left. exists result. by rewrite (granted_files _ _ _ _ _ Eg).
    + rewrite on_files_run. intros [= _ <-]. right. by apply turned_settles.
    + rewrite on_files_run. intros [= _ <-]. right. by apply raised_settles.
Qed.

Lemma model_refusal_files p model why s o s' : _record_model_refusal p model why s = (o, s') -> turned_from p s.(fl_vault) s'.(fl_vault) /\ o = Ok tt.
Proof.
  unfold _record_model_refusal. case_bool_decide; [intros [= <- <-]; split; [by left|done]|]. unfold caught, tried. rewrite on_files_run. unfold write_note. cbn [fl_vault].
  destruct (_append_activity_log _ _ _ _) as [dir|e] eqn:E; cbn [fst snd].
  - intros [= <- <-]. split; [|done]. right. by exists why, dir.
  - intros [= <- <-]. split; [by left|done].
Qed.

(** A run that did not happen does not say it succeeded. *)
Definition no_success (o : outcome ran) : Prop :=
  match o with Ok (Returned result) => obj_get "success" result = Some (JBool false) | Ok WasCancelled => False | Raise _ => True end.

Lemma granted_refuses p t s result : fst (granted w p t s) = Ok (Some result) -> no_success (Ok (Returned result)).
Proof.
  unfold granted, sbind, slift. destruct (validate_task_grants _) as [[specs [|x es]]|]; [|by intros [= <-]|done].
  cbn [snd]. destruct (negb _); [by intros [= <-]|]. destruct (sync_task_grants _ _ _ _ _) as [[n|e] store]; [done|].
  destruct e; try done. by intros [= <-].
Qed.

Lemma started_ends p t active skill s o s' : chargeable p t -> started S d w p t active skill s = (o, s') ->
  (s'.(fl_vault) = marked p s.(fl_vault) /\ no_success o /\
     ((exists e, declared_timeout t = Raise e) \/ exists s1 result, s1.(fl_vault) = marked p s.(fl_vault) /\ s1.(fl_grants) = s.(fl_grants) /\ fst (granted w p t s1) = Ok (Some result))) \/
  over p s'.(fl_vault).
Proof.
  intros Hc. unfold started. cbv zeta. unfold sbind at 1. rewrite on_files_run. cbn [fst snd write_fields]. set (s1 := Fleet _ _ _).
  assert (Hm : s1.(fl_vault) = marked p s.(fl_vault)) by done. unfold sbind, slift. fold (declared_timeout t).
  destruct (declared_timeout t) as [n|e] eqn:Et; [|intros [= <- <-]; left; split_and!; [done|done|left; by exists e]].
  intros E. apply attempted_ends in E as [(result & E1 & -> & Eg)|E]; [|right; by exists active|done].
  left. rewrite E1. split_and!; [done|by apply (granted_refuses p t s1)|right; by exists s1, result].
Qed.

End Runs.
