(* ===== verification/RunVerdicts.v ===== *)
(** * Running a scheduled task: the verdict

    What was heard and what is on disk decide a run: the verdict of every ending against
    a reference judge, carried out by the one failure path or the one success path; and a
    run whose grants cannot be read or written down, which reaches no verdict at all. *)
From Stdlib Require Import String SpecFloat.
From S2P Require Import Prelude PyText Stamps QueueRows Regex Policy Grants Spill Microcompact PoolGates PoolRun Meter ToolCalls Turn Binary64 PyValues Windows DueRules DueFacts TaskFiles TaskModels TaskLife FileFacts LifeFacts SweepFacts Evidence RunEvidence TaskRun RunFacts.

Local Open Scope Z_scope.

Section Verdict.
Context `{IsoStamps} `{PyNumbers} `{PyJson} `{PyUnicode} `{FloatText} `{PyZone} `{PyYaml} `{PyPatterns} `{!PlainStamps} `{!NullShown}.
Variables (S : shelf) (c : model_config) (d : disk) (w : wording) (home vault_dir : text).
Implicit Types (p : dispatched) (t : task) (a : attempt) (v : vault) (h : hearing).

(** ** The judge *)

Inductive verdict := Succeeds | Fails (kind : failure_kind).

Definition said_nothing h : bool := bool_decide (strip h.(h_response) = []).
Definition judge p h (evidence : option artifact) (gap : option text) : verdict :=
  match p.(dp_ending) with
  | Dies cls _ => Fails (_failure_kind_of cls)
  | TimesOut _ | Cancels => Fails TaskFailure
  | Finishes =>
      if said_nothing h then
        match evidence with
        | Some _ => Succeeds
        | None => if bool_decide (h.(h_calls) = []) && (p.(dp_ended) - p.(dp_started) <? _INFRA_EMPTY_MAX_SECONDS * SECOND) then Fails InfraFailure else Fails TaskFailure
        end
      else if bool_decide (stop_reason h = Some (u "max_turns")) && bool_decide (is_Some gap) then Fails TaskFailure else Succeeds
  end.

(** ** The two ways a verdict is carried out *)

Definition says (result : list (string * json)) (success : bool) : Prop := obj_get "success" result = Some (JBool success).

Definition carried_failure p t a kind v (r : outcome ran * vault) : Prop := exists summary body extra fv,
  _record_failure p.(dp_hour) t a p.(dp_ended) summary body kind extra p.(dp_ledger) v = (Ok fv, r.2) /\
  (r.1 = Ok WasCancelled \/ exists result, r.1 = Ok (Returned result) /\ says result false /\
     obj_get "failure_kind" result = Some (jtext (kind_text kind)) /\ obj_get "disabled" result = Some (JBool fv.(fv_disabled))).
Definition carried_success p t a v (r : outcome ran * vault) : Prop := exists summary body extra note result,
  record_success t a p.(dp_ended) (lasted p) summary body extra note v = (Ok tt, r.2) /\ r.1 = Ok (Returned result) /\ says result true.

Lemma failure_written p t a kind summary body extra ledger v : counts_readable -> chargeable p t ->
  exists fv v', _record_failure p.(dp_hour) t a p.(dp_ended) summary body kind extra ledger v = (Ok fv, v').
Proof.
  intros Hr Hc. destruct (Hc kind) as (n & m & fv & En & Em & Ef). unfold _record_failure. unfold sbind at 1, slift at 1. rewrite En. unfold sbind at 1.
  destruct (_write_run_record _ _ _ _ _ _ _ v) as [o v1] eqn:Ew. apply recorded in Ew as (_ & [landed ->] & _).
  unfold sbind at 1, slift at 1. rewrite Em. unfold sbind at 1, slift at 1. rewrite Ef. unfold sbind, write_fields, write_note.
  match goal with |- context [_append_activity_log ?i ?n ?s ?x] => destruct (append_log_ok i n s x Hr) as [dir ->] end. by eexists fv, _.
Qed.

Lemma failure_carried p t a kind summary body extra v : counts_readable -> chargeable p t ->
  exists fv result v' b, record_failed p t a summary body kind extra v = (Ok (Returned result), v') /\
    _record_failure p.(dp_hour) t a p.(dp_ended) summary b kind extra p.(dp_ledger) v = (Ok fv, v') /\
    says result false /\ obj_get "failure_kind" result = Some (jtext (kind_text kind)) /\ obj_get "disabled" result = Some (JBool fv.(fv_disabled)).
Proof.
  intros Hr Hc. unfold record_failed. cbv zeta. set (b := match dp_ledger_block p with [] => _ | _ => _ end).
  destruct (failure_written p t a kind summary b extra p.(dp_ledger) v Hr Hc) as (fv & v' & E).
  unfold sbind. rewrite E. eexists fv, _, v', b. split; [done|]. split; [exact E|]. split_and!; reflexivity.
Qed.

Lemma success_carried p t a summary body extra note v fields : counts_readable -> success_fields t p.(dp_ended) = Ok fields ->
  exists v', record_success t a p.(dp_ended) (lasted p) summary body extra note v = (Ok tt, v').
Proof.
  intros Hr Ef. unfold record_success. unfold sbind at 1. destruct (_write_run_record _ _ _ _ _ _ _ v) as [o v1] eqn:Ew. apply recorded in Ew as (_ & [landed ->] & _).
  unfold sbind at 1, slift at 1. rewrite Ef. unfold sbind, write_fields, write_note.
  match goal with |- context [_append_activity_log ?i ?n ?s ?x] => destruct (append_log_ok i n s x Hr) as [dir ->] end. by eexists.
Qed.

Lemma carry_failed p t a kind summary body extra v k : counts_readable -> chargeable p t ->
  carried_failure p t a kind v (caught (record_failed p t a summary body kind extra) k v).
Proof.
  intros Hr Hc. destruct (failure_carried p t a kind summary body extra v Hr Hc) as (fv & result & v' & b & E & Eb & Hs & Hk & Hd).
  unfold caught, tried. rewrite E. exists summary, b, extra, fv. split; [exact Eb|]. right. by exists result.
Qed.

Lemma carry_raised p t a h cls why v : counts_readable -> chargeable p t ->
  carried_failure p t a (_failure_kind_of cls) v (raised w p t a h cls why v).
Proof.
  intros Hr Hc. unfold raised. cbv zeta. match goal with |- carried_failure _ _ _ _ _ (record_failed _ _ _ ?s ?b _ ?x _) =>
    destruct (failure_carried p t a (_failure_kind_of cls) s b x v Hr Hc) as (fv & result & v' & b' & -> & Eb & Hs & Hk & Hd); exists s, b', x, fv end.
  split; [exact Eb|]. right. by exists result.
Qed.

Lemma carry_cancelled p t a prompt h v k : counts_readable -> chargeable p t ->
  let r := caught (cancelled p t a prompt h) k v in carried_failure p t a TaskFailure v r /\ r.1 = Ok WasCancelled.
Proof.
  intros Hr Hc r. subst r. unfold caught, tried, cancelled. cbv zeta. unfold sbind. match goal with |- context [record_failed p t a ?s ?b ?kk ?x v] =>
    destruct (failure_carried p t a kk s b x v Hr Hc) as (fv & result & v' & b' & -> & Eb & Hs & Hk & Hd); split; [exists s, b', x, fv|done] end.
  split; [exact Eb|]. by left.
Qed.

Lemma said_nothing_spec h : negb (nonnil (strip h.(h_response))) = said_nothing h.
Proof. unfold said_nothing. by destruct (strip _). Qed.

Lemma short_enough p : - 2 ^ 51 < p.(dp_ended) - p.(dp_started) < 2 ^ 51 ->
  below_int (lasted p) _INFRA_EMPTY_MAX_SECONDS = (p.(dp_ended) - p.(dp_started) <? _INFRA_EMPTY_MAX_SECONDS * SECOND).
Proof. intros Hb. apply secs_below_int; [done|]. unfold _INFRA_EMPTY_MAX_SECONDS. lia. Qed.

(** What the disk says of the deliverable, and the text of its phrases. *)
Record weighed p t h (evidence : option artifact) (gap : option text) : Prop := Weighed {
  wg_evidence : _declared_artifact_evidence S d t p.(dp_started) = Ok evidence;
  wg_gap : exists f, _cap_out_gap S d t p.(dp_started) = Ok (gap, f);
  wg_hits : exists hits, _detect_silent_failures (terminal_text h) (obj_get "expected_error_patterns" t) = Ok hits
}.

Lemma finished_verdict p t a prompt h evidence gap v k : counts_readable -> chargeable p t -> (exists fields, success_fields t p.(dp_ended) = Ok fields) ->
  weighed p t h evidence gap -> - 2 ^ 51 < p.(dp_ended) - p.(dp_started) < 2 ^ 51 -> p.(dp_ending) = Finishes ->
  let r := caught (finished S d p t a prompt h) k v in
  match judge p h evidence gap with
  | Succeeds => carried_success p t a v r
  | Fails kind => carried_failure p t a kind v r /\ r.1 <> Ok WasCancelled
  end.
Proof.
  intros Hr Hc [fields Hf] [He [f Hg] [hits Hh]] Hb En. unfold judge. rewrite En. cbv zeta. unfold finished. rewrite said_nothing_spec.
  assert (F : forall kind summary body extra, let r := caught (record_failed p t a summary body kind extra) k v in
    carried_failure p t a kind v r /\ r.1 <> Ok WasCancelled).
  { intros kind summary body extra. split; [by apply carry_failed|].
    destruct (failure_carried p t a kind summary body extra v Hr Hc) as (fv & result & v' & b & E & _). unfold caught, tried. by rewrite E. }
  unfold caught, tried. destruct (said_nothing h).
  - unfold sbind at 1, slift at 1. rewrite He. destruct evidence as [x|].
    + unfold _record_artifact_success. cbv zeta. unfold sbind. match goal with |- context [record_success t a _ _ ?s ?b ?x ?n v] =>
        destruct (success_carried p t a s b x n v fields Hr Hf) as [v' E]; rewrite E; exists s, b, x, n end. by eexists.
    + unfold empty_response. rewrite short_enough by done. replace (negb (nonnil (h_calls h))) with (bool_decide (h_calls h = [])) by (by destruct (h_calls h)).
      destruct (bool_decide _ && _); apply F.
  - unfold sbind at 1, slift at 1. rewrite Hh. cbv zeta. unfold sbind at 1. destruct (bool_decide (stop_reason h = _)) eqn:Em; cbn [andb].
    + unfold slift at 1. rewrite Hg. destruct gap as [gap|].
      * rewrite bool_decide_eq_true_2 by by eexists. unfold capped_out. cbv zeta. apply F.
      * rewrite bool_decide_eq_false_2 by by intros []. unfold text_success. cbv zeta. unfold sbind. match goal with |- context [record_success t a _ _ ?s ?b ?x ?n v] =>
          destruct (success_carried p t a s b x n v fields Hr Hf) as [v' E]; rewrite E; exists s, b, x, n end. by eexists.
    + unfold sret at 1. unfold text_success. cbv zeta. unfold sbind. match goal with |- context [record_success t a _ _ ?s ?b ?x ?n v] =>
        destruct (success_carried p t a s b x n v fields Hr Hf) as [v' E]; rewrite E; exists s, b, x, n end. by eexists.
Qed.

(** C30: every ending is judged as the reference judge says, and carried out by the one
    path there is for its verdict. A run succeeds only by itself: on its words, unless it
    was stopped at its turn cap and its deliverable is missing or unfinished; or without
    words, on a deliverable that is on disk, large enough, and no older than the run.
    Everything else is a failure of the task's own, but two: an exception of the engine's
    and an empty answer within fifteen seconds that called no tool, which are not. What
    is returned says what was written, and a cancellation goes on. *)
Theorem run_verdict p t a prompt timeout h evidence gap v :
  hear silence p.(dp_events) = (h, None) -> counts_readable -> chargeable p t -> (exists fields, success_fields t p.(dp_ended) = Ok fields) ->
  weighed p t h evidence gap -> - 2 ^ 51 < p.(dp_ended) - p.(dp_started) < 2 ^ 51 ->
  let r := turned S d w p t a prompt timeout v in
  match judge p h evidence gap with
  | Succeeds => carried_success p t a v r
  | Fails kind => carried_failure p t a kind v r /\ (r.1 = Ok WasCancelled <-> p.(dp_ending) = Cancels)
  end.
Proof.
  intros Eh Hr Hc Hf Hw Hb. unfold turned. rewrite Eh. cbv zeta. destruct (dp_ending p) as [|idle| |cls why] eqn:En.
  - pose proof (finished_verdict p t a prompt h evidence gap v (raised_exn w p t a h) Hr Hc Hf Hw Hb En) as V. cbv zeta in V.
    destruct (judge p h evidence gap); [done|]. destruct V as [V N]. split; [done|]. by split.
  - unfold judge. rewrite En. split; [by apply carry_failed|]. split; [|done].
    unfold timed_out. cbv zeta. match goal with |- context [record_failed p t a ?s ?b ?kk ?x] => destruct (failure_carried p t a kk s b x v Hr Hc) as (fv & result & v' & b' & E & _) end.
    unfold caught, tried. by rewrite E.
  - unfold judge. rewrite En. destruct (carry_cancelled p t a prompt h v (raised_exn w p t a h) Hr Hc) as [V E]. split; [done|]. by split.
  - unfold judge. rewrite En. split; [by apply carry_raised|]. split; [|done]. unfold raised. cbv zeta.
    match goal with |- context [record_failed p t a ?s ?b ?kk ?x v] => destruct (failure_carried p t a kk s b x v Hr Hc) as (fv & result & v' & b' & E & _) end.
    by rewrite E.
Qed.

(** ** A verdict is always reached *)

Lemma raised_ok p t a h cls why v : counts_readable -> chargeable p t -> exists r v', raised w p t a h cls why v = (Ok r, v').
Proof.
  intros Hr Hc. unfold raised. cbv zeta. match goal with |- context [record_failed p t a ?s ?b ?kk ?x v] =>
    destruct (failure_carried p t a kk s b x v Hr Hc) as (fv & result & v' & b' & -> & _) end. by eexists _, _.
Qed.

Lemma turned_ok p t a prompt timeout v : counts_readable -> chargeable p t -> exists r v', turned S d w p t a prompt timeout v = (Ok r, v').
Proof.
  intros Hr Hc. unfold turned. destruct (hear silence _) as [h [e|]]; [by apply raised_ok|].
  destruct (dp_ending p); [..|by apply raised_ok]; unfold caught, tried;
    (match goal with |- context [let '(o, s) := ?m in _] => destruct m as [[x|e] v1] end; [by eexists _, _|by apply raised_ok]).
Qed.

Lemma attempted_ok p t a prompt timeout s : counts_readable -> chargeable p t -> exists r s', attempted S d w p t a prompt timeout s = (Ok r, s').
Proof.
  intros Hr Hc. unfold attempted. destruct (dp_opening p) as [[cls why]|].
  - rewrite on_files_run. destruct (raised_ok p t a silence cls why s.(fl_vault) Hr Hc) as (r & v' & ->). by eexists _, _.
  - unfold tried. destruct (granted w p t s) as [[[result|]|e] s1]; [by eexists _, _|..]; rewrite on_files_run.
    + destruct (turned_ok p t a prompt timeout s1.(fl_vault) Hr Hc) as (r & v' & ->). by eexists _, _.
    + destruct (raised_ok p t a silence (utf8 (exn_name e)) (w.(wd_exn) e) s1.(fl_vault) Hr Hc) as (r & v' & E). unfold raised_exn. rewrite E. by eexists _, _.
Qed.

(** No verdict was written: the files are as they were, or the task is marked. *)
Definition unjudged p v v' : Prop := v' = v \/ v' = marked p v.

Lemma started_raises p t active skill s e s' : counts_readable -> chargeable p t -> started S d w p t active skill s = (Raise e, s') -> s'.(fl_vault) = marked p s.(fl_vault).
Proof.
  intros Hr Hc. unfold started. cbv zeta. unfold sbind at 1. rewrite on_files_run. cbn [fst snd write_fields]. unfold sbind, slift.
  destruct (int_of _) as [n|x]; [|by intros [= _ <-]]. intros E.
  match type of E with attempted _ _ _ _ _ ?a ?pr ?n ?s1 = _ => destruct (attempted_ok p t a pr n s1 Hr Hc) as (r & s2 & E') end. rewrite E' in E. done.
Qed.

(** What a run raises, it raises before its verdict. *)
Lemma run_raises p s e s' : counts_readable -> run_task S c d w home vault_dir p s = (Raise e, s') ->
  (forall f t, _find_task_file p.(dp_id) s.(fl_vault).(v_tasks) = Some f -> _parse_task_file f = Some t -> chargeable p t) ->
  unjudged p s.(fl_vault) s'.(fl_vault).
Proof.
  intros Hr E Hc. unfold run_task in E. destruct (_find_task_file _ _) as [f|]; [|done]. destruct (_parse_task_file f) as [t|] eqn:Et; [|done].
  specialize (Hc f t eq_refl Et). unfold run_found, sbind, slift, sret in E. destruct (_effective_preferred_hours t) as [hours|x]; [|injection E as _ <-; by left].
  destruct (match hours with Some (_ :: _) => _ | _ => _ end) as [inside|x]; [|injection E as _ <-; by left].
  destruct (skill_of t) as [|n0 n1]; [done|]. destruct (_load_skill_content _ _ _ _) as [[|s0 s1]|]; [done| |done].
  destruct (already_running p t) as [[why|]|x]; [done| |injection E as _ <-; by left].
  destruct (_model_dispatch_refusal _ _ _) as [[why|]|x]; [| |injection E as _ <-; by left].
  - destruct (_record_model_refusal _ _ _ s) as [o1 s2] eqn:Er. apply model_refusal_files in Er as [_ ->]. done.
  - right. by apply (started_raises p t _ _ s e s' Hr Hc E).
Qed.

(** ** No verdict *)

(** The grants of a task are refused: its block cannot be read, the store is down, or the
    block cannot be materialised in it; and what is left of the grants. *)
Inductive grants_refused p t (before : gstore) : gstore -> Prop :=
  | refused_unreadable specs e es : validate_task_grants (default JNull (obj_get "grants" t)) = Ok (specs, e :: es) -> grants_refused p t before before
  | refused_store_down specs : validate_task_grants (default JNull (obj_get "grants" t)) = Ok (specs, []) -> p.(dp_store_up) = false ->
      grants_refused p t before before
  | refused_sync specs after : validate_task_grants (default JNull (obj_get "grants" t)) = Ok (specs, []) -> p.(dp_store_up) = true ->
      sync_task_grants (str_of p.(dp_id)) (u "autonomy-task:" ++ str_of p.(dp_id)) (default JNull (obj_get "grants" t)) p.(dp_started) before
        = (Raise GrantError, after) -> grants_refused p t before after.

Lemma granted_declines p t s after : grants_refused p t s.(fl_grants) after ->
  exists result, granted w p t s = (Ok (Some result), Fleet s.(fl_vault) after s.(fl_refused)) /\ says result false.
Proof.
  destruct s as [v g r]. cbn [fl_grants fl_vault fl_refused]. intros [specs e es Eg|specs Eg Eu|specs after' Eg Eu Ey]; unfold granted, sbind, slift; rewrite Eg; cbn [snd].
  - by eexists.
  - rewrite Eu. by eexists.
  - rewrite Eu. cbn [negb fl_grants]. rewrite Ey. by eexists.
Qed.

End Verdict.
