(* ===== verification/TaskFeed.v ===== *)
(** * Feeding the queue with scheduled tasks

    [workers/sources/scheduled_task.py]: one tick of the source - the sweep, the probe of
    the primary and its outage, the tasks that are due and which of them are put in the
    queue - and one item of it executed; with what [workers/pool.py] ([_death_meta])
    charges for an item that died. The network is an argument: which health endpoints
    answer. Notifications and log lines are left out; the outage alert is returned. *)
From Stdlib Require Import String SpecFloat.
From S2P Require Import Prelude PyText Stamps QueueRows QueueOps QueueJournal Regex Policy Grants Spill Microcompact PoolGates PoolRun Binary64 PyValues Windows DueRules TaskFiles TaskModels TaskLife ServiceProbe RunEvidence TaskRun.

Local Open Scope Z_scope.

Definition DEFAULT_PRIORITY : Z := 30.
Definition _PRIORITY_MAP : list (text * Z) := [(u "critical", 10); (u "high", 20); (u "medium", 30); (u "low", 50); (u "background", 70)].
Definition _MODEL_REFUSAL_CLASS : string := "unconfigured_model".
Definition _VLLM_DOWN_ALERT_SECONDS : Z := 45 * 60.
Definition HEALTH_POLLS : nat := 18.

(** ** The gate on the primary *)

Record gate := Gate { ga_logged : bool; ga_since : option Z; ga_alerted : bool }.
Definition open_gate : gate := Gate false None false.

Section Gate.
Context `{IsoStamps} `{FloatText}.

Definition _vllm_outage_sentence (o : option outage) (own now : Z) (target : text * text) : text :=
  let measured := match o with Some o => o.(ou_down) | None => own end in
  let where_ := match o with
    | None => u "measured on this scheduler's own run of unhealthy /health ticks; the service probe (workers/service_probe.py) holds no streak for the primary, so it has announced nothing to quote — supervisord unreachable, or the port never closed"
    | Some o => u "measured on the service probe's :" ++ show o.(ou_port) ++ u " closed-port streak (workers/service_probe.py)"
        ++ (if o.(ou_announced) then u ", which already announced " ++ QUOTE ++ o.(ou_announcement) ++ QUOTE else u ", which has not reached its grace")
    end in
  u "primary model server " ++ target.1 ++ u " has been unreachable for " ++ fixed0 (fdiv (secs measured) (fz 60)) ++ u " min (since "
  ++ utf8 (iso (now - measured)) ++ u ", " ++ where_ ++ u ", that endpoint is config-derived: " ++ target.2
  ++ u "): autonomy dispatch is PAUSED until it recovers, so every stall alert from here on is describing a paused fleet, not a broken one. Neither that line nor this one writes a guardian ledger row for an engine outage (#1683).".

(** One unhealthy tick, and the alert it raises if it does. *)
Definition _note_vllm_outage (o : option outage) (now : Z) (target : text * text) (g : gate) : gate * option text :=
  let g := if g.(ga_logged) then g else Gate true (Some now) false in
  if g.(ga_alerted) then (g, None)
  else
    let own := now - default now g.(ga_since) in
    let measured := match o with Some o => o.(ou_down) | None => own end in
    if negb (below_int (secs measured) _VLLM_DOWN_ALERT_SECONDS)
    then (Gate g.(ga_logged) g.(ga_since) true, Some (_vllm_outage_sentence o own now target))
    else (g, None).

(** A healthy one. *)
Definition note_healthy (g : gate) : gate := if g.(ga_logged) then open_gate else g.
End Gate.

(** ** A tick of the source *)

(** What the tick sees of the world. *)
Record tick := Tick {
  tk_now : Z;
  tk_wall : Z;
  tk_stamp : text;                  (** the clock of the activity log *)
  tk_primary_up : bool;             (** the probe of the primary *)
  tk_up : text -> bool;             (** the probes of the tasks' endpoints *)
  tk_outage : option outage;
  tk_marks : option watermarks;     (** [None]: the ledger cannot be read *)
  tk_shelf : shelf
}.

(** What it changes. *)
Record floor := Floor { fo_db : db; fo_vault : vault; fo_gate : gate }.

Section Feed.
Context `{IsoStamps} `{JsonText} `{PyNumbers} `{PyJson} `{PyUnicode} `{FloatText} `{PyZone} `{PyYaml}.
Variable c : model_config.

(** The run records as the gates find them. *)
Definition records_of (v : vault) (id : text) : option (list (text * option text)) :=
  (fun rs => map (fun r => (r.1, Some r.2)) (sort_by (fun a b => sle (encode a.1) (encode b.1)) rs)) <$> v.(v_runs) !! id.
Definition shelf_over (S : shelf) (v : vault) : shelf :=
  Shelf S.(sh_hour) (records_of v) S.(sh_yaml) S.(sh_path) S.(sh_size) S.(sh_day) S.(sh_utc_day).

Definition _gate_task_view (id : json) (v : vault) : option task := f ← _find_task_file id v.(v_tasks); _parse_task_file f.

(** Whether a due task is put in the queue: it has an id, its pin is one the
    configuration knows, and the server it runs on answers. *)
Definition wanted (k : tick) (v : vault) (t : task) : option json :=
  match obj_get "id" t with
  | None | Some JNull => None
  | Some id =>
      match _model_pin_refusal c id (view ← _gate_task_view id v; obj_get "model" view) with
      | Some (_ :: _) => None
      | _ => if k.(tk_up) (_model_health_url c (obj_get "model" t)) then Some id else None
      end
  end.

Definition dedup_key_of (id : json) : string := encode (u "scheduled-task:" ++ str_of id).
Definition queue_priority (t : task) : Z :=
  let name := lower (match obj_get "priority" t with Some v => str_of v | None => u "medium" end) in
  default DEFAULT_PRIORITY (snd <$> head (sel (fun p => bool_decide (p.1 = name)) _PRIORITY_MAP)).
Definition payload_of (t : task) (id : json) : json := JObj [("task_id", id); ("name", default JNull (obj_get "name" t))]%string.

Definition feed_one (k : tick) (v : vault) (t : task) : st db () :=
  match wanted k v t with
  | None => sret tt
  | Some id => _ <-s enqueue k.(tk_now) SCHEDULED_TASK "run" (Some (payload_of t id)) (queue_priority t) (Some (dedup_key_of id)) ;; sret tt
  end.
Fixpoint feed_each (k : tick) (v : vault) (ts : list task) : st db () :=
  match ts with
  | [] => sret tt
  | t :: ts => _ <-s feed_one k v t ;; feed_each k v ts
  end.

(** The alert, if there is one. *)
Definition enqueue_if_due (k : tick) : st floor (option text) :=
  fun s =>
    let '(o, v) := recover_stuck_tasks k.(tk_now) k.(tk_stamp) s.(fo_vault) in
    match o with
    | Raise e => (Raise e, Floor s.(fo_db) v s.(fo_gate))
    | Ok _ =>
        if negb k.(tk_primary_up) then
          let '(g, alert) := _note_vllm_outage k.(tk_outage) k.(tk_now) (_primary_health_target c) s.(fo_gate) in
          (Ok alert, Floor s.(fo_db) v g)
        else
          let g := note_healthy s.(fo_gate) in
          match get_due_tasks (shelf_over k.(tk_shelf) v) (_all_board_tasks v.(v_tasks)) k.(tk_marks) k.(tk_now) k.(tk_wall) with
          | Raise e => (Raise e, Floor s.(fo_db) v g)
          | Ok due => let '(o, b) := feed_each k v due s.(fo_db) in (_ <-? o ;; Ok None, Floor b v g)
          end
    end.
End Feed.

(** ** An item of the source *)

(** How an item ended: with a row, dead of an exception, or cancelled. *)
Inductive executed := Done (out : list (string * json)) | Died (cls why : text) | Gone.

Section Item.
Context `{IsoStamps} `{PyNumbers} `{PyJson} `{PyUnicode} `{FloatText} `{PyZone} `{PyYaml} `{PyPatterns}.
Variables (S : shelf) (c : model_config) (d : disk) (w : wording) (home vault_dir : text).

Definition _artifact_on_disk (v : vault) (task_id run_id : text) : bool :=
  existsb (fun r => bool_decide (r.1 = run_id) && nonnil r.2) (default [] (v.(v_runs) !! task_id)).

(** The row of a run that returned. *)
Definition row_of (task_id : json) (v : vault) (result : list (string * json)) : list (string * json) :=
  let success := given (obj_get "success" result) in
  let status := or_else (obj_get "status" result) (JStr (if success then "success" else "failed")) in
  let preview := or_str (obj_get "response_preview" result) [] in
  let run_id := or_str (obj_get "run_id" result) [] in
  let id := str_of task_id in
  let path := if given (obj_get "run_id" result) then u "autonomy-runs/" ++ id ++ u "/" ++ run_id ++ u ".md" else [] in
  let meta := match obj_get "meta" result with Some (JObj m) => m | _ => [] end in
  let meta := if nonnil path && negb (_artifact_on_disk v id run_id) then obj_put "artifact_absent" (JBool true) meta else meta in
  let meta := match obj_get "acceptance_grade" result with Some g => obj_put "acceptance_grade" g meta | None => meta end in
  let meta := if given (obj_get "script_alarm" result) then obj_put "script_alarm" (default JNull (obj_get "script_alarm" result)) meta else meta in
  [("status", status); ("summary", jtext (upto (match preview with [] => or_str (obj_get "error" result) [] | _ => preview end) 500));
   ("task_id", jtext id); ("artifact_path", jtext path); ("response", jtext preview); ("meta", JObj meta)]%string
  ++ match obj_get "claims" result with Some claims => [("claims", claims)]%string | None => [] end.

Definition refused_row (task_id : json) (why : text) : list (string * json) :=
  [("status", JStr "skipped"); ("skipped", jtext why); ("summary", jtext why); ("task_id", task_id);
   ("refusal", JStr _MODEL_REFUSAL_CLASS); ("meta", JStr _MODEL_REFUSAL_CLASS)]%string.

(** The item's dispatch: the run of [p] under the id the payload names. *)
Definition dispatch_as (p : dispatched) (id : json) (cap : Z) : dispatched :=
  Dispatched id (Some cap) (u "scheduler") p.(dp_appendix) p.(dp_started) p.(dp_hour) p.(dp_session) p.(dp_opening) p.(dp_store_up)
    p.(dp_events) p.(dp_ending) p.(dp_ended) p.(dp_grade) p.(dp_ledger) p.(dp_ledger_block) p.(dp_lands) p.(dp_stamp).

(** Once the pin is accepted: the wait for its server - [polls] are the answers - and the
    run. [cap] is the source's limit; the flag says that the verdict of this attempt was
    marked. *)
Definition run_item (task_id : json) (url : text) (polls : list bool) (cap : Z) (p : dispatched) (s : fleet) : (executed * bool) * fleet :=
  if negb (existsb id (take HEALTH_POLLS polls)) then ((Died (u "RuntimeError") (u "model server " ++ url ++ u " unhealthy — deferring task"), false), s)
  else
    match int_of task_id with
    | Raise e => ((Died (utf8 (exn_name e)) (w.(wd_exn) e), false), s)
    | Ok n =>
        let '(o, s) := run_task S c d w home vault_dir (dispatch_as p (JInt n) cap) s in
        match o with
        | Raise e => ((Died (utf8 (exn_name e)) (w.(wd_exn) e), false), s)
        | Ok WasCancelled => ((Gone, false), s)
        | Ok (Returned result) => ((Done (row_of task_id s.(fl_vault) result), true), s)
        end
    end.

Definition execute (payload : list (string * json)) (polls : list bool) (cap : Z) (p : dispatched) (s : fleet) : (executed * bool) * fleet :=
  match obj_get "task_id" payload with
  | None | Some JNull => ((Died (u "RuntimeError") (u "scheduled-task item has no task_id in payload"), false), s)
  | Some task_id =>
      let pin := t ← _gate_task_view task_id s.(fl_vault); obj_get "model" t in
      match _model_pin_refusal c task_id pin with
      | Some ((_ :: _) as why) => ((Done (refused_row task_id why), false), s)
      | _ => run_item task_id (_model_health_url c pin) polls cap p s
      end
  end.

(** [_death_meta]: what a death is classed as, and its charge to the task - for a source
    whose work is the task, and a death before the verdict. *)
Definition _death_meta (task_id : option json) (charges verdict : bool) (cls why run_id : text) (started_at : string) (hour now : Z)
    (ledger : list (string * json)) (lands : bool) (stamp : text) : st vault (list (string * json)) :=
  let meta := [("failure_kind", jtext (kind_text (_failure_kind_of cls)))]%string in
  match task_id with
  | Some id =>
      if negb charges || verdict then sret meta
      else
        charge <-s charge_death_without_verdict id cls why run_id started_at hour now ledger lands stamp ;;
        sret (if charge.2 then meta ++ [("task_budget_charged", JBool true)]%string else meta)
  | None => sret meta
  end.
End Item.
