(* ===== verification/FeedFacts.v ===== *)
(** * Feeding the queue with scheduled tasks: what a tick does

    A tick puts every due task in the queue once and takes nothing from it; an outage of
    the primary pauses it and is told of once; the gate refuses the pins the engine
    refuses; and a death that reached no verdict is charged, once. *)
From Stdlib Require Import String SpecFloat Sorting.
From S2P Require Import Prelude PyText Stamps QueueRows QueueOps QueueInv QueueFate QueueJournal Regex Policy Grants Spill Microcompact PoolGates PoolRun Binary64 PyValues Windows DueRules DueFacts TaskFiles TaskModels TaskLife FileFacts LifeFacts SweepFacts ServiceProbe RunEvidence TaskRun RunFacts RunVerdicts TaskFeed.

Local Open Scope Z_scope.

(** ** Into the queue *)

Section Queue.
Context `{IsoStamps} `{JsonText} `{PyNumbers} `{PyJson} `{PyUnicode} `{FloatText} `{PyZone} `{PyYaml}.
Variables (cap : Z) (Hcap : 0 <= cap) (c : model_config).

(** Live rows are kept as they are, and new ones are the tasks'. *)
Definition new_row (k : tick) (id : json) (t : task) (r : qrow) : Prop :=
  r.(q_dedup_key) = Some (dedup_key_of id) /\ r.(q_source) = SCHEDULED_TASK /\ r.(q_state) = Queued /\ r.(q_attempts) = 0 /\
  r.(q_priority) = queue_priority t /\ r.(q_payload_json) = dumps (payload_of t id) /\ r.(q_enqueued_at) = iso k.(tk_now).

Definition fed (k : tick) (v : vault) (ts : list task) (d d' : db) : Prop :=
  wf cap d' /\
  (forall r, r ∈ d.(queue) -> is_live r = true -> r ∈ d'.(queue)) /\
  (forall r, r ∈ d'.(queue) -> is_live r = true -> r ∈ d.(queue) \/ exists t id, t ∈ ts /\ wanted c k v t = Some id /\ new_row k id t r) /\
  (forall t id, t ∈ ts -> wanted c k v t = Some id -> has_live (dedup_key_of id) d' = true).

Lemma has_live_spec key d : has_live key d = true <-> exists r, r ∈ d.(queue) /\ r.(q_dedup_key) = Some key /\ is_live r = true.
Proof.
  unfold has_live. destruct (sel1 _ _) as [r|] eqn:E.
  - split; [intros _|done]. apply sel1_Some in E as [Hr Hk]. unfold has_key in Hk. bool_simp. by exists r.
  - split; [done|]. rewrite sel1_None in E. intros (r & Hr & Hk & Hl). specialize (E r Hr). unfold has_key in E. by rewrite Hl, bool_decide_true in E.
Qed.

Lemma dedup_key_full id : dedup_key_of id <> EmptyString.
Proof. intros E. by apply (f_equal utf8) in E. Qed.

Lemma feed_one_spec k v t d : wf cap d -> exists d', feed_one c k v t d = (Ok tt, d') /\ fed k v [t] d d'.
Proof.
  intros W. unfold feed_one. destruct (wanted c k v t) as [id|] eqn:Ew.
  - pose proof (wf_enqueue cap Hcap k.(tk_now) SCHEDULED_TASK "run" (Some (payload_of t id)) (queue_priority t) (Some (dedup_key_of id)) d W) as W'.
    pose proof (enqueue_cases cap k.(tk_now) SCHEDULED_TASK "run" (Some (payload_of t id)) (queue_priority t) (dedup_key_of id) d W (dedup_key_full id)) as E.
    unfold sbind. destruct (has_live (dedup_key_of id) d) eqn:El.
    + rewrite E. exists d. split; [done|]. split; [done|]. split; [auto|]. split; [auto|]. intros t' id' ->%list_elem_of_singleton Ew'. rewrite Ew in Ew'. by injection Ew' as <-.
    + destruct E as (d0 & Hd0 & Hfree & _ & E). rewrite E in *. cbn [snd] in W'. eexists. split; [done|]. split; [done|]. split; [|split].
      * intros r Hr Hl. cbn [queue]. apply elem_of_app. left. destruct Hd0 as [->|(r0 & Hr0 & Hd & Hk & ->)]; [done|].
        apply elem_of_upd. exists r. split; [done|]. destruct (is_id _ r) eqn:Ei; [|done]. exfalso.
        assert (r = r0) as ->; [|congruence]. apply (ids_unique cap d r r0 W Hr Hr0). unfold is_id in Ei. by apply Z.eqb_eq.
      * intros r [Hr|Hr%list_elem_of_singleton]%elem_of_app Hl; cbn [queue] in *; [left|right; subst r; exists t, id; split; [by left|]; by split_and!].
        destruct Hd0 as [->|(r0 & Hr0 & Hd & Hk & ->)]; [done|]. apply elem_of_upd in Hr as (x & Hx & ->). destruct (is_id _ x) eqn:Ei; [|done].
        exfalso. assert (x = r0) as ->; [apply (ids_unique cap d x r0 W Hx Hr0); unfold is_id in Ei; by apply Z.eqb_eq|]. assert (is_live (set_dedup_key None r0) = is_live r0) as K by done. rewrite K in Hl. congruence.
      * intros t' id' ->%list_elem_of_singleton Ew'. rewrite Ew in Ew'. injection Ew' as <-. apply has_live_spec. eexists. split; [cbn [queue]; apply elem_of_app; right; by left|done].
  - exists d. split; [done|]. split; [done|]. split; [auto|]. split; [auto|]. intros t' id' ->%list_elem_of_singleton. by rewrite Ew.
Qed.

Lemma feed_each_spec k v ts d : wf cap d -> exists d', feed_each c k v ts d = (Ok tt, d') /\ fed k v ts d d'.
Proof.
  revert d. induction ts as [|t ts IH]; intros d W; simpl.
  - exists d. split; [done|]. split; [done|]. split; [auto|]. split; [auto|]. by intros t id ?%elem_of_nil.
  - destruct (feed_one_spec k v t d W) as (d1 & E1 & W1 & K1 & N1 & L1). destruct (IH d1 W1) as (d2 & E2 & W2 & K2 & N2 & L2).
    unfold sbind. rewrite E1, E2. exists d2. split; [done|]. split; [done|]. split; [auto|]. split.
    + intros r Hr Hl. destruct (N2 r Hr Hl) as [Hr1|(t' & id & Ht & Hw)]; [|right; exists t', id; by split; [right|]].
      destruct (N1 r Hr1 Hl) as [|(t' & id & ->%list_elem_of_singleton & Hw)]; [by left|]. right. exists t, id. by split; [left|].
    + intros t' id [->|Ht]%elem_of_cons Hw; [|by eapply L2]. pose proof (L1 t id (list_elem_of_here _ _) Hw) as (r & Hr & Hk & Hl)%has_live_spec.
      apply has_live_spec. exists r. by auto.
Qed.

(** C29: a tick of the source puts what is due in the queue, once. While the primary does
    not answer the queue is left exactly as it was. Else, if the scan gives a verdict,
    every due task with an id, a pin the configuration knows and a server that answers
    has a live row under its own key - one and only one - and nothing else is added: a
    new row is queued, unattempted, at the priority its file asks for. No row that was
    live is touched, whatever the tick finds. *)
Theorem tick_feeds_due k s o s' : wf cap s.(fo_db) -> enqueue_if_due c k s = (o, s') ->
  wf cap s'.(fo_db) /\
  (forall r, r ∈ s.(fo_db).(queue) -> is_live r = true -> r ∈ s'.(fo_db).(queue)) /\
  (k.(tk_primary_up) = false -> s'.(fo_db) = s.(fo_db)) /\
  (k.(tk_primary_up) = true -> (exists e, o = Raise e /\ s'.(fo_db) = s.(fo_db)) \/
     exists due, o = Ok None /\
       get_due_tasks (shelf_over k.(tk_shelf) s'.(fo_vault)) (_all_board_tasks s'.(fo_vault).(v_tasks)) k.(tk_marks) k.(tk_now) k.(tk_wall) = Ok due /\
       (forall t id, t ∈ due -> wanted c k s'.(fo_vault) t = Some id ->
          exists r, r ∈ s'.(fo_db).(queue) /\ is_live r = true /\ r.(q_dedup_key) = Some (dedup_key_of id) /\
            forall x, x ∈ s'.(fo_db).(queue) -> x.(q_dedup_key) = Some (dedup_key_of id) -> x = r) /\
       (forall r, r ∈ s'.(fo_db).(queue) -> is_live r = true ->
          r ∈ s.(fo_db).(queue) \/ exists t id, t ∈ due /\ wanted c k s'.(fo_vault) t = Some id /\ new_row k id t r)).
Proof.
  intros W. unfold enqueue_if_due. destruct (recover_stuck_tasks _ _ _) as [[l|e] v].
  2:{ intros [= <- <-]. split_and!; [done|done|done|]. intros _. left. by exists e. }
  destruct (tk_primary_up k); cbn [negb].
  - destruct (get_due_tasks _ _ _ _ _) as [due|e] eqn:Eg.
    2:{ intros [= <- <-]. split_and!; [done|done|done|]. intros _. left. by exists e. }
    destruct (feed_each_spec k v due s.(fo_db) W) as (d' & E & W' & K & N & L). rewrite E. cbn [obind]. intros [= <- <-]. cbn [fo_db fo_vault].
    split_and!; [done|auto|done|]. intros _. right. exists due. split_and!; [done|done| |exact N].
    intros t id Ht Hw. pose proof (L t id Ht Hw) as (r & Hr & Hk & Hl)%has_live_spec. exists r. split_and!; [done..|].
    intros x Hx Hxk. pose proof (sel1_key cap d' x _ W' Hx Hxk). pose proof (sel1_key cap d' r _ W' Hr Hk). congruence.
  - destruct (_note_vllm_outage _ _ _ _) as [g alert]. intros [= <- <-]. by split_and!.
Qed.
End Queue.

(** ** An outage of the primary *)

Section Outage.
Context `{IsoStamps} `{FloatText}.
Variable target : text * text.

(** What one tick has to tell the gate. *)
Record look := Look { lk_up : bool; lk_now : Z; lk_probe : option outage }.

Definition gate_step (g : gate) (l : look) : gate * option text :=
  if l.(lk_up) then (note_healthy g, None) else _note_vllm_outage l.(lk_probe) l.(lk_now) target g.
Fixpoint gate_run (g : gate) (ls : list look) : list (option text) * gate :=
  match ls with
  | [] => ([], g)
  | l :: ls => let '(g, a) := gate_step g l in let '(rest, g) := gate_run g ls in (a :: rest, g)
  end.

(** How long the outage that began at [t0] has lasted: the probe's number, or the gate's. *)
Definition lasting (t0 : Z) (l : look) : Z := match l.(lk_probe) with Some o => o.(ou_down) | None => l.(lk_now) - t0 end.
Definition long_enough (t0 : Z) (l : look) : bool := _VLLM_DOWN_ALERT_SECONDS * SECOND <=? lasting t0 l.
Definition down_look (t0 : Z) (l : look) : Prop := l.(lk_up) = false /\ - 2 ^ 51 < lasting t0 l < 2 ^ 51.

Lemma down_step t0 a l : down_look t0 l -> exists said, gate_step (Gate true (Some t0) a) l =
  (Gate true (Some t0) (a || long_enough t0 l), if negb a && long_enough t0 l then Some said else None).
Proof.
  intros [Hu Hb]. unfold gate_step, _note_vllm_outage. rewrite Hu. cbn [ga_logged ga_alerted ga_since default]. cbv zeta. destruct a; [by exists []|].
  cbn [ga_alerted ga_since negb orb andb]. change (match lk_probe l with Some o => ou_down o | None => _ end) with (lasting t0 l). rewrite secs_below_int by (done || (unfold _VLLM_DOWN_ALERT_SECONDS; lia)).
  unfold long_enough. destruct (Z.ltb_spec (lasting t0 l) (_VLLM_DOWN_ALERT_SECONDS * SECOND)); cbn [negb].
  - rewrite (proj2 (Z.leb_gt _ _)) by lia. by exists [].
  - rewrite (proj2 (Z.leb_le _ _)) by lia. by eexists.
Qed.

Lemma down_run t0 ls a : Forall (down_look t0) ls -> let r := gate_run (Gate true (Some t0) a) ls in
  r.2 = Gate true (Some t0) (a || existsb (long_enough t0) ls) /\
  forall i l x, ls !! i = Some l -> r.1 !! i = Some x ->
    (is_Some x <-> a = false /\ long_enough t0 l = true /\ forall j l', (j < i)%nat -> ls !! j = Some l' -> long_enough t0 l' = false).
Proof.
  revert a. induction ls as [|l0 ls IH]; intros a F; [split; [simpl; by rewrite orb_false_r|done]|]. apply Forall_cons in F as [F0 F].
  destruct (down_step t0 a l0 F0) as [said E]. cbn [gate_run existsb]. rewrite E. specialize (IH (a || long_enough t0 l0) F).
  destruct (gate_run _ ls) as [rest g]. cbn [fst snd] in *. destruct IH as [-> IH]. split; [by rewrite orb_assoc|].
  intros [|i] l x El Ex; cbn in El, Ex.
  - injection El as <-. injection Ex as <-. destruct a; cbn [negb andb]; [split; [by intros []|by intros (? & _)]|]. destruct (long_enough t0 l0); [|split; [by intros []|by intros (_ & ? & _)]].
    split; [|by eexists].
    intros _. split_and!; [done..|]. intros j l' Hj. lia.
  - rewrite (IH i l x El Ex). rewrite orb_false_iff. split.
    + intros ([-> H1] & H2 & H3). split_and!; [done..|]. intros [|j] l' Hj El'; [by injection El' as <-|]. apply (H3 j l'); [lia|done].
    + intros (-> & H2 & H3). split_and!; [done|by apply (H3 0%nat l0); [lia|]|done|]. intros j l' Hj El'. apply (H3 (S j) l'); [lia|done].
Qed.

(** The first unhealthy tick of an outage starts its clock. *)
Lemma outage_begins g t0 l ls : g.(ga_logged) = false -> Forall (down_look t0) (l :: ls) -> l.(lk_now) = t0 ->
  gate_run g (l :: ls) = gate_run (Gate true (Some t0) false) (l :: ls).
Proof.
  intros Hg [[Hu _] _]%Forall_cons Et. assert (E : gate_step g l = gate_step (Gate true (Some t0) false) l).
  { unfold gate_step, _note_vllm_outage. by rewrite Hu, Hg, Et. }
  cbn [gate_run]. by rewrite E.
Qed.

(** C39: an outage of the primary is told of once. Through any run of unhealthy ticks that
    begins with the gate open, one tick raises the alert and no other does: the first on
    which the outage has lasted three quarters of an hour - by the probe's count where it
    holds one, by the gate's own since the first such tick where it does not. A healthy
    tick opens the gate again, so the next outage is told of too. And an alert that rests
    on the probe's count quotes what the probe has already announced, if the probe has
    had a pass within the last quarter of an hour. *)
Theorem outage_told_once g t0 ls : g.(ga_logged) = false -> Forall (down_look t0) ls -> (forall l, head ls = Some l -> l.(lk_now) = t0) ->
  let r := gate_run g ls in
  (forall i l x, ls !! i = Some l -> r.1 !! i = Some x ->
     (is_Some x <-> long_enough t0 l = true /\ forall j l', (j < i)%nat -> ls !! j = Some l' -> long_enough t0 l' = false)) /\
  (ls <> [] -> forall l, l.(lk_up) = true -> gate_step r.2 l = (open_gate, None)) /\
  (forall l o xs x, l ∈ ls -> l.(lk_probe) = Some o -> long_enough t0 l = true ->
     StronglySorted Z.le (map ps_at (xs ++ [x])) -> outage_of PRIMARY_ENGINE l.(lk_now) (fold_left take_pass (xs ++ [x]) ∅) = Some o ->
     x.(ps_at) <= l.(lk_now) <= x.(ps_at) + 15 * 60 * SECOND -> o.(ou_announced) = true).
Proof.
  intros Hg F Hh. cbv zeta. split_and!.
  - destruct ls as [|l0 ls]; [done|]. rewrite (outage_begins g t0 l0 ls Hg F (Hh l0 eq_refl)).
    intros i l x El Ex. destruct (down_run t0 (l0 :: ls) false F) as [_ R]. rewrite (R i l x El Ex). naive_solver.
  - intros Hne l Hl. destruct ls as [|l0 ls]; [done|]. rewrite (outage_begins g t0 l0 ls Hg F (Hh l0 eq_refl)).
    destruct (down_run t0 (l0 :: ls) false F) as [-> _]. unfold gate_step. by rewrite Hl.
  - intros l o xs x Hl Ho Hlong Hs Eo Hx. unfold outage_of in Eo. destruct (_ !! PRIMARY_ENGINE) as [k|] eqn:Ek; [|done]. injection Eo as <-.
    unfold long_enough, lasting in Hlong. rewrite Ho in Hlong. cbn [ou_down ou_announced] in *. apply Z.leb_le in Hlong.
    destruct (passes_speak xs x Hs PRIMARY_ENGINE k Ek) as [_ K]. apply K. change (GRACE_S PRIMARY_ENGINE) with 1800. unfold _VLLM_DOWN_ALERT_SECONDS, SECOND in *. lia.
Qed.
End Outage.

(** ** The pin *)

Section Pin.
Context `{PyNumbers} `{PyJson} `{PyUnicode}.

(** The default model, as the file has it now and as the process has it. *)
Definition same_default (c : model_config) : Prop := exists d, file_default c = Ok d /\
  exists v, member "default" (or_empty_dict (obj_get "model" c.(c_config))) = Ok v /\ strip (or_str v []) = d.

(** The gate and the engine refuse the same pins, in the same words. As long as the
    file and the process agree on the default model, what the source says of a task's
    pin before it queues it is what [run_task] says of the model it would run on; the
    pins they let through are the names and aliases the configuration declares, and any
    name at all while it declares none. *)
Theorem gate_refuses_as_engine c t id r : same_default c ->
  _model_dispatch_refusal c id (_resolve_task_model c t) = Ok r ->
  _model_pin_refusal c id (obj_get "model" t) = r /\
  (r = None <-> _resolve_task_model c t = [] \/ exists known, _configured_model_names c = Ok known /\ (known = [] \/ _resolve_task_model c t ∈ known)).
Proof.
  intros (d & Ef & v & Ev & Ed) E. split.
  - revert E. unfold _model_pin_refusal, _resolve_task_model, stripped. cbv zeta. set (name := strip (or_str (obj_get "model" t) [])).
    assert (K : forall n, _model_dispatch_refusal c id (resolve_model_alias c n) = Ok r ->
      match n with [] => None | _ => match _model_dispatch_refusal c id (resolve_model_alias c n) with Ok r => r | Raise _ => None end end = r).
    { intros n En. rewrite En. destruct n; [|done]. unfold resolve_model_alias in En. rewrite bool_decide_eq_false_2 in En by done. by injection En. }
    destruct (names_nothing name).
    + rewrite Ef, Ev, Ed. apply K.
    + apply K.
  - revert E. unfold _model_dispatch_refusal. destruct (_resolve_task_model c t) as [|n0 n1] eqn:En; [intros [= <-]; split; [by left|done]|].
    intros E. apply obind_ok in E as (known & Ek & E). injection E as <-. rewrite Ek. destruct known as [|k0 ks]; cbn [nonnil negb orb].
    + split; [|done]. intros _. right. exists []. auto.
    + case_bool_decide as B; (split; [|done || (by intros [|(kn & [= <-] & [|])])]); [|done].
      intros _. right. eexists. by split; [|right].
Qed.
End Pin.

(** ** Deaths *)

Section Deaths.
Context `{IsoStamps} `{PyNumbers} `{PyJson} `{PyUnicode} `{FloatText} `{PyZone} `{PyYaml} `{PyPatterns} `{!PlainStamps} `{!NullShown}.
Variables (S : shelf) (c : model_config) (d : disk) (w : wording) (home vault_dir : text).

(** The death as an attempt of its own: when it was charged, and under which name. *)
Definition death (id : json) (hour now : Z) (lands : bool) (stamp : text) : dispatched :=
  Dispatched id None [] [] now hour [] None true [] Finishes now None [] [] lands stamp.
Definition died_attempt (id : json) (run_id : text) (started_at : string) (now : Z) (lands : bool) (stamp : text) : attempt :=
  Attempt id run_id started_at (default now (_parse_iso (Some (JStr started_at)))) [] lands stamp.

Lemma charge_settles id cls why run_id started_at hour now ledger lands stamp v t1 : counts_readable ->
  _gate_task_view id v = Some t1 -> chargeable (death id hour now lands stamp) t1 ->
  exists v2, charge_death_without_verdict id cls why run_id started_at hour now ledger lands stamp v = (Ok (_failure_kind_of cls, true), v2) /\
    settled (death id hour now lands stamp) (died_attempt id run_id started_at now lands stamp) v2.
Proof.
  intros Hr Hv Hc. unfold charge_death_without_verdict. cbv zeta. unfold _gate_task_view in Hv. rewrite Hv. fold (died_attempt id run_id started_at now lands stamp).
  match goal with |- context [tried (_record_failure _ _ ?a _ ?s ?b ?k ?x _)] =>
    destruct (failure_written (death id hour now lands stamp) t1 a k s b x ledger v Hr Hc) as (fv & v2 & E);
    pose proof (failure_settles (death id hour now lands stamp) t1 a k s b x ledger v Hc) as Hs end.
  cbn [dp_hour dp_ended death] in E, Hs. unfold tried. rewrite E in *. exists v2. by split.
Qed.

End Deaths.
