(* ===== verification/TaskSamples.v ===== *)
(** * Scheduled tasks: the theorems at work

    A small fleet to run them on - one task file, a line-by-line YAML, numbers written in
    digits - and each theorem about scheduled tasks applied to it. *)
From Stdlib Require Import String Ascii SpecFloat Sorting.
From S2P Require Import Prelude PyText Stamps QueueRows QueueOps QueueInv QueueFate QueueJournal Regex Policy Grants Spill Microcompact PoolGates PoolRun Meter ToolCalls Turn Binary64 PyValues Utf8 Windows DueRules DueFacts DueWaits TaskFiles TaskModels TaskLife FileFacts LifeFacts SweepFacts Evidence ServiceProbe RunEvidence TaskRun RunFacts RunVerdicts TaskFeed FeedFacts.

Local Open Scope Z_scope.

(** ** A small world *)

(** [int] of a number, or of ASCII digits. *)
Definition ascii_digit (c : N) : bool := (48 <=? c)%N && (c <=? 57)%N.
Definition digits_value (s : text) : Z := fold_left (fun n c => 10 * n + (Z.of_N c - 48)) s 0.
Definition digit_numbers : PyNumbers :=
  {| float_cmp _ _ := None;
     int_of v := match v with
                 | JInt z => Ok z
                 | JStr s => if nonnil (utf8 s) && forallb ascii_digit (utf8 s) then Ok (digits_value (utf8 s)) else Raise ValueError
                 | _ => Raise TypeError end;
     ip_address _ := None; int_of_int _ := eq_refl |}.

(** YAML of one flat dictionary: a line for a key, and the kind of its value before it. *)
Definition line_of (p : string * json) : text :=
  utf8 p.1 ++ u ": " ++ match p.2 with
    | JStr s => u "s" ++ utf8 s | JInt z => u "i" ++ show z | JFloat r => u "f" ++ utf8 r
    | JBool b => if b then u "yes" else u "no" | _ => u "null" end ++ nl.
Definition read_value (s : text) : option json :=
  match s with
  | 115%N :: s => Some (JStr (encode s))
  | 105%N :: 45%N :: s => Some (JInt (- digits_value s))
  | 105%N :: s => Some (JInt (digits_value s))
  | 102%N :: s => Some (JFloat (encode s))
  | 121%N :: _ => Some (JBool true)
  | _ => None
  end.
Definition read_line (l : text) : option (string * json) :=
  i ← find (u ": ") l; v ← read_value (drop (i + 2) l); Some (encode (take i l), v).
Definition line_yaml : PyYaml :=
  {| yaml_load s := JObj <$> mapM read_line (sel nonnil (split_char 10 [] s));
     yaml_dump t := concat (map line_of t);
     yaml_ascii t := concat (map line_of t) |}.

#[local] Existing Instances digit_numbers board_shown ascii_only board_floats utc_zone line_yaml blank_json.
#[local] Instance no_patterns : PyPatterns := fun _ => None.
#[local] Instance board_null : NullShown := eq_refl.

Lemma digits_readable : counts_readable.
Proof.
  intros ds Hne F. assert (Fd : Forall (fun x => (x < 128)%N /\ ascii_digit x = true) ds).
  { eapply Forall_impl; [exact F|]. intros x Hx. unfold cdigit in Hx. change (wide_digit x) with false in Hx.
    destruct (N.ltb_spec x 128); [done|done]. }
  assert (E : utf8 (encode ds) = ds) by (apply utf8_encode; eapply Forall_impl; [exact Fd|]; intros x [? _]; lia).
  exists (digits_value ds). cbn [int_of digit_numbers]. rewrite E. destruct ds as [|d0 ds]; [done|].
  replace (forallb ascii_digit (d0 :: ds)) with true; [done|]. symmetry. apply forallb_forall. intros x Hx.
  rewrite Forall_forall in Fd. by apply Fd, list_elem_of_In.
Qed.

Definition digest : task :=
  [("id", JInt 7); ("name", JStr "Digest"); ("skill_name", JStr "digest"); ("status", JStr "up_next"); ("frequency", JStr "daily")]%string.
Definition digest_file (t : task) : TaskFiles.file := TaskFiles.File (u "7-digest.md") (u "/vault/autonomy/7-digest.md") (fenced t (u "Read the news." ++ nl)).
Definition digest_vault : vault := Vault [digest_file digest] ∅.

(** ** Files *)

Lemma update_reads_back_witness :
  exists new t, update_text [("status", JStr "paused")]%string (fenced digest (u "Read." ++ nl)) = Some new /\
    _parse_task_file (TaskFiles.File (u "7-digest.md") (u "p") new) = Some t /\ obj_get "status" t = Some (JStr "paused") /\ obj_get "frequency" t = Some (JStr "daily").
Proof.
  assert (E : three_parts (fenced digest (u "Read." ++ nl)) = Some (concat (map line_of digest), u "Read." ++ nl)) by (vm_compute; reflexivity).
  assert (Hn : numbered (u "7-digest.md")) by (intros ds Eds; vm_compute in Eds; injection Eds as <-; eexists; vm_compute; reflexivity).
  assert (Hf : dict [("status", JStr "paused")]%string) by (apply (bool_decide_unpack _); vm_compute; exact I).
  assert (Hd : dict (parse_frontmatter_text (concat (map line_of digest)) [])) by (apply (bool_decide_unpack _); vm_compute; exact I).
  assert (Hm : dumped (merged [("status", JStr "paused")]%string (parse_frontmatter_text (concat (map line_of digest)) []))).
  { split; [|split; vm_compute; reflexivity]. eexists. split; [vm_compute; reflexivity|]. intros k. vm_compute. reflexivity. }
  destruct (update_reads_back (u "7-digest.md") (u "p") (fenced digest (u "Read." ++ nl)) (concat (map line_of digest)) (u "Read." ++ nl) _ E Hn Hf Hd Hm)
    as (new & t & E1 & E2 & _ & K).
  assert (N : forall k, k = "status"%string \/ k = "frequency"%string -> k ∉ ["id"; "body"; "_path"]%string).
  { intros k [->| ->]; apply (bool_decide_unpack _); vm_compute; exact I. }
  exists new, t. split; [exact E1|]. split; [exact E2|]. split.
  - exact (proj1 (K "status"%string (N _ (or_introl eq_refl))) (JStr "paused") eq_refl).
  - assert (Ep : plain_yaml (concat (map line_of digest)) = Some digest) by (vm_compute; reflexivity).
    exact (proj1 (proj2 (K "frequency"%string (N _ (or_intror eq_refl)))) digest Ep eq_refl eq_refl).
Defined.

(** ** Failures *)

Definition of_outcome {A} (d : A) (o : outcome A) : A := match o with Ok a => a | Raise _ => d end.

(** It has failed three times; two more and it is retired. *)
Definition failed_thrice : task := daily 7 [("failure_count", JInt 3); ("last_attempt", JStr (iso noon))]%string.
Definition two_failures : list charge := [(TaskFailure, 12, noon + DAY); (InfraFailure, 12, noon + 2 * DAY)].
Definition after_two : task := Eval vm_compute in of_outcome [] (charged_all failed_thrice (two_failures ++ [(TaskFailure, 12, noon + 3 * DAY)])).

Lemma thrice : failure_count failed_thrice = Ok 3 /\ max_retries_budget failed_thrice = Ok 5.
Proof. split; vm_compute; reflexivity. Qed.

Lemma failures_retire_exactly_witness : failure_count after_two = Ok 5 /\ obj_get "status" after_two = Some (JStr "failed") /\ obj_get "next_run" after_two = None.
Proof.
  assert (Hd : dict failed_thrice) by (apply (bool_decide_unpack _); vm_compute; exact I).
  assert (E : charged_all failed_thrice (two_failures ++ [(TaskFailure, 12, noon + 3 * DAY)]) = Ok after_two) by (vm_compute; reflexivity).
  destruct (failures_retire_exactly failed_thrice two_failures TaskFailure 12 (noon + 3 * DAY) after_two 3 5 Hd (proj1 thrice) (proj2 thrice) E) as (H1 & _ & H2 & H3).
  exact (conj H1 (conj H2 H3)).
Defined.

Definition after_one : task := Eval vm_compute in of_outcome [] (charged failed_thrice TaskFailure 12 (noon + DAY)).

Lemma failure_names_its_retry_witness : obj_get "next_run" after_one = Some (JStr (iso (noon + DAY + hold_of 86400 4 * SECOND))).
Proof.
  assert (Hd : dict failed_thrice) by (apply (bool_decide_unpack _); vm_compute; exact I).
  assert (E : charged failed_thrice TaskFailure 12 (noon + DAY) = Ok after_one) by (vm_compute; reflexivity).
  assert (Hp : paced failed_thrice 86400) by (apply daily_paced; vm_compute; reflexivity).
  assert (Hr : in_range (noon + DAY) = true) by (vm_compute; reflexivity).
  exact (proj2 (failure_names_its_retry failed_thrice TaskFailure 12 (noon + DAY) after_one 3 5 86400 Hd (proj1 thrice) (proj2 thrice) E Hp ltac:(lia) Hr I) ltac:(lia)).
Defined.

(** Three outages in a row behind it, two more to come. *)
Definition shaken : task := daily 7 [("infra_failure_count", JInt 3); ("last_attempt", JStr (iso noon))]%string.
Definition rested : task := Eval vm_compute in of_outcome [] (charged_all shaken (map (fun w => (InfraFailure, 12, w)) ([noon + HOUR] ++ [noon + 2 * HOUR]))).

Lemma infra_ceiling_rests_witness :
  obj_get "infra_rest_until" rested = Some (JStr (iso (noon + 2 * HOUR + 86400 * SECOND))) /\ failure_count rested = Ok 0 /\
  obj_get "status" rested = Some (JStr "up_next") /\ _is_task_due bare_shelf rested [] (noon + DAY) (Ok None) <> Ok true.
Proof.
  assert (Hd : dict shaken) by (apply (bool_decide_unpack _); vm_compute; exact I).
  assert (E : charged_all shaken (map (fun w => (InfraFailure, 12, w)) ([noon + HOUR] ++ [noon + 2 * HOUR])) = Ok rested) by (vm_compute; reflexivity).
  assert (Hp : paced shaken 86400) by (apply daily_paced; vm_compute; reflexivity).
  assert (Hh : _effective_preferred_hours shaken = Ok None) by (vm_compute; reflexivity).
  assert (Ha : _parse_iso (obj_get "last_attempt" shaken) = Some noon) by (vm_compute; reflexivity).
  assert (Hc : close_on 86400 noon ([noon + HOUR] ++ [noon + 2 * HOUR])) by (vm_compute; repeat split; intros; discriminate).
  assert (Hn : failure_count shaken = Ok 0) by (vm_compute; reflexivity). assert (Hm : max_retries_budget shaken = Ok 5) by (vm_compute; reflexivity).
  assert (Hi : _infra_failure_count shaken = Ok 3) by (vm_compute; reflexivity).
  destruct (infra_ceiling_rests shaken [noon + HOUR] 12 rested 0 5 86400 3 noon (noon + 2 * HOUR) Hd Hn Hm E Hp Hh Hi ltac:(lia) Ha Hc ltac:(vm_compute; discriminate))
    as (H1 & _ & Hs & _ & H2 & _ & H3).
  split; [exact H2|]. split; [exact H1|]. split; [exact Hs|]. apply H3. unfold noon, DAY, HOUR, SECOND. lia.
Defined.

(** ** The sweep, and the record of a success *)

Definition retired : task := obj_put "status" (JStr "failed") (daily 7 [("failure_count", JInt 5); ("last_attempt", JStr (iso noon))]%string).

Definition file_of (name : text) (t : task) : TaskFiles.file := TaskFiles.File name (u "/vault/autonomy/" ++ name) (fenced t nl).
(** One retired a day ago, one started a day ago, one a person has paused, and a note. *)
Definition board_files : directory :=
  [file_of (u "7-digest.md") retired;
   file_of (u "17-paused.md") (obj_put "status" (JStr "paused") (daily 17 [("last_attempt", JStr (iso noon))]%string));
   file_of (u "8-stuck.md") (obj_put "status" (JStr "in_progress") (daily 8 [("updated", JStr (iso noon)); ("timeout_seconds", JInt 600)]%string));
   file_of (u "notes.md") digest].
Definition swept_vault : outcome (list json) * vault := Eval vm_compute in recover_stuck_tasks (noon + DAY) (u "2024-10-05") (Vault board_files ∅).

Lemma board_sensible f t : f ∈ board_files -> task_in f = Some t -> sensible (noon + DAY) t.
Proof.
  intros Hf. unfold board_files in Hf. rewrite !elem_of_cons, elem_of_nil in Hf. destruct Hf as [->|[->|[->|[->|[]]]]]; intros E; vm_compute in E; try discriminate E; injection E as <-; split_and!.
  all: try (intros K; vm_compute in K; discriminate K).
  all: try (intros a [K|K]; vm_compute in K; try discriminate K; injection K as <-; vm_compute; split; reflexivity).
  - intros _. right. split; [vm_compute; reflexivity|]. exists 86400. split; [apply daily_paced; vm_compute; reflexivity|vm_compute; reflexivity].
  - intros _. exists 600. split; [vm_compute; reflexivity|split; reflexivity].
Qed.

Lemma board_named : well_named board_files.
Proof.
  split; [apply (bool_decide_unpack _); vm_compute; exact I|]. intros f t Hf E g Hg. unfold board_files in Hf, Hg. rewrite !elem_of_cons, elem_of_nil in Hf. rewrite !elem_of_cons, elem_of_nil in Hg.
  destruct Hf as [->|[->|[->|[->|[]]]]]; vm_compute in E; try discriminate E; injection E as <-; destruct Hg as [->|[->|[->|[->|[]]]]]; vm_compute;
    (split; intros; (reflexivity || discriminate)).
Qed.

Lemma sweep_recovers_exactly_witness :
  fst swept_vault = Ok [JInt 7; JInt 8] /\ swept_board (noon + DAY) (u "2024-10-05") board_files (snd swept_vault).(v_tasks) [JInt 7; JInt 8] /\
  failure_count (merged (rearm_fields 86400 (noon + DAY)) retired) = Ok 0.
Proof.
  destruct (sweep_recovers_exactly (Vault board_files ∅) (noon + DAY) (u "2024-10-05") digits_readable board_named board_sensible) as [(ids & dir' & E & W) R].
  assert (C : recover_stuck_tasks (noon + DAY) (u "2024-10-05") (Vault board_files ∅) = swept_vault) by (vm_compute; reflexivity).
  assert (F : fst swept_vault = Ok [JInt 7; JInt 8]) by (vm_compute; reflexivity).
  rewrite C in E. rewrite E in F. cbn [fst] in F. injection F as ->. split; [rewrite E; reflexivity|]. split; [rewrite E; exact W|].
  assert (Hd : dict retired) by (apply (bool_decide_unpack _); vm_compute; exact I).
  assert (Hp : paced retired 86400) by (apply daily_paced; vm_compute; reflexivity).
  assert (Ha : tried_at retired = Some noon) by (vm_compute; reflexivity).
  exact (proj1 (proj2 (R retired 86400 noon Hd Hp Ha ltac:(unfold DAY, HOUR, SECOND; lia)))).
Defined.

Definition sample_attempt : attempt := Attempt (JInt 7) (u "run_7_20241004") (iso noon) noon [] true (u "2024-10-04").
Definition sample_extra : list (string * json) := [("stop_reason", JStr "end_turn"); ("num_turns", JInt 3)]%string.
Definition sample_success : outcome () * vault :=
  record_success digest sample_attempt noon (secs 0) (u "done") (u "All read." ++ nl) sample_extra (fun _ => u "ran") digest_vault.
Definition record_text : text := Eval vm_compute in snd (default ([], []) (head (default [] ((snd sample_success).(v_runs) !! u "7")))).
Definition recorded_shelf : shelf := shelf_over (one_record [] [] (yaml_load)) (snd sample_success).

Lemma success_outlives_its_stamp_witness :
  _is_task_due recorded_shelf digest [] (noon + DAY + 1) (Ok None) = Ok true /\ noon + 86400 * SECOND <= noon + DAY + 1.
Proof.
  assert (D : _is_task_due recorded_shelf digest [] (noon + DAY + 1) (Ok None) = Ok true) by (vm_compute; reflexivity). split; [exact D|].
  assert (E : record_success digest sample_attempt noon (secs 0) (u "done") (u "All read." ++ nl) sample_extra (fun _ => u "ran") digest_vault
    = (fst sample_success, snd sample_success)) by apply surjective_pairing.
  assert (Hr : in_range noon = true) by (vm_compute; reflexivity).
  assert (Hd : dict sample_extra) by (apply (bool_decide_unpack _); vm_compute; exact I).
  assert (Hk : forall k, k ∈ ["run_id"; "status"; "completed_at"]%string -> k ∉ map fst sample_extra).
  { intros k Hk. change (map fst sample_extra) with ["stop_reason"; "num_turns"]%string. rewrite !elem_of_cons, elem_of_nil in *.
    intros [->|[->|[]]]; destruct Hk as [Hk|[Hk|[Hk|[]]]]; discriminate. }
  assert (Hm : dumped_record (record_fields sample_attempt RUN_STATUS_SUCCESS (iso noon) (secs 0) (u "done") sample_extra)).
  { split; [|split; vm_compute; reflexivity]. eexists. split; [vm_compute; reflexivity|]. intros k. vm_compute. reflexivity. }
  assert (Hp : paced digest 86400) by (apply daily_paced; vm_compute; reflexivity).
  assert (Hv : (snd sample_success).(v_runs) !! u "7" = Some [(u "run_7_20241004", record_text)]) by (vm_compute; reflexivity).
  assert (Hs : recorded_shelf.(sh_runs) (u "7") = Some [(u "run_7_20241004", Some record_text)]) by (vm_compute; reflexivity).
  assert (Hf : forall stem content, (stem, content) ∈ default [] ((snd sample_success).(v_runs) !! u "7") -> (stem, Some content) ∈ [(u "run_7_20241004", Some record_text)]).
  { intros stem content Hin. rewrite Hv in Hin. apply list_elem_of_singleton in Hin.
    rewrite (f_equal fst Hin : stem = _), (f_equal snd Hin : content = _). left. }
  assert (Hn : named_records recorded_shelf digest).
  { intros id files f r Eid Efs Hin Er. injection Eid as <-. change (str_of (JInt 7)) with (u "7") in Efs. rewrite Hs in Efs. injection Efs as <-.
    apply list_elem_of_singleton in Hin as ->. vm_compute in Er. by injection Er as <-. }
  assert (Hh : _effective_preferred_hours digest = Ok None) by (vm_compute; reflexivity).
  refine (proj1 (proj2 (success_outlives_its_stamp digest sample_attempt noon (secs 0) (u "done") (u "All read." ++ nl) sample_extra (fun _ => u "ran") digest_vault
    (fst sample_success) (snd sample_success) recorded_shelf digest [] (noon + DAY + 1) (Ok None) 86400 (JInt 7) _
    E eq_refl Hr Hd Hk Hm eq_refl Hs Hf Hp eq_refl ltac:(discriminate) eq_refl Hn D)) Hh).
Defined.

(** ** A run *)

Definition skill_disk : disk :=
  DiskView (fun _ => None) (fun path => if bool_decide (path = u "/vault/skills/digest/SKILL.md") then Some (u "Read and report.") else None).
Definition no_models : model_config := ModelConfig [] None.
Definition plain_words : wording := Wording (fun _ => u "not a list of grants") (fun _ => []) [].

Definition run_of (es : list event) (e : ending) : dispatched :=
  Dispatched (JInt 7) None (u "scheduler") [] noon 12 (u "s1") None true es e (noon + 60 * SECOND) None [] [] true (u "2024-10-04").
Definition news : list event := [EvText (u "Three stories.")].
Definition fleet_of (v : vault) : fleet := Fleet v (GStore [] 0 []) [].
Definition run_it (p : dispatched) (v : vault) : outcome ran * fleet := run_task bare_shelf no_models skill_disk plain_words (u "/home") (u "/vault") p (fleet_of v).

(** The task as it is read from its file. *)
Definition digest_read : task := Eval vm_compute in default [] (_parse_task_file (digest_file digest)).

Lemma digest_found : _find_task_file (JInt 7) digest_vault.(v_tasks) = Some (digest_file digest) /\ _parse_task_file (digest_file digest) = Some digest_read.
Proof. split; vm_compute; reflexivity. Qed.

Lemma digest_chargeable es e : chargeable (run_of es e) digest_read.
Proof. intros []; eexists _, _, _; (split; [vm_compute; reflexivity|split; [vm_compute; reflexivity|vm_compute; reflexivity]]). Qed.

Definition well_run : outcome ran * fleet := run_it (run_of news Finishes) digest_vault.
Definition its_result : list (string * json) := Eval vm_compute in match fst well_run with Ok (Returned r) => r | _ => [] end.


Definition heard_news : hearing := Eval vm_compute in fst (hear silence news).

Lemma run_verdict_witness : judge (run_of news Finishes) heard_news None None = Succeeds /\
  carried_success (run_of news Finishes) digest_read sample_attempt digest_vault
    (turned bare_shelf skill_disk plain_words (run_of news Finishes) digest_read sample_attempt (u "Read.") 600 digest_vault).
Proof.
  assert (J : judge (run_of news Finishes) heard_news None None = Succeeds) by (vm_compute; reflexivity). split; [exact J|].
  assert (Eh : hear silence (run_of news Finishes).(dp_events) = (heard_news, None)) by (vm_compute; reflexivity).
  assert (Hf : exists fields, success_fields digest_read (run_of news Finishes).(dp_ended) = Ok fields) by (eexists; vm_compute; reflexivity).
  assert (Hw : weighed bare_shelf skill_disk (run_of news Finishes) digest_read heard_news None None).
  { split; [vm_compute; reflexivity|exists None; vm_compute; reflexivity|exists []; vm_compute; reflexivity]. }
  assert (Hb : - 2 ^ 51 < (run_of news Finishes).(dp_ended) - (run_of news Finishes).(dp_started) < 2 ^ 51) by (vm_compute; split; reflexivity).
  pose proof (run_verdict bare_shelf skill_disk plain_words (run_of news Finishes) digest_read sample_attempt (u "Read.") 600 heard_news None None digest_vault
    Eh digits_readable (digest_chargeable news Finishes) Hf Hw Hb) as K. rewrite J in K. exact K.
Defined.

(** The same task with grants nobody can read. *)
Definition overreaching : task := digest ++ [("grants", JStr "all")]%string.
Definition overreaching_vault : vault := Vault [digest_file overreaching] ∅.
Definition overreaching_read : task := Eval vm_compute in default [] (_parse_task_file (digest_file overreaching)).


(** ** The feed *)

Definition morning : tick := Tick noon noon (u "2024-10-04") true (fun _ => true) None None bare_shelf.
Definition quiet_floor : floor := Floor empty_db digest_vault open_gate.
Definition fed_floor : outcome (option text) * floor := enqueue_if_due no_models morning quiet_floor.

Lemma tick_feeds_due_witness : exists r, r ∈ (snd fed_floor).(fo_db).(queue) /\ is_live r = true /\ r.(q_dedup_key) = Some "scheduled-task:7"%string /\
  forall x, x ∈ (snd fed_floor).(fo_db).(queue) -> x.(q_dedup_key) = Some "scheduled-task:7"%string -> x = r.
Proof.
  assert (E : enqueue_if_due no_models morning quiet_floor = (fst fed_floor, snd fed_floor)) by (unfold fed_floor; apply surjective_pairing).
  destruct (tick_feeds_due 3 ltac:(lia) no_models morning quiet_floor (fst fed_floor) (snd fed_floor) (wf_empty 3) E) as (_ & _ & _ & K).
  destruct (K eq_refl) as [(e & Ee & _)|(due & _ & Ed & L & _)]; [exfalso; vm_compute in Ee; discriminate|].
  assert (Ed' : get_due_tasks (shelf_over morning.(tk_shelf) (snd fed_floor).(fo_vault)) (_all_board_tasks (snd fed_floor).(fo_vault).(v_tasks)) morning.(tk_marks)
    morning.(tk_now) morning.(tk_wall) = Ok [digest_read]) by (vm_compute; reflexivity).
  assert (D : due = [digest_read]) by exact (f_equal (of_outcome []) (eq_trans (eq_sym Ed) Ed')).
  assert (W : wanted no_models morning (snd fed_floor).(fo_vault) digest_read = Some (JInt 7)) by (vm_compute; reflexivity).
  assert (Hin : digest_read ∈ due) by (rewrite D; left). exact (L digest_read (JInt 7) Hin W).
Defined.

Definition minutes (n : Z) : Z := noon + n * 60 * SECOND.
Definition dark (n : Z) : look := Look false (minutes n) None.

Lemma outage_told_once_witness : exists x0 x1 x2 x3, (gate_run ([], []) open_gate [dark 0; dark 30; dark 45; dark 60]).1 = [x0; x1; x2; x3] /\
  ~ is_Some x0 /\ ~ is_Some x1 /\ is_Some x2 /\ ~ is_Some x3.
Proof.
  assert (F : Forall (down_look (minutes 0)) [dark 0; dark 30; dark 45; dark 60]).
  { repeat (apply Forall_cons; split; [split; [reflexivity|vm_compute; split; reflexivity]|]). apply Forall_nil. exact I. }
  assert (Hh : forall l, head [dark 0; dark 30; dark 45; dark 60] = Some l -> l.(lk_now) = minutes 0) by (intros l [= <-]; reflexivity).
  destruct (outage_told_once ([], []) open_gate (minutes 0) [dark 0; dark 30; dark 45; dark 60] eq_refl F Hh) as [K _].
  assert (L2 : long_enough (minutes 0) (dark 45) = true) by (vm_compute; reflexivity).
  assert (Hl : length (gate_run ([], []) open_gate [dark 0; dark 30; dark 45; dark 60]).1 = 4%nat) by (vm_compute; reflexivity).
  destruct (gate_run ([], []) open_gate [dark 0; dark 30; dark 45; dark 60]).1 as [|x0 [|x1 [|x2 [|x3 [|x4 xs]]]]]; try discriminate Hl.
  exists x0, x1, x2, x3. split; [reflexivity|]. split; [|split; [|split]].
  - intros [B _]%(K 0%nat (dark 0) x0 eq_refl eq_refl). vm_compute in B. discriminate.
  - intros [B _]%(K 1%nat (dark 30) x1 eq_refl eq_refl). vm_compute in B. discriminate.
  - apply (K 2%nat (dark 45) x2 eq_refl eq_refl). split; [exact L2|]. intros [|[|j]] l' Hj El'; [injection El' as <-; vm_compute; reflexivity..|lia].
  - intros [_ B]%(K 3%nat (dark 60) x3 eq_refl eq_refl). specialize (B 2%nat (dark 45) ltac:(lia) eq_refl). rewrite L2 in B. discriminate.
Defined.

(** One model, and a task that asks for another. *)
Definition one_model : model_config :=
  let config := [("model", JObj [("default", JStr "primary")]); ("models", JObj [("primary", JObj [("alias", JStr "qwen")])])]%string in
  ModelConfig config (Some (JObj config)).
Definition eco_task : task := daily 85 [("model", JStr "eco")]%string.

Lemma gate_refuses_as_engine_witness : exists why, _model_pin_refusal one_model (JInt 85) (obj_get "model" eco_task) = Some why /\
  _model_dispatch_refusal one_model (JInt 85) (_resolve_task_model one_model eco_task) = Ok (Some why).
Proof.
  assert (Hs : same_default one_model).
  { exists (u "primary"). split; [vm_compute; reflexivity|]. eexists. split; vm_compute; reflexivity. }
  assert (E : _model_dispatch_refusal one_model (JInt 85) (_resolve_task_model one_model eco_task)
    = Ok (of_outcome None (_model_dispatch_refusal one_model (JInt 85) (_resolve_task_model one_model eco_task)))) by (vm_compute; reflexivity).
  destruct (of_outcome None (_model_dispatch_refusal one_model (JInt 85) (_resolve_task_model one_model eco_task))) as [why|] eqn:Ew;
    [|exfalso; vm_compute in Ew; discriminate].
  exists why. split; [exact (proj1 (gate_refuses_as_engine one_model eco_task (JInt 85) (Some why) Hs E))|exact E].
Defined.

(** An item whose server never answers. *)
Definition item_payload : list (string * json) := [("task_id", JInt 7)]%string.
Definition unanswered : (executed * bool) * fleet :=
  execute bare_shelf no_models skill_disk plain_words (u "/home") (u "/vault") item_payload [] 1800 (run_of [] Cancels) (fleet_of digest_vault).

